(* ===== verification/_CoqProject ===== *)
-Q . S2P
Prelude.v
Json.v
Model.v
Store.v
Prepared.v
Env.v
Provider.v
Jose.v
Delegation.v
Agents.v
Assurance.v
Claims.v
ClaimPolicy.v
Redaction.v
Identities.v
Oidc.v
Preparation.v
Token.v
Endpoints.v
Exchanges.v
Authorize.v
Pushed.v
Device.v
DeviceFlow.v
Logout.v
Credentials.v
Signin.v
Radius.v
Eap.v
Maintenance.v
Signals.v
SessionProtocol.v
SamlLogout.v
Management.v
Sessions.v
SignOut.v
Access.v
Exposure.v
RadiusServer.v
Groups.v
Reviews.v
Memberships.v
Mail.v
Lifecycle.v
