(* ===== verification/Prelude.v ===== *)
(** * riAuth: a verification development

    riAuth (src/src, Rust) is an identity provider: it signs people in, keeps
    their sessions, and issues, validates and ends OAuth 2 and OpenID Connect
    tokens for registered clients, agents and workloads.  This library models
    the part of it that decides who gets which token and for how long a token
    stays good, and proves what those decisions promise.

    ** The program

    All state is records in named buckets of one store (src/src/store.rs).  A
    protocol endpoint is a closure that [Store::read] or [Store::write] runs in
    one transaction; expensive sign-in requests run as optimistic transactions
    (src/src/store/prepared.rs) that are prepared outside the write lock and
    validated before they commit.  The token endpoint (src/src/assembly/oidc.rs,
    exchange.rs, agent_exchange.rs) authenticates a client (src/src/oidc.rs,
    jose.rs), checks the identity behind the request (src/src/core.rs,
    identity.rs, device_trust.rs), applies the client's claim policy
    (src/src/claims.rs) and assurance requirements (src/src/assurance.rs),
    creates a grant in a token family, binds it to a key (src/src/dpop.rs) and
    a resource (src/src/resource.rs), and stores it under the digest of the
    token.  Every later use of the token reads the grant back and validates it
    against the records as they are then.  Agents (src/src/agent.rs) act within
    what their owner may do at the moment of use; human administrators act
    within grants on exact targets (src/src/management.rs, delegation.rs), and
    what would raise somebody's privileges waits for other administrators.
    Access to a group can be lent for a while (src/src/pam.rs), accounts are
    invited and recovered by mail (src/src/lifecycle.rs), and a RADIUS server
    (src/src/radius.rs) answers access points for the same accounts.  A background
    sweep (src/src/store/maintenance.rs) deletes what expired.

    ** The files

    - [Prelude] (this file): errors, results, byte strings, machine integers
      and the automation shared by all files.
    - [Json]: serde_json values; [Model]: the persisted records of
      src/src/model.rs and src/src/model/, one Module per structure with the
      source's field names, its default and its methods.
    - [Store]: buckets, rows, the transaction monad [tx], [read], [write] and
      [write_flat]; the class [Touches], which states the buckets a transaction
      may change, and [Pure], which states that it changes nothing.  Both are
      the interface between components: a client's theorem uses the instances,
      an operation's file proves them.
    - [Prepared]: optimistic transactions over raw records and their
      serializability.
    - [Env]: one class with everything taken from outside the repository;
      [Demo] in it is an instance, on which the witnesses run.
    - [Provider]: names, redirect URIs, grant types, resources (resource.rs,
      provider.rs), the exchange policy (exchange.rs).
    - [Jose]: pinned keys, assertions, DPoP (jose.rs, dpop.rs).
    - [Delegation]: group memberships, access grants and human grants
      (core.rs, management.rs, delegation.rs).
    - [Agents]: editions, the owner's authority over an agent, live agent
      principals, their revocation (edition.rs, agent.rs, identity/).
    - [Assurance]: the claims parameter, ACR and step-up (assurance.rs).
    - [Claims], [ClaimPolicy]: predicates, enforcement and claims of a token;
      registration and simulation of a policy (claims.rs).
    - [Redaction]: redaction of audit details (store.rs).
    - [Identities]: the audit trail, device trust, agent approvals, sessions
      and the check of an identity for a client (core.rs, identity.rs).
    - [Oidc]: client authentication, scopes, the authorization request and its
      one-use references, signing keys (oidc.rs, authorization.rs, keyring.rs).
    - [Preparation]: the index of prepared authorization requests and the fences
      of direct decisions (assembly/oidc.rs).
    - [Token]: creating, issuing and validating a grant, chains of exchanges.
    - [Endpoints]: authorization code, client credentials, refresh, userinfo,
      introspection, revocation, proxy authentication (assembly/oidc.rs).
    - [Exchanges]: token exchange, workload grants, agent application tokens.
    - [Authorize]: the decision on an authorization request, with and without a
      session, and the response it sends (assembly/oidc.rs, response.rs).
    - [Pushed]: resolving a request by value, signed object or reference, and
      pushing one (assembly/authorization.rs, authorization.rs).
    - [Device]: the device flow, its decisions and its polling receipts
      (assembly/oidc.rs, management/devices.rs); [DeviceFlow]: its theorems.
    - [Logout]: ending relying-party sessions and delivering logout
      (identity/logout_queue.rs, assembly/logout.rs).
    - [Credentials]: passwords and their history, lockout, TOTP and recovery
      codes (crypto.rs, password.rs, authenticator.rs, identity/).
    - [Signin]: password login and password change (core.rs).
    - [Radius]: RADIUS packets (radius.rs); [Eap]: EAP-TLS conversations
      (radius/eap.rs), against the interfaces [Tls] and [EapPort].
    - [Maintenance]: the paged sweep with its cursor and the clean-ups of the
      records modelled here (store/maintenance.rs, core.rs and others).
    - [Signals]: what an ended session leaves for shared-signal streams
      (identity/signals.rs).
    - [SessionProtocol], [SignOut]: sign-out of relying parties, its confirmation
      and its return (session_protocol.rs, logout.rs, assembly/); [SamlLogout]: the
      coordinator of SAML logout (saml/logout.rs), against the interface
      [SamlPeers].
    - [Management]: principals of management credentials and the mutation writer
      with its receipts and revisions (core.rs, agent.rs), against the interface
      [ApplyLease] of reconciliation.
    - [Sessions]: the one writer that ends sessions (management/sessions.rs).
    - [Access]: requests, approvals and revocation of temporary groups
      (management/pam.rs, assembly/pam.rs) and their index (store/maintenance.rs).
    - [Exposure]: the record that an operator may know an account's credentials
      (delegation.rs).
    - [RadiusServer]: the RADIUS server over the store, which implements [EapPort],
      and client certificates (assembly/radius.rs, radius.rs).
    - [Groups]: the group index of the store and the group writer
      (store/maintenance.rs, management.rs, core.rs).
    - [Reviews]: what reviewed changes share, against the class [Reviewed] of a
      kind of proposal, and human grants (management/grants.rs); [Memberships]:
      the same of privileged group members (management/memberships.rs).
    - [Mail], [Lifecycle]: proofs sent by mail and their outbox, invitations,
      recovery and verification of accounts (lifecycle.rs, lifecycle/), against
      the interface [MailPort].

    ** What the theorems show

    - Codes and refresh tokens ([Endpoints]): a code is redeemed once, by its
      client, with its redirect URI and verifier; replay of a code or of a
      rotated refresh token is refused and still commits the end of the whole
      family; a refresh never widens scopes, lifetime, identity or resource.
    - Validity of tokens ([Token], [Identities]): a grant is accepted only
      while the grant, its family, its client, the account and the session or
      approval behind it are live; a chain of exchanges is accepted only if
      every ancestor is, has at most four exchanges, and only narrows scopes;
      an access token stays within its grant and its client's lifetime.
    - Reading and ending tokens ([Endpoints]): introspection and revocation
      serve only the clients that may manage the token; a revoked family is
      rejected everywhere.
    - Exchanges ([Exchanges]): no exchange escalates; workload tokens need a
      pinned, unused assertion; an agent's token stays within a live approval.
    - Replay ([Jose]): assertions and DPoP proofs are accepted once, with the
      exact second at which a DPoP replay record is already dead.
    - The store ([Prepared]): a committed optimistic transaction has the result
      and effect of an exclusive one, commits before what it read expires, and
      commits when an attempt is not disturbed.
    - Authority ([Delegation], [Agents]): grants count only for the object they
      were issued for; agents stay within their owners; paged reads are
      complete and terminate.
    - Policy ([Assurance], [Claims], [ClaimPolicy]): enforcement implies every
      essential requirement; a simulation that allows is confirmed by the live
      decision and sees nothing but the groups the decision needs; subjects are
      unique and cannot be mapped away.
    - Authorization ([Preparation], [Authorize], [Pushed]): a code comes from an
      approval, of a session that satisfied the policy and, where demanded,
      reauthenticated for this very request; a decision by an account is not
      repeated through a preparation; a pushed request resolves to what was
      pushed and is decided once; the code flow as a whole gives its token to
      the holder of the verifier, for the identity that approved.
    - Devices ([DeviceFlow]): tokens only for approved codes, once; decisions are
      final and made by live sessions; polling is bounded, slowed down when early
      and idempotent under a key; drawing a user code terminates.
    - Logout ([Logout]): the paged walk ends exactly the sessions a plain pass
      would; a delivery attempt is dispatched by one worker.
    - Sign-in ([Credentials], [Signin]): a login needs password and factor, a
      failed one grants nothing, five wrong guesses lock, one-time and recovery
      codes work once, a change of password ends the sessions and does not reuse
      a remembered password.
    - RADIUS ([Radius], [Eap]): decoding accepts exactly the well-formed and
      authenticated requests and terminates; passwords, responses, EAP messages
      and EAP-TLS flights survive the way to the other side; the engine of
      conversations is bounded, and an EAP accept carries the identity created
      for the certificate of that conversation.
    - The RADIUS server ([RadiusServer]): a request is answered once and its
      duplicates from the cache, while the answer would still be given; a PAP
      accept needs a login and the client's policy; a revoked certificate lets
      nobody in from that moment.
    - Maintenance ([Maintenance]): an expired row goes within as many passes as its
      bucket has pages; deleting replay records is unobservable.
    - Sign-out ([SignOut], [SamlLogout], [Sessions]): only a session the caller
      holds is ended, a request is decided once, signing out everywhere leaves
      nothing, a SAML logout accounts for every participant and terminates.
    - Management ([Management], [Groups], [Reviews], [Memberships]): a mutation runs
      once for a live principal against the revision it was decided on; the group
      index answers exactly the memberships of the groups; a privileged group
      changes only by review, and a reviewed change takes three administrators who
      are still what they were.
    - Temporary access ([Access]): a decision needs another person whom the
      configuration names; every group that counts was approved in that way and
      ends with its window or its revocation.
    - Accounts ([Mail], [Lifecycle]): a reset is worth its proof and no more, an
      invitation opens one account under an authority that still stands, a token
      works once, a message is sent once an attempt, the records stay well typed.
    - Audit ([Redaction]): no member with a sensitive name survives, at any
      depth; redaction is idempotent and leaves other details alone.

    ** Conventions of the model

    A string is its UTF-8 bytes.  A [u64] is a [Z]; additions that may pass the
    width are written [wadd] (wrapping, as in a release build), [sat_add] and
    [sat_sub].  A [BTreeSet] is a [gset], iterated in byte order by
    [btree_iter]; a [BTreeMap] is a [gmap].  A failing operation is [Err e] with
    the status, code and message the code answers with.  The clock does not
    move inside a transaction: the code reads it once per transaction or
    several times within one second.  [write] keeps the changes of a closure
    only when it succeeds; a closure that returns a [Result] inside a
    successful transaction, as replay detection does, is run by [write_flat]
    and commits although its caller sees an error.

    Recursion that is not structural has a bound that is the code's own or is
    proved sufficient: [grant_chain] has five levels because the code stops at
    depth five; [group_pages] has one step more than there are rows, and every
    page but the last consumes one; redaction has the code's 32 levels;
    [prepared_attempts] has the code's four attempts; [queue_pages] has one step
    more than there are rows; [fresh_user_code] has one draw more than there are
    codes in use; [decode_attrs] and [feed] have a turn per byte, of which each
    turn takes one at least; [drain] has a turn per byte of the 64 KiB at which
    the code stops, which is enough when TLS writes a byte at least per turn, as
    it does while it wants to write; [next_fuel] of a SAML logout has a turn for
    each target still to come and one more; [list_group_pages] has one step more
    than there are groups; a sweep takes one page per pass, as the code does.

    The class [Env] holds the digest, the random source, the crates [url],
    [base64], [jsonwebtoken] and [serde_json] (printing and parsing), signing,
    JWE encryption and the configuration.  No definition looks into
    them.  A theorem that needs one of their documented properties (a fresh
    random identifier, a digest without a collision on two given values) has it
    as a hypothesis, and its witness instantiates the class with [Demo].

    ** What is not modelled

    Derived indexes of the store other than those of groups, temporary grants and
    mail limits, and the change log that joins an audit event; encryption at rest
    and replication of the store; HTTP routing, rendering and the browser's pages;
    the XML of SAML, the LDAP, SCIM and WebAuthn protocols, and the X.509 checks
    before a certificate is bound; TLS itself and the RADIUS sockets; the workflow
    engine, which in one edition commits the resets and invitations verified here;
    registration of clients and its reviewed policies; connectors, backups and
    migrations; the decoding errors serde reports on records of an older schema.
    They move or show data the modelled code decides about, are calls of
    libraries, or are other protocols.  Of these, client registration
    (management.rs, registration.rs) and the workflow engine (workflow.rs) decide
    something of their own; the mutation writer and the classes [Reviewed] and
    [Touches] are where a model of them would start. *)

From stdpp Require Export base tactics list gmap strings sorting.
From Stdlib Require Export ZArith Lia Ascii.

#[global] Open Scope char_scope.
#[global] Open Scope string_scope.
#[global] Open Scope list_scope.
#[global] Open Scope Z_scope.

(** ** Errors (src/src/error.rs) *)

(** The HTTP status codes the modelled code answers with. *)
Definition BAD_REQUEST : Z := 400.
Definition UNAUTHORIZED : Z := 401.
Definition FORBIDDEN : Z := 403.
Definition NOT_FOUND : Z := 404.
Definition CONFLICT : Z := 409.
Definition TOO_MANY_REQUESTS : Z := 429.
Definition INTERNAL_SERVER_ERROR : Z := 500.
Definition SERVICE_UNAVAILABLE : Z := 503.

Module Error.
Record t := new {
  status : Z;
  code : string;
  message : string;
}.

#[global] Instance eq_dec : EqDecision t.
Proof. solve_decision. Defined.

(** [StatusCode::is_client_error] and [is_server_error]. *)
Definition is_client_error (e : t) : bool := (400 <=? e.(status)) && (e.(status) <? 500).
Definition is_server_error (e : t) : bool := (500 <=? e.(status)) && (e.(status) <? 600).

Definition bad (message : string) : t := new BAD_REQUEST "invalid_request" message.
Definition oauth (code message : string) : t := new BAD_REQUEST code message.
Definition unauthorized : t :=
  new UNAUTHORIZED "invalid_token" "Authentication required or session expired".
Definition unauthenticated : t :=
  new UNAUTHORIZED "authentication_required" "Bearer authentication required".
Definition forbidden : t := new FORBIDDEN "access_denied" "Access denied".
Definition missing (message : string) : t := new NOT_FOUND "not_found" message.
Definition conflict (message : string) : t := new CONFLICT "conflict" message.
Definition internal : t :=
  new INTERNAL_SERVER_ERROR "server_error" "Internal server error".
End Error.

Inductive Result (A : Type) : Type :=
| Ok (a : A)
| Err (e : Error.t).
Arguments Ok {A} a.
Arguments Err {A} e.

#[global] Instance result_eq_dec {A} `{EqDecision A} : EqDecision (Result A).
Proof. solve_decision. Defined.

(** [Result] is a monad: Rust's [?] operator is [≫=]. *)
#[export] Instance result_ret : MRet Result := λ A a, Ok a.
#[export] Instance result_bind : MBind Result := λ A B f m,
  match m with Ok a => f a | Err e => Err e end.
#[export] Instance result_fmap : FMap Result := λ A B f m,
  match m with Ok a => Ok (f a) | Err e => Err e end.

Definition is_ok {A} (r : Result A) : bool :=
  match r with Ok _ => true | Err _ => false end.

(** [Option::ok_or] and [Result::map_err]. *)
Definition ok_or {A} (o : option A) (e : Error.t) : Result A :=
  match o with Some a => Ok a | None => Err e end.
Definition map_err {A} (f : Error.t → Error.t) (r : Result A) : Result A :=
  match r with Ok a => Ok a | Err e => Err (f e) end.

(** ** Fixed-width integers

    A [u64] is a [Z] in [0, 2^64).  [+] on [u64] wraps in the release build
    (Cargo.toml turns no overflow check on); [saturating_add] and
    [saturating_sub] clamp. *)

Definition u64_max : Z := 2 ^ 64 - 1.
Definition u64 (z : Z) : Prop := 0 ≤ z ≤ u64_max.
Definition wadd (a b : Z) : Z := (a + b) mod 2 ^ 64.
Definition sat_add (a b : Z) : Z := Z.min (a + b) u64_max.
Definition sat_sub (a b : Z) : Z := Z.max (a - b) 0.

Lemma wadd_small a b : 0 ≤ a → 0 ≤ b → a + b ≤ u64_max → wadd a b = a + b.
Proof. unfold wadd, u64_max. intros. apply Z.mod_small. lia. Qed.

Lemma wadd_bound a b : u64 (wadd a b).
Proof. unfold u64, wadd, u64_max. pose proof (Z.mod_pos_bound (a + b) (2^64)). lia. Qed.

Lemma sat_add_bound a b : u64 a → u64 b → u64 (sat_add a b).
Proof. unfold u64, sat_add, u64_max. lia. Qed.

Lemma sat_sub_bound a b : u64 a → u64 b → u64 (sat_sub a b).
Proof. unfold u64, sat_sub, u64_max. lia. Qed.

(** ** Strings

    A Rust [str] is its UTF-8 bytes: [str::len] is [String.length].  The
    functions of [core::str] the modelled code calls are written out here. *)

Module Str.
Definition len (s : string) : Z := Z.of_nat (String.length s).
Definition is_empty (s : string) : bool := bool_decide (s = "").

Fixpoint bytes (s : string) : list Ascii.ascii :=
  match s with
  | EmptyString => []
  | String c s => c :: bytes s
  end.
Fixpoint of_bytes (l : list Ascii.ascii) : string :=
  match l with [] => EmptyString | c :: l => String c (of_bytes l) end.

(** [str::strip_prefix]. *)
Fixpoint strip_prefix (p s : string) : option string :=
  match p, s with
  | EmptyString, _ => Some s
  | String a p, String b s => if Ascii.eqb a b then strip_prefix p s else None
  | String _ _, EmptyString => None
  end.
Definition starts_with (s p : string) : bool :=
  match strip_prefix p s with Some _ => true | None => false end.

(** [str::split] on one character: the pieces, empty ones included. *)
Fixpoint split (c : Ascii.ascii) (s : string) : list string :=
  match s with
  | EmptyString => [EmptyString]
  | String b s =>
      if Ascii.eqb b c then EmptyString :: split c s
      else match split c s with
           | [] => [String b EmptyString]
           | p :: ps => String b p :: ps
           end
  end.

(** [str::split_once] on one character. *)
Fixpoint split_once (c : Ascii.ascii) (s : string) : option (string * string) :=
  match s with
  | EmptyString => None
  | String b s =>
      if Ascii.eqb b c then Some (EmptyString, s)
      else match split_once c s with
           | Some (l, r) => Some (String b l, r)
           | None => None
           end
  end.

(** [[String]::join]. *)
Fixpoint join (sep : string) (l : list string) : string :=
  match l with
  | [] => EmptyString
  | [s] => s
  | s :: l => s +:+ sep +:+ join sep l
  end.

Definition contains_byte (c : Ascii.ascii) (s : string) : bool :=
  existsb (Ascii.eqb c) (bytes s).
Definition count_byte (c : Ascii.ascii) (s : string) : Z :=
  Z.of_nat (length (List.filter (Ascii.eqb c) (bytes s))).

(** [str::trim_end_matches] on one character. *)
Fixpoint trim_end_matches (c : Ascii.ascii) (s : string) : string :=
  match s with
  | EmptyString => EmptyString
  | String b s =>
      match trim_end_matches c s with
      | EmptyString => if Ascii.eqb b c then EmptyString else String b EmptyString
      | t => String b t
      end
  end.

Definition code (c : Ascii.ascii) : Z := Z.of_N (Ascii.N_of_ascii c).
Definition between (lo c hi : Z) : bool := (lo <=? c) && (c <=? hi).
Definition is_ascii_digit (c : Ascii.ascii) : bool := between 48 (code c) 57.
Definition is_ascii_upper (c : Ascii.ascii) : bool := between 65 (code c) 90.
Definition is_ascii_lower (c : Ascii.ascii) : bool := between 97 (code c) 122.
Definition is_ascii_alphanumeric (c : Ascii.ascii) : bool :=
  is_ascii_digit c || is_ascii_upper c || is_ascii_lower c.
Definition to_ascii_uppercase_byte (c : Ascii.ascii) : Ascii.ascii :=
  if is_ascii_lower c then Ascii.ascii_of_N (Ascii.N_of_ascii c - 32) else c.

(** [str::chars]: each character with its code point and its bytes. The
    lead byte gives the length of the sequence; a [str] is valid UTF-8. *)
Fixpoint chars_fuel (fuel : nat) (l : list Ascii.ascii) : list (Z * list Ascii.ascii) :=
  match fuel, l with
  | O, _ | _, [] => []
  | S fuel, a :: l =>
      let c := code a in
      let cont b := Z.land (code b) 63 in
      if c <? 128 then (c, [a]) :: chars_fuel fuel l
      else if c <? 224 then
        match l with
        | b :: l => (Z.lor (Z.shiftl (Z.land c 31) 6) (cont b), [a; b]) :: chars_fuel fuel l
        | _ => []
        end
      else if c <? 240 then
        match l with
        | b :: d :: l =>
            (Z.lor (Z.shiftl (Z.land c 15) 12) (Z.lor (Z.shiftl (cont b) 6) (cont d)),
              [a; b; d]) :: chars_fuel fuel l
        | _ => []
        end
      else
        match l with
        | b :: d :: e :: l =>
            (Z.lor (Z.shiftl (Z.land c 7) 18)
               (Z.lor (Z.shiftl (cont b) 12) (Z.lor (Z.shiftl (cont d) 6) (cont e))),
              [a; b; d; e]) :: chars_fuel fuel l
        | _ => []
        end
  end.
Definition chars (s : string) : list (Z * list Ascii.ascii) :=
  chars_fuel (String.length s) (bytes s).

(** [char::is_control] and [char::is_whitespace] (White_Space). *)
Definition is_control (c : Z) : bool := between 0 c 31 || between 127 c 159.
Definition is_whitespace (c : Z) : bool :=
  between 9 c 13 || between 8192 c 8202
  || bool_decide (c ∈ [32; 133; 160; 5760; 8232; 8233; 8239; 8287; 12288]).

(** [str::split_whitespace]: the nonempty runs between white space. *)
Fixpoint words_of (cs : list (Z * list Ascii.ascii)) (cur : list Ascii.ascii) : list string :=
  let flush := match cur with [] => [] | _ => [of_bytes cur] end in
  match cs with
  | [] => flush
  | (c, b) :: cs => if is_whitespace c then flush ++ words_of cs [] else words_of cs (cur ++ b)
  end.
Definition split_whitespace (s : string) : list string := words_of (chars s) [].

#[global] Arguments split c%_char s%_string.
#[global] Arguments split_once c%_char s%_string.
#[global] Arguments contains_byte c%_char s%_string.
#[global] Arguments count_byte c%_char s%_string.
#[global] Arguments trim_end_matches c%_char s%_string.

(** [str::parse] for an unsigned integer up to [max]: an optional plus sign and
    digits. *)
Fixpoint digits_value (max : Z) (l : list Ascii.ascii) (acc : Z) : option Z :=
  match l with
  | [] => Some acc
  | c :: l =>
      if is_ascii_digit c then
        let acc := 10 * acc + (code c - 48) in
        if acc <=? max then digits_value max l acc else None
      else None
  end.
Definition parse_unsigned (max : Z) (s : string) : option Z :=
  match bytes s with
  | [] => None
  | ["+"%char] => None
  | "+"%char :: l => digits_value max l 0
  | l => digits_value max l 0
  end.
Definition parse_u64 : string → option Z := parse_unsigned u64_max.
Definition parse_u32 : string → option Z := parse_unsigned (2 ^ 32 - 1).
End Str.

Lemma strip_prefix_spec p s r : Str.strip_prefix p s = Some r ↔ s = p +:+ r.
Proof.
  revert s. induction p as [|a p IH]; intros s; simpl.
  { split; [by intros [= ->]|by intros ->]. }
  destruct s as [|b s]; [by split|]. destruct (Ascii.eqb_spec a b) as [->|].
  - rewrite IH. split; [by intros ->|by intros [= ->]].
  - split; [done|by intros [= ->]].
Qed.

Lemma split_once_spec c s l r : Str.split_once c s = Some (l, r) → s = l +:+ String c r.
Proof.
  revert l. induction s as [|b s IH]; intros l; simpl; [done|].
  destruct (Ascii.eqb_spec b c) as [->|]; [by intros [= <- <-]|].
  destruct (Str.split_once c s) as [[l' r']|]; [|done]. intros [= <- <-].
  rewrite (IH l') by done. done.
Qed.

(** The iteration order of a [BTreeSet<String>] or of the keys of a [BTreeMap]:
    byte-wise lexicographic, the [Ord] of Rust strings. *)
Definition btree_iter (s : gset string) : list string :=
  merge_sort String.le (elements s).

(** The entries of a [BTreeMap<String, _>] in iteration order. *)
Definition btree_entries {V} (m : gmap string V) : list (string * V) :=
  omap (λ k, (k,.) <$> m !! k) (btree_iter (dom m)).

Lemma elem_of_btree_iter s x : x ∈ btree_iter s ↔ x ∈ s.
Proof. unfold btree_iter. by rewrite (merge_sort_Permutation String.le), elem_of_elements. Qed.

Lemma elem_of_btree_entries {V} (m : gmap string V) k v :
  (k, v) ∈ btree_entries m ↔ m !! k = Some v.
Proof.
  unfold btree_entries. rewrite list_elem_of_omap. split.
  - intros (k' & _ & Hk). destruct (m !! k') eqn:E; simplify_eq/=. done.
  - intros Hk. exists k. rewrite elem_of_btree_iter, elem_of_dom, Hk. eauto.
Qed.

(** [scopes.iter().cloned().collect::<Vec<_>>().join(" ")]. *)
Definition scope_string (s : gset string) : string := Str.join " " (btree_iter s).

Example split_spaces : Str.split " " "a b  c" = ["a"; "b"; ""; "c"].
Proof. reflexivity. Qed.
Example split_ws : Str.split_whitespace "  a  bc " = ["a"; "bc"].
Proof. vm_compute. reflexivity. Qed.
Example scope_sorted : scope_string {["profile"; "openid"; "email"]} = "email openid profile".
Proof. vm_compute. reflexivity. Qed.

(** ** Lists *)

Lemma filter_partition_length {A} (f : A → bool) (l : list A) :
  (length (List.filter f l) + length (List.filter (λ x, negb (f x)) l))%nat = length l.
Proof. induction l as [|x l IH]; [done|]. simpl. destruct (f x); simpl; lia. Qed.

Lemma omap_ext_in {A B} (f g : A → option B) (l : list A) :
  (∀ x, x ∈ l → f x = g x) → omap f l = omap g l.
Proof.
  induction l as [|x l IH]; intros H; csimpl; [done|].
  rewrite (H x) by set_solver. rewrite IH by set_solver. done.
Qed.

(** A closed equation, by one evaluation. *)
Ltac by_vm := match goal with |- _ = ?r => vm_cast_no_check (eq_refl r) end.

(** The equation of a run that has a name. Only its result is evaluated, never the
    two states against each other, so the equation is cheap for a checker that
    has no virtual machine. *)
Lemma ran_value {A S} (p : A * S) r : p.1 = r → p = (r, p.2).
Proof. by intros <-; destruct p. Qed.
Lemma ran_ok {A S} (f : Result A → A) (p : Result A * S) :
  (∀ v, f (Ok v) = v) → is_ok p.1 = true → p = (Ok (f p.1), p.2).
Proof. intros Hf Hp. destruct p as [[v|e] s]; [|discriminate]. cbn. by rewrite Hf. Qed.
Ltac ran f p := refine (ran_ok f p (λ _, eq_refl) _); by_vm.

(** ** Boolean conditions

    Turn the boolean conditions of a run into propositions. *)
Ltac bools :=
  repeat match goal with
  | H : _ && _ = true |- _ => apply andb_true_iff in H as [? ?]
  | H : _ || _ = false |- _ => apply orb_false_iff in H as [? ?]
  | H : negb _ = true |- _ => apply negb_true_iff in H
  | H : negb _ = false |- _ => apply negb_false_iff in H
  | H : ?b = ?b |- _ => clear H
  | H : true = false |- _ => discriminate H
  | H : false = true |- _ => discriminate H
  | H : true = _ |- _ => symmetry in H
  | H : false = _ |- _ => symmetry in H
  | H : String.eqb _ _ = true |- _ => apply String.eqb_eq in H
  | H : String.eqb _ _ = false |- _ => apply String.eqb_neq in H
  | H : bool_decide _ = true |- _ => apply bool_decide_eq_true in H
  | H : bool_decide _ = false |- _ => apply bool_decide_eq_false in H
  | H : Z.ltb _ _ = true |- _ => apply Z.ltb_lt in H
  | H : Z.ltb _ _ = false |- _ => apply Z.ltb_ge in H
  | H : Z.leb _ _ = true |- _ => apply Z.leb_le in H
  | H : Z.leb _ _ = false |- _ => apply Z.leb_gt in H
  end; simplify_eq/=.
