(* ===== verification/Json.v ===== *)
(** * JSON values (serde_json::Value)

    The dynamic values the program keeps in user attributes, claim mappings,
    claims requests and token claims.  An object is its association list in
    key order, the order of serde_json's default map; [insert] keeps it.
    Numbers are the integers the program itself writes (times, lifetimes). *)

From S2P Require Import Prelude.

#[local] Set Warnings "-register-all".

Inductive json : Type :=
| JNull
| JBool (b : bool)
| JNum (z : Z)
| JStr (s : string)
| JArr (l : list json)
| JObj (l : list (string * json)).

Module Json.
(** Induction with the hypothesis available under arrays and objects. *)
Section ind.
Context (P : json → Prop).
Hypothesis Hnull : P JNull.
Hypothesis Hbool : ∀ b, P (JBool b).
Hypothesis Hnum : ∀ z, P (JNum z).
Hypothesis Hstr : ∀ s, P (JStr s).
Hypothesis Harr : ∀ l, Forall P l → P (JArr l).
Hypothesis Hobj : ∀ l, Forall (P ∘ snd) l → P (JObj l).

Fixpoint ind (v : json) : P v :=
  match v with
  | JNull => Hnull
  | JBool b => Hbool b
  | JNum z => Hnum z
  | JStr s => Hstr s
  | JArr l =>
      Harr l ((fix go l : Forall P l :=
        match l with
        | [] => List.Forall_nil _
        | v :: l => List.Forall_cons _ _ _ (ind v) (go l)
        end) l)
  | JObj l =>
      Hobj l ((fix go l : Forall (P ∘ snd) l :=
        match l with
        | [] => List.Forall_nil _
        | (k, v) :: l => List.Forall_cons _ (k, v) _ (ind v) (go l)
        end) l)
  end.
End ind.

Fixpoint eqb (v w : json) {struct v} : bool :=
  match v, w with
  | JNull, JNull => true
  | JBool a, JBool b => Bool.eqb a b
  | JNum a, JNum b => a =? b
  | JStr a, JStr b => String.eqb a b
  | JArr l, JArr k =>
      (fix go (l k : list json) : bool :=
        match l, k with
        | [], [] => true
        | a :: l, b :: k => eqb a b && go l k
        | _, _ => false
        end) l k
  | JObj l, JObj k =>
      (fix go (l k : list (string * json)) : bool :=
        match l, k with
        | [], [] => true
        | (i, a) :: l, (j, b) :: k => String.eqb i j && eqb a b && go l k
        | _, _ => false
        end) l k
  | _, _ => false
  end.

Lemma eqb_eq v : ∀ w, eqb v w = true ↔ v = w.
Proof.
  induction v as [|b|z|s|l IH|l IH] using ind; intros [| | | |k|k]; simpl;
    try (split; congruence).
  - rewrite Bool.eqb_true_iff. split; congruence.
  - rewrite Z.eqb_eq. split; congruence.
  - rewrite String.eqb_eq. split; congruence.
  - revert k. induction IH as [|a l Ha _ IH]; intros [|b k]; try (split; congruence).
    rewrite andb_true_iff, Ha, IH. split; [intros [-> [= ->]]; done|by intros [= -> ->]].
  - revert k. induction IH as [|[i a] l Ha _ IH]; intros [|[j b] k]; try (split; congruence).
    rewrite !andb_true_iff, String.eqb_eq, IH. simpl in Ha. rewrite Ha.
    split; [intros [[-> ->] [= ->]]; done|by intros [= -> -> ->]].
Qed.

#[global] Instance eq_dec : EqDecision json.
Proof.
  intros v w. destruct (eqb v w) eqn:E.
  - left. by apply eqb_eq.
  - right. intros H%eqb_eq. congruence.
Defined.

(** Key-ordered insertion: serde_json's [Map::insert]. *)
Fixpoint insert_obj (k : string) (v : json) (l : list (string * json)) :
    list (string * json) :=
  match l with
  | [] => [(k, v)]
  | (j, w) :: l =>
      match String.compare k j with
      | Lt => (k, v) :: (j, w) :: l
      | Eq => (k, v) :: l
      | Gt => (j, w) :: insert_obj k v l
      end
  end.
Definition obj (l : list (string * json)) : json :=
  JObj (foldl (λ acc kv, insert_obj kv.1 kv.2 acc) [] l).

Fixpoint assoc (k : string) (l : list (string * json)) : option json :=
  match l with
  | [] => None
  | (j, w) :: l => if String.eqb k j then Some w else assoc k l
  end.

(** [value.get(k)] and the indexing [value[k]], null when absent. *)
Definition get (k : string) (v : json) : option json :=
  match v with JObj l => assoc k l | _ => None end.
Definition index (v : json) (k : string) : json := default JNull (get k v).

(** [value[k] = w] on an object. *)
Definition set (k : string) (w : json) (v : json) : json :=
  match v with JObj l => JObj (insert_obj k w l) | _ => v end.

(** [Map::extend]: the second object's entries win. *)
Definition extend (v : json) (kvs : list (string * json)) : json :=
  foldl (λ acc kv, set kv.1 kv.2 acc) v kvs.

Definition as_str (v : json) : option string :=
  match v with JStr s => Some s | _ => None end.
Definition as_u64 (v : json) : option Z :=
  match v with JNum z => if (0 <=? z) && (z <=? u64_max) then Some z else None | _ => None end.
Definition is_null (v : json) : bool := match v with JNull => true | _ => false end.

Definition of_option {A} (f : A → json) (o : option A) : json :=
  match o with Some a => f a | None => JNull end.
Definition strs (l : list string) : json := JArr (JStr <$> l).

Lemma compare_eq a b : String.compare a b = Eq → a = b.
Proof. apply String.compare_eq_iff. Qed.

Lemma assoc_insert_eq k v l : assoc k (insert_obj k v l) = Some v.
Proof.
  induction l as [|[j w] l IH]; simpl; [by rewrite String.eqb_refl|].
  destruct (String.compare k j) eqn:E; simpl.
  - by rewrite String.eqb_refl.
  - by rewrite String.eqb_refl.
  - destruct (String.eqb_spec k j) as [->|]; [|done].
    pose proof (String.compare_antisym j j) as A. by rewrite E in A.
Qed.

Lemma assoc_insert_ne k j v l : k ≠ j → assoc j (insert_obj k v l) = assoc j l.
Proof.
  intros Hne. induction l as [|[i w] l IH]; simpl.
  - by destruct (String.eqb_spec j k).
  - destruct (String.compare k i) eqn:E; simpl.
    + apply compare_eq in E as ->. by destruct (String.eqb_spec j i).
    + by destruct (String.eqb_spec j k).
    + destruct (String.eqb_spec j i); [done|]. apply IH.
Qed.

Lemma get_set_eq k w l : get k (set k w (JObj l)) = Some w.
Proof. apply assoc_insert_eq. Qed.
Lemma get_set_ne k j w v : k ≠ j → get j (set k w v) = get j v.
Proof. destruct v; try done. simpl. apply assoc_insert_ne. Qed.
End Json.
