(* ===== verification/Model.v ===== *)
(** * Persisted records (src/src/model.rs and src/src/model/)

    The structures the service stores: users, groups, clients with their
    provider settings, sessions, authorization codes, device requests, grants,
    token families and the authentication transactions of prepared requests.
    Field names follow the source; a [BTreeSet<String>] is a [gset string], a
    [BTreeMap<String, _>] a [gmap string _], a [u64] a [Z]. *)

From S2P Require Import Prelude Json.

(** ** model/federation.rs, model/exchange.rs, model/jwk.rs, model/credential.rs *)

Module SourceIdentity.
Record t := mk {
  id : string;
  fingerprint : string;
  link : string;
  authorization_expires_at : option Z;
  pin_retired : bool;
}.
End SourceIdentity.

Module ExchangeGrant.
Record t := mk {
  requester_id : string;
  subject_hash : string;
  actor_hash : option string;
  act : option json;
  service_subject : option string;
}.
End ExchangeGrant.

Module PublicJwk.
Record t := mk {
  kty : string;
  kid : string;
  alg : string;
  usage : option string;
  key_ops : list string;
  n : option string;
  e : option string;
  crv : option string;
  x : option string;
  y : option string;
}.
#[global] Instance eq_dec : EqDecision t.
Proof. solve_decision. Defined.
End PublicJwk.

Abbreviation PublicJwks := (list PublicJwk.t).

Module TotpSettings.
Record t := mk { algorithm : string; digits : Z; period : Z }.
Definition default : t := mk "SHA1" 6 30.
End TotpSettings.

(** ** model/assurance.rs *)

Module Requirement.
Record t := mk {
  essential : bool;
  value : option json;
  values : option (list json);
}.
End Requirement.

Module ClaimsRequest.
Record t := mk {
  id_token : gmap string (option Requirement.t);
  userinfo : gmap string (option Requirement.t);
}.
Definition default : t := mk ∅ ∅.
End ClaimsRequest.

(** ** model/claims.rs *)

Inductive ClaimSource :=
| Username
| DisplayName
| Email
| EmailVerified
| Groups
| Attribute (key : string)
| Literal (value : json).

Module ClaimMapping.
Record t := mk { scope : string; claim : string; source : ClaimSource }.
End ClaimMapping.

Module Rule.
Record t := mk {
  all_groups : gset string;
  any_groups : gset string;
  denied_groups : gset string;
  users : gset string;
  denied_users : gset string;
  require_mfa : bool;
}.
Definition default : t := mk ∅ ∅ ∅ ∅ ∅ false.
#[global] Instance eq_dec : EqDecision t.
Proof. solve_decision. Defined.
End Rule.

Inductive AuthenticationProof := ProofPassword | ProofPasskey | ProofSource.
Inductive AssuranceLevel := LevelPassword | LevelMfa | LevelFederated | LevelCertificate.
#[global] Instance assurance_level_eq_dec : EqDecision AssuranceLevel.
Proof. solve_decision. Defined.

#[local] Set Warnings "-register-all".
Inductive Predicate :=
| Application (id : string)
| GroupMember (group : string)
| VerifiedSource (source : string)
| ProofFresh (proof : AuthenticationProof) (max_age_seconds : Z)
| Assurance (level : AssuranceLevel)
| ApprovedDevice (max_age_seconds : Z)
| All (preds : list Predicate)
| Any (preds : list Predicate)
| Not (condition : Predicate).

Module ConditionalClaimMapping.
Record t := mk { mapping : ClaimMapping.t; when : Predicate }.
End ConditionalClaimMapping.

Module ConditionalPolicy.
Record t := mk {
  access : list Predicate;
  scopes : gmap string (list Predicate);
  claim_mappings : list ConditionalClaimMapping.t;
}.
End ConditionalPolicy.

Module Policy.
Record t := mk {
  access : Rule.t;
  scopes : gmap string Rule.t;
  conditional : option ConditionalPolicy.t;
}.
Definition default : t := mk Rule.default ∅ None.
End Policy.

(** ** model/client_config.rs *)

Inductive ClientAuthMethod := AuthNone | ClientSecretBasic | ClientSecretPost | PrivateKeyJwt.
#[global] Instance client_auth_method_eq_dec : EqDecision ClientAuthMethod.
Proof. solve_decision. Defined.

Module MachineTrust.
Record t := mk {
  issuer : string;
  subject : string;
  jwks : PublicJwks;
  scopes : gset string;
}.
#[global] Instance eq_dec : EqDecision t.
Proof. solve_decision. Defined.
End MachineTrust.

Module ExchangePolicy.
Record t := mk {
  subject_clients : gset string;
  target_clients : gset string;
  scopes : gset string;
  allow_impersonation : bool;
  allow_delegation : bool;
}.
End ExchangePolicy.

Module EncryptionKey.
Record t := mk { content_encryption : string; kid : string; public_key_pem : string }.
End EncryptionKey.

(** ** model/client_settings.rs *)

Module AppSettings.
Record t := mk {
  description : string;
  category : string;
  launch_url : option string;
  hidden : bool;
  icon : string;
  accent : string;
  launch_scopes : gset string;
}.
End AppSettings.

Inductive NameIdFormat := Persistent | Transient | NameIdEmail | Unspecified.

Module SamlAttribute.
Record t := mk {
  name : string; claim : string; friendly_name : option string; required : bool }.
End SamlAttribute.

Module SamlSettings.
Record t := mk {
  sp_entity_id : string;
  acs_urls : list string;
  acs_indices : list (Z * string);
  idp_entity_id : option string;
  idp_certificate_pem : string;
  sp_certificates_pem : list string;
  encryption_certificate_pem : option string;
  name_id_format : NameIdFormat;
  attributes : list SamlAttribute.t;
  slo_redirect_url : option string;
  slo_post_url : option string;
  idp_initiated : bool;
  default_relay_state : option string;
  assertion_ttl : Z;
}.
End SamlSettings.

Inductive ReplyValue :=
| ReplyText (s : string)
| ReplyInteger (n : Z)
| ReplyIpv4 (a b c d : Z)
| ReplyAttribute (s : string).
Inductive RadiusAttribute :=
| Standard (code : Z) (value : ReplyValue)
| Vendor (vendor code : Z) (value : ReplyValue).

Module RadiusSettings.
Record t := mk { eap_tls : bool; reply : list RadiusAttribute }.
End RadiusSettings.

Module LdapSettings.
Record t := mk { base_dn : string; search_groups : gset string }.
End LdapSettings.

Module ProxyDomain.
Record t := mk { cookie_domain : string; application_origins : gset string }.
End ProxyDomain.

Module ProxySettings.
Record t := mk { domain : option ProxyDomain.t; external_origin : string; session_ttl : Z }.
End ProxySettings.

(** ** Clients *)

Module ProviderSettings.
Record t := mk {
  app : option AppSettings.t;
  saml : option SamlSettings.t;
  radius : option RadiusSettings.t;
  ldap : option LdapSettings.t;
  proxy : option ProxySettings.t;
  resources : gmap string (gset string);
  issuer : option string;
  token_endpoint_auth_method : option ClientAuthMethod;
  jwks : option PublicJwks;
  machine_trust : list MachineTrust.t;
  exchange : option ExchangePolicy.t;
  exchange_from : gset string;
  signing_key : option string;
  id_token_encryption : option EncryptionKey.t;
  access_token_encryption : option EncryptionKey.t;
  userinfo_encryption : option EncryptionKey.t;
  userinfo_signed_response : bool;
  authorization_encryption : option EncryptionKey.t;
  default_acr_values : list string;
  require_pushed_authorization_requests : bool;
  require_signed_request : bool;
  pairwise_sector : option string;
  token_managers : gset string;
  dpop_bound_access_tokens : bool;
  native : bool;
  allowed_grants : gset string;
  access_token_ttl : option Z;
  refresh_token_ttl : option Z;
  code_ttl : option Z;
  device_ttl : option Z;
  origins : gset string;
  post_logout_redirect_uris : list string;
  backchannel_logout_uri : option string;
  frontchannel_logout_uri : option string;
  claim_mappings : list ClaimMapping.t;
  groups_in_profile : bool;
  claims_in_access_token : bool;
  userinfo_only : bool;
  policy : Policy.t;
  source_stage : option string;
  require_device_trust : bool;
  implicit_consent : bool;
  agent_access : bool;
}.

(** [#[derive(Default)]]. *)
Definition default : t :=
  mk None None None None None ∅ None None None [] None ∅ None None None None false None
    [] false false None ∅ false false ∅ None None None None ∅ [] None None [] false false
    false Policy.default None false false false.

Definition authentication_credentials_differ (a b : t) : bool :=
  bool_decide (a.(jwks) ≠ b.(jwks))
  || bool_decide (a.(token_endpoint_auth_method) ≠ b.(token_endpoint_auth_method))
  || bool_decide (a.(machine_trust) ≠ b.(machine_trust)).
End ProviderSettings.

Module Client.
Record t := mk {
  id : string;
  name : string;
  secret_hash : option string;
  redirect_uris : list string;
  scopes : gset string;
  allowed_groups : gset string;
  require_mfa : bool;
  enabled : bool;
  service : bool;
  settings : ProviderSettings.t;
}.

Definition confidential (c : t) : bool :=
  bool_decide (is_Some c.(secret_hash))
  || bool_decide (c.(settings).(ProviderSettings.token_endpoint_auth_method)
                  = Some PrivateKeyJwt).
End Client.

(** ** Users, groups and sessions *)

Module User.
Record t := mk {
  has_passkeys : bool;
  totp_settings : TotpSettings.t;
  pairwise_seed : string;
  id : string;
  username : string;
  email : option string;
  display_name : string;
  password_hash : string;
  enabled : bool;
  admin : bool;
  epoch : Z;
  totp_secret : option string;
  totp_pending : option (string * Z);
  totp_last_step : option Z;
  created_at : Z;
  attributes : gmap string json;
  email_verified : bool;
  subjects : gmap string string;
  recovery_codes : gset string;
}.
End User.

Module Group.
Record t := mk { name : string; members : gset string }.
End Group.

Module Identity.
Record t := mk {
  amr : list string;
  source : option SourceIdentity.t;
  user_id : string;
  epoch : Z;
  mfa : bool;
  auth_time : Z;
  session_id : string;
}.

Definition authentication_methods (i : t) : list string :=
  match i.(amr) with
  | _ :: _ => i.(amr)
  | [] => if i.(mfa) then ["pwd"; "otp"] else ["pwd"]
  end.
End Identity.

Module Session.
Record t := mk {
  id : string;
  token_hash : string;
  identity : Identity.t;
  expires_at : Z;
  revoked : bool;
}.
End Session.

(** ** Authorization state *)

Module Code.
Record t := mk {
  resource : option string;
  dpop_jkt : option string;
  claims_request : ClaimsRequest.t;
  acr_values : option string;
  client_id : string;
  identity : Identity.t;
  redirect_uri : string;
  challenge : string;
  scopes : gset string;
  nonce : option string;
  expires_at : Z;
  issued_family : option string;
}.

(** The update [exchange_code] makes when it redeems the code. *)
Definition redeemed (c : t) (jkt : option string) (family : string) (exp : Z) : t :=
  mk c.(resource) jkt c.(claims_request) c.(acr_values) c.(client_id) c.(identity)
    c.(redirect_uri) c.(challenge) c.(scopes) c.(nonce) exp (Some family).
End Code.

Module AuthenticationTransaction.
Record t := mk {
  request_hash : string;
  user_id : option string;
  authenticated_session : option string;
  expires_at : Z;
  source_stage : option string;
}.
End AuthenticationTransaction.

Inductive DeviceStatus :=
| Pending
| Approved (identity : Identity.t)
| Denied.

Module Device.
Record t := mk {
  resource : option string;
  client_id : string;
  user_code_hash : string;
  scopes : gset string;
  expires_at : Z;
  last_poll_at : option Z;
  interval : Z;
  status : DeviceStatus;
}.

Definition polled (d : t) (at_ interval : Z) : t :=
  mk d.(resource) d.(client_id) d.(user_code_hash) d.(scopes) d.(expires_at)
    (Some at_) interval d.(status).
Definition decided (d : t) (s : DeviceStatus) : t :=
  mk d.(resource) d.(client_id) d.(user_code_hash) d.(scopes) d.(expires_at)
    d.(last_poll_at) d.(interval) s.
End Device.

Module AgentApplication.
Record t := mk { approval : string; credential : string }.
End AgentApplication.

Module Grant.
Record t := mk {
  resource : option string;
  confirmation_jkt : option string;
  id_token_jkt : option string;
  claims_request : ClaimsRequest.t;
  acr_values : option string;
  machine_trust_hash : option string;
  exchange : option ExchangeGrant.t;
  agent_application : option AgentApplication.t;
  client_id : string;
  identity : option Identity.t;
  scopes : gset string;
  nonce : option string;
  family_id : string;
  issued_at : Z;
  expires_at : Z;
  used : bool;
}.

Definition set_resource (g : t) (r : option string) : t :=
  mk r g.(confirmation_jkt) g.(id_token_jkt) g.(claims_request) g.(acr_values)
    g.(machine_trust_hash) g.(exchange) g.(agent_application) g.(client_id) g.(identity)
    g.(scopes) g.(nonce) g.(family_id) g.(issued_at) g.(expires_at) g.(used).
Definition set_jkts (g : t) (confirmation id_token : option string) : t :=
  mk g.(resource) confirmation id_token g.(claims_request) g.(acr_values)
    g.(machine_trust_hash) g.(exchange) g.(agent_application) g.(client_id) g.(identity)
    g.(scopes) g.(nonce) g.(family_id) g.(issued_at) g.(expires_at) g.(used).
Definition set_request (g : t) (c : ClaimsRequest.t) (acr : option string) : t :=
  mk g.(resource) g.(confirmation_jkt) g.(id_token_jkt) c acr
    g.(machine_trust_hash) g.(exchange) g.(agent_application) g.(client_id) g.(identity)
    g.(scopes) g.(nonce) g.(family_id) g.(issued_at) g.(expires_at) g.(used).
Definition set_exchange (g : t) (e : option ExchangeGrant.t) : t :=
  mk g.(resource) g.(confirmation_jkt) g.(id_token_jkt) g.(claims_request) g.(acr_values)
    g.(machine_trust_hash) e g.(agent_application) g.(client_id) g.(identity)
    g.(scopes) g.(nonce) g.(family_id) g.(issued_at) g.(expires_at) g.(used).
Definition set_scopes (g : t) (s : gset string) : t :=
  mk g.(resource) g.(confirmation_jkt) g.(id_token_jkt) g.(claims_request) g.(acr_values)
    g.(machine_trust_hash) g.(exchange) g.(agent_application) g.(client_id) g.(identity)
    s g.(nonce) g.(family_id) g.(issued_at) g.(expires_at) g.(used).
(** [issued_at], [expires_at] and [used] of the stored copy of a grant. *)
Definition stamp (g : t) (issued expires : Z) (used : bool) : t :=
  mk g.(resource) g.(confirmation_jkt) g.(id_token_jkt) g.(claims_request) g.(acr_values)
    g.(machine_trust_hash) g.(exchange) g.(agent_application) g.(client_id) g.(identity)
    g.(scopes) g.(nonce) g.(family_id) issued expires used.
End Grant.

Module Family.
Record t := mk { expires_at : Z; revoked : bool }.
Definition revoke (f : t) : t := mk f.(expires_at) true.
End Family.

Module Attempts.
Record t := mk { failures : Z; window_start : Z; locked_until : Z }.
Definition default : t := mk 0 0 0.
End Attempts.

Module Audit.
Record t := mk {
  id : string;
  at_ : Z;
  actor : string;
  action : string;
  target : string;
  run_id : option string;
  details : json;
}.
End Audit.

(** ** Human grants and agents (delegation.rs, identity/agent_credentials.rs) *)

Inductive HumanRole :=
| HelpDesk | ApplicationOwner | DirectoryOperator | Auditor | SecurityAdministrator.
#[global] Instance human_role_eq_dec : EqDecision HumanRole.
Proof. solve_decision. Defined.

Module HumanGrant.
Record t := mk { role : HumanRole; scope : string; target_id : string }.
#[global] Instance eq_dec : EqDecision t.
Proof. solve_decision. Defined.
End HumanGrant.

Module Permission.
Record t := mk { action : string; resource : string }.
#[global] Instance eq_dec : EqDecision t.
Proof. solve_decision. Defined.
End Permission.

Module Agent.
Record t := mk {
  id : string;
  permissions : list Permission.t;
  expires_at : Z;
  created_at : Z;
  enabled : bool;
  token_hash : string;
  parent_user : option string;
  authorized_by : option string;
}.
Definition disable (a : t) : t :=
  mk a.(id) a.(permissions) a.(expires_at) a.(created_at) false a.(token_hash)
    a.(parent_user) a.(authorized_by).
End Agent.

(** ** Authorization requests (oidc.rs) *)

Module Authorization.
Record t := mk {
  resource : option string;
  dpop_jkt : option string;
  claims : option string;
  acr_values : option string;
  request_uri : option string;
  request_object_hash : option string;
  response_type : string;
  client_id : string;
  redirect_uri : string;
  scope : string;
  state : option string;
  nonce : option string;
  code_challenge : string;
  code_challenge_method : string;
  prompt : option string;
  max_age : option Z;
  response_mode : option string;
  decision : option string;
  transaction_id : option string;
  request_binding : option string;
}.

(** The request with its decision and transaction id cleared: the value
    [request_hash] serializes. *)
Definition undecided (r : t) : t :=
  mk r.(resource) r.(dpop_jkt) r.(claims) r.(acr_values) r.(request_uri)
    r.(request_object_hash) r.(response_type) r.(client_id) r.(redirect_uri) r.(scope)
    r.(state) r.(nonce) r.(code_challenge) r.(code_challenge_method) r.(prompt) r.(max_age)
    r.(response_mode) None None r.(request_binding).
(** Replace the three references a pushed or signed request carries. *)
Definition set_refs (r : t) (uri object_hash binding : option string) : t :=
  mk r.(resource) r.(dpop_jkt) r.(claims) r.(acr_values) uri
    object_hash r.(response_type) r.(client_id) r.(redirect_uri) r.(scope)
    r.(state) r.(nonce) r.(code_challenge) r.(code_challenge_method) r.(prompt) r.(max_age)
    r.(response_mode) r.(decision) r.(transaction_id) binding.

Definition has_prompt (r : t) (p : string) : bool :=
  existsb (String.eqb p) (Str.split " " (default "" r.(prompt))).
End Authorization.

Module TokenRequest.
Record t := mk {
  grant_type : string;
  client_id : option string;
  client_secret : option string;
  code : option string;
  redirect_uri : option string;
  code_verifier : option string;
  refresh_token : option string;
  device_code : option string;
  scope : option string;
  token : option string;
  token_type_hint : option string;
  client_assertion : option string;
  client_assertion_type : option string;
  assertion : option string;
  subject_token : option string;
  subject_token_type : option string;
  actor_token : option string;
  actor_token_type : option string;
  requested_token_type : option string;
  audience : option string;
  resource : option string;
  client_auth_method : option ClientAuthMethod;
  dpop_proof : option string;
  outpost_internal : bool;
}.
(** [#[derive(Default)]]. *)
Definition default : t :=
  mk "" None None None None None None None None None None None None None None None None None
    None None None None None false.
End TokenRequest.

(** ** Pushed and signed request records (authorization.rs) *)

Module Pushed.
Record t := mk {
  started : bool;
  request : Authorization.t;
  expires_at : Z;
  used : bool;
}.
Definition consume (p : t) : t := mk p.(started) p.(request) p.(expires_at) true.
End Pushed.

Module Signed.
Record t := mk {
  request_hash : string;
  expires_at : Z;
  used : bool;
  client_id : string;
  fingerprint : string;
}.
Definition consume (s : t) : t :=
  mk s.(request_hash) s.(expires_at) true s.(client_id) s.(fingerprint).
End Signed.

(** ** The prepared-request index and device polling receipts (assembly/oidc.rs) *)

Module PreparedRequests.
Record t := mk {
  attempts : gmap string Z;
  overflow_until : Z;
  expires_at : Z;
}.
End PreparedRequests.

Module PreparedActorDecisions.
Record t := mk {
  request_hash : string;
  account : string;
  attempts : gmap string Z;
  expires_at : Z;
}.
End PreparedActorDecisions.

Module DevicePollAuthority.
Record t := mk {
  protocol : string;
  client_id : string;
  client_hash : string;
  device_code_hash : string;
}.
#[global] Instance eq_dec : EqDecision t.
Proof. solve_decision. Defined.
End DevicePollAuthority.

Module DevicePollResult.
Record t := mk {
  error : string;
  last_poll_at : option Z;
  interval : Z;
  status_hash : string;
  expires_at : Z;
}.
End DevicePollResult.

Module StoredDevicePollReceipt.
Record t := mk {
  fingerprint : string;
  permissions : DevicePollAuthority.t;
  result : DevicePollResult.t;
  retain_until : Z;
}.
End StoredDevicePollReceipt.

(** ** Elevation provenance, credential exposure (delegation.rs), PAM grants *)

Inductive ProvenanceBasis :=
| Bootstrap | HumanCreate | HumanInvite | HumanPlan | HumanScim | OfflineRecovery.

Module ElevationProvenance.
Record t := mk {
  user_id : string;
  identity_stamp : string;
  basis : ProvenanceBasis;
  at_ : Z;
}.
End ElevationProvenance.

Module CredentialExposure.
Record t := mk {
  verified_email : option string;
  actor_id : string;
  at_ : Z;
  original_address_stamp : option string;
}.
End CredentialExposure.

Module AccessGrant.
Record t := mk {
  id : string;
  user_id : string;
  group : string;
  not_before : Z;
  expires_at : Z;
  request_id : string;
  revoked_at : option Z;
  revoked_by : option string;
}.
Definition active (g : t) (now : Z) : bool :=
  bool_decide (g.(revoked_at) = None) && (g.(not_before) <=? now) && (now <? g.(expires_at)).
End AccessGrant.

(** ** Relying-party sessions, agent application approvals, device proofs *)

Module RpSession.
Record t := mk {
  sid : string;
  session_id : string;
  user_id : string;
  subject : string;
  client_id : string;
  created_at : Z;
  expires_at : Z;
  ended : bool;
}.
End RpSession.

Module Approval.
Record t := mk {
  id : string;
  agent_id : string;
  owner_id : string;
  client_id : string;
  scopes : gset string;
  resource : option string;
  mfa : bool;
  owner_epoch : Z;
  source : option SourceIdentity.t;
  created_at : Z;
  expires_at : Z;
  revoked_at : option Z;
}.
Definition active (a : t) (now : Z) : bool :=
  bool_decide (a.(revoked_at) = None) && (now <? a.(expires_at)).
Definition current_for (a : t) (owner : User.t) : bool :=
  String.eqb a.(owner_id) owner.(User.id) && (a.(owner_epoch) =? owner.(User.epoch)).
End Approval.

Module DeviceVerification.
Record t := mk {
  device_id : string;
  user_id : string;
  session_id : string;
  epoch : Z;
  provider : option string;
  verified_at : Z;
  expires_at : Z;
}.
End DeviceVerification.

(** ** Credential bindings that an identity is re-checked against *)

Module EapIdentityBinding.
Record t := mk {
  certificate_key : string;
  certificate_id : string;
  listener : string;
  profile_fingerprint : string;
  expires_at : Z;
}.
End EapIdentityBinding.

Module EapCertificate.
Record t := mk {
  id : string;
  username : string;
  user_id : string;
  listener : string;
  fingerprint : string;
  expires_at : Z;
}.
End EapCertificate.

Module MtlsBinding.
Record t := mk {
  id : string;
  username : string;
  user_id : string;
  fingerprint : option string;
  san_uri : option string;
  san_email : option string;
  not_after : option Z;
  created_at : Z;
}.
End MtlsBinding.

Module MtlsLoginLink.
Record t := mk { binding_id : string; selector : string; expires_at : Z }.
End MtlsLoginLink.

Module DirectoryBinding.
Record t := mk {
  directory : string;
  identity_fingerprint : string;
  external_id : string;
  user_id : string;
  dn : string;
  groups : gset string;
}.
End DirectoryBinding.

(** The fields of an upstream source the modelled code reads; its pinned SAML
    settings and OAuth profile are kept serialized, since only their presence
    and the fingerprint of the whole record are used. *)
(** [source::saml_types::Settings]. *)
Module SourceSaml.
Record t := mk {
  signing_key : string;
  sp_certificate_pem : string;
  idp_certificates_pem : list string;
  name_id_format : NameIdFormat;
  name_attribute : option string;
  email_attribute : option string;
  email_verified_attribute : option string;
  require_encrypted_assertions : bool;
  slo_redirect_url : option string;
  slo_post_url : option string;
}.
End SourceSaml.

Module Source.
Record t := mk {
  saml : option SourceSaml.t;
  oauth_profile : option string;
  id : string;
  name : string;
  issuer : string;
  authorization_endpoint : string;
  token_endpoint : string;
  client_id : string;
  token_endpoint_auth_method : ClientAuthMethod;
  jwks : PublicJwks;
  scopes : gset string;
  enabled : bool;
  auto_provision : bool;
  groups : gset string;
  trusted_mfa_acr : gset string;
  allow_admin_login : bool;
}.
End Source.

Module SourceLink.
Record t := mk { source : string; issuer : string; subject : string; user_id : string }.
End SourceLink.

Module UpstreamSession.
Record t := mk { subject : option string; index : string; expires_at : option Z }.
End UpstreamSession.

(** ** Signing keys (crypto.rs) *)

Module SigningKey.
Record t := mk {
  remote : option string;
  algorithm : string;
  kid : string;
  pem : string;
  created_at : Z;
}.
End SigningKey.

Module Keys.
Record t := mk { active : SigningKey.t; retired : list (json * Z) }.
End Keys.

(** ** Idempotency receipts (context.rs) *)

Module Receipt.
Record t := mk {
  fingerprint : string;
  permissions : json;
  result : json;
  expires_at : Z;
}.
End Receipt.

(** ** Browser state (browser.rs, assembly/browser_runtime.rs) *)

Module BrowserSession.
Record t := mk { session_id : string; expires_at : Z; rotated : bool }.
End BrowserSession.

(** [browser_runtime::Pending]: an authorization request a browser started. *)
Module BrowserPending.
Record t := mk {
  id : string;
  code : string;
  browser_hash : string;
  request : Authorization.t;
  expires_at : Z;
  callback : option string;
  session_id : option string;
  session_cookie : option string;
  remember : bool;
  stage_id : option string;
  authentication : option string;
  requested_from : option json;
  approved_by : option string;
  configured_consent : option string;
  configured_run : option string;
  configured_client : option string;
}.
End BrowserPending.

(** ** Embedded source stages (assembly/source_runtime.rs) *)

Module SourceStage.
Record t := mk {
  id : string;
  authorization_id : string;
  request_hash : string;
  suspension_hash : string;
  request : Authorization.t;
  source_id : string;
  user_id : option string;
  nonce : string;
  expires_at : Z;
  used : bool;
  cancelled : bool;
  login_key : string;
  transaction : string;
  browser_id : option string;
}.
End SourceStage.

(** ** Requests reserved by a workflow (workflow.rs, workflow/executor/) *)

Module RunBinding.
Record t := mk {
  workflow : string;
  revision : Z;
  fingerprint : string;
  source_registration : option (string * string);
  extension_sha256 : option string;
}.
End RunBinding.

(** The pin and the reservation of executor/authorization.rs. *)
Module AuthorizationPin.
Record t := mk {
  request_hash : string;
  authentication : string;
  client : string;
  client_fingerprint : string;
  expires_at : Z;
}.
End AuthorizationPin.

Module AuthorizationBound.
Record t := mk {
  pin : AuthorizationPin.t;
  request : Authorization.t;
  run : string;
  version : RunBinding.t;
  workflow_request : string;
  account : string;
  account_epoch : Z;
  session : string;
  completed : bool;
  expires_at : Z;
}.
End AuthorizationBound.

(** The pin and the reservation of executor/consent.rs. *)
Module ConsentPin.
Record t := mk {
  request_hash : string;
  authentication : string;
  client : string;
  client_fingerprint : string;
  expires_at : Z;
  reauthentication : bool;
}.
End ConsentPin.

Module ConsentBound.
Record t := mk {
  pin : ConsentPin.t;
  request : Authorization.t;
  run : string;
  version : RunBinding.t;
  workflow_request : string;
  account : string;
  account_epoch : Z;
  session : string;
  completed : bool;
  expires_at : Z;
}.
End ConsentBound.

(** ** Sign-in (authenticator.rs, signin.rs, identity/logout_queue.rs,
    identity/signals.rs) *)

Module Enrollment.
Record t := mk {
  session_id : string;
  epoch : Z;
  secret_hash : string;
  expires_at : Z;
  replace : bool;
}.
End Enrollment.

Module StagedLogin.
Record t := mk {
  identity : Identity.t;
  session_expires_at : Z;
  expires_at : Z;
  method : string;
}.
End StagedLogin.

(** [logout_queue::Delivery]. *)
Module LogoutDelivery.
Record t := mk {
  id : string;
  client_id : string;
  sid : string;
  subject : string;
  uri : string;
  created_at : Z;
  next_attempt : Z;
  attempts : Z;
  delivered_at : option Z;
  last_status : option Z;
  last_failed : bool;
  lease : option string;
  dispatch_started : option bool;
}.
End LogoutDelivery.

(** [signals::Stream] and [signals::Delivery]. *)
Module SsfStream.
Record t := mk {
  id : string;
  issuer : string;
  audience : string;
  events : gset string;
  events_requested : gset string;
  delivery_method : string;
  endpoint_url : string;
  authorization_header : option string;
  jwks : PublicJwks;
  subjects : gmap string string;
  owner : string;
  created_at : Z;
  description : option string;
  standard : bool;
}.
End SsfStream.

Module SsfDelivery.
Record t := mk {
  id : string;
  stream_id : string;
  uri : string;
  event : string;
  subject : string;
  audience : string;
  credential_type : string;
  created_at : Z;
  next_attempt : Z;
  attempts : Z;
  delivered_at : option Z;
  last_status : option Z;
  last_failed : bool;
  stopped : bool;
  jti : string;
  lease : option string;
  dispatch_started : option bool;
}.
End SsfDelivery.

(** ** RADIUS (assembly/radius.rs) *)

(** The answer kept for a request seen before; bytes as numbers. *)
Module RadiusCached.
Record t := mk {
  expires_at : Z;
  client_id : string;
  client_fingerprint : string;
  attributes_fingerprint : option string;
  response : option (list Z);
  identity : option Identity.t;
}.
End RadiusCached.

(** ** Logout (session_protocol.rs, saml.rs, saml/logout.rs) *)

(** [Confirmation]: a sign-out that waits for its account's answer. *)
Module Confirmation.
Record t := mk {
  id : string;
  code : string;
  browser_hash : string;
  expires_at : Z;
  client_id : option string;
  user_id : option string;
  session_id : option string;
  redirect_uri : option string;
  post_logout_redirect_uri : option string;
  completed_session_id : option string;
  result : option json;
  requested_from : option json;
}.
Definition with_result (c : t) (completed : option string) (r : json) : t :=
  mk c.(id) c.(code) c.(browser_hash) c.(expires_at) c.(client_id) c.(user_id) c.(session_id)
    c.(redirect_uri) c.(post_logout_redirect_uri) completed (Some r) c.(requested_from).
End Confirmation.

Module PostLogoutReturn.
Record t := mk { client_id : string; registered_uri : string; rendered_uri : string }.
End PostLogoutReturn.

(** [saml::RpSession]. *)
Module SamlRpSession.
Record t := mk {
  index : option string;
  issuer : string;
  fingerprint : string;
  client_id : string;
  name_id : string;
  format : NameIdFormat;
  identity : Identity.t;
  expires_at : Z;
}.
End SamlRpSession.

(** [saml::logout::Peer]. *)
Inductive Peer :=
| PeerClient (id fingerprint : string)
| PeerSource (id fingerprint : string).
#[global] Instance peer_eq_dec : EqDecision Peer.
Proof. solve_decision. Defined.

(** [saml::logout::Target]. *)
Module LogoutTarget.
Record t := mk { peer : Peer; name_id : string; format : string; index : string }.
#[global] Instance eq_dec : EqDecision t.
Proof. solve_decision. Defined.
End LogoutTarget.

(** [wire::Logout]: a logout request of a peer. *)
Module SamlLogoutRequest.
Record t := mk {
  id : string;
  name_id : string;
  format : option string;
  indices : list string;
  relay_state : option string;
}.
End SamlLogoutRequest.

Module ReturnResponse.
Record t := mk { peer : Peer; request : SamlLogoutRequest.t; post : bool }.
End ReturnResponse.

(** [saml::logout::Finish]. *)
Module Finish.
Record t := mk {
  redirect : option string;
  return_binding : option PostLogoutReturn.t;
  response : option ReturnResponse.t;
  frontchannel_urls : gset string;
}.
(** [Finish::default()]. *)
Definition empty : t := mk None None None ∅.
End Finish.

(** [saml::logout::Pending]: the message to the current target. *)
Module PendingLogout.
Record t := mk { id : string; xml : string; post : bool; deadline : Z }.
End PendingLogout.

(** [saml::logout::Flow]. *)
Module LogoutFlow.
Record t := mk {
  id : string;
  expires_at : Z;
  targets : list LogoutTarget.t;
  position : nat;
  pending : option PendingLogout.t;
  confirmed : Z;
  failed : Z;
  finish : Finish.t;
}.
Definition advance (f : t) (position : nat) (confirmed failed : Z) : t :=
  mk f.(id) f.(expires_at) f.(targets) position None confirmed failed f.(finish).
Definition with_pending (f : t) (p : PendingLogout.t) : t :=
  mk f.(id) f.(expires_at) f.(targets) f.(position) (Some p) f.(confirmed) f.(failed) f.(finish).
End LogoutFlow.

(** ** Temporary access requests (pam_types.rs) *)

Module AccessRequest.
Record t := mk {
  id : string;
  user_id : string;
  username : string;
  group : string;
  reason : string;
  ttl : Z;
  status : string;
  created_at : Z;
  decided_at : option Z;
  decided_by : option string;
  grant_id : option string;
}.
(** [request.decided_at = Some(at); request.decided_by = Some(by);
    request.status = status; request.grant_id = grant_id]. *)
Definition decide (r : t) (status : string) (at_ : Z) (by_ : string) (grant_id : option string) : t :=
  mk r.(id) r.(user_id) r.(username) r.(group) r.(reason) r.(ttl) status r.(created_at)
    (Some at_) (Some by_) grant_id.
End AccessRequest.

(** [pam::NewAccessRequest]. *)
Module NewAccessRequest.
Record t := mk { group : string; reason : string; ttl : Z }.
End NewAccessRequest.

(** ** Account proofs and their mail (lifecycle.rs) *)

(** [lifecycle::Purpose]. *)
Inductive Purpose := VerifyEmail | ResetPassword | InviteAccount.
#[global] Instance purpose_eq_dec : EqDecision Purpose.
Proof. solve_decision. Defined.

(** [lifecycle::Proof]. *)
Module AccountProof.
Record t := mk {
  purpose : Purpose;
  user_id : string;
  email : string;
  epoch : Z;
  expires_at : Z;
  groups : gset string;
  creator : option string;
}.
#[global] Instance eq_dec : EqDecision t.
Proof. solve_decision. Defined.
End AccountProof.

(** [lifecycle::InvitationReservation]. *)
Module InvitationReservation.
Record t := mk { username : string; created_by : string; epoch : Z }.
#[global] Instance eq_dec : EqDecision t.
Proof. solve_decision. Defined.
End InvitationReservation.

(** [lifecycle::ProofEnd], [lifecycle::ProofOutcome]. *)
Inductive ProofEnd := UsedProof | RevokedProof | ReplacedProof | ExpiredProof.
#[global] Instance proof_end_eq_dec : EqDecision ProofEnd.
Proof. solve_decision. Defined.
Module ProofOutcome.
Record t := mk { purpose : Purpose; reason : ProofEnd; retain_until : Z }.
End ProofOutcome.

(** [lifecycle::Delivery]. *)
Module MailDelivery.
Record t := mk {
  id : string;
  proof : string;
  recipient : string;
  subject : string;
  body : option string;
  expires_at : Z;
  created_at : Z;
  next_attempt : Z;
  attempts : Z;
  lease : option string;
  dispatch_started : option bool;
  delivered_at : option Z;
  stopped : bool;
}.
End MailDelivery.

(** ** Reviewed changes (management/grants.rs, management/memberships.rs) *)

(** [grants::Authority]. *)
Module Authority.
Record t := mk { id : string; epoch : Z }.
#[global] Instance eq_dec : EqDecision t.
Proof. solve_decision. Defined.
End Authority.

(** [Status] and [Approval]. *)
Inductive ReviewStatus := ReviewPending | ReviewApproved | ReviewExecuted | ReviewCancelled.
#[global] Instance review_status_eq_dec : EqDecision ReviewStatus.
Proof. solve_decision. Defined.
Module ReviewApproval.
Record t := mk { reviewer : Authority.t; digest : string; at_ : Z }.
End ReviewApproval.

(** [Change], of a proposal [P]. *)
Module Change.
Record t (P : Type) := mk {
  proposal : P;
  digest : string;
  status : ReviewStatus;
  approvals : list ReviewApproval.t;
  executor : option Authority.t;
  executed_at : option Z;
}.
#[global] Arguments mk {P} proposal digest status approvals executor executed_at.
#[global] Arguments proposal {P} _.
#[global] Arguments digest {P} _.
#[global] Arguments status {P} _.
#[global] Arguments approvals {P} _.
#[global] Arguments executor {P} _.
#[global] Arguments executed_at {P} _.
End Change.

(** [grants::Proposal]. *)
Module GrantProposal.
Record t := mk {
  id : string;
  resource : string;
  username : string;
  holder_id : string;
  author : Authority.t;
  before : list HumanGrant.t;
  after : list HumanGrant.t;
  base_revision : Z;
  resource_revision : string;
  policy_revision : string;
  created_at : Z;
  expires_at : Z;
}.
End GrantProposal.

(** [memberships::Member], [memberships::Proposal]. *)
Module Member.
Record t := mk { user_id : string; username : option string }.
#[global] Instance eq_dec : EqDecision t.
Proof. solve_decision. Defined.
End Member.
Module MemberProposal.
Record t := mk {
  id : string;
  resource : string;
  group : string;
  author : Authority.t;
  before : list Member.t;
  after : list Member.t;
  base_revision : Z;
  resource_revision : string;
  policy_revision : string;
  created_at : Z;
  expires_at : Z;
}.
End MemberProposal.

(** [store::maintenance::GroupBinding]. *)
Module GroupBinding.
Record t := mk { name : string; source_digest : string }.
End GroupBinding.

(** [passkey::Credential]; [key] is the stored credential of the WebAuthn library. *)
Module PasskeyCredential.
Record t := mk {
  id : string;
  user_id : string;
  name : string;
  created_at : Z;
  counter : Z;
  key : json;
}.
End PasskeyCredential.
