(* ===== verification/Store.v ===== *)
(** * The transactional store (src/src/store.rs)

    Records live in named buckets.  A transaction [tx A] is the body of the
    closure that [Store::read] and [Store::write] run: it reads and writes the
    records, reads the clock, draws random identifiers and fails with an
    [Error].  A failure inside the closure keeps the writes made so far for the
    code that catches it; [write] discards all of them when the closure itself
    fails.

    A row is a decoded record.  Reading a bucket at another type than the one
    stored is serde's decoding error, an internal error.

    The derived indexes that [put] maintains for background jobs (retention,
    counts, queues) and the in-transaction change log of the audit trail are
    not part of this state. *)

From S2P Require Import Prelude Json Model.

#[local] Set Warnings "-clear-no-such-hyp".

Inductive row : Type :=
| RUser (r : User.t)
| RGroup (r : Group.t)
| RClient (r : Client.t)
| RSession (r : Session.t)
| RCode (r : Code.t)
| RDevice (r : Device.t)
| RGrant (r : Grant.t)
| RFamily (r : Family.t)
| RAuthentication (r : AuthenticationTransaction.t)
| RPrepared (r : PreparedRequests.t)
| RActorDecisions (r : PreparedActorDecisions.t)
| RPollReceipt (r : StoredDevicePollReceipt.t)
| RPushed (r : Pushed.t)
| RSigned (r : Signed.t)
| RAudit (r : Audit.t)
| RAgent (r : Agent.t)
| RHumanGrants (r : list HumanGrant.t)
| RProvenance (r : ElevationProvenance.t)
| RExposure (r : CredentialExposure.t)
| RAccessGrant (r : AccessGrant.t)
| RRpSession (r : RpSession.t)
| RApproval (r : Approval.t)
| RDeviceVerification (r : DeviceVerification.t)
| REapBinding (r : EapIdentityBinding.t)
| REapCertificate (r : EapCertificate.t)
| RMtlsBinding (r : MtlsBinding.t)
| RMtlsLink (r : MtlsLoginLink.t)
| RDirectoryBinding (r : DirectoryBinding.t)
| RSource (r : Source.t)
| RSourceLink (r : SourceLink.t)
| RUpstream (r : UpstreamSession.t)
| RKeys (r : Keys.t)
| RReceipt (r : Receipt.t)
| RBrowserSession (r : BrowserSession.t)
| RBrowserPending (r : BrowserPending.t)
| RSourceStage (r : SourceStage.t)
| RAuthorizationBound (r : AuthorizationBound.t)
| RConsentBound (r : ConsentBound.t)
| RAttempts (r : Attempts.t)
| REnrollment (r : Enrollment.t)
| RStagedLogin (r : StagedLogin.t)
| RLogoutDelivery (r : LogoutDelivery.t)
| RSsfStream (r : SsfStream.t)
| RSsfDelivery (r : SsfDelivery.t)
| RRadiusCached (r : RadiusCached.t)
| RConfirmation (r : Confirmation.t)
| RSamlSession (r : SamlRpSession.t)
| RLogoutFlow (r : LogoutFlow.t)
| RAccessRequest (r : AccessRequest.t)
| RAccountProof (r : AccountProof.t)
| RProofOutcome (r : ProofOutcome.t)
| RReservation (r : InvitationReservation.t)
| RMailDelivery (r : MailDelivery.t)
| RMailLimit (r : Z * Z * Z)
| RHttpRate (r : Z * Z)
| RGrantChange (r : Change.t GrantProposal.t)
| RMemberChange (r : Change.t MemberProposal.t)
| RGroupBinding (r : GroupBinding.t)
| RPasskey (r : PasskeyCredential.t)
| RBool (r : bool)
| ROptString (r : option string)
| RStringList (r : list string)
| RString (r : string)
| RStrings (r : gset string)
| RU64 (r : Z)
| RJson (r : json).

(** What [get::<T>] and [put::<T>] need of [T]: decoding inverts encoding. *)
Class Row (T : Type) := {
  encode : T → row;
  decode : row → option T;
  decode_encode r : decode (encode r) = Some r;
  encode_decode w r : decode w = Some r → w = encode r;
}.

Ltac row_instance c d :=
  refine {| encode := c; decode := d |}; [done | by intros []; intros ? [= ->]].

#[global] Instance row_user : Row User.t.
Proof. row_instance RUser (λ w, match w with RUser r => Some r | _ => None end). Defined.
#[global] Instance row_group : Row Group.t.
Proof. row_instance RGroup (λ w, match w with RGroup r => Some r | _ => None end). Defined.
#[global] Instance row_client : Row Client.t.
Proof. row_instance RClient (λ w, match w with RClient r => Some r | _ => None end). Defined.
#[global] Instance row_session : Row Session.t.
Proof. row_instance RSession (λ w, match w with RSession r => Some r | _ => None end). Defined.
#[global] Instance row_code : Row Code.t.
Proof. row_instance RCode (λ w, match w with RCode r => Some r | _ => None end). Defined.
#[global] Instance row_device : Row Device.t.
Proof. row_instance RDevice (λ w, match w with RDevice r => Some r | _ => None end). Defined.
#[global] Instance row_grant : Row Grant.t.
Proof. row_instance RGrant (λ w, match w with RGrant r => Some r | _ => None end). Defined.
#[global] Instance row_family : Row Family.t.
Proof. row_instance RFamily (λ w, match w with RFamily r => Some r | _ => None end). Defined.
#[global] Instance row_authentication : Row AuthenticationTransaction.t.
Proof. row_instance RAuthentication (λ w, match w with RAuthentication r => Some r | _ => None end). Defined.
#[global] Instance row_prepared : Row PreparedRequests.t.
Proof. row_instance RPrepared (λ w, match w with RPrepared r => Some r | _ => None end). Defined.
#[global] Instance row_actor_decisions : Row PreparedActorDecisions.t.
Proof. row_instance RActorDecisions (λ w, match w with RActorDecisions r => Some r | _ => None end). Defined.
#[global] Instance row_poll_receipt : Row StoredDevicePollReceipt.t.
Proof. row_instance RPollReceipt (λ w, match w with RPollReceipt r => Some r | _ => None end). Defined.
#[global] Instance row_pushed : Row Pushed.t.
Proof. row_instance RPushed (λ w, match w with RPushed r => Some r | _ => None end). Defined.
#[global] Instance row_signed : Row Signed.t.
Proof. row_instance RSigned (λ w, match w with RSigned r => Some r | _ => None end). Defined.
#[global] Instance row_audit : Row Audit.t.
Proof. row_instance RAudit (λ w, match w with RAudit r => Some r | _ => None end). Defined.
#[global] Instance row_agent : Row Agent.t.
Proof. row_instance RAgent (λ w, match w with RAgent r => Some r | _ => None end). Defined.
#[global] Instance row_human_grants : Row (list HumanGrant.t).
Proof. row_instance RHumanGrants (λ w, match w with RHumanGrants r => Some r | _ => None end). Defined.
#[global] Instance row_provenance : Row ElevationProvenance.t.
Proof. row_instance RProvenance (λ w, match w with RProvenance r => Some r | _ => None end). Defined.
#[global] Instance row_exposure : Row CredentialExposure.t.
Proof. row_instance RExposure (λ w, match w with RExposure r => Some r | _ => None end). Defined.
#[global] Instance row_access_grant : Row AccessGrant.t.
Proof. row_instance RAccessGrant (λ w, match w with RAccessGrant r => Some r | _ => None end). Defined.
#[global] Instance row_rp_session : Row RpSession.t.
Proof. row_instance RRpSession (λ w, match w with RRpSession r => Some r | _ => None end). Defined.
#[global] Instance row_approval : Row Approval.t.
Proof. row_instance RApproval (λ w, match w with RApproval r => Some r | _ => None end). Defined.
#[global] Instance row_device_verification : Row DeviceVerification.t.
Proof. row_instance RDeviceVerification (λ w, match w with RDeviceVerification r => Some r | _ => None end). Defined.
#[global] Instance row_eap_binding : Row EapIdentityBinding.t.
Proof. row_instance REapBinding (λ w, match w with REapBinding r => Some r | _ => None end). Defined.
#[global] Instance row_eap_certificate : Row EapCertificate.t.
Proof. row_instance REapCertificate (λ w, match w with REapCertificate r => Some r | _ => None end). Defined.
#[global] Instance row_mtls_binding : Row MtlsBinding.t.
Proof. row_instance RMtlsBinding (λ w, match w with RMtlsBinding r => Some r | _ => None end). Defined.
#[global] Instance row_mtls_link : Row MtlsLoginLink.t.
Proof. row_instance RMtlsLink (λ w, match w with RMtlsLink r => Some r | _ => None end). Defined.
#[global] Instance row_directory_binding : Row DirectoryBinding.t.
Proof. row_instance RDirectoryBinding (λ w, match w with RDirectoryBinding r => Some r | _ => None end). Defined.
#[global] Instance row_source : Row Source.t.
Proof. row_instance RSource (λ w, match w with RSource r => Some r | _ => None end). Defined.
#[global] Instance row_source_link : Row SourceLink.t.
Proof. row_instance RSourceLink (λ w, match w with RSourceLink r => Some r | _ => None end). Defined.
#[global] Instance row_upstream : Row UpstreamSession.t.
Proof. row_instance RUpstream (λ w, match w with RUpstream r => Some r | _ => None end). Defined.
#[global] Instance row_keys : Row Keys.t.
Proof. row_instance RKeys (λ w, match w with RKeys r => Some r | _ => None end). Defined.
#[global] Instance row_string : Row string.
Proof. row_instance RString (λ w, match w with RString r => Some r | _ => None end). Defined.
#[global] Instance row_strings : Row (gset string).
Proof. row_instance RStrings (λ w, match w with RStrings r => Some r | _ => None end). Defined.
#[global] Instance row_u64 : Row Z.
Proof. row_instance RU64 (λ w, match w with RU64 r => Some r | _ => None end). Defined.
#[global] Instance row_json : Row json.
Proof. row_instance RJson (λ w, match w with RJson r => Some r | _ => None end). Defined.
#[global] Instance row_receipt : Row Receipt.t.
Proof. row_instance RReceipt (λ w, match w with RReceipt r => Some r | _ => None end). Defined.
#[global] Instance row_browser_session : Row BrowserSession.t.
Proof. row_instance RBrowserSession (λ w, match w with RBrowserSession r => Some r | _ => None end). Defined.
#[global] Instance row_browser_pending : Row BrowserPending.t.
Proof. row_instance RBrowserPending (λ w, match w with RBrowserPending r => Some r | _ => None end). Defined.
#[global] Instance row_source_stage : Row SourceStage.t.
Proof. row_instance RSourceStage (λ w, match w with RSourceStage r => Some r | _ => None end). Defined.
#[global] Instance row_authorization_bound : Row AuthorizationBound.t.
Proof. row_instance RAuthorizationBound (λ w, match w with RAuthorizationBound r => Some r | _ => None end). Defined.
#[global] Instance row_consent_bound : Row ConsentBound.t.
Proof. row_instance RConsentBound (λ w, match w with RConsentBound r => Some r | _ => None end). Defined.
#[global] Instance row_attempts : Row Attempts.t.
Proof. row_instance RAttempts (λ w, match w with RAttempts r => Some r | _ => None end). Defined.
#[global] Instance row_enrollment : Row Enrollment.t.
Proof. row_instance REnrollment (λ w, match w with REnrollment r => Some r | _ => None end). Defined.
#[global] Instance row_staged_login : Row StagedLogin.t.
Proof. row_instance RStagedLogin (λ w, match w with RStagedLogin r => Some r | _ => None end). Defined.
#[global] Instance row_logout_delivery : Row LogoutDelivery.t.
Proof. row_instance RLogoutDelivery (λ w, match w with RLogoutDelivery r => Some r | _ => None end). Defined.
#[global] Instance row_ssf_stream : Row SsfStream.t.
Proof. row_instance RSsfStream (λ w, match w with RSsfStream r => Some r | _ => None end). Defined.
#[global] Instance row_ssf_delivery : Row SsfDelivery.t.
Proof. row_instance RSsfDelivery (λ w, match w with RSsfDelivery r => Some r | _ => None end). Defined.
#[global] Instance row_radius_cached : Row RadiusCached.t.
Proof. row_instance RRadiusCached (λ w, match w with RRadiusCached r => Some r | _ => None end). Defined.
#[global] Instance row_string_list : Row (list string).
Proof. row_instance RStringList (λ w, match w with RStringList r => Some r | _ => None end). Defined.
#[global] Instance row_confirmation : Row Confirmation.t.
Proof. row_instance RConfirmation (λ w, match w with RConfirmation r => Some r | _ => None end). Defined.
#[global] Instance row_saml_session : Row SamlRpSession.t.
Proof. row_instance RSamlSession (λ w, match w with RSamlSession r => Some r | _ => None end). Defined.
#[global] Instance row_logout_flow : Row LogoutFlow.t.
Proof. row_instance RLogoutFlow (λ w, match w with RLogoutFlow r => Some r | _ => None end). Defined.
#[global] Instance row_access_request : Row AccessRequest.t.
Proof. row_instance RAccessRequest (λ w, match w with RAccessRequest r => Some r | _ => None end). Defined.
#[global] Instance row_account_proof : Row AccountProof.t.
Proof. row_instance RAccountProof (λ w, match w with RAccountProof r => Some r | _ => None end). Defined.
#[global] Instance row_proof_outcome : Row ProofOutcome.t.
Proof. row_instance RProofOutcome (λ w, match w with RProofOutcome r => Some r | _ => None end). Defined.
#[global] Instance row_reservation : Row InvitationReservation.t.
Proof. row_instance RReservation (λ w, match w with RReservation r => Some r | _ => None end). Defined.
#[global] Instance row_mail_delivery : Row MailDelivery.t.
Proof. row_instance RMailDelivery (λ w, match w with RMailDelivery r => Some r | _ => None end). Defined.
#[global] Instance row_mail_limit : Row (Z * Z * Z).
Proof. row_instance RMailLimit (λ w, match w with RMailLimit r => Some r | _ => None end). Defined.
#[global] Instance row_http_rate : Row (Z * Z).
Proof. row_instance RHttpRate (λ w, match w with RHttpRate r => Some r | _ => None end). Defined.
#[global] Instance row_grant_change : Row (Change.t GrantProposal.t).
Proof. row_instance RGrantChange (λ w, match w with RGrantChange r => Some r | _ => None end). Defined.
#[global] Instance row_member_change : Row (Change.t MemberProposal.t).
Proof. row_instance RMemberChange (λ w, match w with RMemberChange r => Some r | _ => None end). Defined.
#[global] Instance row_group_binding : Row GroupBinding.t.
Proof. row_instance RGroupBinding (λ w, match w with RGroupBinding r => Some r | _ => None end). Defined.
#[global] Instance row_passkey : Row PasskeyCredential.t.
Proof. row_instance RPasskey (λ w, match w with RPasskey r => Some r | _ => None end). Defined.
#[global] Instance row_bool : Row bool.
Proof. row_instance RBool (λ w, match w with RBool r => Some r | _ => None end). Defined.
#[global] Instance row_opt_string : Row (option string).
Proof. row_instance ROptString (λ w, match w with ROptString r => Some r | _ => None end). Defined.
(** A row read as [serde_json::Value]: every record decodes. *)
#[global] Instance row_value : Row row.
Proof. refine {| encode := λ r, r; decode := λ w, Some w |}; [done | by intros ? ? [= ->]]. Defined.

(** ** State *)

(** The request context of an HTTP operation (src/src/context.rs). *)
Module RequestContext.
Record t := mk {
  request_id : string;
  run_id : option string;
  idempotency_key : option string;
  fingerprint : string;
  revision : option Z;
  client_ip : option string;
  user_agent : option string;
}.
End RequestContext.

(** [db] maps (bucket, key) to the row; [clock] is the Unix time; [rng] counts
    the random values drawn so far; [ctx] is [context::current()]. *)
Module St.
Record t := mk {
  db : gmap (string * string) row;
  clock : Z;
  rng : nat;
  ctx : option RequestContext.t;
}.
Definition set_db (s : t) (d : gmap (string * string) row) : t :=
  mk d s.(clock) s.(rng) s.(ctx).
End St.

Definition tx (A : Type) : Type := St.t → Result A * St.t.

#[global] Instance tx_ret : MRet tx := λ A a s, (Ok a, s).
#[global] Instance tx_bind : MBind tx := λ A B f m s,
  match m s with
  | (Ok a, s') => f a s'
  | (Err e, s') => (Err e, s')
  end.

Definition fail {A} (e : Error.t) : tx A := λ s, (Err e, s).
Definition lift {A} (r : Result A) : tx A := λ s, (r, s).
(** [opt.ok_or_else(|| e)?] *)
Definition some_or {A} (o : option A) (e : Error.t) : tx A := lift (ok_or o e).
(** [if !b { return Err(e) }] *)
Definition ensure (b : bool) (e : Error.t) : tx unit := if b then mret () else fail e.
(** [m.map_err(|_| e)] *)
Definition or_else {A} (m : tx A) (e : Error.t) : tx A := λ s,
  match m s with
  | (Ok a, s') => (Ok a, s')
  | (Err _, s') => (Err e, s')
  end.
(** [match m { Ok(a) => .., Err(e) => .. }]: the error becomes a value. *)
Definition catch {A} (m : tx A) : tx (Result A) := λ s, let '(r, s') := m s in (Ok r, s').

Definition now : tx Z := λ s, (Ok s.(St.clock), s).
Definition current : tx (option RequestContext.t) := λ s, (Ok s.(St.ctx), s).

(** ** Records *)

Definition get (T : Type) `{Row T} (bucket key : string) : tx (option T) := λ s,
  match s.(St.db) !! (bucket, key) with
  | None => (Ok None, s)
  | Some w => match decode w with
              | Some r => (Ok (Some r), s)
              | None => (Err Error.internal, s)
              end
  end.
Definition put {T} `{Row T} (bucket key : string) (r : T) : tx unit := λ s,
  (Ok (), St.set_db s (<[(bucket, key) := encode r]> s.(St.db))).
Definition remove (bucket key : string) : tx unit := λ s,
  (Ok (), St.set_db s (base.delete (bucket, key) s.(St.db))).

(** The rows of one bucket in key order, after a cursor, at most [limit]. *)
Definition key_le (a b : string * row) : Prop := String.le a.1 b.1.
#[global] Instance key_le_dec a b : Decision (key_le a b).
Proof. unfold key_le. apply _. Defined.
Definition bucket_rows (bucket : string) (d : gmap (string * string) row) :
    list (string * row) :=
  merge_sort key_le
    (omap (λ kr : (string * string) * row,
             if String.eqb kr.1.1 bucket then Some (kr.1.2, kr.2) else None)
       (map_to_list d)).

Definition decode_rows {T} `{Row T} (l : list (string * row)) : Result (list (string * T)) :=
  foldr (λ kr acc,
           match decode kr.2, acc with
           | Some r, Ok l => Ok ((kr.1, r) :: l)
           | None, _ => Err Error.internal
           | _, Err e => Err e
           end) (Ok []) l.

Definition scan (T : Type) `{Row T} (bucket : string) (after : option string) (limit : nat) :
    tx (list (string * T)) := λ s,
  let rows := List.filter (λ kr, match after with
                                 | None => true
                                 | Some k => negb (String.leb kr.1 k)
                                 end) (bucket_rows bucket s.(St.db)) in
  (decode_rows (take limit rows), s).
Definition list_all (T : Type) `{Row T} (bucket : string) : tx (list (string * T)) := λ s,
  (decode_rows (bucket_rows bucket s.(St.db)), s).

(** Loops over a list: [any], [filter] and [for] with a fallible body. *)
Fixpoint any_m {A} (f : A → tx bool) (l : list A) : tx bool :=
  match l with
  | [] => mret false
  | a :: l => b ← f a; if (b : bool) then mret true else any_m f l
  end.
Fixpoint filter_m {A} (f : A → tx bool) (l : list A) : tx (list A) :=
  match l with
  | [] => mret []
  | a :: l => b ← f a; r ← filter_m f l; mret (if (b : bool) then a :: r else r)
  end.
Fixpoint for_each {A} (f : A → tx unit) (l : list A) : tx unit :=
  match l with
  | [] => mret ()
  | a :: l => _ ← f a; for_each f l
  end.
Fixpoint fold_m {A B} (f : B → A → tx B) (acc : B) (l : list A) : tx B :=
  match l with
  | [] => mret acc
  | a :: l => acc ← f acc a; fold_m f acc l
  end.

(** ** Running a transaction *)

(** [Store::write]: commit when the closure returns [Ok], otherwise keep the
    records as they were.  Random values drawn are not given back. *)
Definition write {A} (m : tx A) (s : St.t) : Result A * St.t :=
  match m s with
  | (Ok a, s') => (Ok a, s')
  | (Err e, s') => (Err e, St.set_db s' s.(St.db))
  end.
(** [Store::read] runs on a snapshot and never commits. *)
Definition read {A} (m : tx A) (s : St.t) : Result A * St.t :=
  let '(r, s') := m s in (r, St.set_db s' s.(St.db)).

(** [store.prepared_write(f)?] for a closure that returns [Ok(Err(e))] when
    its writes must commit although the caller sees the error [e]. *)
Definition write_flat {A} (m : tx (Result A)) (s : St.t) : Result A * St.t :=
  match write m s with
  | (Ok r, s') => (r, s')
  | (Err e, s') => (Err e, s')
  end.

(** ** Reasoning about transactions *)

Lemma bind_ok {A B} (m : tx A) (f : A → tx B) s b s' :
  (m ≫= f) s = (Ok b, s') ↔ ∃ a s1, m s = (Ok a, s1) ∧ f a s1 = (Ok b, s').
Proof.
  unfold mbind, tx_bind. destruct (m s) as [[a|e] s1]; split.
  - eauto.
  - by intros (? & ? & [= <- <-] & ?).
  - done.
  - by intros (? & ? & [=] & ?).
Qed.

Lemma bind_step {A B} (m : tx A) (f : A → tx B) s a s1 :
  m s = (Ok a, s1) → (m ≫= f) s = f a s1.
Proof. unfold mbind, tx_bind. by intros ->. Qed.

Lemma bind_err {A B} (m : tx A) (f : A → tx B) s e s1 :
  m s = (Err e, s1) → (m ≫= f) s = (Err e, s1).
Proof. unfold mbind, tx_bind. by intros ->. Qed.

Lemma ret_ok {A} (a b : A) s s' : (mret a : tx A) s = (Ok b, s') ↔ b = a ∧ s' = s.
Proof. unfold mret, tx_ret. naive_solver. Qed.

Lemma ensure_ok b e s u s' : ensure b e s = (Ok u, s') ↔ b = true ∧ s' = s.
Proof. destruct u, b; unfold ensure, mret, tx_ret, fail; naive_solver. Qed.

Lemma some_or_ok {A} (o : option A) e s a s' :
  some_or o e s = (Ok a, s') ↔ o = Some a ∧ s' = s.
Proof. unfold some_or, lift, ok_or. destruct o; naive_solver. Qed.

Lemma lift_ok {A} (r : Result A) s a s' : lift r s = (Ok a, s') ↔ r = Ok a ∧ s' = s.
Proof. unfold lift. naive_solver. Qed.

Lemma or_else_ok {A} (m : tx A) e s a s' :
  or_else m e s = (Ok a, s') ↔ m s = (Ok a, s').
Proof. unfold or_else. destruct (m s) as [[]]; naive_solver. Qed.

Lemma now_ok s z s' : now s = (Ok z, s') ↔ z = s.(St.clock) ∧ s' = s.
Proof. unfold now. naive_solver. Qed.
Lemma current_ok s c s' : current s = (Ok c, s') ↔ c = s.(St.ctx) ∧ s' = s.
Proof. unfold current. naive_solver. Qed.

Lemma get_some {T} `{Row T} b k s (r : T) :
  s.(St.db) !! (b, k) = Some (encode r) → get T b k s = (Ok (Some r), s).
Proof. unfold get. intros ->. by rewrite decode_encode. Qed.
Lemma get_row {T} `{Row T} b k s w (r : T) :
  s.(St.db) !! (b, k) = Some w → decode w = Some r → get T b k s = (Ok (Some r), s).
Proof. unfold get. by intros -> ->. Qed.
Lemma get_none {T} `{Row T} b k s :
  s.(St.db) !! (b, k) = None → get T b k s = (Ok None, s).
Proof. unfold get. by intros ->. Qed.

Lemma get_ok {T} `{Row T} b k s o s' :
  get T b k s = (Ok o, s') ↔ s' = s ∧ s.(St.db) !! (b, k) = encode <$> o.
Proof.
  unfold get. destruct (s.(St.db) !! (b, k)) as [w|]; [destruct (decode w) as [r|] eqn:E|].
  - apply encode_decode in E as ->. split.
    + by intros [= <- <-].
    + destruct o; intros [-> [= E]]; simplify_eq/=.
      apply (f_equal decode) in E. rewrite !decode_encode in E. by simplify_eq.
  - split; [done|]. intros [_ Ho]. destruct o; simplify_eq/=.
    by rewrite decode_encode in E.
  - destruct o; naive_solver.
Qed.

Lemma put_ok {T} `{Row T} b k (r : T) s u s' :
  put b k r s = (Ok u, s') ↔ s' = St.set_db s (<[(b, k) := encode r]> s.(St.db)).
Proof. destruct u. unfold put. naive_solver. Qed.
Lemma remove_ok b k s u s' :
  remove b k s = (Ok u, s') ↔ s' = St.set_db s (base.delete (b, k) s.(St.db)).
Proof. destruct u. unfold remove. naive_solver. Qed.

Lemma catch_ok {A} (m : tx A) s r s' : catch m s = (Ok r, s') ↔ m s = (r, s').
Proof. unfold catch. destruct (m s). naive_solver. Qed.

(** ** Frames: the buckets a transaction may change

    [Touches bs m]: whatever [m] returns, the clock and the request context
    stay as they are and every record of a bucket outside [bs] is unchanged.
    A transaction that only reads touches nothing. *)

Class Touches {A} (bs : list string) (m : tx A) : Prop := touches s :
  (m s).2.(St.clock) = s.(St.clock)
  ∧ (m s).2.(St.ctx) = s.(St.ctx)
  ∧ (s.(St.rng) ≤ (m s).2.(St.rng))%nat
  ∧ ∀ b k, b ∉ bs → (m s).2.(St.db) !! (b, k) = s.(St.db) !! (b, k).
#[global] Hint Mode Touches - + ! : typeclass_instances.

(** A transaction that leaves the whole state as it found it. *)
Class Pure {A} (m : tx A) : Prop := pure_eq s : (m s).2 = s.
#[global] Hint Mode Pure - ! : typeclass_instances.

Lemma pure_touches {A} bs (m : tx A) : Pure m → Touches bs m.
Proof. intros Hm s. by rewrite (pure_eq (m:=m) s). Qed.

Lemma pure_run {A} (m : tx A) `{!Pure m} s r s' : m s = (r, s') → s' = s.
Proof. intros E. pose proof (pure_eq (m:=m) s) as H. by rewrite E in H. Qed.
Lemma ran_pure {A} (m : tx A) `{!Pure m} r s : (m s).1 = r → m s = (r, s).
Proof. intros <-. pose proof (pure_eq (m:=m) s) as H. destruct (m s). cbn in *. by rewrite H. Qed.

#[global] Instance pure_ret {A} (a : A) : Pure (mret a : tx A).
Proof. by intros s. Qed.
#[global] Instance pure_fail {A} e : Pure (@fail A e).
Proof. by intros s. Qed.
#[global] Instance pure_lift {A} (r : Result A) : Pure (lift r).
Proof. by intros s. Qed.
#[global] Instance pure_some_or {A} (o : option A) e : Pure (some_or o e).
Proof. by intros s. Qed.
#[global] Instance pure_ensure b e : Pure (ensure b e).
Proof. by destruct b. Qed.
#[global] Instance pure_now : Pure now.
Proof. by intros s. Qed.
#[global] Instance pure_current : Pure current.
Proof. by intros s. Qed.
#[global] Instance pure_get T `{Row T} b k : Pure (get T b k).
Proof. intros s. unfold get. by repeat case_match. Qed.
#[global] Instance pure_scan T `{Row T} b a l : Pure (scan T b a l).
Proof. by intros s. Qed.
#[global] Instance pure_list_all T `{Row T} b : Pure (list_all T b).
Proof. by intros s. Qed.
#[global] Instance pure_bind {A B} (m : tx A) (f : A → tx B) :
  Pure m → (∀ a, Pure (f a)) → Pure (m ≫= f).
Proof.
  intros Hm Hf s. unfold mbind, tx_bind. pose proof (Hm s) as E.
  destruct (m s) as [[a|e] s1]; simpl in *; subst; [apply Hf|done].
Qed.
#[global] Instance pure_or_else {A} (m : tx A) e : Pure m → Pure (or_else m e).
Proof. intros Hm s. unfold or_else. pose proof (Hm s). by destruct (m s) as [[]]. Qed.
#[global] Instance pure_catch {A} (m : tx A) : Pure m → Pure (catch m).
Proof. intros Hm s. unfold catch. pose proof (Hm s). by destruct (m s) as [[]]. Qed.

#[global] Instance pure_any_m {A} (f : A → tx bool) l : (∀ a, Pure (f a)) → Pure (any_m f l).
Proof.
  intros Hf. induction l; simpl; [apply _|]. apply pure_bind; [done|]. intros []; [apply _|done].
Qed.
#[global] Instance pure_filter_m {A} (f : A → tx bool) l :
  (∀ a, Pure (f a)) → Pure (filter_m f l).
Proof.
  intros Hf. induction l; simpl; [apply _|]. apply pure_bind; [done|]. intros b.
  apply pure_bind; [done|]. apply _.
Qed.
#[global] Instance pure_fold_m {A B} (f : B → A → tx B) acc l :
  (∀ b a, Pure (f b a)) → Pure (fold_m f acc l).
Proof.
  intros Hf. revert acc. induction l as [|a l IH]; intros acc; simpl; [apply _|].
  apply pure_bind; [done|]. intros; apply IH.
Qed.

Lemma touches_bind {A B} bs (m : tx A) (f : A → tx B) :
  Touches bs m → (∀ a, Touches bs (f a)) → Touches bs (m ≫= f).
Proof.
  intros Hm Hf s. unfold mbind, tx_bind. pose proof (Hm s) as (? & ? & ? & E).
  destruct (m s) as [[a|e] s1]; simpl in *; [|done].
  pose proof (Hf a s1) as (? & ? & ? & E'). split_and!; [congruence..|lia|].
  intros b k Hb. rewrite E', E; done.
Qed.
Lemma touches_or_else {A} bs (m : tx A) e : Touches bs m → Touches bs (or_else m e).
Proof. intros Hm s. unfold or_else. pose proof (Hm s). by destruct (m s) as [[]]. Qed.
Lemma touches_catch {A} bs (m : tx A) : Touches bs m → Touches bs (catch m).
Proof. intros Hm s. unfold catch. pose proof (Hm s). by destruct (m s) as [[]]. Qed.
Lemma touches_put {T} `{Row T} bs b k (r : T) : b ∈ bs → Touches bs (put b k r).
Proof.
  intros Hb s. simpl. split_and!; [done..|]. intros b' k' Hb'.
  rewrite lookup_insert_ne; [done|]. intros [= -> ->]. done.
Qed.
Lemma touches_remove bs b k : b ∈ bs → Touches bs (remove b k).
Proof.
  intros Hb s. simpl. split_and!; [done..|]. intros b' k' Hb'.
  rewrite lookup_delete_ne; [done|]. intros [= -> ->]. done.
Qed.
Lemma touches_for_each {A} bs (f : A → tx unit) l :
  (∀ a, Touches bs (f a)) → Touches bs (for_each f l).
Proof.
  intros Hf. induction l; simpl; [apply pure_touches, _|]. by apply touches_bind.
Qed.
Lemma touches_fold_m {A B} bs (f : B → A → tx B) acc l :
  (∀ b a, Touches bs (f b a)) → Touches bs (fold_m f acc l).
Proof.
  intros Hf. revert acc. induction l as [|a l IH]; intros acc; simpl; [apply pure_touches, _|].
  apply touches_bind; [done|]. intros; apply IH.
Qed.
Lemma touches_mono {A} bs bs' (m : tx A) : bs ⊆ bs' → Touches bs m → Touches bs' m.
Proof.
  intros Hs Hm s. destruct (Hm s) as (? & ? & ? & E). split_and!; [done..|].
  intros b k Hb. apply E. set_solver.
Qed.

Lemma touches_run {A} bs (m : tx A) `{!Touches bs m} s r s' :
  m s = (r, s') →
  s'.(St.clock) = s.(St.clock) ∧ s'.(St.ctx) = s.(St.ctx) ∧ (s.(St.rng) ≤ s'.(St.rng))%nat
  ∧ ∀ b k, b ∉ bs → s'.(St.db) !! (b, k) = s.(St.db) !! (b, k).
Proof. intros E. pose proof (touches (bs:=bs) (m:=m) s) as H. by rewrite E in H. Qed.

(** The same at one record. *)
Lemma touches_at {A} bs (m : tx A) `{!Touches bs m} s x s' b k :
  m s = (x, s') → b ∉ bs → s'.(St.db) !! (b, k) = s.(St.db) !! (b, k).
Proof. intros Hrun Hb. pose proof (touches_run bs _ _ _ _ Hrun) as (_ & _ & _ & Hf). by apply Hf. Qed.

(** [b ∈ [..]] and [b ∉ [..]] for literal bucket names. *)
Ltac bucket := vm_compute; set_unfold; intuition discriminate.

Create HintDb tx discriminated.
#[export] Hint Resolve touches_put touches_remove : tx.

(** Close [Pure m] and [Touches bs m] by walking the structure of [m]. *)
Ltac solve_pure :=
  repeat first
    [ progress intros
    | apply _
    | apply pure_bind
    | apply pure_or_else
    | apply pure_catch
    | apply pure_any_m
    | apply pure_filter_m
    | apply pure_fold_m
    | case_match
    | progress cbn beta ].
Ltac solve_touches_step :=
  first
    [ progress intros
    | solve [eauto with tx nocore]
    | solve [eapply touches_mono; [|solve [eauto with tx nocore]]; set_solver]
    | solve [apply touches_put; bucket]
    | solve [apply touches_remove; bucket]
    | solve [apply pure_touches; apply _]
    | apply touches_bind
    | apply touches_or_else
    | apply touches_catch
    | apply touches_for_each
    | apply touches_fold_m
    | case_match ].
Ltac solve_touches := repeat solve_touches_step.

(** Invert a successful run into the steps it took. *)
Ltac tx_inv :=
  repeat match goal with
  | H : (_ ≫= _) _ = (Ok _, _) |- _ => apply bind_ok in H as (? & ? & ? & ?)
  | H : mret _ _ = (Ok _, _) |- _ => apply ret_ok in H as [? ?]
  | H : fail _ _ = (Ok _, _) |- _ => by inversion H
  | H : ensure _ _ _ = (Ok _, _) |- _ => apply ensure_ok in H as [? ?]
  | H : some_or _ _ _ = (Ok _, _) |- _ => apply some_or_ok in H as [? ?]
  | H : lift _ _ = (Ok _, _) |- _ => apply lift_ok in H as [? ?]
  | H : or_else _ _ _ = (Ok _, _) |- _ => apply or_else_ok in H
  | H : now _ = (Ok _, _) |- _ => apply now_ok in H as [? ?]
  | H : current _ = (Ok _, _) |- _ => apply current_ok in H as [? ?]
  | H : get _ _ _ _ = (Ok _, _) |- _ => apply get_ok in H as [? ?]
  | H : put _ _ _ _ = (Ok _, _) |- _ => apply put_ok in H
  | H : remove _ _ _ = (Ok _, _) |- _ => apply remove_ok in H
  end; simplify_eq/=.

(** As [tx_inv], and split on the conditions and matches the run went through. *)
Ltac tx_crush :=
  repeat (tx_inv;
    match goal with
    | H : (match ?x with _ => _ end) _ = (Ok _, _) |- _ =>
        first [is_var x; destruct x | destruct x eqn:?]; try (by inversion H); tx_inv
    end); tx_inv.

(** Run the leading [get] of a goal on a row some hypothesis gives. *)
Ltac tx_get :=
  erewrite bind_step by (eapply get_row; [eassumption|reflexivity]); cbv beta iota.

Lemma write_err {A} (m : tx A) s e s' :
  write m s = (Err e, s') → s'.(St.db) = s.(St.db).
Proof. unfold write. destruct (m s) as [[a|e'] s1]; [done|]. by intros [= -> <-]. Qed.

Lemma write_ok {A} (m : tx A) s a s' : write m s = (Ok a, s') ↔ m s = (Ok a, s').
Proof. unfold write. destruct (m s) as [[]]; naive_solver. Qed.

Lemma read_db {A} (m : tx A) s : (read m s).2.(St.db) = s.(St.db).
Proof. unfold read. by destruct (m s). Qed.

(** ** Scans read the bucket in key order *)

Lemma string_leb_spec a b : String.leb a b = true ↔ String.le a b.
Proof. unfold String.le. by rewrite Is_true_true. Qed.

Section scans.
Implicit Types (d : gmap (string * string) row) (rows : list (string * row)).

#[local] Instance key_le_trans : Transitive key_le.
Proof. intros a b c. unfold key_le. apply (transitivity (R:=String.le)). Qed.
#[local] Instance key_le_total : Total key_le.
Proof. intros a b. unfold key_le. apply (total String.le). Qed.

Lemma elem_of_bucket_rows b d k r : (k, r) ∈ bucket_rows b d ↔ d !! (b, k) = Some r.
Proof.
  unfold bucket_rows. rewrite (merge_sort_Permutation key_le), list_elem_of_omap. split.
  - intros ([[b' k'] r'] & Hin & He). simpl in He.
    destruct (String.eqb_spec b' b); simplify_eq. by apply elem_of_map_to_list in Hin.
  - intros Hd. exists ((b, k), r). split; [by apply elem_of_map_to_list|].
    simpl. by rewrite String.eqb_refl.
Qed.

Lemma bucket_rows_sorted b d : StronglySorted key_le (bucket_rows b d).
Proof. apply (StronglySorted_merge_sort key_le). Qed.

Lemma bucket_rows_nodup b d : NoDup (bucket_rows b d).*1.
Proof.
  unfold bucket_rows. rewrite (merge_sort_Permutation key_le).
  pose proof (NoDup_fst_map_to_list d) as Hd. revert Hd.
  induction (map_to_list d) as [|[[b' k] r] l IH]; csimpl; [intros; constructor|].
  intros [Hni Hd]%NoDup_cons. destruct (String.eqb_spec b' b) as [->|]; [|by apply IH].
  csimpl. apply NoDup_cons. split; [|by apply IH].
  intros ([k' r'] & -> & Hin)%list_elem_of_fmap. apply Hni, list_elem_of_fmap.
  apply list_elem_of_omap in Hin as ([[b1 k1] r1] & Hin & He). simpl in He.
  destruct (String.eqb_spec b1 b); simplify_eq. eexists. split; [|exact Hin]. done.
Qed.

Definition after_key (after : option string) (kr : string * row) : bool :=
  match after with None => true | Some k => negb (String.leb kr.1 k) end.

(** The rows after the last key of a prefix are the rest. *)
Lemma filter_after pre k r post :
  StronglySorted key_le (pre ++ (k, r) :: post) → NoDup (pre ++ (k, r) :: post).*1 →
  List.filter (after_key (Some k)) (pre ++ (k, r) :: post) = post.
Proof.
  induction pre as [|[j w] pre IH]; simpl; intros Hs Hn;
    inversion_clear Hs as [|?? Hs' Hf]; apply NoDup_cons in Hn as [Hni Hn].
  - replace (String.leb k k) with true by (symmetry; apply string_leb_spec; done). simpl.
    rewrite List.Forall_forall in Hf. clear Hs'. revert Hf Hni Hn.
    induction post as [|[j w] post IH]; simpl; [done|]. intros Hf Hni Hn.
    assert (String.le k j) as Hkj by (apply (Hf (j, w)); by left).
    destruct (String.leb j k) eqn:Hle; simpl.
    + apply string_leb_spec in Hle. exfalso. apply Hni.
      replace k with j by (by apply (anti_symm String.le)). set_solver.
    + f_equal. apply IH; [intros ? ?; apply Hf; by right|set_solver|].
      by apply NoDup_cons in Hn as [].
  - assert (String.leb j k = true) as ->.
    { apply string_leb_spec. rewrite List.Forall_forall in Hf.
      apply (Hf (k, r)), list_elem_of_In. set_solver. }
    simpl. by apply IH.
Qed.

Lemma filter_rest_rows b d pre rest :
  bucket_rows b d = pre ++ rest →
  List.filter (after_key (last pre.*1)) (bucket_rows b d) = rest.
Proof.
  intros Hrows. destruct pre as [|[k g] pre' _] using rev_ind; simpl.
  - rewrite Hrows. simpl. rewrite List.forallb_filter_id; [done|]. by apply forallb_forall.
  - rewrite fmap_app. csimpl. rewrite last_snoc.
    pose proof (bucket_rows_sorted b d) as Hs. pose proof (bucket_rows_nodup b d) as Hn.
    rewrite <-(assoc_L (++)) in Hrows. rewrite Hrows in Hs, Hn |- *. by apply filter_after.
Qed.

(** The same for a decoded bucket. *)
Lemma filter_rest {T} (f : T → row) b d (pre rest : list (string * T)) :
  bucket_rows b d = prod_map (λ k, k) f <$> (pre ++ rest) →
  List.filter (after_key (last pre.*1)) (bucket_rows b d) = prod_map (λ k, k) f <$> rest.
Proof.
  rewrite fmap_app. intros Hrows%filter_rest_rows. rewrite <-list_fmap_compose in Hrows.
  exact Hrows.
Qed.

Lemma decode_rows_spec {T} `{Row T} rows (l : list (string * T)) :
  decode_rows rows = Ok l ↔ rows = prod_map (λ k, k) encode <$> l.
Proof.
  revert l. induction rows as [|[k w] rows IH]; intros l; csimpl.
  { destruct l; split; naive_solver. }
  destruct (decode_rows rows) as [l0|e] eqn:E; simpl.
  - destruct (decode w) as [r|] eqn:Ew.
    + apply encode_decode in Ew as ->. split.
      * intros [= <-]. csimpl. f_equal. by apply IH.
      * destruct l as [|[k' r'] l]; csimpl; [done|]. intros [= <- Hr Hl].
        apply IH in Hl. simplify_eq.
        apply (f_equal decode) in Hr. rewrite !decode_encode in Hr. by simplify_eq.
    + split; [done|]. destruct l as [|[k' r'] l]; csimpl; [done|]. intros [= _ Hr _].
      subst. by rewrite decode_encode in Ew.
  - split.
    + by destruct (decode w).
    + destruct l as [|[k' r'] l]; csimpl; [done|]. intros [= _ _ Hl].
      apply IH in Hl. done.
Qed.

Lemma scan_ok {T} `{Row T} b after limit s l s' :
  scan T b after limit s = (Ok l, s') ↔
  s' = s ∧ take limit (List.filter (after_key after) (bucket_rows b s.(St.db)))
           = prod_map (λ k, k) encode <$> l.
Proof.
  unfold scan. cbn zeta. fold (after_key after). rewrite <-decode_rows_spec.
  split; [by intros [= -> ->]|by intros [-> ->]].
Qed.

Lemma list_all_ok {T} `{Row T} b s l s' :
  list_all T b s = (Ok l, s') ↔
  s' = s ∧ bucket_rows b s.(St.db) = prod_map (λ k, k) encode <$> l.
Proof.
  unfold list_all. rewrite <-decode_rows_spec. split; [by intros [= -> ->]|by intros [-> ->]].
Qed.

(** The whole bucket, record by record. *)
Lemma list_all_elem {T} `{Row T} b s l s' :
  list_all T b s = (Ok l, s') →
  s' = s ∧ (∀ k r, (k, r) ∈ l ↔ s.(St.db) !! (b, k) = Some (encode r))
  ∧ ∀ k w, s.(St.db) !! (b, k) = Some w → ∃ r, w = encode r ∧ (k, r) ∈ l.
Proof.
  intros [-> Hl]%list_all_ok. split; [done|].
  assert (Hin : ∀ k w, s.(St.db) !! (b, k) = Some w ↔ ∃ r, w = encode r ∧ (k, r) ∈ l).
  { intros k w. rewrite <- elem_of_bucket_rows, Hl, list_elem_of_fmap. split.
    - intros ([k' r] & [= -> ->] & ?). eauto.
    - intros (r & -> & ?). by exists (k, r). }
  split; [|apply Hin]. intros k r. rewrite Hin. split; [eauto|].
  intros (r' & He & ?). apply (f_equal decode) in He. rewrite !decode_encode in He. congruence.
Qed.

(** The number of records of a bucket grows only by the keys it gains. *)
Definition bucket_size (b : string) d : nat := length (bucket_rows b d).

Lemma bucket_size_le b d ks :
  NoDup ks → (∀ k, k ∈ ks → is_Some (d !! (b, k))) → (length ks ≤ bucket_size b d)%nat.
Proof.
  intros Hnd Hks. unfold bucket_size. rewrite <- (length_fmap fst (bucket_rows b d)).
  apply submseteq_length, NoDup_submseteq; [done|].
  intros k [w Hw]%Hks. apply elem_of_bucket_rows in Hw. apply list_elem_of_fmap. by exists (k, w).
Qed.
Lemma bucket_size_gain b d d' k0 :
  (∀ k, is_Some (d' !! (b, k)) → k = k0 ∨ is_Some (d !! (b, k))) →
  (bucket_size b d' ≤ S (bucket_size b d))%nat.
Proof.
  intros Hd. unfold bucket_size at 1. rewrite <- (length_fmap fst (bucket_rows b d')).
  pose proof (bucket_rows_nodup b d') as Hnd.
  change (S (bucket_size b d)) with (S (length (bucket_rows b d))).
  rewrite <- (length_fmap fst (bucket_rows b d)).
  change (S (length (bucket_rows b d).*1)) with (length (k0 :: (bucket_rows b d).*1)).
  apply submseteq_length, NoDup_submseteq; [done|].
  intros k ([k' w] & -> & Hw%elem_of_bucket_rows)%list_elem_of_fmap. simpl.
  destruct (Hd k') as [->|[w' Hw']]; [eauto|set_solver|].
  apply list_elem_of_further, list_elem_of_fmap. exists (k', w'). split; [done|].
  by apply elem_of_bucket_rows.
Qed.
Lemma bucket_size_mono b d d' :
  (∀ k, is_Some (d' !! (b, k)) → is_Some (d !! (b, k))) → (bucket_size b d' ≤ bucket_size b d)%nat.
Proof.
  intros Hd. unfold bucket_size at 1. rewrite <- (length_fmap fst). apply bucket_size_le.
  - apply bucket_rows_nodup.
  - intros k ([k' w] & -> & Hw%elem_of_bucket_rows)%list_elem_of_fmap. eauto.
Qed.

(** A scan that returns fewer rows than its limit saw the whole bucket. *)
Lemma scan_short {T} `{Row T} b limit s l s' :
  scan T b None limit s = (Ok l, s') → (length l < limit)%nat →
  (bucket_size b s.(St.db) = length l)%nat.
Proof.
  intros [-> Hl]%scan_ok Hlt. unfold bucket_size. apply (f_equal length) in Hl.
  rewrite length_fmap, length_take in Hl.
  rewrite List.forallb_filter_id in Hl by (by apply forallb_forall). lia.
Qed.
End scans.

(** Updating rows in place keeps the rest of the bucket where it was. *)
Section rows.
Implicit Types (d : gmap (string * string) row).

Lemma bucket_keys_sorted b d : StronglySorted String.le (bucket_rows b d).*1.
Proof.
  pose proof (bucket_rows_sorted b d) as Hs. induction Hs as [|[k w] l Hs IH Hf]; csimpl; constructor; [done|].
  apply Forall_fmap. eapply Forall_impl; [exact Hf|]. by intros [j v].
Qed.

Lemma elem_of_bucket_keys b d (k : string) : k ∈ (bucket_rows b d).*1 ↔ is_Some (d !! (b, k)).
Proof.
  rewrite list_elem_of_fmap. split.
  - intros ([j w] & -> & Hw%elem_of_bucket_rows). eauto.
  - intros [w Hw%elem_of_bucket_rows]. by exists (k, w).
Qed.

Lemma bucket_keys_eq b d d' :
  (∀ k, is_Some (d !! (b, k)) ↔ is_Some (d' !! (b, k))) →
  (bucket_rows b d).*1 = (bucket_rows b d').*1.
Proof.
  intros Hd. apply (StronglySorted_unique String.le); [apply bucket_keys_sorted..|].
  apply NoDup_Permutation; [apply bucket_rows_nodup..|].
  intros k. by rewrite !elem_of_bucket_keys.
Qed.

Lemma rows_values_eq (l l' : list (string * row)) :
  l.*1 = l'.*1 → (∀ k w w', (k, w) ∈ l → (k, w') ∈ l' → w = w') → l = l'.
Proof.
  revert l'. induction l as [|[k w] l IH]; intros [|[k' w'] l']; csimpl; try done.
  intros [= <- Hk] Hv. f_equal; [f_equal; apply (Hv k); set_solver|].
  apply IH; [done|]. intros j v v' ??. apply (Hv j); set_solver.
Qed.

Lemma bucket_rows_change b d d' pre rest :
  bucket_rows b d = pre ++ rest →
  (∀ k, is_Some (d !! (b, k)) ↔ is_Some (d' !! (b, k))) →
  (∀ k, k ∉ pre.*1 → d' !! (b, k) = d !! (b, k)) →
  ∃ pre', bucket_rows b d' = pre' ++ rest ∧ pre'.*1 = pre.*1.
Proof.
  intros Hrows Hsome Hout. pose proof (bucket_keys_eq _ _ _ Hsome) as Hk.
  pose proof (bucket_rows_nodup b d) as Hnd. rewrite Hrows, fmap_app in Hk, Hnd.
  assert (Hlen : length (take (length pre) (bucket_rows b d')).*1 = length pre.*1).
  { rewrite length_fmap, length_take, length_fmap. apply (f_equal length) in Hk.
    rewrite length_app, !length_fmap in Hk. lia. }
  rewrite <- (take_drop (length pre) (bucket_rows b d')) in Hk. rewrite fmap_app in Hk.
  apply app_inj_1 in Hk as [Hpre Hrest]; [|done].
  exists (take (length pre) (bucket_rows b d')). split; [|done].
  rewrite <- (take_drop (length pre) (bucket_rows b d')) at 1. f_equal. symmetry.
  apply rows_values_eq; [done|]. intros k w w' Hw Hw'.
  assert (d !! (b, k) = Some w) as H1 by (apply elem_of_bucket_rows; rewrite Hrows; set_solver).
  assert (d' !! (b, k) = Some w') as H2.
  { apply elem_of_bucket_rows. rewrite <- (take_drop (length pre) (bucket_rows b d')). set_solver. }
  rewrite Hout in H2; [congruence|]. apply NoDup_app in Hnd as (_ & Hdis & _).
  intros Hin. apply (Hdis k Hin), list_elem_of_fmap. by exists (k, w).
Qed.
End rows.

Lemma fold_m_app {A B} (f : B → A → tx B) acc l1 l2 s :
  fold_m f acc (l1 ++ l2) s = (acc ← fold_m f acc l1; fold_m f acc l2) s.
Proof.
  revert acc s. induction l1 as [|a l1 IH]; intros acc s; [done|]. simpl.
  unfold mbind, tx_bind. destruct (f acc a s) as [[b|e] s1]; [|done].
  rewrite IH. done.
Qed.
