(* ===== verification/Prepared.v ===== *)
(** * Optimistic transactions (src/src/store/prepared.rs)

    [Store::prepared_write] runs its callback against short read transactions:
    every point and range it reads is remembered, every write is staged.  A
    writer then checks that each remembered point and range still reads the
    same, and only then applies the staged writes.  The callback sees its own
    staged writes, repeats a point read from the cache, and widens every bounded
    scan by the number of staged writes.

    The callback is a program over raw records, [prog]; [direct] is its meaning
    inside one exclusive write transaction, [prepare] its meaning here, where
    each uncached access may meet a different version of the store (other
    writers commit in between).  The theorem at the end is serializability: a
    preparation that validates has returned exactly what the exclusive
    transaction returns on the store it commits to, and leaves that store in
    exactly the same state. *)

From S2P Require Import Prelude.

#[local] Set Warnings "-clear-no-such-hyp".

(** A half-open range of record names, and how much of it a scan returns. *)
Module Range.
Record t := mk { start : string; end_ : string; limit : nat; reverse : bool }.
Definition widen (r : t) (n : nat) : t := mk r.(start) r.(end_) (r.(limit) + n) r.(reverse).
Definition contains (r : t) (k : string) : bool :=
  String.leb r.(start) k && negb (String.leb r.(end_) k).
#[global] Instance eq_dec : EqDecision t.
Proof. solve_decision. Defined.
End Range.

(** The names of a map in range, in the direction of the scan. *)
Definition range_names {V} (r : Range.t) (b : gmap string V) : list string :=
  let names := merge_sort String.le
                 (List.filter (Range.contains r) (elements (dom b))) in
  if r.(Range.reverse) then reverse names else names.

(** [raw_scan_base]: at most [limit] records of the range, in order. *)
Definition raw_scan {V} (r : Range.t) (b : gmap string V) : list (string * V) :=
  omap (λ k, (k,.) <$> b !! k) (take r.(Range.limit) (range_names r b)).

(** Apply staged writes; [None] is a deletion. *)
Definition apply_writes {V} (w : gmap string (option V)) (b : gmap string V) : gmap string V :=
  merge (λ o x, match o with Some v => v | None => x end) w b.

(** A callback: its reads, its writes, and its outcome. *)
Inductive prog (V A : Type) : Type :=
| Done (r : Result A)
| RawGet (name : string) (k : option V → prog V A)
| RawPut (name : string) (o : option V) (k : prog V A)
| RawScan (r : Range.t) (k : list (string * V) → prog V A).
Arguments Done {V A} r.
Arguments RawGet {V A} name k.
Arguments RawPut {V A} name o k.
Arguments RawScan {V A} r k.

(** The callback inside one exclusive write transaction. *)
Fixpoint direct {V A} (p : prog V A) (b : gmap string V) : Result A * gmap string V :=
  match p with
  | Done r => (r, b)
  | RawGet name k => direct (k (b !! name)) b
  | RawPut name o k => direct k (partial_alter (λ _, o) name b)
  | RawScan r k => direct (k (raw_scan r b)) b
  end.

Module Prepared.
Record t (V : Type) := mk {
  started_at : Z;
  deadline : option Z;
  reads : gmap string (option V);
  writes : gmap string (option V);
  scans : list (Range.t * list (string * V));
}.
Arguments mk {V} started_at deadline reads writes scans.
Arguments started_at {V} t.
Arguments deadline {V} t.
Arguments reads {V} t.
Arguments writes {V} t.
Arguments scans {V} t.

Definition new {V} (at_ : Z) : t V := mk at_ None ∅ ∅ [].
End Prepared.

Section prepared.
(** The bytes of a record, and the [expires_at] member of the JSON document
    they hold. *)
Context {V : Type} `{EqDecision V} (expires_at : V → option Z).
Abbreviation base := (gmap string V).
Abbreviation prepared := (Prepared.t V).

(** The earliest expiry, later than the start, of the records read. *)
Definition track_expiry (p : prepared) (v : V) : prepared :=
  match expires_at v with
  | Some e =>
      if p.(Prepared.started_at) <? e then
        Prepared.mk p.(Prepared.started_at)
          (Some (Z.min (default u64_max p.(Prepared.deadline)) e))
          p.(Prepared.reads) p.(Prepared.writes) p.(Prepared.scans)
      else p
  | None => p
  end.

Definition add_read (p : prepared) (name : string) (o : option V) : prepared :=
  Prepared.mk p.(Prepared.started_at) p.(Prepared.deadline)
    (<[name := o]> p.(Prepared.reads)) p.(Prepared.writes) p.(Prepared.scans).

(** [Tx::raw_get] in a prepared transaction; [b] is the version of the store
    an uncached read meets. *)
Definition raw_get (name : string) (b : base) (p : prepared) : option V * prepared :=
  match p.(Prepared.writes) !! name with
  | Some o => (o, p)
  | None =>
      match p.(Prepared.reads) !! name with
      | Some o => (o, p)
      | None =>
          let o := b !! name in
          let p := match o with Some v => track_expiry p v | None => p end in
          (o, add_read p name o)
      end
  end.

(** [Tx::stage]. *)
Definition stage (name : string) (o : option V) (b : base) (p : prepared) : prepared :=
  let p := match p.(Prepared.reads) !! name with
           | Some _ => p
           | None => add_read p name (b !! name)
           end in
  Prepared.mk p.(Prepared.started_at) p.(Prepared.deadline) p.(Prepared.reads)
    (<[name := o]> p.(Prepared.writes)) p.(Prepared.scans).

(** [Tx::scan_records]: the widened scan is remembered, the staged writes of
    the range are laid over it, and the first [limit] records remain. *)
Definition scan_records (r : Range.t) (b : base) (p : prepared) :
    list (string * V) * prepared :=
  let wide := Range.widen r (size p.(Prepared.writes)) in
  let records := raw_scan wide b in
  let p := foldl (λ p kv, track_expiry p kv.2) p records in
  let p := Prepared.mk p.(Prepared.started_at) p.(Prepared.deadline) p.(Prepared.reads)
             p.(Prepared.writes) (p.(Prepared.scans) ++ [(wide, records)]) in
  let staged := filter (λ kv : string * option V, Range.contains r kv.1 = true)
                  p.(Prepared.writes) in
  (raw_scan r (apply_writes staged (list_to_map records)), p).

(** The callback run by [prepared_write]; the n-th uncached access meets the
    store [versions n]. *)
Fixpoint prepare {A} (c : prog V A) (versions : nat → base) (n : nat) (p : prepared) :
    Result A * prepared :=
  match c with
  | Done r => (r, p)
  | RawGet name k =>
      let '(o, p) := raw_get name (versions n) p in prepare (k o) versions (S n) p
  | RawPut name o k => prepare k versions (S n) (stage name o (versions n) p)
  | RawScan r k =>
      let '(l, p) := scan_records r (versions n) p in prepare (k l) versions (S n) p
  end.

(** The checks of the committing writer, at time [at_] on the store [b]. *)
Definition reads_valid (p : prepared) (b : base) : bool :=
  bool_decide (map_Forall (λ name o, b !! name = o) p.(Prepared.reads)).
Definition scans_valid (p : prepared) (b : base) : bool :=
  forallb (λ s, bool_decide (raw_scan s.1 b = s.2)) p.(Prepared.scans).
Definition in_time (p : prepared) (at_ : Z) : bool :=
  match p.(Prepared.deadline) with Some d => at_ <? d | None => true end.
Definition commit (p : prepared) (at_ : Z) (b : base) : option base :=
  if in_time p at_ && reads_valid p b && scans_valid p b
  then Some (apply_writes p.(Prepared.writes) b)
  else None.

(** What one attempt meets: the versions its reads see, and the time and the
    store of the writer that validates it. *)
Record attempt := Attempt {
  versions : nat → base;
  commit_at : Z;
  commit_base : base;
}.

(** [Store::prepared_write]: up to [fuel] attempts (the code makes four). *)
Fixpoint prepared_attempts {A} (fuel : nat) (f : nat → prog V A) (at_ : nat → Z)
    (env : nat → attempt) (i : nat) : Result A * option base :=
  match fuel with
  | O => (Err (Error.new SERVICE_UNAVAILABLE "transaction_conflict"
                 "Authentication state changed concurrently; retry the request"), None)
  | S fuel =>
      match prepare (f i) (env i).(versions) 0 (Prepared.new (at_ i)) with
      | (Err e, _) => (Err e, None)
      | (Ok a, p) =>
          match commit p (env i).(commit_at) (env i).(commit_base) with
          | Some b => (Ok a, Some b)
          | None => prepared_attempts fuel f at_ env (S i)
          end
      end
  end.
Definition prepared_write {A} (f : nat → prog V A) (at_ : nat → Z) (env : nat → attempt) :
    Result A * option base :=
  prepared_attempts 4 f at_ env 0.
End prepared.

(** ** Ordered scans *)

Section order.
Context {A : Type} `{EqDecision A} (R : relation A).
Context `{!RelDecision R, !Reflexive R, !Transitive R, !AntiSymm (=) R, !Total R}.

(** Two ordered lists agree on a prefix when what the longer one adds comes
    after that prefix. *)
Lemma take_sorted_extension n (xs ys : list A) :
  StronglySorted R xs → StronglySorted R ys → NoDup xs → NoDup ys →
  xs ⊆ ys → (n ≤ length xs)%nat →
  (∀ x y, x ∈ take n xs → y ∈ ys → y ∉ xs → R x y) →
  take n ys = take n xs.
Proof.
  revert xs ys. induction n as [|n IH]; intros xs ys Sx Sy Nx Ny Hsub Hlen Hlt; [done|].
  destruct xs as [|x xs]; [simpl in Hlen; lia|].
  destruct ys as [|y ys]; [set_solver|].
  inversion_clear Sx as [|?? Sx' Fx]; inversion_clear Sy as [|?? Sy' Fy].
  rewrite List.Forall_forall in Fx, Fy.
  apply NoDup_cons in Nx as [Nx Nx']; apply NoDup_cons in Ny as [Ny Ny'].
  assert (x = y) as <-.
  { assert (R y x).
    { assert (x ∈ y :: ys) as [->|?]%elem_of_cons by set_solver; [done|].
      by apply Fy, list_elem_of_In. }
    destruct (decide (y ∈ x :: xs)) as [Hy|Hy].
    - apply elem_of_cons in Hy as [->|Hy]; [done|]. apply (anti_symm R); [|done].
      by apply Fx, list_elem_of_In.
    - apply (anti_symm R); [|done]. apply Hlt; [simpl; set_solver|set_solver|done]. }
  simpl. f_equal. apply IH; try done.
  - intros z Hz. assert (z ∈ x :: ys) as [->|?]%elem_of_cons by set_solver; done.
  - simpl in Hlen. lia.
  - intros z w Hz Hw Hw'. apply Hlt; [simpl; set_solver|set_solver|].
    intros [->|?]%elem_of_cons; done.
Qed.

Lemma sorted_same_elements (xs ys : list A) :
  StronglySorted R xs → StronglySorted R ys → NoDup xs → NoDup ys →
  (∀ x, x ∈ xs ↔ x ∈ ys) → xs = ys.
Proof.
  intros. apply (StronglySorted_unique R); [done..|]. by apply NoDup_Permutation.
Qed.

(** Among the first [n] of an ordered list, each is below some element of any
    [n] elements the list contains. *)
Lemma take_below_witness n (xs ts : list A) x :
  StronglySorted R xs → NoDup xs → NoDup ts → ts ⊆ xs → (n ≤ length ts)%nat →
  x ∈ take n xs → ∃ t, t ∈ ts ∧ R x t.
Proof.
  intros Sx Nx Nt Hsub Hlen Hx.
  destruct (decide (Exists (R x) ts)) as [He|He]; [by apply Exists_exists in He|].
  exfalso. apply list_elem_of_lookup in Hx as [i Hi].
  apply lookup_take_Some in Hi as [Hi Hin].
  assert (ts ⊆ take i xs) as Hts.
  { intros t Ht. assert (¬ R x t) as Hn.
    { intros ?. apply He, Exists_exists. eauto. }
    assert (t ∈ xs) as [j Hj]%list_elem_of_lookup by set_solver.
    apply list_elem_of_lookup. exists j. apply lookup_take_Some. split; [done|].
    destruct (decide (j < i)%nat); [done|]. exfalso. apply Hn.
    destruct (decide (i = j)) as [->|]; [by simplify_eq|].
    rewrite <-(take_drop_middle _ _ _ Hi) in Sx.
    apply StronglySorted_app in Sx as (_ & _ & Sx).
    inversion_clear Sx as [|?? _ F]. rewrite List.Forall_forall in F.
    apply F, list_elem_of_In, list_elem_of_lookup. exists (j - S i)%nat.
    rewrite lookup_drop. by replace (S i + (j - S i))%nat with j by lia. }
  assert (length ts ≤ length (take i xs))%nat.
  { apply submseteq_length. by apply NoDup_submseteq. }
  rewrite length_take in *. lia.
Qed.
End order.


(** ** Range scans of an overlaid store *)

Section overlay.
Context {V : Type}.
Implicit Types (b : gmap string V) (w : gmap string (option V)) (r : Range.t).

Lemma lookup_apply_writes w b k :
  apply_writes w b !! k = match w !! k with Some o => o | None => b !! k end.
Proof. unfold apply_writes. rewrite lookup_merge. by destruct (w !! k), (b !! k). Qed.

Lemma apply_writes_insert w b k o :
  partial_alter (λ _, o) k (apply_writes w b) = apply_writes (<[k := o]> w) b.
Proof.
  apply map_eq. intros j. rewrite lookup_apply_writes.
  destruct (decide (k = j)) as [->|].
  - by rewrite lookup_partial_alter_eq, lookup_insert_eq.
  - rewrite lookup_partial_alter_ne, lookup_insert_ne, lookup_apply_writes; done.
Qed.

(** The order of a scan. *)
Definition dir (r : Range.t) : relation string :=
  if r.(Range.reverse) then flip String.le else String.le.
#[local] Instance dir_dec r : RelDecision (dir r).
Proof. unfold dir. destruct (Range.reverse r); intros ??; apply _. Defined.
#[local] Instance dir_refl r : Reflexive (dir r).
Proof. unfold dir. destruct (Range.reverse r); intros ?; simpl; reflexivity. Qed.
#[local] Instance dir_trans r : Transitive (dir r).
Proof. unfold dir. destruct (Range.reverse r); intros ?????; simpl in *; etrans; eauto. Qed.
#[local] Instance dir_antisymm r : AntiSymm (=) (dir r).
Proof.
  unfold dir. destruct (Range.reverse r); intros ?? H1 H2; simpl in *;
    by apply (anti_symm String.le).
Qed.
#[local] Instance dir_total r : Total (dir r).
Proof.
  unfold dir. destruct (Range.reverse r); intros x y; simpl;
    destruct (total String.le x y); auto.
Qed.

Lemma sorted_reverse (l : list string) :
  StronglySorted String.le l → StronglySorted (flip String.le) (reverse l).
Proof.
  induction 1 as [|x l _ IH F]; [constructor|]. rewrite reverse_cons.
  apply StronglySorted_app. split; [|split; [exact IH|constructor; constructor]].
  intros a c Ha Hc. rewrite elem_of_reverse in Ha. apply list_elem_of_singleton in Hc as ->.
  rewrite List.Forall_forall in F. by apply F, list_elem_of_In.
Qed.

Lemma range_names_sorted r b : StronglySorted (dir r) (range_names r b).
Proof.
  unfold range_names, dir.
  assert (∀ l, StronglySorted String.le (merge_sort String.le l)) as S.
  { intros l. apply (StronglySorted_merge_sort _); apply _. }
  destruct (Range.reverse r); [apply sorted_reverse|]; apply S.
Qed.

Lemma elem_of_range_names r b k :
  k ∈ range_names r b ↔ Range.contains r k = true ∧ is_Some (b !! k).
Proof.
  unfold range_names.
  assert (k ∈ merge_sort String.le (List.filter (Range.contains r) (elements (dom b)))
          ↔ Range.contains r k = true ∧ is_Some (b !! k)) as Hk.
  { rewrite merge_sort_Permutation, list_elem_of_In, filter_In, <-list_elem_of_In,
      elem_of_elements, elem_of_dom. tauto. }
  destruct (Range.reverse r); [by rewrite elem_of_reverse|done].
Qed.

Lemma range_names_nodup r b : NoDup (range_names r b).
Proof.
  unfold range_names.
  assert (NoDup (merge_sort String.le (List.filter (Range.contains r) (elements (dom b))))).
  { rewrite merge_sort_Permutation. apply NoDup_ListNoDup, List.NoDup_filter,
      NoDup_ListNoDup, NoDup_elements. }
  destruct (Range.reverse r); [by rewrite reverse_Permutation|done].
Qed.

Lemma lookup_scanned (l : list string) b k :
  (list_to_map (omap (λ k, (k,.) <$> b !! k) l) : gmap string V) !! k
  = if decide (k ∈ l) then b !! k else None.
Proof.
  induction l as [|j l IH]; csimpl; [apply lookup_empty|].
  destruct (b !! j) as [v|] eqn:Hj; csimpl.
  - destruct (decide (j = k)) as [->|].
    + rewrite lookup_insert_eq. by rewrite decide_True by set_solver.
    + rewrite lookup_insert_ne, IH by done.
      destruct (decide (k ∈ l)); [rewrite decide_True by set_solver; done|].
      rewrite decide_False by set_solver. done.
  - rewrite IH. destruct (decide (k ∈ l)); [rewrite decide_True by set_solver; done|].
    case_decide as Hk; [|done]. apply elem_of_cons in Hk as [->|]; done.
Qed.

(** The names a widened scan of the base found, and the store seen through
    it: the staged writes of the range over exactly those records. *)
Definition seen (r : Range.t) (n : nat) (b : gmap string V) : list string :=
  take (r.(Range.limit) + n) (range_names r b).
Definition view (r : Range.t) w b : gmap string V :=
  apply_writes (filter (λ kv : string * option V, Range.contains r kv.1 = true) w)
    (list_to_map (raw_scan (Range.widen r (size w)) b)).

Lemma range_names_widen r n b : range_names (Range.widen r n) b = range_names r b.
Proof. done. Qed.

Lemma lookup_view r w b k :
  Range.contains r k = true →
  view r w b !! k =
    match w !! k with
    | Some o => o
    | None => if decide (k ∈ seen r (size w) b) then b !! k else None
    end.
Proof.
  intros Hk. unfold view. rewrite lookup_apply_writes, map_lookup_filter.
  destruct (w !! k) as [o|]; simpl.
  - rewrite option_guard_True by done. done.
  - apply lookup_scanned.
Qed.

Lemma seen_subset r n b k : k ∈ seen r n b → k ∈ range_names r b.
Proof. intros (i & Hi & _)%elem_of_take. apply list_elem_of_lookup. eauto. Qed.

(** The untouched names a widened scan saw: at least [limit] of them when the
    scan was cut short. *)
Definition kept r w b : list string :=
  List.filter (λ k, bool_decide (w !! k = None)) (seen r (size w) b).

Lemma elem_of_kept r w b k : k ∈ kept r w b ↔ k ∈ seen r (size w) b ∧ w !! k = None.
Proof.
  unfold kept. rewrite list_elem_of_In, filter_In, <-list_elem_of_In, bool_decide_eq_true.
  done.
Qed.

Lemma seen_nodup r n b : NoDup (seen r n b).
Proof. eapply sublist_NoDup; [apply range_names_nodup|apply sublist_take]. Qed.

Lemma kept_length r w b :
  (r.(Range.limit) + size w ≤ length (range_names r b))%nat →
  (r.(Range.limit) ≤ length (kept r w b))%nat.
Proof.
  intros Hlen.
  pose (gone := List.filter (λ k, negb (bool_decide (w !! k = None))) (seen r (size w) b)).
  assert (length (seen r (size w) b) = length (kept r w b) + length gone)%nat as Hsplit.
  { symmetry. apply filter_partition_length. }
  assert (length gone ≤ size w)%nat.
  { rewrite <-(size_dom w). unfold size at 1, set_size. apply submseteq_length, NoDup_submseteq.
    - apply NoDup_ListNoDup, List.NoDup_filter, NoDup_ListNoDup, seen_nodup.
    - intros k Hk. unfold gone in Hk. rewrite list_elem_of_In, filter_In in Hk.
      destruct Hk as [_ Hk]. apply negb_true_iff, bool_decide_eq_false in Hk.
      apply elem_of_elements, elem_of_dom. by destruct (w !! k); [eexists|]. }
  unfold seen in Hsplit at 1. rewrite length_take in Hsplit. lia.
Qed.

(** Reading a range through staged writes gives what the range of the written
    store would give, although only [limit] plus as many records as there are
    staged writes were fetched. *)
Lemma raw_scan_view r w b : raw_scan r (view r w b) = raw_scan r (apply_writes w b).
Proof.
  assert (∀ k, k ∈ range_names r (view r w b) ↔
               Range.contains r k = true ∧
               match w !! k with
               | Some o => is_Some o
               | None => k ∈ seen r (size w) b
               end) as Hview.
  { intros k. rewrite elem_of_range_names.
    split; intros [Hk Hs]; (split; [done|]); rewrite lookup_view in * by done;
      destruct (w !! k) as [o|]; try done.
    - case_decide; [done|]. by destruct Hs.
    - rewrite decide_True by done. apply seen_subset, elem_of_range_names in Hs as [_ Hs].
      done. }
  assert (∀ k, k ∈ range_names r (apply_writes w b) ↔
               Range.contains r k = true ∧
               match w !! k with
               | Some o => is_Some o
               | None => k ∈ range_names r b
               end) as Hfull.
  { intros k. rewrite elem_of_range_names, lookup_apply_writes.
    destruct (w !! k); [done|]. rewrite elem_of_range_names. tauto. }
  assert (take r.(Range.limit) (range_names r (apply_writes w b))
          = take r.(Range.limit) (range_names r (view r w b))) as Htake.
  { destruct (decide (r.(Range.limit) + size w < length (range_names r b))%nat) as [Hlt|Hge].
    - assert (r.(Range.limit) ≤ length (kept r w b))%nat as Hlen
        by (apply kept_length; lia).
      assert (kept r w b ⊆ range_names r (view r w b)) as Hkept.
      { intros k [Hk Hw]%elem_of_kept. apply Hview. rewrite Hw. split; [|done].
        by apply seen_subset, elem_of_range_names in Hk as []. }
      assert (NoDup (kept r w b)) as Nk.
      { apply NoDup_ListNoDup, List.NoDup_filter, NoDup_ListNoDup, seen_nodup. }
      apply (take_sorted_extension (dir r));
        try apply range_names_sorted; try apply range_names_nodup.
      + intros k [Hc Hk]%Hview. apply Hfull. split; [done|].
        destruct (w !! k); [done|]. by apply seen_subset in Hk.
      + etrans; [exact Hlen|]. by apply submseteq_length, NoDup_submseteq.
      + intros x y Hx Hy Hny.
        apply Hfull in Hy as [Hc Hy].
        assert (w !! y = None ∧ y ∉ seen r (size w) b) as [Hw Hs].
        { destruct (w !! y) eqn:E.
          - exfalso. apply Hny, Hview. rewrite E. done.
          - split; [done|]. intros Hs. apply Hny, Hview. rewrite E. done. }
        rewrite Hw in Hy.
        destruct (take_below_witness (dir r) r.(Range.limit) (range_names r (view r w b))
                    (kept r w b) x) as (t & Ht & Hxt);
          [apply range_names_sorted|apply range_names_nodup|done..|].
        apply elem_of_kept in Ht as [Ht _]. etrans; [exact Hxt|].
        pose proof (range_names_sorted r b) as S.
        rewrite <-(take_drop (r.(Range.limit) + size w) (range_names r b)) in S, Hy.
        apply StronglySorted_app in S as [S _]. apply S; [done|].
        apply elem_of_app in Hy as [?|?]; [done|done].
    - f_equal. apply (sorted_same_elements (dir r));
        try apply range_names_sorted; try apply range_names_nodup.
      intros k. rewrite Hfull, Hview. unfold seen. by rewrite take_ge by lia. }
  unfold raw_scan. rewrite Htake. apply omap_ext_in.
  intros k (i & Hi & _)%elem_of_take. f_equal.
  assert (k ∈ range_names r (view r w b)) as [Hc Hk]%Hview
    by (apply list_elem_of_lookup; eauto).
  rewrite lookup_view, lookup_apply_writes by done.
  destruct (w !! k); [done|]. by rewrite decide_True by done.
Qed.
End overlay.


(** ** Serializability *)

Section serializable.
Context {V : Type} `{EqDecision V} (expires_at : V → option Z).
Implicit Types (b : gmap string V) (p q : Prepared.t V).

(** [q] remembers everything [p] does and has staged the same writes. *)
Definition extends p q : Prop :=
  p.(Prepared.reads) ⊆ q.(Prepared.reads) ∧ p.(Prepared.scans) ⊆ q.(Prepared.scans).

#[local] Instance extends_refl : Reflexive extends.
Proof. by intros p. Qed.
#[local] Instance extends_trans : Transitive extends.
Proof. intros p q r [] []. split; [by etrans|set_solver]. Qed.

Lemma track_expiry_same p v :
  (track_expiry expires_at p v).(Prepared.reads) = p.(Prepared.reads)
  ∧ (track_expiry expires_at p v).(Prepared.writes) = p.(Prepared.writes)
  ∧ (track_expiry expires_at p v).(Prepared.scans) = p.(Prepared.scans).
Proof. unfold track_expiry. by repeat case_match. Qed.

Lemma track_all_same (l : list (string * V)) p :
  let q := foldl (λ p kv, track_expiry expires_at p kv.2) p l in
  q.(Prepared.reads) = p.(Prepared.reads) ∧ q.(Prepared.writes) = p.(Prepared.writes)
  ∧ q.(Prepared.scans) = p.(Prepared.scans).
Proof.
  revert p. induction l as [|kv l IH]; intros p; simpl; [done|].
  destruct (IH (track_expiry expires_at p kv.2)) as (-> & -> & ->).
  apply track_expiry_same.
Qed.

Lemma raw_get_spec name b p o q :
  raw_get expires_at name b p = (o, q) →
  extends p q ∧ q.(Prepared.writes) = p.(Prepared.writes) ∧
  (p.(Prepared.writes) !! name = Some o
   ∨ p.(Prepared.writes) !! name = None ∧ q.(Prepared.reads) !! name = Some o).
Proof.
  unfold raw_get. destruct (Prepared.writes p !! name) eqn:Ew.
  { intros [= <- <-]. split_and!; [reflexivity|done|by left]. }
  destruct (Prepared.reads p !! name) eqn:Er.
  { intros [= <- <-]. split_and!; [reflexivity|done|by right]. }
  intros [= <- <-]. unfold extends. destruct (b !! name) as [v|]; simpl.
  - destruct (track_expiry_same p v) as (Hr & Hw & Hs). rewrite Hr, Hw, Hs.
    split_and!; [by apply insert_subseteq|done|done|].
    right. by rewrite lookup_insert_eq.
  - split_and!; [by apply insert_subseteq|done|done|].
    right. by rewrite lookup_insert_eq.
Qed.

Lemma stage_spec name o b p :
  extends p (stage name o b p) ∧
  (stage name o b p).(Prepared.writes) = <[name := o]> p.(Prepared.writes).
Proof.
  unfold stage. destruct (Prepared.reads p !! name) eqn:Er; simpl; split; try done.
  split; [by apply insert_subseteq|done].
Qed.

Lemma scan_records_spec r b p l q :
  scan_records expires_at r b p = (l, q) →
  let wide := Range.widen r (size p.(Prepared.writes)) in
  extends p q ∧ q.(Prepared.writes) = p.(Prepared.writes) ∧
  (wide, raw_scan wide b) ∈ q.(Prepared.scans) ∧
  ∀ b', raw_scan wide b' = raw_scan wide b →
        l = raw_scan r (view r p.(Prepared.writes) b').
Proof.
  unfold scan_records. intros [= <- <-]. simpl.
  set (wide := Range.widen r (size (Prepared.writes p))).
  destruct (track_all_same (raw_scan wide b) p) as (Hr & Hw & Hs).
  unfold extends. simpl. rewrite Hr, Hw, Hs. split_and!; [done|set_solver|done|set_solver|].
  intros b' Hb'. unfold view. fold wide. by rewrite Hb'.
Qed.

Lemma prepare_extends {A} (c : prog V A) vs n p r q :
  prepare expires_at c vs n p = (r, q) → extends p q.
Proof.
  revert n p. induction c as [r'|name k IH|name o k IH|rg k IH]; intros n p; cbn [prepare].
  - by intros [= _ ->].
  - destruct (raw_get expires_at name (vs n) p) as [o p1] eqn:E.
    intros H1%IH. apply raw_get_spec in E as [H0 _]. etrans; [exact H0|exact H1].
  - intros H1%IH. etrans; [apply stage_spec|exact H1].
  - destruct (scan_records expires_at rg (vs n) p) as [l p1] eqn:E.
    intros H1%IH. apply scan_records_spec in E as [H0 _]. etrans; [exact H0|exact H1].
Qed.

(** A preparation whose remembered reads still hold on [b] computed what the
    exclusive transaction computes on [b]. *)
Lemma prepare_direct {A} (c : prog V A) vs n p r q b :
  prepare expires_at c vs n p = (r, q) →
  reads_valid q b = true → scans_valid q b = true →
  direct c (apply_writes p.(Prepared.writes) b)
    = (r, apply_writes q.(Prepared.writes) b).
Proof.
  intros E Hr Hs. revert n p E. apply bool_decide_eq_true in Hr.
  induction c as [r'|name k IH|name o k IH|rg k IH]; intros n p E; cbn [prepare direct] in *.
  - by simplify_eq.
  - destruct (raw_get expires_at name (vs n) p) as [o p1] eqn:E1.
    pose proof (prepare_extends _ _ _ _ _ _ E) as [Hsub _].
    apply raw_get_spec in E1 as (_ & Hw & Ho).
    replace (apply_writes (Prepared.writes p) b !! name) with o.
    { rewrite <-Hw. by eapply IH. }
    rewrite lookup_apply_writes. destruct Ho as [->|[-> Ho]]; [done|].
    eapply lookup_weaken in Ho; [|exact Hsub]. symmetry. by apply (Hr name).
  - rewrite apply_writes_insert. destruct (stage_spec name o (vs n) p) as [_ <-]. by eapply IH.
  - destruct (scan_records expires_at rg (vs n) p) as [l p1] eqn:E1.
    pose proof (prepare_extends _ _ _ _ _ _ E) as [_ Hsub].
    apply scan_records_spec in E1 as (_ & Hw & Hin & Hl).
    rewrite <-(raw_scan_view rg), <-(Hl b).
    { rewrite <-Hw. by eapply IH. }
    apply Hsub, list_elem_of_In in Hin. unfold scans_valid in Hs.
    rewrite forallb_forall in Hs. apply Hs in Hin. by apply bool_decide_eq_true in Hin.
Qed.

Lemma commit_spec p t b b' :
  commit p t b = Some b' →
  in_time p t = true ∧ reads_valid p b = true ∧ scans_valid p b = true
  ∧ b' = apply_writes p.(Prepared.writes) b.
Proof.
  unfold commit. destruct (in_time p t), (reads_valid p b), (scans_valid p b); naive_solver.
Qed.

Lemma apply_no_writes b : apply_writes ∅ b = b.
Proof. apply map_eq. intros k. by rewrite lookup_apply_writes, lookup_empty. Qed.

Lemma prepare_commit {A} (c : prog V A) vs at_ r p t b b' :
  prepare expires_at c vs 0 (Prepared.new at_) = (r, p) → commit p t b = Some b' →
  direct c b = (r, b').
Proof.
  intros E (_ & Hr & Hs & ->)%commit_spec.
  rewrite <-(prepare_direct _ _ _ _ _ _ _ E Hr Hs). simpl. by rewrite apply_no_writes.
Qed.

Lemma prepared_attempts_serial {A} fuel (f : nat → prog V A) at_ env i a b' :
  prepared_attempts expires_at fuel f at_ env i = (Ok a, Some b') →
  ∃ j, (i ≤ j < i + fuel)%nat ∧ direct (f j) (env j).(commit_base) = (Ok a, b').
Proof.
  revert i. induction fuel as [|fuel IH]; intros i; cbn [prepared_attempts]; [done|].
  destruct (prepare _ _ _ _ _) as [[a'|e] p] eqn:E; [|done].
  destruct (commit _ _ _) as [b1|] eqn:Ec.
  - intros [= <- <-]. exists i. split; [lia|]. by eapply prepare_commit.
  - intros (j & ? & ?)%IH. exists j. split; [lia|done].
Qed.

Lemma prepared_attempts_outcome {A} fuel (f : nat → prog V A) at_ env i :
  let '(r, o) := prepared_attempts expires_at fuel f at_ env i in
  match r with Ok _ => is_Some o | Err _ => o = None end.
Proof.
  revert i. induction fuel as [|fuel IH]; intros i; cbn [prepared_attempts]; [done|].
  destruct (prepare _ _ _ _ _) as [[a'|e] p]; [|done].
  destruct (commit _ _ _); [done|]. apply IH.
Qed.

(** *** Expiry

    The committed records the callback was shown: those its point reads found
    in the store, and those its scans fetched. *)
Fixpoint observed {A} (c : prog V A) (vs : nat → gmap string V) (n : nat) (p : Prepared.t V) :
    list V :=
  match c with
  | Done _ => []
  | RawGet name k =>
      let '(o, p') := raw_get expires_at name (vs n) p in
      match p.(Prepared.writes) !! name, o with
      | None, Some v => [v]
      | _, _ => []
      end ++ observed (k o) vs (S n) p'
  | RawPut name o k => observed k vs (S n) (stage name o (vs n) p)
  | RawScan r k =>
      let '(l, p') := scan_records expires_at r (vs n) p in
      (raw_scan (Range.widen r (size p.(Prepared.writes))) (vs n)).*2
      ++ observed (k l) vs (S n) p'
  end.

(** The deadline of [p] covers the expiry of [v]. *)
Definition covered p (v : V) : Prop :=
  ∀ e, expires_at v = Some e → p.(Prepared.started_at) < e →
       ∃ d, p.(Prepared.deadline) = Some d ∧ d ≤ e.
(** [q] has the start of [p] and covers what [p] covers. *)
Definition later p q : Prop :=
  q.(Prepared.started_at) = p.(Prepared.started_at) ∧ ∀ v, covered p v → covered q v.
(** Every point read that no staged write hides is covered. *)
Definition reads_covered p : Prop :=
  ∀ name v, p.(Prepared.reads) !! name = Some (Some v) →
            p.(Prepared.writes) !! name = None → covered p v.

#[local] Instance later_refl : Reflexive later.
Proof. by intros p. Qed.
#[local] Instance later_trans : Transitive later.
Proof. intros p q r [E1 H1] [E2 H2]. split; [congruence|auto]. Qed.

Lemma covered_same p q v :
  q.(Prepared.started_at) = p.(Prepared.started_at) →
  q.(Prepared.deadline) = p.(Prepared.deadline) → covered p v → covered q v.
Proof. unfold covered. by intros -> ->. Qed.

Lemma track_expiry_covers p v :
  later p (track_expiry expires_at p v) ∧ covered (track_expiry expires_at p v) v.
Proof.
  unfold later, covered, track_expiry. destruct (expires_at v) as [e|] eqn:E; [|done].
  destruct (Z.ltb_spec (Prepared.started_at p) e) as [Hlt|Hge]; simpl.
  - split; [split; [done|]|]; intros; simplify_eq.
    + destruct (H e0) as (d & -> & ?); [done|done|]. eexists. split; [done|]. simpl. lia.
    + eexists. split; [done|]. lia.
  - split; [done|]. intros. simplify_eq. lia.
Qed.

Lemma track_all_covers (l : list (string * V)) p :
  let q := foldl (λ p kv, track_expiry expires_at p kv.2) p l in
  later p q ∧ ∀ v, v ∈ l.*2 → covered q v.
Proof.
  revert p. induction l as [|kv l IH]; intros p; simpl; [split; [done|set_solver]|].
  destruct (track_expiry_covers p kv.2) as [L C], (IH (track_expiry expires_at p kv.2)) as [L' C'].
  split; [by etrans|]. intros v [->|Hv]%elem_of_cons; [|by apply C']. by apply L', C.
Qed.

Lemma raw_get_covers name b p o q :
  reads_covered p → raw_get expires_at name b p = (o, q) →
  later p q ∧ reads_covered q ∧
  ∀ v, p.(Prepared.writes) !! name = None → o = Some v → covered q v.
Proof.
  intros Hp. unfold raw_get. destruct (Prepared.writes p !! name) eqn:Ew.
  { intros [= <- <-]. done. }
  destruct (Prepared.reads p !! name) as [o'|] eqn:Er.
  { intros [= <- <-]. split_and!; [done|done|]. intros v _ ->. by eapply Hp. }
  intros [= <- <-]. destruct (b !! name) as [v|] eqn:Eb.
  - destruct (track_expiry_covers p v) as [L C], (track_expiry_same p v) as (Hr & Hw & _).
    assert (∀ w, covered (track_expiry expires_at p v) w →
            covered (add_read (track_expiry expires_at p v) name (Some v)) w) as Hadd
      by (intros w; by apply covered_same).
    split_and!.
    + split; [apply L|]. intros w Hw'. apply Hadd, L, Hw'.
    + intros k w. simpl. rewrite Hr, Hw. intros [[_ [= <-]]|[_ Hk]]%lookup_insert_Some Hn.
      * by apply Hadd.
      * apply Hadd, L. by eapply Hp.
    + intros w _ [= <-]. by apply Hadd.
  - split_and!; [done| |done]. intros k w. simpl.
    intros [[_ [=]]|[_ Hk]]%lookup_insert_Some Hn.
    eapply covered_same; [done|done|]. by eapply Hp.
Qed.

Lemma stage_covers name o b p :
  reads_covered p → later p (stage name o b p) ∧ reads_covered (stage name o b p).
Proof.
  intros Hp. unfold stage. destruct (Prepared.reads p !! name) eqn:Er; (split; [done|]);
    intros k v; simpl; intros Hk [Hw Hne]%lookup_insert_None;
    (eapply covered_same; [done|done|]).
  - by eapply Hp.
  - apply lookup_insert_Some in Hk as [[? _]|[_ Hk]]; [done|]. by eapply Hp.
Qed.

Lemma scan_records_covers r b p l q :
  reads_covered p → scan_records expires_at r b p = (l, q) →
  later p q ∧ reads_covered q ∧
  ∀ v, v ∈ (raw_scan (Range.widen r (size p.(Prepared.writes))) b).*2 → covered q v.
Proof.
  intros Hp. unfold scan_records. intros [= <- <-].
  set (recs := raw_scan _ b).
  destruct (track_all_covers recs p) as [L C], (track_all_same recs p) as (Hr & Hw & _).
  split_and!; [exact L| |exact C].
  intros k v. simpl. rewrite Hr, Hw. intros Hk Hn. apply L. by eapply Hp.
Qed.

Lemma prepare_covers {A} (c : prog V A) vs n p r q :
  reads_covered p → prepare expires_at c vs n p = (r, q) →
  later p q ∧ ∀ v, v ∈ observed c vs n p → covered q v.
Proof.
  revert n p. induction c as [r'|name k IH|name o k IH|rg k IH]; intros n p Hp;
    cbn [prepare observed].
  - intros [= _ <-]. split; [done|set_solver].
  - destruct (raw_get expires_at name (vs n) p) as [o p1] eqn:E.
    apply raw_get_covers in E as (L & Hp1 & C); [|done].
    intros [L' C']%IH; [|done]. split; [by etrans|]. intros v [Hv|Hv]%elem_of_app; [|auto].
    apply L'. destruct (Prepared.writes p !! name) eqn:Ew; [set_solver|].
    destruct o as [w|]; [|set_solver]. apply list_elem_of_singleton in Hv as ->. auto.
  - destruct (stage_covers name o (vs n) p Hp) as [L Hp1].
    intros [L' C']%IH; [|done]. split; [by etrans|done].
  - destruct (scan_records expires_at rg (vs n) p) as [l p1] eqn:E.
    apply scan_records_covers in E as (L & Hp1 & C); [|done].
    intros [L' C']%IH; [|done]. split; [by etrans|]. intros v [Hv|Hv]%elem_of_app; [|auto].
    by apply L', C.
Qed.

(** *** Progress *)

Lemma raw_get_remembers name b p o q :
  (∀ k o', p.(Prepared.reads) !! k = Some o' → b !! k = o') →
  raw_get expires_at name b p = (o, q) →
  ∀ k o', q.(Prepared.reads) !! k = Some o' → b !! k = o'.
Proof.
  intros Hp. unfold raw_get. destruct (Prepared.writes p !! name); [by intros [= <- <-]|].
  destruct (Prepared.reads p !! name); [by intros [= <- <-]|].
  intros [= <- <-] k o'. destruct (b !! name) as [v|] eqn:Eb; simpl;
    [destruct (track_expiry_same p v) as (-> & _ & _)|];
    intros [[<- <-]|[_ Hk]]%lookup_insert_Some; auto.
Qed.

(** What a preparation remembers when no writer commits while it runs. *)
Definition faithful b p : Prop :=
  (∀ k o, p.(Prepared.reads) !! k = Some o → b !! k = o)
  ∧ ∀ s, s ∈ p.(Prepared.scans) → raw_scan s.1 b = s.2.

Lemma prepare_faithful {A} (c : prog V A) vs b n p r q :
  (∀ i, vs i = b) → faithful b p → prepare expires_at c vs n p = (r, q) → faithful b q.
Proof.
  intros Hvs. revert n p. induction c as [r'|name k IH|name o k IH|rg k IH];
    intros n p Hp; cbn [prepare]; rewrite ?Hvs.
  - by intros [= _ <-].
  - destruct (raw_get expires_at name b p) as [o p1] eqn:E. intros E2.
    eapply IH, E2. split; [by eapply raw_get_remembers, E; apply Hp|].
    unfold raw_get in E. repeat case_match; simplify_eq/=; try apply Hp.
    destruct (track_expiry_same p v) as (_ & _ & ->). apply Hp.
  - intros E2. eapply IH, E2. unfold stage.
    destruct (Prepared.reads p !! name) eqn:Er; [apply Hp|].
    split; simpl; [|apply Hp]. intros k' o' [[<- <-]|[_ Hk]]%lookup_insert_Some; [done|].
    by apply Hp.
  - destruct (scan_records expires_at rg b p) as [l p1] eqn:E. intros E2. eapply IH, E2.
    unfold scan_records in E. injection E as <- <-.
    destruct (track_all_same (raw_scan (Range.widen rg (size (Prepared.writes p))) b) p)
      as (Hr & Hw & Hs).
    split; simpl; rewrite ?Hr, ?Hs; [apply Hp|].
    intros s [Hin| ->%list_elem_of_singleton]%elem_of_app; [by apply Hp|done].
Qed.

Lemma faithful_commits b p t :
  faithful b p → in_time p t = true →
  commit p t b = Some (apply_writes p.(Prepared.writes) b).
Proof.
  intros [Hr Hs] Ht. unfold commit. rewrite Ht.
  assert (reads_valid p b = true) as ->.
  { apply bool_decide_eq_true. intros k o Hk. by apply Hr. }
  assert (scans_valid p b = true) as ->; [|done].
  apply forallb_forall. intros s Hin%list_elem_of_In. by apply bool_decide_eq_true, Hs.
Qed.
End serializable.


Section progress.
Context {V : Type} `{EqDecision V} (expires_at : V → option Z) (t : Z).
Hypothesis Ht : t < u64_max.

(** [v] had expired when the attempt began, or has not expired at [t]. *)
Definition alive (started : Z) (v : V) : Prop :=
  ∀ e, expires_at v = Some e → started < e → t < e.

Lemma track_expiry_in_time p v :
  in_time p t = true → alive p.(Prepared.started_at) v →
  in_time (track_expiry expires_at p v) t = true
  ∧ (track_expiry expires_at p v).(Prepared.started_at) = p.(Prepared.started_at).
Proof.
  unfold alive, in_time, track_expiry. intros Hp Ha. destruct (expires_at v) as [e|]; [|done].
  destruct (Z.ltb_spec (Prepared.started_at p) e); [|done]. simpl. split; [|done].
  specialize (Ha e eq_refl). destruct (Prepared.deadline p); simpl in *; lia.
Qed.

Lemma track_all_in_time (l : list (string * V)) p :
  in_time p t = true → (∀ v, v ∈ l.*2 → alive p.(Prepared.started_at) v) →
  let q := foldl (λ p kv, track_expiry expires_at p kv.2) p l in
  in_time q t = true ∧ q.(Prepared.started_at) = p.(Prepared.started_at).
Proof.
  revert p. induction l as [|kv l IH]; intros p Hp Hl; simpl in *; [done|].
  destruct (track_expiry_in_time p kv.2) as [Hq Es]; [done|set_solver|].
  rewrite <-Es. apply IH; [done|]. rewrite Es. set_solver.
Qed.

Lemma prepare_in_time {A} (c : prog V A) vs n p r q :
  in_time p t = true →
  (∀ v, v ∈ observed expires_at c vs n p → alive p.(Prepared.started_at) v) →
  prepare expires_at c vs n p = (r, q) → in_time q t = true.
Proof.
  revert n p. induction c as [r'|name k IH|name o k IH|rg k IH]; intros n p Hp Hv;
    cbn [prepare observed] in *.
  - by intros [= _ <-].
  - destruct (raw_get expires_at name (vs n) p) as [o p1] eqn:E. intros E2.
    assert (in_time p1 t = true ∧ p1.(Prepared.started_at) = p.(Prepared.started_at))
      as [Hp1 Es].
    { unfold raw_get in E. destruct (Prepared.writes p !! name); [by simplify_eq|].
      destruct (Prepared.reads p !! name); [by simplify_eq|].
      injection E as <- <-. destruct (vs n !! name) as [v|]; [|done].
      apply (track_expiry_in_time p v); [done|]. apply Hv. set_solver. }
    eapply IH, E2; [done|]. rewrite Es. intros v Hin. apply Hv. set_solver.
  - intros E2. eapply IH, E2; unfold stage in *; by destruct (Prepared.reads p !! name).
  - destruct (scan_records expires_at rg (vs n) p) as [l p1] eqn:E. intros E2.
    assert (in_time p1 t = true ∧ p1.(Prepared.started_at) = p.(Prepared.started_at))
      as [Hp1 Es].
    { unfold scan_records in E. injection E as <- <-.
      apply (track_all_in_time (raw_scan (Range.widen rg (size (Prepared.writes p))) (vs n)) p);
        [done|]. intros v Hin. apply Hv. set_solver. }
    eapply IH, E2; [done|]. rewrite Es. intros v Hin. apply Hv. set_solver.
Qed.
End progress.

(** ** Properties *)

(** C13: serializability.  When [prepared_write] succeeds, one of its at most
    four attempts returned exactly what the callback returns when it runs alone
    in an exclusive write transaction on the store it committed to, and it left
    that store in exactly the state the exclusive run leaves; when it fails, it
    changed nothing.  The versions of the store its reads met, and how they
    changed between reads, do not matter. *)
Theorem prepared_write_serializable {V A : Type} `{EqDecision V} (expires_at : V → option Z)
    (f : nat → prog V A) (at_ : nat → Z) (env : nat → attempt) :
  match prepared_write expires_at f at_ env with
  | (Ok a, Some b') => ∃ i, (i < 4)%nat ∧ direct (f i) (env i).(commit_base) = (Ok a, b')
  | (Ok _, None) => False
  | (Err _, o) => o = None
  end.
Proof.
  pose proof (prepared_attempts_outcome expires_at 4 f at_ env 0) as Ho.
  destruct (prepared_write expires_at f at_ env) as [[a|e] o] eqn:E; unfold prepared_write in E;
    rewrite E in Ho; simpl in Ho; [destruct Ho as [b' ->]|done].
  apply prepared_attempts_serial in E as (j & ? & ?). exists j. split; [lia|done].
Qed.

(** Authority that expires while a transaction is being prepared is not
    used.  If an attempt started at [at_] commits at time [t], then every
    committed record its callback was shown that had not expired at [at_] has
    not expired at [t] either. *)
Theorem commit_before_expiry {V A : Type} `{EqDecision V} (expires_at : V → option Z)
    (c : prog V A) vs at_ r p t b b' v e :
  prepare expires_at c vs 0 (Prepared.new at_) = (r, p) →
  commit p t b = Some b' →
  v ∈ observed expires_at c vs 0 (Prepared.new at_) →
  expires_at v = Some e → at_ < e → t < e.
Proof.
  intros E (Hin & _)%commit_spec Hv He Hlt.
  apply (prepare_covers expires_at) in E as [[Es _] C]; [|by intros ? ?; simpl; rewrite lookup_empty].
  destruct (C v Hv e He) as (d & Hd & Hle); [by rewrite Es|].
  unfold in_time in Hin. rewrite Hd in Hin. lia.
Qed.

(** Progress.  When no other writer commits during the first attempt (every
    read and the commit meet the store [b]) and no record it was shown expires
    before the commit, a callback that succeeds alone on [b] commits at that
    attempt with the same outcome. *)
Theorem prepared_write_progress {V A : Type} `{EqDecision V} (expires_at : V → option Z)
    (f : nat → prog V A) (at_ : nat → Z) (env : nat → attempt) b a b' :
  (∀ i, (env 0%nat).(versions) i = b) → (env 0%nat).(commit_base) = b →
  (env 0%nat).(commit_at) < u64_max →
  (∀ v, v ∈ observed expires_at (f 0%nat) (env 0%nat).(versions) 0 (Prepared.new (at_ 0%nat)) →
        alive expires_at (env 0%nat).(commit_at) (at_ 0%nat) v) →
  direct (f 0%nat) b = (Ok a, b') →
  prepared_write expires_at f at_ env = (Ok a, Some b').
Proof.
  intros Hvs Hb Ht Hv Hd. unfold prepared_write. cbn [prepared_attempts].
  destruct (prepare _ _ _ _ _) as [r p] eqn:E.
  assert (faithful b p) as Hf.
  { eapply prepare_faithful; [done| |exact E]. split; [intros ? ?; simpl; by rewrite lookup_empty|by intros ? ?%elem_of_nil]. }
  assert (in_time p (env 0%nat).(commit_at) = true) as Hin.
  { eapply prepare_in_time; [done| |exact Hv|exact E]. done. }
  pose proof (faithful_commits _ _ _ Hf Hin) as Hc.
  pose proof (prepare_commit expires_at _ _ _ _ _ _ _ _ E Hc) as Hd'.
  rewrite Hd in Hd'. injection Hd' as <- ->. rewrite Hb, Hc. done.
Qed.

(** *** A concrete transaction: bounded scan after a staged deletion *)

Module Example_.
(** Records are (expiry, payload). *)
Definition exp (v : Z * Z) : option Z := Some v.1.
Definition rng : Range.t := Range.mk "a" "z" 1 false.
(** Delete [a], then return the payload of the first record left. *)
Definition body : prog (Z * Z) Z :=
  RawPut "a" None (RawScan rng (λ l : list (string * (Z * Z)),
    match l with
    | (_, v) :: _ => RawPut "d" (Some (900, v.2)) (Done (Ok v.2))
    | [] => Done (Err (Error.missing "empty"))
    end)).
Definition db0 : gmap string (Z * Z) := {[ "a" := (500, 1); "b" := (600, 2); "c" := (700, 3) ]}.
Definition db1 : gmap string (Z * Z) := {[ "a" := (500, 1); "b" := (600, 9); "c" := (700, 3) ]}.
(** The first attempt conflicts (another writer changes [b]); the second
    commits. *)
Definition env (i : nat) : attempt :=
  match i with
  | O => Attempt (λ _, db0) 120 db1
  | _ => Attempt (λ _, db1) 130 db1
  end.
End Example_.

Example prepared_write_runs :
  prepared_write Example_.exp (λ _, Example_.body) (λ i, 100 + Z.of_nat i) Example_.env
  = (Ok 9, Some {[ "b" := (600, 9); "c" := (700, 3); "d" := (900, 9) ]}).
Proof. vm_compute. reflexivity. Qed.

Lemma commit_before_expiry_witness : (130 < 600)%Z.
Proof.
  eapply (commit_before_expiry Example_.exp Example_.body (λ _, Example_.db1) 101 _ _ 130
            Example_.db1 _ (600, 9) 600).
  - vm_compute. reflexivity.
  - vm_compute. reflexivity.
  - vm_compute. do 1 apply list_elem_of_further. apply list_elem_of_here.
  - reflexivity.
  - lia.
Defined.

Lemma prepared_write_progress_witness :
  prepared_write Example_.exp (λ _, Example_.body) (λ _, 100) (λ _, Attempt (λ _, Example_.db1) 130 Example_.db1)
  = (Ok 9, Some {[ "b" := (600, 9); "c" := (700, 3); "d" := (900, 9) ]}).
Proof.
  apply (prepared_write_progress Example_.exp (λ _, Example_.body) (λ _, 100)
           (λ _, Attempt (λ _, Example_.db1) 130 Example_.db1) Example_.db1).
  - reflexivity.
  - reflexivity.
  - vm_compute. reflexivity.
  - intros v Hv. vm_compute in Hv.
    apply elem_of_cons in Hv as [->|[->|[]%elem_of_nil]%elem_of_cons]; intros e [= <-]; simpl; lia.
  - vm_compute. reflexivity.
Defined.
