(* ===== verification/Env.v ===== *)
(** * The environment of the protocol code

    What the modelled code takes from outside the repository: the SHA-256
    digest, random values, the [url], [base64], [serde_json] and [jsonwebtoken]
    crates, and the server's configuration.  They are the fields of one class,
    so every definition is stated for all of them; a theorem that needs a
    documented fact about one of them (a collision-free digest, a fresh random
    value) says so in a named hypothesis.  Signing and JWE encryption are one
    field each: the code hands their result on without looking into it. *)

From stdpp Require Import pretty.
From S2P Require Import Prelude Json Model Store.

#[local] Set Warnings "-clear-no-such-hyp".

(** [url::Url], by the components its accessors return. *)
Module Url.
Record t := mk {
  scheme : string;
  username : string;
  password : option string;
  host_str : option string;
  port : option Z;
  path : string;
  query : option string;
  fragment : option string;
}.
#[global] Instance eq_dec : EqDecision t.
Proof. solve_decision. Defined.

(** [set_port(None)], [set_query(None)] and [set_fragment(None)]. *)
Definition clear_port (u : t) : t :=
  mk u.(scheme) u.(username) u.(password) u.(host_str) None u.(path) u.(query) u.(fragment).
Definition clear_query (u : t) : t :=
  mk u.(scheme) u.(username) u.(password) u.(host_str) u.(port) u.(path) None u.(fragment).
Definition clear_fragment (u : t) : t :=
  mk u.(scheme) u.(username) u.(password) u.(host_str) u.(port) u.(path) u.(query) None.
End Url.

(** [jsonwebtoken::Algorithm], [Header] and [Validation]. *)
Inductive Algorithm := RS256 | ES256 | EdDSA | OtherAlgorithm (name : string).
#[global] Instance algorithm_eq_dec : EqDecision Algorithm.
Proof. solve_decision. Defined.

Module JwtHeader.
Record t := mk {
  typ : option string;
  alg : Algorithm;
  kid : option string;
  jku : option string;
  jwk : option json;
  x5u : option string;
  crit : option (list string);
}.
End JwtHeader.

Module Validation.
Record t := mk {
  algorithm : Algorithm;
  issuer : option string;
  audience : option string;
  required_spec_claims : list string;
  validate_exp : bool;
  validate_aud : bool;
  validate_nbf : bool;
  leeway : Z;
}.
End Validation.

(** The settings of [Config] the modelled code reads.  Settings whose content
    the modelled code only digests are kept as their JSON text. *)
Module DirectoryConfig.
Record t := mk { url : string; user_base : string; id_attribute : string; text : string }.
End DirectoryConfig.

Module TrustConfig.
Record t := mk {
  provider : option string;
  pem_file : option string;
  jwks_file : option string;
  algorithm : option string;
  kid : option string;
  service_account_file : option string;
  expected_identity : option string;
  customer_id : option string;
  allowed_key_trust_levels : list string;
}.
End TrustConfig.

(** [radius_eap_types::Config]: its text and the field the conversation reads. *)
Module EapProfile.
Record t := mk { text : string; fragment_size : nat }.
End EapProfile.

Module Config.
Record t := mk {
  issuer : string;
  access_token_ttl : Z;
  refresh_token_ttl : Z;
  session_ttl : Z;
  password_history : Z;
  reviewed_membership_groups : gset string;
  pam_approvers : gmap string (gset string);
  directories : gmap string DirectoryConfig.t;
  workspace_directories : gmap string string;
  entra_directories : gmap string string;
  (** The EAP-TLS profile of each RADIUS listener that has one. *)
  eap_profiles : gmap string EapProfile.t;
  device_trust : option TrustConfig.t;
}.
End Config.

(** [password_hash::PasswordHash], as far as the code looks into it. *)
Module Phc.
Record t := mk {
  algorithm : string;
  version : option Z;
  m : option Z;
  t_ : option Z;
  p : option Z;
  has_hash : bool;
  has_salt : bool;
}.
End Phc.

Class Env := {
  config : Config.t;
  (** [crypto::digest]: unpadded base64url of SHA-256. *)
  digest : string → string;
  (** The n-th UUID and the n-th 32 random bytes, base64url. *)
  uuid : nat → string;
  random_bytes : nat → string;
  (** The n-th ten characters [crypto::user_code] draws from its alphabet. *)
  random_user_code : nat → string;
  (** [Url::parse] and [Url::as_str]. *)
  url_parse : string → option Url.t;
  url_str : Url.t → string;
  (** [query_pairs], [query_pairs_mut().extend_pairs], [set_fragment(Some(_))],
      the form serializer, and [origin().ascii_serialization()]. *)
  url_query_pairs : Url.t → list (string * string);
  url_extend : Url.t → list (string * string) → Url.t;
  url_set_fragment : Url.t → string → Url.t;
  form_encode : list (string * string) → string;
  url_origin : Url.t → string;
  (** [URL_SAFE_NO_PAD.decode] and [encode]. *)
  b64url_decode : string → option string;
  b64url_encode : string → string;
  (** [serde_json::from_slice] and [to_string] of a [Value]. *)
  json_parse : string → option json;
  json_string : json → string;
  (** [sort_all_objects] and then the text of a value; a stored record read as a
      value; and a field of the configuration as a value. *)
  canonical_string : json → string;
  row_json : row → json;
  config_json : string → json;
  (** [serde_json::to_string] of the structures whose digest the code takes. *)
  authorization_string : Authorization.t → string;
  client_string : Client.t → string;
  trust_string : MachineTrust.t → string;
  device_status_string : DeviceStatus → string;
  auth_method_string : option ClientAuthMethod → string;
  source_string : Source.t → string;
  settings_string : ProviderSettings.t → string;
  attributes_string : gmap string json → string;
  (** [serde_json::from_str::<ClaimsRequest>] and [from_value::<PublicJwk>]. *)
  claims_request_parse : string → option ClaimsRequest.t;
  jwk_of_json : json → option PublicJwk.t;
  (** [jsonwebtoken::decode_header], whether [DecodingKey::from_jwk] accepts
      the key, and [jsonwebtoken::decode] at a given time. *)
  decode_header : string → option JwtHeader.t;
  decoding_key_ok : PublicJwk.t → bool;
  jwt_decode : Z → string → PublicJwk.t → Validation.t → option json;
  (** [Core::sign_jwt], [EncryptionKey::encrypt], and the [at_hash] digest of an
      access token under a signing algorithm. *)
  sign_jwt : SigningKey.t → json → string → Result string;
  encrypt : EncryptionKey.t → string → Result string;
  at_hash : string → string → string;
  (** What [eap::Config::material] digests of a profile and whether the verifier
      of [device_trust::provider_ready] loads: both read key files. *)
  profile_fingerprint : string → Result string;
  verifier_loads : TrustConfig.t → bool;
  (** Password hashing: [PasswordHash::new], [Argon2::verify_password],
      [pbkdf2::verify] (rounds, salt, password, expected), the standard base64
      decoder, and the hash under the n-th random salt. *)
  phc_parse : string → option Phc.t;
  argon_verify : string → string → bool;
  pbkdf2_verify : Z → string → string → string → bool;
  b64_decode : string → option string;
  argon_hash : nat → string → Result string;
  (** [argon2::Params::default()]: the memory, time and parallelism costs. *)
  argon_params : Z * Z * Z;
  (** [core::dummy_hash]: the hash an unknown account is checked against. *)
  dummy_hash : string;
  (** [totp_rs]: whether the builder accepts, the code at a time, the enrollment
      address, and the n-th random secret. *)
  totp_builds : string → string → TotpSettings.t → bool;
  totp_generate : string → TotpSettings.t → Z → string;
  totp_url : string → string → TotpSettings.t → Result string;
  random_totp_secret : nat → string;
  (** [serde_json::to_string] of RADIUS attributes, and their cryptography:
      HMAC-MD5 of a message under a key, and MD5. *)
  radius_attributes_string : list (Z * list Z) → string;
  hmac_md5 : list Z → list Z → list Z;
  md5 : list Z → list Z;
  (** The n-th random byte and 16-bit number. *)
  random_u8 : nat → Z;
  random_u16 : nat → Z;
}.

(** ** Random values *)

Section random.
Context {E : Env}.

Definition draw : tx nat := λ s,
  (Ok s.(St.rng), St.mk s.(St.db) s.(St.clock) (S s.(St.rng)) s.(St.ctx)).

(** [crypto::id] and [crypto::random_token]. *)
Definition id : tx string := n ← draw; mret (uuid n).
Definition random_token (prefix : string) : tx string :=
  n ← draw; mret (prefix +:+ random_bytes n).

(** [crypto::user_code]. *)
Definition user_code : tx string :=
  n ← draw;
  let raw := random_user_code n in
  mret (String.substring 0 5 raw +:+ "-" +:+ String.substring 5 (String.length raw - 5) raw).

Lemma draw_ok s n s' :
  draw s = (Ok n, s') ↔
  n = s.(St.rng) ∧ s' = St.mk s.(St.db) s.(St.clock) (S s.(St.rng)) s.(St.ctx).
Proof. unfold draw. naive_solver. Qed.

#[global] Instance touches_draw bs : Touches bs draw.
Proof. intros s. simpl. split_and!; [done|done|lia|done]. Qed.
#[global] Instance touches_id bs : Touches bs id.
Proof. apply touches_bind; [apply _|]. intros. apply pure_touches, _. Qed.
#[global] Instance touches_random_token bs p : Touches bs (random_token p).
Proof. apply touches_bind; [apply _|]. intros. apply pure_touches, _. Qed.
#[global] Instance touches_user_code bs : Touches bs user_code.
Proof. apply touches_bind; [apply _|]. intros. apply pure_touches, _. Qed.

(** Drawing leaves the records and the clock as they were. *)
Lemma id_ok s i s' :
  id s = (Ok i, s') →
  i = uuid s.(St.rng) ∧ s' = St.mk s.(St.db) s.(St.clock) (S s.(St.rng)) s.(St.ctx).
Proof. unfold id. rewrite bind_ok. intros (n & s1 & [-> ->]%draw_ok & [-> ->]%ret_ok). done. Qed.
Lemma random_token_ok p s i s' :
  random_token p s = (Ok i, s') →
  i = p +:+ random_bytes s.(St.rng)
  ∧ s' = St.mk s.(St.db) s.(St.clock) (S s.(St.rng)) s.(St.ctx).
Proof. unfold random_token. rewrite bind_ok. intros (n & s1 & [-> ->]%draw_ok & [-> ->]%ret_ok). done. Qed.
End random.

#[export] Hint Resolve touches_draw touches_id touches_random_token touches_user_code : tx.

(** ** A concrete environment

    An instance on which concrete runs of the model are evaluated: a readable
    digest, counted random values, URLs of the form [scheme://host], key [k] signs
    the token whose text is [k] followed by a dot and the claims it carries. *)
Module Demo.
Definition config : Config.t :=
  Config.mk "https://id.test" 300 86400 3600 3 ∅ {["vault" := {["carol"]}]} ∅ ∅ ∅
    {["wifi" := EapProfile.mk "profile" 512]} None.

Definition url_parse (s : string) : option Url.t :=
  match Str.strip_prefix "https://" s with
  | Some host => Some (Url.mk "https" "" None (Some host) None "" None None)
  | None => None
  end.

(** The digest of a text of 43 characters has 43 characters, as a PKCE challenge
    must. *)
Definition digest_text (s : string) : string :=
  match s with
  | String _ r => if String.length s =? 43 then String "#" r else "#" +:+ s
  | EmptyString => "#"
  end%nat.

Definition form_text (l : list (string * string)) : string :=
  Str.join "&" ((λ kv : string * string, kv.1 +:+ "=" +:+ kv.2) <$> l).

(** Ten characters of the alphabet of user codes, another one for each draw. *)
Definition user_code_text (n : nat) : string :=
  String.substring (n mod 29) 1 "BCDFGHJKLMNPQRSTVWXYZ23456789" +:+ "CDFGHJKLM".

(** A digest of 32 characters: base64url of a shorter hash. *)
Definition digest_fixed (s : string) : string :=
  String.substring 0 32 ("#" +:+ s +:+ "________________________________").

(** A text of a value that shows what it holds, and of some records. *)
Fixpoint canonical_text (v : json) : string :=
  match v with
  | JNull => "null"
  | JBool b => if b then "true" else "false"
  | JNum n => pretty n
  | JStr s => s
  | JArr l => "[" +:+ Str.join "," (canonical_text <$> l) +:+ "]"
  | JObj l => "{" +:+ Str.join "," ((λ kv : string * json, kv.1 +:+ ":" +:+ canonical_text kv.2) <$> l) +:+ "}"
  end.
Definition row_text (w : row) : json :=
  match w with
  | RUser u => Json.obj [("id", JStr u.(User.id)); ("epoch", JNum u.(User.epoch)); ("enabled", JBool u.(User.enabled))]
  | RString s => JStr s
  | _ => JNull
  end.

(** The environment, given a digest and what the JSON and JWT libraries answer. *)
Definition make (digest : string → string) (parse : string → option json) (jwk : json → option PublicJwk.t)
    (header : string → option JwtHeader.t)
    (decode : Z → string → PublicJwk.t → Validation.t → option json) : Env := {|
  Env.config := config;
  Env.digest := digest;
  uuid n := "id-" +:+ pretty (Z.of_nat n);
  random_bytes n := "r" +:+ pretty (Z.of_nat n);
  random_user_code := user_code_text;
  Env.url_parse := url_parse;
  url_str u := u.(Url.scheme) +:+ "://" +:+ default "" u.(Url.host_str)
               +:+ default "" (String.append "?" <$> u.(Url.query))
               +:+ default "" (String.append "#" <$> u.(Url.fragment));
  url_query_pairs u := [];
  url_extend u l := Url.mk u.(Url.scheme) u.(Url.username) u.(Url.password) u.(Url.host_str)
    u.(Url.port) u.(Url.path) (Some (form_text l)) u.(Url.fragment);
  url_set_fragment u f := Url.mk u.(Url.scheme) u.(Url.username) u.(Url.password)
    u.(Url.host_str) u.(Url.port) u.(Url.path) u.(Url.query) (Some f);
  form_encode := form_text;
  url_origin u := u.(Url.scheme) +:+ "://" +:+ default "" u.(Url.host_str);
  b64url_decode s := Some (String.substring 0 32 s);
  b64url_encode s := s;
  json_parse := parse;
  json_string v := match v with JStr s => s | _ => "" end;
  canonical_string := canonical_text;
  row_json := row_text;
  config_json := JStr;
  authorization_string r := r.(Authorization.client_id) +:+ " " +:+ r.(Authorization.redirect_uri)
                            +:+ " " +:+ r.(Authorization.scope);
  client_string c := c.(Client.id);
  trust_string t := t.(MachineTrust.issuer) +:+ " " +:+ t.(MachineTrust.subject);
  device_status_string d := match d with
                            | Pending => "pending"
                            | Approved i => "approved " +:+ i.(Identity.user_id)
                            | Denied => "denied"
                            end;
  auth_method_string _ := "";
  source_string s := s.(Source.id);
  settings_string _ := "";
  attributes_string _ := "";
  claims_request_parse _ := Some ClaimsRequest.default;
  jwk_of_json := jwk;
  decode_header := header;
  decoding_key_ok _ := true;
  jwt_decode := decode;
  sign_jwt k v typ := Ok (k.(SigningKey.kid) +:+ "." +:+ typ +:+ "."
    +:+ default "" (Json.as_str (Json.index v "jti")) +:+ default "" (Json.as_str (Json.index v "sub")));
  encrypt k s := Ok ("enc." +:+ s);
  at_hash a t := "h." +:+ t;
  profile_fingerprint s := Ok s;
  verifier_loads _ := true;
  phc_parse h := if Str.starts_with h "$argon2id$"
                 then Some (Phc.mk "argon2id" (Some 19) (Some 19456) (Some 2) (Some 1) true true)
                 else None;
  argon_verify p h := String.eqb h ("$argon2id$" +:+ p);
  pbkdf2_verify _ _ _ _ := false;
  b64_decode s := Some s;
  argon_hash n p := Ok ("$argon2id$" +:+ p);
  argon_params := (19456, 2, 1);
  dummy_hash := "$argon2id$";
  totp_builds _ _ _ := true;
  (** The code of a step is the step. *)
  totp_generate secret settings at_ :=
    Str.of_bytes (replicate (6 - String.length (pretty (at_ / settings.(TotpSettings.period)))) "0"%char)
    +:+ pretty (at_ / settings.(TotpSettings.period));
  totp_url secret user settings := Ok ("otpauth://" +:+ user);
  random_totp_secret n := "SECRET" +:+ pretty (Z.of_nat n);
  radius_attributes_string l := Str.join "," ((λ a : Z * list Z, pretty a.1) <$> l);
  hmac_md5 k m := take 16 (k ++ replicate 16 7);
  md5 m := take 16 (m ++ replicate 16 3);
  random_u8 n := Z.of_nat n mod 256;
  random_u16 n := Z.of_nat n mod 65536;
|}.

(** No token verifies. *)
#[local] Instance env : Env :=
  make digest_text (λ s, Some (JStr s)) (λ _, None) (λ _, None) (λ _ _ _ _, None).

(** Every token carries the claims [claims] and is signed by [key]. *)
Definition key : PublicJwk.t :=
  PublicJwk.mk "OKP" "k" "EdDSA" None [] None None (Some "Ed25519")
    (Some "0123456789abcdef0123456789abcdef") None.
Definition signed (claims : json) : Env :=
  make digest_text (λ _, Some (JObj [("jwk", JObj [])])) (λ _, Some key)
    (λ _, Some (JwtHeader.mk (Some "dpop+jwt") EdDSA (Some "k") None None None None))
    (λ _ _ _ _, Some claims).
End Demo.
