(* ===== verification/Provider.v ===== *)
(** * Provider policy (src/src/validation.rs, resource.rs, provider.rs, issuer.rs,
    crypto.rs, exchange.rs)

    The checks on names, resources, redirect URIs and grant types that every
    protocol endpoint shares, the user-code normalisation of the device flow
    and the bilateral trust policy of token exchange. *)

From S2P Require Import Prelude Json Model Store Env.

(** ** Names *)

Definition name_byte (c : Ascii.ascii) : bool :=
  Str.is_ascii_alphanumeric c || bool_decide (c ∈ ["-"; "_"; "."; "@"]%char).

Definition validate_name (name : string) : Result unit :=
  if Str.is_empty name || String.eqb name "." || String.eqb name ".."
     || (64 <? Str.len name) || negb (forallb name_byte (Str.bytes name))
  then Err (Error.bad "Names must be 1–64 ASCII letters, digits, dots, hyphens, underscores or @")
  else Ok ().

Definition validate_display (name : string) : Result unit :=
  if Str.is_empty name || (200 <? Str.len name)
     || existsb (λ c, Str.is_control c.1) (Str.chars name)
  then Err (Error.bad "Display name must be 1–200 bytes without control characters")
  else Ok ().

Definition validate_email (email : string) : Result unit :=
  if (254 <? Str.len email) || negb (Str.contains_byte "@" email)
     || existsb (λ c, Str.is_control c.1 || Str.is_whitespace c.1) (Str.chars email)
  then Err (Error.bad "Invalid email address")
  else Ok ().

(** ** User codes (crypto.rs) *)

(** [to_ascii_uppercase] changes only the bytes of ASCII letters, so it acts on
    the bytes of a UTF-8 string one by one. *)
Definition normalize_code (code : string) : Result string :=
  let normalized :=
    Str.to_ascii_uppercase_byte <$>
      List.filter (λ c, negb (Ascii.eqb c "-"%char) && negb (Ascii.eqb c " "%char)) (Str.bytes code) in
  if negb (Nat.eqb (length normalized) 10) || negb (forallb Str.is_ascii_alphanumeric normalized)
  then Err (Error.bad "Invalid user code")
  else Ok (Str.of_bytes normalized).

(** ** Resources (RFC 8707) *)

Module Resource.
Section resource.
Context {E : Env}.

Definition invalid : Error.t :=
  Error.oauth "invalid_target" "Use one registered resource authorized for this grant".

Definition validate_uri (value : string) : Result unit :=
  uri ← ok_or (url_parse value) invalid;
  if (2048 <? Str.len value) || bool_decide (is_Some uri.(Url.fragment))
     || negb (Str.is_empty uri.(Url.username)) || bool_decide (is_Some uri.(Url.password))
     || negb (String.eqb (url_str uri) value)
  then Err invalid
  else Ok ().

Definition validate (client : Client.t) (resource : option string) (scopes : gset string) :
    Result unit :=
  match resource with
  | None => Ok ()
  | Some resource =>
      _ ← validate_uri resource;
      allowed ← ok_or (client.(Client.settings).(ProviderSettings.resources) !! resource) invalid;
      if bool_decide (scopes ⊆ allowed) then Ok ()
      else Err (Error.oauth "invalid_scope" "Scopes exceed the registered resource policy")
  end.

(** The grant as the call leaves it. *)
Definition bind (client : Client.t) (grant : Grant.t)
    (requested authorized : option string) : Result Grant.t :=
  if bool_decide (is_Some requested) && negb (bool_decide (requested = authorized))
  then Err invalid
  else
    _ ← validate client authorized grant.(Grant.scopes);
    Ok (Grant.set_resource grant authorized).

Definition audience (grant : Grant.t) : string :=
  default grant.(Grant.client_id) grant.(Grant.resource).
End resource.
End Resource.

(** ** Providers *)

Section provider.
Context {E : Env}.

(** [issuer::for_client] with the configured issuer. *)
Definition issuer_for_client (client : Client.t) : string :=
  default config.(Config.issuer) client.(Client.settings).(ProviderSettings.issuer).

(** [format!("{}{path}", issuer.trim_end_matches('/'))]. *)
Definition endpoint (issuer path : string) : string :=
  Str.trim_end_matches "/" issuer +:+ path.

Definition loopback (host : option string) : bool :=
  bool_decide (host = Some "127.0.0.1") || bool_decide (host = Some "[::1]").

Definition redirect_matches (client : Client.t) (value : string) : bool :=
  if existsb (String.eqb value) client.(Client.redirect_uris) then true
  else if negb client.(Client.settings).(ProviderSettings.native) then false
  else
    match url_parse value with
    | None => false
    | Some requested =>
        if negb (String.eqb requested.(Url.scheme) "http")
           || negb (loopback requested.(Url.host_str))
           || negb (Str.is_empty requested.(Url.username))
           || bool_decide (is_Some requested.(Url.password))
           || bool_decide (is_Some requested.(Url.fragment))
        then false
        else
          existsb (λ registered,
            match url_parse registered with
            | None => false
            | Some registered =>
                bool_decide (Url.clear_port registered = Url.clear_port requested)
            end) client.(Client.redirect_uris)
    end.

Definition grant_enabled (client : Client.t) (grant : string) : bool :=
  let allowed := client.(Client.settings).(ProviderSettings.allowed_grants) in
  bool_decide (allowed = ∅) || bool_decide (grant ∈ allowed).

Definition grant_allowed (client : Client.t) (grant : string) : Result unit :=
  if grant_enabled client grant then Ok ()
  else Err (Error.oauth "unauthorized_client" "Grant type is disabled for this client").

Definition secure_url (url : Url.t) : bool :=
  String.eqb url.(Url.scheme) "https" && bool_decide (is_Some url.(Url.host_str))
  || String.eqb url.(Url.scheme) "http"
     && (bool_decide (url.(Url.host_str) = Some "localhost") || loopback url.(Url.host_str)).
End provider.

(** ** Exchange policy *)

Module Exchange.
Definition TOKEN_EXCHANGE : string := "urn:ietf:params:oauth:grant-type:token-exchange".
Definition ACCESS_TOKEN : string := "urn:ietf:params:oauth:token-type:access_token".
Definition AGENT_TOKEN : string := "urn:riauth:params:oauth:token-type:agent".

Definition invalid : Error.t :=
  Error.oauth "invalid_grant" "Exchange proof is invalid, expired or revoked".

Definition check_policy (requester target : Client.t) (policy : ExchangePolicy.t)
    (subject : Grant.t) (scopes : gset string) (delegation : bool) : Result unit :=
  if bool_decide (subject.(Grant.identity) = None) && negb target.(Client.service)
     || negb (bool_decide (requester.(Client.id)
                           ∈ target.(Client.settings).(ProviderSettings.exchange_from)))
     || negb (bool_decide (subject.(Grant.client_id) ∈ policy.(ExchangePolicy.subject_clients)))
     || negb (bool_decide (target.(Client.id) ∈ policy.(ExchangePolicy.target_clients)))
     || (if delegation then negb policy.(ExchangePolicy.allow_delegation)
         else negb policy.(ExchangePolicy.allow_impersonation))
  then Err (Error.oauth "unauthorized_client" "Exchange is outside the bilateral trust policy")
  else if bool_decide ("openid" ∈ scopes) || bool_decide ("bound_key" ∈ scopes)
          || bool_decide ("offline_access" ∈ scopes)
          || negb (bool_decide (scopes ⊆ policy.(ExchangePolicy.scopes)))
          || negb (bool_decide (scopes ⊆ subject.(Grant.scopes)))
          || negb (bool_decide (scopes ⊆ requester.(Client.scopes)))
  then Err (Error.oauth "invalid_scope"
              "Exchange cannot expand scopes or create login/refresh credentials")
  else Ok ().
End Exchange.
