(* ===== verification/Jose.v ===== *)
(** * Pinned JOSE trust and DPoP proofs (src/src/jose.rs, src/src/dpop.rs)

    Validation of pinned public keys, verification of client assertions against
    them, the one-use rule for assertions, and RFC 9449 proofs: their checks,
    their replay record, and how a token endpoint binds a grant to the key of
    the proof. *)

From S2P Require Import Prelude Json Model Store Env Provider.

#[local] Set Warnings "-clear-no-such-hyp".

(** The byte NUL that separates the parts of a digested key. *)
Definition NUL : string := String (Ascii.ascii_of_nat 0) EmptyString.

(** ** Public keys *)

Module Jwk.
Section jwk.
Context {E : Env}.
Implicit Types k : PublicJwk.t.

Definition algorithm k : Result Algorithm :=
  match k.(PublicJwk.kty), k.(PublicJwk.alg), k.(PublicJwk.crv) with
  | "RSA", "RS256", None => Ok RS256
  | "EC", "ES256", Some "P-256" => Ok ES256
  | "OKP", "EdDSA", Some "Ed25519" => Ok EdDSA
  | _, _, _ =>
      Err (Error.bad "Supported public signing keys: RS256, ES256/P-256, EdDSA/Ed25519")
  end.

Definition decoding_key k : Result unit :=
  if decoding_key_ok k then Ok () else Err (Error.bad "Invalid public JWK").

(** [u8::is_ascii_graphic]. *)
Definition is_ascii_graphic (c : Ascii.ascii) : bool := Str.between 33 (Str.code c) 126.

Definition component (o : option string) : Result (list Z) :=
  s ← ok_or o (Error.bad "Missing JWK component");
  bytes ← ok_or (b64url_decode s) (Error.bad "Invalid JWK component");
  if String.eqb (b64url_encode bytes) s then Ok (Str.code <$> Str.bytes bytes)
  else Err (Error.bad "Noncanonical JWK component").

Definition even_or_empty (l : list Z) : bool :=
  match last l with None => true | Some b => Z.land b 1 =? 0 end.
(** [l[0]]; only evaluated on a nonempty list. *)
Definition head_byte (l : list Z) : Z := default 0 (head l).

Definition validate k : Result unit :=
  if Str.is_empty k.(PublicJwk.kid) || (128 <? Str.len k.(PublicJwk.kid))
     || negb (forallb is_ascii_graphic (Str.bytes k.(PublicJwk.kid)))
     || match k.(PublicJwk.usage) with Some u => negb (String.eqb u "sig") | None => false end
     || existsb (λ op, negb (String.eqb op "verify")) k.(PublicJwk.key_ops)
     || Nat.ltb 1 (length k.(PublicJwk.key_ops))
  then Err (Error.bad "A public signing JWK requires a unique kid and verification-only usage")
  else
    alg ← algorithm k;
    _ ← match alg with
        | RS256 =>
            n ← component k.(PublicJwk.n);
            e ← component k.(PublicJwk.e);
            if negb (Nat.leb 256 (length n) && Nat.leb (length n) 512)
               || (head_byte n <? 128) || even_or_empty n
               || Nat.eqb (length e) 0 || Nat.ltb 4 (length e) || (head_byte e =? 0)
               || even_or_empty e || (Nat.eqb (length e) 1 && (head_byte e <? 3))
               || bool_decide (is_Some k.(PublicJwk.x)) || bool_decide (is_Some k.(PublicJwk.y))
            then Err (Error.bad
              "RSA verification keys must have a 2048–4096 bit modulus and valid exponent")
            else Ok ()
        | ES256 =>
            x ← component k.(PublicJwk.x);
            if negb (Nat.eqb (length x) 32) then Err (Error.bad "Invalid P-256 public key")
            else
              y ← component k.(PublicJwk.y);
              if negb (Nat.eqb (length y) 32)
                 || bool_decide (is_Some k.(PublicJwk.n)) || bool_decide (is_Some k.(PublicJwk.e))
              then Err (Error.bad "Invalid P-256 public key")
              else Ok ()
        | EdDSA =>
            x ← component k.(PublicJwk.x);
            if negb (Nat.eqb (length x) 32) || bool_decide (is_Some k.(PublicJwk.y))
               || bool_decide (is_Some k.(PublicJwk.n)) || bool_decide (is_Some k.(PublicJwk.e))
            then Err (Error.bad "Invalid Ed25519 public key")
            else Ok ()
        | OtherAlgorithm _ => Err (Error.bad "Unsupported signing algorithm")
        end;
    decoding_key k.

(** [dpop::thumbprint]: the RFC 7638 thumbprint. *)
Definition thumbprint (invalid : Error.t) k : Result string :=
  let str o := Json.of_option JStr o in
  match k.(PublicJwk.kty) with
  | "RSA" => Ok (digest (json_string (Json.obj
      [("e", str k.(PublicJwk.e)); ("kty", JStr "RSA"); ("n", str k.(PublicJwk.n))])))
  | "EC" => Ok (digest (json_string (Json.obj
      [("crv", str k.(PublicJwk.crv)); ("kty", JStr "EC"); ("x", str k.(PublicJwk.x));
       ("y", str k.(PublicJwk.y))])))
  | "OKP" => Ok (digest (json_string (Json.obj
      [("crv", str k.(PublicJwk.crv)); ("kty", JStr "OKP"); ("x", str k.(PublicJwk.x))])))
  | _ => Err invalid
  end.
End jwk.
End Jwk.

Module Jwks.
Section jwks.
Context {E : Env}.
Implicit Types keys : PublicJwks.

Fixpoint validate_keys keys (kids : gset string) : Result unit :=
  match keys with
  | [] => Ok ()
  | k :: keys =>
      _ ← Jwk.validate k;
      if bool_decide (k.(PublicJwk.kid) ∈ kids) then Err (Error.bad "Duplicate public key id")
      else validate_keys keys ({[ k.(PublicJwk.kid) ]} ∪ kids)
  end.
Definition validate keys : Result unit :=
  if Nat.eqb (length keys) 0 || Nat.ltb 8 (length keys)
  then Err (Error.bad "Provide 1–8 pinned public signing keys")
  else validate_keys keys ∅.

Definition crit_present (h : JwtHeader.t) : bool :=
  match h.(JwtHeader.crit) with Some (_ :: _) => true | _ => false end.

(** [verify_claims] for assertions ([security_event] false) and SETs. *)
Definition verify_claims (at_ : Z) keys (token issuer audience : string)
    (security_event : bool) : Result json :=
  if 16384 <? Str.len token then Err (Error.bad "JWT exceeds size limit")
  else
    header ← ok_or (decode_header token) (Error.bad "Malformed JWT header");
    if bool_decide (is_Some header.(JwtHeader.jku)) || bool_decide (is_Some header.(JwtHeader.jwk))
       || bool_decide (is_Some header.(JwtHeader.x5u)) || crit_present header
    then Err (Error.bad "JWT must use pinned keys and supported headers")
    else
      key ← ok_or (List.find (λ k, bool_decide (Some k.(PublicJwk.kid) = header.(JwtHeader.kid)))
                     keys) (Error.bad "Unknown JWT key");
      alg ← Jwk.algorithm key;
      if negb (bool_decide (alg = header.(JwtHeader.alg)))
      then Err (Error.bad "JWT algorithm does not match its registered key")
      else
        let validation :=
          Validation.mk header.(JwtHeader.alg) (Some issuer) (Some audience)
            (if security_event then ["iss"; "aud"; "iat"; "jti"] else ["iss"; "aud"; "exp"])
            (negb security_event) true true 0 in
        _ ← Jwk.decoding_key key;
        ok_or (jwt_decode at_ token key validation)
          (Error.bad "JWT signature or claims validation failed").
Definition verify (at_ : Z) keys (token issuer audience : string) : Result json :=
  verify_claims at_ keys token issuer audience false.
End jwks.
End Jwks.

(** ** Client assertions *)

Section assertion.
Context {E : Env}.

Definition ASSERTION_TYPE : string :=
  "urn:ietf:params:oauth:client-assertion-type:jwt-bearer".
Definition JWT_GRANT : string := "urn:ietf:params:oauth:grant-type:jwt-bearer".

Definition bounded_jti (v : json) : option string :=
  match Json.as_str (Json.index v "jti") with
  | Some j => if negb (Str.is_empty j) && (Str.len j <=? 256) then Some j else None
  | None => None
  end.

Definition assertion_key (namespace : string) (claims : json) (jti : string) : string :=
  digest (namespace +:+ NUL +:+ json_string (Json.index claims "iss") +:+ NUL +:+ jti).

Definition consume_assertion (claims : json) (namespace : string) : tx unit :=
  at_ ← now;
  iat ← some_or (Json.as_u64 (Json.index claims "iat")) (Error.bad "Assertion requires iat");
  exp ← some_or (Json.as_u64 (Json.index claims "exp")) (Error.bad "Assertion requires exp");
  jti ← some_or (bounded_jti claims) (Error.bad "Assertion requires a bounded unique jti");
  _ ← ensure (negb ((wadd at_ 30 <? iat) || (exp <=? at_) || (exp <=? iat) || (300 <? exp - iat)
                    || (300 <? sat_sub at_ iat)))
        (Error.bad "Assertion lifetime must be at most five minutes");
  let key := assertion_key namespace claims jti in
  seen ← get Z "assertion_replays" key;
  _ ← ensure (match seen with Some e => negb (at_ <? e) | None => true end)
        (Error.bad "Assertion already used");
  put "assertion_replays" key exp.

#[global] Instance touches_consume_assertion claims ns :
  Touches ["assertion_replays"] (consume_assertion claims ns).
Proof. unfold consume_assertion. solve_touches. Qed.

Lemma consume_assertion_ok claims ns s u s' :
  consume_assertion claims ns s = (Ok u, s') →
  ∃ exp jti,
    Json.as_u64 (Json.index claims "exp") = Some exp ∧ bounded_jti claims = Some jti
    ∧ s.(St.clock) < exp
    ∧ (∀ e, s.(St.db) !! ("assertion_replays", assertion_key ns claims jti) = Some (RU64 e) →
            e ≤ s.(St.clock))
    ∧ s' = St.set_db s (<[("assertion_replays", assertion_key ns claims jti) := RU64 exp]> s.(St.db)).
Proof.
  unfold consume_assertion. intros Hrun. tx_inv.
  do 2 eexists. split_and!; [done|done|lia| |done].
  intros e He. match goal with H : _ !! _ = _ <$> ?o |- _ => rewrite H in He; destruct o end;
    simplify_eq/=. lia.
Qed.
End assertion.

#[export] Hint Resolve touches_consume_assertion : tx.

(** ** DPoP *)

Module Dpop.
Section dpop.
Context {E : Env}.

Definition invalid : Error.t :=
  Error.oauth "invalid_dpop_proof" "Invalid, stale, mismatched or replayed DPoP proof".

Definition algorithm_name (a : Algorithm) : Result string :=
  match a with
  | RS256 => Ok "RS256"
  | ES256 => Ok "ES256"
  | EdDSA => Ok "EdDSA"
  | OtherAlgorithm _ => Err invalid
  end.

(** The key in the proof's header, completed with its algorithm and a key
    id. *)
Definition header_key (proof : string) (header : JwtHeader.t) : Result PublicJwk.t :=
  bytes ← ok_or (b64url_decode (default "" (head (Str.split "." proof)))) invalid;
  raw ← ok_or (json_parse bytes) invalid;
  if bool_decide (is_Some (Json.get "b64" raw)) then Err invalid
  else
    key ← ok_or (match Json.get "jwk" raw with Some (JObj l) => Some (JObj l) | _ => None end)
            invalid;
    name ← algorithm_name header.(JwtHeader.alg);
    if match Json.get "alg" key with Some v => negb (Json.eqb v (JStr name)) | None => false end
    then Err invalid
    else
      let key := Json.set "alg" (JStr name) key in
      let key := match Json.get "kid" key with
                 | None => Json.set "kid" (JStr "dpop") key
                 | Some _ => key
                 end in
      ok_or (jwk_of_json key) invalid.

Definition replay_key (jkt jti : string) : string := digest (jkt +:+ NUL +:+ jti).

(** The claims of a well-signed proof for [method] at [endpoint], fresh at
    [at_], and the key that signed it. *)
Definition check (at_ : Z) (proof method endpoint : string) (access_token : option string) :
    Result (string * string) :=
  if 16384 <? Str.len proof then Err invalid
  else
    header ← ok_or (decode_header proof) invalid;
    if negb (bool_decide (header.(JwtHeader.typ) = Some "dpop+jwt"))
       || bool_decide (is_Some header.(JwtHeader.jku))
       || bool_decide (is_Some header.(JwtHeader.x5u)) || Jwks.crit_present header
    then Err invalid
    else
      key ← header_key proof header;
      _ ← map_err (λ _, invalid) (Jwk.validate key);
      _ ← Jwk.decoding_key key;
      claims ← ok_or (jwt_decode at_ proof key
                        (Validation.mk header.(JwtHeader.alg) None None [] false false true 0))
                 invalid;
      iat ← ok_or (Json.as_u64 (Json.index claims "iat")) invalid;
      jti ← ok_or (bounded_jti claims) invalid;
      target ← ok_or (url_parse endpoint) invalid;
      let target := Url.clear_fragment (Url.clear_query target) in
      if (60 <? Z.abs (iat - at_))
         || negb (bool_decide (Json.as_str (Json.index claims "htm") = Some method))
         || negb (bool_decide (Json.as_str (Json.index claims "htu") = Some (url_str target)))
      then Err invalid
      else if match access_token with
              | Some token =>
                  negb (bool_decide (Json.as_str (Json.index claims "ath") = Some (digest token)))
              | None => bool_decide (is_Some (Json.get "ath" claims))
              end
      then Err invalid
      else
        jkt ← Jwk.thumbprint invalid key;
        Ok (jkt, jti).

Definition verify (proof method endpoint : string) (access_token : option string) :
    tx string :=
  at_ ← now;
  p ← lift (check at_ proof method endpoint access_token);
  let replay := replay_key p.1 p.2 in
  seen ← get Z "dpop_replays" replay;
  _ ← ensure (match seen with Some exp => negb (at_ <? exp) | None => true end) invalid;
  _ ← put "dpop_replays" replay (wadd at_ 120);
  mret p.1.

(** The [required] flag of [bind_clients]: whether a proof is mandatory. *)
Definition access_binding (clients : list Client.t) : bool :=
  existsb (λ c, c.(Client.settings).(ProviderSettings.dpop_bound_access_tokens)) clients.
Definition expected_jkts (authorization_jkt : option string) (grant : Grant.t) : list string :=
  omap (λ o, o)
    [authorization_jkt; grant.(Grant.confirmation_jkt); grant.(Grant.id_token_jkt)].

Definition bind_clients (clients : list Client.t) (request : TokenRequest.t) (grant : Grant.t)
    (authorization_jkt : option string) : tx Grant.t :=
  let bound_id := bool_decide ("bound_key" ∈ grant.(Grant.scopes)) in
  let binding := access_binding clients in
  let required := binding || bound_id || bool_decide (is_Some authorization_jkt)
                  || bool_decide (is_Some grant.(Grant.confirmation_jkt))
                  || bool_decide (is_Some grant.(Grant.id_token_jkt)) in
  match request.(TokenRequest.dpop_proof) with
  | None => if required then fail invalid else mret grant
  | Some proof =>
      issuer ← get string "meta" "issuer";
      issuer ← some_or issuer invalid;
      jkt ← verify proof "POST" (endpoint issuer "/oauth/token") None;
      _ ← ensure (negb (existsb (λ expected, negb (String.eqb expected jkt))
                          (expected_jkts authorization_jkt grant))) invalid;
      let id_jkt := if bound_id then Some jkt else grant.(Grant.id_token_jkt) in
      let conf := if negb bound_id || binding || bool_decide (is_Some authorization_jkt)
                  then Some jkt else grant.(Grant.confirmation_jkt) in
      if binding && bool_decide (conf = None) then fail invalid
      else mret (Grant.set_jkts grant conf id_jkt)
  end.
Definition bind (client : Client.t) (request : TokenRequest.t) (grant : Grant.t)
    (authorization_jkt : option string) : tx Grant.t :=
  bind_clients [client] request grant authorization_jkt.

Definition proof_mismatch : Error.t :=
  Error.new UNAUTHORIZED "invalid_dpop_proof" "DPoP-bound token requires its matching proof".

(** [map_err] of [resource]: a client error becomes 401. *)
Definition as_unauthorized {A} (m : tx A) : tx A := λ s,
  match m s with
  | (Err e, s') =>
      (Err (if (400 <=? e.(Error.status)) && (e.(Error.status) <? 500)
            then Error.new UNAUTHORIZED e.(Error.code) e.(Error.message) else e), s')
  | r => r
  end.

Definition resource (grant : Grant.t) (proof : option string)
    (token method endpoint : string) : tx unit :=
  match grant.(Grant.confirmation_jkt), proof with
  | Some expected, Some proof =>
      jkt ← as_unauthorized (verify proof method endpoint (Some token));
      ensure (String.eqb jkt expected) proof_mismatch
  | None, None => mret ()
  | _, _ => fail proof_mismatch
  end.

#[global] Instance touches_verify p m e t : Touches ["dpop_replays"] (verify p m e t).
Proof. unfold verify. solve_touches. Qed.
#[global] Instance touches_bind_clients cs r g j :
  Touches ["dpop_replays"] (bind_clients cs r g j).
Proof. unfold bind_clients. solve_touches. Qed.
#[global] Instance touches_dpop_bind c r g j : Touches ["dpop_replays"] (bind c r g j).
Proof. apply touches_bind_clients. Qed.
#[global] Instance touches_resource g p t m e : Touches ["dpop_replays"] (resource g p t m e).
Proof.
  unfold resource. destruct (Grant.confirmation_jkt g), p as [p|]; try apply pure_touches, _.
  apply touches_bind; [|intros; apply pure_touches, _].
  intros st. unfold as_unauthorized. pose proof (touches_verify p m e (Some t) st) as Hv.
  by destruct (verify p m e (Some t) st) as [[]].
Qed.
End dpop.
End Dpop.

#[export] Hint Resolve Dpop.touches_verify Dpop.touches_bind_clients Dpop.touches_dpop_bind
  Dpop.touches_resource : tx.

(** ** One use *)

Section one_use.
Context {E : Env}.

(** An assertion is accepted once: after it was consumed, and as long as
    its replay record is kept until the assertion expires, the same assertion is refused at every later
    time, within its lifetime by the record and after it by its expiry. *)
Theorem assertion_one_use claims ns s1 s1' s2 s2' u :
  consume_assertion claims ns s1 = (Ok u, s1') →
  (∀ exp k, Json.as_u64 (Json.index claims "exp") = Some exp → s2.(St.clock) < exp →
     s2.(St.db) !! ("assertion_replays", k) = s1'.(St.db) !! ("assertion_replays", k)) →
  consume_assertion claims ns s2 ≠ (Ok u, s2').
Proof.
  intros (exp & jti & Hexp & Hjti & _ & _ & ->)%consume_assertion_ok Hrow
    (exp' & jti' & Hexp' & Hjti' & Hlt & Hseen & _)%consume_assertion_ok.
  rewrite Hexp in Hexp'. rewrite Hjti in Hjti'. injection Hexp' as <-. injection Hjti' as <-.
  specialize (Hseen exp). rewrite (Hrow exp) in Hseen by done. simpl in Hseen.
  rewrite lookup_insert_eq in Hseen. specialize (Hseen eq_refl). lia.
Qed.

Lemma check_ok at_ p m e t jkt jti :
  Dpop.check at_ p m e t = Ok (jkt, jti) →
  ∃ h key claims iat,
    decode_header p = Some h ∧ Dpop.header_key p h = Ok key
    ∧ jwt_decode at_ p key (Validation.mk h.(JwtHeader.alg) None None [] false false true 0) = Some claims
    ∧ Json.as_u64 (Json.index claims "iat") = Some iat
    ∧ bounded_jti claims = Some jti ∧ Jwk.thumbprint Dpop.invalid key = Ok jkt
    ∧ Z.abs (iat - at_) ≤ 60.
Proof.
  unfold Dpop.check. intros Hrun.
  repeat match type of Hrun with
  | (if ?b then _ else _) = Ok _ => destruct b eqn:?; [done|]
  | (ok_or ?o _ ≫= _) = Ok _ => destruct o eqn:?; cbn [ok_or mbind result_bind] in Hrun; [|done]
  | (?m ≫= _) = Ok _ => destruct m eqn:?; cbn [mbind result_bind] in Hrun; [|done]
  end. simplify_eq/=. bools. do 4 eexists. split_and!; try done.
Qed.

(** A DPoP proof is accepted once: after an accepted use at time [t], with
    its replay record kept until it expires, the only later second at which the same proof can
    be accepted again is [t + 120], and then only for a proof dated exactly
    sixty seconds ahead of its first use.  [decoded] says that decoding a
    token yields the claims in it, whenever it is decoded. *)
Theorem dpop_one_use p m e t m' e' t' s1 s1' s2 s2' jkt jkt' :
  (∀ t1 t2 tok k v c1 c2,
      jwt_decode t1 tok k v = Some c1 → jwt_decode t2 tok k v = Some c2 → c1 = c2) →
  Dpop.verify p m e t s1 = (Ok jkt, s1') →
  Dpop.verify p m' e' t' s2 = (Ok jkt', s2') →
  (s2.(St.clock) < s1.(St.clock) + 120 →
     ∀ k, s2.(St.db) !! ("dpop_replays", k) = s1'.(St.db) !! ("dpop_replays", k)) →
  0 ≤ s1.(St.clock) ≤ s2.(St.clock) → s1.(St.clock) + 120 ≤ u64_max →
  s2.(St.clock) = s1.(St.clock) + 120
  ∧ ∃ k h claims, decode_header p = Some h ∧ Dpop.header_key p h = Ok k
      ∧ (∃ v, jwt_decode s1.(St.clock) p k v = Some claims)
      ∧ Json.as_u64 (Json.index claims "iat") = Some (s1.(St.clock) + 60).
Proof.
  intros Hdec Hv1 Hv2 Hrow Hle Hov. unfold Dpop.verify in Hv1, Hv2. tx_inv.
  repeat match goal with H : Dpop.check _ _ _ _ _ = Ok ?q |- _ =>
    destruct q; apply check_ok in H as (? & ? & ? & ? & ? & ? & ? & ? & ? & ? & ?) end.
  repeat match goal with H : decode_header p = Some ?a, H' : decode_header p = Some ?b |- _ =>
    assert_fails (constr_eq a b); rewrite H in H'; injection H' as <- end.
  repeat match goal with H : Dpop.header_key p ?h = Ok ?a, H' : Dpop.header_key p ?h = Ok ?b |- _ =>
    assert_fails (constr_eq a b); rewrite H in H'; injection H' as <- end.
  repeat match goal with H : Jwk.thumbprint _ ?k = Ok ?a, H' : Jwk.thumbprint _ ?k = Ok ?b |- _ =>
    assert_fails (constr_eq a b); rewrite H in H'; injection H' as <- end.
  match goal with H : jwt_decode s1.(St.clock) _ _ _ = Some ?a, H' : jwt_decode s2.(St.clock) _ _ _ = Some ?b |- _ =>
    pose proof (Hdec _ _ _ _ _ _ _ H H') as Hcl; subst b end.
  simplify_eq/=. rewrite wadd_small in * by lia.
  destruct (decide (s2.(St.clock) < s1.(St.clock) + 120)) as [Hlt|Hge].
  { specialize (Hrow Hlt).
    match goal with H : s2.(St.db) !! _ = RU64 <$> ?o |- _ =>
      rewrite Hrow, lookup_insert_eq in H; destruct o; simplify_eq/= end. lia. }
  split; [lia|]. do 3 eexists. split_and!; [done|done|eauto|].
  match goal with H : Json.as_u64 _ = Some ?i |- _ => rewrite H; f_equal; lia end.
Qed.
End one_use.

Module JoseDemo.
Definition claims (iat : Z) : json := Json.obj
  [("iat", JNum iat); ("exp", JNum 1200); ("jti", JStr "j-1"); ("sub", JStr "ci");
   ("htm", JStr "POST"); ("htu", JStr "https://id.test/oauth/token")].
Definition env : Env := Demo.signed (claims 1060).
Definition state (at_ : Z) : St.t := St.mk ∅ at_ 0 None.
Definition verify (s : St.t) : Result string * St.t :=
  @Dpop.verify env "p" "POST" "https://id.test/oauth/token" None s.
Definition used : St.t := (verify (state 1000)).2.
Definition later : St.t := St.mk used.(St.db) 1120 0 None.
Definition jkt : string := "#".
End JoseDemo.

(** The boundary is real: this proof is accepted at 1000 and again at 1120. *)
Example dpop_replayed_at_boundary :
  (JoseDemo.verify (JoseDemo.state 1000)).1 = Ok JoseDemo.jkt
  ∧ (JoseDemo.verify JoseDemo.later).1 = Ok JoseDemo.jkt.
Proof. split; vm_compute; reflexivity. Qed.

Lemma dpop_one_use_witness : 1120 = 1000 + 120.
Proof.
  refine (proj1 (@dpop_one_use JoseDemo.env "p" "POST" "https://id.test/oauth/token" None
    "POST" "https://id.test/oauth/token" None (JoseDemo.state 1000) JoseDemo.used JoseDemo.later
    (JoseDemo.verify JoseDemo.later).2 JoseDemo.jkt JoseDemo.jkt _ _ _ _ _ _)).
  - intros t1 t2 tok k v c1 c2 [= <-] [= <-]. reflexivity.
  - vm_compute. reflexivity.
  - vm_compute. reflexivity.
  - simpl. lia.
  - simpl. lia.
  - vm_compute. discriminate.
Defined.

Lemma assertion_one_use_witness :
  @consume_assertion JoseDemo.env (JoseDemo.claims 990) "client:ci"
    (@consume_assertion JoseDemo.env (JoseDemo.claims 990) "client:ci" (JoseDemo.state 1000)).2
  ≠ (Ok (), JoseDemo.state 1000).
Proof.
  apply (@assertion_one_use JoseDemo.env (JoseDemo.claims 990) "client:ci" (JoseDemo.state 1000)
    (@consume_assertion JoseDemo.env (JoseDemo.claims 990) "client:ci" (JoseDemo.state 1000)).2).
  - vm_compute. reflexivity.
  - reflexivity.
Defined.
