(* ===== verification/Delegation.v ===== *)
(** * Memberships and human grants (src/src/core.rs, store/maintenance.rs,
    assembly/pam.rs, management.rs, delegation.rs)

    A user's groups are the durable memberships of an index that is read page by
    page, and the temporary groups of live access grants.  A human grant gives
    one role on one exact target; it counts only while its holder's credentials
    are independently proven and its target is still the object it was issued
    for. *)

From stdpp Require Import pretty.
From S2P Require Import Prelude Json Model Store Env Provider.
From S2P Require Import Jose.

#[local] Set Warnings "-clear-no-such-hyp".

(** [format!("{}", n)]. *)
Definition decimal (n : Z) : string := pretty n.

(** ** Groups *)

Definition PAGE : nat := 128.

Section groups.
Context {E : Env}.

Definition user_groups_bucket (user_id : string) : string :=
  "index_user_groups/" +:+ digest user_id.

(** The loop of [Tx::user_group_names]. *)
Fixpoint group_pages (fuel : nat) (bucket : string) (after : option string)
    (names : gset string) : tx (gset string) :=
  match fuel with
  | O => mret names
  | S fuel =>
      page ← scan string bucket after PAGE;
      match last page with
      | None => mret names
      | Some (key, _) =>
          let names := names ∪ list_to_set page.*2 in
          if Nat.eqb (length page) PAGE then group_pages fuel bucket (Some key) names
          else mret names
      end
  end.
(** Each turn but the last reads a full page, so the rows of the bucket bound
    the number of turns. *)
Definition user_group_names (user_id : string) : tx (gset string) := λ s,
  let bucket := user_groups_bucket user_id in
  group_pages (S (length (bucket_rows bucket s.(St.db)))) bucket None ∅ s.

Definition user_access_grants (user_id : string) : tx (list AccessGrant.t) :=
  ids ← list_all string ("index_user_access_grants/" +:+ digest user_id);
  fold_m (λ grants kv,
    g ← get AccessGrant.t "access_grants" kv.2;
    mret (match g with Some g => grants ++ [g] | None => grants end)) [] ids.

(** [delegation::credential_exposure]. *)
Definition CREDENTIAL_EXPOSURE : string := "support_credential_exposure".
Definition credential_exposure (user_id : string) : tx (option CredentialExposure.t) :=
  get CredentialExposure.t CREDENTIAL_EXPOSURE user_id.

(** [pam::extra_groups]. *)
Definition extra_groups (user_id : string) (at_ : Z) : tx (gset string) :=
  exposure ← credential_exposure user_id;
  match exposure with
  | Some _ => mret ∅
  | None =>
      grants ← user_access_grants user_id;
      mret (list_to_set (AccessGrant.group <$>
        List.filter (λ g, String.eqb g.(AccessGrant.user_id) user_id && AccessGrant.active g at_)
          grants))
  end.

Definition groups_for (user_id : string) : tx (gset string) :=
  names ← user_group_names user_id;
  at_ ← now;
  extra ← extra_groups user_id at_;
  mret (names ∪ extra).

Lemma pure_group_pages fuel bucket after names : Pure (group_pages fuel bucket after names).
Proof.
  revert after names. induction fuel as [|fuel IH]; intros after names; simpl; [apply _|].
  apply pure_bind; [apply _|]. intros page. repeat case_match; apply _ || apply IH.
Qed.
#[global] Instance pure_user_group_names u : Pure (user_group_names u).
Proof. intros s. apply pure_group_pages. Qed.
#[global] Instance pure_user_access_grants u : Pure (user_access_grants u).
Proof. unfold user_access_grants. solve_pure. Qed.
#[global] Instance pure_credential_exposure u : Pure (credential_exposure u).
Proof. unfold credential_exposure. solve_pure. Qed.
#[global] Instance pure_extra_groups u t : Pure (extra_groups u t).
Proof. unfold extra_groups. solve_pure. Qed.
#[global] Instance pure_groups_for u : Pure (groups_for u).
Proof. unfold groups_for. solve_pure. Qed.
End groups.

(** [management::has_reviewed_membership]. *)
Section membership.
Context {E : Env}.

Definition MEMBERSHIP_HOLDERS : string := "reviewed_membership_holders".

Definition has_reviewed_membership (user_id : string) : tx bool :=
  held ← get (gset string) MEMBERSHIP_HOLDERS user_id;
  let groups := default ∅ held ∪ config.(Config.reviewed_membership_groups)
                ∪ dom config.(Config.pam_approvers) in
  any_m (λ name,
    g ← get Group.t "groups" name;
    mret (match g with
          | Some g => String.eqb g.(Group.name) name && bool_decide (user_id ∈ g.(Group.members))
          | None => false
          end)) (btree_iter groups).

(** [delegation::has_protected_or_temporary_access]. *)
Definition has_protected_or_temporary_access (user_id : string) : tx bool :=
  reviewed ← has_reviewed_membership user_id;
  if (reviewed : bool) then mret true
  else
    at_ ← now;
    extra ← extra_groups user_id at_;
    mret (negb (bool_decide (extra = ∅))).

#[global] Instance pure_has_reviewed_membership u : Pure (has_reviewed_membership u).
Proof. unfold has_reviewed_membership. solve_pure. Qed.
#[global] Instance pure_has_protected u : Pure (has_protected_or_temporary_access u).
Proof. unfold has_protected_or_temporary_access. solve_pure. Qed.
End membership.

(** ** Elevation provenance *)

Section provenance.
Context {E : Env}.
Definition ELEVATION_PROVENANCE : string := "elevation_provenance".

Definition identity_stamp (user : User.t) : string :=
  digest (user.(User.id) +:+ NUL +:+ decimal user.(User.created_at) +:+ NUL
          +:+ user.(User.pairwise_seed)).

Definition record_elevation_provenance (user : User.t) (basis : ProvenanceBasis) : tx unit :=
  at_ ← now;
  put ELEVATION_PROVENANCE user.(User.id)
    (ElevationProvenance.mk user.(User.id) (identity_stamp user) basis at_).

Definition proven_for_elevation (user : User.t) : tx bool :=
  proof ← get ElevationProvenance.t ELEVATION_PROVENANCE user.(User.id);
  mret (match proof with
        | Some p => String.eqb p.(ElevationProvenance.user_id) user.(User.id)
                    && String.eqb p.(ElevationProvenance.identity_stamp) (identity_stamp user)
        | None => false
        end).

Definition ready_for_elevation (user : User.t) : tx bool :=
  proven ← proven_for_elevation user;
  if (proven : bool) then
    exposure ← credential_exposure user.(User.id);
    mret (bool_decide (exposure = None))
  else mret false.

Definition require_elevation_ready (user : User.t) : tx unit :=
  proven ← proven_for_elevation user;
  _ ← ensure proven (Error.conflict
        "This account needs independent offline credential recovery with factor reset before privilege elevation");
  exposure ← credential_exposure user.(User.id);
  ensure (bool_decide (exposure = None)) (Error.conflict
    "This account needs independent credential recovery before privilege elevation").

#[global] Instance pure_proven u : Pure (proven_for_elevation u).
Proof. unfold proven_for_elevation. solve_pure. Qed.
#[global] Instance pure_ready u : Pure (ready_for_elevation u).
Proof. unfold ready_for_elevation. solve_pure. Qed.
End provenance.

(** ** Human grants *)

Module Human.
Section grants.
Context {E : Env}.

Definition human_grant_allows (g : HumanGrant.t) (action resource : string) : bool :=
  String.eqb action "state.read" && String.eqb resource "state/revision"
  || String.eqb g.(HumanGrant.scope) resource
     && match g.(HumanGrant.role) with
        | HelpDesk => bool_decide (action ∈ ["user.read"; "user.support"])
        | ApplicationOwner => bool_decide (action ∈ ["client.read"; "client.owner_update"])
        | DirectoryOperator => bool_decide (action ∈ ["directory.read"; "directory.sync"])
        | Auditor => String.eqb action "audit.read"
        | SecurityAdministrator =>
            bool_decide (action ∈ ["key.read"; "key.write"])
            || String.eqb action "key.rotate" && String.eqb resource "key/signing"
        end.

Definition stored (user_id : string) : tx (list HumanGrant.t) :=
  g ← get (list HumanGrant.t) "human_grants" user_id; mret (default [] g).

Definition directory_target (scope : string) : option string :=
  match Str.split_once "/" scope with
  | None => None
  | Some (kind, id) =>
      digest <$>
        (if String.eqb kind "directory"
         then DirectoryConfig.text <$> config.(Config.directories) !! id
         else if String.eqb kind "workspace" then config.(Config.workspace_directories) !! id
         else if String.eqb kind "entra" then config.(Config.entra_directories) !! id
         else None)
  end.

Definition key_target (scope : string) : tx (option string) :=
  match Str.strip_prefix "key/" scope with
  | None => mret None
  | Some id =>
      if String.eqb id "signing" then mret (Some id)
      else
        keys ← get Keys.t "key_domains" id;
        mret (match keys with Some _ => Some id | None => None end)
  end.

Definition pam_approver (name : string) : bool :=
  existsb (λ names, bool_decide (name ∈ (names : gset string)))
    (map_to_list config.(Config.pam_approvers)).*2.

(** A help-desk target: still the user of that name, and without privileges. *)
Definition support_target_valid (g : HumanGrant.t) : tx bool :=
  match Str.strip_prefix "user/" g.(HumanGrant.scope) with
  | None => mret false
  | Some name =>
      id ← get string "usernames" name;
      match id with
      | None => mret false
      | Some id =>
          if String.eqb id g.(HumanGrant.target_id) then
            user ← get User.t "users" id;
            match user with
            | None => mret false
            | Some user =>
                if String.eqb user.(User.username) name && negb user.(User.admin)
                   && negb (pam_approver name) then
                  held ← stored user.(User.id);
                  match held with
                  | _ :: _ => mret false
                  | [] =>
                      protected ← has_protected_or_temporary_access user.(User.id);
                      mret (negb protected)
                  end
                else mret false
            end
          else mret false
      end
  end.

Definition target_valid (g : HumanGrant.t) : tx bool :=
  match g.(HumanGrant.role) with
  | HelpDesk => support_target_valid g
  | ApplicationOwner =>
      match Str.strip_prefix "client/" g.(HumanGrant.scope) with
      | None => mret false
      | Some id =>
          if String.eqb id g.(HumanGrant.target_id) then
            c ← get Client.t "clients" id;
            mret (match c with Some c => String.eqb c.(Client.id) id | None => false end)
          else mret false
      end
  | DirectoryOperator =>
      mret (bool_decide (directory_target g.(HumanGrant.scope) = Some g.(HumanGrant.target_id)))
  | Auditor =>
      mret (String.eqb g.(HumanGrant.scope) "audit/events"
            && String.eqb g.(HumanGrant.target_id) "events")
  | SecurityAdministrator =>
      t ← key_target g.(HumanGrant.scope);
      mret (bool_decide (t = Some g.(HumanGrant.target_id)))
  end.

(** [delegation::active]. *)
Definition active (user_id : string) : tx (list HumanGrant.t) :=
  grants ← stored user_id;
  match grants with
  | [] => mret []
  | _ =>
      holder ← get User.t "users" user_id;
      match holder with
      | None => mret []
      | Some holder =>
          ready ← ready_for_elevation holder;
          if (ready : bool) then filter_m target_valid grants else mret []
      end
  end.

(** [delegation::bind]: issue a grant for the object the scope names now. *)
Definition user_by_name (username : string) : tx User.t :=
  uid ← get string "usernames" username;
  uid ← some_or uid (Error.missing "User not found");
  user ← get User.t "users" uid;
  some_or user (Error.missing "User not found").

Definition bind (role : HumanRole) (scope holder_id : string) : tx HumanGrant.t :=
  kn ← some_or (Str.split_once "/" scope) Error.forbidden;
  let '(kind, name) := kn in
  _ ← lift (validate_name name);
  _ ← ensure (negb (Str.contains_byte "*" name || negb (Str.count_byte "/" scope =? 1)))
        Error.forbidden;
  target_id ←
    match role with
    | HelpDesk =>
        if String.eqb kind "user" then
          target ← user_by_name name;
          _ ← ensure (negb (target.(User.admin) || String.eqb target.(User.id) holder_id
                            || pam_approver name)) Error.forbidden;
          held ← stored target.(User.id);
          _ ← ensure (bool_decide (held = [])) Error.forbidden;
          protected ← has_protected_or_temporary_access target.(User.id);
          _ ← ensure (negb protected) Error.forbidden;
          mret target.(User.id)
        else fail Error.forbidden
    | ApplicationOwner =>
        if String.eqb kind "client" then
          c ← get Client.t "clients" name;
          c ← some_or (match c with
                       | Some c => if String.eqb c.(Client.id) name then Some c else None
                       | None => None
                       end) (Error.missing "Client not found");
          mret c.(Client.id)
        else fail Error.forbidden
    | DirectoryOperator =>
        if bool_decide (kind ∈ ["directory"; "workspace"; "entra"])
        then some_or (directory_target scope) (Error.missing "Directory not configured")
        else fail Error.forbidden
    | Auditor =>
        if String.eqb kind "audit" && String.eqb name "events" then mret "events"
        else fail Error.forbidden
    | SecurityAdministrator =>
        if String.eqb kind "key" then
          t ← key_target scope;
          some_or t (Error.missing "Signing key domain not found")
        else fail Error.forbidden
    end;
  mret (HumanGrant.mk role scope target_id).

#[global] Instance pure_stored u : Pure (stored u).
Proof. unfold stored. solve_pure. Qed.
#[global] Instance pure_key_target sc : Pure (key_target sc).
Proof. unfold key_target. solve_pure. Qed.
#[global] Instance pure_support_target_valid g : Pure (support_target_valid g).
Proof. unfold support_target_valid. solve_pure. Qed.
#[global] Instance pure_target_valid g : Pure (target_valid g).
Proof. unfold target_valid. solve_pure. Qed.
#[global] Instance pure_active u : Pure (active u).
Proof. unfold active. solve_pure. Qed.
#[global] Instance pure_user_by_name u : Pure (user_by_name u).
Proof. unfold user_by_name. solve_pure. Qed.
#[global] Instance pure_bind_grant r sc h : Pure (bind r sc h).
Proof. unfold bind. solve_pure. Qed.
End grants.
End Human.

(** ** The paged index read returns the whole index *)

Section pages.
Context {E : Env}.

(** Reading on from a prefix of the bucket adds exactly the rest. *)
Lemma group_pages_spec fuel bucket s (pre rest : list (string * string)) names :
  bucket_rows bucket s.(St.db) = prod_map (λ k, k) RString <$> (pre ++ rest) →
  (length rest < fuel)%nat →
  group_pages fuel bucket (last pre.*1) names s = (Ok (names ∪ list_to_set rest.*2), s).
Proof.
  revert pre rest names. induction fuel as [|fuel IH]; intros pre rest names Hrows Hlen; [lia|].
  assert (List.filter (after_key (last pre.*1)) (bucket_rows bucket s.(St.db))
          = prod_map (λ k, k) RString <$> rest) as Hrest by (by apply filter_rest).
  cbn [group_pages].
  rewrite (bind_step _ _ _ (take PAGE rest) s); cycle 1.
  { apply scan_ok. split; [done|]. rewrite Hrest. by rewrite <-fmap_take. }
  destruct (last (take PAGE rest)) as [[k g]|] eqn:El.
  - apply last_Some in El as [page El].
    assert (rest = (page ++ [(k, g)]) ++ drop PAGE rest) as Hsplit.
    { by rewrite <-El, take_drop. }
    case_match eqn:Hfull.
    + apply Nat.eqb_eq in Hfull. rewrite length_take in Hfull.
      specialize (IH (pre ++ page ++ [(k, g)]) (drop PAGE rest)
                    (names ∪ list_to_set (take PAGE rest).*2)).
      assert (last (pre ++ page ++ [(k, g)]).*1 = Some k) as Hlast.
      { rewrite !fmap_app, (assoc_L (++)). apply last_snoc. }
      rewrite Hlast in IH. rewrite IH.
      * f_equal. f_equal. rewrite <-(take_drop PAGE rest) at 3. set_solver.
      * rewrite Hrows. f_equal. rewrite <-(assoc_L (++)). f_equal. exact Hsplit.
      * rewrite length_drop. unfold PAGE in *. lia.
    + apply Nat.eqb_neq in Hfull. rewrite length_take in Hfull.
      unfold mret, tx_ret. rewrite take_ge by lia. done.
  - apply last_None in El. unfold mret, tx_ret.
    assert (rest = []) as ->.
    { destruct rest; [done|]. by unfold PAGE in El. }
    do 2 f_equal. set_solver.
Qed.

Lemma user_group_names_spec u s (l : list (string * string)) :
  bucket_rows (user_groups_bucket u) s.(St.db) = prod_map (λ k, k) RString <$> l →
  user_group_names u s = (Ok (list_to_set l.*2), s).
Proof.
  intros Hl. unfold user_group_names.
  rewrite (group_pages_spec _ _ s [] l); [|done|rewrite Hl, length_fmap; lia].
  do 2 f_equal. set_solver.
Qed.

Lemma decode_all_strings (rows : list (string * row)) :
  (∀ k r, (k, r) ∈ rows → ∃ g, r = RString g) →
  ∃ l, rows = prod_map (λ k, k) RString <$> l.
Proof.
  induction rows as [|[k r] rows IH]; intros Hr; [by exists []|].
  destruct (Hr k r) as [g ->]; [set_solver|]. destruct IH as [l ->]; [set_solver|].
  by exists ((k, g) :: l).
Qed.
End pages.

(** ** Properties *)

Section properties.
Context {E : Env}.

(** The paged read of the membership index terminates and returns the
    whole index: when every row of the user's index bucket is a group name,
    [user_group_names] succeeds, changes nothing, and a group is in the
    result exactly if some row of the bucket names it, however many pages
    the bucket spans. *)
Theorem user_group_names_complete (u : string) (s : St.t) :
  (∀ k r, s.(St.db) !! (user_groups_bucket u, k) = Some r → ∃ g, r = RString g) →
  ∃ names, user_group_names u s = (Ok names, s) ∧
    ∀ g, g ∈ names ↔ ∃ k, s.(St.db) !! (user_groups_bucket u, k) = Some (RString g).
Proof.
  intros Hstr. destruct (decode_all_strings (bucket_rows (user_groups_bucket u) s.(St.db)))
    as [l Hl].
  { intros k r Hin%elem_of_bucket_rows. eauto. }
  exists (list_to_set l.*2). split; [by apply user_group_names_spec|]. intros g.
  rewrite elem_of_list_to_set, list_elem_of_fmap. split.
  - intros ([k g'] & -> & Hin). exists k. apply elem_of_bucket_rows. rewrite Hl.
    apply list_elem_of_fmap. by exists (k, g').
  - intros [k Hk]. apply elem_of_bucket_rows in Hk. rewrite Hl in Hk.
    apply list_elem_of_fmap in Hk as ([k' g'] & [= <- <-] & Hin). by exists (k, g).
Qed.

(** What the current target of a human grant must be. *)
Definition grant_target (s : St.t) (g : HumanGrant.t) : Prop :=
  let target := g.(HumanGrant.target_id) in
  match g.(HumanGrant.role) with
  | HelpDesk => ∃ name user,
      g.(HumanGrant.scope) = "user/" +:+ name
      ∧ s.(St.db) !! ("usernames", name) = Some (RString target)
      ∧ s.(St.db) !! ("users", target) = Some (RUser user)
      ∧ user.(User.username) = name ∧ user.(User.admin) = false
      ∧ Human.pam_approver name = false
      ∧ (∀ held, s.(St.db) !! ("human_grants", user.(User.id)) = Some (RHumanGrants held) → held = [])
  | ApplicationOwner => ∃ c,
      g.(HumanGrant.scope) = "client/" +:+ target
      ∧ s.(St.db) !! ("clients", target) = Some (RClient c) ∧ c.(Client.id) = target
  | DirectoryOperator => Human.directory_target g.(HumanGrant.scope) = Some target
  | Auditor => g.(HumanGrant.scope) = "audit/events" ∧ target = "events"
  | SecurityAdministrator =>
      g.(HumanGrant.scope) = "key/" +:+ target
      ∧ (target = "signing" ∨ ∃ k, s.(St.db) !! ("key_domains", target) = Some (RKeys k))
  end.

Lemma filter_m_ok {A} (f : A → tx bool) `{!∀ a, Pure (f a)} l s r s' :
  filter_m f l s = (Ok r, s') → s' = s ∧ ∀ a, a ∈ r → a ∈ l ∧ f a s = (Ok true, s).
Proof.
  revert r s'. induction l as [|a l IH]; intros r s'; cbn [filter_m]; intros Hr.
  { apply ret_ok in Hr as [-> ->]. set_solver. }
  apply bind_ok in Hr as (b & s1 & Hb & Hr). pose proof (pure_run _ _ _ _ Hb) as ->.
  apply bind_ok in Hr as (r' & s2 & Hr' & Hr). apply IH in Hr' as [-> Hr'].
  apply ret_ok in Hr as [-> ->]. split; [done|]. intros x Hx.
  destruct b; [apply elem_of_cons in Hx as [->|Hx]|]; set_solver.
Qed.

Lemma stored_ok u s l s' :
  Human.stored u s = (Ok l, s') →
  s' = s ∧ (s.(St.db) !! ("human_grants", u) = Some (RHumanGrants l)
            ∨ s.(St.db) !! ("human_grants", u) = None ∧ l = []).
Proof.
  unfold Human.stored. intros Hr. tx_inv. split; [done|].
  match goal with H : _ = _ <$> ?o |- _ => destruct o; simpl in *; eauto end.
Qed.

Lemma support_target_sound g s s' :
  Human.support_target_valid g s = (Ok true, s') →
  g.(HumanGrant.role) = HelpDesk → grant_target s g.
Proof.
  unfold Human.support_target_valid, grant_target. intros Hv ->.
  destruct (Str.strip_prefix "user/" _) as [name|] eqn:Ep; [|by inversion Hv].
  apply strip_prefix_spec in Ep. tx_crush. bools.
  match goal with H : Human.stored _ _ = _ |- _ => apply stored_ok in H as [-> Hst] end.
  do 2 eexists. split_and!; try done.
  intros held Hh. destruct Hst as [Hst|[Hst _]]; rewrite Hst in Hh; by simplify_eq.
Qed.

Lemma target_valid_sound g s s' :
  Human.target_valid g s = (Ok true, s') → grant_target s g.
Proof.
  unfold Human.target_valid. intros Hv. destruct g.(HumanGrant.role) eqn:Er.
  - by eapply support_target_sound.
  - unfold grant_target. rewrite Er. destruct (Str.strip_prefix _ _) eqn:Ep; [|by inversion Hv].
    apply strip_prefix_spec in Ep. tx_crush. bools. case_match; bools; simplify_eq/=. eauto.
  - unfold grant_target. rewrite Er. tx_crush. by bools.
  - unfold grant_target. rewrite Er. tx_crush. by bools.
  - unfold grant_target. rewrite Er. unfold Human.key_target in Hv.
    destruct (Str.strip_prefix _ _) as [i|] eqn:Ep; [apply strip_prefix_spec in Ep|].
    + tx_crush; bools; try (case_match; simplify_eq/=);
        try match goal with H : _ = HumanGrant.target_id g |- _ => rewrite <-H end; eauto.
    + by tx_crush.
Qed.

Lemma active_live (u : string) (s s' : St.t) (gs : list HumanGrant.t) (g : HumanGrant.t) :
  Human.active u s = (Ok gs, s') → g ∈ gs →
  (∃ all, s.(St.db) !! ("human_grants", u) = Some (RHumanGrants all) ∧ g ∈ all)
  ∧ (∃ holder p, s.(St.db) !! ("users", u) = Some (RUser holder)
      ∧ s.(St.db) !! (ELEVATION_PROVENANCE, holder.(User.id)) = Some (RProvenance p)
      ∧ p.(ElevationProvenance.identity_stamp) = identity_stamp holder
      ∧ s.(St.db) !! (CREDENTIAL_EXPOSURE, holder.(User.id)) = None)
  ∧ grant_target s g.
Proof.
  unfold Human.active. intros Hr Hg.
  apply bind_ok in Hr as (all & s1 & Hst & Hr). apply stored_ok in Hst as [-> Hst].
  destruct all as [|g0 all]; [apply ret_ok in Hr as [-> _]; set_solver|].
  destruct Hst as [Hst|[_ [=]]].
  apply bind_ok in Hr as (o & s1 & [-> Ho]%get_ok & Hr).
  destruct o as [holder|]; [|apply ret_ok in Hr as [-> _]; set_solver].
  apply bind_ok in Hr as (ready & s1 & Hready & Hr).
  destruct ready; [|apply ret_ok in Hr as [-> _]; set_solver].
  pose proof (pure_run _ _ _ _ Hready) as ->.
  apply filter_m_ok in Hr as [-> Hr]; [|apply _]. apply Hr in Hg as [Hin Hv].
  split_and!; [eauto| |by eapply target_valid_sound]. clear Hv Hin Hr.
  unfold ready_for_elevation, proven_for_elevation, credential_exposure in Hready.
  tx_crush; bools. case_match; bools; simplify_eq/=. do 2 eexists. split_and!; eauto.
Qed.

(** A human grant that [active] returns is live.  It is one of the
    holder's stored grants; the holder's credentials are proven independent
    and not exposed to an operator; and the object the grant names is still
    the one it was issued for: a help-desk target is still the unprivileged
    user of that name, an application, directory or key domain still exists
    under the recorded identity. *)
Theorem active_sound (u : string) (s s' : St.t) (gs : list HumanGrant.t) (g : HumanGrant.t) :
  Human.active u s = (Ok gs, s') → g ∈ gs →
  (∃ all, s.(St.db) !! ("human_grants", u) = Some (RHumanGrants all) ∧ g ∈ all)
  ∧ (∃ holder p, s.(St.db) !! ("users", u) = Some (RUser holder)
      ∧ s.(St.db) !! (ELEVATION_PROVENANCE, holder.(User.id)) = Some (RProvenance p)
      ∧ p.(ElevationProvenance.identity_stamp) = identity_stamp holder
      ∧ s.(St.db) !! (CREDENTIAL_EXPOSURE, holder.(User.id)) = None)
  ∧ grant_target s g.
Proof. apply active_live. Qed.
(** The user indexes agree with the user records: a row of [users] is stored
    under its own id, and [usernames] maps a name to the user who has it. *)
Definition users_indexed (s : St.t) : Prop :=
  ∀ name uid user,
    s.(St.db) !! ("usernames", name) = Some (RString uid) →
    s.(St.db) !! ("users", uid) = Some (RUser user) →
    user.(User.id) = uid ∧ user.(User.username) = name.

Lemma user_by_name_ok name s user s' :
  Human.user_by_name name s = (Ok user, s') →
  s' = s ∧ ∃ uid, s.(St.db) !! ("usernames", name) = Some (RString uid)
                ∧ s.(St.db) !! ("users", uid) = Some (RUser user).
Proof. unfold Human.user_by_name. intros Hr. tx_crush. eauto. Qed.

Lemma bind_support_valid name holder uid user s :
  users_indexed s →
  s.(St.db) !! ("usernames", name) = Some (RString uid) →
  s.(St.db) !! ("users", uid) = Some (RUser user) →
  user.(User.admin) || String.eqb user.(User.id) holder || Human.pam_approver name = false →
  Human.stored user.(User.id) s = (Ok [], s) →
  has_protected_or_temporary_access user.(User.id) s = (Ok false, s) →
  Human.support_target_valid (HumanGrant.mk HelpDesk ("user/" +:+ name) user.(User.id)) s
  = (Ok true, s).
Proof.
  intros Hi Hn Hu Hc Hs Hp. destruct (Hi _ _ _ Hn Hu) as [<- Hname].
  unfold Human.support_target_valid. cbn [HumanGrant.scope HumanGrant.target_id].
  rewrite (proj2 (strip_prefix_spec "user/" _ name)) by done.
  tx_get. rewrite String.eqb_refl. tx_get.
  rewrite (proj2 (String.eqb_eq _ _) Hname). bools.
  repeat match goal with H : _ = false |- _ => rewrite H end. simpl.
  rewrite (bind_step _ _ _ _ _ Hs). by rewrite (bind_step _ _ _ _ _ Hp).
Qed.

Lemma key_target_id sc s t s' :
  Human.key_target sc s = (Ok (Some t), s') → Human.key_target sc s = (Ok (Some t), s).
Proof.
  intros Hk. pose proof (pure_run (Human.key_target sc) _ _ _ Hk) as ->. done.
Qed.

(** Issuing and using a human grant agree.  A grant that [bind] issues for
    a scope passes the target check of [active] at once, so it is effective
    as soon as it is stored (for a holder ready for elevation). *)
Theorem bind_then_valid (role : HumanRole) (scope holder : string) (s s' : St.t)
    (g : HumanGrant.t) :
  users_indexed s →
  Human.bind role scope holder s = (Ok g, s') →
  s' = s ∧ g.(HumanGrant.role) = role ∧ g.(HumanGrant.scope) = scope
  ∧ Human.target_valid g s = (Ok true, s).
Proof.
  intros Hi Hb. pose proof (pure_run (Human.bind role scope holder) _ _ _ Hb) as ->.
  unfold Human.bind in Hb. apply bind_ok in Hb as ([kind name] & s1 & Hb0 & Hb).
  apply some_or_ok in Hb0 as [Hsp ->].
  apply bind_ok in Hb as (u1 & s1 & [_ ->]%lift_ok & Hb).
  apply bind_ok in Hb as (u2 & s1 & [_ ->]%ensure_ok & Hb).
  apply bind_ok in Hb as (target & s1 & Ht & Hg). apply ret_ok in Hg as [-> ->].
  split_and!; [done..|]. unfold Human.target_valid. simpl.
  pose proof (split_once_spec _ _ _ _ Hsp) as Hscope.
  destruct role; tx_crush; bools.
  - match goal with H : Human.user_by_name _ _ = _ |- _ =>
      apply user_by_name_ok in H as (-> & uid & Hn & Hu) end.
    match goal with H : Human.stored _ _ = _ |- _ =>
      pose proof (pure_run _ _ _ _ H) as -> end.
    eapply (bind_support_valid name holder); eauto.
    repeat match goal with H : _ = false |- _ => rewrite H end.
    by apply orb_false_iff; split; [apply orb_false_iff; split|]; try apply String.eqb_neq.
  - repeat case_match; simplify_eq/=; bools. tx_get. by rewrite String.eqb_refl.
  - unfold mret, tx_ret. by rewrite bool_decide_true by done.
  - done.
  - match goal with H : Human.key_target _ _ = _ |- _ => apply key_target_id in H;
      rewrite (bind_step _ _ _ _ _ H) end.
    unfold mret, tx_ret. by rewrite bool_decide_true by done.
Qed.
End properties.

(** ** A concrete store *)

Module DelegationDemo.
#[local] Existing Instance Demo.env.

Definition user (id name : string) : User.t :=
  User.mk false TotpSettings.default "seed" id name None name "" true false 1 None None None 100
    ∅ false ∅ ∅.
Definition grant : HumanGrant.t := HumanGrant.mk HelpDesk "user/bob" "u-bob".
Definition state : St.t := St.mk
  {[ ("users", "u-amy") := RUser (user "u-amy" "amy");
     ("users", "u-bob") := RUser (user "u-bob" "bob");
     ("usernames", "bob") := RString "u-bob";
     ("usernames", "amy") := RString "u-amy";
     ("human_grants", "u-amy") := RHumanGrants [grant];
     ("elevation_provenance", "u-amy") :=
       RProvenance (ElevationProvenance.mk "u-amy" (identity_stamp (user "u-amy" "amy"))
                      Bootstrap 100);
     ("index_user_groups/#u-bob", "k1") := RString "staff";
     ("index_user_groups/#u-bob", "k2") := RString "ops" ]} 1000 0 None.

Example active_runs : Human.active "u-amy" state = (Ok [grant], state).
Proof. vm_compute. reflexivity. Qed.
Example groups_run : (groups_for "u-bob" state).1 = Ok {["ops"; "staff"]}.
Proof. vm_compute. reflexivity. Qed.
End DelegationDemo.

Lemma user_group_names_complete_witness :
  ∃ names, @user_group_names Demo.env "u-bob" DelegationDemo.state
           = (Ok names, DelegationDemo.state) ∧
    ∀ g, g ∈ names ↔
      ∃ k, DelegationDemo.state.(St.db) !! (@user_groups_bucket Demo.env "u-bob", k)
           = Some (RString g).
Proof.
  apply (@user_group_names_complete Demo.env). intros k r Hk.
  assert (map_Forall (λ k r, negb (String.eqb k.1 (@user_groups_bucket Demo.env "u-bob"))
                             || match r with RString _ => true | _ => false end = true)
            DelegationDemo.state.(St.db)) as Hall by (refine (bool_decide_eq_true_1 _ _); vm_compute; reflexivity).
  apply Hall in Hk. cbn [fst] in Hk. rewrite String.eqb_refl in Hk. destruct r; try discriminate Hk.
  eauto.
Defined.

Lemma active_sound_witness : @grant_target Demo.env DelegationDemo.state DelegationDemo.grant.
Proof.
  eapply (@active_sound Demo.env "u-amy" DelegationDemo.state DelegationDemo.state
            [DelegationDemo.grant]).
  - vm_compute. reflexivity.
  - apply list_elem_of_here.
Defined.

Lemma bind_then_valid_witness :
  @Human.target_valid Demo.env DelegationDemo.grant DelegationDemo.state
  = (Ok true, DelegationDemo.state).
Proof.
  eapply (@bind_then_valid Demo.env HelpDesk "user/bob" "u-amy" DelegationDemo.state
            DelegationDemo.state DelegationDemo.grant).
  - intros name uid user Hn Hu.
    assert (map_Forall (λ k r,
      match k.1, r with
      | "usernames", RString uid =>
          match DelegationDemo.state.(St.db) !! ("users", uid) with
          | Some (RUser u) => String.eqb u.(User.id) uid && String.eqb u.(User.username) k.2
          | _ => true
          end
      | _, _ => true
      end = true) DelegationDemo.state.(St.db)) as Hall
      by (refine (bool_decide_eq_true_1 _ _); vm_compute; reflexivity).
    apply Hall in Hn. cbn [fst snd] in Hn. rewrite Hu in Hn. by bools.
  - vm_compute. reflexivity.
Defined.
