(* ===== verification/Agents.v ===== *)
(** * Agent authority (src/src/agent.rs, edition.rs, identity/agent_credentials.rs,
    management/agent_policy.rs)

    An agent acts with the permissions approved for it, limited on every use to
    what its owner may do now: everything approved for an administrator or an
    unowned agent, the owner's live human grants and own account otherwise. *)

From S2P Require Import Prelude Json Model Store Env Provider Jose Delegation.

#[local] Set Warnings "-clear-no-such-hyp".

(** ** Editions (edition.rs) *)

Inductive Target := Essentials | Platform.
#[global] Instance target_eq_dec : EqDecision Target.
Proof. solve_decision. Defined.

(** The default build has the [platform] feature. *)
Definition CURRENT : Target := Platform.

Definition PLATFORM_ACTIONS : list string :=
  ["ldap.search"; "certificate.read"; "certificate.write"; "mtls.read"; "mtls.bind";
   "radius.enroll"; "user.offboard"; "access.read"; "device.enroll"; "ssf.manage";
   "ssf.configure"; "workflow.read"; "workflow.write"].

Definition action_available (action : string) : bool :=
  bool_decide (CURRENT = Platform) || negb (bool_decide (action ∈ PLATFORM_ACTIONS)).

Definition agent_permission_available_for (target : Target) (action resource : string) : bool :=
  (bool_decide (target = Platform) || negb (bool_decide (action ∈ PLATFORM_ACTIONS)))
  && (bool_decide (target = Platform)
      || negb (Str.starts_with resource "workspace/" || Str.starts_with resource "entra/"
               || String.eqb resource "*"
                  && bool_decide (action ∈ ["directory.read"; "directory.sync"]))).
Definition agent_permission_available : string → string → bool :=
  agent_permission_available_for CURRENT.

(** ** Owner authority *)

Definition PERSONAL_ACTIONS : list string :=
  ["profile.read"; "profile.write"; "sessions.read"; "sessions.revoke"; "consents.read";
   "consents.revoke"; "agents.read"; "agents.revoke"; "changes.prepare"].
Definition SELF_RESOURCE : string := "self".

Module OwnerAuthority.
Inductive t :=
| Unowned
| Administrator (username : string)
| Scoped (username : string) (grants : list HumanGrant.t).

Definition of_ {E : Env} (owner : User.t) : tx t :=
  if owner.(User.admin) then mret (Administrator owner.(User.username))
  else
    grants ← Human.active owner.(User.id);
    mret (Scoped owner.(User.username) grants).

Definition own_account (a : t) : option string :=
  match a with
  | Unowned => None
  | Administrator u | Scoped u _ => Some ("user/" +:+ u)
  end.

Definition allows (a : t) (action resource : string) : bool :=
  match a with
  | Unowned | Administrator _ => true
  | Scoped username grants =>
      String.eqb action "state.read" && String.eqb resource "state/revision"
      || bool_decide (action ∈ PERSONAL_ACTIONS)
         && bool_decide (Str.strip_prefix "user/" resource = Some username)
      || existsb (λ g, Human.human_grant_allows g action resource) grants
  end.

Definition resources (a : t) : list string :=
  ["state/revision"] ++ option_list (own_account a)
  ++ match a with Scoped _ grants => HumanGrant.scope <$> grants | _ => [] end.

(** The resources one approved permission stands for. *)
Definition candidates (a : t) (p : Permission.t) : list string :=
  if String.eqb p.(Permission.resource) SELF_RESOURCE
  then match own_account a with
       | None => []
       | Some r => match a with
                   | Scoped _ _ => if String.eqb r "*" then resources a else [r]
                   | _ => [r]
                   end
       end
  else match a with
       | Scoped _ _ => if String.eqb p.(Permission.resource) "*" then resources a
                       else [p.(Permission.resource)]
       | _ => [p.(Permission.resource)]
       end.

(** The inner loop of [limit]: keep what the authority allows, once. *)
Definition add_allowed (a : t) (action : string) (effective : list Permission.t)
    (resource : string) : list Permission.t :=
  let candidate := Permission.mk action resource in
  if allows a action resource && negb (bool_decide (candidate ∈ effective))
  then effective ++ [candidate] else effective.
Definition limit (a : t) (approved : list Permission.t) : list Permission.t :=
  foldl (λ effective p,
    foldl (add_allowed a p.(Permission.action)) effective (candidates a p)) [] approved.

Definition approves (a : t) (p : Permission.t) : bool :=
  let effective := limit a [p] in
  match a with
  | Unowned | Administrator _ => negb (bool_decide (effective = []))
  | Scoped _ _ => negb (String.eqb p.(Permission.resource) "*")
                  && Nat.eqb (length effective) 1
  end.
End OwnerAuthority.

(** ** Principals *)

Module Principal.
Record t := mk {
  id : string;
  agent : bool;
  delegated : bool;
  grants : list HumanGrant.t;
  permissions : list Permission.t;
}.

Definition allows (p : t) (action resource : string) : bool :=
  action_available action
  && (if p.(delegated) then existsb (λ g, Human.human_grant_allows g action resource) p.(grants)
      else if p.(agent) then
        existsb (λ q, agent_permission_available q.(Permission.action) q.(Permission.resource)
                      && String.eqb q.(Permission.action) action
                      && (String.eqb q.(Permission.resource) resource
                          || String.eqb q.(Permission.resource) "*")) p.(permissions)
      else true).

Definition require (p : t) (action resource : string) : Result unit :=
  if allows p action resource then Ok () else Err Error.forbidden.

Definition require_directory_user (p : t) (scope username : string) (user_id : option string) :
    Result unit :=
  if p.(delegated) then
    _ ← require p "directory.sync" scope;
    if bool_decide (user_id = Some p.(id)) then Err Error.forbidden else Ok ()
  else require p "user.write" ("user/" +:+ username).
Definition require_directory_group (p : t) (scope name : string) : Result unit :=
  if p.(delegated) then require p "directory.sync" scope
  else require p "group.members" ("group/" +:+ name).
End Principal.

Section live.
Context {E : Env}.

Definition live_principal (agent : Agent.t) : tx (option Principal.t) :=
  at_ ← now;
  if negb agent.(Agent.enabled) || (agent.(Agent.expires_at) <=? at_) then mret None
  else
    authority ←
      match agent.(Agent.parent_user) with
      | None => mret (Some OwnerAuthority.Unowned)
      | Some id =>
          owner ← get User.t "users" id;
          match owner with
          | Some owner =>
              if owner.(User.enabled) then a ← OwnerAuthority.of_ owner; mret (Some a)
              else mret None
          | None => mret None
          end
      end;
    mret (match authority with
          | None => None
          | Some a =>
              Some (Principal.mk ("agent:" +:+ agent.(Agent.id)) true false []
                      (OwnerAuthority.limit a agent.(Agent.permissions)))
          end).

(** The agent branch of [Core::principal]. *)
Definition agent_principal (token : string) : tx Principal.t :=
  let hash := digest token in
  id ← get string "agent_tokens" hash;
  id ← some_or id Error.unauthorized;
  agent ← get Agent.t "agents" id;
  agent ← some_or agent Error.unauthorized;
  _ ← ensure (String.eqb agent.(Agent.token_hash) hash) Error.unauthorized;
  p ← live_principal agent;
  some_or p Error.unauthorized.

(** [agent_credentials::revoke_owned]. *)
Definition revoke_agent_row (user_id : string) (kv : string * Agent.t) : tx unit :=
  let '(id, agent) := kv in
  if negb (bool_decide (agent.(Agent.parent_user) = Some user_id)) then mret ()
  else
    _ ← remove "agent_tokens" agent.(Agent.token_hash);
    if agent.(Agent.enabled) then put "agents" id (Agent.disable agent) else mret ().
Definition revoke_owned (user_id : string) : tx unit :=
  agents ← list_all Agent.t "agents";
  for_each (revoke_agent_row user_id) agents.

#[global] Instance pure_of_authority o : Pure (OwnerAuthority.of_ o).
Proof. unfold OwnerAuthority.of_. solve_pure. Qed.
#[global] Instance pure_live_principal a : Pure (live_principal a).
Proof. unfold live_principal. solve_pure. Qed.
#[global] Instance pure_agent_principal t : Pure (agent_principal t).
Proof. unfold agent_principal. solve_pure. Qed.
End live.

(** ** Limiting to an authority *)

Section limit.
Implicit Types (a : OwnerAuthority.t) (p q : Permission.t).

(** The approved permission [p] stands for resource [r] under [a]. *)
Definition covers a p (r : string) : Prop :=
  p.(Permission.resource) = r
  ∨ p.(Permission.resource) = "*"
  ∨ p.(Permission.resource) = SELF_RESOURCE ∧ OwnerAuthority.own_account a = Some r.

Lemma candidates_cover a p r : r ∈ OwnerAuthority.candidates a p → covers a p r.
Proof.
  unfold OwnerAuthority.candidates, covers.
  destruct (String.eqb_spec p.(Permission.resource) SELF_RESOURCE) as [Hs|].
  - destruct a as [|u|u gs]; simpl; [set_solver|set_solver|set_solver].
  - destruct a as [|u|u gs]; [set_solver|set_solver|].
    destruct (String.eqb_spec p.(Permission.resource) "*"); set_solver.
Qed.

Lemma elem_of_add_allowed a act eff r q :
  q ∈ OwnerAuthority.add_allowed a act eff r ↔
  q ∈ eff ∨ q = Permission.mk act r ∧ OwnerAuthority.allows a act r = true.
Proof.
  unfold OwnerAuthority.add_allowed. destruct (OwnerAuthority.allows a act r); simpl;
    [|naive_solver].
  destruct (bool_decide_reflect (Permission.mk act r ∈ eff)); simpl; set_solver.
Qed.

Lemma elem_of_add_all a act rs eff q :
  q ∈ foldl (OwnerAuthority.add_allowed a act) eff rs ↔
  q ∈ eff ∨ ∃ r, r ∈ rs ∧ q = Permission.mk act r ∧ OwnerAuthority.allows a act r = true.
Proof.
  revert eff. induction rs as [|r rs IH]; intros eff; simpl; [set_solver|].
  rewrite IH, elem_of_add_allowed. set_solver.
Qed.

(** [limit] keeps exactly the candidates the authority allows. *)
Lemma elem_of_limit a ps q :
  q ∈ OwnerAuthority.limit a ps ↔
  ∃ p, p ∈ ps ∧ p.(Permission.action) = q.(Permission.action)
       ∧ q.(Permission.resource) ∈ OwnerAuthority.candidates a p
       ∧ OwnerAuthority.allows a q.(Permission.action) q.(Permission.resource) = true.
Proof.
  unfold OwnerAuthority.limit.
  enough (∀ eff, q ∈ foldl (λ effective p, foldl (OwnerAuthority.add_allowed a p.(Permission.action))
                              effective (OwnerAuthority.candidates a p)) eff ps ↔
    q ∈ eff ∨ ∃ p, p ∈ ps ∧ p.(Permission.action) = q.(Permission.action)
       ∧ q.(Permission.resource) ∈ OwnerAuthority.candidates a p
       ∧ OwnerAuthority.allows a q.(Permission.action) q.(Permission.resource) = true) as ->
    by set_solver.
  induction ps as [|p ps IH]; intros eff; simpl; [set_solver|].
  rewrite IH, elem_of_add_all. split.
  - intros [[?|(r & Hr & -> & Ha)]|(p' & ? & ?)]; [by left|right; exists p; set_solver|set_solver].
  - intros [?|(p' & [->|Hin]%elem_of_cons & Hact & Hr & Ha)]; [by left; left| |set_solver].
    left; right. exists q.(Permission.resource). rewrite Hact. by destruct q.
Qed.

Lemma limit_sound a ps q :
  q ∈ OwnerAuthority.limit a ps →
  OwnerAuthority.allows a q.(Permission.action) q.(Permission.resource) = true
  ∧ ∃ p, p ∈ ps ∧ p.(Permission.action) = q.(Permission.action)
         ∧ covers a p q.(Permission.resource).
Proof.
  intros (p & Hp & Hact & Hr & Ha)%elem_of_limit. split; [done|].
  exists p. split_and!; [done..|]. by apply candidates_cover.
Qed.
End limit.

Lemma scoped_allows_not_star u gs act :
  (∀ g, g ∈ gs → g.(HumanGrant.scope) ≠ "*") →
  OwnerAuthority.allows (OwnerAuthority.Scoped u gs) act "*" = false.
Proof.
  intros Hg. apply not_true_iff_false. cbn [OwnerAuthority.allows].
  rewrite !orb_true_iff, existsb_exists. intros [[Ha|Ha]|(g & Hin & Ha)]; bools.
  unfold Human.human_grant_allows in Ha. apply orb_true_iff in Ha as [Ha|Ha]; bools.
  eapply Hg; [by apply list_elem_of_In|done].
Qed.

Section authority.
Context {E : Env}.

Lemma grant_target_scope s g : grant_target s g → g.(HumanGrant.scope) ≠ "*".
Proof.
  unfold grant_target. intros Hg Heq. rewrite Heq in Hg.
  destruct g.(HumanGrant.role).
  - destruct Hg as (? & ? & Hs & _). discriminate Hs.
  - destruct Hg as (? & Hs & _). discriminate Hs.
  - discriminate Hg.
  - destruct Hg as [Hs _]. discriminate Hs.
  - destruct Hg as [Hs _]. discriminate Hs.
Qed.

Lemma of_authority_ok owner s a s' :
  OwnerAuthority.of_ owner s = (Ok a, s') →
  s' = s ∧
  if owner.(User.admin) then a = OwnerAuthority.Administrator owner.(User.username)
  else ∃ gs, Human.active owner.(User.id) s = (Ok gs, s)
             ∧ a = OwnerAuthority.Scoped owner.(User.username) gs.
Proof.
  unfold OwnerAuthority.of_. intros Hr. destruct owner.(User.admin).
  - by apply ret_ok in Hr as [-> ->].
  - apply bind_ok in Hr as (gs & s1 & Hg & Hr). pose proof (pure_run _ _ _ _ Hg) as ->.
    apply ret_ok in Hr as [-> ->]. eauto.
Qed.
End authority.

(** ** Revocation of owned agents *)

Section revoke.
Context {E : Env}.

(** An agent credential of [user_id] that still works. *)
Definition owned_enabled (user_id : string) (d : gmap (string * string) row) (k : string) : Prop :=
  ∃ a, d !! ("agents", k) = Some (RAgent a) ∧ a.(Agent.parent_user) = Some user_id
       ∧ a.(Agent.enabled) = true.

Lemma revoke_rows_ok u rows s s' :
  for_each (revoke_agent_row u) rows s = (Ok (), s') →
  NoDup rows.*1 →
  (∀ k a, (k, a) ∈ rows → s.(St.db) !! ("agents", k) = Some (RAgent a)) →
  s'.(St.clock) = s.(St.clock)
  ∧ (∀ k a, (k, a) ∈ rows → a.(Agent.parent_user) = Some u →
       s'.(St.db) !! ("agents", k) = Some (RAgent (Agent.disable a))
       ∨ s'.(St.db) !! ("agents", k) = Some (RAgent a) ∧ a.(Agent.enabled) = false)
  ∧ (∀ k, (∀ a, (k, a) ∈ rows → a.(Agent.parent_user) ≠ Some u) →
       s'.(St.db) !! ("agents", k) = s.(St.db) !! ("agents", k)).
Proof.
  revert s. induction rows as [|[k a] rows IH]; intros s; cbn [for_each].
  { intros [_ ->]%ret_ok _ _. split_and!; [done|set_solver|done]. }
  intros Hr [Hni Hnd]%NoDup_cons Hrows. apply bind_ok in Hr as ([] & s1 & H1 & H2).
  assert (s1.(St.clock) = s.(St.clock)
    ∧ (∀ k', k' ≠ k → s1.(St.db) !! ("agents", k') = s.(St.db) !! ("agents", k'))
    ∧ (a.(Agent.parent_user) ≠ Some u → s1 = s)
    ∧ (a.(Agent.parent_user) = Some u →
         s1.(St.db) !! ("agents", k)
         = Some (RAgent (if a.(Agent.enabled) then Agent.disable a else a))))
    as (Hclk & Hother & Hskip & Hset).
  { pose proof (Hrows k a ltac:(set_solver)) as Ha. unfold revoke_agent_row in H1. tx_crush; bools.
    - done.
    - split_and!; [done| |done|]; intros; rewrite ?lookup_insert_ne by congruence;
        rewrite ?lookup_insert_eq; by rewrite ?lookup_delete_ne by congruence.
    - split_and!; [done| |done|]; intros; by rewrite ?lookup_delete_ne by congruence. }
  apply IH in H2 as (Hclk2 & Hmine & Hnot); [|done|].
  2: { intros k' a' Hin. rewrite Hother; [apply Hrows; set_solver|].
       intros ->. apply Hni, list_elem_of_fmap. by exists (k, a'). }
  assert (s'.(St.db) !! ("agents", k) = s1.(St.db) !! ("agents", k)) as Hk.
  { apply Hnot. intros a' Hin. exfalso. apply Hni, list_elem_of_fmap. by exists (k, a'). }
  split_and!; [congruence| |].
  - intros k' a' [[= -> ->]|Hin]%elem_of_cons Hp; [|by apply Hmine].
    rewrite Hk, Hset by done. destruct (Agent.enabled a) eqn:Ea; [by left|by right].
  - intros k' Hk'. destruct (decide (k' = k)) as [->|].
    + rewrite Hk. rewrite Hskip; [done|]. apply Hk'. set_solver.
    + rewrite Hnot by set_solver. by apply Hother.
Qed.
End revoke.

(** ** Properties *)

Section properties.
Context {E : Env}.

(** An owned agent never exceeds its owner.  When the owner is not an
    administrator, whatever action on whatever resource the agent's live
    principal allows is one the owner's own live authority allows at that
    moment (a personal action on the owner's account, the configuration
    revision, or a live human grant of the owner), and it is covered by a
    permission approved for the agent. *)
Theorem agent_within_owner (agent : Agent.t) (uid : string) (owner : User.t)
    (s s' : St.t) (p : Principal.t) (action resource : string) :
  agent.(Agent.parent_user) = Some uid →
  s.(St.db) !! ("users", uid) = Some (RUser owner) → owner.(User.admin) = false →
  live_principal agent s = (Ok (Some p), s') →
  Principal.allows p action resource = true →
  ∃ gs, Human.active owner.(User.id) s = (Ok gs, s)
    ∧ OwnerAuthority.allows (OwnerAuthority.Scoped owner.(User.username) gs) action resource = true
    ∧ ∃ q, q ∈ agent.(Agent.permissions) ∧ q.(Permission.action) = action
           ∧ covers (OwnerAuthority.Scoped owner.(User.username) gs) q resource.
Proof.
  intros Hp Hu Hadm Hl Ha. unfold live_principal in Hl. rewrite Hp in Hl. tx_crush.
  match goal with H : OwnerAuthority.of_ _ _ = _ |- _ =>
    apply of_authority_ok in H as [-> Ho] end.
  rewrite Hadm in Ho. destruct Ho as (gs & Hgs & ->). exists gs. split; [done|].
  unfold Principal.allows in Ha. simpl in Ha. apply existsb_exists in Ha as (q & Hq & Hb). bools.
  apply list_elem_of_In, limit_sound in Hq as [Hall (q' & Hq' & Hact & Hcov)].
  assert (q.(Permission.resource) ≠ "*") as Hne.
  { intros Heq. rewrite Heq, scoped_allows_not_star in Hall; [done|].
    intros g Hg. eapply grant_target_scope. by eapply active_live. }
  assert (q.(Permission.resource) = resource) as <-.
  { match goal with H : _ || _ = true |- _ =>
      apply orb_true_iff in H as [H|H]; by apply String.eqb_eq in H end. }
  split; [done|]. eauto.
Qed.

(** A permission approved for an agent of someone who is not an
    administrator stays exact: whatever authority its owner has later, even
    after a promotion to administrator, limiting it never yields a wildcard
    resource. *)
Theorem approved_stays_exact (u : string) (gs : list HumanGrant.t) (p q : Permission.t)
    (later : OwnerAuthority.t) :
  OwnerAuthority.approves (OwnerAuthority.Scoped u gs) p = true →
  q ∈ OwnerAuthority.limit later [p] →
  q.(Permission.action) = p.(Permission.action) ∧ q.(Permission.resource) ≠ "*"
  ∧ (q.(Permission.resource) = p.(Permission.resource)
     ∨ p.(Permission.resource) = SELF_RESOURCE
       ∧ OwnerAuthority.own_account later = Some q.(Permission.resource)).
Proof.
  unfold OwnerAuthority.approves. intros Ha Hq. bools.
  apply limit_sound in Hq as [_ (p' & ->%list_elem_of_singleton & Hact & Hc)].
  split; [done|]. destruct Hc as [Hc|[Hc|[Hs Hc]]]; [|done|].
  - rewrite <-Hc. auto.
  - split; [|auto]. intros Heq. rewrite Heq in Hc. by destruct later.
Qed.

(** A lost grant takes effect at once.  With fewer live grants the owner's
    authority is smaller, and the permissions of every agent limited to it are
    a subset of what they were. *)
Theorem limit_monotone (u : string) (gs gs' : list HumanGrant.t) (approved : list Permission.t) :
  gs ⊆ gs' →
  OwnerAuthority.limit (OwnerAuthority.Scoped u gs) approved
  ⊆ OwnerAuthority.limit (OwnerAuthority.Scoped u gs') approved.
Proof.
  intros Hsub q. rewrite !elem_of_limit. intros (p & Hp & Hact & Hr & Ha).
  exists p. split_and!; [done..| |].
  - unfold OwnerAuthority.candidates in *. cbn [OwnerAuthority.own_account] in *.
    destruct (String.eqb _ SELF_RESOURCE); [exact Hr|].
    destruct (String.eqb _ "*"); [|exact Hr]. unfold OwnerAuthority.resources in *.
    apply elem_of_app in Hr as [Hr|Hr]; apply elem_of_app; [by left|right].
    apply elem_of_app in Hr as [Hr|Hr]; apply elem_of_app; [by left|right].
    apply list_elem_of_fmap in Hr as (g & -> & Hg). apply list_elem_of_fmap. eauto.
  - cbn [OwnerAuthority.allows] in *. rewrite !orb_true_iff, existsb_exists in *.
    destruct Ha as [Ha|(g & Hg & Ha)]; [by left|right]. exists g. split; [|done].
    apply list_elem_of_In, Hsub. by apply list_elem_of_In.
Qed.

(** Disabling an account ends its agents.  After [revoke_owned] for a
    user, no agent credential owned by that user authenticates any more, while
    the agents of other owners keep their records. *)
Theorem revoke_owned_ends_agents (u : string) (s s' : St.t) :
  revoke_owned u s = (Ok (), s') →
  (∀ token p s'' id a,
     s'.(St.db) !! ("agent_tokens", digest token) = Some (RString id) →
     s'.(St.db) !! ("agents", id) = Some (RAgent a) →
     agent_principal token s' = (Ok p, s'') → a.(Agent.parent_user) ≠ Some u)
  ∧ (∀ k a, s.(St.db) !! ("agents", k) = Some (RAgent a) → a.(Agent.parent_user) ≠ Some u →
       s'.(St.db) !! ("agents", k) = Some (RAgent a)).
Proof.
  unfold revoke_owned. intros Hr. apply bind_ok in Hr as (rows & s1 & [-> Hrows]%list_all_ok & Hr).
  assert (∀ k a, (k, a) ∈ rows ↔ s.(St.db) !! ("agents", k) = Some (RAgent a)) as Hin.
  { intros k a. rewrite <-elem_of_bucket_rows, Hrows, list_elem_of_fmap. split.
    - intros Hk. by exists (k, a).
    - by intros ([k' a'] & [= <- <-] & Hk). }
  apply revoke_rows_ok in Hr as (_ & Hmine & Hnot); [| |by intros k a ?%Hin].
  2: { pose proof (bucket_rows_nodup "agents" s.(St.db)) as Hn. rewrite Hrows in Hn.
       rewrite <-list_fmap_compose in Hn. exact Hn. }
  assert (∀ k a, s'.(St.db) !! ("agents", k) = Some (RAgent a) →
            a.(Agent.parent_user) = Some u → a.(Agent.enabled) = false) as Hdead.
  { intros k a Hk Ho. destruct (s.(St.db) !! ("agents", k)) as [[]|] eqn:Er.
    all: try (rewrite Hnot in Hk by (intros a' Hk'%Hin; congruence); congruence).
    destruct (decide (r.(Agent.parent_user) = Some u)) as [Hu|Hu].
    - destruct (Hmine k r) as [Hd|[Hd He]]; [by apply Hin|done|..]; by simplify_eq.
    - rewrite Hnot in Hk by (intros a' Hk'%Hin; congruence). congruence. }
  split.
  - intros token p s'' id a Ht Ha Hp Hown. pose proof (Hdead _ _ Ha Hown) as Hoff.
    unfold agent_principal in Hp. tx_crush. unfold live_principal in *. rewrite Hoff in *.
    by tx_crush.
  - intros k a Hk Ho. rewrite Hnot; [done|]. intros a' Hk'%Hin. congruence.
Qed.
End properties.

(** ** Concrete agents *)

Module AgentDemo.
#[local] Existing Instance Demo.env.

(** Amy is a help-desk operator for Bob; her agent was approved for her whole
    scope of [user.read] and for her own sessions. *)
Definition agent : Agent.t :=
  Agent.mk "a1" [Permission.mk "user.read" "*"; Permission.mk "sessions.read" "self";
                 Permission.mk "client.write" "client/crm"]
    5000 100 true "#ri_agent_x" (Some "u-amy") (Some "u-root").
Definition other : Agent.t := Agent.mk "a2" [] 5000 100 true "#ri_agent_y" (Some "u-bob") None.
Definition state : St.t := St.set_db DelegationDemo.state
  (<[("agents", "a1") := RAgent agent]>
   (<[("agents", "a2") := RAgent other]>
    (<[("agent_tokens", "#ri_agent_x") := RString "a1"]> DelegationDemo.state.(St.db)))).
Definition principal : Principal.t :=
  Principal.mk "agent:a1" true false []
    [Permission.mk "user.read" "user/bob"; Permission.mk "sessions.read" "user/amy"].

Example principal_runs : agent_principal "ri_agent_x" state = (Ok principal, state).
Proof. vm_compute. reflexivity. Qed.
Definition revoked : St.t := (revoke_owned "u-amy" state).2.
End AgentDemo.

Lemma agent_within_owner_witness :
  ∃ gs, @Human.active Demo.env "u-amy" AgentDemo.state = (Ok gs, AgentDemo.state)
    ∧ OwnerAuthority.allows (OwnerAuthority.Scoped "amy" gs) "user.read" "user/bob" = true
    ∧ ∃ q, q ∈ AgentDemo.agent.(Agent.permissions) ∧ q.(Permission.action) = "user.read"
           ∧ covers (OwnerAuthority.Scoped "amy" gs) q "user/bob".
Proof.
  apply (@agent_within_owner Demo.env AgentDemo.agent "u-amy" (DelegationDemo.user "u-amy" "amy")
           AgentDemo.state AgentDemo.state AgentDemo.principal);
    [reflexivity | reflexivity | reflexivity | vm_compute; reflexivity | vm_compute; reflexivity].
Defined.

Lemma approved_stays_exact_witness : "user/amy" ≠ "*".
Proof.
  refine (proj1 (proj2 (approved_stays_exact "amy" [] (Permission.mk "sessions.read" "self")
           (Permission.mk "sessions.read" "user/amy") (OwnerAuthority.Administrator "amy") _ _))).
  - vm_compute. reflexivity.
  - vm_compute. apply list_elem_of_here.
Defined.

Lemma limit_monotone_witness :
  OwnerAuthority.limit (OwnerAuthority.Scoped "amy" []) AgentDemo.agent.(Agent.permissions)
  ⊆ OwnerAuthority.limit (OwnerAuthority.Scoped "amy" [DelegationDemo.grant])
      AgentDemo.agent.(Agent.permissions).
Proof. apply (limit_monotone "amy" [] [DelegationDemo.grant]). by intros ? ?%elem_of_nil. Defined.

Lemma revoke_owned_ends_agents_witness :
  AgentDemo.revoked.(St.db) !! ("agents", "a2") = Some (RAgent AgentDemo.other).
Proof.
  refine (proj2 (@revoke_owned_ends_agents Demo.env "u-amy" AgentDemo.state AgentDemo.revoked _)
            "a2" AgentDemo.other _ _).
  - vm_compute. reflexivity.
  - vm_compute. reflexivity.
  - intros [=].
Defined.
