(* ===== verification/Assurance.v ===== *)
(** * Authentication assurance (src/src/assurance.rs)

    The claims parameter of an authorization request, the scopes it adds, the
    authentication context of an identity, when a request needs a step-up, and
    the check that a grant's requirements are met. *)

From S2P Require Import Prelude Json Model Store Env.

#[local] Set Warnings "-clear-no-such-hyp".

Module Assurance.
Definition PASSWORD : string := "urn:riauth:acr:password".
Definition MFA : string := "urn:riauth:acr:mfa".
Definition FEDERATED : string := "urn:riauth:acr:federated".
(** [radius::eap::CERTIFICATE_ACR]. *)
Definition CERTIFICATE_ACR : string := "urn:riauth:acr:certificate".
Definition SUPPORTED : list string := [PASSWORD; MFA; FEDERATED].
Definition PROTOCOL_CLAIMS : list string := ["sub"; "acr"; "amr"; "auth_time"].

(** [id_token.iter().chain(&userinfo)]. *)
Definition entries (r : ClaimsRequest.t) : list (string * option Requirement.t) :=
  btree_entries r.(ClaimsRequest.id_token) ++ btree_entries r.(ClaimsRequest.userinfo).

Definition entry_valid (e : string * option Requirement.t) : Result unit :=
  if Str.is_empty e.1 || (128 <? Str.len e.1) then Err (Error.bad "Invalid requested claim name")
  else match e.2 with
       | Some r =>
           if bool_decide (is_Some r.(Requirement.value)) && bool_decide (is_Some r.(Requirement.values))
              || match r.(Requirement.values) with
                 | Some v => Nat.eqb (length v) 0 || Nat.ltb 32 (length v)
                 | None => false
                 end
           then Err (Error.bad "Claim requires one value or a nonempty bounded values list")
           else Ok ()
       | None => Ok ()
       end.

Fixpoint all_valid (l : list (string * option Requirement.t)) : Result unit :=
  match l with
  | [] => Ok ()
  | e :: l => _ ← entry_valid e; all_valid l
  end.

Section assurance.
Context {E : Env}.

Definition claims_request (value : option string) : Result ClaimsRequest.t :=
  match value with
  | None => Ok ClaimsRequest.default
  | Some value =>
      if 8192 <? Str.len value then Err (Error.bad "Claims request exceeds 8 KiB")
      else
        request ← ok_or (claims_request_parse value) (Error.bad "Invalid claims request");
        if Nat.ltb 64 (size request.(ClaimsRequest.id_token) + size request.(ClaimsRequest.userinfo))
        then Err (Error.bad "Too many requested claims")
        else
          _ ← all_valid (entries request);
          Ok request
  end.

(** The scope a requested claim needs; [None] for protocol claims and for
    claims no mapping provides. *)
Definition claim_scope (client : Client.t) (name : string) : option string :=
  if bool_decide (name ∈ ["sub"; "auth_time"; "acr"; "amr"]) then None
  else if bool_decide (name ∈ ["name"; "preferred_username"]) then Some "profile"
  else if bool_decide (name ∈ ["email"; "email_verified"]) then Some "email"
  else if String.eqb name "groups" then Some "groups"
  else
    match List.find (λ m, String.eqb m.(ClaimMapping.claim) name)
            client.(Client.settings).(ProviderSettings.claim_mappings) with
    | Some m => Some m.(ClaimMapping.scope)
    | None =>
        policy ← client.(Client.settings).(ProviderSettings.policy).(Policy.conditional);
        m ← List.find (λ m, String.eqb m.(ConditionalClaimMapping.mapping).(ClaimMapping.claim) name)
              policy.(ConditionalPolicy.claim_mappings);
        Some m.(ConditionalClaimMapping.mapping).(ClaimMapping.scope)
    end.

Definition essential (r : option Requirement.t) : bool :=
  match r with Some r => r.(Requirement.essential) | None => false end.

Fixpoint add_scopes (client : Client.t) (l : list (string * option Requirement.t))
    (scopes : gset string) : Result (gset string) :=
  match l with
  | [] => Ok scopes
  | (name, requirement) :: l =>
      match claim_scope client name with
      | Some scope =>
          if bool_decide (scope ∈ client.(Client.scopes))
          then add_scopes client l ({[ scope ]} ∪ scopes)
          else Err (Error.oauth "invalid_scope" "Requested claim is outside registered scopes")
      | None =>
          if negb (bool_decide (name ∈ ["sub"; "auth_time"; "acr"; "amr"])) && essential requirement
          then Err (Error.bad "Unsupported essential claim")
          else add_scopes client l scopes
      end
  end.

Definition requested_scopes (client : Client.t) (request : Authorization.t)
    (scopes : gset string) : Result (gset string) :=
  claims ← claims_request request.(Authorization.claims);
  scopes ← add_scopes client (entries claims) scopes;
  if match request.(Authorization.acr_values) with
     | Some v => (1024 <? Str.len v) || Nat.ltb 16 (length (Str.split_whitespace v))
     | None => false
     end
  then Err (Error.bad "Too many assurance values")
  else Ok scopes.

Definition actual (i : Identity.t) : string :=
  if i.(Identity.mfa) then MFA
  else if match i.(Identity.source) with
          | Some source => negb (Str.starts_with source.(SourceIdentity.id) "ldap/")
          | None => false
          end then FEDERATED
  else if existsb (λ m, String.eqb m "x509" || String.eqb m "cert") i.(Identity.amr)
  then CERTIFICATE_ACR
  else PASSWORD.

Definition matches_value (r : Requirement.t) (v : json) : bool :=
  match r.(Requirement.value) with Some w => Json.eqb w v | None => true end
  && match r.(Requirement.values) with Some vs => existsb (Json.eqb v) vs | None => true end.

(** The assurance values a request accepts: its own, or the client's. *)
Definition accepted (client : Client.t) (acr_values : option string) : list string :=
  match acr_values with
  | Some v => Str.split_whitespace v
  | None => client.(Client.settings).(ProviderSettings.default_acr_values)
  end.
Definition acr_met (values : list string) (i : Identity.t) : bool :=
  match values with [] => true | _ => existsb (String.eqb (actual i)) values end.

Definition essential_acr_unmet (i : Identity.t) (claims : gmap string (option Requirement.t)) :
    bool :=
  match claims !! "acr" with
  | Some (Some r) => r.(Requirement.essential) && negb (matches_value r (JStr (actual i)))
  | _ => false
  end.

Definition needs_step_up (client : Client.t) (request : Authorization.t) (i : Identity.t) : bool :=
  client.(Client.require_mfa) && negb i.(Identity.mfa)
  || negb (acr_met (accepted client request.(Authorization.acr_values)) i)
  || match claims_request request.(Authorization.claims) with
     | Ok c => existsb (essential_acr_unmet i) [c.(ClaimsRequest.id_token); c.(ClaimsRequest.userinfo)]
     | Err _ => false
     end.

Definition unmet (message : string) : Error.t :=
  Error.oauth "unmet_authentication_requirements" message.

(** The value a requested claim has for this identity. *)
Definition claim_value (i : Identity.t) (claims : json) (name : string) : json :=
  if String.eqb name "acr" then JStr (actual i)
  else if String.eqb name "auth_time"
  then (if i.(Identity.auth_time) =? 0 then JNull else JNum i.(Identity.auth_time))
  else if String.eqb name "amr" then Json.strs (Identity.authentication_methods i)
  else Json.index claims name.

Fixpoint enforce_entries (client : Client.t) (i : Identity.t) (request : ClaimsRequest.t)
    (claims : json) (l : list (string * option Requirement.t)) : Result unit :=
  match l with
  | [] => Ok ()
  | (name, requirement) :: l =>
      match requirement with
      | None => enforce_entries client i request claims l
      | Some r =>
          if negb r.(Requirement.essential) then enforce_entries client i request claims l
          else
            let value := claim_value i claims name in
            if Json.is_null value || negb (matches_value r value)
            then Err (unmet "An essential claim cannot be satisfied")
            else if client.(Client.settings).(ProviderSettings.userinfo_only)
                    && bool_decide (is_Some (request.(ClaimsRequest.id_token) !! name))
                    && negb (bool_decide (name ∈ PROTOCOL_CLAIMS))
            then Err (unmet "Provider requires this claim to be delivered through UserInfo")
            else enforce_entries client i request claims l
      end
  end.

Definition enforce (client : Client.t) (i : Identity.t) (acr_values : option string)
    (request : ClaimsRequest.t) (claims : json) : Result unit :=
  if negb (acr_met (accepted client acr_values) i)
  then Err (unmet "Authenticate with a requested assurance method")
  else enforce_entries client i request claims (entries request).

Definition add_protocol_claim (i : Identity.t) (claims : json) (name : string) : json :=
  if String.eqb name "acr" then Json.set name (JStr (actual i)) claims
  else if String.eqb name "auth_time"
  then (if i.(Identity.auth_time) =? 0 then claims
        else Json.set name (JNum i.(Identity.auth_time)) claims)
  else if String.eqb name "amr" then Json.set name (Json.strs (Identity.authentication_methods i)) claims
  else claims.
Definition add_protocol_claims (claims : json) (request : ClaimsRequest.t) (i : Identity.t) : json :=
  foldl (add_protocol_claim i) claims (btree_iter (dom request.(ClaimsRequest.userinfo))).

(** ** Lemmas *)

Lemma enforce_entries_ok client i request claims l :
  enforce_entries client i request claims l = Ok () →
  ∀ name r, (name, Some r) ∈ l → r.(Requirement.essential) = true →
    claim_value i claims name ≠ JNull ∧ matches_value r (claim_value i claims name) = true
    ∧ (client.(Client.settings).(ProviderSettings.userinfo_only) = true →
       is_Some (request.(ClaimsRequest.id_token) !! name) → name ∈ PROTOCOL_CLAIMS).
Proof.
  induction l as [|[n [r0|]] l IH]; cbn [enforce_entries]; intros Hr name r Hin Hes.
  - by apply elem_of_nil in Hin.
  - destruct r0.(Requirement.essential) eqn:Ee; simpl in Hr.
    + destruct (Json.is_null (claim_value i claims n)) eqn:En; [done|].
      destruct (matches_value r0 (claim_value i claims n)) eqn:Em; [|done]. simpl in Hr.
      destruct (_ && _ && _) eqn:Eu; [done|].
      apply elem_of_cons in Hin as [[= -> ->]|Hin]; [|by apply IH].
      split_and!; [by destruct (claim_value i claims n)|done|]. intros Hu Hid.
      rewrite Hu, bool_decide_true in Eu by done. simpl in Eu. by bools.
    + apply elem_of_cons in Hin as [[= -> ->]|Hin]; [congruence|by apply IH].
  - apply elem_of_cons in Hin as [[=]|Hin]. by apply IH.
Qed.

Lemma enforce_entries_complete client i request claims l :
  (∀ name r, (name, Some r) ∈ l → r.(Requirement.essential) = true →
    claim_value i claims name ≠ JNull ∧ matches_value r (claim_value i claims name) = true
    ∧ name ∈ PROTOCOL_CLAIMS) →
  enforce_entries client i request claims l = Ok ().
Proof.
  induction l as [|[n [r0|]] l IH]; cbn [enforce_entries]; intros Hl; [done| |].
  - destruct r0.(Requirement.essential) eqn:Ee; simpl; [|apply IH; set_solver].
    destruct (Hl n r0) as (Hn & Hm & Hp); [set_solver|done|]. rewrite Hm, (bool_decide_eq_true_2 (n ∈ PROTOCOL_CLAIMS)) by done.
    rewrite andb_false_r. destruct (claim_value i claims n); try done; simpl; apply IH; set_solver.
  - apply IH. set_solver.
Qed.

Lemma add_scopes_ok client l scopes r :
  add_scopes client l scopes = Ok r → scopes ⊆ client.(Client.scopes) →
  scopes ⊆ r ∧ r ⊆ client.(Client.scopes)
  ∧ ∀ name o sc, (name, o) ∈ l → claim_scope client name = Some sc → sc ∈ r.
Proof.
  revert scopes. induction l as [|[n o] l IH]; intros scopes; cbn [add_scopes].
  { intros [= <-] Hs. set_solver. }
  destruct (claim_scope client n) as [sc|] eqn:Ec.
  - destruct (bool_decide_reflect (sc ∈ client.(Client.scopes))); [|done].
    intros Hr Hs. apply IH in Hr as (H1 & H2 & H3); [|set_solver].
    split_and!; [set_solver|done|]. intros name o' sc' [[= -> ->]|Hin]%elem_of_cons He; [|eauto].
    set_solver.
  - case_match; [done|]. intros Hr Hs. apply IH in Hr as (H1 & H2 & H3); [|done].
    split_and!; [done|done|]. intros name o' sc' [[= -> ->]|Hin]%elem_of_cons He; [congruence|eauto].
Qed.

Lemma requested_scopes_ok client request scopes r :
  requested_scopes client request scopes = Ok r → scopes ⊆ client.(Client.scopes) →
  scopes ⊆ r ∧ r ⊆ client.(Client.scopes).
Proof.
  unfold requested_scopes. intros Hr Hs.
  destruct (claims_request _) as [c|]; [|done]. simpl in Hr.
  destruct (add_scopes client (entries c) scopes) as [r'|] eqn:Ea; [|done]. simpl in Hr.
  destruct (match Authorization.acr_values request with Some _ => _ | None => _ end);
    simplify_eq.
  apply add_scopes_ok in Ea as (? & ? & _); done.
Qed.
End assurance.
End Assurance.

(** ** Properties *)

Section properties.
Context {E : Env}.

(** What an accepted grant's assurance means.  When [enforce] accepts, the
    authentication context of the identity is one of the values the request
    (or, without any, the client) asks for, and every claim requested as
    essential is present with a value the request admits. *)
Theorem enforce_sound (client : Client.t) (i : Identity.t) (acr : option string)
    (request : ClaimsRequest.t) (claims : json) :
  Assurance.enforce client i acr request claims = Ok () →
  (Assurance.accepted client acr ≠ [] →
     Assurance.actual i ∈ Assurance.accepted client acr)
  ∧ (∀ name r,
       request.(ClaimsRequest.id_token) !! name = Some (Some r)
       ∨ request.(ClaimsRequest.userinfo) !! name = Some (Some r) →
       r.(Requirement.essential) = true →
       Assurance.claim_value i claims name ≠ JNull
       ∧ Assurance.matches_value r (Assurance.claim_value i claims name) = true).
Proof.
  unfold Assurance.enforce. intros He.
  destruct (Assurance.acr_met _ _) eqn:Ea; [|done]. simpl in He. split.
  - unfold Assurance.acr_met in Ea. destruct (Assurance.accepted client acr); [done|]. intros _.
    apply existsb_exists in Ea as (x & Hin & ->%String.eqb_eq). by apply list_elem_of_In.
  - intros name r Hr Hes.
    destruct (Assurance.enforce_entries_ok _ _ _ _ _ He name r) as (? & ? & _); [|done|done].
    unfold Assurance.entries. rewrite elem_of_app, !elem_of_btree_entries. done.
Qed.

(** Step-up and enforcement agree.  A session that [needs_step_up] lets
    through meets the assurance requirements when the code is issued: the
    enforcement does not refuse it, as long as the only claims requested as
    essential are the authentication context, the methods and a known
    authentication time without a required value. *)
Theorem no_step_up_then_enforced (client : Client.t) (request : Authorization.t)
    (i : Identity.t) (req : ClaimsRequest.t) (claims : json) :
  Assurance.needs_step_up client request i = false →
  Assurance.claims_request request.(Authorization.claims) = Ok req →
  (∀ name r,
     req.(ClaimsRequest.id_token) !! name = Some (Some r)
     ∨ req.(ClaimsRequest.userinfo) !! name = Some (Some r) →
     r.(Requirement.essential) = true →
     name = "acr"
     ∨ (name = "amr" ∨ name = "auth_time" ∧ i.(Identity.auth_time) ≠ 0)
       ∧ r.(Requirement.value) = None ∧ r.(Requirement.values) = None) →
  Assurance.enforce client i request.(Authorization.acr_values) req claims = Ok ().
Proof.
  unfold Assurance.needs_step_up, Assurance.enforce. intros Hn Hc Hall. rewrite Hc in Hn.
  apply orb_false_iff in Hn as [[_ Hacr]%orb_false_iff Hes].
  apply orb_false_iff in Hes as [Hid [Hui _]%orb_false_iff].
  apply negb_false_iff in Hacr. rewrite Hacr. cbn [negb].
  apply Assurance.enforce_entries_complete. intros name r Hin Hess.
  unfold Assurance.entries in Hin. rewrite elem_of_app, !elem_of_btree_entries in Hin.
  destruct (Hall name r Hin Hess) as [->|[[->|[-> Ht]] [Hv Hvs]]].
  - split_and!; [done| |set_solver]. unfold Assurance.essential_acr_unmet in Hid, Hui.
    destruct Hin as [Hin|Hin]; [rewrite Hin, Hess in Hid|rewrite Hin, Hess in Hui]; simpl in *;
      by bools.
  - split_and!; [done| |set_solver]. unfold Assurance.matches_value. by rewrite Hv, Hvs.
  - unfold Assurance.matches_value. rewrite Hv, Hvs. split_and!; [|done|set_solver].
    unfold Assurance.claim_value. simpl. by destruct (Z.eqb_spec i.(Identity.auth_time) 0).
Qed.

(** The claims parameter never takes a request beyond the client's
    registration: the scopes it results in contain the requested ones and are
    still registered for the client. *)
Theorem requested_scopes_registered (client : Client.t) (request : Authorization.t)
    (scopes r : gset string) :
  scopes ⊆ client.(Client.scopes) →
  Assurance.requested_scopes client request scopes = Ok r →
  scopes ⊆ r ∧ r ⊆ client.(Client.scopes).
Proof. intros Hs Hr. by eapply Assurance.requested_scopes_ok. Qed.
End properties.

(** ** Concrete requests *)

Module AssuranceDemo.
#[local] Existing Instance Demo.env.

Definition client : Client.t :=
  Client.mk "crm" "CRM" (Some "#s3cret") ["https://crm.test"]
    {["openid"; "profile"; "email"; "offline_access"]} ∅ true true false ProviderSettings.default.
Definition identity : Identity.t := Identity.mk ["pwd"; "otp"] None "u-amy" 1 true 900 "sess-1".
Definition requirement : Requirement.t :=
  Requirement.mk true None (Some [JStr Assurance.MFA; JStr Assurance.FEDERATED]).
Definition claims : ClaimsRequest.t := ClaimsRequest.mk {[ "acr" := Some requirement ]} ∅.
Definition request : Authorization.t :=
  Authorization.mk None None None (Some Assurance.MFA) None None "code" "crm" "https://crm.test"
    "openid" None None "" "S256" None None None None None None.
End AssuranceDemo.

Lemma enforce_sound_witness :
  Assurance.actual AssuranceDemo.identity ∈ [Assurance.MFA].
Proof.
  refine (proj1 (enforce_sound AssuranceDemo.client AssuranceDemo.identity (Some Assurance.MFA)
                   AssuranceDemo.claims JNull _) _).
  - vm_compute. reflexivity.
  - intros [=].
Defined.

Lemma no_step_up_then_enforced_witness :
  Assurance.enforce AssuranceDemo.client AssuranceDemo.identity (Some Assurance.MFA)
    ClaimsRequest.default JNull = Ok ().
Proof.
  apply (@no_step_up_then_enforced Demo.env AssuranceDemo.client AssuranceDemo.request).
  - vm_compute. reflexivity.
  - reflexivity.
  - intros name r [H|H]; cbn [ClaimsRequest.default ClaimsRequest.id_token ClaimsRequest.userinfo] in H;
      by rewrite lookup_empty in H.
Defined.

Lemma requested_scopes_registered_witness :
  {["openid"]} ⊆ ({["openid"]} : gset string)
  ∧ {["openid"]} ⊆ AssuranceDemo.client.(Client.scopes).
Proof.
  apply (@requested_scopes_registered Demo.env AssuranceDemo.client AssuranceDemo.request).
  - refine (bool_decide_eq_true_1 _ _). vm_compute. reflexivity.
  - vm_compute. reflexivity.
Defined.
