(* ===== verification/Claims.v ===== *)
(** * Claim policy (src/src/claims.rs, model/claims.rs, assembly/claims.rs,
    assembly/source_identity.rs)

    Who may use a client with which scopes (rules and conditional predicates
    over server-held facts), which claims a token carries, how a policy and its
    mappings are validated at registration, and the simulation that answers what
    the policy would decide without live proofs. *)

From S2P Require Import Prelude Json Model Store Env Provider Jose Delegation Assurance.

#[local] Set Warnings "-clear-no-such-hyp".

(** ** Predicates *)

Section predicate_ind.
Context (P : Predicate → Prop).
Hypothesis Happ : ∀ id, P (Application id).
Hypothesis Hgrp : ∀ g, P (GroupMember g).
Hypothesis Hsrc : ∀ s, P (VerifiedSource s).
Hypothesis Hprf : ∀ p a, P (ProofFresh p a).
Hypothesis Hass : ∀ l, P (Assurance l).
Hypothesis Hdev : ∀ a, P (ApprovedDevice a).
Hypothesis Hall : ∀ l, Forall P l → P (All l).
Hypothesis Hany : ∀ l, Forall P l → P (Any l).
Hypothesis Hnot : ∀ c, P c → P (Not c).

Fixpoint predicate_induction (p : Predicate) : P p :=
  let go := fix go (l : list Predicate) : Forall P l :=
    match l with
    | [] => List.Forall_nil _
    | p :: l => List.Forall_cons _ _ _ (predicate_induction p) (go l)
    end in
  match p with
  | Application id => Happ id
  | GroupMember g => Hgrp g
  | VerifiedSource s => Hsrc s
  | ProofFresh p a => Hprf p a
  | Assurance l => Hass l
  | ApprovedDevice a => Hdev a
  | All l => Hall l (go l)
  | Any l => Hany l (go l)
  | Not c => Hnot c (predicate_induction c)
  end.
End predicate_ind.

(** The trait [PredicateFacts]. *)
Class PredicateFacts (F : Type) := {
  application : F → string → bool;
  group_member : F → string → bool;
  verified_source : F → string → bool;
  proof_fresh : F → AuthenticationProof → Z → bool;
  assurance : F → AssuranceLevel → bool;
  approved_device : F → Z → bool;
}.

Fixpoint evaluate {F} `{PredicateFacts F} (facts : F) (p : Predicate) : bool :=
  match p with
  | Application id => application facts id
  | GroupMember group => group_member facts group
  | VerifiedSource source => verified_source facts source
  | ProofFresh proof max_age => proof_fresh facts proof max_age
  | Assurance level => assurance facts level
  | ApprovedDevice max_age => approved_device facts max_age
  | All preds => forallb (evaluate facts) preds
  | Any preds => existsb (evaluate facts) preds
  | Not condition => negb (evaluate facts condition)
  end.

Definition acr_of_level (l : AssuranceLevel) : string :=
  match l with
  | LevelPassword => Assurance.PASSWORD
  | LevelMfa => Assurance.MFA
  | LevelFederated => Assurance.FEDERATED
  | LevelCertificate => Assurance.CERTIFICATE_ACR
  end.

(** ** Trusted facts *)

Module TrustedPredicateFacts.
Record t := mk {
  client : Client.t;
  identity : Identity.t;
  groups : gset string;
  source : option string;
  device_verified_at : option Z;
  at_ : Z;
}.

Definition proof_is_fresh (f : t) (proof : AuthenticationProof) (max_age : Z) : bool :=
  let i := f.(identity) in
  let method m := bool_decide (i.(Identity.source) = None)
                  && existsb (String.eqb m) (Identity.authentication_methods i) in
  (0 <? i.(Identity.auth_time)) && (i.(Identity.auth_time) <=? f.(at_))
  && (f.(at_) - i.(Identity.auth_time) <=? max_age)
  && match proof with
     | ProofPassword => method "pwd"
     | ProofPasskey => method "webauthn"
     | ProofSource => bool_decide (is_Some f.(source))
     end.

#[global] Instance facts : PredicateFacts t := {|
  application f id := String.eqb f.(client).(Client.id) id;
  group_member f g := bool_decide (g ∈ f.(groups));
  verified_source f s := bool_decide (f.(source) = Some s);
  proof_fresh := proof_is_fresh;
  assurance f l := String.eqb (Assurance.actual f.(identity)) (acr_of_level l);
  approved_device f max_age :=
    match f.(device_verified_at) with Some v => f.(at_) - v <=? max_age | None => false end;
|}.
End TrustedPredicateFacts.

Section sources.
Context {E : Env}.

(** [source::enabled] and [Source::fingerprint]. *)
Definition enabled_source (id : string) : tx Source.t :=
  s ← get Source.t "sources" id;
  some_or (match s with
           | Some s => if s.(Source.enabled) then Some s else None
           | None => None
           end) (Error.missing "Enabled source not found").
Definition source_fingerprint (s : Source.t) : string := digest (source_string s).

(** [assembly::source_validate_identity]. *)
Definition source_validate_identity (identity : Identity.t) : tx unit :=
  match identity.(Identity.source) with
  | None => mret ()
  | Some context =>
      at_ ← now;
      _ ← ensure (match context.(SourceIdentity.authorization_expires_at) with
                  | Some t => negb (t <=? at_)
                  | None => true
                  end) Error.unauthorized;
      if Str.starts_with context.(SourceIdentity.id) "ldap/" then mret ()
      else
        source ← or_else (enabled_source context.(SourceIdentity.id)) Error.unauthorized;
        link ← get SourceLink.t "source_links" context.(SourceIdentity.link);
        link ← some_or link Error.unauthorized;
        _ ← ensure (negb (negb (String.eqb context.(SourceIdentity.fingerprint) (source_fingerprint source))
                          || negb (String.eqb link.(SourceLink.user_id) identity.(Identity.user_id))
                          || negb (String.eqb link.(SourceLink.source) context.(SourceIdentity.id))))
              Error.unauthorized;
        _ ← (if bool_decide (is_Some source.(Source.saml)) then
               up ← get UpstreamSession.t "saml_source_sessions" identity.(Identity.session_id);
               ensure (match up with
                       | Some u => match u.(UpstreamSession.expires_at) with
                                   | Some t => negb (t <=? at_)
                                   | None => true
                                   end
                       | None => false
                       end) Error.unauthorized
             else mret ());
        if source.(Source.allow_admin_login) then mret ()
        else
          user ← get User.t "users" identity.(Identity.user_id);
          ensure (match user with Some u => negb u.(User.admin) | None => true end)
            Error.unauthorized
  end.

(** [ClaimsTx::verified_upstream_source] and [approved_device_at]. *)
Definition verified_upstream_source (identity : Identity.t) : tx (option string) :=
  _ ← source_validate_identity identity;
  mret (match identity.(Identity.source) with
        | Some s => if Str.starts_with s.(SourceIdentity.id) "ldap/" then None
                    else Some s.(SourceIdentity.id)
        | None => None
        end).
Definition approved_device_at (identity : Identity.t) (at_ : Z) : tx (option Z) :=
  r ← get DeviceVerification.t "device_verifications" identity.(Identity.session_id);
  mret (match r with
        | Some r =>
            if String.eqb r.(DeviceVerification.user_id) identity.(Identity.user_id)
               && String.eqb r.(DeviceVerification.session_id) identity.(Identity.session_id)
               && (r.(DeviceVerification.epoch) =? identity.(Identity.epoch))
               && negb (Str.is_empty r.(DeviceVerification.device_id))
               && (0 <? r.(DeviceVerification.verified_at))
               && (r.(DeviceVerification.verified_at) <=? at_)
               && (at_ <? r.(DeviceVerification.expires_at))
            then Some r.(DeviceVerification.verified_at) else None
        | None => None
        end).

#[global] Instance pure_enabled_source id : Pure (enabled_source id).
Proof. unfold enabled_source. solve_pure. Qed.
#[global] Instance pure_source_validate i : Pure (source_validate_identity i).
Proof. unfold source_validate_identity. solve_pure. Qed.
#[global] Instance pure_verified_source i : Pure (verified_upstream_source i).
Proof. unfold verified_upstream_source. solve_pure. Qed.
#[global] Instance pure_approved_device i t : Pure (approved_device_at i t).
Proof. unfold approved_device_at. solve_pure. Qed.
End sources.

(** ** Access policy *)

Module Claims.
Definition source_identity_key (s : option SourceIdentity.t) : option (string * string * string) :=
  (λ s, (s.(SourceIdentity.id), s.(SourceIdentity.fingerprint), s.(SourceIdentity.link))) <$> s.

(** The session still carries the identity of the grant. *)
Definition session_matches (at_ : Z) (session : Session.t) (user : User.t) (i : Identity.t) : bool :=
  let actual := session.(Session.identity) in
  negb (session.(Session.revoked)
        || (session.(Session.expires_at) <=? at_)
        || negb (String.eqb actual.(Identity.user_id) user.(User.id))
        || negb (String.eqb actual.(Identity.user_id) i.(Identity.user_id))
        || negb (actual.(Identity.epoch) =? user.(User.epoch))
        || negb (actual.(Identity.epoch) =? i.(Identity.epoch))
        || negb (String.eqb actual.(Identity.session_id) i.(Identity.session_id))
        || negb (Bool.eqb actual.(Identity.mfa) i.(Identity.mfa))
        || negb (actual.(Identity.auth_time) =? i.(Identity.auth_time))
        || negb (bool_decide (actual.(Identity.amr) = i.(Identity.amr)))
        || negb (bool_decide (source_identity_key actual.(Identity.source)
                              = source_identity_key i.(Identity.source)))).

Definition rule_reasons (rule : Rule.t) (username : string) (groups : gset string) (mfa : bool) :
    list string :=
  (if negb (bool_decide (rule.(Rule.all_groups) ⊆ groups)) then ["required_groups_missing"] else [])
  ++ (if negb (bool_decide (rule.(Rule.any_groups) = ∅))
         && bool_decide (rule.(Rule.any_groups) ## groups) then ["no_matching_group"] else [])
  ++ (if negb (bool_decide (rule.(Rule.denied_groups) ## groups)) then ["denied_group"] else [])
  ++ (if negb (bool_decide (rule.(Rule.users) = ∅)) && negb (bool_decide (username ∈ rule.(Rule.users)))
      then ["user_not_allowed"] else [])
  ++ (if bool_decide (username ∈ rule.(Rule.denied_users)) then ["user_denied"] else [])
  ++ (if rule.(Rule.require_mfa) && negb mfa then ["mfa_required"] else []).

Definition policy_of (client : Client.t) : Policy.t :=
  client.(Client.settings).(ProviderSettings.policy).
(** The access rule and the rules of the requested scopes. *)
Definition rules (client : Client.t) (scopes : gset string) : list Rule.t :=
  (policy_of client).(Policy.access)
  :: omap (λ sc, (policy_of client).(Policy.scopes) !! sc) (btree_iter scopes).

Definition conditions_hold {F} `{PredicateFacts F} (facts : F) (policy : ConditionalPolicy.t)
    (scopes : gset string) : bool :=
  forallb (evaluate facts) policy.(ConditionalPolicy.access)
  && forallb (λ sc, match policy.(ConditionalPolicy.scopes) !! sc with
                    | Some conditions => forallb (evaluate facts) conditions
                    | None => true
                    end) (btree_iter scopes).

Section claims.
Context {E : Env}.

Definition load (client : Client.t) (user : User.t) (identity : Identity.t) :
    tx TrustedPredicateFacts.t :=
  at_ ← now;
  session ← get Session.t "sessions" identity.(Identity.session_id);
  session ← some_or session Error.forbidden;
  _ ← ensure (session_matches at_ session user identity) Error.forbidden;
  source ← verified_upstream_source identity;
  device ← approved_device_at identity at_;
  groups ← groups_for user.(User.id);
  mret (TrustedPredicateFacts.mk client identity groups source device at_).

Definition enforce (client : Client.t) (user : User.t) (identity : Identity.t)
    (scopes : gset string) : tx unit :=
  groups ← groups_for user.(User.id);
  _ ← ensure (forallb (λ r, bool_decide
                (rule_reasons r user.(User.username) groups identity.(Identity.mfa) = []))
                (rules client scopes)) Error.forbidden;
  match (policy_of client).(Policy.conditional) with
  | None => mret ()
  | Some policy =>
      facts ← load client user identity;
      ensure (conditions_hold facts policy scopes) Error.forbidden
  end.

Definition subject (user : User.t) (client : Client.t) : string :=
  match user.(User.subjects) !! client.(Client.id) with
  | Some s => s
  | None =>
      match client.(Client.settings).(ProviderSettings.pairwise_sector) with
      | Some sector =>
          digest (user.(User.pairwise_seed) +:+ NUL +:+ sector +:+ NUL +:+ user.(User.id))
      | None => user.(User.id)
      end
  end.

Definition claim_value (user : User.t) (source : ClaimSource) : tx json :=
  match source with
  | Username => mret (JStr user.(User.username))
  | DisplayName => mret (JStr user.(User.display_name))
  | Email => mret (Json.of_option JStr user.(User.email))
  | EmailVerified => mret (JBool user.(User.email_verified))
  | Groups => g ← groups_for user.(User.id); mret (Json.strs (btree_iter g))
  | Attribute key => mret (default JNull (user.(User.attributes) !! key))
  | Literal value => mret value
  end.

Definition add_mapping (user : User.t) (claims : json) (m : ClaimMapping.t) : tx json :=
  value ← claim_value user m.(ClaimMapping.source);
  mret (if Json.is_null value then claims else Json.set m.(ClaimMapping.claim) value claims).

Definition mapped_claims (user : User.t) (client : Client.t) (scopes : gset string) : tx json :=
  let has sc := bool_decide (sc ∈ scopes) in
  let settings := client.(Client.settings) in
  let claims := Json.obj [("sub", JStr (subject user client))] in
  let claims :=
    if has "profile"
    then Json.set "preferred_username" (JStr user.(User.username))
           (Json.set "name" (JStr user.(User.display_name)) claims)
    else claims in
  let claims :=
    match user.(User.email) with
    | Some email =>
        if has "email"
        then Json.set "email_verified" (JBool user.(User.email_verified))
               (Json.set "email" (JStr email) claims)
        else claims
    | None => claims
    end in
  claims ← (if has "groups" || settings.(ProviderSettings.groups_in_profile) && has "profile"
            then g ← groups_for user.(User.id);
                 mret (Json.set "groups" (Json.strs (btree_iter g)) claims)
            else mret claims);
  fold_m (λ claims m,
    if bool_decide (m.(ClaimMapping.scope) ∈ scopes) then add_mapping user claims m
    else mret claims) claims settings.(ProviderSettings.claim_mappings).

Definition mapped_claims_for_identity (user : User.t) (client : Client.t)
    (scopes : gset string) (identity : Identity.t) : tx json :=
  claims ← mapped_claims user client scopes;
  match (policy_of client).(Policy.conditional) with
  | None => mret claims
  | Some policy =>
      _ ← enforce client user identity scopes;
      facts ← load client user identity;
      fold_m (λ claims c,
        let m := c.(ConditionalClaimMapping.mapping) in
        if bool_decide (m.(ClaimMapping.scope) ∈ scopes)
           && evaluate facts c.(ConditionalClaimMapping.when)
        then add_mapping user claims m else mret claims)
        claims policy.(ConditionalPolicy.claim_mappings)
  end.

#[global] Instance pure_load c u i : Pure (load c u i).
Proof. unfold load. solve_pure. Qed.
#[global] Instance pure_enforce c u i sc : Pure (enforce c u i sc).
Proof. unfold enforce. solve_pure. Qed.
#[global] Instance pure_claim_value u src : Pure (claim_value u src).
Proof. unfold claim_value. solve_pure. Qed.
#[global] Instance pure_add_mapping u c m : Pure (add_mapping u c m).
Proof. unfold add_mapping. solve_pure. Qed.
#[global] Instance pure_mapped u c sc : Pure (mapped_claims u c sc).
Proof. unfold mapped_claims. cbv zeta. solve_pure. Qed.
#[global] Instance pure_mapped_identity u c sc i : Pure (mapped_claims_for_identity u c sc i).
Proof. unfold mapped_claims_for_identity. solve_pure. Qed.
End claims.
End Claims.
