(* ===== verification/ClaimPolicy.v ===== *)
(** * Registering and simulating claim policy (src/src/claims.rs)

    What a client's mappings and conditional policy must satisfy to be
    registered, what a user's subject mappings must satisfy, and the policy-only
    simulation that answers "allow", "deny" or "needs live proof". *)

From S2P Require Import Prelude Json Model Store Env Provider Jose Delegation Assurance Claims.

#[local] Set Warnings "-clear-no-such-hyp".

(** ** Registration *)

Module PolicyRules.
Definition MAX_PREDICATE_DEPTH : nat := 4.
Definition MAX_PREDICATE_NODES : nat := 16.
Definition MAX_AUTHENTICATION_AGE : Z := 86400.
(** [device_trust::MAX_FRESHNESS]. *)
Definition MAX_FRESHNESS : Z := 3600.

Definition PROTECTED_CLAIMS : list string :=
  ["iss"; "sub"; "aud"; "exp"; "iat"; "nbf"; "jti"; "nonce"; "auth_time"; "amr"; "acr";
   "at_hash"; "c_hash"; "sid"; "client_id"; "scope"; "cnf"; "act"; "email"; "email_verified"].

(** The set of names seen so far is returned extended. *)
Definition validate_mapping (client : Client.t) (m : ClaimMapping.t) (names : gset string)
    (conditional : bool) : Result (gset string) :=
  let claim := m.(ClaimMapping.claim) in
  if negb (bool_decide (m.(ClaimMapping.scope) ∈ client.(Client.scopes)))
     || Str.is_empty claim || (128 <? Str.len claim)
     || existsb (λ c, Str.is_control c.1) (Str.chars claim)
     || bool_decide (claim ∈ PROTECTED_CLAIMS)
     || conditional && bool_decide (claim ∈ ["name"; "preferred_username"; "groups"])
     || bool_decide (claim ∈ names)
  then Err (Error.bad "Invalid, duplicate or protected claim mapping")
  else Ok ({[ claim ]} ∪ names).

Fixpoint validate_all (client : Client.t) (ms : list ClaimMapping.t) (names : gset string)
    (conditional : bool) : Result (gset string) :=
  match ms with
  | [] => Ok names
  | m :: ms =>
      names ← validate_mapping client m names conditional;
      validate_all client ms names conditional
  end.

(** The loop over the members of a composite, with the running node count. *)
Section children.
Context (visit : Predicate → nat → Result nat).
Fixpoint children (l : list Predicate) (nodes : nat) : Result nat :=
  match l with
  | [] => Ok nodes
  | p :: l =>
      match visit p nodes with
      | Ok nodes => children l nodes
      | Err e => Err e
      end
  end.
End children.

(** Returns the number of nodes visited so far. *)
Fixpoint validate_predicate (client : Client.t) (depth : nat) (p : Predicate) (nodes : nat) :
    Result nat :=
  let nodes := S nodes in
  if Nat.ltb MAX_PREDICATE_DEPTH depth || Nat.ltb MAX_PREDICATE_NODES nodes
  then Err (Error.bad "Conditional policy exceeds predicate limits")
  else
    match p with
    | Application id =>
        if String.eqb id client.(Client.id) then Ok nodes
        else Err (Error.bad "Conditional policy references another application")
    | ProofFresh _ max_age =>
        if (1 <=? max_age) && (max_age <=? MAX_AUTHENTICATION_AGE) then Ok nodes
        else Err (Error.bad "Conditional proof age is outside its supported range")
    | ApprovedDevice max_age =>
        if (1 <=? max_age) && (max_age <=? MAX_FRESHNESS) then Ok nodes
        else Err (Error.bad "Conditional device age is outside its supported range")
    | All l | Any l =>
        if Nat.eqb (length l) 0 || Nat.ltb 8 (length l)
        then Err (Error.bad "Conditional policy needs 1–8 composite members")
        else children (validate_predicate client (S depth)) l nodes
    | Not c => validate_predicate client (S depth) c nodes
    | _ => Ok nodes
    end.

(** [ClaimsTx::group_exists] and [source_available]. *)
Fixpoint validate_predicate_references (p : Predicate) : tx unit :=
  match p with
  | GroupMember group =>
      _ ← lift (validate_name group);
      g ← get Group.t "groups" group;
      ensure (bool_decide (is_Some g)) (Error.bad "Conditional policy references an unknown group")
  | VerifiedSource source =>
      _ ← lift (validate_name source);
      s ← get Source.t "sources" source;
      ensure (match s with Some s => s.(Source.enabled) | None => false end)
        (Error.bad "Conditional policy references an unavailable source")
  | All l | Any l => for_each validate_predicate_references l
  | Not c => validate_predicate_references c
  | _ => mret ()
  end.

(** [access], the conditions of every scope and the [when] of every mapping. *)
Definition predicates (policy : ConditionalPolicy.t) : list Predicate :=
  policy.(ConditionalPolicy.access)
  ++ concat (btree_entries policy.(ConditionalPolicy.scopes)).*2
  ++ (ConditionalClaimMapping.when <$> policy.(ConditionalPolicy.claim_mappings)).

Definition validate_conditional_references (client : Client.t) : tx unit :=
  match (Claims.policy_of client).(Policy.conditional) with
  | None => mret ()
  | Some policy => for_each validate_predicate_references (predicates policy)
  end.

Fixpoint validate_predicates (client : Client.t) (l : list Predicate) : Result unit :=
  match l with
  | [] => Ok ()
  | p :: l => _ ← validate_predicate client 1 p 0; validate_predicates client l
  end.

Definition policy_size_ok (client : Client.t) (policy : ConditionalPolicy.t) : bool :=
  let scopes := policy.(ConditionalPolicy.scopes) in
  let access := length policy.(ConditionalPolicy.access) in
  let mappings := length policy.(ConditionalPolicy.claim_mappings) in
  negb (Nat.ltb 16 access || Nat.ltb 32 (size scopes) || Nat.ltb 64 mappings
        || existsb (λ kv, Nat.ltb 16 (length kv.2)) (btree_entries scopes)
        || Nat.ltb 128 (access + sum_list (length <$> (btree_entries scopes).*2) + mappings)
        || existsb (λ kv, negb (bool_decide (kv.1 ∈ client.(Client.scopes)))) (btree_entries scopes)).

Definition validate_mappings {E : Env} (client : Client.t) : Result unit :=
  let settings := client.(Client.settings) in
  names ← validate_all client settings.(ProviderSettings.claim_mappings) ∅ false;
  if existsb (λ kv : string * Rule.t, negb (bool_decide (kv.1 ∈ client.(Client.scopes))))
       (btree_entries (Claims.policy_of client).(Policy.scopes))
  then Err (Error.bad "Scope policy references an unregistered scope")
  else
    names ←
      match (Claims.policy_of client).(Policy.conditional) with
      | None => Ok names
      | Some policy =>
          if negb (policy_size_ok client policy)
          then Err (Error.bad "Conditional policy exceeds configured limits")
          else
            _ ← validate_predicates client (predicates policy);
            validate_all client
              (ConditionalClaimMapping.mapping <$> policy.(ConditionalPolicy.claim_mappings))
              names true
      end;
    if Nat.ltb 64 (size (names : gset string)) || (16384 <? Str.len (settings_string settings))
    then Err (Error.bad "Provider mappings exceed configured limits")
    else Ok ().
End PolicyRules.

(** ** Subjects *)

Section subjects.
Context {E : Env}.

Definition subject_valid (subject : string) : bool :=
  negb (Str.is_empty subject || (255 <? Str.len subject)
        || negb (forallb (λ c, Str.code c <? 128) (Str.bytes subject))
        || existsb (λ c, Str.is_control c.1) (Str.chars subject)).

(** Some other user already has this subject at the client. *)
Definition subject_taken (user : User.t) (client : Client.t) (subject : string)
    (other : User.t) : bool :=
  negb (String.eqb other.(User.id) user.(User.id))
  && (String.eqb other.(User.id) subject || String.eqb (Claims.subject other client) subject).

(** The scan of [validate_user_paged]; the rows bound the turns, since every
    page but the last is nonempty. *)
Fixpoint subject_pages (fuel page_size : nat) (user : User.t) (client : Client.t)
    (subject : string) (after : option string) : tx unit :=
  match fuel with
  | O => mret ()
  | S fuel =>
      users ← scan User.t "users" after page_size;
      match last users with
      | None => mret ()
      | Some (id, _) =>
          _ ← ensure (negb (existsb (λ kv, subject_taken user client subject kv.2) users))
                (Error.conflict "Subject already belongs to another user");
          subject_pages fuel page_size user client subject (Some id)
      end
  end.

Definition scan_subjects (page_size : nat) (user : User.t) (client : Client.t) (subject : string) :
    tx unit := λ s,
  subject_pages (S (length (bucket_rows "users" s.(St.db)))) page_size user client subject None s.

Definition validate_subject (page_size : nat) (user : User.t) (kv : string * string) : tx unit :=
  let '(cid, subject) := kv in
  _ ← ensure (subject_valid subject)
        (Error.bad "Subjects must be 1–255 ASCII bytes without control characters");
  client ← get Client.t "clients" cid;
  client ← some_or client (Error.bad "Subject mapping references an unknown client");
  scan_subjects page_size user client subject.

Definition validate_user (user : User.t) : tx unit :=
  _ ← ensure (Str.len (attributes_string user.(User.attributes)) <=? 16384)
        (Error.bad "User attributes exceed 16 KiB");
  _ ← ensure (negb (user.(User.email_verified) && bool_decide (user.(User.email) = None)))
        (Error.bad "A verified email requires an address");
  for_each (validate_subject PAGE user) (btree_entries user.(User.subjects)).

Lemma pure_subject_pages fuel n user client subject after :
  Pure (subject_pages fuel n user client subject after).
Proof.
  revert after. induction fuel as [|fuel IH]; intros after; simpl; [apply _|].
  apply pure_bind; [apply _|]. intros users. case_match; [|apply _].
  case_match. apply pure_bind; [apply _|]. intros; apply IH.
Qed.
#[global] Instance pure_scan_subjects n u c sub : Pure (scan_subjects n u c sub).
Proof. intros s. apply pure_subject_pages. Qed.
#[global] Instance pure_validate_subject n u kv : Pure (validate_subject n u kv).
Proof. destruct kv. unfold validate_subject. solve_pure. Qed.
End subjects.

(** ** Simulation *)

Module Simulation.
Record t := mk {
  client_id : string;
  username : string;
  scope : gset string;
  source : option string;
  level : AssuranceLevel;
}.

Definition rule_groups (rule : Rule.t) : gset string :=
  rule.(Rule.all_groups) ∪ rule.(Rule.any_groups) ∪ rule.(Rule.denied_groups).

Fixpoint predicate_groups (p : Predicate) : gset string :=
  match p with
  | GroupMember group => {[ group ]}
  | All l | Any l => foldr (λ p acc, predicate_groups p ∪ acc) ∅ l
  | Not c => predicate_groups c
  | _ => ∅
  end.

(** The conditions that bear on a request: [access] and the requested scopes'. *)
Definition relevant_predicates (client : Client.t) (scopes : gset string) : list Predicate :=
  match (Claims.policy_of client).(Policy.conditional) with
  | None => []
  | Some policy =>
      policy.(ConditionalPolicy.access)
      ++ concat (omap (λ sc, policy.(ConditionalPolicy.scopes) !! sc) (btree_iter scopes))
  end.

Definition decision_groups (client : Client.t) (scopes : gset string) : gset string :=
  client.(Client.allowed_groups)
  ∪ ⋃ (rule_groups <$> Claims.rules client scopes)
  ∪ ⋃ (predicate_groups <$> relevant_predicates client scopes).

Definition ordinary_reasons (client : Client.t) (user : User.t) (scopes groups : gset string)
    (mfa : bool) : list string :=
  Claims.rule_reasons (Claims.policy_of client).(Policy.access) user.(User.username) groups mfa
  ++ (if negb client.(Client.enabled) then ["client_disabled"] else [])
  ++ (if negb user.(User.enabled) then ["user_disabled"] else [])
  ++ (if client.(Client.service) then ["service_client_has_no_user_identity"] else [])
  ++ (if negb (bool_decide (scopes ⊆ client.(Client.scopes))) then ["unregistered_scope"] else [])
  ++ (if negb (bool_decide (client.(Client.allowed_groups) = ∅))
         && bool_decide (client.(Client.allowed_groups) ## groups)
      then ["no_matching_client_group"] else [])
  ++ (if client.(Client.require_mfa) && negb mfa then ["mfa_required"] else []).

(** The loops of the [All] and [Any] cases. *)
Section loops.
Context (f : Predicate → option bool).
Fixpoint sim_all (l : list Predicate) (unknown : bool) : option bool :=
  match l with
  | [] => if unknown then None else Some true
  | p :: l =>
      match f p with
      | Some false => Some false
      | None => sim_all l true
      | Some true => sim_all l unknown
      end
  end.
Fixpoint sim_any (l : list Predicate) (unknown : bool) : option bool :=
  match l with
  | [] => if unknown then None else Some false
  | p :: l =>
      match f p with
      | Some true => Some true
      | None => sim_any l true
      | Some false => sim_any l unknown
      end
  end.
End loops.

Fixpoint simulated_predicate (client : Client.t) (groups : gset string) (source : option string)
    (level : AssuranceLevel) (p : Predicate) : option bool :=
  match p with
  | Application id => Some (String.eqb client.(Client.id) id)
  | GroupMember group => Some (bool_decide (group ∈ groups))
  | VerifiedSource expected => Some (bool_decide (source = Some expected))
  | Assurance l => Some (bool_decide (l = level))
  | ProofFresh _ _ | ApprovedDevice _ => None
  | All l => sim_all (simulated_predicate client groups source level) l false
  | Any l => sim_any (simulated_predicate client groups source level) l false
  | Not c => negb <$> simulated_predicate client groups source level c
  end.

Definition DENIED : string := "conditional_policy_denied".
Definition LIVE_PROOF : string := "conditional_policy_requires_live_proof".
Definition DEVICE_SESSION : string := "device_trust_session_required".

Definition conditional_reasons (predicates : list Predicate) (client : Client.t)
    (groups : gset string) (source : option string) (level : AssuranceLevel) : list string :=
  let outcomes := simulated_predicate client groups source level <$> predicates in
  if bool_decide (Some false ∈ outcomes) then [DENIED]
  else if bool_decide (None ∈ outcomes) then [LIVE_PROOF]
  else [].

Definition scope_reasons (input : t) (client : Client.t) (user : User.t) (groups : gset string)
    (source : option string) (mfa : bool) (scope : string) : list string :=
  match (Claims.policy_of client).(Policy.scopes) !! scope with
  | Some rule => Claims.rule_reasons rule user.(User.username) groups mfa
  | None => []
  end
  ++ match policy ← (Claims.policy_of client).(Policy.conditional);
           policy.(ConditionalPolicy.scopes) !! scope with
     | Some predicates => conditional_reasons predicates client groups source input.(level)
     | None => []
     end.

(** The assumed source counts only when it is enabled. *)
Definition assumed_source (input : t) (source_enabled : bool) : option string :=
  if source_enabled then input.(source) else None.

Definition reasons (input : t) (client : Client.t) (user : User.t) (groups : gset string)
    (source_enabled : bool) (device_reason : option string) : list string :=
  let mfa := bool_decide (input.(level) = LevelMfa) in
  let defaults := client.(Client.settings).(ProviderSettings.default_acr_values) in
  ordinary_reasons client user input.(scope) groups mfa
  ++ (if bool_decide (is_Some input.(source)) && negb source_enabled then ["source_disabled"] else [])
  ++ (if negb (bool_decide (defaults = []))
         && negb (existsb (λ v, String.eqb v (acr_of_level input.(level))) defaults)
      then ["assurance_not_accepted"] else [])
  ++ option_list device_reason
  ++ match (Claims.policy_of client).(Policy.conditional) with
     | Some policy => conditional_reasons policy.(ConditionalPolicy.access) client groups
                        (assumed_source input source_enabled) input.(level)
     | None => []
     end.

Definition scope_decisions (input : t) (client : Client.t) (user : User.t) (groups : gset string)
    (source_enabled : bool) : list (string * list string) :=
  (λ sc, (sc, scope_reasons input client user groups (assumed_source input source_enabled)
                (bool_decide (input.(level) = LevelMfa)) sc)) <$> btree_iter input.(scope).

Definition pending (r : string) : bool := String.eqb r LIVE_PROOF.

(** [simulate_decision]: its [decision] member. *)
Definition decision (input : t) (client : Client.t) (user : User.t) (groups : gset string)
    (source_enabled : bool) (device_reason : option string) : string :=
  let rs := reasons input client user groups source_enabled device_reason in
  let scoped := (scope_decisions input client user groups source_enabled).*2 in
  let unknown := existsb (λ r, pending r || String.eqb r DEVICE_SESSION) rs
                 || existsb (existsb pending) scoped in
  let denied := existsb (λ r, negb (pending r) && negb (String.eqb r DEVICE_SESSION)) rs
                || existsb (existsb (λ r, negb (pending r))) scoped in
  if denied then "deny" else if unknown then "needs_live_proof" else "allow".

Definition level_name (l : AssuranceLevel) : string :=
  match l with
  | LevelPassword => "password"
  | LevelMfa => "mfa"
  | LevelFederated => "federated"
  | LevelCertificate => "certificate"
  end.
Definition simulate_decision (input : t) (client : Client.t) (user : User.t) (groups : gset string)
    (source_enabled : bool) (device_reason : option string) : json :=
  let d := decision input client user groups source_enabled device_reason in
  Json.obj
    [("simulation", JBool true); ("policy_only", JBool true); ("token_issued", JBool false);
     ("decision", JStr d);
     ("would_allow", if String.eqb d "needs_live_proof" then JNull else JBool (String.eqb d "allow"));
     ("reasons", Json.strs (reasons input client user groups source_enabled device_reason));
     ("scope_decisions", JObj (prod_map (λ k, k) Json.strs <$>
        scope_decisions input client user groups source_enabled));
     ("assurance_assumed", JStr (level_name input.(level)));
     ("source_assumed_verified", JBool (bool_decide (is_Some (assumed_source input source_enabled))))].
End Simulation.

(** ** Lemmas on simulation *)

(** Live facts that agree with the assumptions of a simulation. *)
Definition agrees {F} `{PredicateFacts F} (facts : F) (client : Client.t) (groups : gset string)
    (source : option string) (level : AssuranceLevel) : Prop :=
  (∀ id, application facts id = String.eqb client.(Client.id) id)
  ∧ (∀ g, group_member facts g = bool_decide (g ∈ groups))
  ∧ (∀ s, verified_source facts s = bool_decide (source = Some s))
  ∧ (∀ l, assurance facts l = bool_decide (l = level)).

Section simulation.
Context {F} `{PredicateFacts F} (facts : F).
Context (client : Client.t) (groups : gset string) (source : option string)
  (level : AssuranceLevel).
Hypothesis Hag : agrees facts client groups source level.
Abbreviation sim := (Simulation.simulated_predicate client groups source level).

Lemma sim_all_sound l u b :
  Forall (λ p, ∀ b, sim p = Some b → evaluate facts p = b) l →
  Simulation.sim_all sim l u = Some b → forallb (evaluate facts) l = b ∧ (u = true → b = false).
Proof.
  intros Hl. revert u. induction Hl as [|p l Hp Hl IH]; intros u; simpl.
  - destruct u; [done|]. by intros [= <-].
  - destruct (sim p) as [[]|] eqn:E.
    + intros Hs. rewrite (Hp true eq_refl). simpl. by apply IH.
    + intros [= <-]. by rewrite (Hp false eq_refl).
    + intros Hs. apply IH in Hs as [Hs Hu]. rewrite (Hu eq_refl) in *.
      rewrite Hs, andb_false_r. done.
Qed.

Lemma sim_any_sound l u b :
  Forall (λ p, ∀ b, sim p = Some b → evaluate facts p = b) l →
  Simulation.sim_any sim l u = Some b → existsb (evaluate facts) l = b ∧ (u = true → b = true).
Proof.
  intros Hl. revert u. induction Hl as [|p l Hp Hl IH]; intros u; simpl.
  - destruct u; [done|]. by intros [= <-].
  - destruct (sim p) as [[]|] eqn:E.
    + intros [= <-]. by rewrite (Hp true eq_refl).
    + intros Hs. rewrite (Hp false eq_refl). simpl. by apply IH.
    + intros Hs. apply IH in Hs as [Hs Hu]. rewrite (Hu eq_refl) in *.
      rewrite Hs, orb_true_r. done.
Qed.

Lemma simulated_sound p b : sim p = Some b → evaluate facts p = b.
Proof.
  destruct Hag as (Happ & Hgrp & Hsrc & Hass). revert b.
  induction p using predicate_induction; intros b; simpl.
  - intros [= <-]. apply Happ.
  - intros [= <-]. apply Hgrp.
  - intros [= <-]. apply Hsrc.
  - done.
  - intros [= <-]. apply Hass.
  - done.
  - intros Hs. eapply sim_all_sound; done.
  - intros Hs. eapply sim_any_sound; done.
  - destruct (sim p) as [b'|]; [|done]. intros [= <-]. f_equal. by apply IHp.
Qed.

Lemma no_conditional_reasons l :
  Simulation.conditional_reasons l client groups source level = [] →
  forallb (evaluate facts) l = true.
Proof.
  unfold Simulation.conditional_reasons.
  destruct (bool_decide_reflect (Some false ∈ sim <$> l)) as [|Hf]; [done|].
  destruct (bool_decide_reflect (None ∈ sim <$> l)) as [|Hn]; [done|]. intros _.
  apply forallb_forall. intros p Hp%list_elem_of_In.
  destruct (sim p) as [[]|] eqn:Es; [by apply simulated_sound| |]; exfalso.
  - apply Hf, list_elem_of_fmap. by exists p.
  - apply Hn, list_elem_of_fmap. by exists p.
Qed.
End simulation.

(** A simulation that allows has no reason at all. *)
Lemma decision_allow input client user groups se dr :
  Simulation.decision input client user groups se dr = "allow" →
  Simulation.reasons input client user groups se dr = []
  ∧ ∀ sc, sc ∈ input.(Simulation.scope) →
      Simulation.scope_reasons input client user groups (Simulation.assumed_source input se)
        (bool_decide (input.(Simulation.level) = LevelMfa)) sc = [].
Proof.
  unfold Simulation.decision. set (rs := Simulation.reasons _ _ _ _ _ _).
  set (sd := (Simulation.scope_decisions _ _ _ _ _).*2).
  destruct (_ || _) eqn:Ed; [done|]. destruct (_ || existsb (existsb Simulation.pending) _) eqn:Eu; [done|].
  intros _. bools.
  assert (∀ l (f g : string → bool), existsb (λ r, f r || g r) l = false →
    existsb (λ r, negb (f r) && negb (g r)) l = false → l = []) as Hempty.
  { intros [|x l] f g; [done|]. simpl. destruct (f x), (g x); done. }
  split.
  { by apply (Hempty rs Simulation.pending (λ r, String.eqb r Simulation.DEVICE_SESSION)). }
  intros sc Hsc.
  assert (∀ l, l ∈ sd → l = []) as Hsd.
  { intros [|x l] Hl; [done|]. exfalso.
    assert (existsb Simulation.pending (x :: l) = false ∧
            existsb (λ r, negb (Simulation.pending r)) (x :: l) = false) as [Hp Hq].
    { split; apply not_true_iff_false; intros Ht.
      - assert (existsb (existsb Simulation.pending) sd = true); [|congruence].
        apply existsb_exists. exists (x :: l). split; [by apply list_elem_of_In|done].
      - assert (existsb (existsb (λ r, negb (Simulation.pending r))) sd = true); [|congruence].
        apply existsb_exists. exists (x :: l). split; [by apply list_elem_of_In|done]. }
    simpl in Hp, Hq. by destruct (Simulation.pending x). }
  apply Hsd. unfold sd, Simulation.scope_decisions. rewrite <-list_fmap_compose.
  apply list_elem_of_fmap. exists sc. split; [done|]. by apply elem_of_btree_iter.
Qed.

(** ** Only the decision groups matter *)

Section noninterference.
Context (g1 g2 : gset string).

(** The two membership sets agree on [dep]. *)
Definition same_on (dep : gset string) : Prop := ∀ g, g ∈ dep → g ∈ g1 ↔ g ∈ g2.

Lemma same_on_mono d d' : d' ⊆ d → same_on d → same_on d'.
Proof. unfold same_on. set_solver. Qed.

Lemma subset_same d : same_on d → bool_decide (d ⊆ g1) = bool_decide (d ⊆ g2).
Proof. intros Hs. apply bool_decide_ext. unfold same_on in Hs. set_solver. Qed.
Lemma disjoint_same d : same_on d → bool_decide (d ## g1) = bool_decide (d ## g2).
Proof. intros Hs. apply bool_decide_ext. unfold same_on in Hs. set_solver. Qed.

Lemma rule_reasons_same rule u mfa :
  same_on (Simulation.rule_groups rule) →
  Claims.rule_reasons rule u g1 mfa = Claims.rule_reasons rule u g2 mfa.
Proof.
  unfold Simulation.rule_groups. intros Hs. unfold Claims.rule_reasons.
  rewrite (subset_same (Rule.all_groups rule)) by (eapply same_on_mono; [|exact Hs]; set_solver).
  rewrite (disjoint_same (Rule.any_groups rule)) by (eapply same_on_mono; [|exact Hs]; set_solver).
  by rewrite (disjoint_same (Rule.denied_groups rule))
    by (eapply same_on_mono; [|exact Hs]; set_solver).
Qed.

Lemma foldr_groups p l :
  p ∈ l → Simulation.predicate_groups p
          ⊆ foldr (λ p acc, Simulation.predicate_groups p ∪ acc) ∅ l.
Proof. induction l; set_solver. Qed.

Lemma sim_loops_same (f h : Predicate → option bool) l u :
  (∀ p, p ∈ l → f p = h p) →
  Simulation.sim_all f l u = Simulation.sim_all h l u
  ∧ Simulation.sim_any f l u = Simulation.sim_any h l u.
Proof.
  revert u. induction l as [|p l IH]; intros u Hl; simpl; [done|].
  rewrite (Hl p) by set_solver. destruct (h p) as [[]|]; split; try done; apply IH; set_solver.
Qed.

Lemma simulated_same c src lvl p :
  same_on (Simulation.predicate_groups p) →
  Simulation.simulated_predicate c g1 src lvl p = Simulation.simulated_predicate c g2 src lvl p.
Proof.
  induction p as [| | | | | |l IH|l IH|p IH] using predicate_induction; simpl; intros Hs; try done.
  - f_equal. apply bool_decide_ext. apply Hs. set_solver.
  - apply sim_loops_same. rewrite List.Forall_forall in IH. intros p Hp.
    apply IH; [by apply list_elem_of_In|]. by eapply same_on_mono, Hs; apply foldr_groups.
  - apply sim_loops_same. rewrite List.Forall_forall in IH. intros p Hp.
    apply IH; [by apply list_elem_of_In|]. by eapply same_on_mono, Hs; apply foldr_groups.
  - f_equal. by apply IH.
Qed.

Lemma conditional_reasons_same l c src lvl :
  (∀ p, p ∈ l → same_on (Simulation.predicate_groups p)) →
  Simulation.conditional_reasons l c g1 src lvl = Simulation.conditional_reasons l c g2 src lvl.
Proof.
  intros Hl. unfold Simulation.conditional_reasons.
  replace (Simulation.simulated_predicate c g1 src lvl <$> l)
    with (Simulation.simulated_predicate c g2 src lvl <$> l); [done|].
  apply list_fmap_ext. intros i p Hp. symmetry. apply simulated_same, Hl.
  by eapply list_elem_of_lookup_2.
Qed.

Section decision.
Context (client : Client.t) (scopes : gset string).
Hypothesis Hs : same_on (Simulation.decision_groups client scopes).

Lemma rule_same rule : rule ∈ Claims.rules client scopes → same_on (Simulation.rule_groups rule).
Proof.
  intros Hr. eapply same_on_mono, Hs. unfold Simulation.decision_groups.
  intros g Hg. apply elem_of_union_l, elem_of_union_r, elem_of_union_list.
  exists (Simulation.rule_groups rule).
  split; [|done]. apply list_elem_of_fmap. by exists rule.
Qed.

Lemma predicate_same p :
  p ∈ Simulation.relevant_predicates client scopes → same_on (Simulation.predicate_groups p).
Proof.
  intros Hp. eapply same_on_mono, Hs. unfold Simulation.decision_groups.
  intros g Hg. apply elem_of_union_r, elem_of_union_list.
  exists (Simulation.predicate_groups p). split; [|done]. apply list_elem_of_fmap. by exists p.
Qed.

Lemma scope_rule_relevant sc rule :
  sc ∈ scopes → (Claims.policy_of client).(Policy.scopes) !! sc = Some rule →
  rule ∈ Claims.rules client scopes.
Proof.
  intros Hsc Hr. unfold Claims.rules. apply elem_of_cons; right. apply list_elem_of_omap.
  exists sc. by rewrite elem_of_btree_iter.
Qed.

Lemma scope_predicate_relevant policy sc l p :
  (Claims.policy_of client).(Policy.conditional) = Some policy →
  sc ∈ scopes → policy.(ConditionalPolicy.scopes) !! sc = Some l → p ∈ l →
  p ∈ Simulation.relevant_predicates client scopes.
Proof.
  intros Hpol Hsc Hl Hp. unfold Simulation.relevant_predicates. rewrite Hpol.
  apply elem_of_app; right. apply list_elem_of_In, in_concat. exists l.
  split; apply list_elem_of_In; [|done]. apply list_elem_of_omap. exists sc.
  by rewrite elem_of_btree_iter.
Qed.
End decision.
End noninterference.

(** ** Bounds of validated predicates *)

Fixpoint predicate_size (p : Predicate) : nat :=
  match p with
  | All l | Any l => S (sum_list (predicate_size <$> l))
  | Not c => S (predicate_size c)
  | _ => 1
  end.
Fixpoint predicate_depth (p : Predicate) : nat :=
  match p with
  | All l | Any l => S (max_list (predicate_depth <$> l))
  | Not c => S (predicate_depth c)
  | _ => 1
  end.

Lemma children_bounds (visit : Predicate → nat → Result nat) d l n m :
  Forall (λ p, ∀ n m, visit p n = Ok m →
    m = (n + predicate_size p)%nat ∧ (m ≤ 16)%nat ∧ (d + predicate_depth p ≤ 5)%nat) l →
  PolicyRules.children visit l n = Ok m →
  m = (n + sum_list (predicate_size <$> l))%nat ∧ (m ≤ 16 ∨ m = n)%nat
  ∧ (l ≠ [] → d + max_list (predicate_depth <$> l) ≤ 5)%nat.
Proof.
  intros Hl. revert n. induction Hl as [|p l Hp Hl IH]; intros n; csimpl.
  { intros [= <-]. split_and!; [lia|by right|done]. }
  destruct (visit p n) as [k|] eqn:Ek; [|done]. intros Hm.
  destruct (Hp _ _ Ek) as (-> & Hk & Hd). apply IH in Hm as (-> & Hm & Hd').
  split_and!; [lia|left; destruct Hm; lia|]. intros _.
  destruct l as [|q l]; csimpl in *; [lia|]. specialize (Hd' ltac:(done)). lia.
Qed.

Lemma validate_predicate_bounds client p : ∀ d n m,
  PolicyRules.validate_predicate client d p n = Ok m →
  m = (n + predicate_size p)%nat ∧ (m ≤ 16)%nat ∧ (d + predicate_depth p ≤ 5)%nat.
Proof.
  assert (∀ d n, Nat.ltb PolicyRules.MAX_PREDICATE_DEPTH d
                 || Nat.ltb PolicyRules.MAX_PREDICATE_NODES (S n) = false → (d ≤ 4 ∧ n < 16)%nat)
    as Hlim.
  { unfold PolicyRules.MAX_PREDICATE_DEPTH, PolicyRules.MAX_PREDICATE_NODES. intros d n.
    rewrite orb_false_iff, !Nat.ltb_ge. lia. }
  induction p as [| | | | | |l IH|l IH|p IH] using predicate_induction; intros d n m;
    cbn [PolicyRules.validate_predicate]; destruct (_ || _) eqn:El; try done;
    apply Hlim in El as [Hd Hn]; csimpl.
  1,2,3,4,5,6: intros Hv; repeat case_match; simplify_eq; lia.
  1,2: destruct (_ || _) eqn:Ec; [done|]; intros Hv;
    apply (children_bounds _ (S d)) in Hv as (-> & Hm & Hdep);
    [ apply orb_false_iff in Ec as [Ec _]; apply Nat.eqb_neq in Ec;
      destruct l as [|q l]; [done|]; specialize (Hdep ltac:(done)); csimpl in *;
      destruct Hm; lia
    | eapply List.Forall_impl; [|exact IH]; intros q Hq n' m' Hv'; by apply Hq ].
  intros Hv. apply IH in Hv. lia.
Qed.

(** ** Protected claims *)

Section protected.
Context {E : Env}.

Lemma validate_all_ok client ms names cond r :
  PolicyRules.validate_all client ms names cond = Ok r →
  ∀ m, m ∈ ms → m.(ClaimMapping.claim) ∉ PolicyRules.PROTECTED_CLAIMS.
Proof.
  revert names. induction ms as [|m ms IH]; intros names; cbn [PolicyRules.validate_all];
    [set_solver|].
  destruct (PolicyRules.validate_mapping client m names cond) as [n|] eqn:Em; [|done]. simpl.
  intros Hr m' [->|Hin]%elem_of_cons; [|by eapply IH].
  unfold PolicyRules.validate_mapping in Em. destruct (_ || _) eqn:Eb; [done|]. by bools.
Qed.

Lemma validate_mappings_protected client :
  PolicyRules.validate_mappings client = Ok () →
  (∀ m, m ∈ client.(Client.settings).(ProviderSettings.claim_mappings) →
     m.(ClaimMapping.claim) ∉ PolicyRules.PROTECTED_CLAIMS)
  ∧ (∀ policy c, (Claims.policy_of client).(Policy.conditional) = Some policy →
       c ∈ policy.(ConditionalPolicy.claim_mappings) →
       c.(ConditionalClaimMapping.mapping).(ClaimMapping.claim) ∉ PolicyRules.PROTECTED_CLAIMS).
Proof.
  unfold PolicyRules.validate_mappings.
  destruct (PolicyRules.validate_all _ _ ∅ false) as [n|] eqn:Ev; [|done]. simpl.
  case_match; [done|]. intros Hr. split; [by eapply validate_all_ok|].
  intros policy c Hp Hc. rewrite Hp in Hr. destruct (negb _); [done|].
  destruct (PolicyRules.validate_predicates _ _); [|done]. simpl in Hr.
  destruct (PolicyRules.validate_all _ _ n true) as [n'|] eqn:Ev2; [|done].
  eapply validate_all_ok; [exact Ev2|]. apply list_elem_of_fmap. eauto.
Qed.

(** A mapping to another claim leaves [name] as it is. *)
Definition object_with (name : string) (v : json) (claims : json) : Prop :=
  (∃ l, claims = JObj l) ∧ Json.get name claims = Some v.

Lemma object_with_set name v k w claims :
  object_with name v claims → k ≠ name → object_with name v (Json.set k w claims).
Proof.
  intros [[l ->] Hg] Hne. split; [by eexists|]. by rewrite Json.get_set_ne.
Qed.

Lemma add_mapping_keeps user claims m s claims' s' name v :
  Claims.add_mapping user claims m s = (Ok claims', s') →
  object_with name v claims → m.(ClaimMapping.claim) ≠ name → object_with name v claims'.
Proof.
  unfold Claims.add_mapping. intros Hr Ho Hne. tx_inv. case_match; [done|].
  by apply object_with_set.
Qed.

Lemma fold_mappings_keep {A} (f : json → A → tx json) l claims s claims' s' name v :
  (∀ claims a s claims' s', a ∈ l → f claims a s = (Ok claims', s') →
     object_with name v claims → object_with name v claims') →
  fold_m f claims l s = (Ok claims', s') → object_with name v claims → object_with name v claims'.
Proof.
  revert claims s. induction l as [|a l IH]; intros claims s Hf; cbn [fold_m].
  - by intros [-> _]%ret_ok.
  - intros (c1 & s1 & H1 & H2)%bind_ok Ho. eapply IH; [|exact H2|].
    + intros c b t c' t' Hb. apply Hf. by apply list_elem_of_further.
    + by eapply (Hf _ a); [apply list_elem_of_here| |].
Qed.

Lemma mapped_claims_sub user client scopes s claims s' :
  (∀ m, m ∈ client.(Client.settings).(ProviderSettings.claim_mappings) →
     m.(ClaimMapping.claim) ≠ "sub") →
  Claims.mapped_claims user client scopes s = (Ok claims, s') →
  object_with "sub" (JStr (Claims.subject user client)) claims.
Proof.
  intros Hm Hr. unfold Claims.mapped_claims in Hr. cbv zeta in Hr.
  apply bind_ok in Hr as (c1 & s1 & H1 & H2). eapply fold_mappings_keep; [|exact H2|].
  - intros c a t c' t' Hin Hf Ho. cbv beta in Hf.
    case_match; [|by apply ret_ok in Hf as [-> _]].
    eapply add_mapping_keeps; [done|done|]. by apply Hm.
  - tx_crush; repeat case_match; repeat (apply object_with_set; [|done]);
      by split; [eexists|].
Qed.
End protected.

(** ** The subject scan reads every user *)

Section subject_scan.
Context {E : Env}.

Lemma subject_pages_ok fuel n user client subject s u s' (pre rest : list (string * row)) :
  (0 < n)%nat →
  bucket_rows "users" s.(St.db) = pre ++ rest →
  (length rest < fuel)%nat →
  subject_pages fuel n user client subject (last pre.*1) s = (Ok u, s') →
  s' = s ∧ ∀ k other, (k, RUser other) ∈ rest → subject_taken user client subject other = false.
Proof.
  intros Hn. revert pre rest. induction fuel as [|fuel IH]; intros pre rest Hrows Hlen; [lia|].
  cbn [subject_pages]. intros (users & s1 & [-> Hscan]%scan_ok & Hr)%bind_ok.
  rewrite (filter_rest_rows _ _ _ _ Hrows) in Hscan.
  destruct (last users) as [[k o]|] eqn:El.
  - apply last_Some in El as [page ->].
    apply bind_ok in Hr as (u' & s1 & [Hok ->]%ensure_ok & Hr). rewrite fmap_app in Hscan.
    set (page' := prod_map (λ k, k) encode <$> page) in *. csimpl in Hscan.
    assert (rest = (page' ++ [(k, RUser o)]) ++ drop n rest) as Hsplit
      by (by rewrite <-Hscan, take_drop).
    assert (last (pre ++ page' ++ [(k, RUser o)]).*1 = Some k) as Hlast.
    { rewrite !fmap_app, (assoc_L (++)). apply last_snoc. }
    rewrite <-Hlast in Hr. apply (IH _ (drop n rest)) in Hr as [-> Hr].
    + split; [done|]. intros k' other Hin. rewrite <-(take_drop n rest) in Hin.
      apply elem_of_app in Hin as [Hin|Hin]; [|by eapply Hr]. rewrite Hscan in Hin.
      apply negb_true_iff in Hok. apply not_true_iff_false. intros Ht.
      assert (existsb (λ kv, subject_taken user client subject kv.2) (page ++ [(k, o)]) = true);
        [|congruence].
      apply existsb_exists. exists (k', other). split; [|done]. apply list_elem_of_In.
      change (page' ++ [(k, RUser o)]) with (page' ++ (prod_map (λ k, k) RUser <$> [(k, o)])) in Hin.
      unfold page' in Hin. rewrite <-fmap_app in Hin.
      apply list_elem_of_fmap in Hin as ([k2 o2] & [= -> ->] & Hin). done.
    + rewrite Hrows. rewrite <-(assoc_L (++)). f_equal. exact Hsplit.
    + destruct rest as [|x rest]; [rewrite take_nil in Hscan; by destruct page'|].
      rewrite length_drop. simpl in *. lia.
  - apply last_None in El as ->. apply ret_ok in Hr as [_ ->]. split; [done|].
    destruct rest; [set_solver|]. by destruct n; [lia|].
Qed.
End subject_scan.

(** ** Properties *)

Section properties.
Context {E : Env}.

(** Three-valued policy simulation is sound.  When the simulation of a
    predicate gives a definite answer, every set of live facts that agrees
    with its assumptions (application, memberships, source, assurance)
    evaluates the predicate to that answer, whatever the live proofs and
    devices are. *)
Theorem simulated_predicate_sound {F} `{PredicateFacts F} (facts : F) (client : Client.t)
    (groups : gset string) (source : option string) (level : AssuranceLevel) (p : Predicate)
    (b : bool) :
  agrees facts client groups source level →
  Simulation.simulated_predicate client groups source level p = Some b →
  evaluate facts p = b.
Proof. intros Hag Hs. by eapply simulated_sound. Qed.

Lemma level_of_acr l l' : acr_of_level l = acr_of_level l' → l = l'.
Proof. by destruct l, l'. Qed.

Lemma load_ok client user identity s facts s' :
  Claims.load client user identity s = (Ok facts, s') →
  s' = s ∧ facts.(TrustedPredicateFacts.client) = client
  ∧ facts.(TrustedPredicateFacts.identity) = identity
  ∧ groups_for user.(User.id) s = (Ok facts.(TrustedPredicateFacts.groups), s)
  ∧ ∃ session, s.(St.db) !! ("sessions", identity.(Identity.session_id)) = Some (RSession session)
      ∧ Claims.session_matches s.(St.clock) session user identity = true.
Proof.
  intros Hl. pose proof (pure_run (Claims.load client user identity) _ _ _ Hl) as ->.
  unfold Claims.load in Hl. tx_inv.
  repeat match goal with
  | H : ?m ?t = (Ok _, ?t') |- _ =>
      is_var t'; let Hp := fresh in pose proof (pure_run m _ _ _ H) as Hp; subst t'
  | H : ?m ?t = (Ok _, ?t') |- _ =>
      is_var t; let Hp := fresh in pose proof (pure_run m _ _ _ H) as Hp; subst t
  end.
  split_and!; eauto.
Qed.

(** An allowing simulation is honoured live.  If the simulation of a
    request decides "allow" for a user, and at decision time the user has the
    simulated groups, the sign-in has the simulated assurance, and (where the
    client has a conditional policy) its session is live with the assumed
    source, then the live policy check accepts the user for exactly the
    simulated scopes, and the client is an enabled, interactive one that has
    them registered. *)
Theorem simulation_allow_sound (input : Simulation.t) (client : Client.t) (user : User.t)
    (groups : gset string) (source_enabled : bool) (device : option string)
    (identity : Identity.t) (s : St.t) :
  Simulation.decision input client user groups source_enabled device = "allow" →
  groups_for user.(User.id) s = (Ok groups, s) →
  identity.(Identity.mfa) = bool_decide (input.(Simulation.level) = LevelMfa) →
  (is_Some (Claims.policy_of client).(Policy.conditional) →
     ∃ facts, Claims.load client user identity s = (Ok facts, s)
       ∧ facts.(TrustedPredicateFacts.source) = Simulation.assumed_source input source_enabled
       ∧ Assurance.actual identity = acr_of_level input.(Simulation.level)) →
  Claims.enforce client user identity input.(Simulation.scope) s = (Ok (), s)
  ∧ client.(Client.enabled) = true ∧ client.(Client.service) = false
  ∧ user.(User.enabled) = true ∧ input.(Simulation.scope) ⊆ client.(Client.scopes).
Proof.
  intros Hd Hg Hmfa Hfacts. apply decision_allow in Hd as [Hr Hsc].
  unfold Simulation.reasons, Simulation.ordinary_reasons in Hr.
  rewrite <-!(assoc_L (++)) in Hr. repeat apply app_eq_nil in Hr as [? Hr].
  repeat match goal with H : app _ _ = [] |- _ => apply app_eq_nil in H as [? ?] end.
  repeat match goal with H : (if ?b then [_] else []) = [] |- _ =>
    destruct b eqn:?; [discriminate H|clear H] end.
  bools. split; [|done]. unfold Claims.enforce. rewrite (bind_step _ _ _ _ _ Hg).
  rewrite (bind_step _ _ _ () s); cycle 1.
  { apply ensure_ok. split; [|done]. apply forallb_forall. intros rule Hin%list_elem_of_In.
    apply bool_decide_eq_true. unfold Claims.rules in Hin. rewrite Hmfa.
    apply elem_of_cons in Hin as [->|Hin]; [done|].
    apply list_elem_of_omap in Hin as (sc & Hin & Hrule). apply elem_of_btree_iter, Hsc in Hin.
    unfold Simulation.scope_reasons in Hin. rewrite Hrule in Hin.
    by apply app_eq_nil in Hin as [? _]. }
  destruct (Claims.policy_of client).(Policy.conditional) as [policy|] eqn:Ep; [|done].
  destruct Hfacts as (facts & Hl & Hsrc & Hacr); [by eexists|].
  rewrite (bind_step _ _ _ _ _ Hl). apply ensure_ok. split; [|done].
  apply load_ok in Hl as (_ & Hc & Hi & Hgr & _). rewrite Hg in Hgr. injection Hgr as Hgr.
  assert (agrees facts client groups (Simulation.assumed_source input source_enabled)
            input.(Simulation.level)) as Hag.
  { split_and!; simpl; intros; rewrite ?Hc, ?Hi, ?Hsrc, <-?Hgr; try done. rewrite Hacr.
    apply eq_true_iff_eq. rewrite String.eqb_eq, bool_decide_eq_true.
    split; [intros Heq; by apply level_of_acr in Heq|by intros ->]. }
  apply andb_true_iff. split; [by eapply no_conditional_reasons|].
  apply forallb_forall. intros sc Hin%list_elem_of_In. apply elem_of_btree_iter, Hsc in Hin.
  unfold Simulation.scope_reasons in Hin. rewrite Ep in Hin. simpl in Hin.
  apply app_eq_nil in Hin as [_ Hin].
  destruct (ConditionalPolicy.scopes policy !! sc) as [l|]; [|done].
  by eapply no_conditional_reasons.
Qed.

Lemma scope_reasons_same input client user g1 g2 src mfa sc :
  same_on g1 g2 (Simulation.decision_groups client input.(Simulation.scope)) →
  sc ∈ input.(Simulation.scope) →
  Simulation.scope_reasons input client user g1 src mfa sc
  = Simulation.scope_reasons input client user g2 src mfa sc.
Proof.
  intros Hs Hsc. unfold Simulation.scope_reasons. f_equal.
  - destruct (_ !! sc) as [rule|] eqn:Er; [|done].
    eapply rule_reasons_same, rule_same; [done|]. by eapply scope_rule_relevant.
  - destruct (Claims.policy_of client).(Policy.conditional) as [policy|] eqn:Ep; [|done]. simpl.
    destruct (ConditionalPolicy.scopes policy !! sc) as [l|] eqn:El; [|done].
    apply conditional_reasons_same. intros p Hp.
    eapply predicate_same; [done|]. by eapply scope_predicate_relevant.
Qed.

(** The simulation observes only the groups it declares.  Two membership
    sets that agree on [decision_groups] (the groups the caller must be able
    to read) give the same simulation result, reasons included, so the answer
    tells the caller nothing about any other membership. *)
Theorem simulation_observes_decision_groups (input : Simulation.t) (client : Client.t)
    (user : User.t) (g1 g2 : gset string) (source_enabled : bool) (device : option string) :
  (∀ g, g ∈ Simulation.decision_groups client input.(Simulation.scope) → g ∈ g1 ↔ g ∈ g2) →
  Simulation.simulate_decision input client user g1 source_enabled device
  = Simulation.simulate_decision input client user g2 source_enabled device.
Proof.
  intros Hs.
  assert (Simulation.reasons input client user g1 source_enabled device
          = Simulation.reasons input client user g2 source_enabled device) as Hr.
  { unfold Simulation.reasons, Simulation.ordinary_reasons.
    rewrite (rule_reasons_same g1 g2 (Policy.access (Claims.policy_of client)));
      [|by apply (rule_same g1 g2 client (Simulation.scope input) Hs), list_elem_of_here].
    rewrite (disjoint_same g1 g2 (Client.allowed_groups client));
      [|refine (same_on_mono g1 g2 _ _ _ Hs); unfold Simulation.decision_groups; set_solver].
    do 4 f_equal. destruct (Claims.policy_of client).(Policy.conditional) as [policy|] eqn:Ep;
      [|done].
    apply conditional_reasons_same. intros p Hp. eapply predicate_same; [done|].
    unfold Simulation.relevant_predicates. rewrite Ep. apply elem_of_app. by left. }
  assert (Simulation.scope_decisions input client user g1 source_enabled
          = Simulation.scope_decisions input client user g2 source_enabled) as Hd.
  { apply list_fmap_ext. intros i sc Hi. f_equal. apply scope_reasons_same; [done|].
    apply elem_of_btree_iter. by eapply list_elem_of_lookup_2. }
  unfold Simulation.simulate_decision, Simulation.decision. by rewrite Hr, Hd.
Qed.

(** A registered conditional policy is small.  Every predicate of a policy
    that [validate_mappings] accepts has at most sixteen nodes and depth at
    most four, so evaluating it is bounded whatever the registrant sent. *)
Theorem registered_predicates_bounded (client : Client.t) (policy : ConditionalPolicy.t)
    (p : Predicate) :
  PolicyRules.validate_mappings client = Ok () →
  (Claims.policy_of client).(Policy.conditional) = Some policy →
  p ∈ PolicyRules.predicates policy →
  (predicate_size p ≤ 16 ∧ predicate_depth p ≤ 4)%nat.
Proof.
  unfold PolicyRules.validate_mappings. intros Hv Hp Hin. rewrite Hp in Hv.
  destruct (PolicyRules.validate_all _ _ ∅ false) as [n|]; [|done]. simpl in Hv.
  case_match; [done|]. destruct (negb _); [done|].
  destruct (PolicyRules.validate_predicates client (PolicyRules.predicates policy)) eqn:Ev; [|done].
  clear Hv. revert Ev. induction (PolicyRules.predicates policy) as [|q l IH]; [set_solver|].
  cbn [PolicyRules.validate_predicates].
  destruct (PolicyRules.validate_predicate client 1 q 0) as [m|] eqn:Eq; [|done]. simpl. intros Ev.
  apply elem_of_cons in Hin as [->|Hin]; [|by apply IH].
  apply validate_predicate_bounds in Eq. lia.
Qed.

(** A claim mapping cannot forge the subject.  For a client whose mappings
    passed validation, the claims of an identity are an object whose [sub] is
    the user's subject at that client, whatever the ordinary and conditional
    mappings, attributes and literals are. *)
Theorem mapped_subject_protected (user : User.t) (client : Client.t) (scopes : gset string)
    (identity : Identity.t) (s s' : St.t) (claims : json) :
  PolicyRules.validate_mappings client = Ok () →
  Claims.mapped_claims_for_identity user client scopes identity s = (Ok claims, s') →
  Json.get "sub" claims = Some (JStr (Claims.subject user client)).
Proof.
  intros [Hm Hc]%validate_mappings_protected Hr.
  assert ("sub" ∈ PolicyRules.PROTECTED_CLAIMS) as Hsub by (vm_compute; set_solver).
  unfold Claims.mapped_claims_for_identity in Hr. apply bind_ok in Hr as (c0 & s1 & H0 & Hr).
  apply mapped_claims_sub in H0; [|intros m Hin Heq; apply (Hm m Hin); by rewrite Heq].
  destruct (Claims.policy_of client).(Policy.conditional) as [policy|] eqn:Ep.
  - apply bind_ok in Hr as (u & s2 & _ & Hr). apply bind_ok in Hr as (facts & s3 & _ & Hr).
    eapply fold_mappings_keep; [|exact Hr|exact H0].
    intros c a t c' t' Hin Hf Ho. cbv beta zeta in Hf.
    case_match; [|by apply ret_ok in Hf as [-> _]].
    eapply add_mapping_keeps; [done|done|]. intros Heq. apply (Hc policy a eq_refl Hin). by rewrite Heq.
  - apply ret_ok in Hr as [-> _]. apply H0.
Qed.

(** Subjects are unique per client.  A user that [validate_user] accepts
    shares no mapped subject with any other stored user of that client: no
    other user's id or subject there equals it. *)
Theorem validated_subject_unique (user : User.t) (s s' : St.t) (cid subject : string) :
  validate_user user s = (Ok (), s') →
  user.(User.subjects) !! cid = Some subject →
  ∃ client, s.(St.db) !! ("clients", cid) = Some (RClient client) ∧
    ∀ k other, s.(St.db) !! ("users", k) = Some (RUser other) →
      other.(User.id) ≠ user.(User.id) →
      other.(User.id) ≠ subject ∧ Claims.subject other client ≠ subject.
Proof.
  unfold validate_user. intros Hv Hsub. tx_inv.
  match goal with H : for_each _ _ _ = _ |- _ => rename H into Hloop end.
  apply elem_of_btree_entries in Hsub. revert Hsub Hloop.
  induction (btree_entries user.(User.subjects)) as [|kv l IH]; [set_solver|].
  cbn [for_each]. intros Hin Hloop. apply bind_ok in Hloop as ([] & s1 & Hk & Hloop).
  assert (validate_subject PAGE user kv s = (Ok (), s) ∧ s1 = s) as [Hk' ->].
  { pose proof (pure_run (validate_subject PAGE user kv) _ _ _ Hk) as ->. done. }
  apply elem_of_cons in Hin as [<-|Hin]; [|by apply IH]. clear Hk Hloop IH.
  unfold validate_subject in Hk'. tx_inv. eexists. split; [done|].
  intros k other Ho Hne. unfold scan_subjects in *.
  match goal with H : subject_pages _ _ _ ?c _ _ _ = _ |- _ => rename H into Hp, c into client end.
  pose proof (subject_pages_ok (S (length (bucket_rows "users" s.(St.db)))) PAGE user client
    subject s _ _ [] (bucket_rows "users" s.(St.db)) ltac:(unfold PAGE; lia) eq_refl
    (Nat.lt_succ_diag_r _) Hp) as [_ Hno].
  apply elem_of_bucket_rows, Hno in Ho. unfold subject_taken in Ho.
  apply andb_false_iff in Ho as [Ho|Ho]; [by bools|].
  apply orb_false_iff in Ho as [? ?]. by bools.
Qed.
End properties.

(** ** A concrete policy *)

Module ClaimPolicyDemo.
#[local] Existing Instance Demo.env.

Definition condition : Predicate := All [GroupMember "staff"; Not (Assurance LevelPassword)].
Definition conditional : ConditionalPolicy.t :=
  ConditionalPolicy.mk [condition] {[ "email" := [Application "crm"] ]}
    [ConditionalClaimMapping.mk (ClaimMapping.mk "profile" "dept" (Attribute "department"))
       (GroupMember "staff")].
Definition policy : Policy.t :=
  Policy.mk (Rule.mk {["staff"]} ∅ {["banned"]} ∅ ∅ false) ∅ (Some conditional).
Definition settings : ProviderSettings.t :=
  ProviderSettings.mk None None None None None ∅ None None None [] None ∅ None None None None false None
    [] false false None ∅ false false ∅ None None None None ∅ [] None None
    [ClaimMapping.mk "profile" "nick" Username] false false false policy None false false false.
Definition client : Client.t :=
  Client.mk "crm" "CRM" (Some "#s3cret") ["https://crm.test"]
    {["openid"; "profile"; "email"]} ∅ false true false settings.
Definition user : User.t :=
  User.mk false TotpSettings.default "seed" "u-bob" "bob" None "Bob" "" true false 1 None None None
    100 {[ "department" := JStr "R&D" ]} false {[ "crm" := "legacy-7" ]} ∅.
Definition identity : Identity.t := Identity.mk ["pwd"; "otp"] None "u-bob" 1 true 900 "sess-1".
Definition session : Session.t := Session.mk "sess-1" "#tok" identity 2000 false.
Definition state : St.t := St.set_db DelegationDemo.state
  (<[("sessions", "sess-1") := RSession session]>
   (<[("clients", "crm") := RClient client]> DelegationDemo.state.(St.db))).
Definition input : Simulation.t :=
  Simulation.mk "crm" "bob" {["openid"; "profile"; "email"]} None LevelMfa.
Definition facts : TrustedPredicateFacts.t :=
  TrustedPredicateFacts.mk client identity {["staff"; "ops"]} None None 1000.

Example load_runs : (Claims.load client user identity state).1 = Ok facts.
Proof. vm_compute. reflexivity. Qed.
Example claims_run :
  (Claims.mapped_claims_for_identity user client {["openid"; "profile"]} identity state).1
  = Ok (JObj [("dept", JStr "R&D"); ("name", JStr "Bob"); ("nick", JStr "bob");
              ("preferred_username", JStr "bob"); ("sub", JStr "legacy-7")]).
Proof. vm_compute. reflexivity. Qed.
End ClaimPolicyDemo.

Lemma simulated_predicate_sound_witness :
  evaluate ClaimPolicyDemo.facts ClaimPolicyDemo.condition = true.
Proof.
  apply (simulated_predicate_sound ClaimPolicyDemo.facts ClaimPolicyDemo.client {["staff"; "ops"]} None
           LevelMfa).
  - split_and!; [done|done|done|]. intros l. by destruct l; vm_compute.
  - vm_compute. reflexivity.
Defined.

Lemma simulation_allow_sound_witness :
  @Claims.enforce Demo.env ClaimPolicyDemo.client ClaimPolicyDemo.user ClaimPolicyDemo.identity
    {["openid"; "profile"; "email"]} ClaimPolicyDemo.state = (Ok (), ClaimPolicyDemo.state).
Proof.
  refine (proj1 (@simulation_allow_sound Demo.env ClaimPolicyDemo.input ClaimPolicyDemo.client
    ClaimPolicyDemo.user {["staff"; "ops"]} false None ClaimPolicyDemo.identity ClaimPolicyDemo.state
    _ _ _ _)).
  - vm_compute. reflexivity.
  - vm_compute. reflexivity.
  - reflexivity.
  - intros _. exists ClaimPolicyDemo.facts. split_and!; vm_compute; reflexivity.
Defined.

Lemma simulation_observes_decision_groups_witness :
  Simulation.simulate_decision ClaimPolicyDemo.input ClaimPolicyDemo.client ClaimPolicyDemo.user
    {["staff"; "ops"]} false None
  = Simulation.simulate_decision ClaimPolicyDemo.input ClaimPolicyDemo.client ClaimPolicyDemo.user
    {["staff"]} false None.
Proof.
  apply simulation_observes_decision_groups. intros g Hg.
  assert (g = "staff" ∨ g = "banned") as [-> | ->].
  { assert (Simulation.decision_groups ClaimPolicyDemo.client (Simulation.scope ClaimPolicyDemo.input)
            = {["staff"; "banned"]}) as He by (apply (bool_decide_eq_true_1 _); vm_compute; reflexivity).
    rewrite He in Hg. apply elem_of_union in Hg as [Hg|Hg]; apply elem_of_singleton in Hg; auto. }
  - split; intros _; apply (bool_decide_eq_true_1 _); vm_compute; reflexivity.
  - split; intros Hin; exfalso; revert Hin; apply (bool_decide_eq_false_1 _); vm_compute; reflexivity.
Defined.

Lemma registered_predicates_bounded_witness :
  (predicate_size ClaimPolicyDemo.condition ≤ 16 ∧ predicate_depth ClaimPolicyDemo.condition ≤ 4)%nat.
Proof.
  apply (@registered_predicates_bounded Demo.env ClaimPolicyDemo.client ClaimPolicyDemo.conditional).
  - vm_compute. reflexivity.
  - reflexivity.
  - vm_compute. apply list_elem_of_here.
Defined.

Lemma mapped_subject_protected_witness :
  Json.get "sub" (JObj [("dept", JStr "R&D"); ("name", JStr "Bob"); ("nick", JStr "bob");
                ("preferred_username", JStr "bob"); ("sub", JStr "legacy-7")])
  = Some (JStr (@Claims.subject Demo.env ClaimPolicyDemo.user ClaimPolicyDemo.client)).
Proof.
  eapply (@mapped_subject_protected Demo.env ClaimPolicyDemo.user ClaimPolicyDemo.client
            {["openid"; "profile"]} ClaimPolicyDemo.identity ClaimPolicyDemo.state
            ClaimPolicyDemo.state).
  - vm_compute. reflexivity.
  - vm_compute. reflexivity.
Defined.

Lemma validated_subject_unique_witness :
  ∃ client, ClaimPolicyDemo.state.(St.db) !! ("clients", "crm") = Some (RClient client) ∧
    ∀ k other, ClaimPolicyDemo.state.(St.db) !! ("users", k) = Some (RUser other) →
      other.(User.id) ≠ "u-bob" →
      other.(User.id) ≠ "legacy-7" ∧ @Claims.subject Demo.env other client ≠ "legacy-7".
Proof.
  apply (@validated_subject_unique Demo.env ClaimPolicyDemo.user ClaimPolicyDemo.state
           ClaimPolicyDemo.state).
  - vm_compute. reflexivity.
  - vm_compute. reflexivity.
Defined.
