(* ===== verification/Redaction.v ===== *)
(** * Redaction of audit details (src/src/store.rs)

    Before an audit event is stored, every member of its details whose name
    carries a secret, a password, a token, a hash or key material is replaced by
    a marker, at any depth; nesting beyond 32 levels is replaced as a whole. *)

From S2P Require Import Prelude Json.

Module Redaction.
Definition to_ascii_lowercase_byte (c : Ascii.ascii) : Ascii.ascii :=
  if Str.is_ascii_upper c then Ascii.ascii_of_N (Ascii.N_of_ascii c + 32) else c.
(** [str::to_ascii_lowercase]. *)
Definition to_ascii_lowercase (s : string) : string :=
  Str.of_bytes (to_ascii_lowercase_byte <$> Str.bytes s).

(** [str::contains]. *)
Fixpoint contains (s part : string) : bool :=
  Str.starts_with s part || match s with EmptyString => false | String _ s => contains s part end.

Definition PARTS : list string :=
  ["secret"; "password"; "token"; "hash"; "totp"; "recovery"; "seed"; "private_key"; "key_material"].

Definition sensitive_audit_name (name : string) : bool :=
  let name := to_ascii_lowercase name in
  existsb (contains name) PARTS
  || existsb (String.eqb name) ["authorization"; "proxy-authorization"; "cookie"]
  || contains name "authorization_header"
  || contains name "auth_header".

Definition redacted : json := JStr "[redacted]".
(** The markers that redaction leaves alone. *)
Definition sentinel (v : json) : bool :=
  match v with
  | JStr s => String.eqb s "[redacted]" || String.eqb s "[changed]"
  | _ => false
  end.

(** [redact_audit_value_at], with 32 - depth levels left. *)
Fixpoint redact_levels (levels : nat) (v : json) : json :=
  match levels with
  | O => redacted
  | S levels =>
      match v with
      | JObj l =>
          JObj ((λ kv, (kv.1, if sensitive_audit_name kv.1
                              then if sentinel kv.2 then kv.2 else redacted
                              else redact_levels levels kv.2)) <$> l)
      | JArr l => JArr (redact_levels levels <$> l)
      | v => v
      end
  end.
Definition redact_audit_value (v : json) : json := redact_levels 32 v.

(** [Member v k w]: some object nested in [v] has the member [k] with value [w]. *)
Inductive Member : json → string → json → Prop :=
| member_here l k w : (k, w) ∈ l → Member (JObj l) k w
| member_obj l j v k w : (j, v) ∈ l → Member v k w → Member (JObj l) k w
| member_arr l v k w : v ∈ l → Member v k w → Member (JArr l) k w.

(** The depth of nesting, counting the value itself. *)
Fixpoint height (v : json) : nat :=
  match v with
  | JObj l => S (foldr (λ kv n, Nat.max (height kv.2) n) O l)
  | JArr l => S (foldr (λ v n, Nat.max (height v) n) O l)
  | _ => 1
  end.

(** No audit detail leaks credential material: in a redacted value every
    member, at any depth, whose name is sensitive holds a redaction marker. *)
Theorem redaction_complete (v : json) (k : string) (w : json) :
  Member (redact_audit_value v) k w → sensitive_audit_name k = true → sentinel w = true.
Proof.
  unfold redact_audit_value. generalize 32%nat. intros n Hm Hk. revert v Hm.
  induction n as [|n IH]; intros v Hm; [inversion Hm|].
  destruct v as [| | | |l|l]; simpl in Hm; inversion Hm as [? ? ? Hin|? ? ? ? ? Hin Hw|? ? ? ? Hin Hw]; subst.
  - apply list_elem_of_fmap in Hin as (u & -> & Hu). eauto.
  - apply list_elem_of_fmap in Hin as ([j u] & [= -> ->] & Hv). simpl in *. rewrite Hk.
    by destruct (sentinel u) eqn:Hu.
  - apply list_elem_of_fmap in Hin as ([j' u] & [= -> ->] & Hv). simpl in *.
    destruct (sensitive_audit_name j') eqn:Hj; [|eauto].
    destruct (sentinel u) eqn:Hu; [|inversion Hw].
    destruct u; simpl in Hu; try done. inversion Hw.
Qed.

Lemma redaction_complete_witness :
  sentinel (JStr "[redacted]") = true.
Proof.
  apply (redaction_complete (JArr [JObj [("Client_Secret", JStr "s3cr3t")]]) "Client_Secret").
  - vm_compute. eapply member_arr; [by apply list_elem_of_here|]. apply member_here, list_elem_of_here.
  - vm_compute. reflexivity.
Defined.

(** Redacting twice changes nothing more, so a stored event can be
    redacted again on export without losing its markers. *)
Theorem redaction_idempotent (v : json) :
  redact_audit_value (redact_audit_value v) = redact_audit_value v.
Proof.
  unfold redact_audit_value. generalize 32%nat. intros n. revert v.
  induction n as [|n IH]; intros v; [done|].
  destruct v as [| | | |l|l]; simpl; try done; f_equal; rewrite <-list_fmap_compose;
    apply list_fmap_ext; intros i x _; simpl; [apply IH|].
  destruct (sensitive_audit_name x.1); [|by rewrite IH]. destruct (sentinel x.2) eqn:Hx; simpl; by rewrite ?Hx.
Qed.

Lemma height_obj l kv : kv ∈ l → (height kv.2 < height (JObj l))%nat.
Proof. induction l as [|x l IH]; [set_solver|]. simpl in *. intros [->|?%IH]%elem_of_cons; lia. Qed.
Lemma height_arr l v : v ∈ l → (height v < height (JArr l))%nat.
Proof. induction l as [|x l IH]; [set_solver|]. simpl in *. intros [->|?%IH]%elem_of_cons; lia. Qed.

(** Redaction removes nothing else: a value of at most 32 levels without
    sensitive member names is stored as it is. *)
Theorem redaction_preserves (v : json) :
  (height v ≤ 32)%nat → (∀ k w, Member v k w → sensitive_audit_name k = false) →
  redact_audit_value v = v.
Proof.
  unfold redact_audit_value. generalize 32%nat. intros n. revert v.
  induction n as [|n IH]; intros v Hh Hs; [destruct v; simpl in Hh; lia|].
  destruct v as [| | | |l|l]; simpl; try done; f_equal.
  - rewrite <-(list_fmap_id l) at 2. apply list_fmap_ext. intros i x Hx%list_elem_of_lookup_2.
    unfold id. apply IH; [pose proof (height_arr l x Hx); lia|]. intros k w ?. by eapply Hs, member_arr.
  - rewrite <-(list_fmap_id l) at 2. apply list_fmap_ext. intros i [j x] Hx%list_elem_of_lookup_2.
    unfold id. simpl. rewrite (Hs j x) by (by apply member_here). f_equal.
    apply IH; [pose proof (height_obj l (j, x) Hx); simpl in *; lia|].
    intros k w ?. by eapply Hs, member_obj.
Qed.

Lemma redaction_preserves_witness :
  redact_audit_value (JObj [("request_id", JStr "r-1")]) = JObj [("request_id", JStr "r-1")].
Proof.
  apply redaction_preserves; [simpl; lia|]. intros k w Hm.
  inversion Hm as [? ? ? Hin|? ? ? ? ? Hin Hw|]; subst;
    apply list_elem_of_singleton in Hin; injection Hin as -> ->; [vm_compute; reflexivity|].
  inversion Hw.
Defined.
End Redaction.
