(* ===== verification/Identities.v ===== *)
(** * Identities, sessions and the audit trail (src/src/core.rs, identity.rs,
    identity/logout_queue.rs, device_trust.rs, mtls.rs, directory.rs,
    assembly/radius.rs, assembly/directory.rs, management/agent_applications.rs)

    Every use of a stored identity re-checks it against the current records: the
    account, its epoch, the session or the agent approval it stands for, and the
    credential binding it was authenticated with.  [authorize_identity] adds the
    client's own conditions. *)

From stdpp Require Import pretty.
From S2P Require Import Prelude Json Model Store Env Provider Jose Delegation Agents Assurance Claims Redaction.

#[local] Set Warnings "-clear-no-such-hyp".

(** ** Audit *)

Section audit.
Context {E : Env}.

Definition REVISIONED : list string :=
  ["user."; "group."; "client."; "registration."; "source.configure"; "source.reconcile";
   "source_link.reconcile"; "agent."; "delegation."; "access."; "ssf.stream."; "connector.";
   "signing_key."; "admin.recover"; "directory.apply"; "reconciliation.schedule.";
   "cloud_directory.apply"; "certificate."; "offboard."; "device."; "mtls."].

(** [agent::audit_attribution]: the details with the owners of the agents
    involved. *)
Definition add_member (k : string) (o : option string) (details : json) : json :=
  match o with Some v => Json.set k (JStr v) details | None => details end.
Definition audit_attribution (actor action target : string) (details : json) : tx json :=
  let acting := Str.strip_prefix "agent:" actor in
  let subject := if Str.starts_with action "agent." then Some target else None in
  let attribute attributed other :=
    agent ← get Agent.t "agents" attributed;
    let details :=
      match agent with
      | Some a => add_member "authorized_by" a.(Agent.authorized_by)
                    (add_member "parent_user" a.(Agent.parent_user) details)
      | None => details
      end in
    match other with
    | None => mret details
    | Some id =>
        agent ← get Agent.t "agents" id;
        mret (add_member "target_parent_user"
                (match agent with Some a => a.(Agent.parent_user) | None => None end) details)
    end in
  match acting, subject with
  | Some acting, Some subject =>
      attribute acting (if String.eqb subject acting then None else Some subject)
  | Some acting, None => attribute acting None
  | None, Some subject => attribute subject None
  | None, None => mret details
  end.

(** [format!("{:020}", n)]. *)
Definition pad20 (n : Z) : string :=
  let d := decimal n in
  Str.of_bytes (replicate (20 - String.length d) "0"%char) +:+ d.

(** [audit_with_details], the extra details as the members of an object.  The
    [changes] member, the change log of the enclosing transaction, is left
    out. *)
Definition audit_with_details (actor action target : string) (extra : list (string * json)) :
    tx unit :=
  _ ← (if existsb (Str.starts_with action) REVISIONED then
         revision ← get Z "meta" "revision";
         put "meta" "revision" (sat_add (default 0 revision) 1)
       else mret ());
  context ← current;
  let details :=
    Json.extend (Json.obj
      [("request_id", Json.of_option JStr (RequestContext.request_id <$> context))]) extra in
  details ← audit_attribution actor action target (Redaction.redact_audit_value details);
  event ← id;
  at_ ← now;
  put "audit" (pad20 at_ +:+ "-" +:+ event)
    (Audit.mk event at_ actor action target (context ≫= RequestContext.run_id) details).
Definition audit (actor action target : string) : tx unit :=
  audit_with_details actor action target [].

#[global] Instance pure_audit_attribution a b c d : Pure (audit_attribution a b c d).
Proof. unfold audit_attribution. cbv zeta. solve_pure. Qed.
#[global] Instance touches_audit_with a b c l :
  Touches ["meta"; "audit"] (audit_with_details a b c l).
Proof. unfold audit_with_details. cbv zeta. solve_touches. Qed.

(** A protocol event leaves [meta] alone. *)
Lemma touches_audit_with_event a b c l :
  existsb (Str.starts_with b) REVISIONED = false →
  Touches ["audit"] (audit_with_details a b c l).
Proof. intros Hb. unfold audit_with_details. cbv zeta. rewrite Hb. solve_touches. Qed.
Lemma touches_audit_event a b c :
  existsb (Str.starts_with b) REVISIONED = false → Touches ["audit"] (audit a b c).
Proof. apply touches_audit_with_event. Qed.
Lemma audit_event_run a b c s r s' :
  audit a b c s = (r, s') → existsb (Str.starts_with b) REVISIONED = false →
  s'.(St.clock) = s.(St.clock) ∧ (s.(St.rng) ≤ s'.(St.rng))%nat
  ∧ ∀ bk k, bk ≠ "audit" → s'.(St.db) !! (bk, k) = s.(St.db) !! (bk, k).
Proof.
  intros Hrun Hb. pose proof (touches_audit_event a b c Hb s) as (? & _ & ? & Hdb).
  rewrite Hrun in *. split_and!; [done|done|]. intros bk k Hk. apply Hdb. set_solver.
Qed.
End audit.

#[export] Hint Resolve touches_audit_with : tx.
#[export] Hint Extern 1 (Touches _ (audit _ _ _)) =>
  apply touches_audit_event; vm_compute; reflexivity : tx.
#[export] Hint Extern 1 (Touches _ (audit_with_details _ _ _ _)) =>
  apply touches_audit_with_event; vm_compute; reflexivity : tx.

(** ** Device trust (device_trust.rs) *)

Module DeviceTrust.
Inductive ProviderKind := Local | GoogleVerifiedAccessV2.
Definition identity (k : ProviderKind) : string :=
  match k with Local => "local" | GoogleVerifiedAccessV2 => "google_verified_access_v2" end.

Definition provider_kind (c : TrustConfig.t) : Result ProviderKind :=
  match c.(TrustConfig.provider) with
  | None | Some "local" =>
      if bool_decide (is_Some c.(TrustConfig.service_account_file))
         || bool_decide (is_Some c.(TrustConfig.expected_identity))
         || bool_decide (is_Some c.(TrustConfig.customer_id))
         || negb (bool_decide (c.(TrustConfig.allowed_key_trust_levels) = []))
      then Err (Error.bad "Local device trust rejects Verified Access settings")
      else Ok Local
  | Some "google_verified_access_v2" =>
      if bool_decide (is_Some c.(TrustConfig.pem_file)) || bool_decide (is_Some c.(TrustConfig.jwks_file))
         || bool_decide (is_Some c.(TrustConfig.algorithm)) || bool_decide (is_Some c.(TrustConfig.kid))
      then Err (Error.bad "Verified Access rejects the local JWT verifier")
      else Ok GoogleVerifiedAccessV2
  | Some _ => Err (Error.bad "Device trust provider must be local or google_verified_access_v2")
  end.

Section trust.
Context {E : Env}.

Definition provider_ready (c : TrustConfig.t) : bool :=
  match provider_kind c with Ok _ => verifier_loads c | Err _ => false end.

Definition UNCONFIGURED : string := "device_trust_verifier_unconfigured".

Definition policy_reason (client : Client.t) (identity : option Identity.t) : tx (option string) :=
  if negb client.(Client.settings).(ProviderSettings.require_device_trust) then mret None
  else
    match config.(Config.device_trust) with
    | None => mret (Some UNCONFIGURED)
    | Some c =>
        if negb (provider_ready c) then mret (Some UNCONFIGURED)
        else
          match identity with
          | None => mret (Some "device_trust_session_required")
          | Some i =>
              kind ← lift (provider_kind c);
              let provider := DeviceTrust.identity kind in
              at_ ← now;
              session ← get Session.t "sessions" i.(Identity.session_id);
              let session_active :=
                match session with
                | Some s => negb s.(Session.revoked) && (at_ <? s.(Session.expires_at))
                            && String.eqb s.(Session.identity).(Identity.user_id) i.(Identity.user_id)
                            && (s.(Session.identity).(Identity.epoch) =? i.(Identity.epoch))
                | None => false
                end in
              record ← get DeviceVerification.t "device_verifications" i.(Identity.session_id);
              let fresh :=
                match record with
                | Some r => String.eqb r.(DeviceVerification.user_id) i.(Identity.user_id)
                            && String.eqb r.(DeviceVerification.session_id) i.(Identity.session_id)
                            && (r.(DeviceVerification.epoch) =? i.(Identity.epoch))
                            && (at_ <? r.(DeviceVerification.expires_at))
                            && negb (Str.is_empty r.(DeviceVerification.device_id))
                            && bool_decide (r.(DeviceVerification.provider) = Some provider)
                | None => false
                end in
              mret (if session_active && fresh then None else Some "device_trust_required")
          end
    end.

Definition require (client : Client.t) (identity : Identity.t) : tx unit :=
  reason ← policy_reason client (Some identity);
  match reason with
  | None => mret ()
  | Some r =>
      fail (if String.eqb r UNCONFIGURED
            then Error.oauth "unmet_authentication_requirements"
                   "Device trust verifier is not configured"
            else Error.oauth "unmet_authentication_requirements"
                   "Fresh device trust verification is required")
  end.

#[global] Instance pure_policy_reason c i : Pure (policy_reason c i).
Proof. unfold policy_reason. cbv zeta. solve_pure. Qed.
#[global] Instance pure_require c i : Pure (require c i).
Proof. unfold require. solve_pure. Qed.
End trust.
End DeviceTrust.

(** ** Credential bindings of an identity *)

Section adapters.
Context {E : Env}.
Implicit Types i : Identity.t.

(** [eap::Config::validate] and [eap::profile_fingerprint]. *)
Definition eap_config_validate (c : EapProfile.t) : Result unit :=
  if (256 <=? c.(EapProfile.fragment_size))%nat && (c.(EapProfile.fragment_size) <=? 1400)%nat then Ok ()
  else Err (Error.bad "EAP-TLS fragment_size must be 256..1400 bytes").
Definition eap_profile_fingerprint (c : EapProfile.t) : Result string :=
  _ ← eap_config_validate c; profile_fingerprint c.(EapProfile.text).

(** [Core::radius_eap_validate_identity]. *)
Definition radius_eap_validate_identity i : tx unit :=
  if bool_decide (i.(Identity.source) = None) && existsb (String.eqb "x509") i.(Identity.amr) then
    at_ ← now;
    binding ← get EapIdentityBinding.t "radius_eap_identities" i.(Identity.session_id);
    binding ← some_or (match binding with
                       | Some b => if at_ <? b.(EapIdentityBinding.expires_at) then Some b else None
                       | None => None
                       end) Error.unauthorized;
    cert ← get EapCertificate.t "radius_certificates" binding.(EapIdentityBinding.certificate_key);
    cert ← some_or (match cert with
                    | Some c =>
                        if String.eqb c.(EapCertificate.id) binding.(EapIdentityBinding.certificate_id)
                           && String.eqb c.(EapCertificate.user_id) i.(Identity.user_id)
                           && (at_ <? c.(EapCertificate.expires_at))
                        then Some c else None
                    | None => None
                    end) Error.unauthorized;
    if negb (String.eqb cert.(EapCertificate.listener) binding.(EapIdentityBinding.listener))
    then fail Error.unauthorized
    else
      profile ← some_or (config.(Config.eap_profiles) !! binding.(EapIdentityBinding.listener))
                  (Error.bad "RADIUS listener has no EAP-TLS trust profile");
      fp ← lift (eap_profile_fingerprint profile);
      ensure (String.eqb fp binding.(EapIdentityBinding.profile_fingerprint)) Error.unauthorized
  else mret ().

(** [mtls::selector] and [mtls::validate_identity]. *)
Definition mtls_selector (b : MtlsBinding.t) : string :=
  digest (default "" b.(MtlsBinding.fingerprint) +:+ NUL +:+ default "" b.(MtlsBinding.san_uri)
          +:+ NUL +:+ default "" b.(MtlsBinding.san_email)).
Definition mtls_validate_identity i : tx unit :=
  if negb (existsb (String.eqb "cert") i.(Identity.amr)) then mret ()
  else
    at_ ← now;
    link ← get MtlsLoginLink.t "mtls_logins" i.(Identity.session_id);
    link ← some_or (match link with
                    | Some l => if at_ <? l.(MtlsLoginLink.expires_at) then Some l else None
                    | None => None
                    end) Error.unauthorized;
    binding ← get MtlsBinding.t "mtls_bindings" link.(MtlsLoginLink.binding_id);
    _ ← some_or (match binding with
                 | Some b =>
                     if String.eqb b.(MtlsBinding.user_id) i.(Identity.user_id)
                        && String.eqb (mtls_selector b) link.(MtlsLoginLink.selector)
                     then Some b else None
                 | None => None
                 end) Error.unauthorized;
    mret ().

(** [Directory::identity_fingerprint], [fingerprint] and [binding_key]. *)
Definition directory_identity_fingerprint (d : DirectoryConfig.t) : string :=
  digest (d.(DirectoryConfig.url) +:+ NUL +:+ d.(DirectoryConfig.user_base) +:+ NUL
          +:+ Redaction.to_ascii_lowercase d.(DirectoryConfig.id_attribute)).
Definition directory_binding_key (directory external_id : string) : string :=
  digest (directory +:+ NUL +:+ external_id).

Definition from_ldap (s : option SourceIdentity.t) : bool :=
  match s with Some s => Str.starts_with s.(SourceIdentity.id) "ldap/" | None => false end.

(** [directory::validate_identity]. *)
Definition directory_validate_identity i : tx unit :=
  binding ← get DirectoryBinding.t "directory_users" i.(Identity.user_id);
  match binding with
  | Some b =>
      directory ← some_or (config.(Config.directories) !! b.(DirectoryBinding.directory))
                    Error.unauthorized;
      _ ← ensure (String.eqb b.(DirectoryBinding.identity_fingerprint)
                    (directory_identity_fingerprint directory)) Error.unauthorized;
      match i.(Identity.source) with
      | Some source =>
          ensure (negb (Str.starts_with source.(SourceIdentity.id) "ldap/"
            && (negb (String.eqb source.(SourceIdentity.id) ("ldap/" +:+ b.(DirectoryBinding.directory)))
                || negb (String.eqb source.(SourceIdentity.fingerprint)
                           (digest directory.(DirectoryConfig.text)))
                || negb (String.eqb source.(SourceIdentity.link)
                           (directory_binding_key b.(DirectoryBinding.directory)
                              b.(DirectoryBinding.external_id))))))
            Error.unauthorized
      | None => mret ()
      end
  | None => ensure (negb (from_ldap i.(Identity.source))) Error.unauthorized
  end.

#[global] Instance pure_radius_eap i : Pure (radius_eap_validate_identity i).
Proof. unfold radius_eap_validate_identity. solve_pure. Qed.
#[global] Instance pure_mtls i : Pure (mtls_validate_identity i).
Proof. unfold mtls_validate_identity. solve_pure. Qed.
#[global] Instance pure_directory i : Pure (directory_validate_identity i).
Proof. unfold directory_validate_identity. solve_pure. Qed.
End adapters.

(** ** Agent application tokens (management/agent_applications.rs) *)

Module AgentApps.
Definition APPROVALS : string := "agent_application_grants".
Definition SESSION_PREFIX : string := "agent-application:".

(** The approval an identity stands for, if any. *)
Definition bound_approval (i : Identity.t) : option string :=
  Str.strip_prefix SESSION_PREFIX i.(Identity.session_id).

Definition identity (a : Approval.t) (owner : User.t) : Identity.t :=
  Identity.mk [] a.(Approval.source) owner.(User.id) a.(Approval.owner_epoch) a.(Approval.mfa) 0
    (SESSION_PREFIX +:+ a.(Approval.id)).

Definition source_key (s : option SourceIdentity.t) :
    option (string * string * string * option Z) :=
  (λ s, (s.(SourceIdentity.id), s.(SourceIdentity.fingerprint), s.(SourceIdentity.link),
         s.(SourceIdentity.authorization_expires_at))) <$> s.

Section apps.
Context {E : Env}.

Definition validate_live (approval_id : string) (i : Identity.t) (user : User.t) : tx unit :=
  at_ ← now;
  approval ← get Approval.t APPROVALS approval_id;
  approval ← some_or (match approval with
                      | Some a => if Approval.active a at_ then Some a else None
                      | None => None
                      end) Error.unauthorized;
  _ ← ensure (negb (negb (Approval.current_for approval user)
                    || negb (String.eqb i.(Identity.user_id) user.(User.id))
                    || negb (Bool.eqb i.(Identity.mfa) approval.(Approval.mfa))
                    || negb (i.(Identity.auth_time) =? 0)
                    || negb (bool_decide (i.(Identity.amr) = []))
                    || negb (bool_decide (source_key i.(Identity.source)
                                          = source_key approval.(Approval.source)))))
        Error.unauthorized;
  agent ← get Agent.t "agents" approval.(Approval.agent_id);
  agent ← some_or (match agent with
                   | Some a => if bool_decide (a.(Agent.parent_user) = Some approval.(Approval.owner_id))
                               then Some a else None
                   | None => None
                   end) Error.unauthorized;
  principal ← live_principal agent;
  _ ← ensure (bool_decide (is_Some principal)) Error.unauthorized;
  client ← get Client.t "clients" approval.(Approval.client_id);
  _ ← some_or (match client with
               | Some c => if c.(Client.enabled) && negb c.(Client.service)
                              && c.(Client.settings).(ProviderSettings.agent_access)
                           then Some c else None
               | None => None
               end) Error.unauthorized;
  mret ().

Definition credential_tag (agent : Agent.t) : string :=
  digest ("riauth.agent-application/v1" +:+ NUL +:+ agent.(Agent.token_hash)).

Definition reference (a : Approval.t) (agent : Agent.t) : AgentApplication.t :=
  AgentApplication.mk a.(Approval.id) (credential_tag agent).

Definition check_token_grant (grant : Grant.t) : tx unit :=
  let bound := grant.(Grant.identity) ≫= bound_approval in
  match grant.(Grant.agent_application), bound with
  | None, None => mret ()
  | Some reference, Some bound =>
      if String.eqb reference.(AgentApplication.approval) bound
         && bool_decide (grant.(Grant.exchange) = None) then
        approval ← get Approval.t APPROVALS bound;
        approval ← some_or approval Error.unauthorized;
        agent ← get Agent.t "agents" approval.(Approval.agent_id);
        agent ← some_or agent Error.unauthorized;
        ensure (negb (negb (String.eqb approval.(Approval.client_id) grant.(Grant.client_id))
                      || negb (bool_decide (approval.(Approval.resource) = grant.(Grant.resource)))
                      || negb (bool_decide (grant.(Grant.scopes) ⊆ approval.(Approval.scopes)))
                      || negb (String.eqb (credential_tag agent)
                                 reference.(AgentApplication.credential))))
          Error.unauthorized
      else fail Error.unauthorized
  | _, _ => fail Error.unauthorized
  end.

Definition act (grant : Grant.t) : tx (option json) :=
  match grant.(Grant.agent_application) with
  | None => mret None
  | Some reference =>
      approval ← get Approval.t APPROVALS reference.(AgentApplication.approval);
      approval ← some_or approval Error.unauthorized;
      client ← get Client.t "clients" approval.(Approval.client_id);
      client ← some_or client Error.unauthorized;
      mret (Some (Json.obj [("sub", JStr ("agent:" +:+ approval.(Approval.agent_id)));
                            ("iss", JStr (issuer_for_client client))]))
  end.

#[global] Instance pure_validate_live a i u : Pure (validate_live a i u).
Proof. unfold validate_live. solve_pure. Qed.
#[global] Instance pure_check_token_grant g : Pure (check_token_grant g).
Proof. unfold check_token_grant. cbv zeta. solve_pure. Qed.
#[global] Instance pure_act g : Pure (act g).
Proof. unfold act. solve_pure. Qed.
End apps.
End AgentApps.

(** ** Identities *)

Section identity.
Context {E : Env}.

(** [identity::validate_user]. *)
Definition identity_validate_user (i : Identity.t) : tx User.t :=
  user ← get User.t "users" i.(Identity.user_id);
  user ← some_or user Error.unauthorized;
  _ ← ensure (negb (negb user.(User.enabled) || negb (user.(User.epoch) =? i.(Identity.epoch))))
        Error.unauthorized;
  mret user.

Definition validate_session (i : Identity.t) (user : User.t) : tx unit :=
  session ← get Session.t "sessions" i.(Identity.session_id);
  session ← some_or session Error.unauthorized;
  ensure (negb (session.(Session.revoked)
                || negb (String.eqb session.(Session.identity).(Identity.user_id) user.(User.id))))
    Error.unauthorized.

Definition identity_user_unbound (i : Identity.t) : tx User.t :=
  _ ← radius_eap_validate_identity i;
  _ ← mtls_validate_identity i;
  _ ← directory_validate_identity i;
  _ ← source_validate_identity i;
  identity_validate_user i.

Definition identity_user (i : Identity.t) : tx User.t :=
  user ← identity_user_unbound i;
  _ ← match AgentApps.bound_approval i with
      | Some approval => AgentApps.validate_live approval i user
      | None => validate_session i user
      end;
  mret user.

(** [Core::session]. *)
Definition session (token : string) : tx (User.t * Session.t) :=
  sid ← get string "session_tokens" (digest token);
  sid ← some_or sid Error.unauthorized;
  session ← get Session.t "sessions" sid;
  session ← some_or session Error.unauthorized;
  at_ ← now;
  _ ← ensure (negb (session.(Session.revoked) || (session.(Session.expires_at) <=? at_)))
        Error.unauthorized;
  user ← identity_user session.(Session.identity);
  mret (user, session).

Definition authorize_identity (c : Client.t) (i : Identity.t) : tx User.t :=
  user ← identity_user i;
  _ ← ensure (negb (negb c.(Client.enabled) || c.(Client.service)
                    || c.(Client.require_mfa) && negb i.(Identity.mfa))) Error.forbidden;
  _ ← (if bool_decide (c.(Client.allowed_groups) = ∅) then mret ()
       else
         groups ← groups_for user.(User.id);
         ensure (negb (bool_decide (c.(Client.allowed_groups) ## groups))) Error.forbidden);
  _ ← Claims.enforce c user i ∅;
  _ ← DeviceTrust.require c i;
  mret user.

#[global] Instance pure_identity_validate_user i : Pure (identity_validate_user i).
Proof. unfold identity_validate_user. solve_pure. Qed.
#[global] Instance pure_validate_session i u : Pure (validate_session i u).
Proof. unfold validate_session. solve_pure. Qed.
#[global] Instance pure_identity_user_unbound i : Pure (identity_user_unbound i).
Proof. unfold identity_user_unbound. solve_pure. Qed.
#[global] Instance pure_identity_user i : Pure (identity_user i).
Proof. unfold identity_user. solve_pure. Qed.
#[global] Instance pure_session t : Pure (session t).
Proof. unfold session. solve_pure. Qed.
#[global] Instance pure_authorize_identity c i : Pure (authorize_identity c i).
Proof. unfold authorize_identity. solve_pure. Qed.
End identity.

(** ** Relying-party sessions (identity/logout_queue.rs) *)

Section logout.
Context {E : Env}.

Definition rp_session_id (i : Identity.t) (client : Client.t) : string :=
  digest (i.(Identity.session_id) +:+ NUL +:+ client.(Client.id)).

(** [logout::record]. *)
Definition record_rp_session (client : Client.t) (i : Identity.t) (subject : string)
    (grant : Grant.t) : tx string :=
  let sid := rp_session_id i client in
  existing ← get RpSession.t "rp_sessions" sid;
  at_ ← now;
  _ ← put "rp_sessions" sid
        (RpSession.mk sid i.(Identity.session_id) i.(Identity.user_id) subject client.(Client.id)
           (match existing with Some e => e.(RpSession.created_at) | None => at_ end)
           (Z.max (match existing with Some e => e.(RpSession.expires_at) | None => 0 end)
              grant.(Grant.expires_at))
           false);
  mret sid.

#[global] Instance touches_record_rp c i sub g : Touches ["rp_sessions"] (record_rp_session c i sub g).
Proof. unfold record_rp_session. cbv zeta. solve_touches. Qed.
End logout.

#[export] Hint Resolve touches_record_rp : tx.

(** ** What an accepted identity establishes *)

Section theory.
Context {E : Env}.
Implicit Types (i : Identity.t) (s : St.t).

Lemma validate_session_ok i u s x s' :
  validate_session i u s = (Ok x, s') →
  ∃ ss, s.(St.db) !! ("sessions", i.(Identity.session_id)) = Some (RSession ss)
        ∧ ss.(Session.revoked) = false
        ∧ ss.(Session.identity).(Identity.user_id) = u.(User.id).
Proof. unfold validate_session. intros Hrun. tx_inv. bools. eauto. Qed.

Lemma validate_live_ok a i u s x s' :
  AgentApps.validate_live a i u s = (Ok x, s') →
  ∃ ap ag, s.(St.db) !! (AgentApps.APPROVALS, a) = Some (RApproval ap)
        ∧ Approval.active ap s.(St.clock) = true
        ∧ ap.(Approval.owner_epoch) = u.(User.epoch)
        ∧ s.(St.db) !! ("agents", ap.(Approval.agent_id)) = Some (RAgent ag)
        ∧ ag.(Agent.parent_user) = Some ap.(Approval.owner_id).
Proof.
  unfold AgentApps.validate_live. intros Hrun. tx_inv.
  repeat match goal with H : match ?o with Some _ => _ | None => _ end = Some _ |- _ =>
    destruct o; [|done]; case_match; simplify_eq/= end.
  unfold Approval.current_for in *. bools.
  do 2 eexists. split_and!; first [done|lia].
Qed.

(** What stands behind an identity: a live session of the account, or a live
    approval of the agent application it was issued for. *)
Definition backed s i (u : User.t) : Prop :=
  match AgentApps.bound_approval i with
  | None =>
      ∃ ss, s.(St.db) !! ("sessions", i.(Identity.session_id)) = Some (RSession ss)
            ∧ ss.(Session.revoked) = false
            ∧ ss.(Session.identity).(Identity.user_id) = u.(User.id)
  | Some a =>
      ∃ ap ag, s.(St.db) !! (AgentApps.APPROVALS, a) = Some (RApproval ap)
        ∧ Approval.active ap s.(St.clock) = true
        ∧ ap.(Approval.owner_epoch) = u.(User.epoch)
        ∧ s.(St.db) !! ("agents", ap.(Approval.agent_id)) = Some (RAgent ag)
        ∧ ag.(Agent.parent_user) = Some ap.(Approval.owner_id)
  end.

Lemma identity_user_ok i s u s' :
  identity_user i s = (Ok u, s') →
  s' = s ∧ s.(St.db) !! ("users", i.(Identity.user_id)) = Some (RUser u)
  ∧ u.(User.enabled) = true ∧ u.(User.epoch) = i.(Identity.epoch) ∧ backed s i u.
Proof.
  intros Hrun. split; [by eapply pure_run; [|exact Hrun]; apply _|].
  unfold identity_user in Hrun. tx_inv.
  match goal with H : identity_user_unbound _ _ = _ |- _ =>
    pose proof (pure_run _ _ _ _ H) as Hp; rewrite Hp in *; clear Hp;
    unfold identity_user_unbound in H; tx_inv end.
  repeat match goal with H : _ _ = (Ok ?x, ?s1) |- _ =>
    assert_fails (constr_eq s1 s); is_var s1;
    pose proof (pure_run _ _ _ _ H); subst s1 end.
  match goal with H : identity_validate_user _ _ = _ |- _ => unfold identity_validate_user in H end.
  tx_inv. bools. split_and!; [done|done|lia|]. unfold backed.
  case_match; [by eapply validate_live_ok|by eapply validate_session_ok].
Qed.

(** An identity is accepted for a client only while the account exists, is
    enabled and still at the identity's epoch, its session (or the agent
    approval it stands for) is live, the client is enabled and user-facing,
    its MFA and group conditions hold now; and the check changes nothing. *)
Theorem authorize_identity_sound (c : Client.t) (i : Identity.t) (s : St.t) (u : User.t) (s' : St.t) :
  authorize_identity c i s = (Ok u, s') →
  s' = s
  ∧ s.(St.db) !! ("users", i.(Identity.user_id)) = Some (RUser u)
  ∧ u.(User.enabled) = true ∧ u.(User.epoch) = i.(Identity.epoch)
  ∧ backed s i u
  ∧ c.(Client.enabled) = true ∧ c.(Client.service) = false
  ∧ (c.(Client.require_mfa) = true → i.(Identity.mfa) = true)
  ∧ (c.(Client.allowed_groups) = ∅
     ∨ ∃ groups g, groups_for u.(User.id) s = (Ok groups, s)
                   ∧ g ∈ c.(Client.allowed_groups) ∧ g ∈ groups).
Proof.
  intros Hrun. split; [by eapply pure_run; [|exact Hrun]; apply _|].
  unfold authorize_identity in Hrun. tx_inv.
  match goal with H : identity_user _ _ = _ |- _ =>
    apply identity_user_ok in H as (-> & Hu & He & Hp & Hb) end.
  bools. split_and!; try done.
  - intros Hm. match goal with H : _ && _ = false |- _ => rewrite Hm in H; by apply negb_false_iff in H end.
  - case_bool_decide as Hg; [by left|right]. tx_inv.
    match goal with H : groups_for _ _ = (Ok ?gs, ?s1) |- _ =>
      pose proof (pure_run _ _ _ _ H); subst s1; exists gs end.
    bools. match goal with H : ¬ (_ ## _) |- _ => rename H into Hd end.
    destruct (set_choose_or_empty (c.(Client.allowed_groups) ∩ x0)) as [[g Hin]|He']; [set_solver|].
    exfalso. apply Hd. set_solver.
Qed.
End theory.

(** ** A concrete account, client and session *)

Module FlowDemo.
#[local] Existing Instance Demo.env.

Definition user : User.t := DelegationDemo.user "u-amy" "amy".
Definition identity : Identity.t := Identity.mk ["pwd"; "otp"] None "u-amy" 1 true 900 "sess-1".
Definition session : Session.t := Session.mk "sess-1" "#st" identity 5000 false.
Definition client : Client.t :=
  Client.mk "crm" "CRM" (Some "#s3cret") ["https://crm.test"]
    {["openid"; "offline_access"; "profile"]} {["staff"]} true true false ProviderSettings.default.
Definition key : SigningKey.t := SigningKey.mk None "ES256" "k1" "" 1.
Definition db : gmap (string * string) row :=
  {[ ("users", "u-amy") := RUser user;
     ("sessions", "sess-1") := RSession session;
     ("clients", "crm") := RClient client;
     ("index_user_groups/#u-amy", "k1") := RString "staff";
     ("meta", "issuer") := RString "https://id.test";
     ("meta", "keys") := RKeys (Keys.mk key []) ]}.
Definition state : St.t := St.mk db 1000 0 None.

Example authorize_runs : authorize_identity client identity state = (Ok user, state).
Proof. vm_compute. reflexivity. Qed.
End FlowDemo.

Lemma authorize_identity_sound_witness :
  User.epoch FlowDemo.user = Identity.epoch FlowDemo.identity.
Proof.
  refine (proj1 (proj2 (proj2 (proj2 (@authorize_identity_sound Demo.env FlowDemo.client
    FlowDemo.identity FlowDemo.state FlowDemo.user FlowDemo.state _))))).
  vm_compute. reflexivity.
Defined.
