(* ===== verification/Oidc.v ===== *)
(** * Clients, scopes and authorization requests (src/src/oidc.rs,
    authorization.rs, keyring.rs)

    Client authentication, the scopes a client may ask for, the full check of an
    authorization request, and the one-use rule for the pushed and signed
    requests it refers to. *)

From S2P Require Import Prelude Json Model Store Env Provider Jose Assurance.

#[local] Set Warnings "-clear-no-such-hyp".

(** ** Requests *)

Definition DEVICE_GRANT : string := "urn:ietf:params:oauth:grant-type:device_code".
(** [response::MODES]. *)
Definition MODES : list string :=
  ["query"; "fragment"; "form_post"; "jwt"; "query.jwt"; "fragment.jwt"; "form_post.jwt"].

Definition invalid_client : Error.t :=
  Error.new UNAUTHORIZED "invalid_client" "Client authentication failed".
Definition invalid_grant : Error.t :=
  Error.oauth "invalid_grant" "Grant invalid, expired, already used, or revoked".

(** [o.as_deref().filter(|s| !s.is_empty())]. *)
Definition nonempty (o : option string) : option string :=
  match o with
  | Some s => if Str.is_empty s then None else Some s
  | None => None
  end.
Definition required (field : option string) (name : string) : Result string :=
  ok_or (nonempty field) (Error.bad ("Missing " +:+ name)).

(** The words of a space-separated parameter. *)
Definition space_words (s : string) : list string :=
  List.filter (λ w, negb (Str.is_empty w)) (Str.split " " s).

Definition scope_request (scope : string) (client : Client.t) : Result (gset string) :=
  if 2048 <? Str.len scope then Err (Error.oauth "invalid_scope" "Scope too long")
  else
    let scopes : gset string := list_to_set (space_words scope) in
    if bool_decide (scopes = ∅) || negb (bool_decide (scopes ⊆ client.(Client.scopes)))
    then Err (Error.oauth "invalid_scope" "Requested scopes are not allowed for this client")
    else if bool_decide ("offline_access" ∈ scopes) && negb (grant_enabled client "refresh_token")
    then Err (Error.oauth "invalid_scope" "offline_access requires the refresh_token grant")
    else Ok scopes.

Definition token_manager (requester owner : Client.t) (grant : Grant.t) : bool :=
  String.eqb requester.(Client.id) owner.(Client.id)
  || Client.confidential requester
     && (bool_decide (requester.(Client.id) ∈ owner.(Client.settings).(ProviderSettings.token_managers))
         || match grant.(Grant.exchange) with
            | Some e => String.eqb e.(ExchangeGrant.requester_id) requester.(Client.id)
            | None => false
            end).

(** The claim names a device review shows. *)
Definition device_claim_names (client : Client.t) (scopes : gset string) : gset string :=
  let has s := bool_decide (s ∈ scopes) in
  list_to_set ["sub"; "auth_time"; "acr"; "amr"]
  ∪ (if has "profile" then list_to_set ["name"; "preferred_username"] else ∅)
  ∪ (if has "email" then list_to_set ["email"; "email_verified"] else ∅)
  ∪ (if has "groups"
        || client.(Client.settings).(ProviderSettings.groups_in_profile) && has "profile"
     then {[ "groups" ]} else ∅)
  ∪ list_to_set (omap (λ m, if has m.(ClaimMapping.scope) then Some m.(ClaimMapping.claim) else None)
       client.(Client.settings).(ProviderSettings.claim_mappings))
  ∪ match client.(Client.settings).(ProviderSettings.policy).(Policy.conditional) with
    | Some p =>
        list_to_set (omap (λ c,
          let m := c.(ConditionalClaimMapping.mapping) in
          if has m.(ClaimMapping.scope) then Some m.(ClaimMapping.claim) else None)
          p.(ConditionalPolicy.claim_mappings))
    | None => ∅
    end.

Section oidc.
Context {E : Env}.

(** [Authorization::request_hash] and [authorization::signed_content_hash]. *)
Definition request_hash (r : Authorization.t) : string :=
  digest (authorization_string (Authorization.undecided r)).
Definition signed_content_hash (r : Authorization.t) : string :=
  request_hash (Authorization.set_refs r None None None).
(** The request with only its binding cleared. *)
Definition unbound (r : Authorization.t) : Authorization.t :=
  Authorization.set_refs r r.(Authorization.request_uri) r.(Authorization.request_object_hash) None.

Definition needs_reauthentication (at_ : Z) (client : Client.t) (request : Authorization.t)
    (i : Identity.t) : bool :=
  Assurance.needs_step_up client request i
  || Authorization.has_prompt request "login"
  || Authorization.has_prompt request "select_account"
  || bool_decide (request.(Authorization.max_age) = Some 0)
  || match request.(Authorization.max_age) with
     | Some age => (i.(Identity.auth_time) =? 0) || (age <? sat_sub at_ i.(Identity.auth_time))
     | None => false
     end.

(** ** Clients *)

Definition get_client (cid : string) : tx Client.t :=
  c ← get Client.t "clients" cid;
  some_or (match c with
           | Some c => if c.(Client.enabled) then Some c else None
           | None => None
           end) invalid_client.

(** [keyring::for_client]. *)
Definition primary_keys : tx Keys.t :=
  k ← get Keys.t "meta" "keys"; some_or k Error.internal.
Definition keys_for_client (client : Client.t) : tx Keys.t :=
  match client.(Client.settings).(ProviderSettings.signing_key) with
  | Some "signing" | None => primary_keys
  | Some id =>
      k ← get Keys.t "key_domains" id;
      some_or k (Error.bad "Client signing domain is missing")
  end.

(** The assertion branch of [authenticate_client]. *)
Definition authenticate_assertion (request : TokenRequest.t) (cid : string) (client : Client.t) :
    tx Client.t :=
  if negb (bool_decide (client.(Client.settings).(ProviderSettings.token_endpoint_auth_method)
                        = Some PrivateKeyJwt))
     || bool_decide (is_Some request.(TokenRequest.client_secret))
     || negb (bool_decide (request.(TokenRequest.client_assertion_type) = Some ASSERTION_TYPE))
  then fail invalid_client
  else
    token ← some_or request.(TokenRequest.client_assertion) invalid_client;
    issuer ← get string "meta" "issuer";
    issuer ← some_or issuer invalid_client;
    at_ ← now;
    jwks ← some_or client.(Client.settings).(ProviderSettings.jwks) invalid_client;
    claims ← lift (map_err (λ _, invalid_client)
                     (Jwks.verify at_ jwks token cid (endpoint issuer "/oauth/token")));
    _ ← ensure (bool_decide (Json.as_str (Json.index claims "sub") = Some cid)) invalid_client;
    _ ← or_else (consume_assertion claims ("client:" +:+ cid)) invalid_client;
    mret client.

(** The authentication method a request without an assertion uses. *)
Definition auth_method_used (request : TokenRequest.t) : ClientAuthMethod :=
  match request.(TokenRequest.client_secret) with
  | Some _ => default ClientSecretPost request.(TokenRequest.client_auth_method)
  | None => AuthNone
  end.
Definition secret_accepted (client : Client.t) (secret : option string) (confidential : bool) :
    bool :=
  match client.(Client.secret_hash) with
  | Some hash => match secret with Some s => String.eqb (digest s) hash | None => false end
  | None => negb (confidential || bool_decide (is_Some secret))
  end.

Definition authenticate_client (request : TokenRequest.t) (confidential : bool) : tx Client.t :=
  cid ← some_or (nonempty request.(TokenRequest.client_id)) invalid_client;
  client ← get_client cid;
  if bool_decide (is_Some request.(TokenRequest.client_assertion))
     || bool_decide (is_Some request.(TokenRequest.client_assertion_type))
  then authenticate_assertion request cid client
  else
    _ ← ensure (match client.(Client.settings).(ProviderSettings.token_endpoint_auth_method) with
                | Some m => bool_decide (m = auth_method_used request)
                | None => true
                end) invalid_client;
    _ ← ensure (secret_accepted client request.(TokenRequest.client_secret) confidential)
          invalid_client;
    mret client.

Definition reject_proxy_client (request : TokenRequest.t) : tx unit :=
  client ← match nonempty request.(TokenRequest.client_id) with
           | Some cid => get Client.t "clients" cid
           | None => mret None
           end;
  if match client with
     | Some c => bool_decide (is_Some c.(Client.settings).(ProviderSettings.proxy))
     | None => false
     end
  then
    _ ← authenticate_client request false;
    fail (Error.oauth "unauthorized_client" "Proxy clients are redeemed only by riAuth's outpost")
  else mret ().

(** ** Pushed and signed requests *)

Definition validate_reference (client : Client.t) (request : Authorization.t) : tx unit :=
  at_ ← now;
  _ ← ensure (negb (client.(Client.settings).(ProviderSettings.require_pushed_authorization_requests)
                    && bool_decide (request.(Authorization.request_uri) = None)))
        (Error.bad "This client requires PAR");
  _ ← ensure (negb (client.(Client.settings).(ProviderSettings.require_signed_request)
                    && bool_decide (request.(Authorization.request_object_hash) = None)))
        (Error.bad "This client requires a signed request object");
  _ ← match request.(Authorization.request_uri) with
      | Some uri =>
          p ← get Pushed.t "pushed_requests" (digest uri);
          pushed ← some_or (match p with
                            | Some p => if (at_ <? p.(Pushed.expires_at)) && negb p.(Pushed.used)
                                        then Some p else None
                            | None => None
                            end) (Error.oauth "invalid_request_uri" "Pushed request expired or consumed");
          ensure (String.eqb (request_hash (unbound pushed.(Pushed.request)))
                    (request_hash (unbound request)))
            (Error.bad "Pushed request content was changed")
      | None => mret ()
      end;
  match request.(Authorization.request_object_hash) with
  | Some id =>
      r ← get Signed.t "signed_requests" id;
      _ ← some_or (match r with
                   | Some r =>
                       if (at_ <? r.(Signed.expires_at)) && negb r.(Signed.used)
                          && String.eqb r.(Signed.client_id) request.(Authorization.client_id)
                          && String.eqb r.(Signed.request_hash) (signed_content_hash request)
                       then Some r else None
                   | None => None
                   end) (Error.oauth "invalid_request_object" "Signed request expired or consumed");
      mret ()
  | None => mret ()
  end.

Definition reference_expiry (request : Authorization.t) : tx (option Z) :=
  pushed ← match request.(Authorization.request_uri) with
           | Some uri => p ← get Pushed.t "pushed_requests" (digest uri);
                         mret (Pushed.expires_at <$> p)
           | None => mret None
           end;
  signed ← match request.(Authorization.request_object_hash) with
           | Some id => r ← get Signed.t "signed_requests" id;
                        mret (Signed.expires_at <$> r)
           | None => mret None
           end;
  mret (union_with (λ a b, Some (Z.min a b)) pushed signed).

Definition consume (request : Authorization.t) : tx unit :=
  _ ← match request.(Authorization.request_uri) with
      | Some uri =>
          p ← get Pushed.t "pushed_requests" (digest uri);
          p ← some_or p (Error.bad "Missing pushed request");
          put "pushed_requests" (digest uri) (Pushed.consume p)
      | None => mret ()
      end;
  match request.(Authorization.request_object_hash) with
  | Some id =>
      r ← get Signed.t "signed_requests" id;
      r ← some_or r (Error.bad "Missing signed request");
      put "signed_requests" id (Signed.consume r)
  | None => mret ()
  end.

(** ** Authorization requests *)

(** [URL_SAFE_NO_PAD.decode(s).is_ok_and(|b| b.len() == 32)]. *)
Definition decodes_to_32 (s : string) : bool :=
  match b64url_decode s with Some b => Str.len b =? 32 | None => false end.
Definition longer_than (n : Z) (o : option string) : bool :=
  match o with Some s => n <? Str.len s | None => false end.
Definition PROMPTS : list string := ["none"; "login"; "consent"; "select_account"].

(** The checks of [validate_authorization] that read no record. *)
Definition request_well_formed (client : Client.t) (request : Authorization.t) : Result unit :=
  if client.(Client.service)
  then Err (Error.oauth "unauthorized_client" "Service client cannot authenticate users")
  else
    _ ← grant_allowed client "authorization_code";
    if negb (redirect_matches client request.(Authorization.redirect_uri))
    then Err (Error.bad "Unregistered redirect URI")
    else if negb (String.eqb request.(Authorization.response_type) "code")
    then Err (Error.oauth "unsupported_response_type" "Only authorization code is supported")
    else if match request.(Authorization.response_mode) with
            | Some m => negb (existsb (String.eqb m) MODES)
            | None => false
            end
    then Err (Error.bad "Unsupported response mode")
    else if match request.(Authorization.dpop_jkt) with
            | Some j => negb (decodes_to_32 j) || negb (Str.len j =? 43)
            | None => false
            end
    then Err (Error.bad "Invalid DPoP key thumbprint")
    else if negb (String.eqb request.(Authorization.code_challenge_method) "S256")
            || negb (Str.len request.(Authorization.code_challenge) =? 43)
            || negb (decodes_to_32 request.(Authorization.code_challenge))
    then Err (Error.bad "A valid S256 PKCE challenge is required for every client")
    else if longer_than 512 request.(Authorization.state)
            || longer_than 512 request.(Authorization.nonce)
    then Err (Error.bad "state and nonce must be at most 512 bytes")
    else
      let prompts := space_words (default "" request.(Authorization.prompt)) in
      if existsb (λ p, negb (existsb (String.eqb p) PROMPTS)) prompts
         || existsb (String.eqb "none") prompts && negb (Nat.eqb (length prompts) 1)
      then Err (Error.bad "Invalid prompt combination")
      else Ok ().

Definition validate_authorization (request : Authorization.t) : tx (Client.t * gset string) :=
  client ← get_client request.(Authorization.client_id);
  _ ← lift (request_well_formed client request);
  _ ← validate_reference client request;
  scopes ← lift (scope_request request.(Authorization.scope) client);
  scopes ← lift (Assurance.requested_scopes client request scopes);
  _ ← lift (Resource.validate client request.(Authorization.resource) scopes);
  _ ← ensure (bool_decide ("openid" ∈ scopes)) (Error.oauth "invalid_scope" "openid is required");
  mret (client, scopes).

#[global] Instance pure_get_client c : Pure (get_client c).
Proof. unfold get_client. solve_pure. Qed.
#[global] Instance pure_primary_keys : Pure primary_keys.
Proof. unfold primary_keys. solve_pure. Qed.
#[global] Instance pure_keys_for_client c : Pure (keys_for_client c).
Proof. unfold keys_for_client. solve_pure. Qed.
#[global] Instance pure_validate_reference c r : Pure (validate_reference c r).
Proof. unfold validate_reference. solve_pure. Qed.
#[global] Instance pure_reference_expiry r : Pure (reference_expiry r).
Proof. unfold reference_expiry. solve_pure. Qed.
#[global] Instance pure_validate_authorization r : Pure (validate_authorization r).
Proof. unfold validate_authorization. solve_pure. Qed.
#[global] Instance touches_authenticate_assertion r cid c :
  Touches ["assertion_replays"] (authenticate_assertion r cid c).
Proof. unfold authenticate_assertion. solve_touches. Qed.
Hint Resolve touches_authenticate_assertion : tx.
#[global] Instance touches_authenticate_client r c :
  Touches ["assertion_replays"] (authenticate_client r c).
Proof. unfold authenticate_client. solve_touches. Qed.
#[global] Instance touches_consume r : Touches ["pushed_requests"; "signed_requests"] (consume r).
Proof. unfold consume. solve_touches. Qed.
End oidc.

#[export] Hint Resolve touches_authenticate_client touches_consume : tx.
