(* ===== verification/Preparation.v ===== *)
(** * Prepared authorization requests (src/src/assembly/oidc.rs)

    A request is prepared before it is decided: a one-use transaction in the
    bucket [authentication], bound to the hash of the request.  A bounded index
    per request hash lists its preparations, so that a decision without a
    transaction id can tell whether it would bypass one.  A direct decision of an
    account leaves a fence: the anonymous preparations that were live then can
    no longer be used by that account. *)

From S2P Require Import Prelude Json Model Store Env Provider Jose Oidc.

#[local] Set Warnings "-clear-no-such-hyp".

Definition PREPARED_REQUESTS : string := "authorization_prepared".
Definition PREPARED_ACTOR_DECISIONS : string := "authorization_prepared_actor_decisions".
Definition PREPARED_INDEX_VERSION : string := "authorization_prepared_index_v1".
Definition MAX_PREPARED_PER_REQUEST : nat := 64.
Arguments MAX_PREPARED_PER_REQUEST : simpl never.

(** [attempts.values().copied().max()]. *)
Definition max_value (m : gmap string Z) : option Z :=
  foldr (λ kv acc, Some (match acc with Some a => Z.max kv.2 a | None => kv.2 end)) None
    (btree_entries m).

(** The filter of an ordinary preparation that is still live. *)
Definition ordinary_live (request_hash : string) (at_ : Z) (a : AuthenticationTransaction.t) : bool :=
  (at_ <? a.(AuthenticationTransaction.expires_at))
  && bool_decide (a.(AuthenticationTransaction.source_stage) = None)
  && String.eqb a.(AuthenticationTransaction.request_hash) request_hash.

(** A row of [browser_authorizations], read as JSON: the proof it names. *)
Definition browser_proof (w : row) : option string :=
  match w with
  | RBrowserPending p => p.(BrowserPending.authentication)
  | RJson v => Json.get "authentication" v ≫= Json.as_str
  | _ => None
  end.

Section preparation.
Context {E : Env}.

Definition prepared_actor_key (request_hash account : string) : string :=
  digest ("authorization-prepared-actor-v1" +:+ NUL +:+ request_hash +:+ NUL +:+ account).

Definition live_ordinary_preparation (key request_hash : string) (at_ : Z) :
    tx (option AuthenticationTransaction.t) :=
  a ← get AuthenticationTransaction.t "authentication" key;
  mret (match a with
        | Some a => if ordinary_live request_hash at_ a then Some a else None
        | None => None
        end).

(** The transactions that browser interactions use as their own proof. *)
Definition browser_proofs : tx (gset string) :=
  rows ← list_all row "browser_authorizations";
  mret (list_to_set (omap (λ kr, browser_proof kr.2) rows)).

Definition legacy_overflow_live (request_hash : string) (at_ : Z) : tx bool :=
  proofs ← browser_proofs;
  rows ← list_all AuthenticationTransaction.t "authentication";
  mret (existsb (λ ka, ordinary_live request_hash at_ ka.2 && negb (bool_decide (ka.1 ∈ proofs))) rows).

Definition clear_overflow (p : PreparedRequests.t) : PreparedRequests.t :=
  PreparedRequests.mk p.(PreparedRequests.attempts) 0 p.(PreparedRequests.expires_at).

Definition specify_transaction : Error.t :=
  Error.conflict "Specify the prepared authorization transaction ID".

(** The anonymous live preparations of an index; one of the account's own is a
    conflict. *)
Definition collect_anonymous (request_hash account : string) (at_ : Z)
    (acc : gmap string Z) (kv : string * Z) : tx (gmap string Z) :=
  if kv.2 <=? at_ then mret acc
  else
    a ← live_ordinary_preparation kv.1 request_hash at_;
    match a with
    | None => mret acc
    | Some a =>
        _ ← ensure (negb (bool_decide (a.(AuthenticationTransaction.user_id) = Some account)))
              specify_transaction;
        mret (match a.(AuthenticationTransaction.user_id) with
              | None => <[kv.1 := a.(AuthenticationTransaction.expires_at)]> acc
              | Some _ => acc
              end)
    end.

(** The fences of an earlier decision that still name a live anonymous
    preparation. *)
Definition keep_fence (request_hash : string) (at_ : Z)
    (acc : gmap string Z) (kv : string * Z) : tx (gmap string Z) :=
  if at_ <? kv.2 then
    a ← live_ordinary_preparation kv.1 request_hash at_;
    mret (match a with
          | Some a => match a.(AuthenticationTransaction.user_id) with
                      | None => <[kv.1 := kv.2]> acc
                      | Some _ => acc
                      end
          | None => acc
          end)
  else mret acc.

(** A marker of this request and account, of bounded size. *)
Definition marker_matches (m : PreparedActorDecisions.t) (request_hash account : string) : bool :=
  String.eqb m.(PreparedActorDecisions.request_hash) request_hash
  && String.eqb m.(PreparedActorDecisions.account) account
  && Nat.leb (size m.(PreparedActorDecisions.attempts)) MAX_PREPARED_PER_REQUEST.

(** Write the fence of a direct decision. *)
Definition write_fence (request_hash account : string) (at_ : Z) (anonymous : gmap string Z) :
    tx unit :=
  let marker_key := prepared_actor_key request_hash account in
  previous ← get PreparedActorDecisions.t PREPARED_ACTOR_DECISIONS marker_key;
  anonymous ← match previous with
              | Some previous =>
                  _ ← ensure (marker_matches previous request_hash account) Error.forbidden;
                  fold_m (keep_fence request_hash at_) anonymous
                    (btree_entries previous.(PreparedActorDecisions.attempts))
              | None => mret anonymous
              end;
  _ ← ensure (Nat.leb (size anonymous) MAX_PREPARED_PER_REQUEST) Error.forbidden;
  put PREPARED_ACTOR_DECISIONS marker_key
    (PreparedActorDecisions.mk request_hash account anonymous (default at_ (max_value anonymous))).

(** Overflow rows of an upgraded index: none may be live, then the mark is
    cleared. *)
Definition settle_overflow (request_hash : string) (at_ : Z) (index : PreparedRequests.t) : tx unit :=
  if at_ <? index.(PreparedRequests.overflow_until) then
    live ← legacy_overflow_live request_hash at_;
    _ ← ensure (negb live) specify_transaction;
    put PREPARED_REQUESTS request_hash (clear_overflow index)
  else mret ().

Definition mark_direct_decision (request_hash account : string) (at_ : Z) : tx unit :=
  index ← get PreparedRequests.t PREPARED_REQUESTS request_hash;
  match index with
  | None => mret ()
  | Some index =>
      _ ← ensure (Nat.leb (size index.(PreparedRequests.attempts)) MAX_PREPARED_PER_REQUEST)
            Error.forbidden;
      _ ← settle_overflow request_hash at_ index;
      anonymous ← fold_m (collect_anonymous request_hash account at_) ∅
                    (btree_entries index.(PreparedRequests.attempts));
      if bool_decide (anonymous = ∅) then mret ()
      else write_fence request_hash account at_ anonymous
  end.

Definition reject_direct_decision_replay (request_hash account key : string) (at_ : Z) : tx unit :=
  marker ← get PreparedActorDecisions.t PREPARED_ACTOR_DECISIONS
             (prepared_actor_key request_hash account);
  match marker with
  | None => mret ()
  | Some marker =>
      _ ← ensure (marker_matches marker request_hash account) Error.forbidden;
      ensure (match marker.(PreparedActorDecisions.attempts) !! key with
              | Some expires_at => negb (at_ <? expires_at)
              | None => true
              end) (Error.conflict "Prepared request already decided for this account")
  end.

Definition reject_preparation_actor_replay (request : Authorization.t) (account : string) : tx unit :=
  transaction ← some_or request.(Authorization.transaction_id) Error.forbidden;
  at_ ← now;
  reject_direct_decision_replay (request_hash request) account (digest transaction) at_.

(** [matching_preparation]: some preparation of the request is live. *)
Definition attempt_live (request_hash : string) (at_ : Z) (kv : string * Z) : tx bool :=
  if at_ <? kv.2 then
    a ← live_ordinary_preparation kv.1 request_hash at_;
    mret (bool_decide (is_Some a))
  else mret false.
Definition matching_preparation (request_hash : string) (at_ : Z) : tx bool :=
  index ← get PreparedRequests.t PREPARED_REQUESTS request_hash;
  match index with
  | None => mret false
  | Some index =>
      _ ← ensure (Nat.leb (size index.(PreparedRequests.attempts)) MAX_PREPARED_PER_REQUEST)
            Error.forbidden;
      found ← any_m (attempt_live request_hash at_) (btree_entries index.(PreparedRequests.attempts));
      if (found : bool) then mret true
      else if at_ <? index.(PreparedRequests.overflow_until) then
        live ← legacy_overflow_live request_hash at_;
        if (live : bool) then mret true
        else
          _ ← put PREPARED_REQUESTS request_hash (clear_overflow index);
          mret false
      else mret false
  end.

(** ** Registration *)

(** The order in which an anonymous preparation gives up its slot. *)
Definition sooner (a b : string * Z) : bool :=
  (a.2 <? b.2) || (a.2 =? b.2) && String.ltb a.1 b.1.

(** One entry of the previous index: still-live preparations are kept, and the
    first anonymous one to expire is the candidate for replacement. *)
Definition keep_attempt (request_hash : string) (at_ : Z)
    (acc : gmap string Z * option (string * Z)) (kv : string * Z) :
    tx (gmap string Z * option (string * Z)) :=
  if kv.2 <=? at_ then mret acc
  else
    a ← live_ordinary_preparation kv.1 request_hash at_;
    mret (match a with
          | None => acc
          | Some a =>
              (<[kv.1 := kv.2]> acc.1,
               if bool_decide (a.(AuthenticationTransaction.user_id) = None)
                  && bool_decide (a.(AuthenticationTransaction.authenticated_session) = None)
                  && match acc.2 with Some c => sooner kv c | None => true end
               then Some kv else acc.2)
          end).

Definition register_preparation (request_hash key : string) (expires_at : Z) : tx unit :=
  at_ ← now;
  previous ← get PreparedRequests.t PREPARED_REQUESTS request_hash;
  kept ← match previous with
         | Some p =>
             _ ← ensure (Nat.leb (size p.(PreparedRequests.attempts)) MAX_PREPARED_PER_REQUEST)
                   Error.forbidden;
             fold_m (keep_attempt request_hash at_) (∅, None) (btree_entries p.(PreparedRequests.attempts))
         | None => mret (∅, None)
         end;
  let overflow_until := match previous with Some p => p.(PreparedRequests.overflow_until) | None => 0 end in
  attempts ← (if Nat.leb MAX_PREPARED_PER_REQUEST (size kept.1) then
                replaced ← some_or kept.2
                             (Error.conflict "Too many pending preparations for this request");
                _ ← remove "authentication" replaced.1;
                mret (base.delete replaced.1 kept.1)
              else mret kept.1);
  let attempts := <[key := expires_at]> attempts in
  put PREPARED_REQUESTS request_hash
    (PreparedRequests.mk attempts overflow_until
       (Z.max (default expires_at (max_value attempts)) overflow_until)).

Definition prepare_authentication_in (request : Authorization.t) (user_id : option string)
    (expires_at : Z) : tx string :=
  transaction ← random_token "ri_auth_";
  let hash := request_hash request in
  let key := digest transaction in
  _ ← put "authentication" key (AuthenticationTransaction.mk hash user_id None expires_at None);
  _ ← register_preparation hash key expires_at;
  mret transaction.

(** ** Upgrade *)

Definition stamp_prepared_index : tx unit := put "meta" PREPARED_INDEX_VERSION 1.

(** One preparation of the upgraded store enters its index, or the overflow mark
    of a full one. *)
Definition backfill_attempt (at_ : Z) (proofs : gset string)
    (ka : string * AuthenticationTransaction.t) : tx unit :=
  let a := ka.2 in
  if (a.(AuthenticationTransaction.expires_at) <=? at_)
     || bool_decide (is_Some a.(AuthenticationTransaction.source_stage))
     || bool_decide (ka.1 ∈ proofs)
  then mret ()
  else
    let hash := a.(AuthenticationTransaction.request_hash) in
    let exp := a.(AuthenticationTransaction.expires_at) in
    index ← get PreparedRequests.t PREPARED_REQUESTS hash;
    let index := default (PreparedRequests.mk ∅ 0 0) index in
    let attempts := index.(PreparedRequests.attempts) in
    let room := bool_decide (is_Some (attempts !! ka.1))
                || Nat.ltb (size attempts) MAX_PREPARED_PER_REQUEST in
    put PREPARED_REQUESTS hash
      (PreparedRequests.mk (if room then <[ka.1 := exp]> attempts else attempts)
         (if room then index.(PreparedRequests.overflow_until)
          else Z.max index.(PreparedRequests.overflow_until) exp)
         (Z.max index.(PreparedRequests.expires_at) exp)).

Definition backfill_prepared_index : tx unit :=
  version ← get Z "meta" PREPARED_INDEX_VERSION;
  if bool_decide (version = Some 1) then mret ()
  else
    at_ ← now;
    proofs ← browser_proofs;
    rows ← list_all AuthenticationTransaction.t "authentication";
    _ ← for_each (backfill_attempt at_ proofs) rows;
    stamp_prepared_index.

#[global] Instance pure_live_ordinary_preparation k h a : Pure (live_ordinary_preparation k h a).
Proof. unfold live_ordinary_preparation. solve_pure. Qed.
#[global] Instance pure_browser_proofs : Pure browser_proofs.
Proof. unfold browser_proofs. solve_pure. Qed.
#[global] Instance pure_legacy_overflow_live h a : Pure (legacy_overflow_live h a).
Proof. unfold legacy_overflow_live. solve_pure. Qed.
#[global] Instance pure_collect_anonymous h c a m kv : Pure (collect_anonymous h c a m kv).
Proof. unfold collect_anonymous. solve_pure. Qed.
#[global] Instance pure_keep_fence h a m kv : Pure (keep_fence h a m kv).
Proof. unfold keep_fence. solve_pure. Qed.
#[global] Instance pure_keep_attempt h a m kv : Pure (keep_attempt h a m kv).
Proof. unfold keep_attempt. solve_pure. Qed.
#[global] Instance pure_attempt_live h a kv : Pure (attempt_live h a kv).
Proof. unfold attempt_live. solve_pure. Qed.
#[global] Instance pure_reject_direct_decision_replay h c k a :
  Pure (reject_direct_decision_replay h c k a).
Proof. unfold reject_direct_decision_replay. solve_pure. Qed.
#[global] Instance touches_settle_overflow h a i :
  Touches [PREPARED_REQUESTS] (settle_overflow h a i).
Proof. unfold settle_overflow. solve_touches. Qed.
#[global] Instance touches_write_fence h c a m :
  Touches [PREPARED_ACTOR_DECISIONS] (write_fence h c a m).
Proof. unfold write_fence. cbv zeta. solve_touches. Qed.
Hint Resolve touches_settle_overflow touches_write_fence : tx.
#[global] Instance touches_mark_direct_decision h c a :
  Touches [PREPARED_REQUESTS; PREPARED_ACTOR_DECISIONS] (mark_direct_decision h c a).
Proof. unfold mark_direct_decision. solve_touches. Qed.
#[global] Instance touches_matching_preparation h a :
  Touches [PREPARED_REQUESTS] (matching_preparation h a).
Proof. unfold matching_preparation. solve_touches. Qed.
#[global] Instance touches_register_preparation h k e :
  Touches ["authentication"; PREPARED_REQUESTS] (register_preparation h k e).
Proof. unfold register_preparation. cbv zeta. solve_touches. Qed.
Hint Resolve touches_register_preparation : tx.
#[global] Instance touches_prepare_authentication_in r u e :
  Touches ["authentication"; PREPARED_REQUESTS] (prepare_authentication_in r u e).
Proof. unfold prepare_authentication_in. cbv zeta. solve_touches. Qed.
End preparation.

#[export] Hint Resolve touches_mark_direct_decision touches_matching_preparation
  touches_prepare_authentication_in : tx.

(** ** Live preparations *)

(** The transaction [key] is a live ordinary preparation of the request. *)
Definition live_prep (s : St.t) (request_hash : string) (at_ : Z) (key : string)
    (a : AuthenticationTransaction.t) : Prop :=
  s.(St.db) !! ("authentication", key) = Some (RAuthentication a)
  ∧ ordinary_live request_hash at_ a = true.

(** Some browser interaction uses the transaction as its own proof. *)
Definition is_browser_proof (s : St.t) (key : string) : Prop :=
  ∃ k w, s.(St.db) !! ("browser_authorizations", k) = Some w ∧ browser_proof w = Some key.

Section theory.
Context {E : Env}.
Implicit Types (s : St.t) (h key account : string).

Lemma ordinary_live_spec h t a :
  ordinary_live h t a = true ↔
  t < a.(AuthenticationTransaction.expires_at)
  ∧ a.(AuthenticationTransaction.source_stage) = None
  ∧ a.(AuthenticationTransaction.request_hash) = h.
Proof.
  unfold ordinary_live. rewrite !andb_true_iff, Z.ltb_lt, bool_decide_eq_true, String.eqb_eq.
  tauto.
Qed.

Lemma live_ordinary_preparation_ok k h t s o s' :
  live_ordinary_preparation k h t s = (Ok o, s') →
  s' = s ∧ ∀ a, o = Some a ↔ live_prep s h t k a.
Proof.
  unfold live_ordinary_preparation, live_prep. intros Hrun. tx_inv.
  match goal with H : _ !! _ = _ <$> ?o |- _ => rename H into Hrow; destruct o as [b|] end;
    simpl in Hrow; rewrite Hrow; (split; [done|]); intros a.
  - destruct (ordinary_live h t b) eqn:Hb; naive_solver congruence.
  - naive_solver.
Qed.

(** *** The fence of a direct decision *)

Lemma collect_anonymous_ok h c t acc kv s m s' :
  collect_anonymous h c t acc kv s = (Ok m, s') →
  s' = s ∧ ((∃ a, live_prep s h t kv.1 a ∧ a.(AuthenticationTransaction.user_id) = None
                 ∧ m = <[kv.1 := a.(AuthenticationTransaction.expires_at)]> acc)
           ∨ m = acc ∧ (t < kv.2 → ∀ a, live_prep s h t kv.1 a →
                ∃ u, a.(AuthenticationTransaction.user_id) = Some u ∧ u ≠ c)).
Proof.
  unfold collect_anonymous. intros Hrun. case_match eqn:Ht.
  { tx_inv. split; [done|]. right. split; [done|]. apply Z.leb_le in Ht. lia. }
  apply bind_ok in Hrun as (o & s1 & [-> Hl]%live_ordinary_preparation_ok & Hrun).
  destruct o as [a|]; tx_inv; (split; [done|]).
  - assert (live_prep s h t kv.1 a) as Hp by by apply Hl.
    destruct (AuthenticationTransaction.user_id a) as [u|] eqn:Hu; [right|left; eauto].
    split; [done|]. intros _ b Hb. apply Hl in Hb as [= <-]. exists u. split; [done|].
    bools. naive_solver.
  - right. split; [done|]. intros _ a Ha. by apply Hl in Ha.
Qed.

Lemma collect_anonymous_fold h c t l acc s m s' :
  fold_m (collect_anonymous h c t) acc l s = (Ok m, s') →
  s' = s
  ∧ (∀ k e, m !! k = Some e → acc !! k = Some e
       ∨ ∃ a, live_prep s h t k a ∧ e = a.(AuthenticationTransaction.expires_at))
  ∧ (∀ k, is_Some (acc !! k) → is_Some (m !! k))
  ∧ ∀ k e a, (k, e) ∈ l → t < e → live_prep s h t k a →
      a.(AuthenticationTransaction.user_id) ≠ Some c
      ∧ (a.(AuthenticationTransaction.user_id) = None → is_Some (m !! k)).
Proof.
  revert acc s'. induction l as [|kv l IH]; intros acc s' Hrun; simpl in Hrun.
  { tx_inv. split_and!; [done|by left|done|set_solver]. }
  apply bind_ok in Hrun as (b & s1 & H1 & H2).
  apply collect_anonymous_ok in H1 as [-> H1]. apply IH in H2 as (-> & Hin & Hmono & Hall).
  split; [done|]. destruct H1 as [(a & Ha & Hu & ->)|[-> Hno]].
  - split_and!.
    + intros k e He. apply Hin in He as [He|?]; [|by right].
      apply lookup_insert_Some in He as [[<- <-]|[_ ?]]; [right; eauto|by left].
    + intros k Hk. apply Hmono. destruct (decide (kv.1 = k)) as [->|].
      * by rewrite lookup_insert_eq.
      * by rewrite lookup_insert_ne.
    + intros k e b [<-|Hkl]%elem_of_cons Ht Hb; [|by eapply Hall].
      simpl in *. destruct Ha as [Ha _], Hb as [Hb _]. rewrite Ha in Hb. injection Hb as <-.
      rewrite Hu. split; [done|]. intros _. apply Hmono. by rewrite lookup_insert_eq.
  - split_and!; [done..|]. intros k e b [<-|Hkl]%elem_of_cons Ht Hb; [|by eapply Hall].
    destruct (Hno Ht b Hb) as (u & Hu & Hne). rewrite Hu. split; [congruence|done].
Qed.

Lemma keep_fence_fold h t l acc s m s' :
  fold_m (keep_fence h t) acc l s = (Ok m, s') →
  s' = s ∧ (∀ k e, m !! k = Some e → acc !! k = Some e ∨ (k, e) ∈ l)
  ∧ ∀ k, is_Some (acc !! k) → is_Some (m !! k).
Proof.
  revert acc s'. induction l as [|[k0 e0] l IH]; intros acc s' Hrun; simpl in Hrun.
  { tx_inv. split_and!; [done|by left|done]. }
  apply bind_ok in Hrun as (b & s1 & H1 & H2).
  assert (s1 = s ∧ (b = acc ∨ b = <[k0 := e0]> acc)) as [-> Hb].
  { unfold keep_fence in H1. simpl in H1. case_match; [|by tx_inv; auto].
    apply bind_ok in H1 as (o & s2 & [-> _]%live_ordinary_preparation_ok & H1). tx_inv.
    split; [done|]. repeat case_match; auto. }
  apply IH in H2 as (-> & Hin & Hmono). split; [done|].
  destruct Hb as [->| ->].
  - split; [|done]. intros k e He. apply Hin in He as [?|?]; [by left|right; by right].
  - split.
    + intros k e He. apply Hin in He as [He|?]; [|right; by right].
      apply lookup_insert_Some in He as [[-> ->]|[_ ?]]; [right; by left|by left].
    + intros k Hk. apply Hmono. destruct (decide (k0 = k)) as [->|].
      * by rewrite lookup_insert_eq.
      * by rewrite lookup_insert_ne.
Qed.

(** Every fence lasts at least as long as the preparation it names. *)
Definition fences_sound (s : St.t) : Prop :=
  ∀ mk m k e a, s.(St.db) !! (PREPARED_ACTOR_DECISIONS, mk) = Some (RActorDecisions m) →
    m.(PreparedActorDecisions.attempts) !! k = Some e →
    s.(St.db) !! ("authentication", k) = Some (RAuthentication a) →
    a.(AuthenticationTransaction.expires_at) ≤ e.

(** The account has a marker that names [key] until [e]. *)
Definition fenced (s : St.t) (h account key : string) (e : Z) : Prop :=
  ∃ m, s.(St.db) !! (PREPARED_ACTOR_DECISIONS, prepared_actor_key h account)
         = Some (RActorDecisions m)
    ∧ marker_matches m h account = true ∧ m.(PreparedActorDecisions.attempts) !! key = Some e.

Lemma fenced_rejects s h account key e t :
  fenced s h account key e → t < e →
  reject_direct_decision_replay h account key t s
    = (Err (Error.conflict "Prepared request already decided for this account"), s).
Proof.
  intros (m & Hrow & Hm & Hk) Ht. unfold reject_direct_decision_replay. tx_get.
  rewrite Hm. unfold ensure at 1. erewrite bind_step by done. rewrite Hk.
  apply Z.ltb_lt in Ht. by rewrite Ht.
Qed.

Lemma write_fence_ok h account t m s s' :
  write_fence h account t m s = (Ok (), s') → fences_sound s →
  (∀ k e a, m !! k = Some e → s.(St.db) !! ("authentication", k) = Some (RAuthentication a) →
     a.(AuthenticationTransaction.expires_at) ≤ e) →
  fences_sound s'
  ∧ ∀ k a, is_Some (m !! k) → s.(St.db) !! ("authentication", k) = Some (RAuthentication a) →
      ∃ e, a.(AuthenticationTransaction.expires_at) ≤ e ∧ fenced s' h account k e.
Proof.
  unfold write_fence. cbv zeta. intros Hrun Hsound Hm.
  apply bind_ok in Hrun as (previous & s1 & [-> Hrow]%get_ok & Hrun).
  apply bind_ok in Hrun as (m' & s1 & Hm' & Hrun). tx_inv.
  assert (s1 = s ∧ (∀ k, is_Some (m !! k) → is_Some (m' !! k))
          ∧ ∀ k e a, m' !! k = Some e →
              s.(St.db) !! ("authentication", k) = Some (RAuthentication a) →
              a.(AuthenticationTransaction.expires_at) ≤ e) as (-> & Hmono & Hm2).
  { destruct previous as [p|]; tx_inv; [|naive_solver].
    match goal with H : fold_m _ _ _ _ = _ |- _ => apply keep_fence_fold in H as (-> & Hin & Hmono) end.
    split_and!; [done..|]. intros k e a He Ha. apply Hin in He as [He|He%elem_of_btree_entries];
      [by eapply Hm|by eapply Hsound]. }
  split.
  - intros mk mm k e a Hmk Hk Ha. simpl in *. rewrite lookup_insert_ne in Ha by done.
    apply lookup_insert_Some in Hmk as [[_ [= <-]]|[_ Hmk]]; simpl in *;
      [by eapply Hm2|by eapply Hsound].
  - intros k a Hk Ha. destruct (Hmono k Hk) as [e He]. exists e. split; [by eapply Hm2|].
    eexists. split; [apply lookup_insert_eq|]. simpl. split; [|done].
    unfold marker_matches. simpl. by rewrite !String.eqb_refl.
Qed.

Lemma settle_overflow_ok h t i s s' :
  settle_overflow h t i s = (Ok (), s') →
  s' = s
  ∨ t < i.(PreparedRequests.overflow_until) ∧ legacy_overflow_live h t s = (Ok false, s)
    ∧ s' = St.set_db s (<[(PREPARED_REQUESTS, h) := RPrepared (clear_overflow i)]> s.(St.db)).
Proof.
  unfold settle_overflow. case_match eqn:Ht; intros Hrun; [|by tx_inv; left].
  apply bind_ok in Hrun as (live & s1 & Hl & Hrun). pose proof (pure_run _ _ _ _ Hl) as ->.
  tx_inv. right. apply Z.ltb_lt in Ht. split_and!; [done|by destruct live|done].
Qed.

(** A direct decision passes only if no live preparation of the account itself
    is indexed, and leaves a fence for each anonymous one. *)
Lemma mark_direct_decision_ok h account t s s' idx :
  mark_direct_decision h account t s = (Ok (), s') → fences_sound s →
  s.(St.db) !! (PREPARED_REQUESTS, h) = Some (RPrepared idx) →
  fences_sound s'
  ∧ ∀ key e a, idx.(PreparedRequests.attempts) !! key = Some e → t < e →
      live_prep s h t key a →
      a.(AuthenticationTransaction.user_id) ≠ Some account
      ∧ (a.(AuthenticationTransaction.user_id) = None →
         ∃ e', a.(AuthenticationTransaction.expires_at) ≤ e' ∧ fenced s' h account key e').
Proof.
  unfold mark_direct_decision. intros Hrun Hsound Hidx.
  erewrite bind_step in Hrun by (eapply get_row; [exact Hidx|reflexivity]). cbv beta iota in Hrun.
  apply bind_ok in Hrun as (? & s1 & [_ ->]%ensure_ok & Hrun).
  apply bind_ok in Hrun as ([] & s1 & Hset & Hrun).
  assert (Hauth : ∀ b k, b ≠ PREPARED_REQUESTS → s1.(St.db) !! (b, k) = s.(St.db) !! (b, k)).
  { intros b k Hb. apply (touches_run [PREPARED_REQUESTS] _ _ _ _ Hset). set_solver. }
  assert (fences_sound s1) as Hsound1.
  { intros mk m k e a. rewrite !Hauth by done. apply Hsound. }
  apply bind_ok in Hrun as (m & s2 & Hm & Hrun).
  apply collect_anonymous_fold in Hm as (-> & Hin & _ & Hall).
  assert (Hlive : ∀ k a, live_prep s1 h t k a ↔ live_prep s h t k a).
  { intros. unfold live_prep. by rewrite Hauth by done. }
  case_bool_decide as Hempty.
  { tx_inv. split; [done|]. intros key e a Hk Ht Ha.
    destruct (Hall key e a) as [Hne Hnone]; [by apply elem_of_btree_entries|done|by apply Hlive|].
    split; [done|]. intros Hu. apply Hnone in Hu. rewrite lookup_empty in Hu. by destruct Hu. }
  apply write_fence_ok in Hrun as [Hs' Hf]; [|done|].
  - split; [done|]. intros key e a Hk Ht Ha.
    destruct (Hall key e a) as [Hne Hnone]; [by apply elem_of_btree_entries|done|by apply Hlive|].
    split; [done|]. intros Hu. apply Hf; [by apply Hnone|]. apply Hlive in Ha. apply Ha.
  - intros k e a He Ha. apply Hin in He as [He|(b & [Hb _] & ->)]; [by rewrite lookup_empty in He|].
    rewrite Ha in Hb. by injection Hb as <-.
Qed.

(** *** Registration *)

(** A preparation nobody has claimed: the only kind that gives up its slot. *)
Definition unclaimed (a : AuthenticationTransaction.t) : Prop :=
  a.(AuthenticationTransaction.user_id) = None
  ∧ a.(AuthenticationTransaction.authenticated_session) = None.

Lemma keep_attempt_ok h t acc kv s m c s' :
  keep_attempt h t acc kv s = (Ok (m, c), s') →
  s' = s ∧ ((m, c) = acc ∧ (t < kv.2 → ∀ a, ¬ live_prep s h t kv.1 a)
           ∨ ∃ a, live_prep s h t kv.1 a ∧ m = <[kv.1 := kv.2]> acc.1
                  ∧ (c = acc.2 ∨ c = Some kv ∧ unclaimed a)).
Proof.
  unfold keep_attempt, unclaimed. intros Hrun. case_match eqn:Ht.
  { tx_inv. split; [done|]. left. split; [done|]. apply Z.leb_le in Ht. lia. }
  apply bind_ok in Hrun as (o & s1 & [-> Hl]%live_ordinary_preparation_ok & Hrun). tx_inv.
  split; [done|]. destruct o as [a|]; simplify_eq.
  - right. exists a. split; [by apply Hl|]. split; [done|].
    case_match eqn:Hc; [|by left]. right. bools. naive_solver.
  - left. split; [done|]. intros _ a Ha. by apply Hl in Ha.
Qed.

Lemma keep_attempt_fold (M : gmap string Z) h t l acc s m c s' :
  (∀ k e, (k, e) ∈ l → M !! k = Some e) → acc.1 ⊆ M →
  fold_m (keep_attempt h t) acc l s = (Ok (m, c), s') →
  s' = s ∧ m ⊆ M ∧ acc.1 ⊆ m
  ∧ (∀ k e a, (k, e) ∈ l → t < e → live_prep s h t k a → m !! k = Some e)
  ∧ (c = acc.2 ∨ ∃ kv a, c = Some kv ∧ is_Some (m !! kv.1) ∧ live_prep s h t kv.1 a ∧ unclaimed a).
Proof.
  revert acc s'. induction l as [|kv l IH]; intros acc s' HM Hacc Hrun; simpl in Hrun.
  { tx_inv. split_and!; [done..|set_solver|by left]. }
  apply bind_ok in Hrun as ([m1 c1] & s1 & [-> H1]%keep_attempt_ok & H2).
  assert (acc.1 ⊆ m1 ∧ m1 ⊆ M) as [Hsub HsubM].
  { assert (M !! kv.1 = Some kv.2) as Hkv by (apply HM; destruct kv; left).
    destruct H1 as [[<- _]|(a & _ & -> & _)]; [done|]. split.
    - apply map_subseteq_spec. intros k e He. destruct (decide (kv.1 = k)) as [<-|].
      + rewrite lookup_insert_eq. rewrite <- Hkv. by eapply lookup_weaken.
      + by rewrite lookup_insert_ne.
    - by apply insert_subseteq_l. }
  apply IH in H2 as (-> & Hm & Hm1 & Hall & Hc); [|by intros; apply HM; right|done].
  simpl in *. split_and!; [done|done|by etrans| |].
  - intros k e a [<-|Hkl]%elem_of_cons Ht Ha; [|by eapply Hall].
    destruct H1 as [[_ Hno]|(b & _ & -> & _)]; [by destruct (Hno Ht a)|].
    eapply lookup_weaken; [apply lookup_insert_eq|done].
  - destruct Hc as [->|?]; [|by right].
    destruct H1 as [[<- _]|(b & Hb & -> & Hb2)]; [by left|]. destruct Hb2 as [->|[-> Hu]]; [by left|].
    right. exists kv, b. split_and!; [done| |done..].
    exists kv.2. eapply lookup_weaken; [apply lookup_insert_eq|done].
Qed.

Lemma map_size_insert_le (m : gmap string Z) k e : (size (<[k := e]> m) ≤ S (size m))%nat.
Proof. rewrite map_size_insert. destruct (m !! k); cbn; lia. Qed.

(** What registering a preparation does to the index of its request and to the
    preparations of the request; [evicted] is the slot that was given up. *)
Record registered (h key : string) (exp : Z) (s s' : St.t) (evicted : option string)
    (idx' : PreparedRequests.t) : Prop := {
  reg_index : s'.(St.db) !! (PREPARED_REQUESTS, h) = Some (RPrepared idx');
  reg_size : (size idx'.(PreparedRequests.attempts) ≤ MAX_PREPARED_PER_REQUEST)%nat;
  reg_key : idx'.(PreparedRequests.attempts) !! key = Some exp;
  reg_frame b k : (b, k) ≠ (PREPARED_REQUESTS, h) → evicted ≠ Some k ∨ b ≠ "authentication" →
    s'.(St.db) !! (b, k) = s.(St.db) !! (b, k);
  reg_clock : s'.(St.clock) = s.(St.clock);
  reg_evicted k : evicted = Some k → s'.(St.db) !! ("authentication", k) = None
    ∧ ∃ a, live_prep s h s.(St.clock) k a ∧ unclaimed a;
  reg_kept idx k e a : s.(St.db) !! (PREPARED_REQUESTS, h) = Some (RPrepared idx) →
    idx.(PreparedRequests.attempts) !! k = Some e → s.(St.clock) < e →
    live_prep s h s.(St.clock) k a → k ≠ key → evicted ≠ Some k →
    idx'.(PreparedRequests.attempts) !! k = Some e;
  reg_overflow idx : s.(St.db) !! (PREPARED_REQUESTS, h) = Some (RPrepared idx) →
    idx'.(PreparedRequests.overflow_until) = idx.(PreparedRequests.overflow_until);
}.

Lemma register_preparation_ok h key exp s s' :
  register_preparation h key exp s = (Ok (), s') → ∃ evicted idx', registered h key exp s s' evicted idx'.
Proof.
  unfold register_preparation. cbv zeta. intros Hrun.
  apply bind_ok in Hrun as (t & s1 & [-> ->]%now_ok & Hrun).
  apply bind_ok in Hrun as (previous & s1 & [-> Hrow]%get_ok & Hrun).
  apply bind_ok in Hrun as ([m c] & s1 & Hkept & Hrun).
  set (M := match previous with Some p => p.(PreparedRequests.attempts) | None => ∅ end).
  assert (s1 = s ∧ (size M ≤ MAX_PREPARED_PER_REQUEST)%nat ∧ m ⊆ M
    ∧ (∀ k e a, M !! k = Some e → s.(St.clock) < e → live_prep s h s.(St.clock) k a → m !! k = Some e)
    ∧ ∀ kv, c = Some kv → is_Some (m !! kv.1)
        ∧ ∃ a, live_prep s h s.(St.clock) kv.1 a ∧ unclaimed a) as (-> & Hsize & Hsub & Hall & Hc).
  { subst M. destruct previous as [p|].
    - apply bind_ok in Hkept as (? & ? & [Hs ->]%ensure_ok & Hkept).
      apply (keep_attempt_fold p.(PreparedRequests.attempts)) in Hkept
        as (-> & Hsub & _ & Hall & Hc);
        [|by intros k e ?%elem_of_btree_entries|apply map_empty_subseteq].
      apply Nat.leb_le in Hs. split_and!; [done..| |].
      + intros k e a Hk. apply Hall. by apply elem_of_btree_entries.
      + intros kv ->. simpl in Hc. destruct Hc as [|(kv' & a & ? & ? & ?)]; naive_solver.
    - tx_inv. split_and!; [done|unfold MAX_PREPARED_PER_REQUEST; rewrite map_size_empty; lia|done| |done].
      intros k e a Hk. by rewrite lookup_empty in Hk. }
  cbn [fst snd] in Hrun. apply bind_ok in Hrun as (att & s1 & Hatt & Hput). apply put_ok in Hput as ->.
  assert (Hidx : ∀ idx, s.(St.db) !! (PREPARED_REQUESTS, h) = Some (RPrepared idx) → previous = Some idx).
  { intros idx Hidx. rewrite Hrow in Hidx. destruct previous; simpl in Hidx; congruence. }
  pose proof (map_subseteq_size _ _ Hsub) as Hsz.
  destruct (Nat.leb MAX_PREPARED_PER_REQUEST (size m)) eqn:Hfull.
  - apply Nat.leb_le in Hfull. apply bind_ok in Hatt as (kv & s2 & [-> ->]%some_or_ok & Hatt). tx_inv.
    destruct (Hc kv eq_refl) as [[e0 Hin] Hun].
    exists (Some kv.1). eexists. constructor; simpl.
    + apply lookup_insert_eq.
    + simpl. etrans; [apply map_size_insert_le|]. rewrite map_size_delete, Hin. unfold MAX_PREPARED_PER_REQUEST in *. lia.
    + apply lookup_insert_eq.
    + intros b k Hne Hev. rewrite lookup_insert_ne by congruence. apply lookup_delete_ne. naive_solver.
    + done.
    + intros k [= <-]. split; [|done]. rewrite lookup_insert_ne by done. apply lookup_delete_eq.
    + intros idx k e a Hi Hk Ht Ha Hne Hev. apply Hidx in Hi as ->. simpl.
      rewrite lookup_insert_ne by done. rewrite lookup_delete_ne by congruence. by eapply Hall.
    + intros idx Hi. by apply Hidx in Hi as ->.
  - apply Nat.leb_gt in Hfull. tx_inv.
    exists None. eexists. constructor; simpl.
    + apply lookup_insert_eq.
    + simpl. etrans; [apply map_size_insert_le|]. unfold MAX_PREPARED_PER_REQUEST in *. lia.
    + apply lookup_insert_eq.
    + intros b k Hne _. by rewrite lookup_insert_ne by congruence.
    + done.
    + done.
    + intros idx k e a Hi Hk Ht Ha Hne Hev. apply Hidx in Hi as ->. simpl.
      rewrite lookup_insert_ne by done. by eapply Hall.
    + intros idx Hi. by apply Hidx in Hi as ->.
Qed.

(** *** The index lists every live preparation *)

Definition bounded (s : St.t) : Prop :=
  ∀ h idx, s.(St.db) !! (PREPARED_REQUESTS, h) = Some (RPrepared idx) →
    (size idx.(PreparedRequests.attempts) ≤ MAX_PREPARED_PER_REQUEST)%nat.

Definition indexed (s : St.t) : Prop :=
  ∀ h k a, live_prep s h s.(St.clock) k a → ¬ is_browser_proof s k →
    ∃ idx, s.(St.db) !! (PREPARED_REQUESTS, h) = Some (RPrepared idx)
      ∧ (idx.(PreparedRequests.attempts) !! k = Some a.(AuthenticationTransaction.expires_at)
         ∨ a.(AuthenticationTransaction.expires_at) ≤ idx.(PreparedRequests.overflow_until)).

Lemma classic_proof s k : is_browser_proof s k ∨ ¬ is_browser_proof s k.
Proof.
  set (l := omap (λ kr : (string * string) * row,
         if String.eqb kr.1.1 "browser_authorizations" then browser_proof kr.2 else None)
         (map_to_list s.(St.db))).
  destruct (decide (k ∈ l)) as [Hin|Hin]; [left|right].
  - apply list_elem_of_omap in Hin as ([[b k'] w] & Hw & Hk). simpl in Hk.
    destruct (String.eqb_spec b "browser_authorizations") as [->|]; [|done].
    apply elem_of_map_to_list in Hw. by exists k', w.
  - intros (k' & w & Hw & Hk). apply Hin, list_elem_of_omap.
    exists (("browser_authorizations", k'), w). split; [by apply elem_of_map_to_list|done].
Qed.

Lemma browser_proofs_ok s ps s' :
  browser_proofs s = (Ok ps, s') → s' = s ∧ ∀ k, k ∈ ps ↔ is_browser_proof s k.
Proof.
  unfold browser_proofs, is_browser_proof. intros Hrun.
  apply bind_ok in Hrun as (rows & s1 & (-> & Hin & Hall)%list_all_elem & Hrun). tx_inv.
  split; [done|]. intros k. rewrite elem_of_list_to_set, list_elem_of_omap. split.
  - intros ([k' w] & Hw%Hin & Hk). eauto.
  - intros (k' & w & Hw & Hk). exists (k', w). split; [by apply Hin|done].
Qed.

Lemma legacy_overflow_live_ok h t s b s' :
  legacy_overflow_live h t s = (Ok b, s') →
  s' = s ∧ (b = true ↔ ∃ k a, live_prep s h t k a ∧ ¬ is_browser_proof s k).
Proof.
  unfold legacy_overflow_live, live_prep. intros Hrun.
  apply bind_ok in Hrun as (ps & s1 & [-> Hps]%browser_proofs_ok & Hrun).
  apply bind_ok in Hrun as (rows & s1 & (-> & Hin & Hall)%list_all_elem & Hrun). tx_inv.
  split; [done|]. rewrite existsb_exists. split.
  - intros ([k a] & Hka & Hb). apply list_elem_of_In, Hin in Hka. simpl in *. bools.
    exists k, a. rewrite <- Hps. done.
  - intros (k & a & [Hrow Hl] & Hno). exists (k, a). rewrite <- list_elem_of_In, Hin. simpl.
    split; [done|]. rewrite Hl, <- Hps in *. by rewrite bool_decide_eq_false_2.
Qed.

(** A later time only ends preparations. *)
Lemma live_prep_later s h t t' k a : t ≤ t' → live_prep s h t' k a → live_prep s h t k a.
Proof. unfold live_prep. rewrite !ordinary_live_spec. intuition lia. Qed.

(** States that differ in other buckets and the clock agree on preparations. *)
Lemma live_prep_frame s s' h t k a :
  s'.(St.db) !! ("authentication", k) = s.(St.db) !! ("authentication", k) →
  live_prep s' h t k a ↔ live_prep s h t k a.
Proof. unfold live_prep. by intros ->. Qed.
Lemma is_browser_proof_frame s s' k :
  (∀ k, s'.(St.db) !! ("browser_authorizations", k) = s.(St.db) !! ("browser_authorizations", k)) →
  is_browser_proof s' k ↔ is_browser_proof s k.
Proof. intros Heq. unfold is_browser_proof. by setoid_rewrite Heq. Qed.

Lemma indexed_tick s t :
  s.(St.clock) ≤ t → indexed s → indexed (St.mk s.(St.db) t s.(St.rng) s.(St.ctx)).
Proof.
  intros Ht Hi h k a Ha Hno. apply (Hi h k a); [|done]. by apply (live_prep_later s h _ t).
Qed.

Lemma indexed_use s key :
  indexed s → indexed (St.set_db s (base.delete ("authentication", key) s.(St.db))).
Proof.
  intros Hi h k a [Hrow Hl] Hno. simpl in *. apply lookup_delete_Some in Hrow as [Hne Hrow].
  rewrite lookup_delete_ne by done. apply (Hi h k a); [done|].
  intros Hp. apply Hno. eapply is_browser_proof_frame; [|done]. intros. simpl.
  by rewrite lookup_delete_ne.
Qed.

(** Clearing the overflow mark of an index none of whose rows is live. *)
Lemma indexed_clear s h idx :
  indexed s → legacy_overflow_live h s.(St.clock) s = (Ok false, s) →
  indexed (St.set_db s (<[(PREPARED_REQUESTS, h) := RPrepared (clear_overflow idx)]> s.(St.db))).
Proof.
  intros Hi [_ Hnone]%legacy_overflow_live_ok h' k a Ha Hno. simpl in *.
  assert (live_prep s h' s.(St.clock) k a) as Ha'
    by (eapply live_prep_frame; [|exact Ha]; simpl; by rewrite lookup_insert_ne).
  assert (¬ is_browser_proof s k) as Hno'.
  { intros Hp. apply Hno. eapply is_browser_proof_frame; [|done]. intros. simpl.
    by rewrite lookup_insert_ne. }
  destruct (decide (h' = h)) as [->|Hne].
  - assert (false = true) by (apply Hnone; eauto). done.
  - rewrite lookup_insert_ne by congruence. by apply Hi.
Qed.

Lemma bounded_clear s h idx :
  bounded s → s.(St.db) !! (PREPARED_REQUESTS, h) = Some (RPrepared idx) →
  bounded (St.set_db s (<[(PREPARED_REQUESTS, h) := RPrepared (clear_overflow idx)]> s.(St.db))).
Proof.
  intros Hb Hidx h' i Hi. simpl in Hi.
  apply lookup_insert_Some in Hi as [[[= <-] [= <-]]|[_ Hi]]; [|by eapply Hb].
  simpl. by eapply Hb.
Qed.

(** The invariant of the store: bounded indexes that miss no preparation. *)
Definition index_ok (s : St.t) : Prop := bounded s ∧ indexed s.

Lemma registered_index_ok h key exp s s' ev idx' u ses :
  registered h key exp s s' ev idx' →
  s.(St.db) !! ("authentication", key)
    = Some (RAuthentication (AuthenticationTransaction.mk h u ses exp None)) →
  bounded s →
  (∀ h' k a, k ≠ key → live_prep s h' s.(St.clock) k a → ¬ is_browser_proof s k →
    ∃ idx, s.(St.db) !! (PREPARED_REQUESTS, h') = Some (RPrepared idx)
      ∧ (idx.(PreparedRequests.attempts) !! k = Some a.(AuthenticationTransaction.expires_at)
         ∨ a.(AuthenticationTransaction.expires_at) ≤ idx.(PreparedRequests.overflow_until))) →
  index_ok s'.
Proof.
  intros R Hkey Hb Hi. split.
  { intros h' idx Hidx. destruct (decide (h' = h)) as [->|Hne].
    - rewrite (reg_index _ _ _ _ _ _ _ R) in Hidx. injection Hidx as <-. apply R.
    - rewrite (reg_frame _ _ _ _ _ _ _ R) in Hidx; [by eapply Hb|congruence|by right]. }
  intros h' k a Ha Hno. rewrite (reg_clock _ _ _ _ _ _ _ R) in Ha.
  assert (ev ≠ Some k) as Hev.
  { intros Hev. destruct (reg_evicted _ _ _ _ _ _ _ R k Hev) as [Hgone _].
    destruct Ha as [Ha _]. congruence. }
  assert (live_prep s h' s.(St.clock) k a) as Hs.
  { eapply live_prep_frame; [|exact Ha]. symmetry. apply R; [done|by left]. }
  assert (¬ is_browser_proof s k) as Hno'.
  { intros Hp. apply Hno. eapply is_browser_proof_frame; [|done]. intros. apply R; [done|by right]. }
  destruct (decide (k = key)) as [->|Hk].
  - destruct Hs as [Hrow Hl]. rewrite Hkey in Hrow. injection Hrow as <-.
    apply ordinary_live_spec in Hl as (_ & _ & <-). simpl.
    exists idx'. split; [apply R|]. left. apply R.
  - destruct (Hi h' k a Hk Hs Hno') as (idx & Hidx & Hor).
    destruct (decide (h' = h)) as [->|Hne].
    + exists idx'. split; [apply R|]. destruct Hor as [Hat|Hov].
      * left. destruct Hs as [Hrow Hl]. pose proof Hl as (Hlt & _ & _)%ordinary_live_spec.
        eapply (reg_kept _ _ _ _ _ _ _ R); done.
      * right. by rewrite (reg_overflow _ _ _ _ _ _ _ R idx Hidx).
    + exists idx. split; [|done]. rewrite (reg_frame _ _ _ _ _ _ _ R); [done|congruence|by right].
Qed.

Lemma prepare_index_ok r u e s t s' :
  prepare_authentication_in r u e s = (Ok t, s') → index_ok s → index_ok s'.
Proof.
  unfold prepare_authentication_in. cbv zeta. intros Hrun [Hb Hi].
  apply bind_ok in Hrun as (tok & s1 & Ht & Hrun). apply random_token_ok in Ht as [_ ->].
  apply bind_ok in Hrun as ([] & s2 & Hput & Hrun). apply put_ok in Hput as ->.
  apply bind_ok in Hrun as ([] & s3 & Hreg & Hrun). apply ret_ok in Hrun as [_ ->].
  apply register_preparation_ok in Hreg as (ev & idx' & R).
  eapply registered_index_ok; [exact R|apply lookup_insert_eq| |]; simpl.
  - intros h idx. simpl. rewrite lookup_insert_ne by done. apply Hb.
  - intros h k a Hk Ha Hno. simpl in *. rewrite lookup_insert_ne by done. apply (Hi h k a).
    + eapply live_prep_frame; [|exact Ha]. simpl. rewrite lookup_insert_ne by congruence. done.
    + intros Hp. apply Hno. eapply is_browser_proof_frame; [|exact Hp]. intros. simpl.
      by rewrite lookup_insert_ne.
Qed.

Lemma index_ok_frame s s' :
  (∀ b k, b ∈ ["authentication"; PREPARED_REQUESTS; "browser_authorizations"] →
     s'.(St.db) !! (b, k) = s.(St.db) !! (b, k)) →
  s'.(St.clock) = s.(St.clock) → index_ok s → index_ok s'.
Proof.
  intros Hf Hc [Hb Hi]. split.
  - intros h idx. rewrite Hf by bucket. apply Hb.
  - intros h k a Ha Hno. rewrite Hf by bucket. rewrite Hc in Ha. apply (Hi h k a).
    + eapply live_prep_frame; [|exact Ha]. symmetry. apply Hf. bucket.
    + intros Hp. apply Hno. eapply is_browser_proof_frame; [|exact Hp]. intros. apply Hf. bucket.
Qed.

Lemma direct_index_ok h account s s' :
  mark_direct_decision h account s.(St.clock) s = (Ok (), s') → index_ok s → index_ok s'.
Proof.
  unfold mark_direct_decision. intros Hrun Hok.
  apply bind_ok in Hrun as (index & s1 & [-> Hrow]%get_ok & Hrun).
  destruct index as [idx|]; [|by tx_inv].
  apply bind_ok in Hrun as (? & s1 & [_ ->]%ensure_ok & Hrun).
  apply bind_ok in Hrun as ([] & s1 & Hset & Hrun).
  assert (index_ok s1 ∧ s1.(St.clock) = s.(St.clock)) as [Hok1 Hc].
  { apply settle_overflow_ok in Hset as [->|(Ht & Hl & ->)]; [done|]. split; [|done].
    destruct Hok. split; [by apply bounded_clear|by apply indexed_clear]. }
  apply bind_ok in Hrun as (m & s2 & Hm & Hrun).
  apply collect_anonymous_fold in Hm as (-> & _).
  case_bool_decide; [by tx_inv|].
  pose proof (touches_run [PREPARED_ACTOR_DECISIONS] _ _ _ _ Hrun) as (? & _ & _ & Hf).
  eapply index_ok_frame; [|done|exact Hok1]. intros b k Hb. apply Hf.
  repeat (apply elem_of_cons in Hb as [->|Hb]; [bucket|]). by apply not_elem_of_nil in Hb.
Qed.

Lemma any_m_read {A} (f : A → tx bool) `{!∀ a, Pure (f a)} l s b s' :
  any_m f l s = (Ok b, s') → s' = s ∧ (b = false → ∀ a, a ∈ l → f a s = (Ok false, s)).
Proof.
  induction l as [|a l IH]; simpl; intros Hrun; [tx_inv; set_solver|].
  apply bind_ok in Hrun as (b1 & s1 & H1 & H2). pose proof (pure_run _ _ _ _ H1) as ->.
  destruct b1; [by tx_inv|]. apply IH in H2 as [-> H2]. split; [done|].
  intros -> x [->|Hx]%elem_of_cons; [done|]. by apply H2.
Qed.

(** No match means that no preparation of the request is live. *)
Lemma matching_preparation_ok h s b s' :
  matching_preparation h s.(St.clock) s = (Ok b, s') → index_ok s →
  index_ok s' ∧ (b = false → ∀ k a, live_prep s h s.(St.clock) k a → is_browser_proof s k).
Proof.
  unfold matching_preparation. intros Hrun [Hb Hi].
  apply bind_ok in Hrun as (index & s1 & [-> Hrow]%get_ok & Hrun).
  destruct index as [idx|]; simpl in Hrow.
  2:{ tx_inv. split; [by split|]. intros _ k a Ha.
      destruct (classic_proof s k) as [?|Hno]; [done|].
      destruct (Hi h k a Ha Hno) as (idx & Hidx & _). congruence. }
  apply bind_ok in Hrun as (? & s1 & [_ ->]%ensure_ok & Hrun).
  apply bind_ok in Hrun as (found & s1 & [-> Hf]%any_m_read & Hrun); [|apply _].
  destruct found; [by tx_inv|]. specialize (Hf eq_refl).
  assert (Hnot : ∀ k a, live_prep s h s.(St.clock) k a → ¬ is_browser_proof s k →
            s.(St.clock) < idx.(PreparedRequests.overflow_until)).
  { intros k a Ha Hno. destruct (Hi h k a Ha Hno) as (i & Hidx & Hor). rewrite Hrow in Hidx.
    injection Hidx as <-. pose proof (proj2 Ha) as (Hlt & _ & _)%ordinary_live_spec.
    destruct Hor as [Hat|]; [|lia]. exfalso.
    apply elem_of_btree_entries, Hf in Hat. unfold attempt_live in Hat. simpl in Hat.
    pose proof Hlt as Hlt'. apply Z.ltb_lt in Hlt. rewrite Hlt in Hat.
    apply bind_ok in Hat as (o & s1 & [-> Ho]%live_ordinary_preparation_ok & Hat). tx_inv.
    apply Ho in Ha as ->. by rewrite bool_decide_eq_true_2 in *. }
  case_match eqn:Ht.
  - apply bind_ok in Hrun as (live & s1 & Hl & Hrun).
    pose proof (pure_run _ _ _ _ Hl) as ->. destruct live; [by tx_inv|]. tx_inv.
    split; [split; [by apply bounded_clear|by apply indexed_clear]|].
    intros _ k a Ha. destruct (classic_proof s k) as [?|Hno]; [done|].
    apply legacy_overflow_live_ok in Hl as [_ Hl]. assert (false = true) by (apply Hl; eauto). done.
  - tx_inv. split; [by split|]. intros _ k a Ha.
    destruct (classic_proof s k) as [?|Hno]; [done|]. apply Hnot in Ha; [|done].
    apply Z.ltb_ge in Ht. lia.
Qed.

(** *** Backfilling an upgraded store *)

(** The index of its request accounts for the transaction. *)
Definition covered (s : St.t) (k : string) (a : AuthenticationTransaction.t) : Prop :=
  ∃ idx, s.(St.db) !! (PREPARED_REQUESTS, a.(AuthenticationTransaction.request_hash))
           = Some (RPrepared idx)
    ∧ (idx.(PreparedRequests.attempts) !! k = Some a.(AuthenticationTransaction.expires_at)
       ∨ a.(AuthenticationTransaction.expires_at) ≤ idx.(PreparedRequests.overflow_until)).

Lemma backfill_attempt_ok t ps k a s s' :
  backfill_attempt t ps (k, a) s = (Ok (), s') → bounded s →
  bounded s' ∧ s'.(St.clock) = s.(St.clock)
  ∧ (∀ b k, b ≠ PREPARED_REQUESTS → s'.(St.db) !! (b, k) = s.(St.db) !! (b, k))
  ∧ (∀ k0 a0, (k0 = k → a0 = a) → covered s k0 a0 → covered s' k0 a0)
  ∧ (t < a.(AuthenticationTransaction.expires_at) →
     a.(AuthenticationTransaction.source_stage) = None → k ∉ ps → covered s' k a).
Proof.
  unfold backfill_attempt. cbv zeta. simpl. intros Hrun Hb.
  destruct (_ || _ || _) eqn:Hskip.
  { tx_inv. split_and!; [done..|naive_solver|]. intros Ht Hst Hps. exfalso.
    apply orb_true_iff in Hskip as [[?%Z.leb_le|H]%orb_true_iff|H]; [lia|..];
      apply bool_decide_eq_true in H; [|done]. rewrite Hst in H. by destruct H. }
  apply bind_ok in Hrun as (index & s1 & [-> Hrow]%get_ok & Hrun). apply put_ok in Hrun as ->.
  set (idx := default (PreparedRequests.mk ∅ 0 0) index) in *.
  assert (Hsz : (size idx.(PreparedRequests.attempts) ≤ MAX_PREPARED_PER_REQUEST)%nat).
  { subst idx. destruct index as [i|]; simpl in *; [by eapply Hb|].
    unfold MAX_PREPARED_PER_REQUEST. rewrite map_size_empty. lia. }
  set (room := _ || _). assert (Hroom : room = true →
    (size (<[k := a.(AuthenticationTransaction.expires_at)]> idx.(PreparedRequests.attempts))
     ≤ MAX_PREPARED_PER_REQUEST)%nat).
  { subst room. intros [Hk%bool_decide_eq_true|Hlt%Nat.ltb_lt]%orb_true_iff.
    - by rewrite map_size_insert_Some.
    - etrans; [apply map_size_insert_le|lia]. }
  clearbody room. split_and!; simpl.
  - intros h i Hi. simpl in Hi. apply lookup_insert_Some in Hi as [[_ [= <-]]|[_ Hi]]; [|by eapply Hb].
    simpl. by destruct room; [apply Hroom|].
  - done.
  - intros b k' Hne. rewrite lookup_insert_ne by congruence. done.
  - intros k0 a0 Heq (i & Hi & Hor). unfold covered. simpl.
    destruct (decide (a0.(AuthenticationTransaction.request_hash)
                      = a.(AuthenticationTransaction.request_hash))) as [Hh|Hh].
    + rewrite Hh in *. rewrite lookup_insert_eq. eexists. split; [done|]. simpl.
      rewrite Hrow in Hi. destruct index as [i'|]; simplify_eq/=. subst idx. simpl in *.
      destruct Hor as [Hat|Hov]; [left|right; destruct room; lia].
      destruct room; [|done]. destruct (decide (k = k0)) as [->|].
      * rewrite lookup_insert_eq. by rewrite (Heq eq_refl).
      * by rewrite lookup_insert_ne.
    + rewrite lookup_insert_ne by congruence. eauto.
  - intros _ _ _. unfold covered. simpl. rewrite lookup_insert_eq. eexists. split; [done|]. simpl.
    destruct room; [left; apply lookup_insert_eq|right; lia].
Qed.

Lemma backfill_rows t ps (f : string → option AuthenticationTransaction.t) l s s' :
  (∀ k a, (k, a) ∈ l → f k = Some a) →
  for_each (backfill_attempt t ps) l s = (Ok (), s') → bounded s →
  bounded s' ∧ s'.(St.clock) = s.(St.clock)
  ∧ (∀ b k, b ≠ PREPARED_REQUESTS → s'.(St.db) !! (b, k) = s.(St.db) !! (b, k))
  ∧ (∀ k a, f k = Some a → covered s k a → covered s' k a)
  ∧ (∀ k a, (k, a) ∈ l → t < a.(AuthenticationTransaction.expires_at) →
     a.(AuthenticationTransaction.source_stage) = None → k ∉ ps → covered s' k a).
Proof.
  revert s. induction l as [|[k a] l IH]; intros s Hl Hrun Hb; simpl in Hrun.
  { tx_inv. split_and!; [done..|set_solver]. }
  apply bind_ok in Hrun as ([] & s1 & H1 & H2).
  apply backfill_attempt_ok in H1 as (Hb1 & Hc1 & Hf1 & Hm1 & Hn1); [|done].
  apply IH in H2 as (Hb2 & Hc2 & Hf2 & Hm2 & Hn2); [|by intros; apply Hl; right|done].
  assert (Hka : f k = Some a) by (apply Hl; left).
  split_and!; [done|congruence|by intros; rewrite Hf2, Hf1| |].
  - intros k0 a0 Hf Hcov. apply Hm2; [done|]. apply Hm1; [|done]. intros ->. congruence.
  - intros k0 a0 [[= -> ->]|Hin]%elem_of_cons Ht Hst Hps; [|by apply Hn2].
    apply Hm2; [done|]. by apply Hn1.
Qed.

Lemma backfill_index_ok s s' :
  backfill_prepared_index s = (Ok (), s') → bounded s →
  s.(St.db) !! ("meta", PREPARED_INDEX_VERSION) ≠ Some (RU64 1) → index_ok s'.
Proof.
  unfold backfill_prepared_index. intros Hrun Hb Hv.
  apply bind_ok in Hrun as (v & s1 & [-> Hrow]%get_ok & Hrun).
  rewrite bool_decide_eq_false_2 in Hrun by (intros ->; done).
  apply bind_ok in Hrun as (t & s1 & [-> ->]%now_ok & Hrun).
  apply bind_ok in Hrun as (ps & s1 & [-> Hps]%browser_proofs_ok & Hrun).
  apply bind_ok in Hrun as (rows & s1 & (-> & Hin & Hall)%list_all_elem & Hrun).
  apply bind_ok in Hrun as ([] & s1 & Hrows & Hrun). unfold stamp_prepared_index in Hrun.
  apply put_ok in Hrun as ->.
  apply (backfill_rows _ _ (λ k, match s.(St.db) !! ("authentication", k) with
           | Some (RAuthentication a) => Some a | _ => None end)) in Hrows
    as (Hb1 & Hc & Hf & _ & Hn); [|by intros k a ->%Hin|done].
  apply (index_ok_frame s1).
  { intros b k Hbk. simpl. rewrite lookup_insert_ne; [done|]. intros [= <- _]. revert Hbk. bucket. }
  { done. }
  split; [done|]. intros h k a Ha Hno.
  assert (live_prep s h s.(St.clock) k a) as [Hrow' Hl].
  { rewrite Hc in Ha. eapply live_prep_frame; [|exact Ha]. symmetry. by apply Hf. }
  apply ordinary_live_spec in Hl as (Ht & Hst & <-). apply Hn; [by apply Hin|done|done|].
  intros Hk%Hps. apply Hno. eapply is_browser_proof_frame; [|exact Hk]. intros. by apply Hf.
Qed.

(** ** The life of the index *)

(** What happens to preparations between two looks at the store: they are made,
    decided directly, matched, used up, and time passes. *)
Inductive prep_step : St.t → St.t → Prop :=
| step_prepare r u e s t s' :
    prepare_authentication_in r u e s = (Ok t, s') → prep_step s s'
| step_direct h account s s' :
    mark_direct_decision h account s.(St.clock) s = (Ok (), s') → prep_step s s'
| step_match h s b s' :
    matching_preparation h s.(St.clock) s = (Ok b, s') → prep_step s s'
| step_use key s u s' :
    remove "authentication" key s = (Ok u, s') → prep_step s s'
| step_tick s t :
    s.(St.clock) ≤ t → prep_step s (St.mk s.(St.db) t s.(St.rng) s.(St.ctx)).

Lemma prep_step_index_ok s s' : prep_step s s' → index_ok s → index_ok s'.
Proof.
  intros [] Hok.
  - by eapply prepare_index_ok.
  - by eapply direct_index_ok.
  - by eapply matching_preparation_ok.
  - apply remove_ok in H as ->. destruct Hok as [Hb Hi]. split; [|by apply indexed_use].
    intros h idx Hidx. simpl in Hidx. apply lookup_delete_Some in Hidx as [_ Hidx]. by eapply Hb.
  - destruct Hok as [Hb Hi]. split; [done|by apply indexed_tick].
Qed.

(** After an upgraded store was backfilled, whatever is prepared, decided,
    matched or used later, a decision without a transaction id that finds no
    matching preparation bypasses none: every live preparation of its request is
    a browser's own proof; and no index ever holds more than 64 entries. *)
Theorem no_match_means_no_preparation s0 s1 s h s' :
  bounded s0 → s0.(St.db) !! ("meta", PREPARED_INDEX_VERSION) ≠ Some (RU64 1) →
  backfill_prepared_index s0 = (Ok (), s1) → rtc prep_step s1 s →
  matching_preparation h s.(St.clock) s = (Ok false, s') →
  bounded s ∧ ∀ k a, live_prep s h s.(St.clock) k a → is_browser_proof s k.
Proof.
  intros Hb Hv Hfill Hsteps Hmatch. eapply backfill_index_ok in Hfill; [|done..].
  assert (index_ok s) as Hok.
  { clear -Hfill Hsteps. induction Hsteps; [done|]. eauto using prep_step_index_ok. }
  split; [apply Hok|]. by apply (matching_preparation_ok h s false s').
Qed.

(** A direct decision of an account succeeds only if none of the indexed live
    preparations is the account's own, and fences the anonymous ones: as long as
    such a preparation lives, using it as this account is refused. *)
Theorem direct_decision_fences h account s s' idx key e a :
  mark_direct_decision h account s.(St.clock) s = (Ok (), s') → fences_sound s →
  s.(St.db) !! (PREPARED_REQUESTS, h) = Some (RPrepared idx) →
  idx.(PreparedRequests.attempts) !! key = Some e → s.(St.clock) < e →
  live_prep s h s.(St.clock) key a →
  fences_sound s' ∧ a.(AuthenticationTransaction.user_id) ≠ Some account
  ∧ (a.(AuthenticationTransaction.user_id) = None → ∀ later t,
      later.(St.db) !! (PREPARED_ACTOR_DECISIONS, prepared_actor_key h account)
        = s'.(St.db) !! (PREPARED_ACTOR_DECISIONS, prepared_actor_key h account) →
      t < a.(AuthenticationTransaction.expires_at) →
      reject_direct_decision_replay h account key t later
        = (Err (Error.conflict "Prepared request already decided for this account"), later)).
Proof.
  intros Hrun Hs Hidx Hk Ht Ha.
  destruct (mark_direct_decision_ok _ _ _ _ _ _ Hrun Hs Hidx) as [Hs' Hall].
  destruct (Hall key e a Hk Ht Ha) as [Hne Hf]. split_and!; [done..|].
  intros Hu later t Hl Hlt. destruct (Hf Hu) as (e' & He & m & Hm & ?).
  apply (fenced_rejects _ _ _ _ e'); [|lia]. exists m. by rewrite Hl.
Qed.

(** Registering a preparation never takes the slot of one that an account or
    a session has claimed: it stays stored and indexed; at most one unclaimed
    preparation is given up, the index stays within 64 entries and names the
    new one. *)
Theorem registration_keeps_claimed r user e s t s' :
  prepare_authentication_in r user e s = (Ok t, s') →
  ∃ idx', s'.(St.db) !! (PREPARED_REQUESTS, request_hash r) = Some (RPrepared idx')
    ∧ (size idx'.(PreparedRequests.attempts) ≤ MAX_PREPARED_PER_REQUEST)%nat
    ∧ idx'.(PreparedRequests.attempts) !! digest t = Some e
    ∧ ∀ idx k x a, s.(St.db) !! (PREPARED_REQUESTS, request_hash r) = Some (RPrepared idx) →
        idx.(PreparedRequests.attempts) !! k = Some x → s.(St.clock) < x → k ≠ digest t →
        live_prep s (request_hash r) s.(St.clock) k a → ¬ unclaimed a →
        live_prep s' (request_hash r) s'.(St.clock) k a
        ∧ idx'.(PreparedRequests.attempts) !! k = Some x.
Proof.
  unfold prepare_authentication_in. cbv zeta. intros Hrun.
  apply bind_ok in Hrun as (tok & s1 & Ht & Hrun). apply random_token_ok in Ht as [_ ->].
  apply bind_ok in Hrun as ([] & s2 & Hput & Hrun). apply put_ok in Hput as ->.
  apply bind_ok in Hrun as ([] & s3 & Hreg & Hrun). apply ret_ok in Hrun as [-> ->].
  apply register_preparation_ok in Hreg as (ev & idx' & R).
  exists idx'. split_and!; [apply R..|]. intros idx k x a Hidx Hk Hx Hne Ha Hun.
  assert (Ha' : live_prep (St.set_db (St.mk s.(St.db) s.(St.clock) (S s.(St.rng)) s.(St.ctx))
     (<[("authentication", digest tok) := encode (AuthenticationTransaction.mk (request_hash r) user None e None)]>
        s.(St.db))) (request_hash r) s.(St.clock) k a).
  { eapply live_prep_frame; [|exact Ha]. simpl. by rewrite lookup_insert_ne by congruence. }
  assert (ev ≠ Some k) as Hev.
  { intros Hev. destruct (reg_evicted _ _ _ _ _ _ _ R k Hev) as (_ & b & [Hb _] & Hub).
    destruct Ha' as [Ha' _]. simpl in Ha', Hb. rewrite Ha' in Hb. by injection Hb as <-. }
  rewrite (reg_clock _ _ _ _ _ _ _ R). simpl. split.
  - eapply live_prep_frame; [|exact Ha']. apply R; [done|by left].
  - eapply (reg_kept _ _ _ _ _ _ _ R); [|done..]. simpl. by rewrite lookup_insert_ne.
Qed.
End theory.

(** ** Concrete runs *)

Module PreparationDemo.
#[local] Existing Instance Demo.env.

Definition request : Authorization.t :=
  Authorization.mk None None None None None None "code" "app" "https://app.test" "openid"
    None None "c" "S256" None None None None None None.
Definition empty : St.t := St.mk ∅ 100 0 None.

(** An anonymous preparation of the request, live until 700. *)
Definition anonymous : AuthenticationTransaction.t :=
  AuthenticationTransaction.mk (request_hash request) None None 700 None.
Definition index : PreparedRequests.t := PreparedRequests.mk {["p" := 700]} 0 700.
Definition prepared : St.t :=
  St.mk {[("authentication", "p") := RAuthentication anonymous;
          (PREPARED_REQUESTS, request_hash request) := RPrepared index]} 100 0 None.
End PreparationDemo.

Section witnesses.
#[local] Existing Instance Demo.env.

Lemma no_match_means_no_preparation_witness :
  bounded (backfill_prepared_index PreparationDemo.empty).2
  ∧ ∀ k a, live_prep (backfill_prepared_index PreparationDemo.empty).2 "h" 100 k a →
      is_browser_proof (backfill_prepared_index PreparationDemo.empty).2 k.
Proof.
  apply (no_match_means_no_preparation PreparationDemo.empty
           (backfill_prepared_index PreparationDemo.empty).2
           (backfill_prepared_index PreparationDemo.empty).2 "h"
           (backfill_prepared_index PreparationDemo.empty).2).
  - intros h idx Hidx. vm_compute in Hidx. discriminate Hidx.
  - vm_compute. discriminate.
  - vm_compute. reflexivity.
  - apply rtc_refl.
  - vm_compute. reflexivity.
Defined.

Lemma direct_decision_fences_witness :
  (mark_direct_decision (request_hash PreparationDemo.request) "ada" 100 PreparationDemo.prepared).1
    = Ok ()
  ∧ reject_direct_decision_replay (request_hash PreparationDemo.request) "ada" "p" 500
      (mark_direct_decision (request_hash PreparationDemo.request) "ada" 100
         PreparationDemo.prepared).2
    = (Err (Error.conflict "Prepared request already decided for this account"),
       (mark_direct_decision (request_hash PreparationDemo.request) "ada" 100
         PreparationDemo.prepared).2).
Proof.
  split; [vm_compute; reflexivity|].
  refine (proj2 (proj2 (direct_decision_fences (request_hash PreparationDemo.request) "ada"
    PreparationDemo.prepared _ PreparationDemo.index "p" 700 PreparationDemo.anonymous
    _ _ _ _ _ _)) _ _ 500 _ _).
  - vm_compute. reflexivity.
  - intros mk m k e a Hm. exfalso. unfold PreparationDemo.prepared in Hm. cbn [St.db] in Hm.
    apply lookup_insert_Some in Hm as [[Hk _]|[_ Hm]]; [by inversion Hk|].
    apply lookup_singleton_Some in Hm as [Hk _]. by inversion Hk.
  - vm_compute. reflexivity.
  - vm_compute. reflexivity.
  - vm_compute. reflexivity.
  - split; vm_compute; reflexivity.
  - reflexivity.
  - reflexivity.
  - vm_compute. reflexivity.
Defined.

Lemma registration_keeps_claimed_witness :
  (prepare_authentication_in PreparationDemo.request (Some "ada") 700 PreparationDemo.prepared).1
    = Ok "ri_auth_r0"
  ∧ ∃ idx', (prepare_authentication_in PreparationDemo.request (Some "ada") 700
       PreparationDemo.prepared).2.(St.db)
       !! (PREPARED_REQUESTS, request_hash PreparationDemo.request) = Some (RPrepared idx')
     ∧ idx'.(PreparedRequests.attempts) !! digest "ri_auth_r0" = Some 700.
Proof.
  split; [vm_compute; reflexivity|].
  destruct (registration_keeps_claimed PreparationDemo.request (Some "ada") 700
    PreparationDemo.prepared "ri_auth_r0"
    (prepare_authentication_in PreparationDemo.request (Some "ada") 700
       PreparationDemo.prepared).2) as (idx & H1 & _ & H2 & _).
  - vm_compute. reflexivity.
  - exists idx. split; assumption.
Defined.
End witnesses.
