(* ===== verification/Token.v ===== *)
(** * Grants and tokens (src/src/assembly/oidc.rs, src/src/exchange.rs)

    A grant is created with a token family, stored under the digest of each
    token issued for it, and re-validated on every use: the grant itself, its
    family, its client, the identity it stands for and, for an exchanged token,
    the whole chain of tokens it was exchanged from. *)

From S2P Require Import Prelude Json Model Store Env Provider Jose Delegation Agents Assurance Claims Identities Oidc.

#[local] Set Warnings "-clear-no-such-hyp".

Section grants.
Context {E : Env}.

(** ** Creating a grant *)

Definition access_token_ttl (client : Client.t) : Z :=
  default config.(Config.access_token_ttl) client.(Client.settings).(ProviderSettings.access_token_ttl).
Definition refresh_token_ttl (client : Client.t) : Z :=
  default config.(Config.refresh_token_ttl) client.(Client.settings).(ProviderSettings.refresh_token_ttl).

(** Whether a grant may be refreshed. *)
Definition offline (client : Client.t) (identity : option Identity.t) (scopes : gset string) : bool :=
  bool_decide (is_Some identity) && bool_decide ("offline_access" ∈ scopes)
  && grant_enabled client "refresh_token".

Definition source_deadline (identity : option Identity.t) : Z :=
  default u64_max ((identity ≫= Identity.source) ≫= SourceIdentity.authorization_expires_at).

Definition family_expiry (at_ : Z) (client : Client.t) (identity : option Identity.t)
    (scopes : gset string) : Z :=
  Z.min (wadd at_ (if offline client identity scopes then refresh_token_ttl client
                   else access_token_ttl client))
    (source_deadline identity).

Definition new_grant (client : Client.t) (identity : option Identity.t) (scopes : gset string)
    (nonce : option string) : tx Grant.t :=
  at_ ← now;
  let expires := family_expiry at_ client identity scopes in
  family_id ← id;
  _ ← put "families" family_id (Family.mk expires false);
  mret (Grant.mk None None None ClaimsRequest.default None None None None client.(Client.id)
          identity scopes nonce family_id at_ expires false).

(** ** Issuing tokens *)

(** The account a grant acts for, checked against the client. *)
Definition grant_user (client : Client.t) (grant : Grant.t) (identity : Identity.t) : tx User.t :=
  if client.(Client.service) && bool_decide (is_Some grant.(Grant.exchange)) then
    user ← identity_user identity;
    _ ← DeviceTrust.require client identity;
    mret user
  else authorize_identity client identity.

Definition service_subject (grant : Grant.t) : string :=
  default ("service:" +:+ grant.(Grant.client_id))
    (grant.(Grant.exchange) ≫= ExchangeGrant.service_subject).

Definition identity_claims (client : Client.t) (grant : Grant.t) : tx json :=
  match grant.(Grant.identity) with
  | Some identity =>
      user ← grant_user client grant identity;
      _ ← Claims.enforce client user identity grant.(Grant.scopes);
      mapped ← Claims.mapped_claims_for_identity user client grant.(Grant.scopes) identity;
      _ ← lift (Assurance.enforce client identity grant.(Grant.acr_values)
                  grant.(Grant.claims_request) mapped);
      mret mapped
  | None => mret (Json.obj [("sub", JStr (service_subject grant))])
  end.

Definition access_expiry (at_ : Z) (client : Client.t) (grant : Grant.t) : Z :=
  Z.min (wadd at_ (access_token_ttl client)) grant.(Grant.expires_at).

Definition cnf (jkt : string) : json := Json.obj [("jkt", JStr jkt)].

(** The claims of the access token. *)
Definition access_claims (at_ : Z) (client : Client.t) (grant : Grant.t) (ident : json)
    (sub jti : string) (act : option json) : json :=
  let claims := if client.(Client.settings).(ProviderSettings.claims_in_access_token)
                then ident else Json.obj [] in
  let claims := Json.extend claims
    [("iss", JStr (issuer_for_client client)); ("sub", JStr sub);
     ("aud", JStr grant.(Grant.client_id)); ("iat", JNum at_);
     ("exp", JNum (access_expiry at_ client grant)); ("jti", JStr jti);
     ("client_id", JStr grant.(Grant.client_id));
     ("scope", JStr (scope_string grant.(Grant.scopes)))] in
  let claims :=
    match grant.(Grant.exchange) with
    | Some e =>
        let claims := Json.set "client_id" (JStr e.(ExchangeGrant.requester_id)) claims in
        match e.(ExchangeGrant.act) with Some act => Json.set "act" act claims | None => claims end
    | None => claims
    end in
  let claims := match act with Some act => Json.set "act" act claims | None => claims end in
  let claims := Json.set "aud" (JStr (Resource.audience grant)) claims in
  match grant.(Grant.confirmation_jkt) with
  | Some jkt => Json.set "cnf" (cnf jkt) claims
  | None => claims
  end.

Definition encrypt_opt (key : option EncryptionKey.t) (signed : string) : tx string :=
  match key with Some k => lift (encrypt k signed) | None => mret signed end.

Definition TOKEN_TYPE (grant : Grant.t) : string :=
  if bool_decide (is_Some grant.(Grant.confirmation_jkt)) then "DPoP" else "Bearer".

(** The claims of the ID token. *)
Definition id_token_claims (at_ : Z) (client : Client.t) (grant : Grant.t) (identity : Identity.t)
    (ident : json) (sub sid at_hash : string) : json :=
  let claims := if client.(Client.settings).(ProviderSettings.userinfo_only)
                then Json.obj [("sub", JStr sub)] else ident in
  let claims := Json.extend claims
    ([("iss", JStr (issuer_for_client client)); ("aud", JStr grant.(Grant.client_id));
      ("iat", JNum at_); ("exp", JNum (access_expiry at_ client grant))]
     ++ (if identity.(Identity.auth_time) =? 0 then []
         else [("auth_time", JNum identity.(Identity.auth_time))])
     ++ [("acr", JStr (Assurance.actual identity)); ("sid", JStr sid);
         ("amr", Json.strs (Identity.authentication_methods identity));
         ("at_hash", JStr at_hash)]
     ++ match grant.(Grant.nonce) with Some n => [("nonce", JStr n)] | None => [] end) in
  match grant.(Grant.id_token_jkt) with
  | Some jkt => Json.set "cnf" (cnf jkt) claims
  | None => claims
  end.

Definition add_id_token (at_ : Z) (client : Client.t) (key : SigningKey.t) (grant : Grant.t)
    (ident : json) (sub access : string) (response : json) : tx json :=
  match grant.(Grant.identity) with
  | Some identity =>
      if bool_decide ("openid" ∈ grant.(Grant.scopes)) then
        sid ← record_rp_session client identity sub grant;
        signed ← lift (sign_jwt key
          (id_token_claims at_ client grant identity ident sub sid
             (at_hash key.(SigningKey.algorithm) access))
          (if bool_decide (is_Some grant.(Grant.id_token_jkt)) then "dpop+id_token" else "JWT"));
        token ← encrypt_opt client.(Client.settings).(ProviderSettings.id_token_encryption) signed;
        mret (Json.set "id_token" (JStr token) response)
      else mret response
  | None => mret response
  end.

Definition add_refresh_token (at_ : Z) (client : Client.t) (grant : Grant.t) (refresh : bool)
    (response : json) : tx json :=
  if refresh && offline client grant.(Grant.identity) grant.(Grant.scopes) then
    refresh_token ← random_token "ri_refresh_";
    _ ← put "refresh" (digest refresh_token) (Grant.stamp grant at_ grant.(Grant.expires_at) false);
    mret (Json.set "refresh_token" (JStr refresh_token) response)
  else mret response.

Definition issue (grant : Grant.t) (refresh : bool) : tx json :=
  at_ ← now;
  client ← get_client grant.(Grant.client_id);
  let expires := access_expiry at_ client grant in
  keys ← keys_for_client client;
  let key := keys.(Keys.active) in
  ident ← identity_claims client grant;
  sub ← some_or (Json.as_str (Json.index ident "sub")) Error.internal;
  jti ← id;
  act ← AgentApps.act grant;
  signed ← lift (sign_jwt key (access_claims at_ client grant ident sub jti act) "at+jwt");
  access ← encrypt_opt client.(Client.settings).(ProviderSettings.access_token_encryption) signed;
  _ ← put "access" (digest access) (Grant.stamp grant at_ expires false);
  let response := Json.obj
    [("access_token", JStr access); ("token_type", JStr (TOKEN_TYPE grant));
     ("expires_in", JNum (sat_sub expires at_));
     ("scope", JStr (scope_string grant.(Grant.scopes)))] in
  response ← add_id_token at_ client key grant ident sub access response;
  response ← add_refresh_token at_ client grant refresh response;
  _ ← audit sub "token.issued" grant.(Grant.client_id);
  mret response.

(** ** Validating a grant *)

Definition trusted_workload (client : Client.t) (grant : Grant.t) (hash : string) : bool :=
  existsb (λ trust, String.eqb (digest (trust_string trust)) hash
                    && bool_decide (grant.(Grant.scopes) ⊆ trust.(MachineTrust.scopes)))
    client.(Client.settings).(ProviderSettings.machine_trust).

Definition validate_grant_local (grant : Grant.t) : tx Client.t :=
  at_ ← now;
  _ ← ensure (negb ((grant.(Grant.expires_at) <=? at_) || grant.(Grant.used))) Error.unauthorized;
  family ← get Family.t "families" grant.(Grant.family_id);
  family ← some_or family Error.unauthorized;
  _ ← ensure (negb (family.(Family.revoked) || (family.(Family.expires_at) <=? at_)))
        Error.unauthorized;
  client ← or_else (get_client grant.(Grant.client_id)) Error.unauthorized;
  _ ← or_else (lift (Resource.validate client grant.(Grant.resource) grant.(Grant.scopes)))
        Error.unauthorized;
  _ ← AgentApps.check_token_grant grant;
  _ ← ensure (match grant.(Grant.machine_trust_hash) with
              | Some hash => trusted_workload client grant hash
              | None => true
              end) Error.unauthorized;
  _ ← ensure (bool_decide (grant.(Grant.scopes) ⊆ client.(Client.scopes))) Error.unauthorized;
  _ ← match grant.(Grant.identity) with
      | Some identity =>
          user ← (if client.(Client.service) && bool_decide (is_Some grant.(Grant.exchange)) then
                    user ← identity_user identity;
                    _ ← or_else (DeviceTrust.require client identity) Error.unauthorized;
                    mret user
                  else or_else (authorize_identity client identity) Error.unauthorized);
          _ ← or_else (Claims.enforce client user identity grant.(Grant.scopes)) Error.unauthorized;
          mapped ← or_else (Claims.mapped_claims_for_identity user client grant.(Grant.scopes) identity)
                     Error.unauthorized;
          lift (Assurance.enforce client identity grant.(Grant.acr_values)
                  grant.(Grant.claims_request) mapped)
      | None => ensure client.(Client.service) Error.unauthorized
      end;
  mret client.

(** [validate_grant_chain] with [levels] = 5 - depth levels left: at depth 5
    there is none. *)
Fixpoint grant_chain (levels : nat) (grant : Grant.t) : tx Client.t :=
  match levels with
  | O => fail Exchange.invalid
  | S levels =>
      client ← validate_grant_local grant;
      match grant.(Grant.exchange) with
      | None => mret client
      | Some exchange =>
          requester ← get_client exchange.(ExchangeGrant.requester_id);
          _ ← ensure (Client.confidential requester) Exchange.invalid;
          _ ← lift (grant_allowed requester Exchange.TOKEN_EXCHANGE);
          policy ← some_or requester.(Client.settings).(ProviderSettings.exchange) Exchange.invalid;
          subject ← get Grant.t "access" exchange.(ExchangeGrant.subject_hash);
          subject ← some_or subject Exchange.invalid;
          _ ← grant_chain levels subject;
          _ ← lift (Exchange.check_policy requester client policy subject grant.(Grant.scopes)
                      (bool_decide (is_Some exchange.(ExchangeGrant.actor_hash))));
          _ ← match exchange.(ExchangeGrant.actor_hash) with
              | None => mret ()
              | Some hash =>
                  actor ← get Grant.t "access" hash;
                  actor ← some_or actor Exchange.invalid;
                  _ ← grant_chain levels actor;
                  ensure (negb (negb (String.eqb actor.(Grant.client_id) requester.(Client.id))
                                || bool_decide (is_Some actor.(Grant.identity))
                                || bool_decide (is_Some actor.(Grant.exchange)))) Exchange.invalid
              end;
          mret client
      end
  end.
Definition validate_grant_chain (grant : Grant.t) (depth : nat) : tx Client.t :=
  grant_chain (5 - depth) grant.
Definition validate_grant (grant : Grant.t) : tx Client.t := validate_grant_chain grant 0.

#[global] Instance pure_validate_grant_local g : Pure (validate_grant_local g).
Proof. unfold validate_grant_local. solve_pure. Qed.
#[global] Instance pure_grant_chain n g : Pure (grant_chain n g).
Proof.
  revert g. induction n as [|n IH]; intros g; simpl; [apply _|]. solve_pure.
Qed.
#[global] Instance pure_validate_grant_chain g d : Pure (validate_grant_chain g d).
Proof. apply pure_grant_chain. Qed.
#[global] Instance pure_validate_grant g : Pure (validate_grant g).
Proof. apply pure_validate_grant_chain. Qed.
#[global] Instance pure_grant_user c g i : Pure (grant_user c g i).
Proof. unfold grant_user. solve_pure. Qed.
#[global] Instance pure_identity_claims c g : Pure (identity_claims c g).
Proof. unfold identity_claims. solve_pure. Qed.
#[global] Instance pure_encrypt_opt k t : Pure (encrypt_opt k t).
Proof. unfold encrypt_opt. solve_pure. Qed.
#[global] Instance touches_new_grant c i s n : Touches ["families"] (new_grant c i s n).
Proof. unfold new_grant. cbv zeta. solve_touches. Qed.
#[global] Instance touches_add_id_token a c k g v s t r :
  Touches ["rp_sessions"] (add_id_token a c k g v s t r).
Proof. unfold add_id_token. solve_touches. Qed.
#[global] Instance touches_add_refresh a c g f r : Touches ["refresh"] (add_refresh_token a c g f r).
Proof. unfold add_refresh_token. solve_touches. Qed.
Hint Resolve touches_add_id_token touches_add_refresh : tx.
#[global] Instance touches_issue g r :
  Touches ["access"; "refresh"; "rp_sessions"; "audit"] (issue g r).
Proof. unfold issue. cbv zeta. solve_touches. Qed.
End grants.

#[export] Hint Resolve touches_new_grant touches_issue : tx.

(** ** What issuing and validating establish *)

Section theory.
Context {E : Env}.
Implicit Types (g : Grant.t) (c : Client.t) (s : St.t).

Lemma get_client_ok cid s c s' :
  get_client cid s = (Ok c, s') →
  s' = s ∧ s.(St.db) !! ("clients", cid) = Some (RClient c) ∧ c.(Client.enabled) = true.
Proof.
  unfold get_client. intros Hrun. tx_inv.
  repeat case_match; simplify_eq/=; done.
Qed.

Lemma new_grant_ok c i sc n s g s' :
  new_grant c i sc n s = (Ok g, s') →
  let expires := family_expiry s.(St.clock) c i sc in
  g = Grant.mk None None None ClaimsRequest.default None None None None c.(Client.id)
        i sc n (uuid s.(St.rng)) s.(St.clock) expires false
  ∧ s' = St.mk (<[("families", uuid s.(St.rng)) := RFamily (Family.mk expires false)]> s.(St.db))
           s.(St.clock) (S s.(St.rng)) s.(St.ctx).
Proof.
  unfold new_grant. cbv zeta. intros Hrun. tx_inv.
  match goal with H : id _ = _ |- _ => apply id_ok in H as [-> ->] end. done.
Qed.

Lemma encrypt_opt_ok k t s r s' : encrypt_opt k t s = (r, s') → s' = s.
Proof. apply pure_run, _. Qed.

Lemma add_id_token_keeps a c k g v sub t r s r' s' key :
  add_id_token a c k g v sub t r s = (Ok r', s') → key ≠ "id_token" →
  Json.get key r' = Json.get key r
  ∧ s'.(St.clock) = s.(St.clock) ∧ (s.(St.rng) ≤ s'.(St.rng))%nat
  ∧ ∀ b k', b ≠ "rp_sessions" → s'.(St.db) !! (b, k') = s.(St.db) !! (b, k').
Proof.
  intros Hrun Hkey.
  pose proof (touches_run ["rp_sessions"] _ _ _ _ Hrun) as (? & _ & ? & Hdb).
  split_and!; [|done|done|].
  - unfold add_id_token in Hrun. destruct (Grant.identity g); [|by tx_inv].
    case_bool_decide; tx_inv; [|done]. by rewrite Json.get_set_ne.
  - intros b k' Hb. apply Hdb. set_solver.
Qed.

(** The refresh bucket after the response is completed. *)
Lemma add_refresh_token_ok a c g f r s r' s' :
  add_refresh_token a c g f r s = (Ok r', s') →
  if f && offline c g.(Grant.identity) g.(Grant.scopes) then
    let token := "ri_refresh_" +:+ random_bytes s.(St.rng) in
    r' = Json.set "refresh_token" (JStr token) r
    ∧ s'.(St.db) = <[("refresh", digest token)
                     := RGrant (Grant.stamp g a g.(Grant.expires_at) false)]> s.(St.db)
  else r' = r ∧ s' = s.
Proof.
  unfold add_refresh_token. destruct (f && _); intros Hrun; tx_inv; [|done].
  match goal with H : random_token _ _ = _ |- _ => apply random_token_ok in H as [-> ->] end.
  done.
Qed.

(** What an issued token is: the access grant stored under the digest of the
    returned token, the refresh grant when one is issued, and nothing else in
    the grant buckets. *)
Lemma issue_ok g f s v s' :
  issue g f s = (Ok v, s') →
  ∃ c ident token n,
    s.(St.db) !! ("clients", g.(Grant.client_id)) = Some (RClient c)
    ∧ c.(Client.enabled) = true
    ∧ identity_claims c g s = (Ok ident, s)
    ∧ Json.get "access_token" v = Some (JStr token)
    ∧ Json.get "scope" v = Some (JStr (scope_string g.(Grant.scopes)))
    ∧ Json.get "expires_in" v
      = Some (JNum (sat_sub (access_expiry s.(St.clock) c g) s.(St.clock)))
    ∧ s'.(St.db) !! ("access", digest token)
      = Some (RGrant (Grant.stamp g s.(St.clock) (access_expiry s.(St.clock) c g) false))
    ∧ (∀ k, k ≠ digest token → s'.(St.db) !! ("access", k) = s.(St.db) !! ("access", k))
    ∧ (s.(St.rng) ≤ n)%nat
    ∧ let fresh := "ri_refresh_" +:+ random_bytes n in
      if f && offline c g.(Grant.identity) g.(Grant.scopes) then
        Json.get "refresh_token" v = Some (JStr fresh)
        ∧ s'.(St.db) !! ("refresh", digest fresh)
          = Some (RGrant (Grant.stamp g s.(St.clock) g.(Grant.expires_at) false))
        ∧ ∀ k, k ≠ digest fresh → s'.(St.db) !! ("refresh", k) = s.(St.db) !! ("refresh", k)
      else
        Json.get "refresh_token" v = None
        ∧ ∀ k, s'.(St.db) !! ("refresh", k) = s.(St.db) !! ("refresh", k).
Proof.
  unfold issue. cbv zeta. intros Hrun. tx_inv.
  match goal with H : get_client _ _ = _ |- _ => apply get_client_ok in H as (-> & Hc & He) end.
  match goal with H : keys_for_client _ _ = _ |- _ => apply pure_run in H as ->; [|apply _] end.
  match goal with H : identity_claims _ _ _ = _ |- _ =>
    pose proof (pure_run _ _ _ _ H) as Hp; rewrite Hp in *; rename H into Hident; clear Hp end.
  match goal with H : id _ = _ |- _ => apply id_ok in H as [-> ->] end.
  match goal with H : AgentApps.act _ _ = _ |- _ => apply pure_run in H as ->; [|apply _] end.
  match goal with H : encrypt_opt _ _ _ = _ |- _ => apply pure_run in H as ->; [|apply _] end.
  match goal with H : audit _ _ _ _ = _ |- _ =>
    apply audit_event_run in H as (_ & _ & Haudit); [|vm_compute; reflexivity] end.
  match goal with H : add_id_token _ _ _ _ _ _ _ ?r _ = _ |- _ =>
    pose proof (add_id_token_keeps _ _ _ _ _ _ _ _ _ _ _ "access_token" H ltac:(done)) as (Ha & _ & Hn & Hid);
    pose proof (add_id_token_keeps _ _ _ _ _ _ _ _ _ _ _ "scope" H ltac:(done)) as (Hs & _);
    pose proof (add_id_token_keeps _ _ _ _ _ _ _ _ _ _ _ "expires_in" H ltac:(done)) as (Hx & _);
    pose proof (add_id_token_keeps _ _ _ _ _ _ _ _ _ _ _ "refresh_token" H ltac:(done)) as (Hr & _)
  end.
  match goal with H : add_refresh_token _ _ _ _ _ ?s1 = _ |- _ =>
    apply add_refresh_token_ok in H; rename H into Href; set (n := St.rng s1) in * end.
  simpl in Hn, Hid, Ha, Hs, Hx, Hr. clear H9 H6 H3.
  assert (∀ key, key ≠ "refresh_token" → Json.get key x21 = Json.get key x19) as Hget.
  { intros key Hkey. destruct (f && _); destruct Href as [-> _]; [by rewrite Json.get_set_ne|done]. }
  assert (∀ k, x22.(St.db) !! ("access", k) = x20.(St.db) !! ("access", k)) as Hacc.
  { intros k. destruct (f && _); destruct Href as [_ Hdb]; [rewrite Hdb; by rewrite lookup_insert_ne|by subst]. }
  exists x1, x5, x15, n.
  split_and!; [done|done|done|by rewrite Hget|by rewrite Hget|by rewrite Hget| | |subst n; lia|].
  3: {
    cbv zeta. destruct (f && _); destruct Href as [-> Hdb]; subst.
    - destruct x19 as [| | | | |l]; try done. rewrite Json.get_set_eq. split_and!; [done|..].
      + rewrite Haudit, Hdb by done. by rewrite lookup_insert_eq.
      + intros k Hk. rewrite Haudit, Hdb by done. rewrite lookup_insert_ne by congruence.
        rewrite Hid by done. by rewrite lookup_insert_ne.
    - split; [done|]. intros k. rewrite Haudit, Hid by done. by rewrite lookup_insert_ne. }
  - rewrite Haudit, Hacc, Hid by done. by rewrite lookup_insert_eq.
  - intros k Hk. rewrite Haudit, Hacc, Hid by done. rewrite lookup_insert_ne by congruence. done.
Qed.
End theory.

Section validity.
Context {E : Env}.
Implicit Types (g : Grant.t) (c : Client.t) (s : St.t).

(** What a valid grant rests on at the time of use. *)
Definition grant_live g c s : Prop :=
  s.(St.clock) < g.(Grant.expires_at) ∧ g.(Grant.used) = false
  ∧ (∃ f, s.(St.db) !! ("families", g.(Grant.family_id)) = Some (RFamily f)
          ∧ f.(Family.revoked) = false ∧ s.(St.clock) < f.(Family.expires_at))
  ∧ s.(St.db) !! ("clients", g.(Grant.client_id)) = Some (RClient c)
  ∧ c.(Client.enabled) = true
  ∧ g.(Grant.scopes) ⊆ c.(Client.scopes)
  ∧ match g.(Grant.identity) with
    | Some i => ∃ u, s.(St.db) !! ("users", i.(Identity.user_id)) = Some (RUser u)
                     ∧ u.(User.enabled) = true ∧ u.(User.epoch) = i.(Identity.epoch)
                     ∧ backed s i u
    | None => c.(Client.service) = true
    end.

Lemma validate_grant_local_ok g s c s' :
  validate_grant_local g s = (Ok c, s') → s' = s ∧ grant_live g c s.
Proof.
  intros Hrun. pose proof (pure_run _ _ _ _ Hrun) as ->. split; [done|].
  unfold validate_grant_local in Hrun. tx_inv.
  match goal with H : get_client _ _ = _ |- _ => apply get_client_ok in H as (-> & Hc & He) end.
  match goal with H : AgentApps.check_token_grant _ _ = _ |- _ => apply pure_run in H as ->; [|apply _] end.
  bools. unfold grant_live. split_and!; try done; [eauto|].
  destruct (Grant.identity g) as [i|]; [|by tx_inv].
  tx_inv. case_match; tx_inv.
  - match goal with H : identity_user _ _ = _ |- _ => apply identity_user_ok in H as (-> & ? & ? & ? & ?) end.
    eauto.
  - match goal with H : authorize_identity _ _ _ = _ |- _ =>
      pose proof (pure_run _ _ _ _ H) as Hp; unfold authorize_identity in H; tx_inv end.
    match goal with H : identity_user _ _ = _ |- _ => apply identity_user_ok in H as (-> & ? & ? & ? & ?) end.
    eauto.
Qed.

(** The tokens a grant was exchanged from: its subject, and the actor of a
    delegation. *)
Inductive Parent (db : gmap (string * string) row) (g : Grant.t) (a : Grant.t) : Prop :=
| parent_subject e :
    g.(Grant.exchange) = Some e →
    db !! ("access", e.(ExchangeGrant.subject_hash)) = Some (RGrant a) → Parent db g a
| parent_actor e hash :
    g.(Grant.exchange) = Some e → e.(ExchangeGrant.actor_hash) = Some hash →
    db !! ("access", hash) = Some (RGrant a) → Parent db g a.
Definition Subject (db : gmap (string * string) row) (g a : Grant.t) : Prop :=
  ∃ e, g.(Grant.exchange) = Some e
       ∧ db !! ("access", e.(ExchangeGrant.subject_hash)) = Some (RGrant a).

(** One level of the chain check. *)
Lemma grant_chain_ok n g s c s' :
  grant_chain (S n) g s = (Ok c, s') →
  s' = s ∧ validate_grant_local g s = (Ok c, s)
  ∧ (∀ a, Parent s.(St.db) g a → ∃ c', grant_chain n a s = (Ok c', s))
  ∧ (∀ a, Subject s.(St.db) g a →
          ∃ r p d, Exchange.check_policy r c p a g.(Grant.scopes) d = Ok ()).
Proof.
  intros Hrun. pose proof (pure_run _ _ _ _ Hrun) as ->. split; [done|].
  simpl in Hrun. tx_inv.
  match goal with H : validate_grant_local _ _ = (_, ?s1) |- _ =>
    pose proof (pure_run _ _ _ _ H); subst s1 end.
  destruct (Grant.exchange g) as [e|] eqn:Hg; tx_inv.
  2: { split_and!; [done| |].
       - intros a Ha. by inversion Ha as [e He|e h He]; rewrite He in Hg.
       - intros a (e & He & _). by rewrite He in Hg. }
  match goal with H : get_client _ _ = _ |- _ => apply get_client_ok in H as (-> & _ & _) end.
  match goal with H : grant_chain n _ ?s1 = (_, ?s2) |- _ =>
    pose proof (pure_run _ _ _ _ H); subst s2 end.
  split_and!; [done| |].
  - intros a Ha. inversion Ha as [e' He Hl|e' h He Hh Hl]; simplify_eq; [eauto|].
    match goal with H : match _ with _ => _ end _ = (Ok _, _) |- _ => rewrite Hh in H end.
    tx_inv. eauto.
  - intros a (e' & He & Hl). simplify_eq.
    match goal with H : Exchange.check_policy _ _ _ _ _ _ = Ok ?u |- _ => destruct u end. eauto.
Qed.

Lemma validate_grant_ok g s c s' :
  validate_grant g s = (Ok c, s') → s' = s ∧ grant_live g c s.
Proof.
  intros Hrun%grant_chain_ok. destruct Hrun as (-> & Hl & _ & _).
  by apply validate_grant_local_ok in Hl.
Qed.
End validity.

Section properties.
Context {E : Env}.
Implicit Types (g : Grant.t) (c : Client.t) (s : St.t).

(** C4: a grant is accepted only if, at the time of use, it is neither expired
    nor used, its family is neither revoked nor expired, its client is enabled
    and still has all of its scopes, and the account it stands for is enabled,
    at the same epoch and backed by a live session or approval; so disabling
    the account, advancing its epoch, ending the session or revoking the
    family ends every token at once.  Validation changes no record. *)
Theorem validate_grant_sound (g : Grant.t) (s : St.t) (c : Client.t) (s' : St.t) :
  validate_grant g s = (Ok c, s') → s' = s ∧ grant_live g c s.
Proof. apply validate_grant_ok. Qed.

Lemma grant_chain_sound n g s c s' k a :
  grant_chain n g s = (Ok c, s') → nsteps (Parent s.(St.db)) k g a →
  (k < n)%nat ∧ ∃ c', validate_grant_local a s = (Ok c', s).
Proof.
  revert g c s' k. induction n as [|n IH]; intros g c s' k Hrun Hk; [done|].
  apply grant_chain_ok in Hrun as (-> & Hl & Hp & _). inversion Hk as [|k' ? b ? Hb Hk']; subst.
  - split; [lia|eauto].
  - destruct (Hp b Hb) as [c' Hc']. destruct (IH _ _ _ _ Hc' Hk'). split; [lia|done].
Qed.

(** C33: an exchanged token is accepted at depth [d] only if every token it was
    exchanged from, subject or actor, however far back, is itself still valid,
    and no chain of exchanges is longer than four; so ending any ancestor ends
    the descendants, and a cyclic chain is never accepted. *)
Theorem exchange_chain_sound (g a : Grant.t) (d k : nat) (s : St.t) (c : Client.t) (s' : St.t) :
  validate_grant_chain g d s = (Ok c, s') → nsteps (Parent s.(St.db)) k g a →
  (k + d ≤ 4)%nat ∧ ∃ c', grant_live a c' s.
Proof.
  intros Hrun Hk. destruct (grant_chain_sound _ _ _ _ _ _ _ Hrun Hk) as [Hlt [c' Hl]].
  split; [lia|]. exists c'. by apply validate_grant_local_ok in Hl as [_ ?].
Qed.

Lemma check_policy_scopes r t p a sc d :
  Exchange.check_policy r t p a sc d = Ok () →
  sc ⊆ a.(Grant.scopes) ∧ sc ⊆ p.(ExchangePolicy.scopes) ∧ sc ⊆ r.(Client.scopes)
  ∧ ("openid" ∉ sc) ∧ ("offline_access" ∉ sc) ∧ ("bound_key" ∉ sc)
  ∧ (a.(Grant.identity) = None → t.(Client.service) = true)
  ∧ r.(Client.id) ∈ t.(Client.settings).(ProviderSettings.exchange_from)
  ∧ t.(Client.id) ∈ p.(ExchangePolicy.target_clients)
  ∧ a.(Grant.client_id) ∈ p.(ExchangePolicy.subject_clients).
Proof.
  unfold Exchange.check_policy. intros Hrun.
  repeat case_match; simplify_eq; bools; split_and!; try done; intros Hn;
    match goal with H : _ && _ = false |- _ => rewrite bool_decide_true in H by done end;
    by (bools; bools).
Qed.

(** Scopes only shrink along a chain of exchanges: an accepted token has no
    scope that the token it was originally exchanged from lacks, and an
    exchanged token never carries a login or refresh scope. *)
Theorem exchange_scopes_monotone (g a : Grant.t) (d k : nat) (s : St.t) (c : Client.t) (s' : St.t) :
  validate_grant_chain g d s = (Ok c, s') → nsteps (Subject s.(St.db)) k g a →
  g.(Grant.scopes) ⊆ a.(Grant.scopes)
  ∧ ((0 < k)%nat → ("openid" ∉ g.(Grant.scopes)) ∧ ("offline_access" ∉ g.(Grant.scopes))).
Proof.
  unfold validate_grant_chain. generalize (5 - d)%nat. intros n. revert g c s' k.
  induction n as [|n IH]; intros g c s' k Hrun Hk; [done|].
  apply grant_chain_ok in Hrun as (-> & _ & Hp & Hs).
  inversion Hk as [|k' ? b ? Hb Hk']; subst; [split; [done|lia]|].
  destruct (Hs b Hb) as (r & p & dl & Hpol). apply check_policy_scopes in Hpol.
  destruct Hpol as (Hsub & _ & _ & Ho & Hr & _). split; [|done].
  destruct Hb as (e & He & Hl).
  destruct (Hp b) as [c' Hc']; [by eapply parent_subject|].
  destruct (IH _ _ _ _ Hc' Hk') as [? _]. set_solver.
Qed.

(** An access token is stored under the digest of the value returned, for
    exactly the scopes, identity, audience, key binding and family of its
    grant; it expires no later than the grant and no later than the client's
    access-token lifetime from now. *)
Theorem issued_token_bounds (g : Grant.t) (f : bool) (s : St.t) (v : json) (s' : St.t) (c : Client.t) :
  issue g f s = (Ok v, s') →
  s.(St.db) !! ("clients", g.(Grant.client_id)) = Some (RClient c) →
  0 ≤ s.(St.clock) → 0 ≤ access_token_ttl c → s.(St.clock) + access_token_ttl c ≤ u64_max →
  ∃ token a,
    Json.get "access_token" v = Some (JStr token)
    ∧ s'.(St.db) !! ("access", digest token) = Some (RGrant a)
    ∧ a.(Grant.scopes) = g.(Grant.scopes) ∧ a.(Grant.identity) = g.(Grant.identity)
    ∧ Resource.audience a = Resource.audience g
    ∧ a.(Grant.confirmation_jkt) = g.(Grant.confirmation_jkt)
    ∧ a.(Grant.family_id) = g.(Grant.family_id) ∧ a.(Grant.used) = false
    ∧ a.(Grant.expires_at) ≤ g.(Grant.expires_at)
    ∧ a.(Grant.expires_at) ≤ s.(St.clock) + access_token_ttl c.
Proof.
  intros (c' & ident & token & n & Hc & _ & _ & Ha & _ & _ & Hrow & _)%issue_ok Hc' ? ? ?.
  simplify_eq. exists token. eexists. split_and!; try done; simpl; unfold access_expiry.
  - lia.
  - rewrite wadd_small by lia. lia.
Qed.
End properties.

(** ** Concrete runs *)

Module TokenDemo.
#[local] Existing Instance Demo.env.

Definition policy : ExchangePolicy.t :=
  ExchangePolicy.mk {["crm"]} {["backend"]} {["profile"]} true true.
Definition exchange_settings (p : option ExchangePolicy.t) (from : gset string) :
    ProviderSettings.t :=
  ProviderSettings.mk None None None None None ∅ None None None [] p from None None None None
    false None [] false false None ∅ false false ∅ None None None None ∅ [] None None [] false
    false false Policy.default None false false false.
(** The requester of exchanges and the client they target. *)
Definition api : Client.t :=
  Client.mk "api" "API" (Some "#api") [] {["profile"]} ∅ false true true
    (exchange_settings (Some policy) ∅).
Definition backend : Client.t :=
  Client.mk "backend" "Backend" (Some "#b") [] {["profile"]} ∅ false true false
    (exchange_settings None {["api"]}).

Definition scopes : gset string := {["openid"; "offline_access"; "profile"]}.
Definition subject : Grant.t :=
  Grant.mk None None None ClaimsRequest.default None None None None "crm"
    (Some FlowDemo.identity) scopes None "fam-1" 990 1300 false.
Definition exchanged : Grant.t :=
  Grant.mk None None None ClaimsRequest.default None None
    (Some (ExchangeGrant.mk "api" "#at-1" None None None)) None "backend"
    (Some FlowDemo.identity) {["profile"]} None "fam-2" 995 1200 false.
Definition state : St.t := St.mk
  (<[("clients", "api") := RClient api]>
   (<[("clients", "backend") := RClient backend]>
    (<[("families", "fam-1") := RFamily (Family.mk 2000 false)]>
     (<[("families", "fam-2") := RFamily (Family.mk 1900 false)]>
      (<[("access", "#at-1") := RGrant subject]>
       (<[("access", "#at-2") := RGrant exchanged]> FlowDemo.db)))))) 1000 0 None.

Example validate_runs : validate_grant exchanged state = (Ok backend, state).
Proof. vm_compute. reflexivity. Qed.
Example issue_runs :
  Json.get "expires_in" (match issue subject true state with (Ok v, _) => v | _ => JNull end)
  = Some (JNum 300).
Proof. vm_compute. reflexivity. Qed.
End TokenDemo.

Lemma validate_grant_sound_witness :
  @grant_live TokenDemo.subject FlowDemo.client TokenDemo.state.
Proof.
  refine (proj2 (@validate_grant_sound Demo.env TokenDemo.subject TokenDemo.state FlowDemo.client
    TokenDemo.state _)).
  vm_compute. reflexivity.
Defined.

Lemma exchange_chain_sound_witness : (1 + 0 ≤ 4)%nat ∧ ∃ c, @grant_live TokenDemo.subject c TokenDemo.state.
Proof.
  apply (@exchange_chain_sound Demo.env TokenDemo.exchanged TokenDemo.subject 0 1 TokenDemo.state
           TokenDemo.backend TokenDemo.state).
  - vm_compute. reflexivity.
  - eapply nsteps_l; [|constructor]. eapply parent_subject; [reflexivity|vm_compute; reflexivity].
Defined.

Lemma exchange_scopes_monotone_witness :
  TokenDemo.exchanged.(Grant.scopes) ⊆ TokenDemo.subject.(Grant.scopes).
Proof.
  refine (proj1 (@exchange_scopes_monotone Demo.env TokenDemo.exchanged TokenDemo.subject 0 1
    TokenDemo.state TokenDemo.backend TokenDemo.state _ _)).
  - vm_compute. reflexivity.
  - eapply nsteps_l; [|constructor]. eexists. split; [reflexivity|vm_compute; reflexivity].
Defined.

Lemma issued_token_bounds_witness :
  ∃ token a, Json.get "access_token"
      (match @issue Demo.env TokenDemo.subject true TokenDemo.state with (Ok v, _) => v | _ => JNull end)
    = Some (JStr token)
    ∧ (@issue Demo.env TokenDemo.subject true TokenDemo.state).2.(St.db) !! ("access", @digest Demo.env token)
      = Some (RGrant a) ∧ a.(Grant.expires_at) ≤ 1300.
Proof.
  destruct (@issued_token_bounds Demo.env TokenDemo.subject true TokenDemo.state
    (match @issue Demo.env TokenDemo.subject true TokenDemo.state with (Ok v, _) => v | _ => JNull end)
    (@issue Demo.env TokenDemo.subject true TokenDemo.state).2 FlowDemo.client)
    as (token & a & Ht & Ha & _ & _ & _ & _ & _ & _ & He & _).
  - vm_compute. reflexivity.
  - vm_compute. reflexivity.
  - vm_compute. discriminate.
  - vm_compute. discriminate.
  - vm_compute. discriminate.
  - exists token, a. split_and!; [exact Ht|exact Ha|exact He].
Defined.
