(* ===== verification/Endpoints.v ===== *)
(** * The token endpoints (src/src/assembly/oidc.rs)

    Authorization code, client credentials and refresh, and the endpoints that
    read or end a token: userinfo, introspection, revocation and proxy
    authentication.  A closure of type
    [tx (Result A)] commits its writes although the caller sees the error. *)

From S2P Require Import Prelude Json Model Store Env Provider Jose Delegation Agents Assurance Claims Identities Oidc Token.

#[local] Set Warnings "-clear-no-such-hyp".

Section endpoints.
Context {E : Env}.

(** End the family of a token that was presented twice. *)
Definition revoke_family (family_id : string) : tx unit :=
  family ← get Family.t "families" family_id;
  match family with
  | Some f => put "families" family_id (Family.revoke f)
  | None => mret ()
  end.

(** ** Authorization code *)

Definition verifier_byte (c : Ascii.ascii) : bool :=
  Str.is_ascii_alphanumeric c || bool_decide (c ∈ ["-"; "."; "_"; "~"]%char).
Definition verifier_matches (verifier challenge : string) : bool :=
  (43 <=? Str.len verifier) && (Str.len verifier <=? 128)
  && forallb verifier_byte (Str.bytes verifier)
  && String.eqb (digest verifier) challenge.

(** Scopes still open to the client, refresh included. *)
Definition scopes_allowed (client : Client.t) (scopes : gset string) : bool :=
  bool_decide (scopes ⊆ client.(Client.scopes))
  && negb (bool_decide ("offline_access" ∈ scopes) && negb (grant_enabled client "refresh_token")).

Definition code_usable (at_ : Z) (client : Client.t) (request : TokenRequest.t) (code : Code.t) :
    bool :=
  negb (code.(Code.expires_at) <=? at_)
  && String.eqb code.(Code.client_id) client.(Client.id)
  && bool_decide (request.(TokenRequest.redirect_uri) = Some code.(Code.redirect_uri))
  && redirect_matches client code.(Code.redirect_uri)
  && scopes_allowed client code.(Code.scopes).

(** A code presented again: the original proof key is asked for, then the
    tokens issued for the code end. *)
Definition code_replayed (client : Client.t) (request : TokenRequest.t) (code : Code.t)
    (family_id : string) : tx unit :=
  _ ← match code.(Code.dpop_jkt) with
      | Some expected =>
          proof ← some_or request.(TokenRequest.dpop_proof)
                    (Error.oauth "invalid_dpop_proof" "Code replay requires the original proof key");
          jkt ← Dpop.verify proof "POST" (endpoint config.(Config.issuer) "/oauth/token") None;
          ensure (String.eqb jkt expected)
            (Error.oauth "invalid_dpop_proof" "Code belongs to another proof key")
      | None => mret ()
      end;
  _ ← revoke_family family_id;
  audit client.(Client.id) "authorization_code.replay" family_id.

Definition redeem_code (client : Client.t) (request : TokenRequest.t) (key : string)
    (code : Code.t) : tx json :=
  _ ← or_else (authorize_identity client code.(Code.identity)) invalid_grant;
  grant ← new_grant client (Some code.(Code.identity)) code.(Code.scopes) code.(Code.nonce);
  grant ← Dpop.bind client request grant code.(Code.dpop_jkt);
  grant ← lift (Resource.bind client grant request.(TokenRequest.resource) code.(Code.resource));
  let grant := Grant.set_request grant code.(Code.claims_request) code.(Code.acr_values) in
  output ← issue grant true;
  _ ← put "codes" key
        (Code.redeemed code
           (match grant.(Grant.confirmation_jkt) with
            | Some j => Some j
            | None => grant.(Grant.id_token_jkt)
            end) grant.(Grant.family_id) grant.(Grant.expires_at));
  mret output.

Definition exchange_code (request : TokenRequest.t) : tx (Result json) :=
  client ← authenticate_client request false;
  _ ← lift (grant_allowed client "authorization_code");
  code_value ← lift (required request.(TokenRequest.code) "code");
  let key := digest code_value in
  code ← get Code.t "codes" key;
  code ← some_or code invalid_grant;
  at_ ← now;
  _ ← ensure (code_usable at_ client request code) invalid_grant;
  verifier ← lift (required request.(TokenRequest.code_verifier) "code_verifier");
  _ ← ensure (verifier_matches verifier code.(Code.challenge)) invalid_grant;
  match code.(Code.issued_family) with
  | Some family_id =>
      _ ← code_replayed client request code family_id;
      mret (Err invalid_grant)
  | None =>
      output ← redeem_code client request key code;
      mret (Ok output)
  end.

(** ** Client credentials and refresh *)

Definition client_credentials (request : TokenRequest.t) : tx json :=
  client ← authenticate_client request true;
  _ ← lift (grant_allowed client "client_credentials");
  _ ← ensure client.(Client.service)
        (Error.oauth "unauthorized_client" "Client credentials requires a service client");
  scopes ← lift (scope_request
                   (default (scope_string client.(Client.scopes)) request.(TokenRequest.scope)) client);
  grant ← new_grant client None scopes None;
  grant ← lift (Resource.bind client grant request.(TokenRequest.resource)
                  request.(TokenRequest.resource));
  grant ← Dpop.bind client request grant None;
  issue grant false.

(** The scopes a refresh asks for, never more than the grant has. *)
Definition refreshed_scopes (client : Client.t) (request : TokenRequest.t) (grant : Grant.t) :
    Result (gset string) :=
  match request.(TokenRequest.scope) with
  | None => Ok grant.(Grant.scopes)
  | Some scope =>
      requested ← scope_request scope client;
      if bool_decide (requested ⊆ grant.(Grant.scopes)) then Ok requested
      else Err (Error.oauth "invalid_scope" "Refresh scope cannot be expanded")
  end.

Definition refresh (request : TokenRequest.t) : tx (Result json) :=
  client ← authenticate_client request false;
  _ ← lift (grant_allowed client "refresh_token");
  token ← lift (required request.(TokenRequest.refresh_token) "refresh_token");
  let key := digest token in
  grant ← get Grant.t "refresh" key;
  grant ← some_or grant invalid_grant;
  at_ ← now;
  _ ← ensure (negb (negb (String.eqb grant.(Grant.client_id) client.(Client.id))
                    || (grant.(Grant.expires_at) <=? at_))) invalid_grant;
  replacement ← lift (Resource.bind client grant request.(TokenRequest.resource)
                        grant.(Grant.resource));
  replacement ← Dpop.bind client request replacement None;
  if grant.(Grant.used) then
    _ ← revoke_family grant.(Grant.family_id);
    _ ← audit client.(Client.id) "refresh.replay" grant.(Grant.family_id);
    mret (Err invalid_grant)
  else
    _ ← or_else (validate_grant grant) invalid_grant;
    scopes ← lift (refreshed_scopes client request grant);
    let replacement :=
      Grant.stamp (Grant.set_scopes replacement scopes) at_ replacement.(Grant.expires_at)
        replacement.(Grant.used) in
    _ ← put "refresh" key
          (Grant.stamp grant grant.(Grant.issued_at) grant.(Grant.expires_at) true);
    output ← issue replacement true;
    mret (Ok output).

(** ** Reading and ending tokens *)

Definition userinfo_with_proof (token : string) (proof : option string) (method : string) :
    tx json :=
  grant ← get Grant.t "access" (digest token);
  grant ← some_or grant Error.unauthorized;
  client ← validate_grant grant;
  let url := endpoint config.(Config.issuer) "/oauth/userinfo" in
  _ ← ensure (match grant.(Grant.resource) with Some r => String.eqb r url | None => true end)
        Error.unauthorized;
  _ ← Dpop.resource grant proof token method url;
  _ ← ensure (bool_decide ("openid" ∈ grant.(Grant.scopes)))
        (Error.new FORBIDDEN "insufficient_scope" "openid scope required");
  identity ← some_or grant.(Grant.identity) Error.unauthorized;
  user ← identity_user identity;
  claims ← Claims.mapped_claims_for_identity user client grant.(Grant.scopes) identity;
  let claims := Assurance.add_protocol_claims claims grant.(Grant.claims_request) identity in
  if client.(Client.settings).(ProviderSettings.userinfo_signed_response)
     || bool_decide (is_Some client.(Client.settings).(ProviderSettings.userinfo_encryption))
  then
    at_ ← now;
    let claims := Json.extend claims
      [("iss", JStr (issuer_for_client client)); ("aud", JStr client.(Client.id));
       ("iat", JNum at_); ("exp", JNum grant.(Grant.expires_at))] in
    keys ← keys_for_client client;
    signed ← lift (sign_jwt keys.(Keys.active) claims "JWT");
    token ← encrypt_opt client.(Client.settings).(ProviderSettings.userinfo_encryption) signed;
    mret (JStr token)
  else mret claims.

Definition inactive : json := Json.obj [("active", JBool false)].

(** The grant of a token, access tokens first; both buckets are read. *)
Definition token_grant (hash : string) : tx (option Grant.t) :=
  access ← get Grant.t "access" hash;
  refresh ← get Grant.t "refresh" hash;
  mret (match access with Some g => Some g | None => refresh end).

Definition introspect (request : TokenRequest.t) : tx json :=
  requester ← authenticate_client request true;
  token ← lift (required request.(TokenRequest.token) "token");
  grant ← token_grant (digest token);
  match grant with
  | None => mret inactive
  | Some grant =>
      valid ← catch (validate_grant grant);
      match valid with
      | Err _ => mret inactive
      | Ok client =>
          if negb (token_manager requester client grant) then mret inactive
          else
            subject ← match grant.(Grant.identity) with
                      | Some i => user ← identity_user i; mret (Claims.subject user client)
                      | None => mret (service_subject grant)
                      end;
            let value := Json.obj
              [("active", JBool true);
               ("client_id", JStr (match grant.(Grant.exchange) with
                                   | Some e => e.(ExchangeGrant.requester_id)
                                   | None => grant.(Grant.client_id)
                                   end));
               ("sub", JStr subject); ("scope", JStr (scope_string grant.(Grant.scopes)));
               ("iss", JStr (issuer_for_client client)); ("aud", JStr (Resource.audience grant));
               ("exp", JNum grant.(Grant.expires_at)); ("iat", JNum grant.(Grant.issued_at));
               ("token_type", JStr (TOKEN_TYPE grant))] in
            let value := match grant.(Grant.confirmation_jkt) with
                         | Some jkt => Json.set "cnf" (cnf jkt) value
                         | None => value
                         end in
            let value := match grant.(Grant.exchange) ≫= ExchangeGrant.act with
                         | Some act => Json.set "act" act value
                         | None => value
                         end in
            act ← AgentApps.act grant;
            mret (match act with Some act => Json.set "act" act value | None => value end)
      end
  end.

Definition revoke (request : TokenRequest.t) : tx json :=
  client ← authenticate_client request false;
  token ← lift (required request.(TokenRequest.token) "token");
  grant ← token_grant (digest token);
  grant ← match grant with
          | Some g =>
              owner ← get Client.t "clients" g.(Grant.client_id);
              mret (match owner with
                    | Some owner => if token_manager client owner g then Some g else None
                    | None => None
                    end)
          | None => mret None
          end;
  _ ← match grant with
      | Some g =>
          family ← get Family.t "families" g.(Grant.family_id);
          match family with
          | Some f =>
              if f.(Family.revoked) then mret ()
              else
                _ ← put "families" g.(Grant.family_id) (Family.revoke f);
                audit client.(Client.id) "token.revoked" g.(Grant.family_id)
          | None => mret ()
          end
      | None => mret ()
      end;
  mret (Json.obj []).

Definition proxy_auth_with_proof (token audience : string) (proof : option string) : tx json :=
  grant ← get Grant.t "access" (digest token);
  grant ← some_or grant Error.unauthorized;
  _ ← validate_grant grant;
  _ ← Dpop.resource grant proof token "GET" (endpoint config.(Config.issuer) "/api/proxy/auth");
  _ ← ensure (String.eqb (Resource.audience grant) audience) Error.forbidden;
  identity ← some_or grant.(Grant.identity) Error.forbidden;
  user ← identity_user identity;
  groups ← groups_for user.(User.id);
  mret (Json.obj [("sub", JStr user.(User.id)); ("username", JStr user.(User.username));
                  ("groups", Json.strs (btree_iter groups))]).
End endpoints.

(** ** Steps of the endpoints *)

Section steps.
Context {E : Env}.
Implicit Types (r : TokenRequest.t) (s : St.t).

#[global] Instance touches_revoke_family f : Touches ["families"] (revoke_family f).
Proof. unfold revoke_family. solve_touches. Qed.

Lemma required_ok o n v : required o n = Ok v → o = Some v.
Proof. unfold required, nonempty. repeat case_match; naive_solver. Qed.

(** Client authentication only records a used assertion. *)
Lemma authenticate_client_run r b s c s1 :
  authenticate_client r b s = (Ok c, s1) →
  s1.(St.clock) = s.(St.clock) ∧ (s.(St.rng) ≤ s1.(St.rng))%nat
  ∧ ∀ bk k, bk ≠ "assertion_replays" → s1.(St.db) !! (bk, k) = s.(St.db) !! (bk, k).
Proof.
  intros Hrun. pose proof (touches_run ["assertion_replays"] _ _ _ _ Hrun) as (? & _ & ? & Hdb).
  split_and!; [done|done|]. intros bk k Hb. apply Hdb. set_solver.
Qed.

(** The client of a successful authentication is the enabled registration the
    request names, and a confidential client showed its secret or a fresh
    signed assertion. *)
Lemma authenticate_client_ok r b s c s1 :
  authenticate_client r b s = (Ok c, s1) →
  ∃ cid, r.(TokenRequest.client_id) = Some cid
    ∧ s.(St.db) !! ("clients", cid) = Some (RClient c) ∧ c.(Client.enabled) = true
    ∧ match r.(TokenRequest.client_assertion), r.(TokenRequest.client_assertion_type) with
      | None, None => secret_accepted c r.(TokenRequest.client_secret) b = true
      | _, _ => ∃ token claims jwks issuer,
          r.(TokenRequest.client_assertion) = Some token
          ∧ c.(Client.settings).(ProviderSettings.jwks) = Some jwks
          ∧ s.(St.db) !! ("meta", "issuer") = Some (RString issuer)
          ∧ Jwks.verify s.(St.clock) jwks token cid (endpoint issuer "/oauth/token") = Ok claims
          ∧ Json.as_str (Json.index claims "sub") = Some cid
          ∧ consume_assertion claims ("client:" +:+ cid) s = (Ok (), s1)
      end.
Proof.
  unfold authenticate_client. intros Hrun. tx_inv.
  match goal with H : get_client _ _ = _ |- _ => apply get_client_ok in H as (-> & Hc & He) end.
  match goal with H : nonempty _ = Some ?c |- _ => exists c end.
  split; [unfold nonempty in *; repeat case_match; by simplify_eq|].
  destruct (TokenRequest.client_assertion r) as [t|] eqn:Ha;
    destruct (TokenRequest.client_assertion_type r) as [ty|] eqn:Hty; simpl in *.
  4: { tx_inv. done. }
  all: unfold authenticate_assertion in *; case_match; [by tx_inv|]; tx_inv; rewrite ?Ha in *; simplify_eq.
  all: match goal with H : map_err _ _ = Ok _ |- _ => unfold map_err in H; case_match; simplify_eq end.
  all: match goal with H : consume_assertion _ _ _ = (Ok ?u, _) |- _ => destruct u end; bools.
  all: split_and!; [done..|]; do 4 eexists; split_and!; try done.
Qed.
End steps.

Section code_flow.
Context {E : Env}.
Implicit Types (r : TokenRequest.t) (s : St.t).

Lemma exchange_code_steps r s x s' :
  exchange_code r s = (Ok x, s') →
  ∃ client value verifier code s1,
    authenticate_client r false s = (Ok client, s1)
    ∧ r.(TokenRequest.code) = Some value
    ∧ s.(St.db) !! ("codes", digest value) = Some (RCode code)
    ∧ code_usable s.(St.clock) client r code = true
    ∧ r.(TokenRequest.code_verifier) = Some verifier
    ∧ verifier_matches verifier code.(Code.challenge) = true
    ∧ match code.(Code.issued_family) with
      | Some fam => x = Err invalid_grant ∧ code_replayed client r code fam s1 = (Ok (), s')
      | None => ∃ out, x = Ok out ∧ redeem_code client r (digest value) code s1 = (Ok out, s')
      end.
Proof.
  unfold exchange_code. cbv zeta. intros Hrun. tx_inv.
  match goal with H : authenticate_client _ _ _ = _ |- _ =>
    pose proof (authenticate_client_run _ _ _ _ _ H) as (Hcl & _ & Hdb) end.
  match goal with H : required (TokenRequest.code _) _ = Ok ?v |- _ => apply required_ok in H end.
  match goal with H : required (TokenRequest.code_verifier _) _ = Ok ?v |- _ => apply required_ok in H end.
  match goal with H : _ !! ("codes", _) = _ |- _ => rewrite Hdb in H by done end.
  rewrite Hcl in *. do 5 eexists. split_and!; try done.
  destruct (Code.issued_family _); tx_inv; [|eauto].
  match goal with H : code_replayed _ _ _ _ _ = (Ok ?u, _) |- _ => destruct u end. done.
Qed.

(** Binding a grant changes its keys and resource and nothing else. *)
Lemma bind_clients_ok cs r g j s g' s' :
  Dpop.bind_clients cs r g j s = (Ok g', s') → ∃ conf idj, g' = Grant.set_jkts g conf idj.
Proof.
  unfold Dpop.bind_clients. cbv zeta. intros Hrun.
  tx_crush; first [by eexists _, _ | by exists g.(Grant.confirmation_jkt), g.(Grant.id_token_jkt); destruct g].
Qed.
Lemma dpop_bind_ok c r g j s g' s' :
  Dpop.bind c r g j s = (Ok g', s') → ∃ conf idj, g' = Grant.set_jkts g conf idj.
Proof. apply bind_clients_ok. Qed.
Lemma resource_bind_ok c g q a g' :
  Resource.bind c g q a = Ok g' → g' = Grant.set_resource g a.
Proof.
  unfold Resource.bind. case_match; [done|]. destruct (Resource.validate _ _ _); by intros [= <-].
Qed.

Lemma bind_clients_run cs r g j s x s' :
  Dpop.bind_clients cs r g j s = (x, s') →
  s'.(St.clock) = s.(St.clock) ∧ (s.(St.rng) ≤ s'.(St.rng))%nat
  ∧ ∀ bk k, bk ≠ "dpop_replays" → s'.(St.db) !! (bk, k) = s.(St.db) !! (bk, k).
Proof.
  intros Hrun. pose proof (touches_run ["dpop_replays"] _ _ _ _ Hrun) as (? & _ & ? & Hdb).
  split_and!; [done|done|]. intros bk k Hb. apply Hdb. set_solver.
Qed.

Lemma dpop_bind_run c r g j s x s' :
  Dpop.bind c r g j s = (x, s') →
  s'.(St.clock) = s.(St.clock) ∧ (s.(St.rng) ≤ s'.(St.rng))%nat
  ∧ ∀ bk k, bk ≠ "dpop_replays" → s'.(St.db) !! (bk, k) = s.(St.db) !! (bk, k).
Proof. apply bind_clients_run. Qed.

(** What a redemption leaves: the token and the mark on the code. *)
Lemma redeem_code_ok client r key code s out s' :
  redeem_code client r key code s = (Ok out, s') →
  let fam := uuid s.(St.rng) in
  ∃ u token a jkt,
    authorize_identity client code.(Code.identity) s = (Ok u, s)
    ∧ Json.get "access_token" out = Some (JStr token)
    ∧ s'.(St.db) !! ("access", digest token) = Some (RGrant a)
    ∧ a.(Grant.scopes) = code.(Code.scopes)
    ∧ a.(Grant.identity) = Some code.(Code.identity)
    ∧ a.(Grant.client_id) = client.(Client.id)
    ∧ a.(Grant.family_id) = fam
    ∧ a.(Grant.resource) = code.(Code.resource)
    ∧ s'.(St.db) !! ("families", fam)
      = Some (RFamily (Family.mk (family_expiry s.(St.clock) client (Some code.(Code.identity))
                                    code.(Code.scopes)) false))
    ∧ s'.(St.db) !! ("codes", key)
      = Some (RCode (Code.redeemed code jkt fam
                       (family_expiry s.(St.clock) client (Some code.(Code.identity))
                          code.(Code.scopes)))).
Proof.
  unfold redeem_code. cbv zeta. intros Hrun. tx_inv.
  match goal with H : authorize_identity _ _ _ = (_, ?s1) |- _ =>
    pose proof (pure_run _ _ _ _ H) as Hp; rewrite Hp in *; clear Hp; rename H into Hauth end.
  match goal with H : new_grant _ _ _ _ _ = _ |- _ => apply new_grant_ok in H as [-> ->] end.
  match goal with H : Dpop.bind _ _ _ _ _ = _ |- _ =>
    pose proof (dpop_bind_run _ _ _ _ _ _ _ H) as (Hc & _ & Hd);
    apply dpop_bind_ok in H as (conf & idj & ->) end.
  match goal with H : Resource.bind _ _ _ _ = _ |- _ => apply resource_bind_ok in H as -> end.
  match goal with H : issue _ _ _ = _ |- _ =>
    pose proof (touches_run ["access"; "refresh"; "rp_sessions"; "audit"] _ _ _ _ H) as (_ & _ & _ & Hf);
    apply issue_ok in H as (c' & ident & token & n & _ & _ & _ & Ha & _ & _ & Hrow & _) end.
  eexists _, token, _, _. split_and!; [exact Hauth|exact Ha| | | | | | | |].
  - simpl. rewrite lookup_insert_ne by done. exact Hrow.
  - done.
  - done.
  - done.
  - done.
  - done.
  - simpl. rewrite lookup_insert_ne by done. rewrite Hf by (set_unfold; naive_solver).
    rewrite Hd by done. simpl. by rewrite lookup_insert_eq.
  - simpl. by rewrite lookup_insert_eq.
Qed.
End code_flow.

Section code_properties.
Context {E : Env}.
Implicit Types (r : TokenRequest.t) (s : St.t).

(** Client ids are names, so no client is taken for an agent. *)
Lemma name_is_no_agent n : validate_name n = Ok () → Str.strip_prefix "agent:" n = None.
Proof.
  destruct (Str.strip_prefix "agent:" n) as [t|] eqn:Ht; [|done].
  apply strip_prefix_spec in Ht as ->. unfold validate_name.
  replace (forallb name_byte (Str.bytes ("agent:" +:+ t))) with false by done.
  rewrite !orb_true_r. done.
Qed.

Lemma audit_succeeds a b c s :
  Str.strip_prefix "agent:" a = None → Str.starts_with b "agent." = false →
  existsb (Str.starts_with b) REVISIONED = false →
  ∃ s', audit a b c s = (Ok (), s').
Proof.
  intros Ha Hb Hr. unfold audit, audit_with_details. rewrite Hr.
  erewrite bind_step by reflexivity. erewrite bind_step by reflexivity. cbv zeta.
  unfold audit_attribution. rewrite Ha, Hb. erewrite bind_step by reflexivity.
  eexists. reflexivity.
Qed.

(** No grant of a revoked family is accepted. *)
Lemma revoked_family_rejected g f s c s' :
  s.(St.db) !! ("families", g.(Grant.family_id)) = Some (RFamily f) →
  f.(Family.revoked) = true → validate_grant g s ≠ (Ok c, s').
Proof.
  intros Hf Hr Hrun. apply grant_chain_ok in Hrun as (-> & Hl & _).
  apply validate_grant_local_ok in Hl as (_ & _ & _ & (f' & Hf' & Hr' & _) & _).
  simplify_eq. congruence.
Qed.

(** An authorization code is redeemed only by the client it was issued to,
    with the redirect URI of the request, a PKCE verifier whose digest is the
    challenge, before it expires and while the account may still use the
    client; the access token returned has exactly the code's scopes, identity
    and resource, and the code is marked with the family of its tokens. *)
Theorem code_redemption_sound r s out s' :
  exchange_code r s = (Ok (Ok out), s') →
  ∃ cid client value code verifier token a jkt f,
    r.(TokenRequest.client_id) = Some cid
    ∧ s.(St.db) !! ("clients", cid) = Some (RClient client)
    ∧ client.(Client.enabled) = true
    ∧ r.(TokenRequest.code) = Some value
    ∧ s.(St.db) !! ("codes", digest value) = Some (RCode code)
    ∧ s.(St.clock) < code.(Code.expires_at)
    ∧ code.(Code.client_id) = client.(Client.id)
    ∧ r.(TokenRequest.redirect_uri) = Some code.(Code.redirect_uri)
    ∧ r.(TokenRequest.code_verifier) = Some verifier
    ∧ digest verifier = code.(Code.challenge)
    ∧ code.(Code.issued_family) = None
    ∧ Json.get "access_token" out = Some (JStr token)
    ∧ s'.(St.db) !! ("access", digest token) = Some (RGrant a)
    ∧ a.(Grant.scopes) = code.(Code.scopes)
    ∧ a.(Grant.identity) = Some code.(Code.identity)
    ∧ a.(Grant.resource) = code.(Code.resource)
    ∧ s'.(St.db) !! ("families", a.(Grant.family_id)) = Some (RFamily f)
    ∧ f.(Family.revoked) = false
    ∧ s'.(St.db) !! ("codes", digest value)
      = Some (RCode (Code.redeemed code jkt a.(Grant.family_id) f.(Family.expires_at))).
Proof.
  intros (client & value & verifier & code & s1 & Hauth & Hv & Hcode & Hus & Hver & Hm & Hx)%exchange_code_steps.
  destruct (Code.issued_family code) eqn:Hfam; [by destruct Hx|].
  destruct Hx as (o & [= <-] & Hred).
  destruct (authenticate_client_ok _ _ _ _ _ Hauth) as (cid & Hcid & Hcl & Hen & _).
  destruct (authenticate_client_run _ _ _ _ _ Hauth) as (Hclk & _ & Hdb).
  apply redeem_code_ok in Hred as (u & token & a & jkt & _ & Ht & Ha & Hs & Hi & _ & Hf & Hres & Hfm & Hc).
  unfold code_usable, verifier_matches in *. bools.
  exists cid, client, value, code, verifier, token, a, jkt. eexists.
  rewrite Hf. by split_and!.
Qed.

(** A code is redeemed at most once: after a successful redemption, and as
    long as the stored code is not rewritten, no request for the same code
    obtains tokens. *)
Theorem code_one_use r1 r2 s1 s1' s2 s2' value out1 out2 :
  exchange_code r1 s1 = (Ok (Ok out1), s1') →
  r1.(TokenRequest.code) = Some value → r2.(TokenRequest.code) = Some value →
  s2.(St.db) !! ("codes", digest value) = s1'.(St.db) !! ("codes", digest value) →
  exchange_code r2 s2 ≠ (Ok (Ok out2), s2').
Proof.
  intros (c1 & v1 & ve1 & code1 & t1 & _ & Hv1 & Hc1 & _ & _ & _ & Hx1)%exchange_code_steps Hr1 Hr2 Hsame
    (c2 & v2 & ve2 & code2 & t2 & _ & Hv2 & Hc2 & _ & _ & _ & Hx2)%exchange_code_steps.
  simplify_eq. destruct (Code.issued_family code1); [by destruct Hx1|].
  destruct Hx1 as (o & [= <-] & Hred).
  apply redeem_code_ok in Hred as (_ & _ & _ & jkt & _ & _ & _ & _ & _ & _ & _ & _ & _ & Hrow).
  rewrite Hsame, Hrow in Hc2. simplify_eq/=. by destruct Hx2.
Qed.

(** The requests for which the code checks pass. *)
Definition code_presented r s (client : Client.t) (value : string) (code : Code.t) s1 : Prop :=
  authenticate_client r false s = (Ok client, s1)
  ∧ grant_allowed client "authorization_code" = Ok ()
  ∧ required r.(TokenRequest.code) "code" = Ok value
  ∧ s.(St.db) !! ("codes", digest value) = Some (RCode code)
  ∧ code_usable s.(St.clock) client r code = true
  ∧ ∃ verifier, required r.(TokenRequest.code_verifier) "code_verifier" = Ok verifier
                ∧ verifier_matches verifier code.(Code.challenge) = true.

End code_properties.

Section refresh_properties.
Context {E : Env}.
Implicit Types (r : TokenRequest.t) (s : St.t).

Lemma revoke_family_ok fam s u s' :
  revoke_family fam s = (Ok u, s') →
  ∀ f, s.(St.db) !! ("families", fam) = Some (RFamily f) →
       s' = St.set_db s (<[("families", fam) := RFamily (Family.revoke f)]> s.(St.db)).
Proof.
  unfold revoke_family. intros Hrun f Hf. tx_inv.
  match goal with H : _ !! _ = _ <$> ?o |- _ => rewrite Hf in H; destruct o; simplify_eq/= end.
  by tx_inv.
Qed.

Lemma scope_request_ok sc c scopes :
  scope_request sc c = Ok scopes → scopes ⊆ c.(Client.scopes).
Proof. unfold scope_request. cbv zeta. intros H. repeat case_match; simplify_eq; bools; done. Qed.

Lemma refreshed_scopes_ok c r g scopes :
  refreshed_scopes c r g = Ok scopes → scopes ⊆ g.(Grant.scopes).
Proof.
  unfold refreshed_scopes. destruct (TokenRequest.scope r); [|by intros [= ->]].
  destruct (scope_request _ _); simpl; [|done]. case_bool_decide; [by intros [= ->]|done].
Qed.

Lemma refresh_steps r s x s' :
  refresh r s = (Ok x, s') →
  ∃ client token g conf idj s2,
    r.(TokenRequest.refresh_token) = Some token
    ∧ s.(St.db) !! ("refresh", digest token) = Some (RGrant g)
    ∧ g.(Grant.client_id) = client.(Client.id)
    ∧ s.(St.clock) < g.(Grant.expires_at)
    ∧ s2.(St.clock) = s.(St.clock) ∧ (s.(St.rng) ≤ s2.(St.rng))%nat
    ∧ (∀ bk k, bk ≠ "assertion_replays" → bk ≠ "dpop_replays" →
               s2.(St.db) !! (bk, k) = s.(St.db) !! (bk, k))
    ∧ if g.(Grant.used) then
        x = Err invalid_grant
        ∧ (_ ← revoke_family g.(Grant.family_id);
           audit client.(Client.id) "refresh.replay" g.(Grant.family_id)) s2 = (Ok (), s')
      else
        ∃ out scopes,
          x = Ok out ∧ (∃ c, validate_grant g s2 = (Ok c, s2))
          ∧ refreshed_scopes client r g = Ok scopes
          ∧ issue (Grant.stamp (Grant.set_scopes (Grant.set_jkts g conf idj) scopes)
                     s.(St.clock) g.(Grant.expires_at) false) true
              (St.set_db s2 (<[("refresh", digest token)
                := RGrant (Grant.stamp g g.(Grant.issued_at) g.(Grant.expires_at) true)]> s2.(St.db)))
            = (Ok out, s').
Proof.
  unfold refresh. cbv zeta. intros Hrun. tx_inv.
  match goal with H : authenticate_client _ _ _ = _ |- _ =>
    pose proof (authenticate_client_run _ _ _ _ _ H) as (Hcl & Hrn & Hdb) end.
  match goal with H : required _ _ = Ok ?v |- _ => apply required_ok in H end.
  match goal with H : _ !! ("refresh", _) = _ |- _ => rewrite Hdb in H by done end.
  match goal with H : Resource.bind _ ?g _ _ = Ok _ |- _ =>
    apply resource_bind_ok in H as ->; replace (Grant.set_resource g g.(Grant.resource)) with g in *
      by (by destruct g) end.
  match goal with H : Dpop.bind _ _ _ _ _ = _ |- _ =>
    pose proof (dpop_bind_run _ _ _ _ _ _ _ H) as (Hc2 & Hr2 & Hd2);
    apply dpop_bind_ok in H as (conf & idj & ->) end.
  bools. exists x0, x4, x8, conf, idj, x17. rewrite Hcl in *.
  split_and!; [done|done|done|done|done|lia| |].
  { intros bk k Ha Hb. rewrite Hd2, Hdb; done. }
  destruct (Grant.used x8) eqn:Hu; tx_inv.
  - split; [done|]. match goal with H : revoke_family _ _ = (Ok ?u, _) |- _ =>
      rewrite (bind_step _ _ _ _ _ H) end.
    match goal with H : audit _ _ _ _ = (Ok ?u, _) |- _ => destruct u; exact H end.
  - match goal with H : validate_grant _ _ = (_, ?s1) |- _ =>
      pose proof (pure_run _ _ _ _ H) as Hp; rewrite Hp in *; clear Hp end.
    do 2 eexists. split_and!; [done|eauto|done|done].
Qed.

(** A used refresh token presented again is never honoured: if the
    transaction commits at all, its answer is [invalid_grant], the whole token
    family is revoked, no token is issued and every grant of the family is
    rejected from then on. *)
Theorem refresh_reuse_revokes r s x s' token g f :
  refresh r s = (Ok x, s') →
  r.(TokenRequest.refresh_token) = Some token →
  s.(St.db) !! ("refresh", digest token) = Some (RGrant g) → g.(Grant.used) = true →
  s.(St.db) !! ("families", g.(Grant.family_id)) = Some (RFamily f) →
  x = Err invalid_grant
  ∧ s'.(St.db) !! ("families", g.(Grant.family_id)) = Some (RFamily (Family.revoke f))
  ∧ (∀ k, s'.(St.db) !! ("access", k) = s.(St.db) !! ("access", k))
  ∧ (∀ k, s'.(St.db) !! ("refresh", k) = s.(St.db) !! ("refresh", k))
  ∧ ∀ h c s'', h.(Grant.family_id) = g.(Grant.family_id) → validate_grant h s' ≠ (Ok c, s'').
Proof.
  intros (client & t & g' & conf & idj & s2 & Ht & Hg & _ & _ & _ & _ & Hdb & Hx)%refresh_steps
    Ht' Hg' Hu Hf. rewrite Ht' in Ht. injection Ht as <-. rewrite Hg' in Hg. injection Hg as <-.
  rewrite Hu in Hx. destruct Hx as [-> Hrev]. tx_inv.
  rewrite <-Hdb in Hf by done.
  match goal with H : revoke_family _ _ = _ |- _ => apply (revoke_family_ok _ _ _ _ H) in Hf as -> end.
  match goal with H : audit _ _ _ _ = _ |- _ =>
    apply audit_event_run in H as (_ & _ & Ha); [|by vm_compute] end.
  assert (s'.(St.db) !! ("families", g.(Grant.family_id)) = Some (RFamily (Family.revoke f))) as Hr.
  { rewrite Ha by done. simpl. by rewrite lookup_insert_eq. }
  split_and!; [done|done|..].
  - intros k. rewrite Ha by done. simpl. rewrite lookup_insert_ne by done. by apply Hdb.
  - intros k. rewrite Ha by done. simpl. rewrite lookup_insert_ne by done. by apply Hdb.
  - intros h c s'' Hh. rewrite <-Hh in Hr. by eapply revoked_family_rejected.
Qed.

(** C3: a refresh rotates the token: the presented token was live and unused
    and is marked used; the new access token keeps its family, identity and
    resource, has no scope the presented grant lacked and does not outlive it;
    and no later request with the old token obtains tokens.  [fresh] is the
    freshness of random tokens under the digest. *)
Theorem refresh_rotates r s out s' token :
  (∀ n, (s.(St.rng) ≤ n)%nat → digest ("ri_refresh_" +:+ random_bytes n) ≠ digest token) →
  refresh r s = (Ok (Ok out), s') →
  r.(TokenRequest.refresh_token) = Some token →
  ∃ g c access a,
    s.(St.db) !! ("refresh", digest token) = Some (RGrant g)
    ∧ g.(Grant.used) = false ∧ s.(St.clock) < g.(Grant.expires_at)
    ∧ s.(St.db) !! ("clients", g.(Grant.client_id)) = Some (RClient c)
    ∧ c.(Client.enabled) = true
    ∧ s'.(St.db) !! ("refresh", digest token)
      = Some (RGrant (Grant.stamp g g.(Grant.issued_at) g.(Grant.expires_at) true))
    ∧ Json.get "access_token" out = Some (JStr access)
    ∧ s'.(St.db) !! ("access", digest access) = Some (RGrant a)
    ∧ a.(Grant.scopes) ⊆ g.(Grant.scopes)
    ∧ a.(Grant.family_id) = g.(Grant.family_id)
    ∧ a.(Grant.identity) = g.(Grant.identity) ∧ a.(Grant.resource) = g.(Grant.resource)
    ∧ a.(Grant.expires_at) ≤ g.(Grant.expires_at)
    ∧ ∀ r2 s2 x s2',
        r2.(TokenRequest.refresh_token) = Some token →
        s2.(St.db) !! ("refresh", digest token) = s'.(St.db) !! ("refresh", digest token) →
        refresh r2 s2 = (Ok x, s2') → x = Err invalid_grant.
Proof.
  intros Hfresh (client & t & g & conf & idj & s2 & Ht & Hg & Hid & Hexp & Hclk & Hrng & Hdb & Hx)%refresh_steps
    Ht'. rewrite Ht' in Ht. injection Ht as <-. destruct (Grant.used g) eqn:Hu; [by destruct Hx|].
  destruct Hx as (o & scopes & [= <-] & [c Hval] & Hsc & Hissue).
  apply refreshed_scopes_ok in Hsc.
  apply validate_grant_ok in Hval as (_ & _ & _ & _ & Hc & Hen & _).
  rewrite Hdb in Hc by done.
  apply issue_ok in Hissue as (c' & ident & access & n & _ & _ & _ & Ha & _ & _ & Hrow & _ & Hn & Href).
  assert (s'.(St.db) !! ("refresh", digest token)
          = Some (RGrant (Grant.stamp g g.(Grant.issued_at) g.(Grant.expires_at) true))) as Hold.
  { destruct (_ && _).
    - destruct Href as (_ & _ & Hoth). rewrite Hoth; simpl; [by rewrite lookup_insert_eq|].
      apply not_eq_sym, Hfresh. simpl in Hn. lia.
    - destruct Href as (_ & Hoth). rewrite Hoth. simpl. by rewrite lookup_insert_eq. }
  exists g, c, access. eexists. split_and!; try done.
  - simpl. unfold access_expiry. simpl. lia.
  - intros r2 s3 x s3' Hr2 Hsame
      (cl2 & t2 & g2 & ? & ? & ? & Ht2 & Hg2 & _ & _ & _ & _ & _ & Hx2)%refresh_steps.
    simplify_eq. rewrite Hsame, Hold in Hg2. simplify_eq/=. by destruct Hx2.
Qed.
End refresh_properties.

Section revocation_properties.
Context {E : Env}.
Implicit Types (r : TokenRequest.t) (s : St.t).

Lemma token_grant_ok h s o s' :
  token_grant h s = (Ok o, s') →
  s' = s ∧ ∀ g, o = Some g → s.(St.db) !! ("access", h) = Some (RGrant g)
                             ∨ s.(St.db) !! ("refresh", h) = Some (RGrant g).
Proof.
  unfold token_grant. intros Hrun. tx_inv. split; [done|]. intros g Hg.
  case_match; simplify_eq/=; auto.
Qed.

(** Revocation changes no family but that of the presented token, and only
    when the authenticated client owns the token, manages the owner's tokens
    or is the requester of its exchange; the family it changes is revoked.  A
    token whose family is already revoked changes nothing. *)
Theorem revoke_only_managed r s v s' fam :
  revoke r s = (Ok v, s') →
  s'.(St.db) !! ("families", fam) ≠ s.(St.db) !! ("families", fam) →
  ∃ requester s1 token owner g f,
    authenticate_client r false s = (Ok requester, s1)
    ∧ r.(TokenRequest.token) = Some token
    ∧ (s.(St.db) !! ("access", digest token) = Some (RGrant g)
       ∨ s.(St.db) !! ("refresh", digest token) = Some (RGrant g))
    ∧ g.(Grant.family_id) = fam
    ∧ s.(St.db) !! ("clients", g.(Grant.client_id)) = Some (RClient owner)
    ∧ token_manager requester owner g = true
    ∧ s.(St.db) !! ("families", fam) = Some (RFamily f) ∧ f.(Family.revoked) = false
    ∧ s'.(St.db) !! ("families", fam) = Some (RFamily (Family.revoke f)).
Proof.
  unfold revoke. intros Hrun Hch. tx_inv.
  match goal with H : authenticate_client _ _ _ = _ |- _ =>
    pose proof (authenticate_client_run _ _ _ _ _ H) as (_ & _ & Hdb) end.
  match goal with H : required _ _ = Ok _ |- _ => apply required_ok in H end.
  match goal with H : token_grant _ _ = _ |- _ => apply token_grant_ok in H as [-> Hg] end.
  tx_crush; try (exfalso; apply Hch, Hdb; done).
  match goal with H : audit _ _ _ _ = _ |- _ =>
    apply audit_event_run in H as (_ & _ & Ha); [|by vm_compute] end.
  match goal with H : Some _ = match ?o with _ => _ end |- _ =>
    destruct o as [owner|]; [|done]; destruct (token_manager _ owner _) eqn:Hm; simplify_eq/= end.
  match goal with H : Family.revoked ?f = false |- _ => rename f into fm end.
  rewrite Ha in Hch |- * by done. simpl in Hch |- *.
  match goal with H : token_manager _ _ ?g = true |- _ =>
    destruct (decide (g.(Grant.family_id) = fam)) as [<-|Hne] end.
  2: { rewrite lookup_insert_ne in Hch by congruence. by rewrite Hdb in Hch. }
  rewrite Hdb in * by done. setoid_rewrite Hdb in Hg; [|done]. do 6 eexists.
  split_and!; [done|done|by apply Hg|done|done|done|done|done|by rewrite lookup_insert_eq].
Qed.

(** Revoking a live token with a secret-authenticated client that may
    manage it succeeds, answers with the uniform empty object, and from the
    next transaction on every grant of the token's family is rejected. *)
Theorem revoke_ends_family r s requester token g owner f :
  authenticate_client r false s = (Ok requester, s) →
  required r.(TokenRequest.token) "token" = Ok token →
  s.(St.db) !! ("access", digest token) = Some (RGrant g) →
  s.(St.db) !! ("refresh", digest token) = None →
  s.(St.db) !! ("clients", g.(Grant.client_id)) = Some (RClient owner) →
  token_manager requester owner g = true →
  s.(St.db) !! ("families", g.(Grant.family_id)) = Some (RFamily f) →
  validate_name requester.(Client.id) = Ok () →
  ∃ s', write (revoke r) s = (Ok (Json.obj []), s')
    ∧ ∀ h c s'', h.(Grant.family_id) = g.(Grant.family_id) → validate_grant h s' ≠ (Ok c, s'').
Proof.
  intros Hauth Hreq Ha Hr Ho Hm Hf Hname.
  assert (token_grant (digest token) s = (Ok (Some g), s)) as Hg.
  { unfold token_grant. tx_get. erewrite bind_step by (by apply get_none). done. }
  unfold write, revoke. rewrite (bind_step _ _ _ _ _ Hauth), Hreq. erewrite bind_step by reflexivity.
  rewrite (bind_step _ _ _ _ _ Hg).
  erewrite bind_step by (tx_get; rewrite Hm; reflexivity). simpl.
  destruct (Family.revoked f) eqn:Hrev.
  - erewrite bind_step by (tx_get; rewrite Hrev; reflexivity).
    eexists. split; [reflexivity|]. intros h c s'' Hh. rewrite <-Hh in Hf.
    by eapply revoked_family_rejected.
  - set (s2 := St.set_db s (<[("families", g.(Grant.family_id)) := RFamily (Family.revoke f)]> s.(St.db))).
    destruct (audit_succeeds requester.(Client.id) "token.revoked" g.(Grant.family_id) s2) as [s' Haud];
      [by apply name_is_no_agent|done|by vm_compute|].
    erewrite bind_step by (tx_get; rewrite Hrev; erewrite bind_step by reflexivity; exact Haud).
    eexists. split; [reflexivity|]. intros h c s'' Hh.
    apply audit_event_run in Haud as (_ & _ & Hs'); [|by vm_compute].
    eapply (revoked_family_rejected h (Family.revoke f)); [|done].
    rewrite Hs', Hh by done. subst s2. simpl. by rewrite lookup_insert_eq.
Qed.

(** Introspection reports a token active only to a client that owns it,
    manages its owner's tokens or exchanged it, and only while the grant is
    live; the scope and expiry it reports are those of the grant. *)
Theorem introspect_active_sound r s v s' :
  introspect r s = (Ok v, s') → Json.get "active" v = Some (JBool true) →
  ∃ requester s1 token g c,
    authenticate_client r true s = (Ok requester, s1)
    ∧ r.(TokenRequest.token) = Some token
    ∧ (s.(St.db) !! ("access", digest token) = Some (RGrant g)
       ∨ s.(St.db) !! ("refresh", digest token) = Some (RGrant g))
    ∧ token_manager requester c g = true
    ∧ grant_live g c s1
    ∧ Json.get "exp" v = Some (JNum g.(Grant.expires_at))
    ∧ Json.get "scope" v = Some (JStr (scope_string g.(Grant.scopes))).
Proof.
  unfold introspect. cbv zeta. intros Hrun Hact. tx_inv.
  match goal with H : authenticate_client _ _ _ = _ |- _ =>
    pose proof (authenticate_client_run _ _ _ _ _ H) as (_ & _ & Hdb) end.
  match goal with H : required _ _ = Ok _ |- _ => apply required_ok in H end.
  match goal with H : token_grant _ _ = (Ok ?o, _) |- _ =>
    apply token_grant_ok in H as [-> Hg]; destruct o as [g|]; [|by tx_inv] end.
  tx_inv. match goal with H : catch _ _ = _ |- _ => apply (proj1 (catch_ok _ _ _ _)) in H; rename H into Hval end.
  case_match; [|by tx_inv]. case_match; [by tx_inv|]. bools.
  apply validate_grant_ok in Hval as [-> Hlive].
  setoid_rewrite Hdb in Hg; [|done..].
  tx_inv. do 5 eexists. split_and!; [done|done|by apply Hg|done|done|..].
  all: repeat case_match; simpl; rewrite ?Json.get_set_ne by done; done.
Qed.
End revocation_properties.

(** ** Concrete runs *)

Module EndpointDemo.
#[local] Existing Instance Demo.env.

Definition verifier : string := "abcdefghijklmnopqrstuvwxyzABCDEFGHIJKLMNOPQ".
Definition code : Code.t :=
  Code.mk None None ClaimsRequest.default None "crm" FlowDemo.identity "https://crm.test"
    (digest verifier) {["openid"; "offline_access"]} (Some "n-1") 1100 None.
(** A request of the client [crm] with its secret. *)
Definition request (code verifier refresh token : option string) : TokenRequest.t :=
  TokenRequest.mk "" (Some "crm") (Some "s3cret") code (Some "https://crm.test") verifier refresh
    None None token None None None None None None None None None None None None None false.
Definition code_request : TokenRequest.t := request (Some "c-1") (Some verifier) None None.
Definition refresh_request : TokenRequest.t := request None None (Some "rt-1") None.
Definition token_request : TokenRequest.t := request None None None (Some "at-1").

Definition run {A} (m : tx A) (s : St.t) : St.t := (m s).2.
Definition value {A} (d : A) (m : tx A) (s : St.t) : A :=
  match (m s).1 with Ok a => a | Err _ => d end.
Definition answer (m : tx (Result json)) (s : St.t) : json :=
  match (m s).1 with Ok (Ok a) => a | _ => JNull end.

Definition state : St.t :=
  St.set_db TokenDemo.state
    (<[("codes", "#c-1") := RCode code]>
     (<[("refresh", "#rt-1") := RGrant TokenDemo.subject]> TokenDemo.state.(St.db))).
Definition redeemed : St.t := run (exchange_code code_request) state.
Definition rotated : St.t := run (refresh refresh_request) state.

Example code_runs : is_ok (value (Err Error.internal) (exchange_code code_request) state) = true.
Proof. vm_compute. reflexivity. Qed.
Example refresh_runs : is_ok (value (Err Error.internal) (refresh refresh_request) state) = true.
Proof. vm_compute. reflexivity. Qed.
End EndpointDemo.

Lemma code_redemption_sound_witness :
  ∃ token a, @Json.get "access_token" (EndpointDemo.answer (@exchange_code Demo.env EndpointDemo.code_request)
                                         EndpointDemo.state) = Some (JStr token)
    ∧ EndpointDemo.redeemed.(St.db) !! ("access", @digest Demo.env token) = Some (RGrant a).
Proof.
  destruct (@code_redemption_sound Demo.env EndpointDemo.code_request EndpointDemo.state
    (EndpointDemo.answer (@exchange_code Demo.env EndpointDemo.code_request) EndpointDemo.state)
    EndpointDemo.redeemed) as (cid & cl & v & code & ver & token & a & jkt & f & _ & _ & _ & Hv & Hc & _ & _ &
      _ & _ & _ & _ & Ht & Ha & _ & Hi & _).
  - vm_compute. reflexivity.
  - exists token, a. split; [exact Ht|exact Ha].
Defined.

Lemma code_one_use_witness :
  @exchange_code Demo.env EndpointDemo.code_request EndpointDemo.redeemed
  ≠ (Ok (Ok (Json.obj [])), EndpointDemo.redeemed).
Proof.
  apply (@code_one_use Demo.env EndpointDemo.code_request EndpointDemo.code_request EndpointDemo.state
    EndpointDemo.redeemed EndpointDemo.redeemed EndpointDemo.redeemed "c-1"
    (EndpointDemo.answer (@exchange_code Demo.env EndpointDemo.code_request) EndpointDemo.state)).
  - vm_compute. reflexivity.
  - reflexivity.
  - reflexivity.
  - reflexivity.
Defined.


Lemma refresh_reuse_revokes_witness :
  EndpointDemo.value (Ok JNull) (@refresh Demo.env EndpointDemo.refresh_request) EndpointDemo.rotated
  = Err invalid_grant.
Proof.
  refine (proj1 (@refresh_reuse_revokes Demo.env EndpointDemo.refresh_request EndpointDemo.rotated
    (EndpointDemo.value (Ok JNull) (@refresh Demo.env EndpointDemo.refresh_request) EndpointDemo.rotated)
    (EndpointDemo.run (@refresh Demo.env EndpointDemo.refresh_request) EndpointDemo.rotated) "rt-1"
    (Grant.stamp TokenDemo.subject 990 1300 true) (Family.mk 2000 false) _ _ _ _ _));
    vm_compute; reflexivity.
Defined.

Lemma refresh_rotates_witness :
  ∃ g, EndpointDemo.rotated.(St.db) !! ("refresh", "#rt-1")
       = Some (RGrant (Grant.stamp g g.(Grant.issued_at) g.(Grant.expires_at) true)).
Proof.
  destruct (@refresh_rotates Demo.env EndpointDemo.refresh_request EndpointDemo.state
    (EndpointDemo.answer (@refresh Demo.env EndpointDemo.refresh_request) EndpointDemo.state)
    EndpointDemo.rotated "rt-1") as (g & c & access & a & _ & _ & _ & _ & _ & Hold & _).
  - intros n _ Hn. cbn -[Nat.eqb String.length Demo.digest_text] in Hn. revert Hn.
    generalize (pretty.pretty (Z.of_nat n)). intros p.
    unfold Demo.digest_text, String.append. simpl (String.length "rt-1" =? 43)%nat.
    destruct (Nat.eqb _ _); discriminate.
  - vm_compute. reflexivity.
  - reflexivity.
  - exists g. exact Hold.
Defined.

Lemma revoke_only_managed_witness :
  ∃ requester owner g, token_manager requester owner g = true ∧ g.(Grant.family_id) = "fam-1".
Proof.
  destruct (@revoke_only_managed Demo.env EndpointDemo.token_request EndpointDemo.state (Json.obj [])
    (EndpointDemo.run (@revoke Demo.env EndpointDemo.token_request) EndpointDemo.state) "fam-1")
    as (requester & s1 & token & owner & g & f & _ & _ & _ & Hg & _ & Hm & _).
  - vm_compute. reflexivity.
  - vm_compute. discriminate.
  - exists requester, owner, g. split; [exact Hm|exact Hg].
Defined.

Lemma revoke_ends_family_witness :
  ∃ s', write (@revoke Demo.env EndpointDemo.token_request) EndpointDemo.state = (Ok (Json.obj []), s')
    ∧ @validate_grant Demo.env TokenDemo.subject s' ≠ (Ok FlowDemo.client, s').
Proof.
  destruct (@revoke_ends_family Demo.env EndpointDemo.token_request EndpointDemo.state FlowDemo.client
    "at-1" TokenDemo.subject FlowDemo.client (Family.mk 2000 false)) as (s' & Hw & Hr);
    [vm_compute; reflexivity..|].
  exists s'. split; [exact Hw|]. by apply Hr.
Defined.

Lemma introspect_active_sound_witness :
  ∃ requester c g s, token_manager requester c g = true ∧ grant_live g c s.
Proof.
  destruct (@introspect_active_sound Demo.env EndpointDemo.token_request EndpointDemo.state
    (EndpointDemo.value JNull (@introspect Demo.env EndpointDemo.token_request) EndpointDemo.state)
    EndpointDemo.state) as (requester & s1 & token & g & c & _ & _ & _ & Hm & Hl & _).
  - vm_compute. reflexivity.
  - vm_compute. reflexivity.
  - exists requester, c, g, s1. split; [exact Hm|exact Hl].
Defined.
