(* ===== verification/Exchanges.v ===== *)
(** * Token exchange, workload and agent grants (src/src/assembly/exchange.rs,
    assembly/agent_exchange.rs, management/agent_applications.rs)

    RFC 8693 exchange between clients under a bilateral policy, JWT grants of
    pinned workloads, and the exchange of an agent credential for one
    application's access token under its owner's approval. *)

From S2P Require Import Prelude Json Model Store Env Provider Jose Delegation Agents Assurance Claims Identities Oidc Token Endpoints.

#[local] Set Warnings "-clear-no-such-hyp".

Section exchange.
Context {E : Env}.

(** ** Exchange between clients *)

(** The audience of an exchange: named, or the one enabled target of the
    requester that registers the resource. *)
Definition exchange_target (requester : Client.t) (request : TokenRequest.t) : tx string :=
  match request.(TokenRequest.audience) with
  | Some audience => mret audience
  | None =>
      resource ← some_or request.(TokenRequest.resource) Resource.invalid;
      _ ← lift (Resource.validate_uri resource);
      clients ← list_all Client.t "clients";
      let targets :=
        List.filter (λ c : Client.t,
          c.(Client.enabled)
          && bool_decide (is_Some (c.(Client.settings).(ProviderSettings.resources) !! resource))
          && match requester.(Client.settings).(ProviderSettings.exchange) with
             | Some p => bool_decide (c.(Client.id) ∈ p.(ExchangePolicy.target_clients))
             | None => false
             end) clients.*2 in
      match targets with
      | [c] => mret c.(Client.id)
      | _ => fail Resource.invalid
      end
  end.

(** The actor of a delegation: its hash, the [act] claim and its expiry.  The
    authenticated service presents its own, undelegated token. *)
Definition exchange_actor (requester : Client.t) (request : TokenRequest.t) (subject : Grant.t) :
    tx (option string * option json * Z) :=
  let previous := subject.(Grant.exchange) ≫= ExchangeGrant.act in
  match request.(TokenRequest.actor_token) with
  | Some actor_token =>
      _ ← ensure (bool_decide (request.(TokenRequest.actor_token_type) = Some Exchange.ACCESS_TOKEN))
            Exchange.invalid;
      let hash := digest actor_token in
      actor ← get Grant.t "access" hash;
      actor ← some_or actor Exchange.invalid;
      _ ← or_else (validate_grant_chain actor 0) Exchange.invalid;
      _ ← ensure (negb (negb (String.eqb actor.(Grant.client_id) requester.(Client.id))
                        || bool_decide (is_Some actor.(Grant.identity))
                        || bool_decide (is_Some actor.(Grant.exchange)))) Exchange.invalid;
      let act := Json.obj [("sub", JStr ("service:" +:+ requester.(Client.id)));
                           ("iss", JStr (issuer_for_client requester))] in
      let act := match previous with Some p => Json.set "act" p act | None => act end in
      mret (Some hash, Some act, actor.(Grant.expires_at))
  | None =>
      _ ← ensure (bool_decide (request.(TokenRequest.actor_token_type) = None)) Exchange.invalid;
      mret (None, previous, subject.(Grant.expires_at))
  end.

(** The key the parent tokens are bound to, when they agree on one. *)
Definition parent_key (subject_jkt actor_jkt : option string) : Result (option string) :=
  match subject_jkt, actor_jkt with
  | Some s, Some a => if String.eqb s a then Ok (Some s) else Err Exchange.invalid
  | Some j, None | None, Some j => Ok (Some j)
  | None, None => Ok None
  end.

(** [jkt.is_some_and(|j| Some(j) != confirmation)]. *)
Definition key_lost (jkt confirmation : option string) : bool :=
  match jkt with Some j => negb (bool_decide (Some j = confirmation)) | None => false end.

Definition set_expires (g : Grant.t) (exp : Z) : Grant.t :=
  Grant.stamp g g.(Grant.issued_at) exp g.(Grant.used).

(** The grant of an exchange, bound to the resource asked for and to the keys
    of the parent tokens. *)
Definition exchange_bind (requester target : Client.t) (request : TokenRequest.t)
    (subject : Grant.t) (scopes : gset string) (actor_hash : option string) (actor_expiry : Z) :
    tx Grant.t :=
  grant ← new_grant target subject.(Grant.identity) scopes None;
  grant ← lift (Resource.bind target grant request.(TokenRequest.resource)
                  request.(TokenRequest.resource));
  let grant := set_expires grant
    (Z.min (Z.min grant.(Grant.expires_at) subject.(Grant.expires_at)) actor_expiry) in
  actor_jkt ← match actor_hash with
              | Some hash =>
                  actor ← get Grant.t "access" hash;
                  actor ← some_or actor Exchange.invalid;
                  mret actor.(Grant.confirmation_jkt)
              | None => mret None
              end;
  parent_jkt ← lift (parent_key subject.(Grant.confirmation_jkt) actor_jkt);
  grant ← Dpop.bind_clients [requester; target] request grant parent_jkt;
  _ ← ensure (negb (key_lost subject.(Grant.confirmation_jkt) grant.(Grant.confirmation_jkt)))
        Exchange.invalid;
  _ ← ensure (negb (key_lost actor_jkt grant.(Grant.confirmation_jkt))) Exchange.invalid;
  _ ← ensure (negb ((Dpop.access_binding [requester; target]
                     || bool_decide (is_Some parent_jkt))
                    && bool_decide (grant.(Grant.confirmation_jkt) = None))) Dpop.invalid;
  mret grant.

Definition exchange_token (request : TokenRequest.t) : tx json :=
  requester ← authenticate_client request true;
  _ ← lift (grant_allowed requester Exchange.TOKEN_EXCHANGE);
  _ ← ensure (negb (negb (bool_decide (request.(TokenRequest.subject_token_type)
                                       = Some Exchange.ACCESS_TOKEN))
                    || match request.(TokenRequest.requested_token_type) with
                       | Some t => negb (String.eqb t Exchange.ACCESS_TOKEN)
                       | None => false
                       end))
        (Error.oauth "invalid_request" "Exchange accepts and issues access tokens");
  target_id ← exchange_target requester request;
  target ← or_else (get_client target_id) (Error.oauth "invalid_target" "Unknown target");
  policy ← some_or requester.(Client.settings).(ProviderSettings.exchange)
             (Error.oauth "unauthorized_client" "Client has no exchange policy");
  subject_token ← some_or request.(TokenRequest.subject_token) Exchange.invalid;
  let subject_hash := digest subject_token in
  subject ← get Grant.t "access" subject_hash;
  subject ← some_or (match subject with
                     | Some s => if bool_decide (s.(Grant.agent_application) = None)
                                 then Some s else None
                     | None => None
                     end) Exchange.invalid;
  _ ← or_else (validate_grant_chain subject 0) Exchange.invalid;
  source ← get_client subject.(Grant.client_id);
  scope ← some_or request.(TokenRequest.scope)
            (Error.oauth "invalid_scope" "Exchange requires explicit scopes");
  scopes ← lift (scope_request scope target);
  _ ← lift (Exchange.check_policy requester target policy subject scopes
              (bool_decide (is_Some request.(TokenRequest.actor_token))));
  actor ← exchange_actor requester request subject;
  let '(actor_hash, act, actor_expiry) := actor in
  _ ← or_else (validate_grant_chain subject 1) Exchange.invalid;
  grant ← exchange_bind requester target request subject scopes actor_hash actor_expiry;
  let grant := Grant.set_exchange grant (Some (ExchangeGrant.mk requester.(Client.id) subject_hash
    actor_hash act
    (match subject.(Grant.identity) with
     | None => Some (default ("service:" +:+ source.(Client.id))
                       (subject.(Grant.exchange) ≫= ExchangeGrant.service_subject))
     | Some _ => None
     end))) in
  result ← issue grant false;
  _ ← audit requester.(Client.id) "token.exchanged" target_id;
  mret (Json.set "issued_token_type" (JStr Exchange.ACCESS_TOKEN) result).

(** ** Workload grants *)

(** The first trust whose keys and subject accept the assertion. *)
Fixpoint find_trust (at_ : Z) (trusts : list MachineTrust.t) (assertion audience : string) :
    option (MachineTrust.t * json) :=
  match trusts with
  | [] => None
  | trust :: trusts =>
      match Jwks.verify at_ trust.(MachineTrust.jwks) assertion trust.(MachineTrust.issuer) audience with
      | Ok claims =>
          if bool_decide (Json.as_str (Json.index claims "sub") = Some trust.(MachineTrust.subject))
          then Some (trust, claims)
          else find_trust at_ trusts assertion audience
      | Err _ => find_trust at_ trusts assertion audience
      end
  end.

Definition set_machine_trust (g : Grant.t) (hash : option string) : Grant.t :=
  Grant.mk g.(Grant.resource) g.(Grant.confirmation_jkt) g.(Grant.id_token_jkt)
    g.(Grant.claims_request) g.(Grant.acr_values) hash g.(Grant.exchange)
    g.(Grant.agent_application) g.(Grant.client_id) g.(Grant.identity) g.(Grant.scopes)
    g.(Grant.nonce) g.(Grant.family_id) g.(Grant.issued_at) g.(Grant.expires_at) g.(Grant.used).

(** Client credentials sent along with a workload assertion must validate. *)
Definition extra_credentials (request : TokenRequest.t) : tx unit :=
  if bool_decide (is_Some request.(TokenRequest.client_secret))
     || bool_decide (is_Some request.(TokenRequest.client_assertion))
     || bool_decide (is_Some request.(TokenRequest.client_assertion_type))
  then _ ← authenticate_client request true; mret ()
  else mret ().

Definition machine_token (request : TokenRequest.t) : tx json :=
  cid ← some_or request.(TokenRequest.client_id) Exchange.invalid;
  client ← get_client cid;
  _ ← lift (grant_allowed client JWT_GRANT);
  _ ← ensure client.(Client.service)
        (Error.oauth "unauthorized_client" "JWT grants are machine identities");
  _ ← extra_credentials request;
  assertion ← some_or request.(TokenRequest.assertion) Exchange.invalid;
  at_ ← now;
  trust ← some_or (find_trust at_ client.(Client.settings).(ProviderSettings.machine_trust)
                     assertion (endpoint config.(Config.issuer) "/oauth/token")) Exchange.invalid;
  let '(trust, claims) := trust in
  scope ← some_or request.(TokenRequest.scope)
            (Error.oauth "invalid_scope" "Machine grants require explicit scopes");
  scopes ← lift (scope_request scope client);
  _ ← ensure (bool_decide (scopes ⊆ trust.(MachineTrust.scopes)))
        (Error.oauth "invalid_scope" "Scope is outside the workload trust");
  _ ← or_else (consume_assertion claims ("machine:" +:+ client.(Client.id))) Exchange.invalid;
  grant ← new_grant client None scopes None;
  grant ← lift (Resource.bind client grant request.(TokenRequest.resource)
                  request.(TokenRequest.resource));
  let grant := set_machine_trust grant (Some (digest (trust_string trust))) in
  exp ← some_or (Json.as_u64 (Json.index claims "exp")) Exchange.invalid;
  let grant := set_expires grant (Z.min grant.(Grant.expires_at) exp) in
  _ ← ensure (negb (grant.(Grant.expires_at) <=? at_)) Exchange.invalid;
  grant ← Dpop.bind client request grant None;
  issue grant false.

(** ** Agent grants *)

(** [agent_applications::find]. *)
Definition find_approval (owner : User.t) (agent_id client_id : string) (resource : option string) :
    tx (option Approval.t) :=
  at_ ← now;
  approvals ← list_all Approval.t AgentApps.APPROVALS;
  mret (List.find (λ a : Approval.t,
    String.eqb a.(Approval.agent_id) agent_id && String.eqb a.(Approval.client_id) client_id
    && bool_decide (a.(Approval.resource) = resource) && Approval.active a at_
    && Approval.current_for a owner) approvals.*2).

Definition set_application (g : Grant.t) (a : option AgentApplication.t) : Grant.t :=
  Grant.mk g.(Grant.resource) g.(Grant.confirmation_jkt) g.(Grant.id_token_jkt)
    g.(Grant.claims_request) g.(Grant.acr_values) g.(Grant.machine_trust_hash) g.(Grant.exchange)
    a g.(Grant.client_id) g.(Grant.identity) g.(Grant.scopes)
    g.(Grant.nonce) g.(Grant.family_id) g.(Grant.issued_at) g.(Grant.expires_at) g.(Grant.used).

(** The checks of [agent_application_token] before its transaction: the
    audience and the digest of the agent credential. *)
Definition agent_request (request : TokenRequest.t) : Result (string * string) :=
  if bool_decide (is_Some request.(TokenRequest.client_secret))
     || bool_decide (is_Some request.(TokenRequest.client_assertion))
     || bool_decide (is_Some request.(TokenRequest.client_assertion_type))
  then Err (Error.oauth "invalid_request"
              "The agent credential is the only authentication for this exchange")
  else if bool_decide (is_Some request.(TokenRequest.actor_token))
          || bool_decide (is_Some request.(TokenRequest.actor_token_type))
          || match request.(TokenRequest.requested_token_type) with
             | Some t => negb (String.eqb t Exchange.ACCESS_TOKEN)
             | None => false
             end
  then Err (Error.oauth "invalid_request"
              "Agent exchange issues one access token and takes no actor token")
  else
    audience ← ok_or (nonempty request.(TokenRequest.audience)) Resource.invalid;
    if match request.(TokenRequest.client_id) with
       | Some c => negb (String.eqb c audience)
       | None => false
       end
    then Err (Error.oauth "invalid_request" "client_id, when sent, must equal the audience")
    else
      token ← ok_or (match request.(TokenRequest.subject_token) with
                     | Some t => if Str.starts_with t "ri_agent_" then Some t else None
                     | None => None
                     end) Exchange.invalid;
      Ok (audience, digest token).

(** The agent a credential belongs to. *)
Definition agent_by_token (hash : string) : tx Agent.t :=
  agent_id ← get string "agent_tokens" hash;
  agent ← match agent_id with
          | Some i => get Agent.t "agents" i
          | None => mret None
          end;
  some_or (match agent with
           | Some a => if String.eqb a.(Agent.token_hash) hash then Some a else None
           | None => None
           end) Exchange.invalid.

Definition agent_application_tx (request : TokenRequest.t) (audience hash : string) : tx json :=
  agent ← agent_by_token hash;
  owner_id ← some_or agent.(Agent.parent_user) Exchange.invalid;
  principal ← live_principal agent;
  _ ← ensure (bool_decide (is_Some principal)) Exchange.invalid;
  target ← or_else (get_client audience) Resource.invalid;
  owner ← get User.t "users" owner_id;
  owner ← some_or owner Exchange.invalid;
  approval ← find_approval owner agent.(Agent.id) target.(Client.id) request.(TokenRequest.resource);
  approval ← some_or approval Exchange.invalid;
  scopes ← match request.(TokenRequest.scope) with
           | Some scope => lift (scope_request scope target)
           | None => mret approval.(Approval.scopes)
           end;
  _ ← ensure (bool_decide (scopes ⊆ approval.(Approval.scopes))
              && bool_decide (scopes ⊆ target.(Client.scopes)))
        (Error.oauth "invalid_scope" "Scope is outside the owner's approval or the application");
  let identity := AgentApps.identity approval owner in
  _ ← or_else (authorize_identity target identity) Exchange.invalid;
  grant ← new_grant target (Some identity) scopes None;
  let grant := set_application grant (Some (AgentApps.reference approval agent)) in
  grant ← lift (Resource.bind target grant request.(TokenRequest.resource)
                  approval.(Approval.resource));
  let grant := set_expires grant
    (Z.min (Z.min grant.(Grant.expires_at) approval.(Approval.expires_at)) agent.(Agent.expires_at)) in
  grant ← Dpop.bind target request grant None;
  _ ← or_else (validate_grant_local grant) Exchange.invalid;
  result ← issue grant false;
  _ ← audit_with_details ("agent:" +:+ agent.(Agent.id)) "token.exchanged" target.(Client.id)
        [("application_grant", JStr approval.(Approval.id)); ("owner", JStr owner_id)];
  mret (Json.set "issued_token_type" (JStr Exchange.ACCESS_TOKEN) result).

Definition agent_application_token (request : TokenRequest.t) : tx json :=
  p ← lift (agent_request request);
  agent_application_tx request p.1 p.2.
End exchange.

(** ** What the exchanges establish *)

Section properties.
Context {E : Env}.
Implicit Types (r : TokenRequest.t) (s : St.t).

Lemma exchange_actor_run q r g s a s' : exchange_actor q r g s = (Ok a, s') → s' = s.
Proof. apply pure_run. unfold exchange_actor. cbv zeta. solve_pure. Qed.
Lemma exchange_target_run q r s a s' : exchange_target q r s = (Ok a, s') → s' = s.
Proof. apply pure_run. unfold exchange_target. cbv zeta. solve_pure. Qed.

Lemma exchange_bind_ok q t r sub sc ah ae s g s' :
  exchange_bind q t r sub sc ah ae s = (Ok g, s') →
  ∃ res conf idj fam at_ exp,
    g = Grant.mk res conf idj ClaimsRequest.default None None None None t.(Client.id)
          sub.(Grant.identity) sc None fam at_ exp false
    ∧ exp ≤ sub.(Grant.expires_at)
    ∧ ∀ j, sub.(Grant.confirmation_jkt) = Some j → conf = Some j.
Proof.
  unfold exchange_bind. cbv zeta. intros Hrun. tx_inv.
  match goal with H : new_grant _ _ _ _ _ = _ |- _ => apply new_grant_ok in H as [-> _] end.
  match goal with H : Resource.bind _ _ _ _ = _ |- _ => apply resource_bind_ok in H as -> end.
  match goal with H : Dpop.bind_clients _ _ _ _ _ = _ |- _ =>
    apply bind_clients_ok in H as (conf & idj & ->) end.
  do 6 eexists. split; [reflexivity|]. split; [simpl; lia|].
  intros j Hj. unfold key_lost in *. rewrite Hj in *. simpl in *. by bools.
Qed.

(** C16: a token exchange never escalates: the token it issues has only scopes
    that the presented token, the requester, the exchange policy and the
    target all have, none of them a login or refresh scope; it stands for the
    same identity, lives no longer than the presented token, keeps that
    token's key binding, and records the token it came from, whose whole chain
    was valid with room for one more exchange. *)
Theorem exchange_never_escalates r s v s' :
  exchange_token r s = (Ok v, s') →
  ∃ requester target policy subject subject_token token a e s1,
    authenticate_client r true s = (Ok requester, s1)
    ∧ requester.(Client.settings).(ProviderSettings.exchange) = Some policy
    ∧ (∃ tid, s.(St.db) !! ("clients", tid) = Some (RClient target)) ∧ target.(Client.enabled) = true
    ∧ r.(TokenRequest.subject_token) = Some subject_token
    ∧ s.(St.db) !! ("access", digest subject_token) = Some (RGrant subject)
    ∧ subject.(Grant.agent_application) = None
    ∧ (∃ c, validate_grant_chain subject 1 s1 = (Ok c, s1))
    ∧ Json.get "access_token" v = Some (JStr token)
    ∧ s'.(St.db) !! ("access", digest token) = Some (RGrant a)
    ∧ a.(Grant.exchange) = Some e ∧ e.(ExchangeGrant.subject_hash) = digest subject_token
    ∧ e.(ExchangeGrant.requester_id) = requester.(Client.id)
    ∧ a.(Grant.client_id) = target.(Client.id)
    ∧ a.(Grant.scopes) ⊆ subject.(Grant.scopes) ∩ requester.(Client.scopes)
                         ∩ policy.(ExchangePolicy.scopes) ∩ target.(Client.scopes)
    ∧ ("openid" ∉ a.(Grant.scopes)) ∧ ("offline_access" ∉ a.(Grant.scopes))
    ∧ a.(Grant.identity) = subject.(Grant.identity)
    ∧ a.(Grant.expires_at) ≤ subject.(Grant.expires_at)
    ∧ (∀ j, subject.(Grant.confirmation_jkt) = Some j → a.(Grant.confirmation_jkt) = Some j)
    ∧ Json.get "refresh_token" v = None.
Proof.
  unfold exchange_token. cbv zeta. intros Hrun. tx_inv.
  match goal with H : authenticate_client _ _ _ = _ |- _ =>
    pose proof (authenticate_client_run _ _ _ _ _ H) as (_ & _ & Hdb) end.
  match goal with Ht : exchange_target _ _ _ = (Ok ?c, _), H : get_client ?c _ = (Ok ?t, _) |- _ =>
    apply exchange_target_run in Ht as ->;
    apply get_client_ok in H as (-> & Htarget & Hen); rename t into target end.
  rewrite Hdb in Htarget by done.
  match goal with H : validate_grant_chain _ 0 _ = (_, ?s2) |- _ =>
    apply pure_run in H as ->; [|apply pure_validate_grant_chain] end.
  match goal with H : get_client _ _ = (Ok ?t, _) |- _ => apply get_client_ok in H as (-> & _ & _) end.
  match goal with H : exchange_actor _ _ _ _ = (Ok ?a, _) |- _ =>
    apply exchange_actor_run in H as ->; destruct a as [[actor_hash act] actor_expiry] end.
  tx_inv.
  match goal with H : match ?o with _ => _ end = Some _ |- _ =>
    destruct o as [subj|]; [|done];
    destruct (bool_decide (Grant.agent_application subj = None)) eqn:Happ; simplify_eq/=; bools end.
  match goal with H : validate_grant_chain ?g 1 ?s1 = (_, ?s2) |- _ =>
    assert (s2 = s1) as Hp
      by exact (@pure_run _ _ (pure_validate_grant_chain g 1) _ _ _ H); subst s2 end.
  match goal with H : exchange_bind _ _ _ _ _ _ _ _ = _ |- _ =>
    apply exchange_bind_ok in H as (res & conf & idj & fam & at_ & exp & -> & Hexp & Hkey) end.
  match goal with H : issue _ _ _ = _ |- _ =>
    apply issue_ok in H as (c' & ident & token & n & _ & _ & _ & Ha & _ & _ & Hrow & _ & _ & Href) end.
  match goal with H : audit _ _ _ _ = _ |- _ =>
    apply audit_event_run in H as (_ & _ & Hau); [|by vm_compute] end.
  match goal with H : Exchange.check_policy _ _ _ _ _ _ = Ok ?u |- _ =>
    destruct u; apply check_policy_scopes in H as (? & ? & ? & ? & ? & _) end.
  match goal with H : scope_request _ _ = _ |- _ => apply scope_request_ok in H end.
  match goal with H : _ !! ("access", digest _) = Some (RGrant _) |- _ => rewrite Hdb in H by done end.
  match goal with H : validate_grant_chain ?sub 1 ?s1 = _, _ : TokenRequest.subject_token _ = Some ?t,
    _ : ProviderSettings.exchange _ = Some ?p, _ : authenticate_client _ _ _ = (Ok ?q, _) |- _ =>
    exists q, target, p, sub, t, token; eexists _, _, s1 end.
  rewrite !Json.get_set_ne, Hau by done.
  split_and!; [done|done|eauto|done|done|done|done|eauto|done|exact Hrow|done|done|done|done| |done|done|done| |done|].
  - simpl. set_solver.
  - simpl. unfold access_expiry. simpl. lia.
  - by destruct Href.
Qed.

Lemma find_trust_ok at_ trusts assertion aud trust claims :
  find_trust at_ trusts assertion aud = Some (trust, claims) →
  trust ∈ trusts
  ∧ Jwks.verify at_ trust.(MachineTrust.jwks) assertion trust.(MachineTrust.issuer) aud = Ok claims
  ∧ Json.as_str (Json.index claims "sub") = Some trust.(MachineTrust.subject).
Proof.
  induction trusts as [|t trusts IH]; simpl; [done|].
  destruct (Jwks.verify at_ t.(MachineTrust.jwks) assertion t.(MachineTrust.issuer) aud) eqn:Hv;
    [case_bool_decide as Hsub|]; intros Hf.
  - simplify_eq. split_and!; [apply list_elem_of_here|done|done].
  - destruct (IH Hf) as (? & ? & ?). split_and!; [by apply list_elem_of_further|done|done].
  - destruct (IH Hf) as (? & ? & ?). split_and!; [by apply list_elem_of_further|done|done].
Qed.

Lemma extra_credentials_run r s u s' :
  extra_credentials r s = (Ok u, s') → s'.(St.clock) = s.(St.clock).
Proof.
  unfold extra_credentials. case_match; intros Hrun; tx_inv; [|done].
  match goal with Ha : authenticate_client _ _ _ = _ |- _ =>
    by apply authenticate_client_run in Ha as (? & _) end.
Qed.

(** A workload obtains a token only with an assertion signed by a key
    pinned for it on an enabled service client, naming the pinned subject and
    consumed by this use; the token has no identity, only scopes of both the
    trust and the client, names the trust it came from and expires no later
    than the assertion. *)
Theorem machine_token_sound r s v s' :
  machine_token r s = (Ok v, s') →
  ∃ cid client trust claims assertion jti exp token a,
    r.(TokenRequest.client_id) = Some cid
    ∧ s.(St.db) !! ("clients", cid) = Some (RClient client)
    ∧ client.(Client.enabled) = true ∧ client.(Client.service) = true
    ∧ r.(TokenRequest.assertion) = Some assertion
    ∧ trust ∈ client.(Client.settings).(ProviderSettings.machine_trust)
    ∧ Jwks.verify s.(St.clock) trust.(MachineTrust.jwks) assertion trust.(MachineTrust.issuer)
        (endpoint config.(Config.issuer) "/oauth/token") = Ok claims
    ∧ Json.as_str (Json.index claims "sub") = Some trust.(MachineTrust.subject)
    ∧ Json.as_u64 (Json.index claims "exp") = Some exp
    ∧ s'.(St.db) !! ("assertion_replays",
                     assertion_key ("machine:" +:+ client.(Client.id)) claims jti) = Some (RU64 exp)
    ∧ Json.get "access_token" v = Some (JStr token)
    ∧ s'.(St.db) !! ("access", digest token) = Some (RGrant a)
    ∧ a.(Grant.identity) = None
    ∧ a.(Grant.scopes) ⊆ trust.(MachineTrust.scopes) ∩ client.(Client.scopes)
    ∧ a.(Grant.machine_trust_hash) = Some (digest (trust_string trust))
    ∧ a.(Grant.expires_at) ≤ exp.
Proof.
  unfold machine_token. cbv zeta. intros Hrun. tx_inv.
  match goal with H : get_client _ _ = (Ok ?c, _) |- _ =>
    apply get_client_ok in H as (-> & Hc & Hen); rename c into client end.
  match goal with H : extra_credentials _ _ = _ |- _ => apply extra_credentials_run in H as Hclk end.
  match goal with H : find_trust _ _ _ _ = Some ?q |- _ =>
    destruct q as [trust claims]; apply find_trust_ok in H as (Hin & Hver & Hsub) end.
  tx_inv. rewrite Hclk in *.
  match goal with H : consume_assertion _ _ _ = _ |- _ =>
    apply consume_assertion_ok in H as (exp & jti & Hexp & _ & _ & _ & ->) end.
  match goal with H : new_grant _ _ _ _ _ = _ |- _ => apply new_grant_ok in H as [-> ->] end.
  match goal with H : Resource.bind _ _ _ _ = _ |- _ => apply resource_bind_ok in H as -> end.
  match goal with H : Dpop.bind _ _ _ _ _ = _ |- _ =>
    pose proof (dpop_bind_run _ _ _ _ _ _ _ H) as (_ & _ & Hd);
    apply dpop_bind_ok in H as (conf & idj & ->) end.
  match goal with H : issue _ _ _ = _ |- _ =>
    pose proof (touches_run ["access"; "refresh"; "rp_sessions"; "audit"] _ _ _ _ H) as (_ & _ & _ & Hf);
    apply issue_ok in H as (c' & ident & token & n & _ & _ & _ & Ha & _ & _ & Hrow & _) end.
  match goal with H : scope_request _ _ = _ |- _ => apply scope_request_ok in H end.
  bools. simplify_eq.
  eexists _, client, trust, claims, _, jti, _, token, _.
  split_and!; [done|done|done|done|done|done|done|done|done| |done|exact Hrow|done| |done|].
  - rewrite Hf by (set_unfold; naive_solver). rewrite Hd by done. simpl.
    rewrite lookup_insert_ne by done. by rewrite lookup_insert_eq.
  - simpl. set_solver.
  - simpl. unfold access_expiry. simpl. lia.
Qed.

Lemma agent_request_ok r aud hash :
  agent_request r = Ok (aud, hash) →
  ∃ cred, r.(TokenRequest.subject_token) = Some cred ∧ hash = digest cred.
Proof.
  unfold agent_request. intros Hrun.
  repeat match type of Hrun with
  | (if ?b then _ else _) = Ok _ => destruct b; [done|]
  | (ok_or ?o _ ≫= _) = Ok _ => destruct o eqn:?; cbn [ok_or mbind result_bind] in Hrun; [|done]
  end. simplify_eq. repeat case_match; simplify_eq. eauto.
Qed.
Lemma agent_by_token_ok h s a s' :
  agent_by_token h s = (Ok a, s') → s' = s ∧ a.(Agent.token_hash) = h.
Proof.
  intros Hrun. split; [eapply pure_run; [|exact Hrun]; unfold agent_by_token; solve_pure|].
  unfold agent_by_token in Hrun. tx_inv. repeat case_match; simplify_eq. by bools.
Qed.
Lemma find_approval_ok o ag cl res s a s' :
  find_approval o ag cl res s = (Ok (Some a), s') →
  s' = s ∧ (∃ k, s.(St.db) !! (AgentApps.APPROVALS, k) = Some (RApproval a))
  ∧ a.(Approval.agent_id) = ag ∧ a.(Approval.client_id) = cl ∧ a.(Approval.resource) = res
  ∧ Approval.active a s.(St.clock) = true ∧ Approval.current_for a o = true.
Proof.
  unfold find_approval. intros Hrun. tx_inv.
  match goal with H : list_all _ _ _ = _ |- _ => apply list_all_ok in H as [-> Hrows] end.
  match goal with H : Some _ = List.find _ _ |- _ => symmetry in H; apply List.find_some in H as [Hin Hf] end.
  bools. split_and!; try done. apply list_elem_of_In, list_elem_of_fmap in Hin as ([k a'] & -> & Hk).
  exists k. apply elem_of_bucket_rows. rewrite Hrows. apply list_elem_of_fmap. by exists (k, a').
Qed.

(** An agent obtains an application token only under a live approval of its
    owner for that application and resource, given at the owner's current
    epoch; the token carries no scope outside the approval and the
    application, stands for the owner through that approval, and expires with
    the approval or the agent, whichever is first. *)
Theorem agent_token_within_approval r s v s' :
  agent_application_token r s = (Ok v, s') →
  ∃ credential agent owner_id owner approval target token a p,
    r.(TokenRequest.subject_token) = Some credential
    ∧ agent.(Agent.token_hash) = digest credential
    ∧ agent.(Agent.parent_user) = Some owner_id
    ∧ live_principal agent s = (Ok (Some p), s)
    ∧ s.(St.db) !! ("users", owner_id) = Some (RUser owner)
    ∧ (∃ k, s.(St.db) !! (AgentApps.APPROVALS, k) = Some (RApproval approval))
    ∧ approval.(Approval.agent_id) = agent.(Agent.id)
    ∧ approval.(Approval.client_id) = target.(Client.id)
    ∧ Approval.active approval s.(St.clock) = true
    ∧ Approval.current_for approval owner = true
    ∧ Json.get "access_token" v = Some (JStr token)
    ∧ s'.(St.db) !! ("access", digest token) = Some (RGrant a)
    ∧ a.(Grant.client_id) = target.(Client.id)
    ∧ a.(Grant.identity) = Some (AgentApps.identity approval owner)
    ∧ a.(Grant.resource) = approval.(Approval.resource)
    ∧ a.(Grant.scopes) ⊆ approval.(Approval.scopes) ∩ target.(Client.scopes)
    ∧ a.(Grant.expires_at) ≤ approval.(Approval.expires_at)
    ∧ a.(Grant.expires_at) ≤ agent.(Agent.expires_at).
Proof.
  unfold agent_application_token, agent_application_tx. cbv zeta. intros Hrun. tx_inv.
  match goal with H : agent_request _ = Ok ?q |- _ =>
    destruct q as [aud hash]; apply agent_request_ok in H as (cred & Hcred & Hh) end.
  simpl in *. subst hash.
  match goal with H : agent_by_token _ _ = _ |- _ => apply agent_by_token_ok in H as (-> & Hth) end.
  match goal with H : live_principal _ _ = (_, ?s2) |- _ =>
    pose proof (pure_run _ _ _ _ H); subst s2; rename H into Hlive end.
  match goal with H : get_client _ _ = _ |- _ => apply get_client_ok in H as (-> & Htarget & Hen) end.
  match goal with H : find_approval _ _ _ _ _ = (Ok (Some _), _) |- _ =>
    apply find_approval_ok in H as (-> & Hap) end.
  destruct Hap as (Hrow & Hag & Hcl & Hres & Hact & Hcur).
  match goal with H : match TokenRequest.scope _ with _ => _ end _ = (_, ?s2) |- _ =>
    assert (s2 = s) as -> by (case_match; tx_inv; done); clear H end.
  match goal with H : authorize_identity _ _ _ = _ |- _ => apply pure_run in H as ->; [|apply _] end.
  match goal with H : new_grant _ _ _ _ _ = _ |- _ => apply new_grant_ok in H as [-> ->] end.
  match goal with H : Resource.bind _ _ _ _ = _ |- _ => apply resource_bind_ok in H as -> end.
  match goal with H : Dpop.bind _ _ _ _ _ = _ |- _ => apply dpop_bind_ok in H as (conf & idj & ->) end.
  match goal with H : issue _ _ _ = _ |- _ =>
    apply issue_ok in H as (c' & ident & token & n & _ & _ & _ & Ha & _ & _ & Hacc & _) end.
  match goal with H : audit_with_details ?a ?b ?c ?l ?s1 = _ |- _ =>
    pose proof (touches_audit_with_event a b c l ltac:(by vm_compute) s1) as (_ & _ & _ & Hau);
    rewrite H in Hau end.
  bools. match goal with H : is_Some ?o |- _ => destruct H as [p ->] end.
  eexists cred, _, _, _, _, _, token, _, p. rewrite Json.get_set_ne by done.
  rewrite (Hau "access") by set_solver.
  split_and!; [done|done|done|done|done|exact Hrow|done|done|done|done|done|exact Hacc|done|done|done| | |].
  - simpl. set_solver.
  - simpl. unfold access_expiry. simpl. lia.
  - simpl. unfold access_expiry. simpl. lia.
Qed.
End properties.

(** ** Concrete runs *)

Module ExchangeDemo.
#[local] Existing Instance Demo.env.

Definition request (client secret subject subject_type scope audience assertion : option string) :
    TokenRequest.t :=
  TokenRequest.mk Exchange.TOKEN_EXCHANGE client secret None None None None None scope None None
    None None assertion subject subject_type None None None audience None None None false.
Definition exchange_request : TokenRequest.t :=
  request (Some "api") (Some "api") (Some "at-1") (Some Exchange.ACCESS_TOKEN) (Some "profile")
    (Some "backend") None.

(** A workload [ci] with a pinned key. *)
Definition trust : MachineTrust.t :=
  MachineTrust.mk "https://ci.test" "ci" [Demo.key] {["profile"]}.
Definition machine_settings : ProviderSettings.t :=
  ProviderSettings.mk None None None None None ∅ None None None [trust] None ∅ None None None None
    false None [] false false None ∅ false false ∅ None None None None ∅ [] None None [] false
    false false Policy.default None false false false.
Definition ci : Client.t :=
  Client.mk "ci" "CI" None [] {["profile"]} ∅ false true true machine_settings.
Definition machine_request : TokenRequest.t :=
  request (Some "ci") None None None (Some "profile") None (Some "jwt").
Definition machine_state : St.t := St.mk
  (<[("clients", "ci") := RClient ci]> TokenDemo.state.(St.db)) 1050 0 None.

(** Amy's agent, approved for the application [notes]. *)
Definition agent_settings : ProviderSettings.t :=
  ProviderSettings.mk None None None None None ∅ None None None [] None ∅ None None None None
    false None [] false false None ∅ false false ∅ None None None None ∅ [] None None [] false
    false false Policy.default None false false true.
Definition notes : Client.t :=
  Client.mk "notes" "Notes" None [] {["notes.read"; "notes.write"]} ∅ false true false agent_settings.
Definition approval : Approval.t :=
  Approval.mk "ap-1" "a1" "u-amy" "notes" {["notes.read"]} None true 1 None 900 1500 None.
Definition agent_request : TokenRequest.t :=
  request None None (Some "ri_agent_x") (Some Exchange.AGENT_TOKEN) None (Some "notes") None.
Definition agent_state : St.t := St.mk
  (<[("clients", "notes") := RClient notes]>
   (<[("agents", "a1") := RAgent AgentDemo.agent]>
    (<[("agent_tokens", "#ri_agent_x") := RString "a1"]>
     (<[(AgentApps.APPROVALS, "ap-1") := RApproval approval]> TokenDemo.state.(St.db))))) 1000 0 None.

Example exchange_runs : is_ok (exchange_token exchange_request TokenDemo.state).1 = true.
Proof. vm_compute. reflexivity. Qed.
Example machine_runs :
  is_ok (@machine_token JoseDemo.env machine_request machine_state).1 = true.
Proof. vm_compute. reflexivity. Qed.
Example agent_runs : is_ok (agent_application_token agent_request agent_state).1 = true.
Proof. vm_compute. reflexivity. Qed.
End ExchangeDemo.

Lemma exchange_never_escalates_witness :
  ∃ subject a, a.(Grant.scopes) ⊆ subject.(Grant.scopes)
    ∧ a.(Grant.expires_at) ≤ subject.(Grant.expires_at).
Proof.
  destruct (@exchange_never_escalates Demo.env ExchangeDemo.exchange_request TokenDemo.state
    (EndpointDemo.value JNull (@exchange_token Demo.env ExchangeDemo.exchange_request) TokenDemo.state)
    (EndpointDemo.run (@exchange_token Demo.env ExchangeDemo.exchange_request) TokenDemo.state))
    as (q & t & p & sub & st & tok & a & e & s1 & _ & _ & _ & _ & _ & _ & _ & _ & _ & _ & _ & _ & _ & _
        & Hs & _ & _ & _ & He & _).
  - vm_compute. reflexivity.
  - exists sub, a. split; [set_solver|exact He].
Defined.

Lemma machine_token_sound_witness :
  ∃ a trust, a.(Grant.identity) = None ∧ a.(Grant.scopes) ⊆ trust.(MachineTrust.scopes).
Proof.
  destruct (@machine_token_sound JoseDemo.env ExchangeDemo.machine_request ExchangeDemo.machine_state
    (EndpointDemo.value JNull (@machine_token JoseDemo.env ExchangeDemo.machine_request)
       ExchangeDemo.machine_state)
    (EndpointDemo.run (@machine_token JoseDemo.env ExchangeDemo.machine_request)
       ExchangeDemo.machine_state))
    as (cid & c & tr & cl & asr & jti & exp & tok & a & _ & _ & _ & _ & _ & _ & _ & _ & _ & _ & _ & _
        & Hi & Hs & _).
  - vm_compute. reflexivity.
  - exists a, tr. split; [exact Hi|set_solver].
Defined.

Lemma agent_token_within_approval_witness :
  ∃ approval a, a.(Grant.scopes) ⊆ approval.(Approval.scopes)
    ∧ a.(Grant.expires_at) ≤ approval.(Approval.expires_at).
Proof.
  destruct (@agent_token_within_approval Demo.env ExchangeDemo.agent_request ExchangeDemo.agent_state
    (EndpointDemo.value JNull (@agent_application_token Demo.env ExchangeDemo.agent_request)
       ExchangeDemo.agent_state)
    (EndpointDemo.run (@agent_application_token Demo.env ExchangeDemo.agent_request)
       ExchangeDemo.agent_state))
    as (cr & ag & oid & o & ap & t & tok & a & p & _ & _ & _ & _ & _ & _ & _ & _ & _ & _ & _ & _ & _
        & _ & _ & Hs & He & _).
  - vm_compute. reflexivity.
  - exists ap, a. split; [set_solver|exact He].
Defined.
