(* ===== verification/Authorize.v ===== *)
(** * The authorization endpoint (src/src/assembly/oidc.rs, response.rs,
    session_protocol.rs, assembly/source_stage.rs, assembly/browser_runtime.rs,
    workflow/executor/authorization.rs, workflow/executor/consent.rs)

    The decision on an authorization request: the fences a request passes, the
    request-bound proof of a fresh sign-in, the policy an approval enforces, the
    authorization code it stores, and the response that carries it. *)

From S2P Require Import Prelude Json Model Store Env Provider Jose Delegation Agents Assurance Claims Identities Oidc Preparation Token Endpoints.

#[local] Set Warnings "-clear-no-such-hyp".

(** ** Responses (response.rs) *)

(** [response::FIELDS]. *)
Definition FIELDS : list string :=
  ["code"; "state"; "iss"; "error"; "error_description"; "response"; "session_state"].
Definition is_field (name : string) : bool := existsb (String.eqb name) FIELDS.

(** [str::ends_with]. *)
Definition ends_with (s suffix : string) : bool :=
  Str.starts_with (Str.of_bytes (rev (Str.bytes s))) (Str.of_bytes (rev (Str.bytes suffix))).

Section authorize.
Context {E : Env}.

(** The claims of a response that is a JWT. *)
Definition response_claims (at_ : Z) (client : Client.t) (fields : list (string * string)) : json :=
  foldl (λ acc kv, if String.eqb kv.1 "iss" then acc else Json.set kv.1 (JStr kv.2) acc)
    (Json.obj [("iss", JStr (issuer_for_client client)); ("aud", JStr client.(Client.id));
               ("iat", JNum at_); ("exp", JNum (wadd at_ 60))]) fields.

Definition secure_authorization_response (client : Client.t) (mode : option string)
    (callback : string) : tx string :=
  let mode := default "query" mode in
  if String.eqb mode "query" || String.eqb mode "form_post" then mret callback
  else
    url ← some_or (url_parse callback) Error.internal;
    let pairs := url_query_pairs url in
    let fields := List.filter (λ kv, is_field kv.1) pairs in
    let original := List.filter (λ kv, negb (is_field kv.1)) pairs in
    let url := Url.clear_query url in
    let url := match original with [] => url | _ => url_extend url original end in
    response ← (if String.eqb mode "jwt" || ends_with mode ".jwt" then
                  at_ ← now;
                  keys ← keys_for_client client;
                  signed ← lift (sign_jwt keys.(Keys.active) (response_claims at_ client fields)
                                   "oauth-authz-resp+jwt");
                  response ← encrypt_opt
                    client.(Client.settings).(ProviderSettings.authorization_encryption) signed;
                  mret [("response", response)]
                else mret fields);
    mret (url_str (if Str.starts_with mode "fragment"
                   then url_set_fragment url (form_encode response)
                   else url_extend url response)).

(** [session_protocol::session_state] without a given salt. *)
Definition session_state (client_id origin session_id : string) : tx string :=
  secret ← get string "meta" "dummy_hash";
  secret ← some_or secret Error.internal;
  salt ← random_token "";
  mret (digest (client_id +:+ NUL +:+ origin +:+ NUL +:+ session_id +:+ NUL +:+ secret
                +:+ NUL +:+ salt) +:+ "." +:+ salt).

(** ** Requests that belong to someone else *)

(** [browser::reject_configured_pending]. *)
Definition reject_configured_pending (request : Authorization.t) : tx unit :=
  match request.(Authorization.request_binding) with
  | None => mret ()
  | Some id =>
      at_ ← now;
      pending ← get BrowserPending.t "browser_authorizations" id;
      ensure (match pending with
              | Some p => negb (bool_decide (is_Some p.(BrowserPending.configured_consent))
                                && (at_ <? p.(BrowserPending.expires_at)))
              | None => true
              end) (Error.conflict "This browser request belongs to configured consent")
  end.

Definition CONSENTS : string := "workflow_consents".
Definition AUTHORIZATIONS : string := "workflow_authorizations".
Definition belongs_to_workflow : Error.t :=
  Error.conflict "This authorization belongs to a workflow".

(** [executor::consent::reject_reserved]. *)
Definition reject_reserved_consent (request : Authorization.t) : tx unit :=
  match request.(Authorization.transaction_id) with
  | None => mret ()
  | Some transaction =>
      let key := digest transaction in
      legacy ← get ConsentBound.t CONSENTS (request_hash request);
      bound ← get ConsentBound.t CONSENTS key;
      ensure (negb (bool_decide (is_Some bound)
                    || match legacy with
                       | Some b => String.eqb b.(ConsentBound.pin).(ConsentPin.authentication) key
                       | None => false
                       end)) belongs_to_workflow
  end.
(** [executor::authorization::reject_reserved]. *)
Definition reject_reserved (request : Authorization.t) : tx unit :=
  _ ← reject_reserved_consent request;
  match request.(Authorization.transaction_id) with
  | None => mret ()
  | Some transaction =>
      let key := digest transaction in
      legacy ← get AuthorizationBound.t AUTHORIZATIONS (request_hash request);
      bound ← get AuthorizationBound.t AUTHORIZATIONS key;
      ensure (negb (bool_decide (is_Some bound)
                    || match legacy with
                       | Some b => String.eqb
                           b.(AuthorizationBound.pin).(AuthorizationPin.authentication) key
                       | None => false
                       end)) belongs_to_workflow
  end.

(** [source::suspension_hash]. *)
Definition suspension_hash (request : Authorization.t) : string :=
  request_hash (Authorization.undecided (unbound request)).

Definition stage_incomplete : Error.t :=
  Error.oauth "login_required" "Complete the embedded source stage".

(** [source_stage::enforce_pending_stage]. *)
Definition enforce_pending_stage (request : Authorization.t) (session : Session.t) : tx unit :=
  let key := suspension_hash request in
  at_ ← now;
  id ← get string "source_stage_requests" key;
  match id with
  | None => mret ()
  | Some id =>
      stage ← get SourceStage.t "source_stages" id;
      match stage with
      | None => mret ()
      | Some stage =>
          if (stage.(SourceStage.expires_at) <=? at_)
             || negb (String.eqb stage.(SourceStage.suspension_hash) key)
             || negb (String.eqb stage.(SourceStage.request).(Authorization.client_id)
                        request.(Authorization.client_id))
          then mret ()
          else
            _ ← ensure (negb stage.(SourceStage.cancelled))
                  (Error.oauth "access_denied" "The source stage was cancelled");
            _ ← ensure stage.(SourceStage.used) stage_incomplete;
            token ← some_or request.(Authorization.transaction_id) stage_incomplete;
            _ ← ensure (String.eqb token stage.(SourceStage.transaction)) stage_incomplete;
            record ← get AuthenticationTransaction.t "authentication" (digest token);
            ensure (match record with
                    | Some r =>
                        (at_ <? r.(AuthenticationTransaction.expires_at))
                        && bool_decide (r.(AuthenticationTransaction.source_stage)
                                        = Some stage.(SourceStage.id))
                        && String.eqb r.(AuthenticationTransaction.request_hash)
                             (request_hash request)
                        && bool_decide (r.(AuthenticationTransaction.authenticated_session)
                                        = Some session.(Session.id))
                    | None => false
                    end) stage_incomplete
      end
  end.

(** ** The decision *)

Definition authorization_policy (client : Client.t) (scopes : gset string)
    (request : Authorization.t) (identity : Identity.t) : tx (User.t * ClaimsRequest.t) :=
  user ← authorize_identity client identity;
  _ ← Claims.enforce client user identity scopes;
  requested ← lift (Assurance.claims_request request.(Authorization.claims));
  mapped ← Claims.mapped_claims_for_identity user client scopes identity;
  _ ← lift (Assurance.enforce client identity request.(Authorization.acr_values) requested mapped);
  mret (user, requested).

Definition reauthenticate : Error.t :=
  Error.oauth "login_required" "Complete request-bound reauthentication".

(** The filter of the stored proof: live, not another account's or session's,
    and made by this session when freshness is required. *)
Definition proof_accepted (at_ : Z) (session : Session.t) (needs_proof : bool)
    (c : AuthenticationTransaction.t) : bool :=
  (at_ <? c.(AuthenticationTransaction.expires_at))
  && match c.(AuthenticationTransaction.user_id) with
     | Some id => String.eqb id session.(Session.identity).(Identity.user_id)
     | None => true
     end
  && match c.(AuthenticationTransaction.authenticated_session) with
     | Some id => String.eqb id session.(Session.id)
     | None => true
     end
  && (negb needs_proof
      || bool_decide (c.(AuthenticationTransaction.authenticated_session)
                      = Some session.(Session.id))).

(** Use up the proof the decision names. *)
Definition use_proof (session : Session.t) (request : Authorization.t) (proof_key : option string)
    (needs_proof : bool) : tx unit :=
  at_ ← now;
  key ← some_or proof_key reauthenticate;
  challenge ← get AuthenticationTransaction.t "authentication" key;
  challenge ← some_or (match challenge with
                       | Some c => if proof_accepted at_ session needs_proof c then Some c else None
                       | None => None
                       end) reauthenticate;
  _ ← ensure (String.eqb challenge.(AuthenticationTransaction.request_hash) (request_hash request))
        (Error.bad "Authentication transaction belongs to another request");
  _ ← match challenge.(AuthenticationTransaction.user_id) with
      | None => reject_direct_decision_replay (request_hash request)
                  session.(Session.identity).(Identity.user_id) key at_
      | Some _ => mret ()
      end;
  remove "authentication" key.

(** The members every answer to the client carries. *)
Definition answer_pairs (client : Client.t) (request : Authorization.t) : list (string * string) :=
  match request.(Authorization.state) with Some s => [("state", s)] | None => [] end
  ++ [("iss", issuer_for_client client)].

Definition new_code (at_ : Z) (client : Client.t) (scopes : gset string) (request : Authorization.t)
    (identity : Identity.t) (requested : ClaimsRequest.t) : Code.t :=
  Code.mk request.(Authorization.resource) request.(Authorization.dpop_jkt) requested
    request.(Authorization.acr_values) client.(Client.id) identity
    request.(Authorization.redirect_uri) request.(Authorization.code_challenge) scopes
    request.(Authorization.nonce)
    (Z.min (wadd at_ (default 120 client.(Client.settings).(ProviderSettings.code_ttl)))
       (default u64_max (identity.(Identity.source) ≫= SourceIdentity.authorization_expires_at)))
    None.

(** The approve branch: the policy, then the code. *)
Definition approve (client : Client.t) (scopes : gset string) (session : Session.t)
    (request : Authorization.t) : tx (list (string * string)) :=
  at_ ← now;
  policy ← authorization_policy client scopes request session.(Session.identity);
  _ ← consume request;
  code ← random_token "ri_code_";
  url ← some_or (url_parse request.(Authorization.redirect_uri)) Error.internal;
  state ← session_state client.(Client.id) (url_origin url) session.(Session.id);
  _ ← put "codes" (digest code)
        (new_code at_ client scopes request session.(Session.identity) policy.2);
  _ ← audit session.(Session.identity).(Identity.user_id) "authorization.approved" client.(Client.id);
  mret [("session_state", state); ("code", code)].

Definition deny (client : Client.t) (request : Authorization.t) (actor : string) :
    tx (list (string * string)) :=
  _ ← consume request;
  _ ← audit actor "authorization.denied" client.(Client.id);
  mret [("error", "access_denied")].

(** A decision needs a proof of fresh authentication. *)
Definition fresh_required (at_ : Z) (client : Client.t) (request : Authorization.t)
    (session : Session.t) : bool :=
  negb (bool_decide (request.(Authorization.decision) = Some "deny"))
  && needs_reauthentication at_ client request session.(Session.identity).

Definition authorize_session_proof_inner (session : Session.t) (request : Authorization.t)
    (remembered : bool) (proof_key : option string) (trusted_prepared : bool) : tx string :=
  at_ ← now;
  _ ← ensure (negb ((session.(Session.expires_at) <=? at_) || session.(Session.revoked)))
        Error.unauthorized;
  cs ← validate_authorization request;
  let client := cs.1 in
  let scopes := cs.2 in
  _ ← (if trusted_prepared then mret ()
       else match request.(Authorization.transaction_id) with
            | Some transaction =>
                ensure (bool_decide (proof_key = Some (digest transaction))) Error.forbidden
            | None => mark_direct_decision (request_hash request)
                        session.(Session.identity).(Identity.user_id) at_
            end);
  _ ← enforce_pending_stage request session;
  _ ← ensure (negb (Authorization.has_prompt request "none" && negb remembered))
        (Error.oauth "consent_required" "Explicit terminal consent is required");
  let needs_proof := fresh_required at_ client request session in
  _ ← (if needs_proof || bool_decide (is_Some request.(Authorization.transaction_id))
          || trusted_prepared
       then use_proof session request proof_key needs_proof
       else mret ());
  redirect ← some_or (url_parse request.(Authorization.redirect_uri))
               (Error.bad "Invalid redirect URI");
  pairs ← (if bool_decide (request.(Authorization.decision) = Some "deny")
           then deny client request session.(Session.identity).(Identity.user_id)
           else if bool_decide (request.(Authorization.decision) = Some "approve")
           then approve client scopes session request
           else fail (Error.bad "An explicit approve or deny decision is required"));
  secure_authorization_response client request.(Authorization.response_mode)
    (url_str (url_extend redirect (answer_pairs client request ++ pairs))).

Definition authorize_session_proof (session : Session.t) (request : Authorization.t)
    (remembered : bool) (proof_key : option string) : tx string :=
  _ ← reject_configured_pending request;
  _ ← reject_reserved request;
  authorize_session_proof_inner session request remembered proof_key false.

Definition authorize_session_checked (session : Session.t) (request : Authorization.t)
    (remembered : bool) : tx string :=
  authorize_session_proof session request remembered
    (digest <$> request.(Authorization.transaction_id)).
Definition authorize_session (s : Session.t) (request : Authorization.t) : tx string :=
  authorize_session_checked s request false.
Definition authorize_in (token : string) (request : Authorization.t) : tx string :=
  us ← session token;
  authorize_session us.2 request.

(** [Core::authorize_workflow]: the completion of a workflow that reserved the
    request. *)
Definition authorize_workflow (s : Session.t) (request : Authorization.t) (proof_key : string) :
    tx string :=
  authorize_session_proof_inner s request false (Some proof_key) true.

(** A denial without a session. *)
Definition authorization_denied (request : Authorization.t) (actor : string) : tx string :=
  _ ← reject_reserved request;
  cs ← validate_authorization request;
  let client := cs.1 in
  let hash := request_hash request in
  at_ ← now;
  _ ← match request.(Authorization.transaction_id) with
      | Some transaction =>
          let key := digest transaction in
          a ← get AuthenticationTransaction.t "authentication" key;
          prepared ← some_or (match a with
                              | Some a => if at_ <? a.(AuthenticationTransaction.expires_at)
                                          then Some a else None
                              | None => None
                              end) (Error.bad "Authentication transaction expired or used");
          _ ← ensure (String.eqb prepared.(AuthenticationTransaction.request_hash) hash)
                (Error.bad "Authentication transaction belongs to another request");
          remove "authentication" key
      | None =>
          found ← matching_preparation hash at_;
          ensure (negb found) specify_transaction
      end;
  redirect ← some_or (url_parse request.(Authorization.redirect_uri))
               (Error.bad "Invalid redirect URI");
  pairs ← deny client request actor;
  secure_authorization_response client request.(Authorization.response_mode)
    (url_str (url_extend redirect (answer_pairs client request ++ pairs))).

(** [Core::authorization_error]: the redirect that reports an error, only to a
    registered redirect URI. *)
Definition unique_pair (pairs : list (string * string)) (name : string) : option string :=
  match List.filter (λ kv, String.eqb kv.1 name) pairs with
  | [kv] => if Str.is_empty kv.2 then None else Some kv.2
  | _ => None
  end.
Definition authorization_error (pairs : list (string * string)) (error : Error.t) :
    tx (option string) :=
  match unique_pair pairs "client_id", unique_pair pairs "redirect_uri" with
  | Some cid, Some uri =>
      client ← get Client.t "clients" cid;
      match client with
      | None => mret None
      | Some client =>
          if negb (redirect_matches client uri) then mret None
          else
            redirect ← some_or (url_parse uri) Error.internal;
            let fields :=
              [("error", if error.(Error.status) =? UNAUTHORIZED then "login_required"
                         else error.(Error.code));
               ("error_description", error.(Error.message))]
              ++ match unique_pair pairs "state" with
                 | Some s => if Str.len s <=? 512 then [("state", s)] else []
                 | None => []
                 end
              ++ [("iss", issuer_for_client client)] in
            response ← secure_authorization_response client (unique_pair pairs "response_mode")
                         (url_str (url_extend redirect fields));
            mret (Some response)
      end
  | _, _ => mret None
  end.

#[global] Instance pure_secure_authorization_response c m u :
  Pure (secure_authorization_response c m u).
Proof. unfold secure_authorization_response. cbv zeta. solve_pure. Qed.
#[global] Instance touches_session_state c o i : Touches [] (session_state c o i).
Proof. unfold session_state. solve_touches. Qed.
#[global] Instance pure_reject_configured_pending r : Pure (reject_configured_pending r).
Proof. unfold reject_configured_pending. solve_pure. Qed.
#[global] Instance pure_reject_reserved r : Pure (reject_reserved r).
Proof. unfold reject_reserved, reject_reserved_consent. cbv zeta. solve_pure. Qed.
#[global] Instance pure_enforce_pending_stage r s : Pure (enforce_pending_stage r s).
Proof. unfold enforce_pending_stage. cbv zeta. solve_pure. Qed.
#[global] Instance pure_authorization_policy c sc r i : Pure (authorization_policy c sc r i).
Proof. unfold authorization_policy. solve_pure. Qed.
#[global] Instance touches_use_proof s r k b : Touches ["authentication"] (use_proof s r k b).
Proof. unfold use_proof. solve_touches. Qed.
#[global] Instance touches_deny c r a :
  Touches ["pushed_requests"; "signed_requests"; "meta"; "audit"] (deny c r a).
Proof. unfold deny. solve_touches. Qed.
#[global] Instance touches_approve c sc ses r :
  Touches ["pushed_requests"; "signed_requests"; "meta"; "audit"; "codes"] (approve c sc ses r).
Proof. unfold approve. solve_touches. Qed.
#[global] Instance pure_authorization_error l e : Pure (authorization_error l e).
Proof. unfold authorization_error. cbv zeta. solve_pure. Qed.
End authorize.

#[export] Hint Resolve touches_session_state touches_use_proof touches_deny : tx.

(** ** Steps of a decision *)

Section steps.
Context {E : Env}.
Implicit Types (s : St.t) (r : Authorization.t).

(** What an accepted request has. *)
Record valid_request (s : St.t) (r : Authorization.t) (c : Client.t) (scopes : gset string) : Prop := {
  vr_client : s.(St.db) !! ("clients", r.(Authorization.client_id)) = Some (RClient c);
  vr_enabled : c.(Client.enabled) = true;
  vr_human : c.(Client.service) = false;
  vr_redirect : redirect_matches c r.(Authorization.redirect_uri) = true;
  vr_pkce : r.(Authorization.code_challenge_method) = "S256"
            ∧ Str.len r.(Authorization.code_challenge) = 43;
  vr_scopes : scopes ⊆ c.(Client.scopes);
  vr_openid : "openid" ∈ scopes;
}.

Lemma request_well_formed_ok c r u :
  request_well_formed c r = Ok u →
  c.(Client.service) = false ∧ redirect_matches c r.(Authorization.redirect_uri) = true
  ∧ r.(Authorization.code_challenge_method) = "S256"
  ∧ Str.len r.(Authorization.code_challenge) = 43.
Proof.
  unfold request_well_formed. destruct (Client.service c); [done|].
  destruct (grant_allowed c "authorization_code"); [|done].
  intros Hrun. cbn [mbind result_bind] in Hrun.
  destruct (redirect_matches c _) eqn:Hr; simpl in Hrun; [|done].
  repeat (case_match; [done|]).
  match goal with H : negb (String.eqb (Authorization.code_challenge_method r) _) || _ || _ = false |- _ =>
    apply orb_false_iff in H as [[Hm%negb_false_iff Hl%negb_false_iff]%orb_false_iff _] end.
  apply String.eqb_eq in Hm. apply Z.eqb_eq in Hl. done.
Qed.

Lemma validate_authorization_ok r s c scopes s' :
  validate_authorization r s = (Ok (c, scopes), s') → s' = s ∧ valid_request s r c scopes.
Proof.
  intros Hrun. split; [by apply (pure_run _ _ _ _ Hrun)|].
  unfold validate_authorization in Hrun. tx_inv.
  match goal with H : get_client _ _ = _ |- _ => apply get_client_ok in H as (-> & Hc & He) end.
  match goal with H : validate_reference _ _ _ = _ |- _ => apply (pure_run _ _ _ _) in H as -> end.
  match goal with H : request_well_formed _ _ = _ |- _ =>
    apply request_well_formed_ok in H as (? & ? & ? & ?) end.
  match goal with H : scope_request _ _ = _ |- _ => apply scope_request_ok in H end.
  match goal with H : Assurance.requested_scopes _ _ _ = _ |- _ =>
    eapply Assurance.requested_scopes_ok in H as [_ ?]; [|done] end.
  bools. by constructor.
Qed.

(** The stored proof that a decision used up. *)
Record used_proof (s s' : St.t) (session : Session.t) (r : Authorization.t) (needs : bool)
    (key : string) (c : AuthenticationTransaction.t) : Prop := {
  up_row : s.(St.db) !! ("authentication", key) = Some (RAuthentication c);
  up_accepted : proof_accepted s.(St.clock) session needs c = true;
  up_request : c.(AuthenticationTransaction.request_hash) = request_hash r;
  up_fence : c.(AuthenticationTransaction.user_id) = None →
    reject_direct_decision_replay (request_hash r) session.(Session.identity).(Identity.user_id)
      key s.(St.clock) s = (Ok (), s);
  up_gone : s' = St.set_db s (base.delete ("authentication", key) s.(St.db));
}.

Lemma use_proof_ok session r k b s u s' :
  use_proof session r k b s = (Ok u, s') → ∃ key c, k = Some key ∧ used_proof s s' session r b key c.
Proof.
  unfold use_proof. intros Hrun.
  apply bind_ok in Hrun as (t & s1 & [-> ->]%now_ok & Hrun).
  apply bind_ok in Hrun as (key & s1 & [-> ->]%some_or_ok & Hrun).
  apply bind_ok in Hrun as (o & s1 & [-> Hrow]%get_ok & Hrun).
  apply bind_ok in Hrun as (c & s1 & [Hc ->]%some_or_ok & Hrun).
  destruct o as [c'|]; [|done]. destruct (proof_accepted _ _ _ c') eqn:Ha; [|done]. simplify_eq.
  apply bind_ok in Hrun as (? & s1 & [Hh%String.eqb_eq ->]%ensure_ok & Hrun).
  apply bind_ok in Hrun as ([] & s1 & Hrej & Hrun). apply remove_ok in Hrun as ->.
  assert (s1 = s ∧ (c.(AuthenticationTransaction.user_id) = None →
    reject_direct_decision_replay (request_hash r) session.(Session.identity).(Identity.user_id)
      key s.(St.clock) s = (Ok (), s))) as [-> Hf].
  { destruct (AuthenticationTransaction.user_id c); [by tx_inv|].
    pose proof (pure_run _ _ _ _ Hrej) as ->. done. }
  exists key, c. split; [done|]. by constructor.
Qed.

(** The store when a decision is made: only the request's preparations differ
    from the store when it was asked for. *)
Definition decision_buckets : list string :=
  [PREPARED_REQUESTS; PREPARED_ACTOR_DECISIONS; "authentication"].
Definition same_outside (bs : list string) (s s1 : St.t) : Prop :=
  s1.(St.clock) = s.(St.clock) ∧ ∀ b k, b ∉ bs → s1.(St.db) !! (b, k) = s.(St.db) !! (b, k).

Lemma same_outside_refl bs s : same_outside bs s s.
Proof. done. Qed.
Lemma same_outside_trans bs s s1 s2 :
  same_outside bs s s1 → same_outside bs s1 s2 → same_outside bs s s2.
Proof. intros [? H1] [? H2]. split; [congruence|]. intros. by rewrite H2, H1. Qed.
Lemma touches_outside {A} bs bs' (m : tx A) `{!Touches bs m} s x s' :
  m s = (x, s') → bs ⊆ bs' → same_outside bs' s s'.
Proof.
  intros Hrun Hs. pose proof (touches_run bs _ _ _ _ Hrun) as (? & _ & _ & Hf).
  split; [done|]. intros. apply Hf. set_solver.
Qed.

Lemma decision_steps session r remembered k trusted s uri s' :
  authorize_session_proof_inner session r remembered k trusted s = (Ok uri, s') →
  ∃ client scopes s1 s2 pairs,
    s.(St.clock) < session.(Session.expires_at) ∧ session.(Session.revoked) = false
    ∧ valid_request s r client scopes
    ∧ (if trusted then s1 = s
       else match r.(Authorization.transaction_id) with
            | Some t => s1 = s ∧ k = Some (digest t)
            | None => mark_direct_decision (request_hash r)
                session.(Session.identity).(Identity.user_id) s.(St.clock) s = (Ok (), s1)
            end)
    ∧ (if fresh_required s.(St.clock) client r session
          || bool_decide (is_Some r.(Authorization.transaction_id)) || trusted
       then use_proof session r k (fresh_required s.(St.clock) client r session) s1 = (Ok (), s2)
       else s2 = s1)
    ∧ same_outside decision_buckets s s1 ∧ same_outside decision_buckets s s2
    ∧ (r.(Authorization.decision) = Some "deny"
         ∧ deny client r session.(Session.identity).(Identity.user_id) s2 = (Ok pairs, s')
       ∨ r.(Authorization.decision) = Some "approve"
         ∧ approve client scopes session r s2 = (Ok pairs, s')).
Proof.
  unfold authorize_session_proof_inner. cbv zeta. intros Hrun.
  apply bind_ok in Hrun as (t & s1 & [-> ->]%now_ok & Hrun).
  apply bind_ok in Hrun as (? & s1 & [Hlive ->]%ensure_ok & Hrun).
  apply bind_ok in Hrun as ([client scopes] & s1 & [-> Hv]%validate_authorization_ok & Hrun).
  cbn [fst snd] in Hrun. apply bind_ok in Hrun as ([] & s1 & Hmark & Hrun).
  apply bind_ok in Hrun as ([] & s1' & Hst & Hrun). pose proof (pure_run _ _ _ _ Hst) as ->.
  apply bind_ok in Hrun as (? & s2 & [_ ->]%ensure_ok & Hrun).
  apply bind_ok in Hrun as ([] & s2 & Hproof & Hrun).
  apply bind_ok in Hrun as (redirect & s3 & [_ ->]%some_or_ok & Hrun).
  apply bind_ok in Hrun as (pairs & s3 & Hdec & Hrun). pose proof (pure_run _ _ _ _ Hrun) as ->.
  apply negb_true_iff, orb_false_iff in Hlive as [Hexp%Z.leb_gt Hrev].
  exists client, scopes, s1, s2, pairs.
  assert (same_outside decision_buckets s s1) as Hs1.
  { destruct trusted; [tx_inv; apply same_outside_refl|].
    destruct (Authorization.transaction_id r); [tx_inv; apply same_outside_refl|].
    apply (touches_outside [PREPARED_REQUESTS; PREPARED_ACTOR_DECISIONS] _ _ _ _ _ Hmark). set_solver. }
  assert (same_outside decision_buckets s s2) as Hs2.
  { eapply same_outside_trans; [exact Hs1|].
    destruct (_ || _ || trusted) in Hproof; [|tx_inv; apply same_outside_refl].
    apply (touches_outside ["authentication"] _ _ _ _ _ Hproof). set_solver. }
  split_and!; try done.
  - destruct trusted; [by tx_inv|]. destruct (Authorization.transaction_id r); [|done].
    tx_inv. bools. done.
  - destruct (_ || _ || trusted) in *; [done|by tx_inv].
  - do 2 (case_bool_decide; [by auto|]). by tx_inv.
Qed.

Lemma approve_ok client scopes session r s pairs s' :
  approve client scopes session r s = (Ok pairs, s') →
  ∃ user requested code,
    authorization_policy client scopes r session.(Session.identity) s = (Ok (user, requested), s)
    ∧ In ("code", code) pairs
    ∧ s'.(St.db) !! ("codes", digest code)
      = Some (RCode (new_code s.(St.clock) client scopes r session.(Session.identity) requested))
    ∧ ∀ k, k ≠ digest code → s'.(St.db) !! ("codes", k) = s.(St.db) !! ("codes", k).
Proof.
  unfold approve. intros Hrun.
  apply bind_ok in Hrun as (t & s1 & [-> ->]%now_ok & Hrun).
  apply bind_ok in Hrun as ([user requested] & s1 & Hpol & Hrun).
  pose proof (pure_run _ _ _ _ Hpol) as ->.
  apply bind_ok in Hrun as ([] & s1 & Hcon & Hrun).
  apply bind_ok in Hrun as (code & s2 & Hcode & Hrun).
  apply bind_ok in Hrun as (url & s3 & [_ ->]%some_or_ok & Hrun).
  apply bind_ok in Hrun as (state & s3 & Hss & Hrun).
  apply bind_ok in Hrun as ([] & s4 & Hput & Hrun). apply put_ok in Hput as ->.
  apply bind_ok in Hrun as ([] & s5 & Haud & Hrun). apply ret_ok in Hrun as [-> ->].
  assert (H3 : ∀ k, s3.(St.db) !! ("codes", k) = s.(St.db) !! ("codes", k)).
  { intros k. rewrite (touches_at [] _ _ _ _ _ _ Hss) by bucket.
    rewrite (touches_at [] _ _ _ _ _ _ Hcode) by bucket.
    apply (touches_at ["pushed_requests"; "signed_requests"] _ _ _ _ _ _ Hcon). bucket. }
  assert (H5 : ∀ k, s5.(St.db) !! ("codes", k)
    = <[("codes", digest code) := RCode (new_code s.(St.clock) client scopes r
           session.(Session.identity) requested)]> s3.(St.db) !! ("codes", k)).
  { intros k. by rewrite (touches_at ["meta"; "audit"] _ _ _ _ _ _ Haud) by bucket. }
  exists user, requested, code. split_and!; [done|simpl; auto| |].
  - rewrite H5. apply lookup_insert_eq.
  - intros k Hk. rewrite H5, lookup_insert_ne by congruence. apply H3.
Qed.
End steps.

(** ** What a decision establishes *)

Section properties.
Context {E : Env}.
Implicit Types (s : St.t) (r : Authorization.t).

(** The code an approval stored for this session and request. *)
Record issued_code (session : Session.t) (r : Authorization.t) (s s' : St.t) (client : Client.t)
    (scopes : gset string) (value : string) (code : Code.t) : Prop := {
  ic_session : s.(St.clock) < session.(Session.expires_at) ∧ session.(Session.revoked) = false;
  ic_request : valid_request s r client scopes;
  ic_policy : ∃ s1 user requested, same_outside decision_buckets s s1
    ∧ authorization_policy client scopes r session.(Session.identity) s1 = (Ok (user, requested), s1)
    ∧ code = new_code s.(St.clock) client scopes r session.(Session.identity) requested;
  ic_stored : s'.(St.db) !! ("codes", digest value) = Some (RCode code);
  ic_only k : k ≠ digest value → s'.(St.db) !! ("codes", k) = s.(St.db) !! ("codes", k);
}.

Lemma authorize_session_proof_inner_run session r remembered k s uri s' :
  authorize_session_proof session r remembered k s = (Ok uri, s') →
  authorize_session_proof_inner session r remembered k false s = (Ok uri, s').
Proof.
  unfold authorize_session_proof. intros Hrun.
  apply bind_ok in Hrun as ([] & s1 & H1 & Hrun). pose proof (pure_run _ _ _ _ H1) as ->.
  apply bind_ok in Hrun as ([] & s1 & H2 & Hrun). by pose proof (pure_run _ _ _ _ H2) as ->.
Qed.

Lemma decision_outcome session r remembered k trusted s uri s' :
  authorize_session_proof_inner session r remembered k trusted s = (Ok uri, s') →
  r.(Authorization.decision) = Some "deny"
    ∧ (∀ key, s'.(St.db) !! ("codes", key) = s.(St.db) !! ("codes", key))
  ∨ r.(Authorization.decision) = Some "approve"
    ∧ ∃ client scopes value code, issued_code session r s s' client scopes value code.
Proof.
  intros (c & sc & s1 & s2 & pairs & Hexp & Hrev & Hv & _ & _ & _ & [Hclk Hs2] & [[Hd Hrun]|[Hd Hrun]])%decision_steps.
  - left. split; [done|]. intros key.
    rewrite (touches_at ["pushed_requests"; "signed_requests"; "meta"; "audit"] _ _ _ _ _ _ Hrun) by bucket.
    apply Hs2. bucket.
  - right. split; [done|]. apply approve_ok in Hrun as (user & req & code & Hpol & _ & Hrow & Honly).
    rewrite Hclk in Hrow. exists c, sc, code. eexists. constructor; [done|done| |exact Hrow|].
    + exists s2, user, req. done.
    + intros key Hk. rewrite Honly by done. apply Hs2. bucket.
Qed.

(** The only decisions that store an authorization code are approvals: a
    denial leaves the codes as they were; an approval comes from a live session,
    for a request that names an enabled client, one of its redirect URIs, an
    S256 challenge and scopes it is registered for, after the whole policy of
    the client accepted the session's identity, and stores exactly one code,
    bound to that identity, request and challenge. *)
Theorem codes_come_from_approvals session r remembered k s uri s' :
  authorize_session_proof session r remembered k s = (Ok uri, s') →
  r.(Authorization.decision) = Some "deny"
    ∧ (∀ key, s'.(St.db) !! ("codes", key) = s.(St.db) !! ("codes", key))
  ∨ r.(Authorization.decision) = Some "approve"
    ∧ ∃ client scopes value code, issued_code session r s s' client scopes value code.
Proof. intros Hrun%authorize_session_proof_inner_run. by eapply decision_outcome. Qed.

(** When the request demands a fresh sign-in, an approval is answered only
    with a stored, unexpired proof that this very session authenticated for
    this very request, and the proof is gone afterwards. *)
Theorem approval_needs_fresh_proof session r remembered k s uri s' client :
  authorize_session_proof session r remembered k s = (Ok uri, s') →
  s.(St.db) !! ("clients", r.(Authorization.client_id)) = Some (RClient client) →
  r.(Authorization.decision) = Some "approve" →
  needs_reauthentication s.(St.clock) client r session.(Session.identity) = true →
  ∃ key c, k = Some key
    ∧ s.(St.db) !! ("authentication", key) = Some (RAuthentication c)
    ∧ s.(St.clock) < c.(AuthenticationTransaction.expires_at)
    ∧ c.(AuthenticationTransaction.authenticated_session) = Some session.(Session.id)
    ∧ c.(AuthenticationTransaction.request_hash) = request_hash r
    ∧ s'.(St.db) !! ("authentication", key) = None.
Proof.
  intros Hrun%authorize_session_proof_inner_run Hc Hd Hn.
  destruct (decision_steps _ _ _ _ _ _ _ _ Hrun)
    as (c & sc & s1 & s2 & pairs & _ & _ & Hv & Hs1 & Hp & Ho1 & _ & Hdec).
  pose proof (vr_client _ _ _ _ Hv) as Hc'. rewrite Hc in Hc'. injection Hc' as <-.
  assert (Hfresh : fresh_required s.(St.clock) client r session = true).
  { unfold fresh_required. rewrite Hd, Hn. done. }
  rewrite Hfresh in Hp. simpl in Hp.
  apply use_proof_ok in Hp as (key & a & -> & [Hrow Hacc Hh _ ->]).
  assert (Ha : s1.(St.db) !! ("authentication", key) = s.(St.db) !! ("authentication", key)).
  { destruct (Authorization.transaction_id r); [by destruct Hs1 as [-> _]|].
    by rewrite (touches_at [PREPARED_REQUESTS; PREPARED_ACTOR_DECISIONS] _ _ _ _ _ _ Hs1) by bucket. }
  unfold proof_accepted in Hacc. simpl in Hacc. destruct Ho1 as [Hclk _]. rewrite Hclk in Hacc.
  apply andb_true_iff in Hacc as [[[Hlt%Z.ltb_lt _]%andb_true_iff _]%andb_true_iff Hs%bool_decide_eq_true].
  exists key, a. rewrite <- Ha. split_and!; try done.
  destruct Hdec as [[? _]|[_ Happ]]; [congruence|].
  rewrite (touches_at ["pushed_requests"; "signed_requests"; "meta"; "audit"; "codes"]
             _ _ _ _ _ _ Happ) by bucket.
  apply lookup_delete_eq.
Qed.

(** A decision that names a transaction uses up exactly that transaction. *)
Lemma transaction_used session r remembered k s uri s' t :
  authorize_session_proof session r remembered k s = (Ok uri, s') →
  r.(Authorization.transaction_id) = Some t →
  ∃ needs c s2, used_proof s s2 session r needs (digest t) c
    ∧ s'.(St.db) !! ("authentication", digest t) = None.
Proof.
  intros Hrun%authorize_session_proof_inner_run Ht.
  destruct (decision_steps _ _ _ _ _ _ _ _ Hrun)
    as (c & sc & s1 & s2 & pairs & _ & _ & _ & Hs1 & Hp & _ & _ & Hdec).
  rewrite Ht in Hs1, Hp. destruct Hs1 as [-> ->]. simpl in Hp. rewrite orb_true_r in Hp. simpl in Hp.
  apply use_proof_ok in Hp as (key & a & [= <-] & Hu). eexists _, a, s2. split; [done|].
  destruct Hu as [_ _ _ _ ->]. destruct Hdec as [[_ Hd]|[_ Ha]].
  - rewrite (touches_at ["pushed_requests"; "signed_requests"; "meta"; "audit"]
               _ _ _ _ _ _ Hd) by bucket. apply lookup_delete_eq.
  - rewrite (touches_at ["pushed_requests"; "signed_requests"; "meta"; "audit"; "codes"]
               _ _ _ _ _ _ Ha) by bucket. apply lookup_delete_eq.
Qed.

(** A prepared transaction decides once: after a decision that named it, no
    session decides with it again, whatever the request, as long as no record is
    written under its key. *)
Theorem prepared_decision_one_use session r remembered k s uri s1 session2 r2 remembered2 k2 s2 uri2
    s3 t :
  authorize_session_proof session r remembered k s = (Ok uri, s1) →
  r.(Authorization.transaction_id) = Some t → r2.(Authorization.transaction_id) = Some t →
  s2.(St.db) !! ("authentication", digest t) = s1.(St.db) !! ("authentication", digest t) →
  authorize_session_proof session2 r2 remembered2 k2 s2 ≠ (Ok uri2, s3).
Proof.
  intros H1 Ht Ht2 Hsame H2.
  destruct (transaction_used _ _ _ _ _ _ _ _ H1 Ht) as (_ & _ & _ & _ & Hgone).
  destruct (transaction_used _ _ _ _ _ _ _ _ H2 Ht2) as (n & c & s4 & Hu & _).
  pose proof (up_row _ _ _ _ _ _ _ Hu). congruence.
Qed.

(** C19: an account that decided a request directly cannot decide it once more
    with an anonymous preparation that was live and indexed at the time: every
    later decision of this account that names the preparation is refused, while
    the preparation and the fence are stored. *)
Theorem direct_then_prepared_refused session r remembered k s uri s1 idx t e a session2 r2
    remembered2 k2 s2 uri2 s3 :
  authorize_session_proof session r remembered k s = (Ok uri, s1) →
  r.(Authorization.transaction_id) = None → fences_sound s →
  s.(St.db) !! (PREPARED_REQUESTS, request_hash r) = Some (RPrepared idx) →
  idx.(PreparedRequests.attempts) !! digest t = Some e → s.(St.clock) < e →
  live_prep s (request_hash r) s.(St.clock) (digest t) a →
  a.(AuthenticationTransaction.user_id) = None →
  r2.(Authorization.transaction_id) = Some t → request_hash r2 = request_hash r →
  session2.(Session.identity).(Identity.user_id) = session.(Session.identity).(Identity.user_id) →
  s2.(St.db) !! ("authentication", digest t) = Some (RAuthentication a) →
  (∀ mk, s2.(St.db) !! (PREPARED_ACTOR_DECISIONS, mk) = s1.(St.db) !! (PREPARED_ACTOR_DECISIONS, mk)) →
  authorize_session_proof session2 r2 remembered2 k2 s2 ≠ (Ok uri2, s3).
Proof.
  intros H1 Hnone Hs Hidx Hk Hlt Ha Hu Ht Hh Hacc Hrow Hmk H2.
  destruct (transaction_used _ _ _ _ _ _ _ _ H2 Ht) as (n & c & s4 & [Hc Hok _ Hf _] & _).
  rewrite Hrow in Hc. injection Hc as <-. specialize (Hf Hu). rewrite Hh, Hacc in Hf.
  apply authorize_session_proof_inner_run in H1.
  destruct (decision_steps _ _ _ _ _ _ _ _ H1)
    as (c & sc & s5 & s6 & pairs & _ & _ & _ & Hm & Hp & _ & _ & Hdec).
  rewrite Hnone in Hm.
  destruct (mark_direct_decision_ok _ _ _ _ _ _ Hm Hs Hidx) as [_ Hall].
  destruct (Hall _ _ _ Hk Hlt Ha) as [_ Hfence]. destruct (Hfence Hu) as (e' & He & m & Hrowm & Hmm).
  assert (fenced s2 (request_hash r) session.(Session.identity).(Identity.user_id) (digest t) e') as Hfen.
  { exists m. split; [|done]. rewrite Hmk.
    transitivity (s6.(St.db) !! (PREPARED_ACTOR_DECISIONS,
      prepared_actor_key (request_hash r) session.(Session.identity).(Identity.user_id))).
    - destruct Hdec as [[_ Hd]|[_ Hd]].
      + by rewrite (touches_at ["pushed_requests"; "signed_requests"; "meta"; "audit"]
               _ _ _ _ _ _ Hd) by bucket.
      + by rewrite (touches_at ["pushed_requests"; "signed_requests"; "meta"; "audit"; "codes"]
               _ _ _ _ _ _ Hd) by bucket.
    - rewrite <- Hrowm. destruct (_ || _ || _) in Hp; [|by subst].
      by rewrite (touches_at ["authentication"] _ _ _ _ _ _ Hp) by bucket. }
  pose proof Hok as Hlive. unfold proof_accepted in Hlive.
  apply andb_true_iff in Hlive as [[[Hl%Z.ltb_lt _]%andb_true_iff _]%andb_true_iff _].
  rewrite (fenced_rejects _ _ _ _ e') in Hf by (done || lia). done.
Qed.

(** C1: the code flow end to end: an approval stores a code such that whoever
    redeems it later knows a verifier of the challenge of the approved request
    and names its redirect URI, in time, and gets an access token that acts for
    the identity of the session that approved, with the scopes of that request,
    all registered, for its client and its resource. *)
Theorem code_flow_sound session r remembered k s uri s1 :
  authorize_session_proof session r remembered k s = (Ok uri, s1) →
  r.(Authorization.decision) = Some "approve" →
  ∃ client scopes value, valid_request s r client scopes
    ∧ (∃ code, s1.(St.db) !! ("codes", digest value) = Some (RCode code))
    ∧ ∀ tr s2 out s3,
      s2.(St.db) !! ("codes", digest value) = s1.(St.db) !! ("codes", digest value) →
      tr.(TokenRequest.code) = Some value →
      exchange_code tr s2 = (Ok (Ok out), s3) →
      ∃ verifier token a, tr.(TokenRequest.code_verifier) = Some verifier
        ∧ digest verifier = r.(Authorization.code_challenge)
        ∧ tr.(TokenRequest.redirect_uri) = Some r.(Authorization.redirect_uri)
        ∧ s2.(St.clock)
          < wadd s.(St.clock) (default 120 client.(Client.settings).(ProviderSettings.code_ttl))
        ∧ Json.get "access_token" out = Some (JStr token)
        ∧ s3.(St.db) !! ("access", digest token) = Some (RGrant a)
        ∧ a.(Grant.identity) = Some session.(Session.identity)
        ∧ a.(Grant.scopes) = scopes
        ∧ a.(Grant.client_id) = client.(Client.id)
        ∧ a.(Grant.resource) = r.(Authorization.resource).
Proof.
  intros Hrun%authorize_session_proof_inner_run Hd.
  destruct (decision_outcome _ _ _ _ _ _ _ _ Hrun) as [[? _]|(_ & client & scopes & value & code & I)];
    [congruence|]. exists client, scopes, value.
  split; [apply I|]. split; [exists code; apply I|]. intros tr s2 out s3 Hsame Htr Hex.
  apply exchange_code_steps in Hex
    as (c & v & ver & code' & s4 & Hauth & Hv & Hcode & Hus & Hver & Hm & Hx).
  simplify_eq. rewrite Hsame, (ic_stored _ _ _ _ _ _ _ _ I) in Hcode. injection Hcode as <-.
  destruct (ic_policy _ _ _ _ _ _ _ _ I) as (sp & user & req & _ & _ & ->). simpl in Hx.
  destruct Hx as (o & [= <-] & Hred).
  apply redeem_code_ok in Hred as (u & token & a & jkt & _ & Hto & Ha & Hs & Hi & Hcl & _ & Hres & _).
  unfold code_usable, verifier_matches in *. simpl in *. bools.
  exists ver, token, a. split_and!; try done; try congruence. lia.
Qed.
End properties.

(** ** Concrete runs *)

Module AuthorizeDemo.
#[local] Existing Instance Demo.env.

Definition request (prompt decision transaction : option string) : Authorization.t :=
  Authorization.mk None None None None None None "code" "crm" "https://crm.test" "openid profile"
    (Some "st") None (digest EndpointDemo.verifier) "S256" prompt None None decision transaction None.
Definition prepared (user session : option string) : AuthenticationTransaction.t :=
  AuthenticationTransaction.mk (request_hash (request None None None)) user session 1500 None.

(** The preparation [p] of the request, anonymous and indexed. *)
Definition state : St.t :=
  St.set_db FlowDemo.state
    (<[("meta", "dummy_hash") := RString "secret"]>
     (<[("authentication", digest "p") := RAuthentication (prepared None None)]>
      (<[(PREPARED_REQUESTS, request_hash (request None None None))
           := RPrepared (PreparedRequests.mk {[digest "p" := 1500]} 0 1500)]> FlowDemo.db))).
(** The same store when the session has signed in again for the request. *)
Definition proven : St.t :=
  St.set_db state
    (<[("authentication", digest "p") := RAuthentication (prepared (Some "u-amy") (Some "sess-1"))]>
       state.(St.db)).

Definition decide (r : Authorization.t) : tx string :=
  authorize_session_proof FlowDemo.session r false (digest <$> r.(Authorization.transaction_id)).
Definition approve_direct : tx string := decide (request None (Some "approve") None).
Definition approve_prepared : tx string := decide (request None (Some "approve") (Some "p")).
Definition approve_login : tx string := decide (request (Some "login") (Some "approve") (Some "p")).

Example direct_runs : is_ok (approve_direct state).1 = true.
Proof. vm_compute. reflexivity. Qed.
Example prepared_runs : is_ok (approve_prepared state).1 = true.
Proof. vm_compute. reflexivity. Qed.
Example login_runs : is_ok (approve_login proven).1 = true.
Proof. vm_compute. reflexivity. Qed.
(** The code of the approval, redeemed by the client. *)
Example flow_runs :
  is_ok (EndpointDemo.value (Err Error.internal)
    (exchange_code (EndpointDemo.request (Some "ri_code_r0") (Some EndpointDemo.verifier) None None))
    (EndpointDemo.run approve_direct state)) = true.
Proof. vm_compute. reflexivity. Qed.
End AuthorizeDemo.

Section witnesses.
#[local] Existing Instance Demo.env.
Import AuthorizeDemo.

Lemma codes_come_from_approvals_witness :
  ∃ client scopes value code,
    issued_code FlowDemo.session (request None (Some "approve") None) state
      (EndpointDemo.run approve_direct state) client scopes value code.
Proof.
  destruct (codes_come_from_approvals FlowDemo.session (request None (Some "approve") None) false
    None state (EndpointDemo.value "" approve_direct state) (EndpointDemo.run approve_direct state))
    as [[H _]|[_ H]].
  - vm_compute. reflexivity.
  - discriminate H.
  - exact H.
Defined.

Lemma approval_needs_fresh_proof_witness :
  ∃ key c, Some (digest "p") = Some key
    ∧ proven.(St.db) !! ("authentication", key) = Some (RAuthentication c)
    ∧ c.(AuthenticationTransaction.authenticated_session) = Some "sess-1".
Proof.
  destruct (approval_needs_fresh_proof FlowDemo.session (request (Some "login") (Some "approve") (Some "p"))
    false (Some (digest "p")) proven (EndpointDemo.value "" approve_login proven)
    (EndpointDemo.run approve_login proven) FlowDemo.client) as (key & c & Hk & Hc & _ & Hs & _).
  - vm_compute. reflexivity.
  - vm_compute. reflexivity.
  - reflexivity.
  - vm_compute. reflexivity.
  - exists key, c. split; [exact Hk|]. split; [exact Hc|exact Hs].
Defined.

Lemma prepared_decision_one_use_witness :
  ∃ e, (authorize_session_proof FlowDemo.session (request None (Some "deny") (Some "p")) true
          (Some (digest "p")) (EndpointDemo.run approve_prepared state)).1 = Err e.
Proof.
  destruct (authorize_session_proof FlowDemo.session (request None (Some "deny") (Some "p")) true
          (Some (digest "p")) (EndpointDemo.run approve_prepared state)) as [[uri|e] s'] eqn:Hrun.
  - exfalso. revert Hrun.
    apply (prepared_decision_one_use FlowDemo.session (request None (Some "approve") (Some "p")) false
      (Some (digest "p")) state (EndpointDemo.value "" approve_prepared state)
      (EndpointDemo.run approve_prepared state) _ _ _ _ _ _ _ "p").
    + vm_compute. reflexivity.
    + reflexivity.
    + reflexivity.
    + reflexivity.
  - exists e. reflexivity.
Defined.

Lemma direct_then_prepared_refused_witness :
  ∃ e, (authorize_session_proof FlowDemo.session (request None (Some "approve") (Some "p")) false
          (Some (digest "p")) (EndpointDemo.run approve_direct state)).1 = Err e.
Proof.
  destruct (authorize_session_proof FlowDemo.session (request None (Some "approve") (Some "p")) false
          (Some (digest "p")) (EndpointDemo.run approve_direct state)) as [[uri|e] s'] eqn:Hrun.
  - exfalso. revert Hrun.
    apply (direct_then_prepared_refused FlowDemo.session (request None (Some "approve") None) false
      None state (EndpointDemo.value "" approve_direct state) (EndpointDemo.run approve_direct state)
      (PreparedRequests.mk {[digest "p" := 1500]} 0 1500) "p" 1500 (prepared None None)).
    + vm_compute. reflexivity.
    + reflexivity.
    + intros mk m k e a Hm. exfalso. unfold state, FlowDemo.db in Hm. cbn [St.db St.set_db] in Hm.
      repeat (apply lookup_insert_Some in Hm as [[Hk _]|[_ Hm]]; [by inversion Hk|]).
      apply lookup_singleton_Some in Hm as [Hk _]. by inversion Hk.
    + vm_compute. reflexivity.
    + vm_compute. reflexivity.
    + reflexivity.
    + split; vm_compute; reflexivity.
    + reflexivity.
    + reflexivity.
    + reflexivity.
    + reflexivity.
    + vm_compute. reflexivity.
    + reflexivity.
  - exists e. reflexivity.
Defined.

Lemma code_flow_sound_witness :
  ∃ client scopes value, valid_request state (request None (Some "approve") None) client scopes
    ∧ ∃ code, (EndpointDemo.run approve_direct state).(St.db) !! ("codes", digest value)
        = Some (RCode code).
Proof.
  destruct (code_flow_sound FlowDemo.session (request None (Some "approve") None) false
    None state (EndpointDemo.value "" approve_direct state) (EndpointDemo.run approve_direct state))
    as (client & scopes & value & Hv & Hc & _).
  - vm_compute. reflexivity.
  - reflexivity.
  - exists client, scopes, value. split; [exact Hv|exact Hc].
Defined.
End witnesses.
