(* ===== verification/Pushed.v ===== *)
(** * Pushed and signed authorization requests (src/src/authorization.rs,
    assembly/authorization.rs, oidc.rs)

    The parameters of an authorization request are parsed into a request, taken
    from a signed request object, or stored by the client beforehand and named by
    a server-issued URI.  A stored request comes back as it was pushed. *)

From S2P Require Import Prelude Json Model Store Env Provider Jose Delegation Assurance Identities Oidc Token Endpoints Authorize.

#[local] Set Warnings "-clear-no-such-hyp".

Abbreviation pairs := (list (string * string)).

(** ** Forms (oidc.rs) *)

Definition duplicate : Error.t := Error.bad "Duplicate OAuth parameters are not allowed".
Definition malformed : Error.t := Error.bad "Invalid or missing OAuth parameters".

(** [map.insert(k, v).is_some()] for each pair in turn, [dup] the error. *)
Fixpoint insert_pairs (dup : string → Error.t) (l : pairs) (m : gmap string string) :
    Result (gmap string string) :=
  match l with
  | [] => Ok m
  | (k, v) :: l =>
      match m !! k with
      | Some _ => Err (dup k)
      | None => insert_pairs dup l (<[k := v]> m)
      end
  end.
Definition retain_nonempty (m : gmap string string) : gmap string string :=
  filter (λ kv : string * string, Str.is_empty kv.2 = false) m.

(** [authorization::unique]. *)
Definition unique (l : pairs) : Result (gmap string string) :=
  m ← insert_pairs (λ k, if String.eqb k "resource"
                         then Error.oauth "invalid_target" "Select exactly one resource audience"
                         else duplicate) l ∅;
  Ok (retain_nonempty m).

(** The deserialization of a form into an [Authorization]: unknown parameters
    are ignored, the optional ones may be absent. *)
Definition authorization_of_form (m : gmap string string) : option Authorization.t :=
  response_type ← m !! "response_type";
  client_id ← m !! "client_id";
  redirect_uri ← m !! "redirect_uri";
  code_challenge ← m !! "code_challenge";
  code_challenge_method ← m !! "code_challenge_method";
  max_age ← match m !! "max_age" with
            | Some v => Some <$> Str.parse_u64 v
            | None => Some None
            end;
  Some (Authorization.mk (m !! "resource") (m !! "dpop_jkt") (m !! "claims") (m !! "acr_values")
    (m !! "request_uri") (m !! "request_object_hash") response_type client_id redirect_uri
    (default "" (m !! "scope")) (m !! "state") (m !! "nonce") code_challenge code_challenge_method
    (m !! "prompt") max_age (m !! "response_mode") (m !! "decision") (m !! "transaction_id")
    (m !! "request_binding")).

(** [parse_form::<Authorization>]. *)
Definition parse_form (l : pairs) : Result Authorization.t :=
  m ← insert_pairs (λ _, duplicate) l ∅;
  ok_or (authorization_of_form (retain_nonempty m)) malformed.

(** ** Request objects *)

Definition PAR_PREFIX : string := "urn:ietf:params:oauth:request_uri:".
Definition REGISTERED_CLAIMS : list string := ["iss"; "aud"; "iat"; "exp"; "nbf"; "jti"].
Definition RESERVED_PARAMETERS : list string :=
  ["request"; "request_uri"; "request_binding"; "request_object_hash"; "decision"; "transaction_id"].
Definition REFERENCE_PARAMETERS : list string :=
  ["client_id"; "request_uri"; "decision"; "transaction_id"].

Definition invalid_object (message : string) : Error.t :=
  Error.oauth "invalid_request_object" message.

(** The request with the decision of the outer parameters. *)
Definition set_decision (r : Authorization.t) (m : gmap string string) : Authorization.t :=
  Authorization.mk r.(Authorization.resource) r.(Authorization.dpop_jkt) r.(Authorization.claims)
    r.(Authorization.acr_values) r.(Authorization.request_uri) r.(Authorization.request_object_hash)
    r.(Authorization.response_type) r.(Authorization.client_id) r.(Authorization.redirect_uri)
    r.(Authorization.scope) r.(Authorization.state) r.(Authorization.nonce)
    r.(Authorization.code_challenge) r.(Authorization.code_challenge_method)
    r.(Authorization.prompt) r.(Authorization.max_age) r.(Authorization.response_mode)
    (m !! "decision") (m !! "transaction_id") r.(Authorization.request_binding).

Section pushed.
Context {E : Env}.

(** The text of a signed parameter. *)
Definition parameter_text (name : string) (v : json) : Result string :=
  match v with
  | JStr s => Ok s
  | _ =>
      if String.eqb name "claims" && match v with JObj _ => true | _ => false end
         || String.eqb name "max_age" && bool_decide (is_Some (Json.as_u64 v))
      then Ok (json_string v)
      else Err (Error.bad "Unsupported request object value")
  end.

Definition add_parameter (outer : gmap string string) (acc : Result (gmap string string))
    (nv : string * json) : Result (gmap string string) :=
  parameters ← acc;
  if existsb (String.eqb nv.1) REGISTERED_CLAIMS then Ok parameters
  else if existsb (String.eqb nv.1) RESERVED_PARAMETERS
  then Err (Error.bad "Nested or reserved request object parameter")
  else
    value ← parameter_text nv.1 nv.2;
    if match outer !! nv.1 with Some o => negb (String.eqb o value) | None => false end
    then Err (invalid_object "Outer and signed parameters disagree")
    else Ok (<[nv.1 := value]> parameters).

(** The claims of a request object, verified under the client's keys. *)
Definition object_claims (at_ : Z) (client : Client.t) (cid jwt : string) : Result json :=
  jwks ← ok_or client.(Client.settings).(ProviderSettings.jwks)
           (invalid_object "Client has no request signing keys");
  header ← ok_or (decode_header jwt) (invalid_object "Malformed request object");
  if match header.(JwtHeader.typ) with
     | Some t => negb (String.eqb t "oauth-authz-req+jwt") && negb (String.eqb t "JWT")
     | None => false
     end
  then Err (invalid_object "Incorrect request object type")
  else map_err (λ _, invalid_object "Invalid request signature or audience")
         (Jwks.verify at_ jwks jwt cid (issuer_for_client client)).

(** A signed request: its claims become the parameters, and its identifier is
    recorded for one use. *)
Definition resolve_object (outer : gmap string string) (jwt : string) : tx Authorization.t :=
  at_ ← now;
  cid ← some_or (outer !! "client_id") (Error.bad "Signed request requires outer client_id");
  client ← get_client cid;
  claims ← lift (object_claims at_ client cid jwt);
  exp ← some_or (Json.as_u64 (Json.index claims "exp")) (Error.bad "Request requires exp");
  iat ← some_or (Json.as_u64 (Json.index claims "iat")) (Error.bad "Request requires iat");
  jti ← some_or (bounded_jti claims) (Error.bad "Request requires jti");
  _ ← ensure (negb ((wadd at_ 30 <? iat) || (exp <=? iat) || (300 <? exp - iat)
                    || (300 <? sat_sub at_ iat)))
        (invalid_object "Request lifetime must be at most five minutes");
  members ← some_or (match claims with JObj l => Some l | _ => None end)
              (Error.bad "Invalid request object");
  parameters ← lift (foldl (add_parameter outer) (Ok ∅) members);
  _ ← ensure (bool_decide (parameters !! "client_id" = Some cid))
        (invalid_object "Signed client_id does not match issuer");
  request ← lift (parse_form (btree_entries parameters));
  let request := set_decision request outer in
  let id := digest (cid +:+ NUL +:+ jti) in
  let fingerprint := digest jwt in
  record ← get Signed.t "signed_requests" id;
  _ ← match record with
      | Some record =>
          ensure (negb (record.(Signed.used)
                        || negb (String.eqb record.(Signed.fingerprint) fingerprint)))
            (invalid_object "Request identifier already used")
      | None =>
          put "signed_requests" id
            (Signed.mk (signed_content_hash request) exp false cid fingerprint)
      end;
  mret (Authorization.set_refs request request.(Authorization.request_uri) (Some id)
          request.(Authorization.request_binding)).
#[global] Instance touches_resolve_object m jwt : Touches ["signed_requests"] (resolve_object m jwt).
Proof. unfold resolve_object. cbv zeta. solve_touches. Qed.

(** ** References *)

Definition set_expiry (x : Signed.t) (at_ : Z) : Signed.t :=
  Signed.mk x.(Signed.request_hash) at_ x.(Signed.used) x.(Signed.client_id) x.(Signed.fingerprint).

(** The first use of a pushed request starts its ten minutes. *)
Definition start_pushed (uri : string) (stored : Pushed.t) : tx unit :=
  if stored.(Pushed.started) then mret ()
  else
    at_ ← now;
    _ ← put "pushed_requests" (digest uri)
          (Pushed.mk true stored.(Pushed.request) (wadd at_ 600) stored.(Pushed.used));
    match stored.(Pushed.request).(Authorization.request_object_hash) with
    | Some id =>
        signed ← get Signed.t "signed_requests" id;
        match signed with
        | Some x => put "signed_requests" id (set_expiry x (wadd at_ 600))
        | None => mret ()
        end
    | None => mret ()
    end.

Definition resolve_reference (outer : gmap string string) (uri : string) : tx Authorization.t :=
  _ ← ensure (Str.starts_with uri PAR_PREFIX
              && bool_decide (map_Forall (λ k _, existsb (String.eqb k) REFERENCE_PARAMETERS = true) outer))
        (Error.oauth "invalid_request_uri"
           "Use a server-issued request URI without overriding parameters");
  at_ ← now;
  stored ← get Pushed.t "pushed_requests" (digest uri);
  stored ← some_or (match stored with
                    | Some p => if negb p.(Pushed.used) && (at_ <? p.(Pushed.expires_at))
                                then Some p else None
                    | None => None
                    end)
             (Error.oauth "invalid_request_uri" "Pushed request is expired, consumed or unknown");
  _ ← ensure (bool_decide (outer !! "client_id" = Some stored.(Pushed.request).(Authorization.client_id)))
        (Error.oauth "invalid_request_uri" "Pushed request belongs to another client");
  _ ← start_pushed uri stored;
  mret (set_decision stored.(Pushed.request) outer).

Definition resolve_authorization_in (l : pairs) : tx Authorization.t :=
  m ← lift (unique l);
  _ ← ensure (bool_decide (m !! "request_binding" = None)
              && bool_decide (m !! "request_object_hash" = None))
        (Error.bad "Reserved authorization parameter");
  _ ← ensure (bool_decide (m !! "id_token_hint" = None))
        (Error.bad "Use request-bound account selection instead of an authorization ID token hint");
  match m !! "request_uri" with
  | Some uri => resolve_reference m uri
  | None =>
      match m !! "request" with
      | Some jwt => resolve_object (base.delete "request" m) jwt
      | None => lift (parse_form (btree_entries m))
      end
  end.

(** [Core::push_authorization]; [auth] is the token request that the form and
    the headers of the call give for client authentication. *)
Definition CREDENTIAL_PARAMETERS : list string :=
  ["client_secret"; "client_assertion"; "client_assertion_type"].
Definition push_authorization (auth : TokenRequest.t) (l : pairs) : tx json :=
  m ← lift (unique l);
  _ ← ensure (bool_decide (m !! "request_uri" = None) && bool_decide (m !! "decision" = None)
              && bool_decide (m !! "transaction_id" = None))
        (Error.bad "Pushed requests cannot contain request_uri or a decision");
  client ← authenticate_client auth false;
  let parameters := List.filter (λ kv, negb (existsb (String.eqb kv.1) CREDENTIAL_PARAMETERS))
                      (btree_entries m) in
  let parameters := if existsb (λ kv, String.eqb kv.1 "client_id") parameters then parameters
                    else parameters ++ [("client_id", client.(Client.id))] in
  request ← resolve_authorization_in parameters;
  _ ← ensure (String.eqb request.(Authorization.client_id) client.(Client.id))
        (Error.bad "Pushed request belongs to another client");
  token ← random_token "";
  at_ ← now;
  let uri := PAR_PREFIX +:+ token in
  let request := Authorization.set_refs request (Some uri)
                   request.(Authorization.request_object_hash) request.(Authorization.request_binding) in
  _ ← put "pushed_requests" (digest uri) (Pushed.mk false request (wadd at_ 90) false);
  _ ← validate_authorization request;
  mret (Json.obj [("request_uri", JStr uri); ("expires_in", JNum 90)]).

#[global] Instance touches_start_pushed u p :
  Touches ["pushed_requests"; "signed_requests"] (start_pushed u p).
Proof. unfold start_pushed. solve_touches. Qed.
Hint Resolve touches_resolve_object touches_start_pushed : tx.
#[global] Instance touches_resolve_reference m u :
  Touches ["pushed_requests"; "signed_requests"] (resolve_reference m u).
Proof. unfold resolve_reference. solve_touches. Qed.
Hint Resolve touches_resolve_reference : tx.
#[global] Instance touches_resolve_authorization_in l :
  Touches ["pushed_requests"; "signed_requests"] (resolve_authorization_in l).
Proof. unfold resolve_authorization_in. solve_touches. Qed.
End pushed.

(** ** Round trip *)

Section theory.
Context {E : Env}.
Implicit Types (s : St.t) (r : Authorization.t).

Lemma retain_nonempty_lookup m k v : retain_nonempty m !! k = Some v ↔ m !! k = Some v ∧ v ≠ "".
Proof.
  unfold retain_nonempty, Str.is_empty. rewrite map_lookup_filter_Some. simpl.
  by rewrite bool_decide_eq_false.
Qed.

Lemma insert_pairs_ok dup l m m' :
  insert_pairs dup l m = Ok m' → ∀ k v, m' !! k = Some v → m !! k = Some v ∨ (k, v) ∈ l.
Proof.
  revert m. induction l as [|[k0 v0] l IH]; intros m; simpl; [intros [= ->]; auto|].
  destruct (m !! k0) eqn:E0; [done|]. intros Hrun k v Hk.
  destruct (IH _ Hrun k v Hk) as [Hin|Hin]; [|by right; right].
  apply lookup_insert_Some in Hin as [[<- <-]|[_ ?]]; [by right; left|by left].
Qed.

(** A parsed request names a client, and is decided only by the form. *)
Lemma parse_form_ok l r :
  parse_form l = Ok r →
  r.(Authorization.client_id) ≠ ""
  ∧ (∀ v, r.(Authorization.decision) = Some v → ("decision", v) ∈ l)
  ∧ (∀ v, r.(Authorization.transaction_id) = Some v → ("transaction_id", v) ∈ l).
Proof.
  unfold parse_form. destruct (insert_pairs _ l ∅) as [m|] eqn:Hm; [|done].
  cbn [mbind result_bind]. unfold ok_or. case_match eqn:Hf; [|done]. intros [= <-].
  assert (Hin : ∀ k v, retain_nonempty m !! k = Some v → (k, v) ∈ l ∧ v ≠ "").
  { intros k v [Hk Hv]%retain_nonempty_lookup. split; [|done].
    apply (insert_pairs_ok _ _ _ _ Hm) in Hk as [Hk|]; [by rewrite lookup_empty in Hk|done]. }
  unfold authorization_of_form in Hf. simplify_option_eq.
  split_and!; [by eapply Hin|intros; by apply Hin..].
Qed.

Lemma set_decision_ok r m :
  (set_decision r m).(Authorization.decision) = m !! "decision"
  ∧ (set_decision r m).(Authorization.transaction_id) = m !! "transaction_id"
  ∧ (set_decision r m).(Authorization.client_id) = r.(Authorization.client_id).
Proof. done. Qed.

(** Resolving parameters that hold no reference and no decision. *)
Lemma resolve_undecided l s r s' :
  resolve_authorization_in l s = (Ok r, s') →
  (∀ k v, (k, v) ∈ l → k ∉ ["request_uri"; "decision"; "transaction_id"]) →
  r.(Authorization.client_id) ≠ "" ∧ r.(Authorization.decision) = None
  ∧ r.(Authorization.transaction_id) = None.
Proof.
  unfold resolve_authorization_in. intros Hrun Hl.
  apply bind_ok in Hrun as (m & s1 & [Hm ->]%lift_ok & Hrun).
  apply bind_ok in Hrun as (? & s1 & [_ ->]%ensure_ok & Hrun).
  apply bind_ok in Hrun as (? & s1 & [_ ->]%ensure_ok & Hrun).
  assert (Hno : ∀ k, k ∈ ["request_uri"; "decision"; "transaction_id"] → m !! k = None).
  { intros k Hk. destruct (m !! k) as [v|] eqn:Hv; [|done]. exfalso.
    unfold unique in Hm. destruct (insert_pairs _ l ∅) as [m0|] eqn:Hm0; [|done].
    cbn [mbind result_bind] in Hm. injection Hm as <-. apply retain_nonempty_lookup in Hv as [Hv _].
    apply (insert_pairs_ok _ _ _ _ Hm0) in Hv as [Hv|Hv]; [by rewrite lookup_empty in Hv|].
    by apply Hl in Hv. }
  rewrite (Hno "request_uri") in Hrun by bucket.
  destruct (m !! "request") as [jwt|].
  - unfold resolve_object in Hrun. cbv zeta in Hrun. tx_inv. repeat case_match; tx_inv.
    all: match goal with H : parse_form _ = Ok _ |- _ => apply parse_form_ok in H as (? & _ & _) end.
    all: rewrite !lookup_delete_ne by done; rewrite !Hno by bucket; done.
  - apply lift_ok in Hrun as [Hp ->]. apply parse_form_ok in Hp as (Hc & Hd & Ht).
    split; [done|]. split.
    + destruct (Authorization.decision r) as [v|]; [|done].
      specialize (Hd v eq_refl). apply elem_of_btree_entries in Hd. rewrite Hno in Hd by bucket. done.
    + destruct (Authorization.transaction_id r) as [v|]; [|done].
      specialize (Ht v eq_refl). apply elem_of_btree_entries in Ht. rewrite Hno in Ht by bucket. done.
Qed.

Lemma validate_authorization_reference r s c scopes s' :
  validate_authorization r s = (Ok (c, scopes), s') → validate_reference c r s = (Ok (), s).
Proof.
  unfold validate_authorization. intros Hrun. tx_inv.
  match goal with H : get_client _ _ = _ |- _ => apply get_client_ok in H as (-> & _ & _) end.
  match goal with H : validate_reference _ _ _ = (Ok ?u, _) |- _ =>
    destruct u; pose proof (pure_run _ _ _ _ H) as ->; exact H end.
Qed.

(** The references an accepted request carries are live and unused. *)
Lemma validate_reference_ok c r s u s' :
  validate_reference c r s = (Ok u, s') →
  (∀ uri, r.(Authorization.request_uri) = Some uri →
     ∃ p, s.(St.db) !! ("pushed_requests", digest uri) = Some (RPushed p)
       ∧ p.(Pushed.used) = false ∧ s.(St.clock) < p.(Pushed.expires_at)
       ∧ request_hash (unbound p.(Pushed.request)) = request_hash (unbound r))
  ∧ (∀ id, r.(Authorization.request_object_hash) = Some id →
     ∃ x, s.(St.db) !! ("signed_requests", id) = Some (RSigned x)
       ∧ x.(Signed.used) = false ∧ s.(St.clock) < x.(Signed.expires_at)
       ∧ x.(Signed.request_hash) = signed_content_hash r).
Proof.
  unfold validate_reference. intros Hrun.
  apply bind_ok in Hrun as (t & s1 & [-> ->]%now_ok & Hrun).
  apply bind_ok in Hrun as (? & s1 & [_ ->]%ensure_ok & Hrun).
  apply bind_ok in Hrun as (? & s1 & [_ ->]%ensure_ok & Hrun).
  apply bind_ok in Hrun as ([] & s1 & Hp & Hrun).
  assert (s1 = s) as -> by (eapply pure_run; [|exact Hp]; solve_pure). split.
  - intros uri Huri. rewrite Huri in Hp.
    apply bind_ok in Hp as (o & s1 & [-> Hrow]%get_ok & Hp).
    apply bind_ok in Hp as (p & s1 & [Ho ->]%some_or_ok & Hp).
    apply ensure_ok in Hp as [Hh _]. destruct o as [p'|]; [|done].
    destruct (_ && _) eqn:Hl in Ho; [|done]. injection Ho as <-. bools. eauto.
  - intros id Hid. rewrite Hid in Hrun.
    apply bind_ok in Hrun as (o & s1 & [-> Hrow]%get_ok & Hrun).
    apply bind_ok in Hrun as (y & s1 & [Ho ->]%some_or_ok & Hrun).
    destruct o as [y'|]; [|done].
    destruct (_ && _) eqn:Hl in Ho; [|done]. injection Ho as <-. bools. eauto 10.
Qed.

(** What a push stores. *)
Lemma push_authorization_ok auth l s v s' :
  push_authorization auth l s = (Ok v, s') →
  ∃ token r, Json.get "request_uri" v = Some (JStr (PAR_PREFIX +:+ token))
    ∧ r.(Authorization.request_uri) = Some (PAR_PREFIX +:+ token)
    ∧ r.(Authorization.client_id) ≠ "" ∧ r.(Authorization.decision) = None
    ∧ r.(Authorization.transaction_id) = None
    ∧ s'.(St.db) !! ("pushed_requests", digest (PAR_PREFIX +:+ token))
      = Some (RPushed (Pushed.mk false r (wadd s.(St.clock) 90) false))
    ∧ (∀ id, r.(Authorization.request_object_hash) = Some id →
         ∃ x, s'.(St.db) !! ("signed_requests", id) = Some (RSigned x))
    ∧ ∃ c scopes, valid_request s' r c scopes.
Proof.
  unfold push_authorization. cbv zeta. intros Hrun.
  apply bind_ok in Hrun as (m & s1 & [Hm ->]%lift_ok & Hrun).
  apply bind_ok in Hrun as (? & s1 & [Hno ->]%ensure_ok & Hrun).
  apply bind_ok in Hrun as (client & s1 & Hauth & Hrun).
  apply bind_ok in Hrun as (r & s2 & Hres & Hrun).
  apply bind_ok in Hrun as (? & s3 & [_ ->]%ensure_ok & Hrun).
  apply bind_ok in Hrun as (token & s3 & Htok & Hrun). apply random_token_ok in Htok as [-> ->].
  apply bind_ok in Hrun as (t & s3 & [-> ->]%now_ok & Hrun).
  apply bind_ok in Hrun as ([] & s3 & ->%put_ok & Hrun).
  apply bind_ok in Hrun as ([c scopes] & s3 & Hval & Hrun). apply ret_ok in Hrun as [-> ->].
  pose proof (touches_run ["assertion_replays"] _ _ _ _ Hauth) as (Hc1 & _).
  pose proof (touches_run ["pushed_requests"; "signed_requests"] _ _ _ _ Hres) as (Hc2 & _).
  pose proof (validate_authorization_reference _ _ _ _ _ Hval) as Href.
  apply validate_authorization_ok in Hval as [-> Hval].
  apply resolve_undecided in Hres as (Hcid & Hd & Ht).
  - exists ("" +:+ random_bytes s2.(St.rng)). 
    exists (Authorization.set_refs r (Some (PAR_PREFIX +:+ "" +:+ random_bytes s2.(St.rng)))
              r.(Authorization.request_object_hash) r.(Authorization.request_binding)).
    split; [reflexivity|]. split; [reflexivity|]. split_and!; [done..| | |eauto].
    + simpl. rewrite lookup_insert_eq, Hc2, Hc1. done.
    + intros id Hid. destruct (validate_reference_ok _ _ _ _ _ Href) as [_ Hs].
      destruct (Hs id Hid) as (y & Hy & _). eauto.
  - intros k v Hin. assert (is_Some (m !! k) ∨ k = "client_id") as [Hk| ->]; [|..|bucket].
    { case_match; [|apply elem_of_app in Hin as [Hin|Hin]].
      - left. apply list_elem_of_In, filter_In in Hin as [Hin%list_elem_of_In _].
        apply elem_of_btree_entries in Hin. eauto.
      - left. apply list_elem_of_In, filter_In in Hin as [Hin%list_elem_of_In _].
        apply elem_of_btree_entries in Hin. eauto.
      - right. apply list_elem_of_singleton in Hin. by simplify_eq. }
    bools. intros Hk'. set_unfold in Hk'. destruct Hk as [? Hk].
    destruct Hk' as [->|[->|[->|[]]]]; congruence.
Qed.

(** The parameters of an authorization call that names a pushed request. *)
Definition by_reference (cid uri : string) : pairs := [("client_id", cid); ("request_uri", uri)].

Lemma unique_by_reference cid uri :
  cid ≠ "" → uri ≠ "" →
  unique (by_reference cid uri) = Ok (<["request_uri" := uri]> {["client_id" := cid]}).
Proof.
  intros Hc Hu. unfold unique, by_reference, retain_nonempty, Str.is_empty. simpl.
  rewrite lookup_empty, lookup_insert_ne, lookup_empty by done.
  cbn [mbind result_bind]. f_equal. apply map_filter_id.
  intros k v [[_ <-]|[_ [_ <-]%lookup_singleton_Some]]%lookup_insert_Some; simpl;
    by apply bool_decide_eq_false.
Qed.

Lemma par_uri_nonempty t : PAR_PREFIX +:+ t ≠ "".
Proof. done. Qed.

(** The whole request comes back when it has no decision yet. *)
Lemma set_decision_undecided r m :
  r.(Authorization.decision) = None → r.(Authorization.transaction_id) = None →
  m !! "decision" = None → m !! "transaction_id" = None → set_decision r m = r.
Proof. destruct r; simpl. intros -> -> Hd Ht. unfold set_decision. simpl. by rewrite Hd, Ht. Qed.

Lemma resolve_stored r token p s :
  s.(St.db) !! ("pushed_requests", digest (PAR_PREFIX +:+ token)) = Some (RPushed p) →
  p.(Pushed.request) = r → p.(Pushed.used) = false → s.(St.clock) < p.(Pushed.expires_at) →
  r.(Authorization.client_id) ≠ "" → r.(Authorization.decision) = None →
  r.(Authorization.transaction_id) = None →
  (∀ id, r.(Authorization.request_object_hash) = Some id →
     ∃ x, s.(St.db) !! ("signed_requests", id) = Some (RSigned x)) →
  ∃ s', resolve_authorization_in (by_reference r.(Authorization.client_id) (PAR_PREFIX +:+ token)) s
        = (Ok r, s')
    ∧ ∃ p', s'.(St.db) !! ("pushed_requests", digest (PAR_PREFIX +:+ token)) = Some (RPushed p')
      ∧ p'.(Pushed.started) = true ∧ p'.(Pushed.request) = r ∧ p'.(Pushed.used) = false.
Proof.
  intros Hrow Hr Hused Hexp Hcid Hd Ht Hsig.
  unfold resolve_authorization_in. rewrite unique_by_reference by done.
  erewrite bind_step by reflexivity.
  set (m := <["request_uri" := _]> _).
  assert (Hm : ∀ k, k ≠ "request_uri" → k ≠ "client_id" → m !! k = None).
  { intros k H1 H2. unfold m. by rewrite lookup_insert_ne, lookup_singleton_ne by congruence. }
  rewrite !(Hm "request_binding"), !(Hm "request_object_hash"), !(Hm "id_token_hint") by done.
  erewrite bind_step by reflexivity. erewrite bind_step by reflexivity.
  replace (m !! "request_uri") with (Some (PAR_PREFIX +:+ token)) by (symmetry; apply lookup_insert_eq).
  unfold resolve_reference.
  assert (Hpre : Str.starts_with (PAR_PREFIX +:+ token) PAR_PREFIX = true).
  { unfold Str.starts_with. by rewrite (proj2 (strip_prefix_spec _ _ token) eq_refl). }
  rewrite Hpre, bool_decide_eq_true_2; cycle 1.
  { intros k v [[<- _]|[_ [<- _]%lookup_singleton_Some]]%lookup_insert_Some; done. }
  erewrite bind_step by reflexivity. erewrite bind_step by reflexivity. tx_get.
  apply Z.ltb_lt in Hexp. rewrite Hused, Hexp. erewrite bind_step by reflexivity.
  replace (m !! "client_id") with (Some r.(Authorization.client_id)); cycle 1.
  { unfold m. by rewrite lookup_insert_ne, lookup_singleton_eq by done. }
  rewrite Hr, bool_decide_eq_true_2 by done. erewrite bind_step by reflexivity.
  assert (∃ s', start_pushed (PAR_PREFIX +:+ token) p s = (Ok (), s')
    ∧ ∃ p', s'.(St.db) !! ("pushed_requests", digest (PAR_PREFIX +:+ token)) = Some (RPushed p')
      ∧ p'.(Pushed.started) = true ∧ p'.(Pushed.request) = r ∧ p'.(Pushed.used) = false)
    as (s' & Hstart & Hp').
  { unfold start_pushed. destruct (Pushed.started p) eqn:Hst; [by eauto 10|].
    erewrite bind_step by reflexivity. erewrite bind_step by reflexivity. rewrite Hr.
    destruct (Authorization.request_object_hash r) as [id|] eqn:Hid.
    - destruct (Hsig id eq_refl) as (x & Hx).
      erewrite bind_step by (eapply get_row; [simpl; rewrite lookup_insert_ne by done;
        exact Hx|reflexivity]). cbv beta iota. eexists. split; [reflexivity|]. simpl.
      rewrite lookup_insert_ne, lookup_insert_eq by done. eauto 10.
    - eexists. split; [reflexivity|]. simpl. rewrite lookup_insert_eq. eauto 10. }
  erewrite bind_step by exact Hstart. exists s'. split; [|done].
  rewrite set_decision_undecided by (done || by apply Hm). reflexivity.
Qed.


Lemma consume_used r s x s' uri :
  consume r s = (Ok x, s') → r.(Authorization.request_uri) = Some uri →
  ∃ p, s'.(St.db) !! ("pushed_requests", digest uri) = Some (RPushed p) ∧ p.(Pushed.used) = true.
Proof.
  unfold consume. intros Hrun Huri. rewrite Huri in Hrun.
  apply bind_ok in Hrun as ([] & s1 & Hp & Hrun).
  apply bind_ok in Hp as (o & s2 & [-> Hrow]%get_ok & Hp).
  apply bind_ok in Hp as (p & s2 & [-> ->]%some_or_ok & ->%put_ok).
  exists (Pushed.consume p). split; [|done].
  assert (s'.(St.db) !! ("pushed_requests", digest uri)
    = (<[("pushed_requests", digest uri) := RPushed (Pushed.consume p)]> s.(St.db))
        !! ("pushed_requests", digest uri)) as ->; [|apply lookup_insert_eq].
  destruct (Authorization.request_object_hash r).
  - apply bind_ok in Hrun as (o & s2 & [-> _]%get_ok & Hrun).
    apply bind_ok in Hrun as (y & s2 & [-> ->]%some_or_ok & ->%put_ok). simpl.
    by rewrite lookup_insert_ne.
  - by apply ret_ok in Hrun as [_ ->].
Qed.

(** Every decision uses up the pushed request it answers. *)
Lemma decision_consumes session r remembered k s out s' uri :
  authorize_session_proof session r remembered k s = (Ok out, s') →
  r.(Authorization.request_uri) = Some uri →
  ∃ p, s'.(St.db) !! ("pushed_requests", digest uri) = Some (RPushed p) ∧ p.(Pushed.used) = true.
Proof.
  intros Hrun%authorize_session_proof_inner_run Huri.
  destruct (decision_steps _ _ _ _ _ _ _ _ Hrun)
    as (c & sc & s1 & s2 & pairs & _ & _ & _ & _ & _ & _ & _ & [[_ Hd]|[_ Ha]]).
  - unfold deny in Hd. apply bind_ok in Hd as ([] & s3 & Hc & Hd).
    destruct (consume_used _ _ _ _ _ Hc Huri) as (p & Hp & Hu). exists p. split; [|done].
    rewrite <- Hp. eapply (touches_at ["meta"; "audit"]); [|exact Hd|bucket]. solve_touches.
  - unfold approve in Ha. apply bind_ok in Ha as (t & s3 & [-> ->]%now_ok & Ha).
    apply bind_ok in Ha as (po & s3 & Hpol & Ha). pose proof (pure_run _ _ _ _ Hpol) as ->.
    apply bind_ok in Ha as ([] & s3 & Hc & Ha).
    destruct (consume_used _ _ _ _ _ Hc Huri) as (p & Hp & Hu). exists p. split; [|done].
    rewrite <- Hp. eapply (touches_at ["meta"; "audit"; "codes"]); [|exact Ha|bucket]. solve_touches.
Qed.

(** A pushed request is decided once: after a decision on it, approval or
    denial, no authorization call resolves its URI and no session decides a
    request that carries it, as long as its record is not rewritten. *)
Theorem pushed_request_one_use session r remembered k s out s1 uri s2 :
  authorize_session_proof session r remembered k s = (Ok out, s1) →
  r.(Authorization.request_uri) = Some uri →
  s2.(St.db) !! ("pushed_requests", digest uri) = s1.(St.db) !! ("pushed_requests", digest uri) →
  (∀ m r2 s3, resolve_reference m uri s2 ≠ (Ok r2, s3))
  ∧ ∀ session2 r2 remembered2 k2 out2 s3, r2.(Authorization.request_uri) = Some uri →
      authorize_session_proof session2 r2 remembered2 k2 s2 ≠ (Ok out2, s3).
Proof.
  intros Hrun Huri Hsame.
  destruct (decision_consumes _ _ _ _ _ _ _ _ Hrun Huri) as (p & Hp & Hu).
  rewrite Hp in Hsame. split.
  - intros m r2 s3 Hres. unfold resolve_reference in Hres.
    apply bind_ok in Hres as (? & s4 & [_ ->]%ensure_ok & Hres).
    apply bind_ok in Hres as (t & s4 & [-> ->]%now_ok & Hres).
    apply bind_ok in Hres as (o & s4 & [-> Hrow]%get_ok & Hres).
    apply bind_ok in Hres as (q & s4 & [Ho ->]%some_or_ok & Hres).
    rewrite Hsame in Hrow. destruct o as [p'|]; simpl in Hrow; [|done]. injection Hrow as <-.
    by rewrite Hu in Ho.
  - intros session2 r2 remembered2 k2 out2 s3 Huri2 Hrun2%authorize_session_proof_inner_run.
    unfold authorize_session_proof_inner in Hrun2. cbv zeta in Hrun2.
    apply bind_ok in Hrun2 as (t & s4 & [-> ->]%now_ok & Hrun2).
    apply bind_ok in Hrun2 as (? & s4 & [_ ->]%ensure_ok & Hrun2).
    apply bind_ok in Hrun2 as ([c sc] & s4 & Hv & _).
    apply validate_authorization_reference, validate_reference_ok in Hv as [Hv _].
    destruct (Hv uri Huri2) as (p' & Hp' & Hu' & _). rewrite Hsame in Hp'. congruence.
Qed.
End theory.

(** ** Concrete runs *)

Module PushedDemo.
#[local] Existing Instance Demo.env.

Definition form : pairs :=
  [("response_type", "code"); ("client_id", "crm"); ("redirect_uri", "https://crm.test");
   ("scope", "openid profile"); ("state", ""); ("code_challenge", digest EndpointDemo.verifier);
   ("code_challenge_method", "S256"); ("max_age", "3600")].
Definition credentials : TokenRequest.t := EndpointDemo.request None None None None.
Definition push : tx json := push_authorization credentials form.
Definition pushed : St.t := EndpointDemo.run push AuthorizeDemo.state.

Example push_runs : EndpointDemo.value JNull push AuthorizeDemo.state
  = Json.obj [("request_uri", JStr (PAR_PREFIX +:+ "r0")); ("expires_in", JNum 90)].
Proof. vm_compute. reflexivity. Qed.
Example duplicate_parameter : parse_form [("client_id", "a"); ("client_id", "b")] = Err duplicate.
Proof. reflexivity. Qed.
Example max_age_overflow : Str.parse_u64 "18446744073709551616" = None.
Proof. vm_compute. reflexivity. Qed.
Example max_age_largest : Str.parse_u64 "18446744073709551615" = Some u64_max.
Proof. vm_compute. reflexivity. Qed.

(** The resolved request, approved. *)
Definition resolved : Authorization.t :=
  match (resolve_authorization_in
    (("decision", "approve") :: by_reference "crm" (PAR_PREFIX +:+ "r0")) pushed).1 with
  | Ok r => r
  | Err _ => AuthorizeDemo.request None None None
  end.
Definition approve_pushed : tx string := AuthorizeDemo.decide resolved.
End PushedDemo.

Section witnesses.
#[local] Existing Instance Demo.env.
Import PushedDemo.


Lemma pushed_request_one_use_witness :
  ∃ e, (resolve_reference ∅ (PAR_PREFIX +:+ "r0")
          (EndpointDemo.run approve_pushed pushed)).1 = Err e.
Proof.
  destruct (resolve_reference ∅ (PAR_PREFIX +:+ "r0") (EndpointDemo.run approve_pushed pushed))
    as [[r|e] s'] eqn:Hrun; [exfalso; revert Hrun|by exists e].
  apply (pushed_request_one_use FlowDemo.session resolved false None pushed
    (EndpointDemo.value "" approve_pushed pushed) (EndpointDemo.run approve_pushed pushed)
    (PAR_PREFIX +:+ "r0") (EndpointDemo.run approve_pushed pushed)).
  - vm_compute. reflexivity.
  - vm_compute. reflexivity.
  - reflexivity.
Defined.
End witnesses.
