(* ===== verification/Device.v ===== *)
(** * The device authorization flow (src/src/assembly/oidc.rs,
    management/devices.rs, oidc.rs, context.rs, assembly/browser_runtime.rs)

    A device asks for a code, a person decides it by its user code, and the
    device polls until it gets its token.  A poll that comes too early is slowed
    down; the timing is committed although the device sees an error.  A poll with
    an idempotency key leaves a receipt, and an exact retry is answered from it
    while nothing has changed. *)

From S2P Require Import Prelude Json Model Store Env Provider Jose Delegation Agents Assurance Claims Identities Oidc Token Endpoints.

#[local] Set Warnings "-clear-no-such-hyp".

Definition DEVICE_POLL_RECEIPTS : string := "device_poll_receipts".
Definition MAX_DEVICE_POLL_RECEIPTS : nat := 4096.
Definition MAX_CLIENT_POLL_RECEIPTS : nat := 1024.
Definition MAX_PROOF_POLL_RECEIPTS : nat := 512.
Definition MAX_RETAINED_DEVICES : nat := 256.
Definition MAX_CLIENT_DEVICES : nat := 32.
Definition DEVICE_POLL_RETENTION_SECONDS : Z := 60.
(** [signin::FRESH_SECONDS]. *)
Definition FRESH_SECONDS : Z := 300.
Arguments MAX_DEVICE_POLL_RECEIPTS : simpl never.
Arguments MAX_CLIENT_POLL_RECEIPTS : simpl never.
Arguments MAX_PROOF_POLL_RECEIPTS : simpl never.
Arguments MAX_RETAINED_DEVICES : simpl never.
Arguments MAX_CLIENT_DEVICES : simpl never.

Definition device_capacity : Error.t :=
  Error.new TOO_MANY_REQUESTS "rate_limited" "Device authorization capacity reached".
Definition pending_error : Error.t :=
  Error.oauth "authorization_pending" "Waiting for terminal approval".
Definition slow_down_error : Error.t :=
  Error.oauth "slow_down" "Increase your polling interval by five seconds".

(** ** Receipts *)

(** [context::replay_receipt]. *)
Definition replay_receipt (key fingerprint : string) (permissions : json) : tx (option json) :=
  receipt ← get Receipt.t "receipts" key;
  match receipt with
  | None => mret None
  | Some r =>
      at_ ← now;
      _ ← ensure (negb (r.(Receipt.expires_at) <=? at_))
            (Error.conflict "Idempotency receipt expired; inspect state before using a new key");
      _ ← ensure (String.eqb r.(Receipt.fingerprint) fingerprint)
            (Error.conflict "Idempotency key was used for a different request");
      _ ← ensure (bool_decide (r.(Receipt.permissions) = permissions)) Error.forbidden;
      mret (Some r.(Receipt.result))
  end.
(** [context::save_receipt]. *)
Definition save_receipt (key fingerprint : string) (permissions result : json) : tx unit :=
  at_ ← now;
  put "receipts" key (Receipt.mk fingerprint permissions result (wadd at_ 86400)).

(** The receipt a poll would leave. *)
Module DevicePollReceipt.
Record t := mk {
  key : string;
  fingerprint : string;
  authority : DevicePollAuthority.t;
}.
End DevicePollReceipt.

(** [serde_json::to_value] of the authority. *)
Definition authority_json (a : DevicePollAuthority.t) : json :=
  Json.obj [("protocol", JStr a.(DevicePollAuthority.protocol));
            ("client_id", JStr a.(DevicePollAuthority.client_id));
            ("client_hash", JStr a.(DevicePollAuthority.client_hash));
            ("device_code_hash", JStr a.(DevicePollAuthority.device_code_hash))].

(** [serde_json::from_value::<DevicePollResult>], which refuses unknown
    members. *)
Definition RESULT_FIELDS : list string :=
  ["error"; "last_poll_at"; "interval"; "status_hash"; "expires_at"].
Definition result_of_json (v : json) : option DevicePollResult.t :=
  match v with
  | JObj l =>
      if forallb (λ kv, existsb (String.eqb kv.1) RESULT_FIELDS) l then
        error ← Json.as_str (Json.index v "error");
        last ← match Json.index v "last_poll_at" with
               | JNull => Some None
               | w => Some <$> Json.as_u64 w
               end;
        interval ← Json.as_u64 (Json.index v "interval");
        status_hash ← Json.as_str (Json.index v "status_hash");
        expires_at ← Json.as_u64 (Json.index v "expires_at");
        Some (DevicePollResult.mk error last interval status_hash expires_at)
      else None
  | _ => None
  end.

(** Who decides: a bearer of a session token, or a browser that shows the
    reference of its review. *)
Inductive DeviceDecisionAuthority :=
| Bearer (token : string)
| Browser (cookie : option string) (session_ref : string).

(** The receipt of a decision. *)
Module DeviceReceipt.
Record t := mk {
  key : string;
  fingerprint : string;
  channel : string;
  user_id : string;
  session_id : string;
  code_hash : string;
  approve : bool;
  review : option string;
}.
(** [DeviceReceipt::scope]. *)
Definition scope (r : t) (device_key : string) : json :=
  Json.obj [("self_service", JStr "device.decision"); ("channel", JStr r.(channel));
            ("user_id", JStr r.(user_id)); ("session_id", JStr r.(session_id));
            ("code_hash", JStr r.(code_hash)); ("device_key", JStr device_key);
            ("approve", JBool r.(approve)); ("review", Json.of_option JStr r.(review))].
End DeviceReceipt.

Section device.
Context {E : Env}.

Definition poll_digest (value : string) : bool :=
  match b64url_decode value with
  | Some bytes => (Str.len bytes =? 32) && String.eqb (b64url_encode bytes) value
  | None => false
  end.

Definition valid_poll_record (fingerprint : string) (a : DevicePollAuthority.t)
    (r : DevicePollResult.t) : bool :=
  String.eqb a.(DevicePollAuthority.protocol) "oidc-device-poll-v1"
  && is_ok (validate_name a.(DevicePollAuthority.client_id))
  && poll_digest fingerprint && poll_digest a.(DevicePollAuthority.client_hash)
  && poll_digest a.(DevicePollAuthority.device_code_hash)
  && poll_digest r.(DevicePollResult.status_hash)
  && (String.eqb r.(DevicePollResult.error) "authorization_pending"
      || String.eqb r.(DevicePollResult.error) "slow_down")
  && (5 <=? r.(DevicePollResult.interval)) && (r.(DevicePollResult.interval) mod 5 =? 0)
  && match r.(DevicePollResult.last_poll_at) with
     | Some at_ => at_ <? r.(DevicePollResult.expires_at)
     | None => false
     end.
Definition receipt_valid (r : StoredDevicePollReceipt.t) : bool :=
  valid_poll_record r.(StoredDevicePollReceipt.fingerprint) r.(StoredDevicePollReceipt.permissions)
    r.(StoredDevicePollReceipt.result)
  && (r.(StoredDevicePollReceipt.retain_until)
      =? sat_add r.(StoredDevicePollReceipt.result).(DevicePollResult.expires_at)
           DEVICE_POLL_RETENTION_SECONDS).

Definition device_poll_status_hash (status : DeviceStatus) : string :=
  digest (device_status_string status).

(** [DevicePollReceipt::new]. *)
Definition poll_fingerprint (context : RequestContext.t) (request : TokenRequest.t) : string :=
  digest (context.(RequestContext.fingerprint) +:+ NUL
          +:+ auth_method_string request.(TokenRequest.client_auth_method) +:+ NUL
          +:+ default "" (digest <$> request.(TokenRequest.client_secret)) +:+ NUL
          +:+ default "" (digest <$> request.(TokenRequest.dpop_proof))).
Definition poll_receipt (request : TokenRequest.t) (client : Client.t) (device_key : string) :
    tx (option DevicePollReceipt.t) :=
  context ← current;
  match context with
  | None => mret None
  | Some context =>
      match context.(RequestContext.idempotency_key) with
      | None => mret None
      | Some idempotency_key =>
          _ ← ensure (negb (bool_decide (is_Some request.(TokenRequest.client_assertion))
                            || bool_decide (is_Some request.(TokenRequest.client_assertion_type))))
                (Error.bad "Idempotent device polling does not support client assertions");
          _ ← ensure (negb (Str.is_empty context.(RequestContext.fingerprint)))
                (Error.bad "Idempotent device polling requires an HTTP request fingerprint");
          mret (Some (DevicePollReceipt.mk
            (digest ("oidc-device-poll-v1" +:+ NUL +:+ client.(Client.id) +:+ NUL
                     +:+ idempotency_key))
            (poll_fingerprint context request)
            (DevicePollAuthority.mk "oidc-device-poll-v1" client.(Client.id)
               (digest (client_string client)) device_key)))
      end
  end.

(** The stored result of an earlier poll, from either generation of receipts. *)
Definition saved_result (receipt : DevicePollReceipt.t) : tx (option DevicePollResult.t) :=
  at_ ← now;
  saved ← get StoredDevicePollReceipt.t DEVICE_POLL_RECEIPTS receipt.(DevicePollReceipt.key);
  match saved with
  | Some saved =>
      _ ← ensure (negb (saved.(StoredDevicePollReceipt.retain_until) <=? at_))
            (Error.conflict "Idempotency receipt expired; inspect state before using a new key");
      _ ← ensure (String.eqb saved.(StoredDevicePollReceipt.fingerprint)
                    receipt.(DevicePollReceipt.fingerprint))
            (Error.conflict "Idempotency key was used for a different request");
      _ ← ensure (bool_decide (saved.(StoredDevicePollReceipt.permissions)
                               = receipt.(DevicePollReceipt.authority))) Error.forbidden;
      _ ← ensure (receipt_valid saved) Error.internal;
      mret (Some saved.(StoredDevicePollReceipt.result))
  | None =>
      value ← replay_receipt receipt.(DevicePollReceipt.key) receipt.(DevicePollReceipt.fingerprint)
                (authority_json receipt.(DevicePollReceipt.authority));
      match value with
      | None => mret None
      | Some value => result ← some_or (result_of_json value) Error.internal; mret (Some result)
      end
  end.

(** The device is still as the result left it. *)
Definition result_current (r : DevicePollResult.t) (d : Device.t) : bool :=
  (r.(DevicePollResult.expires_at) =? d.(Device.expires_at))
  && bool_decide (r.(DevicePollResult.last_poll_at) = d.(Device.last_poll_at))
  && (r.(DevicePollResult.interval) =? d.(Device.interval))
  && String.eqb r.(DevicePollResult.status_hash) (device_poll_status_hash d.(Device.status)).

(** [DevicePollReceipt::replay]. *)
Definition replay_poll (receipt : DevicePollReceipt.t) (device : Device.t) : tx (option Error.t) :=
  result ← saved_result receipt;
  match result with
  | None => mret None
  | Some result =>
      _ ← ensure (result_current result device)
            (Error.conflict "Device polling state changed; use a new request key");
      if String.eqb result.(DevicePollResult.error) "authorization_pending"
      then mret (Some pending_error)
      else if String.eqb result.(DevicePollResult.error) "slow_down"
      then mret (Some slow_down_error)
      else fail Error.internal
  end.

(** One row of [DevicePollReceipt::admit]. *)
Definition count_receipt (a : DevicePollAuthority.t) (acc : Result (nat * nat)) (kw : string * row) :
    Result (nat * nat) :=
  counts ← acc;
  saved ← ok_or (decode (T := StoredDevicePollReceipt.t) kw.2) device_capacity;
  if negb (receipt_valid saved) then Err device_capacity
  else
    let p := saved.(StoredDevicePollReceipt.permissions) in
    Ok ((counts.1 + if String.eqb p.(DevicePollAuthority.client_id) a.(DevicePollAuthority.client_id)
                    then 1 else 0)%nat,
        (counts.2 + if String.eqb p.(DevicePollAuthority.device_code_hash)
                         a.(DevicePollAuthority.device_code_hash) then 1 else 0)%nat).
Definition admit_receipt (receipt : DevicePollReceipt.t) : tx unit :=
  rows ← scan row DEVICE_POLL_RECEIPTS None (S MAX_DEVICE_POLL_RECEIPTS);
  _ ← ensure (Nat.ltb (length rows) MAX_DEVICE_POLL_RECEIPTS) device_capacity;
  counts ← lift (foldl (count_receipt receipt.(DevicePollReceipt.authority)) (Ok (0, 0)%nat) rows);
  ensure (Nat.ltb counts.1 MAX_CLIENT_POLL_RECEIPTS && Nat.ltb counts.2 MAX_PROOF_POLL_RECEIPTS)
    device_capacity.

(** [DevicePollReceipt::save]. *)
Definition stored_receipt (receipt : DevicePollReceipt.t) (device : Device.t) (error : string) :
    StoredDevicePollReceipt.t :=
  StoredDevicePollReceipt.mk receipt.(DevicePollReceipt.fingerprint)
    receipt.(DevicePollReceipt.authority)
    (DevicePollResult.mk error device.(Device.last_poll_at) device.(Device.interval)
       (device_poll_status_hash device.(Device.status)) device.(Device.expires_at))
    (sat_add device.(Device.expires_at) DEVICE_POLL_RETENTION_SECONDS).
Definition save_poll (receipt : option DevicePollReceipt.t) (device : Device.t) (error : string) :
    tx unit :=
  match receipt with
  | Some receipt => put DEVICE_POLL_RECEIPTS receipt.(DevicePollReceipt.key)
                      (stored_receipt receipt device error)
  | None => mret ()
  end.

(** ** Starting *)

Definition admit_device (client_id : string) : tx unit :=
  devices ← scan Device.t "devices" None (S MAX_RETAINED_DEVICES);
  ensure (negb (Nat.leb MAX_RETAINED_DEVICES (length devices)
                || Nat.leb MAX_CLIENT_DEVICES
                     (length (List.filter (λ kd : string * Device.t,
                        String.eqb kd.2.(Device.client_id) client_id) devices))))
    device_capacity.

(** The loop that draws user codes until one is free, [fuel] draws at most. *)
Fixpoint fresh_user_code (fuel : nat) : tx string :=
  match fuel with
  | O => fail Error.internal
  | S fuel =>
      code ← user_code;
      normalized ← lift (normalize_code code);
      taken ← get string "device_users" (digest normalized);
      match taken with
      | None => mret code
      | Some _ => fresh_user_code fuel
      end
  end.

Definition device_start (fuel : nat) (request : TokenRequest.t) : tx json :=
  client ← authenticate_client request false;
  _ ← lift (grant_allowed client DEVICE_GRANT);
  _ ← ensure (negb client.(Client.service))
        (Error.oauth "unauthorized_client" "Service clients cannot use device authorization");
  scopes ← lift (scope_request (default "openid" request.(TokenRequest.scope)) client);
  _ ← ensure (bool_decide ("openid" ∈ scopes)) (Error.oauth "invalid_scope" "openid is required");
  device_code ← random_token "ri_device_";
  code ← fresh_user_code fuel;
  normalized ← lift (normalize_code code);
  let user_hash := digest normalized in
  let lifetime := default 600 client.(Client.settings).(ProviderSettings.device_ttl) in
  _ ← lift (Resource.validate client request.(TokenRequest.resource) scopes);
  _ ← admit_device client.(Client.id);
  at_ ← now;
  let device := Device.mk request.(TokenRequest.resource) client.(Client.id) user_hash scopes
                  (wadd at_ lifetime) None 5 Pending in
  _ ← put "devices" (digest device_code) device;
  _ ← put "device_users" user_hash (digest device_code);
  let verification_uri := endpoint config.(Config.issuer) "/device" in
  mret (Json.obj
    [("device_code", JStr device_code); ("user_code", JStr code);
     ("verification_uri", JStr verification_uri);
     ("verification_uri_complete", JStr (verification_uri +:+ "?user_code=" +:+ code));
     ("expires_in", JNum lifetime); ("interval", JNum 5)]).

(** ** Deciding *)

Definition lookup_device (code : string) : tx (string * Device.t) :=
  at_ ← now;
  normalized ← lift (normalize_code code);
  key ← get string "device_users" (digest normalized);
  key ← some_or key (Error.missing "Device request not found");
  device ← get Device.t "devices" key;
  device ← some_or device (Error.missing "Device request not found");
  _ ← ensure (negb (device.(Device.expires_at) <=? at_)) (Error.bad "Device request expired");
  mret (key, device).

Definition device_authentication_stale (at_ : Z) (s : Session.t) : bool :=
  let auth_time := s.(Session.identity).(Identity.auth_time) in
  (auth_time =? 0) || (FRESH_SECONDS <? sat_sub at_ auth_time).

(** [Core::browser_session]: the session behind an SSO cookie. *)
Definition browser_session (cookie : option string) : tx (option Session.t) :=
  match cookie with
  | None => mret None
  | Some cookie =>
      at_ ← now;
      binding ← get BrowserSession.t "browser_sessions" (digest cookie);
      match binding with
      | Some b =>
          if b.(BrowserSession.rotated) || (b.(BrowserSession.expires_at) <=? at_) then mret None
          else
            session ← get Session.t "sessions" b.(BrowserSession.session_id);
            match session with
            | Some s =>
                if s.(Session.revoked) || (s.(Session.expires_at) <=? at_) then mret None
                else
                  user ← catch (identity_user s.(Session.identity));
                  mret (if is_ok user then Some s else None)
            | None => mret None
            end
      | None => mret None
      end
  end.

(** [signin::session_ref]. *)
Definition session_ref (interaction_id session_id : string) : string :=
  digest (interaction_id +:+ NUL +:+ session_id).
Definition validate_review (review device_key : string) (s : Session.t) : tx unit :=
  ensure (String.eqb review (session_ref device_key s.(Session.id)))
    (Error.new CONFLICT "account_changed"
       "Review this device request again with the current account").
Definition require_fresh_authentication (s : Session.t) : tx unit :=
  at_ ← now;
  ensure (negb (device_authentication_stale at_ s))
    (Error.new FORBIDDEN "reauthentication_required"
       "Sign in again before approving this device request").

Definition device_approval_policy (client : Client.t) (device : Device.t) (s : Session.t) : tx unit :=
  user ← authorize_identity client s.(Session.identity);
  _ ← ensure (bool_decide (device.(Device.scopes) ⊆ client.(Client.scopes))) Error.forbidden;
  _ ← Claims.enforce client user s.(Session.identity) device.(Device.scopes);
  claims ← Claims.mapped_claims_for_identity user client device.(Device.scopes) s.(Session.identity);
  lift (Assurance.enforce client s.(Session.identity) None ClaimsRequest.default claims).

(** [DeviceReceipt::current]. *)
Definition decision_receipt (channel : string) (s : Session.t) (code : string) (approve : bool)
    (review : option string) : tx (option DeviceReceipt.t) :=
  context ← current;
  match context with
  | None => mret None
  | Some context =>
      match context.(RequestContext.idempotency_key) with
      | None => mret None
      | Some key =>
          normalized ← lift (normalize_code code);
          mret (Some (DeviceReceipt.mk
            (digest ("device.decision" +:+ NUL +:+ channel +:+ NUL
                     +:+ s.(Session.identity).(Identity.user_id) +:+ NUL +:+ s.(Session.id) +:+ NUL
                     +:+ key))
            context.(RequestContext.fingerprint) channel s.(Session.identity).(Identity.user_id)
            s.(Session.id) (digest normalized) approve review))
      end
  end.

(** [DeviceReceipt::replay]. *)
Definition replay_decision (r : DeviceReceipt.t) (s : Session.t) : tx (option json) :=
  saved ← get Receipt.t "receipts" r.(DeviceReceipt.key);
  match saved with
  | None => mret None
  | Some saved =>
      device_key ← some_or (Json.as_str (Json.index saved.(Receipt.permissions) "device_key"))
                     (Error.conflict "Idempotency receipt does not match device request");
      result ← replay_receipt r.(DeviceReceipt.key) r.(DeviceReceipt.fingerprint)
                 (DeviceReceipt.scope r device_key);
      owner ← get string "device_users" r.(DeviceReceipt.code_hash);
      _ ← ensure (match owner with Some o => String.eqb o device_key | None => true end)
            (Error.conflict "Idempotency key was used for another device request");
      _ ← match r.(DeviceReceipt.review) with
          | Some review => validate_review review device_key s
          | None => mret ()
          end;
      _ ← (if r.(DeviceReceipt.approve) then require_fresh_authentication s else mret ());
      mret result
  end.

(** The session, the review and the channel of a decision. *)
Definition decision_session (authority : DeviceDecisionAuthority) :
    tx (Session.t * option string * string) :=
  match authority with
  | Bearer token => us ← session token; mret (us.2, None, "bearer")
  | Browser cookie review =>
      s ← browser_session cookie;
      s ← some_or s Error.unauthorized;
      mret (s, Some review, "browser")
  end.

(** A new decision on a pending device. *)
Definition new_decision (s : Session.t) (review : option string) (receipt : option DeviceReceipt.t)
    (code : string) (approve : bool) : tx json :=
  kd ← lookup_device code;
  let key := kd.1 in
  let device := kd.2 in
  _ ← ensure (match device.(Device.status) with Pending => true | _ => false end)
        (Error.conflict "Device request already decided");
  _ ← match review with Some review => validate_review review key s | None => mret () end;
  client ← get_client device.(Device.client_id);
  _ ← (if approve then
         _ ← require_fresh_authentication s;
         device_approval_policy client device s
       else mret ());
  _ ← put "devices" key
        (Device.decided device (if approve then Approved s.(Session.identity) else Denied));
  _ ← audit s.(Session.identity).(Identity.user_id)
        (if approve then "device.approved" else "device.denied") device.(Device.client_id);
  let result := Json.obj [("approved", JBool approve)] in
  _ ← match receipt with
      | Some r => save_receipt r.(DeviceReceipt.key) r.(DeviceReceipt.fingerprint)
                    (DeviceReceipt.scope r key) result
      | None => mret ()
      end;
  mret result.

Definition decide_device (authority : DeviceDecisionAuthority) (code : string) (approve : bool) :
    tx json :=
  src ← decision_session authority;
  let '(s, review, channel) := src in
  receipt ← decision_receipt channel s code approve review;
  replayed ← match receipt with Some r => replay_decision r s | None => mret None end;
  match replayed with
  | Some result => mret result
  | None => new_decision s review receipt code approve
  end.
Definition device_decide (token code : string) (approve : bool) : tx json :=
  decide_device (Bearer token) code approve.
Definition device_browser_decide (sso : option string) (code : string) (approve : bool)
    (review : string) : tx json :=
  decide_device (Browser sso review) code approve.

(** ** Reviewing *)

Definition device_details (token code : string) : tx json :=
  _ ← session token;
  kd ← lookup_device code;
  let device := kd.2 in
  _ ← ensure (match device.(Device.status) with Pending => true | _ => false end)
        (Error.conflict "Device request already decided");
  client ← get_client device.(Device.client_id);
  mret (Json.obj
    [("client_id", JStr client.(Client.id)); ("application", JStr client.(Client.name));
     ("scopes", Json.strs (btree_iter device.(Device.scopes)));
     ("claims", Json.strs (btree_iter (device_claim_names client device.(Device.scopes))));
     ("resource", Json.of_option JStr device.(Device.resource));
     ("expires_at", JNum device.(Device.expires_at));
     ("require_mfa", JBool client.(Client.require_mfa))]).

Definition device_browser_details (sso : option string) (code : string) : tx json :=
  s ← browser_session sso;
  s ← some_or s Error.unauthorized;
  kd ← lookup_device code;
  let key := kd.1 in
  let device := kd.2 in
  _ ← ensure (match device.(Device.status) with Pending => true | _ => false end)
        (Error.conflict "Device request already decided");
  client ← get_client device.(Device.client_id);
  user ← identity_user s.(Session.identity);
  at_ ← now;
  let stale := device_authentication_stale at_ s in
  policy ← catch (device_approval_policy client device s);
  approval_allowed ← match policy with
                     | Ok _ => mret (negb stale)
                     | Err e => if Error.is_server_error e then fail e else mret false
                     end;
  normalized ← lift (normalize_code code);
  mret (Json.obj
    [("user_code", JStr (String.substring 0 5 normalized +:+ "-"
                         +:+ String.substring 5 (String.length normalized - 5) normalized));
     ("application", Json.obj [("client_id", JStr client.(Client.id)); ("name", JStr client.(Client.name))]);
     ("scopes", Json.strs (btree_iter device.(Device.scopes)));
     ("claims", Json.strs (btree_iter (device_claim_names client device.(Device.scopes))));
     ("resource", Json.of_option JStr device.(Device.resource));
     ("expires_at", JNum device.(Device.expires_at));
     ("account", Json.obj [("username", JStr user.(User.username));
                           ("display_name", JStr user.(User.display_name));
                           ("mfa", JBool s.(Session.identity).(Identity.mfa))]);
     ("session_ref", JStr (session_ref key s.(Session.id)));
     ("approval_allowed", JBool approval_allowed);
     ("reauthentication_required", JBool stale);
     ("require_mfa", JBool client.(Client.require_mfa))]).

(** ** Polling *)

(** A poll before its time. *)
Definition too_early (device : Device.t) (at_ : Z) : bool :=
  match device.(Device.last_poll_at) with
  | Some last => at_ <? wadd last device.(Device.interval)
  | None => false
  end.

(** The token of an approved device; the device is used up. *)
Definition redeem_device (client : Client.t) (request : TokenRequest.t) (key : string)
    (device : Device.t) (identity : Identity.t) : tx json :=
  _ ← or_else (authorize_identity client identity) invalid_grant;
  _ ← ensure (scopes_allowed client device.(Device.scopes)) invalid_grant;
  grant ← new_grant client (Some identity) device.(Device.scopes) None;
  grant ← Dpop.bind client request grant None;
  grant ← lift (Resource.bind client grant request.(TokenRequest.resource) device.(Device.resource));
  output ← issue grant true;
  _ ← remove "device_users" device.(Device.user_code_hash);
  _ ← remove "devices" key;
  mret output.

(** A poll that is not a replay. *)
Definition poll_device (client : Client.t) (request : TokenRequest.t) (key : string)
    (device : Device.t) (receipt : option DevicePollReceipt.t) : tx (Result json) :=
  at_ ← now;
  let early := too_early device at_ in
  let pending := match device.(Device.status) with Pending => true | _ => false end in
  _ ← match receipt with
      | Some r => if early || pending then admit_receipt r else mret ()
      | None => mret ()
      end;
  if early then
    let device := Device.polled device at_ (sat_add device.(Device.interval) 5) in
    _ ← put "devices" key device;
    _ ← save_poll receipt device "slow_down";
    mret (Err slow_down_error)
  else
    match device.(Device.status) with
    | Pending =>
        let device := Device.polled device at_ device.(Device.interval) in
        _ ← put "devices" key device;
        _ ← save_poll receipt device "authorization_pending";
        mret (Err pending_error)
    | Denied => mret (Err (Error.oauth "access_denied" "Authorization denied"))
    | Approved identity =>
        output ← redeem_device client request key device identity;
        mret (Ok output)
    end.

Definition exchange_device (request : TokenRequest.t) : tx (Result json) :=
  client ← authenticate_client request false;
  _ ← lift (grant_allowed client DEVICE_GRANT);
  device_code ← lift (required request.(TokenRequest.device_code) "device_code");
  let key := digest device_code in
  device ← get Device.t "devices" key;
  device ← some_or device invalid_grant;
  _ ← ensure (String.eqb device.(Device.client_id) client.(Client.id)) invalid_grant;
  at_ ← now;
  if device.(Device.expires_at) <=? at_ then
    mret (Err (Error.oauth "expired_token" "Device code expired"))
  else
    receipt ← poll_receipt request client key;
    replayed ← match receipt with Some r => replay_poll r device | None => mret None end;
    match replayed with
    | Some e => mret (Err e)
    | None => poll_device client request key device receipt
    end.
End device.

(** ** What the operations change *)

Section frames.
Context {E : Env}.

#[global] Instance pure_replay_receipt k f p : Pure (replay_receipt k f p).
Proof. unfold replay_receipt. solve_pure. Qed.
#[global] Instance touches_save_receipt k f p r : Touches ["receipts"] (save_receipt k f p r).
Proof. unfold save_receipt. solve_touches. Qed.
#[global] Instance pure_poll_receipt r c k : Pure (poll_receipt r c k).
Proof. unfold poll_receipt. solve_pure. Qed.
#[global] Instance pure_saved_result r : Pure (saved_result r).
Proof. unfold saved_result. solve_pure. Qed.
#[global] Instance pure_replay_poll r d : Pure (replay_poll r d).
Proof. unfold replay_poll. solve_pure. Qed.
#[global] Instance pure_admit_receipt r : Pure (admit_receipt r).
Proof. unfold admit_receipt. solve_pure. Qed.
#[global] Instance touches_save_poll r d e : Touches [DEVICE_POLL_RECEIPTS] (save_poll r d e).
Proof. unfold save_poll. solve_touches. Qed.
#[global] Instance pure_admit_device c : Pure (admit_device c).
Proof. unfold admit_device. solve_pure. Qed.
#[global] Instance touches_fresh_user_code fuel : Touches [] (fresh_user_code fuel).
Proof. induction fuel; simpl; solve_touches. Qed.
#[global] Instance pure_lookup_device c : Pure (lookup_device c).
Proof. unfold lookup_device. solve_pure. Qed.
#[global] Instance pure_browser_session c : Pure (browser_session c).
Proof. unfold browser_session. solve_pure. Qed.
#[global] Instance pure_validate_review r k s : Pure (validate_review r k s).
Proof. unfold validate_review. solve_pure. Qed.
#[global] Instance pure_require_fresh_authentication s : Pure (require_fresh_authentication s).
Proof. unfold require_fresh_authentication. solve_pure. Qed.
#[global] Instance pure_device_approval_policy c d s : Pure (device_approval_policy c d s).
Proof. unfold device_approval_policy. solve_pure. Qed.
#[global] Instance pure_decision_receipt ch s c a r : Pure (decision_receipt ch s c a r).
Proof. unfold decision_receipt. solve_pure. Qed.
#[global] Instance pure_replay_decision r s : Pure (replay_decision r s).
Proof. unfold replay_decision. solve_pure. Qed.
#[global] Instance pure_decision_session a : Pure (decision_session a).
Proof. unfold decision_session. solve_pure. Qed.
#[global] Instance pure_device_details t c : Pure (device_details t c).
Proof. unfold device_details. solve_pure. Qed.
#[global] Instance pure_device_browser_details s c : Pure (device_browser_details s c).
Proof. unfold device_browser_details. solve_pure. Qed.
End frames.
#[export] Hint Resolve touches_save_receipt touches_save_poll : tx.
