(* ===== verification/DeviceFlow.v ===== *)
(** * The device flow: what its operations establish

    The theorems on the operations of [Device]: what a poll that returns a token
    rests on, that a device code yields one token, that a decision is final, that
    an approved device was approved by a decision, how polling is paced and how
    a keyed poll is answered again, the bound on the devices kept, and that the
    draw of a user code ends. *)

From S2P Require Import Prelude Json Model Store Env Provider Jose Delegation Agents Assurance Claims Identities Oidc Token Endpoints Device.

#[local] Set Warnings "-clear-no-such-hyp".

Section steps.
Context {E : Env}.
Implicit Types (r : TokenRequest.t) (s : St.t) (d : Device.t).

Lemma required_nonempty o n v : required o n = Ok v → v ≠ "".
Proof. unfold required, nonempty. repeat case_match; naive_solver. Qed.

(** A poll that got as far as a result, step by step. *)
Lemma exchange_device_steps r s x s' :
  exchange_device r s = (Ok x, s') →
  ∃ client code d s1,
    authenticate_client r false s = (Ok client, s1)
    ∧ grant_allowed client DEVICE_GRANT = Ok ()
    ∧ (r.(TokenRequest.device_code) = Some code ∧ code ≠ "")
    ∧ s.(St.db) !! ("devices", digest code) = Some (RDevice d)
    ∧ d.(Device.client_id) = client.(Client.id)
    ∧ s1.(St.clock) = s.(St.clock)
    ∧ (d.(Device.expires_at) ≤ s.(St.clock) ∧ s' = s1
         ∧ x = Err (Error.oauth "expired_token" "Device code expired")
       ∨ s.(St.clock) < d.(Device.expires_at)
         ∧ ∃ receipt, poll_receipt r client (digest code) s1 = (Ok receipt, s1)
           ∧ ((∃ rc e, receipt = Some rc ∧ replay_poll rc d s1 = (Ok (Some e), s1)
                 ∧ x = Err e ∧ s' = s1)
              ∨ match receipt with
                | Some rc => replay_poll rc d s1 = (Ok None, s1)
                | None => True
                end ∧ poll_device client r (digest code) d receipt s1 = (Ok x, s'))).
Proof.
  unfold exchange_device. cbv zeta. intros Hrun.
  apply bind_ok in Hrun as (client & s1 & Hauth & Hrun).
  pose proof (authenticate_client_run _ _ _ _ _ Hauth) as (Hclk & _ & Hdb).
  apply bind_ok in Hrun as ([] & s2 & [Hg ->]%lift_ok & Hrun).
  apply bind_ok in Hrun as (code & s2 & [Hcode ->]%lift_ok & Hrun).
  apply bind_ok in Hrun as (o & s2 & [-> Hrow]%get_ok & Hrun).
  apply bind_ok in Hrun as (d & s2 & [-> ->]%some_or_ok & Hrun).
  apply bind_ok in Hrun as (? & s2 & [Hcl%String.eqb_eq ->]%ensure_ok & Hrun).
  apply bind_ok in Hrun as (? & s2 & [-> ->]%now_ok & Hrun).
  rewrite Hdb in Hrow by done.
  exists client, code, d, s1.
  split_and!; try done; [by eapply required_ok|by eapply required_nonempty|]. rewrite Hclk in Hrun.
  destruct (Z.leb_spec d.(Device.expires_at) s.(St.clock)).
  { left. apply ret_ok in Hrun as [-> ->]. done. }
  right. split; [done|]. apply bind_ok in Hrun as (receipt & s2 & Hrec & Hrun).
  pose proof (pure_run _ _ _ _ Hrec) as ->. exists receipt. split; [done|].
  apply bind_ok in Hrun as (replayed & s2 & Hrep & Hrun). destruct receipt as [rc|].
  - pose proof (pure_run _ _ _ _ Hrep) as ->. destruct replayed as [e|]; [left|by right].
    apply ret_ok in Hrun as [-> ->]. by exists rc, e.
  - apply ret_ok in Hrep as [-> ->]. by right.
Qed.

(** What the redemption of an approved device leaves. *)
Lemma redeem_device_ok client r key d i s out s' :
  redeem_device client r key d i s = (Ok out, s') →
  ∃ u token a,
    authorize_identity client i s = (Ok u, s)
    ∧ scopes_allowed client d.(Device.scopes) = true
    ∧ Json.get "access_token" out = Some (JStr token)
    ∧ s'.(St.db) !! ("access", digest token) = Some (RGrant a)
    ∧ a.(Grant.identity) = Some i ∧ a.(Grant.scopes) = d.(Device.scopes)
    ∧ a.(Grant.client_id) = client.(Client.id) ∧ a.(Grant.resource) = d.(Device.resource)
    ∧ (∀ k, s'.(St.db) !! ("devices", k) = base.delete ("devices", key) s.(St.db) !! ("devices", k))
    ∧ s'.(St.db) !! ("device_users", d.(Device.user_code_hash)) = None.
Proof.
  unfold redeem_device. intros Hrun.
  apply bind_ok in Hrun as (u & s1 & Hauth%or_else_ok & Hrun).
  pose proof (pure_run _ _ _ _ Hauth) as ->.
  apply bind_ok in Hrun as (? & s1 & [Hsc ->]%ensure_ok & Hrun).
  apply bind_ok in Hrun as (g & s1 & [-> ->]%new_grant_ok & Hrun).
  apply bind_ok in Hrun as (g & s2 & Hb & Hrun).
  pose proof (dpop_bind_run _ _ _ _ _ _ _ Hb) as (_ & _ & Hd).
  apply dpop_bind_ok in Hb as (conf & idj & ->).
  apply bind_ok in Hrun as (g & s3 & [->%resource_bind_ok ->]%lift_ok & Hrun).
  apply bind_ok in Hrun as (o & s3 & Hi & Hrun).
  pose proof (touches_run ["access"; "refresh"; "rp_sessions"; "audit"] _ _ _ _ Hi) as (_ & _ & _ & Hf).
  apply issue_ok in Hi as (c & ident & token & n & _ & _ & _ & Ha & _ & _ & Hrow & _).
  apply bind_ok in Hrun as ([] & s4 & ->%remove_ok & Hrun).
  apply bind_ok in Hrun as ([] & s5 & ->%remove_ok & [-> ->]%ret_ok).
  eexists u, token, _.
  do 3 (split; [eassumption|]).
  split; [cbn [St.db St.set_db]; rewrite !lookup_delete_ne by done; exact Hrow|].
  split_and!; [reflexivity..| |].
  - intros k. cbn [St.db St.set_db].
    destruct (decide (k = key)) as [->|Hk]; [by rewrite !lookup_delete_eq|].
    rewrite !lookup_delete_ne by congruence. rewrite Hf by bucket. rewrite Hd by done.
    cbn [St.db]. by rewrite lookup_insert_ne.
  - cbn [St.db St.set_db]. rewrite lookup_delete_ne by done. apply lookup_delete_eq.
Qed.

(** The four outcomes of a poll that is no replay. *)
Lemma poll_device_ok client r key d receipt s x s' :
  poll_device client r key d receipt s = (Ok x, s') →
  (too_early d s.(St.clock) = true ∧ x = Err slow_down_error
     ∧ ∃ s1, s1 = St.set_db s (<[("devices", key)
           := RDevice (Device.polled d s.(St.clock) (sat_add d.(Device.interval) 5))]> s.(St.db))
       ∧ save_poll receipt (Device.polled d s.(St.clock) (sat_add d.(Device.interval) 5))
           "slow_down" s1 = (Ok (), s'))
  ∨ too_early d s.(St.clock) = false
    ∧ match d.(Device.status) with
      | Pending => x = Err pending_error
          ∧ ∃ s1, s1 = St.set_db s (<[("devices", key)
                := RDevice (Device.polled d s.(St.clock) d.(Device.interval))]> s.(St.db))
            ∧ save_poll receipt (Device.polled d s.(St.clock) d.(Device.interval))
                "authorization_pending" s1 = (Ok (), s')
      | Denied => x = Err (Error.oauth "access_denied" "Authorization denied") ∧ s' = s
      | Approved i => ∃ out, x = Ok out ∧ redeem_device client r key d i s = (Ok out, s')
      end.
Proof.
  unfold poll_device. cbv zeta. intros Hrun.
  apply bind_ok in Hrun as (? & s1 & [-> ->]%now_ok & Hrun).
  apply bind_ok in Hrun as ([] & s1 & Hadm & Hrun).
  assert (s1 = s) as ->.
  { destruct receipt; [|by tx_inv].
    match type of Hadm with (if ?b then _ else _) _ = _ => destruct b end;
      [exact (pure_run _ _ _ _ Hadm)|by tx_inv]. }
  destruct (too_early d (St.clock s)); [left|right]; (split; [done|]).
  - apply bind_ok in Hrun as ([] & s1 & ->%put_ok & Hrun).
    apply bind_ok in Hrun as ([] & s2 & Hs & [-> ->]%ret_ok). split; [done|]. by eexists.
  - destruct (Device.status d).
    + apply bind_ok in Hrun as ([] & s1 & ->%put_ok & Hrun).
      apply bind_ok in Hrun as ([] & s2 & Hs & [-> ->]%ret_ok). split; [done|]. by eexists.
    + apply bind_ok in Hrun as (out & s1 & Hr & [-> ->]%ret_ok). by exists out.
    + by apply ret_ok in Hrun as [-> ->].
Qed.
End steps.

(** ** Tokens *)

Section tokens.
Context {E : Env}.
Implicit Types (r : TokenRequest.t) (s : St.t) (d : Device.t).

(** What a poll that returns a token rests on. *)
Record device_redeemed r s s' (code : string) (client : Client.t) d (i : Identity.t) (token : string)
    (a : Grant.t) : Prop := {
  dr_code : r.(TokenRequest.device_code) = Some code;
  dr_client : ∃ cid, r.(TokenRequest.client_id) = Some cid
    ∧ s.(St.db) !! ("clients", cid) = Some (RClient client) ∧ client.(Client.enabled) = true;
  dr_grant : grant_allowed client DEVICE_GRANT = Ok ();
  dr_device : s.(St.db) !! ("devices", digest code) = Some (RDevice d);
  dr_owner : d.(Device.client_id) = client.(Client.id);
  dr_live : s.(St.clock) < d.(Device.expires_at);
  dr_paced : too_early d s.(St.clock) = false;
  dr_approved : d.(Device.status) = Approved i;
  dr_identity : ∃ u s1, authorize_identity client i s1 = (Ok u, s1) ∧ s1.(St.clock) = s.(St.clock)
    ∧ ∀ b k, b ≠ "assertion_replays" → s1.(St.db) !! (b, k) = s.(St.db) !! (b, k);
  dr_scopes : d.(Device.scopes) ⊆ client.(Client.scopes);
  dr_token : s'.(St.db) !! ("access", digest token) = Some (RGrant a);
  dr_bound : a.(Grant.identity) = Some i ∧ a.(Grant.scopes) = d.(Device.scopes)
    ∧ a.(Grant.client_id) = client.(Client.id) ∧ a.(Grant.resource) = d.(Device.resource);
  dr_used : ∀ k, s'.(St.db) !! ("devices", k)
    = base.delete ("devices", digest code) s.(St.db) !! ("devices", k);
  dr_code_free : s'.(St.db) !! ("device_users", d.(Device.user_code_hash)) = None;
}.

Lemma device_redemption r s out s' :
  exchange_device r s = (Ok (Ok out), s') →
  ∃ code client d i token a, Json.get "access_token" out = Some (JStr token)
    ∧ device_redeemed r s s' code client d i token a.
Proof.
  intros (client & code & d & s1 & Hauth & Hg & [Hcode _] & Hrow & Hown & Hclk & Hcase)%exchange_device_steps.
  destruct Hcase as [(_ & _ & [=])|(Hlive & receipt & _ & [(rc & e & _ & _ & [=] & _)|[_ Hpoll]])].
  apply poll_device_ok in Hpoll as [(_ & [=] & _)|[Hearly Hst]].
  destruct (Device.status d) as [|i|] eqn:Hs; [by destruct Hst|..|by destruct Hst].
  destruct Hst as (o & [= <-] & Hred).
  apply redeem_device_ok in Hred as (u & token & a & Hai & Hsc & Ht & Ha & Hi & Has & Hac & Har & Hd & Hu).
  pose proof (authenticate_client_run _ _ _ _ _ Hauth) as (_ & _ & Hdb).
  apply authenticate_client_ok in Hauth as (cid & Hcid & Hcl & Hen & _).
  apply andb_true_iff in Hsc as [Hsub%bool_decide_eq_true _].
  exists code, client, d, i, token, a. split; [done|]. rewrite Hclk in Hearly.
  constructor; try done.
  - by exists cid.
  - by exists u, s1.
  - intros k. rewrite Hd. destruct (decide (k = digest code)) as [->|Hk].
    + by rewrite !lookup_delete_eq.
    + rewrite !lookup_delete_ne by congruence. by apply Hdb.
Qed.

(** C8: a device gets a token only when it presents a live device code of its own
    client, not before its polling interval is over, after a person approved it;
    that person must still pass the whole access policy of the client; the token
    acts for that person with the scopes and the resource the device asked for,
    and the device code and its user code are used up. *)
Theorem device_token_sound r s out s' :
  exchange_device r s = (Ok (Ok out), s') →
  ∃ code client d i token a, Json.get "access_token" out = Some (JStr token)
    ∧ device_redeemed r s s' code client d i token a.
Proof. apply device_redemption. Qed.

(** A device code yields one token: once it was redeemed, no client gets a
    token for it, as long as no device is stored under its key. *)
Theorem device_code_one_use r s out s1 r2 s2 out2 s3 :
  exchange_device r s = (Ok (Ok out), s1) →
  r2.(TokenRequest.device_code) = r.(TokenRequest.device_code) →
  (∀ k, s2.(St.db) !! ("devices", k) = s1.(St.db) !! ("devices", k)) →
  exchange_device r2 s2 ≠ (Ok (Ok out2), s3).
Proof.
  intros (code & c & d & i & t & a & _ & H1)%device_redemption Hc Hsame
    (code2 & c2 & d2 & i2 & t2 & a2 & _ & H2)%device_redemption.
  destruct H1, H2. rewrite Hc, dr_code0 in dr_code1. injection dr_code1 as <-.
  rewrite Hsame, dr_used0, lookup_delete_eq in dr_device1. done.
Qed.
End tokens.

(** ** Decisions *)

Section decisions.
Context {E : Env}.
Implicit Types (r : TokenRequest.t) (s : St.t) (d : Device.t) (ses : Session.t).

(** A decision a session took on the device stored under [key]. *)
Record decided_by s s' ses (review : option string) (code : string) (approve : bool) (key : string) d :
    Prop := {
  db_code : ∃ normalized, normalize_code code = Ok normalized
    ∧ s.(St.db) !! ("device_users", digest normalized) = Some (RString key);
  db_device : s.(St.db) !! ("devices", key) = Some (RDevice d);
  db_live : s.(St.clock) < d.(Device.expires_at);
  db_pending : d.(Device.status) = Pending;
  db_review : match review with
              | Some rv => rv = session_ref key ses.(Session.id)
              | None => True
              end;
  db_policy : approve = true → device_authentication_stale s.(St.clock) ses = false
    ∧ ∃ client, s.(St.db) !! ("clients", d.(Device.client_id)) = Some (RClient client)
      ∧ client.(Client.enabled) = true ∧ device_approval_policy client d ses s = (Ok (), s);
  db_result : ∀ k, s'.(St.db) !! ("devices", k)
    = <[("devices", key) := RDevice (Device.decided d
          (if approve then Approved ses.(Session.identity) else Denied))]> s.(St.db) !! ("devices", k);
}.

Lemma lookup_device_ok code s key d s' :
  lookup_device code s = (Ok (key, d), s') →
  s' = s ∧ s.(St.db) !! ("devices", key) = Some (RDevice d) ∧ s.(St.clock) < d.(Device.expires_at)
  ∧ ∃ normalized, normalize_code code = Ok normalized
    ∧ s.(St.db) !! ("device_users", digest normalized) = Some (RString key).
Proof.
  unfold lookup_device. intros Hrun. tx_inv. bools. split_and!; [done|done|lia|eauto].
Qed.

Lemma new_decision_ok ses review receipt code approve s v s' :
  new_decision ses review receipt code approve s = (Ok v, s') →
  ∃ key d, decided_by s s' ses review code approve key d.
Proof.
  unfold new_decision. cbv zeta. intros Hrun.
  apply bind_ok in Hrun as ([key d] & s1 & (-> & Hd & Hlive & Hn)%lookup_device_ok & Hrun).
  cbn [fst snd] in Hrun.
  apply bind_ok in Hrun as (? & s1 & [Hpend ->]%ensure_ok & Hrun).
  apply bind_ok in Hrun as ([] & s1 & Hrev & Hrun).
  assert (s1 = s ∧ match review with Some rv => rv = session_ref key ses.(Session.id) | None => True end)
    as [-> Hrv].
  { destruct review; [|by tx_inv]. unfold validate_review in Hrev. tx_inv. bools. done. }
  apply bind_ok in Hrun as (client & s1 & (-> & Hc & Hen)%get_client_ok & Hrun).
  apply bind_ok in Hrun as ([] & s1 & Hpol & Hrun).
  assert (s1 = s ∧ (approve = true → device_authentication_stale s.(St.clock) ses = false
    ∧ device_approval_policy client d ses s = (Ok (), s))) as [-> Hp].
  { destruct approve; [|by tx_inv].
    apply bind_ok in Hpol as ([] & s2 & Hf & Hpol). unfold require_fresh_authentication in Hf. tx_inv.
    pose proof (pure_run _ _ _ _ Hpol) as ->. split; [done|]. intros _. split; [by apply negb_true_iff|done]. }
  apply bind_ok in Hrun as ([] & s1 & ->%put_ok & Hrun).
  apply bind_ok in Hrun as ([] & s2 & Haud & Hrun).
  apply bind_ok in Hrun as ([] & s3 & Hsave & [-> ->]%ret_ok).
  exists key, d. constructor; [done|done|done| |done| |].
  - by destruct (Device.status d).
  - intros [? ?]%Hp. split; [done|]. by exists client.
  - intros k. transitivity (s2.(St.db) !! ("devices", k)).
    + destruct receipt; [|by tx_inv]. apply (touches_at ["receipts"] _ _ _ _ _ _ Hsave). bucket.
    + apply (touches_at ["meta"; "audit"] _ _ _ _ _ _ Haud). bucket.
Qed.

Lemma decide_device_ok authority code approve s v s' :
  decide_device authority code approve s = (Ok v, s') →
  ∃ ses review channel, decision_session authority s = (Ok (ses, review, channel), s)
    ∧ (s' = s ∨ ∃ key d, decided_by s s' ses review code approve key d).
Proof.
  unfold decide_device. intros Hrun.
  apply bind_ok in Hrun as ([[ses review] channel] & s1 & Hs & Hrun).
  pose proof (pure_run _ _ _ _ Hs) as ->. exists ses, review, channel. split; [done|].
  apply bind_ok in Hrun as (receipt & s1 & Hr & Hrun). pose proof (pure_run _ _ _ _ Hr) as ->.
  apply bind_ok in Hrun as (replayed & s1 & Hrep & Hrun).
  assert (s1 = s) as ->. { destruct receipt; [exact (pure_run _ _ _ _ Hrep)|by tx_inv]. }
  destruct replayed; [left; by tx_inv|right]. by eapply new_decision_ok.
Qed.

(** A decision is final and is the session's own: deciding a device request
    leaves every stored device as it was, except the one pending, unexpired
    device the user code names; it becomes approved by the identity of the
    deciding session, which reviewed this very request, signed in recently and
    passes the policy of the client, or it becomes denied. *)
Theorem device_decision_final authority code approve s v s' k d :
  decide_device authority code approve s = (Ok v, s') →
  s.(St.db) !! ("devices", k) = Some (RDevice d) →
  s'.(St.db) !! ("devices", k) = Some (RDevice d)
  ∨ d.(Device.status) = Pending ∧ ∃ ses review channel,
      decision_session authority s = (Ok (ses, review, channel), s)
      ∧ decided_by s s' ses review code approve k d.
Proof.
  intros (ses & review & channel & Hs & [->|(key & d' & H)])%decide_device_ok Hd; [by left|].
  destruct (decide (k = key)) as [->|Hk].
  - right. pose proof (db_device _ _ _ _ _ _ _ _ H) as Hd'. rewrite Hd in Hd'. injection Hd' as <-.
    split; [apply H|]. by exists ses, review, channel.
  - left. rewrite (db_result _ _ _ _ _ _ _ _ H), lookup_insert_ne by congruence. done.
Qed.
End decisions.

(** ** Starting *)

Section starting.
Context {E : Env}.
Implicit Types (r : TokenRequest.t) (s : St.t) (d : Device.t).

Lemma admit_device_ok client s u s' :
  admit_device client s = (Ok u, s') →
  s' = s ∧ (bucket_size "devices" s.(St.db) < MAX_RETAINED_DEVICES)%nat.
Proof.
  unfold admit_device. intros Hrun.
  apply bind_ok in Hrun as (l & s1 & Hscan & [Hb ->]%ensure_ok).
  pose proof (pure_run _ _ _ _ Hscan) as ->. split; [done|].
  apply negb_true_iff, orb_false_iff in Hb as [Hb%Nat.leb_gt _].
  rewrite (scan_short _ _ _ _ _ Hscan); lia.
Qed.

(** A start stores one pending device under the digest of its device code and
    nothing else among the devices. *)
Lemma device_start_ok fuel r s v s' :
  device_start fuel r s = (Ok v, s') →
  ∃ key d, d.(Device.status) = Pending ∧ d.(Device.interval) = 5
    ∧ (bucket_size "devices" s.(St.db) < MAX_RETAINED_DEVICES)%nat
    ∧ ∀ k, s'.(St.db) !! ("devices", k) = <[("devices", key) := RDevice d]> s.(St.db) !! ("devices", k).
Proof.
  unfold device_start. cbv zeta. intros Hrun.
  apply bind_ok in Hrun as (client & s1 & Hauth & Hrun).
  apply bind_ok in Hrun as (? & s2 & [_ ->]%lift_ok & Hrun).
  apply bind_ok in Hrun as (? & s2 & [_ ->]%ensure_ok & Hrun).
  apply bind_ok in Hrun as (scopes & s2 & [_ ->]%lift_ok & Hrun).
  apply bind_ok in Hrun as (? & s2 & [_ ->]%ensure_ok & Hrun).
  apply bind_ok in Hrun as (device_code & s2 & Hdc & Hrun).
  apply bind_ok in Hrun as (code & s3 & Hcode & Hrun).
  apply bind_ok in Hrun as (normalized & s4 & [_ ->]%lift_ok & Hrun).
  apply bind_ok in Hrun as (? & s4 & [_ ->]%lift_ok & Hrun).
  apply bind_ok in Hrun as (? & s4 & [-> Hadm]%admit_device_ok & Hrun).
  apply bind_ok in Hrun as (? & s4 & [-> ->]%now_ok & Hrun).
  apply bind_ok in Hrun as (? & s4 & ->%put_ok & Hrun).
  apply bind_ok in Hrun as (? & s4 & ->%put_ok & [_ ->]%ret_ok).
  assert (H3 : ∀ k, s3.(St.db) !! ("devices", k) = s.(St.db) !! ("devices", k)).
  { intros k. rewrite (touches_at [] _ _ _ _ _ _ Hcode), (touches_at [] _ _ _ _ _ _ Hdc) by bucket.
    apply (touches_at ["assertion_replays"] _ _ _ _ _ _ Hauth). bucket. }
  eexists (digest device_code), _. split_and!; [| | |intros k; cbn [St.db St.set_db];
    rewrite lookup_insert_ne by done]; cycle 3.
  - destruct (decide (k = digest device_code)) as [->|Hk].
    + rewrite !lookup_insert_eq. reflexivity.
    + rewrite !lookup_insert_ne by congruence. apply H3.
  - reflexivity.
  - reflexivity.
  - eapply Nat.le_lt_trans; [|exact Hadm]. apply bucket_size_mono. intros k. by rewrite H3.
Qed.
End starting.

(** ** The life of a device

    One step is an operation of the flow, run as the server runs it, or anything
    else that leaves the devices alone or drops some of them (other operations,
    the clean-up, time). *)

Section life.
Context {E : Env}.
Implicit Types (r : TokenRequest.t) (s : St.t) (d : Device.t) (ses : Session.t).

Inductive device_step : St.t → St.t → Prop :=
| step_start fuel r s x s' : write (device_start fuel r) s = (x, s') → device_step s s'
| step_decide authority code approve s x s' :
    write (decide_device authority code approve) s = (x, s') → device_step s s'
| step_poll r s x s' : write_flat (exchange_device r) s = (x, s') → device_step s s'
| step_other s s' :
    (∀ k, s'.(St.db) !! ("devices", k) = s.(St.db) !! ("devices", k)
          ∨ s'.(St.db) !! ("devices", k) = None) →
    device_step s s'.

(** How one stored device can come about in one step. *)
Inductive device_origin s s' (k : string) d' : Prop :=
| origin_kept d : s.(St.db) !! ("devices", k) = Some (RDevice d) → d.(Device.status) = d'.(Device.status) →
    device_origin s s' k d'
| origin_started : d'.(Device.status) = Pending →
    (bucket_size "devices" s.(St.db) < MAX_RETAINED_DEVICES)%nat → device_origin s s' k d'
| origin_decided authority code approve ses review channel d :
    decision_session authority s = (Ok (ses, review, channel), s) →
    decided_by s s' ses review code approve k d →
    d' = Device.decided d (if approve then Approved ses.(Session.identity) else Denied) →
    device_origin s s' k d'.

Lemma write_cases {A} (m : tx A) s x s' :
  write m s = (x, s') → (∃ a, x = Ok a ∧ m s = (Ok a, s')) ∨ s'.(St.db) = s.(St.db).
Proof. unfold write. destruct (m s) as [[a|e] s1]; intros [= <- <-]; [left; eauto|by right]. Qed.

Lemma write_flat_cases {A} (m : tx (Result A)) s x s' :
  write_flat m s = (x, s') → m s = (Ok x, s') ∨ s'.(St.db) = s.(St.db).
Proof.
  unfold write_flat. destruct (write m s) as [[y|e] s1] eqn:Hw; intros [= <- <-].
  - left. exact (proj1 (write_ok _ _ _ _) Hw).
  - right. exact (write_err _ _ _ _ Hw).
Qed.

(** What a poll does to any stored device: it stays, goes, or its timing moves. *)
Lemma poll_devices r s x s' k :
  exchange_device r s = (Ok x, s') →
  s'.(St.db) !! ("devices", k) = s.(St.db) !! ("devices", k) ∨ s'.(St.db) !! ("devices", k) = None
  ∨ ∃ d t iv, s.(St.db) !! ("devices", k) = Some (RDevice d)
      ∧ s'.(St.db) !! ("devices", k) = Some (RDevice (Device.polled d t iv)).
Proof.
  intros (client & code & d & s1 & Hauth & _ & _ & Hrow & _ & _ & Hcase)%exchange_device_steps.
  assert (H1 : ∀ k, s1.(St.db) !! ("devices", k) = s.(St.db) !! ("devices", k)).
  { intros k'. apply (touches_at ["assertion_replays"] _ _ _ _ _ _ Hauth). bucket. }
  assert (Hput : ∀ receipt t iv e s2, save_poll receipt (Device.polled d t iv) e
    (St.set_db s1 (<[("devices", digest code) := RDevice (Device.polled d t iv)]> s1.(St.db)))
      = (Ok (), s2) →
    s2.(St.db) !! ("devices", k) = s.(St.db) !! ("devices", k)
    ∨ ∃ d t iv, s.(St.db) !! ("devices", k) = Some (RDevice d)
        ∧ s2.(St.db) !! ("devices", k) = Some (RDevice (Device.polled d t iv))).
  { intros receipt t iv e s2 Hsave. rewrite (touches_at [DEVICE_POLL_RECEIPTS] _ _ _ _ _ _ Hsave) by bucket.
    cbn [St.db St.set_db]. destruct (decide (k = digest code)) as [->|Hk].
    - rewrite lookup_insert_eq. right. by exists d, t, iv.
    - rewrite lookup_insert_ne, H1 by congruence. by left. }
  destruct Hcase as [(_ & -> & _)|(_ & receipt & _ & [(? & ? & _ & _ & _ & ->)|[_ Hpoll]])]; [auto..|].
  apply poll_device_ok in Hpoll as [(_ & _ & s2 & -> & Hs)|[_ Hst]]; [apply Hput in Hs; tauto|].
  destruct (Device.status d) as [|i|].
  - destruct Hst as (_ & s2 & -> & Hsave). apply Hput in Hsave. tauto.
  - destruct Hst as (out & _ & (_ & _ & _ & _ & _ & _ & _ & _ & _ & _ & _ & Hdel & _)%redeem_device_ok).
    rewrite Hdel. destruct (decide (k = digest code)) as [->|Hk]; [rewrite lookup_delete_eq; auto|].
    rewrite lookup_delete_ne, H1 by congruence. auto.
  - destruct Hst as [_ ->]. auto.
Qed.

Lemma device_step_origin s s' k d' :
  device_step s s' → s'.(St.db) !! ("devices", k) = Some (RDevice d') → device_origin s s' k d'.
Proof.
  assert (Hkeep : ∀ s s' k d', s'.(St.db) = s.(St.db) →
    s'.(St.db) !! ("devices", k) = Some (RDevice d') → device_origin s s' k d').
  { clear. intros s s' k d' -> Hd. by eapply origin_kept. }
  intros [fuel r t x t' Hw|authority code approve t x t' Hw|r t x t' Hw|t t' Hd] Hd'.
  - apply write_cases in Hw as [(a & -> & (key & d & Hp & _ & Hb & Hk)%device_start_ok)|?]; [|auto].
    rewrite Hk in Hd'. destruct (decide (k = key)) as [->|Hne].
    + rewrite lookup_insert_eq in Hd'. injection Hd' as <-. by apply origin_started.
    + rewrite lookup_insert_ne in Hd' by congruence. by eapply origin_kept.
  - apply write_cases in Hw as [(a & -> & (ses & rv & ch & Hs & Hc)%decide_device_ok)|?]; [|auto].
    destruct Hc as [->|(key & d & H)]; [auto|].
    pose proof (db_result _ _ _ _ _ _ _ _ H k) as Hk. rewrite Hk in Hd'.
    destruct (decide (k = key)) as [->|Hne].
    + rewrite lookup_insert_eq in Hd'. injection Hd' as <-. by eapply origin_decided.
    + rewrite lookup_insert_ne in Hd' by congruence. by eapply origin_kept.
  - apply write_flat_cases in Hw as [Hw|?]; [|auto].
    apply (poll_devices _ _ _ _ k) in Hw as [Hk|[Hk|(d & at_ & iv & Hk & Hk')]].
    + rewrite Hk in Hd'. by eapply origin_kept.
    + congruence.
    + rewrite Hk' in Hd'. injection Hd' as <-. by eapply origin_kept.
  - destruct (Hd k) as [Hk|Hk]; rewrite Hk in Hd'; [by eapply origin_kept|done].
Qed.

(** C32: whenever an approved device is stored, a person approved it: on every
    run from a store without approved devices, some decision of the run took
    this device from pending to approved, by a session whose identity is the one
    the device now carries, which had signed in recently, had reviewed this very
    request if it decided in a browser, and passed the policy of the client. *)
Theorem approved_by_decision s0 s k d i :
  rtc device_step s0 s →
  (∀ k d i, s0.(St.db) !! ("devices", k) = Some (RDevice d) → d.(Device.status) ≠ Approved i) →
  s.(St.db) !! ("devices", k) = Some (RDevice d) → d.(Device.status) = Approved i →
  ∃ s1 s2 authority code ses review channel d1,
    rtc device_step s0 s1 ∧ device_step s1 s2 ∧ rtc device_step s2 s
    ∧ decision_session authority s1 = (Ok (ses, review, channel), s1)
    ∧ decided_by s1 s2 ses review code true k d1 ∧ ses.(Session.identity) = i.
Proof.
  intros Hrun H0. revert s Hrun d. refine (rtc_ind_r _ s0 _ _).
  { intros d Hd Hi. destruct (H0 _ _ _ Hd Hi). }
  intros s s' Hrun Hstep IH d Hd Hi.
  destruct (device_step_origin _ _ _ _ Hstep Hd) as [d0 Hd0 Hst|Hp|au code ap ses rv ch d0 Hs Hdec ->].
  - destruct (IH d0 Hd0) as (s1 & s2 & au & code & ses & rv & ch & d1 & ? & ? & ? & ? & ? & ?);
      [congruence|].
    exists s1, s2, au, code, ses, rv, ch, d1. split_and!; try done. by eapply rtc_r.
  - congruence.
  - destruct ap; [|done]. injection Hi as <-.
    exists s, s', au, code, ses, rv, ch, d0. split_and!; try done.
Qed.

Lemma device_step_bounded s s' :
  device_step s s' → (bucket_size "devices" s.(St.db) ≤ MAX_RETAINED_DEVICES)%nat →
  (bucket_size "devices" s'.(St.db) ≤ MAX_RETAINED_DEVICES)%nat.
Proof.
  intros Hstep Hb.
  assert (Hmono : (∀ k, is_Some (s'.(St.db) !! ("devices", k)) → is_Some (s.(St.db) !! ("devices", k))) →
    (bucket_size "devices" s'.(St.db) ≤ MAX_RETAINED_DEVICES)%nat).
  { intros H. etrans; [by apply bucket_size_mono|done]. }
  destruct Hstep as [fuel r t x t' Hw|au code ap t x t' Hw|r t x t' Hw|t t' Hd].
  - apply write_cases in Hw as [(a & -> & (key & d & _ & _ & Hlt & Hk)%device_start_ok)|Hdb];
      [|apply Hmono; by rewrite Hdb].
    etrans; [apply (bucket_size_gain _ t.(St.db) _ key)|lia].
    intros k. rewrite Hk. destruct (decide (k = key)) as [->|]; [by left|].
    rewrite lookup_insert_ne by congruence. by right.
  - apply Hmono. intros k.
    apply write_cases in Hw as [(a & -> & (ses & rv & ch & Hs & Hc)%decide_device_ok)| ->]; [|done].
    destruct Hc as [->|(key & d & H)]; [done|]. rewrite (db_result _ _ _ _ _ _ _ _ H k).
    destruct (decide (k = key)) as [->|]; [rewrite (db_device _ _ _ _ _ _ _ _ H); eauto|].
    by rewrite lookup_insert_ne by congruence.
  - apply Hmono. intros k. apply write_flat_cases in Hw as [Hw| ->]; [|done].
    apply (poll_devices _ _ _ _ k) in Hw as [-> |[-> |(d & at_ & iv & -> & _)]];
      [done|by intros [? ?]|eauto].
  - apply Hmono. intros k [w Hw]. destruct (Hd k) as [Hk|Hk]; rewrite Hk in Hw; [eauto|done].
Qed.

(** At most 256 devices are kept: no run of the device flow, of the clean-up
    and of operations that add no device exceeds the bound. *)
Theorem devices_bounded s s' :
  rtc device_step s s' → (bucket_size "devices" s.(St.db) ≤ MAX_RETAINED_DEVICES)%nat →
  (bucket_size "devices" s'.(St.db) ≤ MAX_RETAINED_DEVICES)%nat.
Proof. induction 1 as [|s1 s2 s3 Hstep _ IH]; [done|]. intros Hb. by apply IH, (device_step_bounded s1). Qed.
End life.

(** ** Pacing *)

Section pacing.
Context {E : Env}.
Implicit Types (r : TokenRequest.t) (s : St.t) (d : Device.t).

(** A poll by an authenticated client for its own live device runs the receipt
    and the poll. *)
Lemma exchange_device_run r s client s1 code d :
  authenticate_client r false s = (Ok client, s1) → grant_allowed client DEVICE_GRANT = Ok () →
  r.(TokenRequest.device_code) = Some code → code ≠ "" →
  s.(St.db) !! ("devices", digest code) = Some (RDevice d) →
  d.(Device.client_id) = client.(Client.id) → s.(St.clock) < d.(Device.expires_at) →
  exchange_device r s
  = (receipt ← poll_receipt r client (digest code);
     replayed ← match receipt with Some rc => replay_poll rc d | None => mret None end;
     match replayed with
     | Some e => mret (Err e)
     | None => poll_device client r (digest code) d receipt
     end) s1.
Proof.
  intros Hauth Hg Hc Hne Hrow Hown Hlive.
  pose proof (touches_run ["assertion_replays"] _ _ _ _ Hauth) as (Hclk & _ & _ & Hdb).
  unfold exchange_device. rewrite (bind_step _ _ _ _ _ Hauth). cbv zeta.
  rewrite Hg. erewrite bind_step by reflexivity. rewrite Hc. unfold required, nonempty.
  destruct code as [|ch code]; [done|]. erewrite bind_step by reflexivity.
  erewrite bind_step by (eapply get_row; [rewrite Hdb by bucket; exact Hrow|reflexivity]).
  erewrite bind_step by reflexivity. rewrite Hown, String.eqb_refl.
  do 2 (erewrite bind_step by reflexivity). rewrite Hclk.
  by replace (Device.expires_at d <=? St.clock s) with false by lia.
Qed.

(** A poll before its time is answered with slow_down, whatever was decided:
    the answer is an error although the transaction commits, the device keeps its
    status and its interval grows by five seconds up to the width of the counter,
    and the next poll is measured from this one. *)
Theorem early_poll_slows_down r s x s' code d client s1 :
  authenticate_client r false s = (Ok client, s1) → grant_allowed client DEVICE_GRANT = Ok () →
  r.(TokenRequest.device_code) = Some code → code ≠ "" →
  s.(St.db) !! ("devices", digest code) = Some (RDevice d) →
  d.(Device.client_id) = client.(Client.id) → s.(St.clock) < d.(Device.expires_at) →
  s.(St.ctx) = None → too_early d s.(St.clock) = true →
  write_flat (exchange_device r) s = (x, s') →
  x = Err slow_down_error
  ∧ ∃ d', s'.(St.db) !! ("devices", digest code) = Some (RDevice d')
    ∧ d'.(Device.status) = d.(Device.status)
    ∧ d'.(Device.interval) = Z.min (d.(Device.interval) + 5) u64_max
    ∧ d'.(Device.last_poll_at) = Some s.(St.clock) ∧ d'.(Device.expires_at) = d.(Device.expires_at).
Proof.
  intros Hauth Hg Hc Hne Hrow Hown Hlive Hctx Hearly Hrun.
  pose proof (touches_run ["assertion_replays"] _ _ _ _ Hauth) as (Hclk & Hctx1 & _ & _).
  set (d' := Device.polled d s.(St.clock) (sat_add d.(Device.interval) 5)).
  assert (Hex : exchange_device r s = (Ok (Err slow_down_error),
    St.set_db s1 (<[("devices", digest code) := RDevice d']> s1.(St.db)))).
  { rewrite (exchange_device_run _ _ _ _ _ _ Hauth Hg Hc Hne Hrow Hown Hlive).
    unfold poll_receipt. erewrite bind_step; [|erewrite bind_step by reflexivity; rewrite Hctx1, Hctx; reflexivity].
    erewrite bind_step by reflexivity. unfold poll_device.
    do 2 (erewrite bind_step by reflexivity). cbv zeta. rewrite Hclk, Hearly.
    do 2 (erewrite bind_step by reflexivity). reflexivity. }
  unfold write_flat, write in Hrun. rewrite Hex in Hrun. injection Hrun as <- <-.
  split; [done|]. exists d'. cbn [St.db St.set_db]. rewrite lookup_insert_eq. done.
Qed.
End pacing.

(** ** Retries *)

Section retries.
Context {E : Env}.
Implicit Types (r : TokenRequest.t) (s : St.t) (d : Device.t).

Lemma get_client_run cid s c :
  s.(St.db) !! ("clients", cid) = Some (RClient c) → c.(Client.enabled) = true →
  get_client cid s = (Ok c, s).
Proof. intros Hc Hen. unfold get_client. tx_get. by rewrite Hen. Qed.

(** Without an assertion the same client authenticates again wherever its
    registration is stored. *)
Lemma authenticate_secret r b s c s1 :
  authenticate_client r b s = (Ok c, s1) →
  r.(TokenRequest.client_assertion) = None → r.(TokenRequest.client_assertion_type) = None →
  s1 = s ∧ ∀ s2, (∀ k, s2.(St.db) !! ("clients", k) = s.(St.db) !! ("clients", k)) →
    authenticate_client r b s2 = (Ok c, s2).
Proof.
  unfold authenticate_client. intros Hrun Ha Ht. rewrite Ha, Ht in *. simpl in Hrun.
  apply bind_ok in Hrun as (cid & s3 & [Hcid ->]%some_or_ok & Hrun).
  apply bind_ok in Hrun as (c' & s3 & (-> & Hc & Hen)%get_client_ok & Hrun).
  apply bind_ok in Hrun as (? & s3 & [Hm ->]%ensure_ok & Hrun).
  apply bind_ok in Hrun as (? & s3 & [Hs ->]%ensure_ok & [-> ->]%ret_ok).
  split; [done|]. intros s2 H2. rewrite Hcid. erewrite bind_step by reflexivity.
  rewrite <- H2 in Hc. rewrite (bind_step _ _ _ _ _ (get_client_run _ _ _ Hc Hen)).
  simpl. rewrite Hm, Hs. done.
Qed.

(** The receipt of a poll depends on the request and its context only. *)
Lemma poll_receipt_context r c k s o s' :
  poll_receipt r c k s = (Ok o, s') → ∀ s2, s2.(St.ctx) = s.(St.ctx) → poll_receipt r c k s2 = (Ok o, s2).
Proof.
  unfold poll_receipt. intros Hrun s2 Hctx.
  apply bind_ok in Hrun as (ctx & s1 & [-> ->]%current_ok & Hrun).
  rewrite (bind_step _ _ s2 s2.(St.ctx) s2) by reflexivity. rewrite Hctx.
  destruct (St.ctx s) as [x|]; [|by tx_inv]. destruct (RequestContext.idempotency_key x); [|by tx_inv].
  apply bind_ok in Hrun as (? & s1 & [Ha ->]%ensure_ok & Hrun).
  apply bind_ok in Hrun as (? & s1 & [Hf ->]%ensure_ok & [-> ->]%ret_ok).
  rewrite Ha, Hf. done.
Qed.
Lemma poll_receipt_no_assertion r c k s rc s' :
  poll_receipt r c k s = (Ok (Some rc), s') →
  r.(TokenRequest.client_assertion) = None ∧ r.(TokenRequest.client_assertion_type) = None
  ∧ ∃ fp, rc = DevicePollReceipt.mk rc.(DevicePollReceipt.key) (digest fp)
      (DevicePollAuthority.mk "oidc-device-poll-v1" c.(Client.id) (digest (client_string c)) k).
Proof.
  unfold poll_receipt. intros Hrun. tx_crush.
  match goal with H : negb (_ || _) = true |- _ =>
    apply negb_true_iff, orb_false_iff in H as [Ha%bool_decide_eq_false Ht%bool_decide_eq_false] end.
  split_and!; [by apply eq_None_not_Some..|]. by eexists.
Qed.

(** A poll with an idempotency key of a client for its own device, whose records
    are as the server writes them. *)
Record keyed_poll r s (client : Client.t) (code : string) d (rc : DevicePollReceipt.t) : Prop := {
  kp_digest v : poll_digest (digest v) = true;
  kp_client c s1 : authenticate_client r false s = (Ok c, s1) → c = client;
  kp_name : is_ok (validate_name client.(Client.id)) = true;
  kp_code : r.(TokenRequest.device_code) = Some code;
  kp_device : s.(St.db) !! ("devices", digest code) = Some (RDevice d);
  kp_expiry : u64 d.(Device.expires_at);
  kp_interval : 5 ≤ d.(Device.interval) ≤ u64_max ∧ d.(Device.interval) mod 5 = 0;
  kp_receipt : poll_receipt r client (digest code) s = (Ok (Some rc), s);
  kp_legacy : s.(St.db) !! ("receipts", rc.(DevicePollReceipt.key)) = None;
}.

(** The two answers a receipt keeps. *)
Definition kept_answer (name : string) (e : Error.t) : Prop :=
  (name, e) = ("authorization_pending", pending_error) ∨ (name, e) = ("slow_down", slow_down_error).

(** A stored receipt answers again. *)
Lemma replay_stored rc d s name e :
  s.(St.db) !! (DEVICE_POLL_RECEIPTS, rc.(DevicePollReceipt.key))
    = Some (RPollReceipt (stored_receipt rc d name)) →
  receipt_valid (stored_receipt rc d name) = true →
  u64 d.(Device.expires_at) → s.(St.clock) < d.(Device.expires_at) →
  kept_answer name e → replay_poll rc d s = (Ok (Some e), s).
Proof.
  intros Hrow Hv Hu Hlive Hname. unfold replay_poll, saved_result.
  assert (((stored_receipt rc d name).(StoredDevicePollReceipt.retain_until) <=? s.(St.clock)) = false)
    as Hret.
  { simpl. unfold sat_add, DEVICE_POLL_RETENTION_SECONDS, u64 in *. lia. }
  erewrite bind_step.
  2:{ erewrite bind_step by reflexivity.
      erewrite bind_step by (eapply get_row; [exact Hrow|reflexivity]). cbv beta iota.
      rewrite Hret. erewrite bind_step by reflexivity.
      simpl StoredDevicePollReceipt.fingerprint. rewrite String.eqb_refl.
      erewrite bind_step by reflexivity. simpl StoredDevicePollReceipt.permissions.
      rewrite bool_decide_eq_true_2 by done. erewrite bind_step by reflexivity.
      rewrite Hv. reflexivity. }
  cbv beta iota. unfold result_current. simpl StoredDevicePollReceipt.result. simpl.
  rewrite !Z.eqb_refl, String.eqb_refl, bool_decide_eq_true_2 by done. simpl.
  by destruct Hname as [[= -> ->]|[= -> ->]].
Qed.

(** The receipt behind an answer that was replayed. *)
Lemma replay_poll_ok rc d s e s' :
  replay_poll rc d s = (Ok (Some e), s') →
  s.(St.db) !! ("receipts", rc.(DevicePollReceipt.key)) = None →
  ∃ name, kept_answer name e
    ∧ s.(St.db) !! (DEVICE_POLL_RECEIPTS, rc.(DevicePollReceipt.key))
      = Some (RPollReceipt (stored_receipt rc d name))
    ∧ receipt_valid (stored_receipt rc d name) = true.
Proof.
  unfold replay_poll. intros Hrun Hno.
  apply bind_ok in Hrun as (o & s1 & Hsaved & Hrun). pose proof (pure_run _ _ _ _ Hsaved) as ->.
  unfold saved_result in Hsaved. apply bind_ok in Hsaved as (? & s1 & [-> ->]%now_ok & Hsaved).
  apply bind_ok in Hsaved as (saved & s1 & [-> Hrow]%get_ok & Hsaved).
  destruct saved as [saved|].
  2:{ apply bind_ok in Hsaved as (v & s1 & Hv & Hsaved). unfold replay_receipt in Hv.
      rewrite (bind_step _ _ _ None s) in Hv by (by apply get_none). simpl in Hv.
      apply ret_ok in Hv as [-> ->]. apply ret_ok in Hsaved as [-> _]. by apply ret_ok in Hrun as [? _]. }
  apply bind_ok in Hsaved as (? & s1 & [_ ->]%ensure_ok & Hsaved).
  apply bind_ok in Hsaved as (? & s1 & [Hfp%String.eqb_eq ->]%ensure_ok & Hsaved).
  apply bind_ok in Hsaved as (? & s1 & [Hp%bool_decide_eq_true ->]%ensure_ok & Hsaved).
  apply bind_ok in Hsaved as (? & s1 & [Hv ->]%ensure_ok & [-> _]%ret_ok).
  apply bind_ok in Hrun as (? & s1 & [Hcur ->]%ensure_ok & Hrun).
  unfold result_current in Hcur. apply andb_true_iff in Hcur as [[[H1 H2]%andb_true_iff H3]%andb_true_iff H4].
  apply Z.eqb_eq in H1, H3. apply bool_decide_eq_true in H2. apply String.eqb_eq in H4.
  pose proof Hv as Hret. unfold receipt_valid in Hret. apply andb_true_iff in Hret as [_ Hret%Z.eqb_eq].
  destruct saved as [fp perms [name last iv sh ex] ret]. simpl in *. subst.
  exists name. split_and!; [|exact Hrow|exact Hv].
  unfold kept_answer. destruct (String.eqb_spec name "authorization_pending") as [->|_].
  - apply ret_ok in Hrun as [[= ->] _]. by left.
  - destruct (String.eqb_spec name "slow_down") as [->|_]; [|done].
    apply ret_ok in Hrun as [[= ->] _]. by right.
Qed.

(** The receipt a poll writes is valid. *)
Lemma stored_receipt_valid r s client code d rc t iv name e :
  keyed_poll r s client code d rc → t < d.(Device.expires_at) →
  5 ≤ iv → iv mod 5 = 0 → kept_answer name e →
  receipt_valid (stored_receipt rc (Device.polled d t iv) name) = true.
Proof.
  intros K Ht Hiv Hmod Hname. pose proof (kp_digest _ _ _ _ _ _ K) as Hd.
  destruct (poll_receipt_no_assertion _ _ _ _ _ _ (kp_receipt _ _ _ _ _ _ K)) as (_ & _ & fp & ->).
  unfold receipt_valid, valid_poll_record, stored_receipt, device_poll_status_hash. simpl.
  rewrite !Hd, (kp_name _ _ _ _ _ _ K), Z.eqb_refl, Hmod. simpl.
  replace (5 <=? iv) with true by lia. replace (t <? Device.expires_at d) with true by lia.
  by destruct Hname as [[= -> ->]|[= -> ->]].
Qed.

Lemma sat_add_five iv : 5 ≤ iv ≤ u64_max → iv mod 5 = 0 → 5 ≤ sat_add iv 5 ∧ sat_add iv 5 mod 5 = 0.
Proof.
  unfold sat_add. intros ? Hm. destruct (Z.min_spec (iv + 5) u64_max) as [[? ->]|[? ->]].
  - split; [lia|]. by rewrite <- Z.add_mod_idemp_r, Z_mod_same_full, Z.add_0_r by done.
  - split; [lia|reflexivity].
Qed.

(** A poll with an idempotency key is idempotent: whatever time has passed
    within the life of the device code, the exact same request sent again, with
    nothing in between, is answered with the same error and changes nothing; in
    particular the retry does not count as a second, too early poll. *)
Theorem poll_retry_idempotent r s e s1 s2 client code d rc :
  keyed_poll r s client code d rc →
  exchange_device r s = (Ok (Err e), s1) → e = pending_error ∨ e = slow_down_error →
  s2.(St.db) = s1.(St.db) → s2.(St.ctx) = s.(St.ctx) → s2.(St.clock) < d.(Device.expires_at) →
  exchange_device r s2 = (Ok (Err e), s2).
Proof.
  intros K Hex He Hdb Hctx Hlive2.
  apply exchange_device_steps in Hex as (c & code' & d' & s3 & Hauth & Hg & [Hc Hne] & Hrow & Hown & _ & Hcase).
  pose proof (kp_client _ _ _ _ _ _ K _ _ Hauth) as ->.
  rewrite (kp_code _ _ _ _ _ _ K) in Hc. injection Hc as <-.
  rewrite (kp_device _ _ _ _ _ _ K) in Hrow. injection Hrow as <-.
  pose proof (kp_receipt _ _ _ _ _ _ K) as Hrec.
  destruct (poll_receipt_no_assertion _ _ _ _ _ _ Hrec) as (Ha & Hat & _).
  destruct (authenticate_secret _ _ _ _ _ Hauth Ha Hat) as [-> Hagain].
  destruct Hcase as [(_ & _ & [= ->])|(Hlive & rc' & Hrec' & Hcase)]; [by destruct He|].
  rewrite Hrec in Hrec'. injection Hrec' as <-.
  (* it is enough that the store holds a device the receipt answers for *)
  assert (Hfinish : ∀ d2 name, kept_answer name e →
    s2.(St.db) !! ("devices", digest code) = Some (RDevice d2) →
    s2.(St.db) !! (DEVICE_POLL_RECEIPTS, rc.(DevicePollReceipt.key))
      = Some (RPollReceipt (stored_receipt rc d2 name)) →
    receipt_valid (stored_receipt rc d2 name) = true →
    (∀ k, s1.(St.db) !! ("clients", k) = s.(St.db) !! ("clients", k)) →
    d2.(Device.client_id) = d.(Device.client_id) → d2.(Device.expires_at) = d.(Device.expires_at) →
    exchange_device r s2 = (Ok (Err e), s2)).
  { intros d2 name Hk Hd2 Hr2 Hv Hcl Ho Hx.
    rewrite (exchange_device_run r s2 client s2 code d2);
      [|apply Hagain; intros k; by rewrite Hdb|done|apply K|done|done|congruence|by rewrite Hx].
    rewrite (bind_step _ _ _ _ _ (poll_receipt_context _ _ _ _ _ _ Hrec _ Hctx)). cbv beta iota.
    rewrite (bind_step _ _ s2 (Some e) s2); [reflexivity|].
    eapply replay_stored; try done; rewrite Hx; [apply K|done]. }
  destruct Hcase as [(rc' & e' & [= <-] & Hrep & [= <-] & ->)|[_ Hpoll]].
  - apply replay_poll_ok in Hrep as (name & Hk & Hr & Hv); [|apply K].
    eapply (Hfinish d name); rewrite ?Hdb; try done. apply K.
  - pose proof (kp_interval _ _ _ _ _ _ K) as [Hiv Hmod].
    assert (Hput : ∀ iv name, 5 ≤ iv → iv mod 5 = 0 → kept_answer name e →
      save_poll (Some rc) (Device.polled d s.(St.clock) iv) name
        (St.set_db s (<[("devices", digest code) := RDevice (Device.polled d s.(St.clock) iv)]> s.(St.db)))
        = (Ok (), s1) → exchange_device r s2 = (Ok (Err e), s2)).
    { intros iv name Hi Hm Hk Hsave. apply put_ok in Hsave as ->.
      eapply (Hfinish (Device.polled d s.(St.clock) iv) name); rewrite ?Hdb; try done; cbn [St.db St.set_db].
      - rewrite lookup_insert_ne by done. apply lookup_insert_eq.
      - apply lookup_insert_eq.
      - by eapply stored_receipt_valid.
      - intros k. by rewrite !lookup_insert_ne. }
    apply poll_device_ok in Hpoll as [(_ & [= ->] & ? & -> & Hs)|[_ Hst]].
    + apply (Hput _ _ (proj1 (sat_add_five _ Hiv Hmod)) (proj2 (sat_add_five _ Hiv Hmod))) in Hs;
        [done|by right].
    + destruct (Device.status d); [|by destruct Hst as (? & [=] & _)|].
      * destruct Hst as ([= ->] & ? & -> & Hs). eapply Hput; [| | |exact Hs]; [lia|done|by left].
      * destruct Hst as [[= ->] _]. by destruct He.
Qed.
End retries.

(** ** Drawing a user code *)

Section user_codes.
Context {E : Env}.
Implicit Types (s : St.t).

(** The alphabet of [crypto::user_code]; its draws are ten characters of it. *)
Definition ALPHABET : string := "BCDFGHJKLMNPQRSTVWXYZ23456789".
Definition raw_user_code (raw : string) : bool :=
  (String.length raw =? 10)%nat && forallb (λ c, Str.contains_byte c ALPHABET) (Str.bytes raw).

Lemma alphabet_char c :
  Str.contains_byte c ALPHABET = true →
  negb (Ascii.eqb c "-"%char) && negb (Ascii.eqb c " "%char) = true
  ∧ Str.to_ascii_uppercase_byte c = c ∧ Str.is_ascii_alphanumeric c = true.
Proof.
  intros (b & Hin & <-%Ascii.eqb_eq)%existsb_exists. simpl in Hin.
  repeat destruct Hin as [<-|Hin]; vm_compute; done.
Qed.

(** The code a draw shows normalizes to the characters drawn. *)
Lemma normalize_drawn raw :
  raw_user_code raw = true →
  normalize_code (String.substring 0 5 raw +:+ "-" +:+ String.substring 5 (String.length raw - 5) raw)
  = Ok raw.
Proof.
  unfold raw_user_code. intros [Hl%Nat.eqb_eq Hc]%andb_true_iff.
  do 10 (destruct raw as [|? raw]; [done|]). destruct raw; [|done]. simpl in Hc.
  repeat (apply andb_true_iff in Hc as [(? & ? & ?)%alphabet_char Hc]).
  unfold normalize_code. simpl. repeat match goal with H : _ && _ = true |- _ => rewrite H; clear H end.
  simpl. repeat match goal with H : Str.to_ascii_uppercase_byte _ = _ |- _ => rewrite H; clear H end.
  simpl. by repeat match goal with H : Str.is_ascii_alphanumeric _ = true |- _ => rewrite H; clear H end.
Qed.

Definition users_decode s : Prop :=
  ∀ k w, s.(St.db) !! ("device_users", k) = Some w → ∃ v, w = RString v.

(** The draws either reach a free code or were all taken. *)
Lemma fresh_user_code_draws fuel s :
  (∀ n, raw_user_code (random_user_code n) = true) → users_decode s →
  (∃ code s' normalized, fresh_user_code fuel s = (Ok code, s') ∧ s'.(St.db) = s.(St.db)
     ∧ normalize_code code = Ok normalized
     ∧ s.(St.db) !! ("device_users", digest normalized) = None)
  ∨ ∀ i, (i < fuel)%nat →
      is_Some (s.(St.db) !! ("device_users", digest (random_user_code (s.(St.rng) + i)))).
Proof.
  intros Hraw. revert s. induction fuel as [|fuel IH]; intros s Hdec; [right; lia|].
  pose proof (normalize_drawn _ (Hraw s.(St.rng))) as Hn. simpl.
  set (s1 := St.mk s.(St.db) s.(St.clock) (S s.(St.rng)) s.(St.ctx)).
  erewrite (bind_step _ _ s _ s1) by reflexivity. rewrite Hn.
  erewrite (bind_step _ _ s1 _ s1) by reflexivity.
  destruct (s.(St.db) !! ("device_users", digest (random_user_code s.(St.rng)))) as [w|] eqn:Hrow.
  - destruct (Hdec _ _ Hrow) as [v ->].
    rewrite (bind_step _ _ s1 (Some v) s1) by (eapply get_row; [exact Hrow|done]).
    destruct (IH s1 Hdec) as [?|Hall]; [by left|right].
    intros [|i] Hi; [rewrite Nat.add_0_r, Hrow; eauto|]. rewrite <- Nat.add_succ_comm. apply Hall. lia.
  - rewrite (bind_step _ _ s1 None s1) by (by apply get_none). left. by do 3 eexists.
Qed.

(** The loop that draws user codes ends: with more draws than there are user
    codes in use, if these draws are distinct, a code nobody uses is found, and
    nothing is changed. *)
Theorem fresh_user_code_terminates fuel s :
  (∀ n, raw_user_code (random_user_code n) = true) → users_decode s →
  (∀ i j, (i < fuel)%nat → (j < fuel)%nat →
     digest (random_user_code (s.(St.rng) + i)) = digest (random_user_code (s.(St.rng) + j)) → i = j) →
  (bucket_size "device_users" s.(St.db) < fuel)%nat →
  ∃ code s' normalized, fresh_user_code fuel s = (Ok code, s') ∧ s'.(St.db) = s.(St.db)
    ∧ normalize_code code = Ok normalized
    ∧ s.(St.db) !! ("device_users", digest normalized) = None.
Proof.
  intros Hraw Hdec Hinj Hsize. destruct (fresh_user_code_draws fuel s Hraw Hdec) as [?|Hall]; [done|].
  exfalso. set (ks := (λ i, digest (random_user_code (s.(St.rng) + i))) <$> seq 0 fuel).
  assert (length ks = fuel) as Hl by (subst ks; by rewrite length_fmap, length_seq).
  apply (Nat.lt_irrefl fuel). rewrite <- Hl at 1. eapply Nat.le_lt_trans; [|exact Hsize].
  apply bucket_size_le.
  - apply NoDup_fmap_2_strong; [|apply NoDup_seq]. intros i j Hi%elem_of_seq Hj%elem_of_seq ?.
    apply Hinj; [lia..|done].
  - intros k (i & -> & Hi%elem_of_seq)%list_elem_of_fmap. apply Hall. lia.
Qed.
End user_codes.

(** ** Concrete runs *)

Module DeviceDemo.
#[local] Existing Instance Demo.env.

Definition request (device_code : option string) : TokenRequest.t :=
  TokenRequest.mk "" (Some "crm") (Some "s3cret") None None None None device_code (Some "openid profile")
    None None None None None None None None None None None None None None false.
Definition poll_request : TokenRequest.t := request (Some "ri_device_r0").

(** A signed-in person, a device that asks, a person who approves, a token. *)
Definition state : St.t :=
  St.set_db FlowDemo.state (<[("session_tokens", "#tok") := RString "sess-1"]> FlowDemo.db).
Definition started : St.t := EndpointDemo.run (device_start 2 (request None)) state.
Definition code : string := "CCDFG-HJKLM".
Definition decide (approve : bool) : tx json := decide_device (Bearer "tok") code approve.
Definition approved : St.t := EndpointDemo.run (decide true) started.
Definition polled : St.t := EndpointDemo.run (exchange_device poll_request) started.
Definition redeemed : St.t := EndpointDemo.run (exchange_device poll_request) approved.

Definition device (status : DeviceStatus) (last : option Z) : Device.t :=
  Device.mk None "crm" "#CCDFGHJKLM" {["openid"; "profile"]} 1600 last 5 status.

Example start_runs :
  started.(St.db) !! ("devices", "#ri_device_r0") = Some (RDevice (device Pending None)).
Proof. vm_compute. reflexivity. Qed.
Example decide_runs :
  approved.(St.db) !! ("devices", "#ri_device_r0")
  = Some (RDevice (device (Approved FlowDemo.identity) None)).
Proof. vm_compute. reflexivity. Qed.
Example redeem_runs :
  is_ok (EndpointDemo.value (Err Error.internal) (exchange_device poll_request) approved) = true.
Proof. vm_compute. reflexivity. Qed.
Example pending_runs :
  EndpointDemo.value (Ok JNull) (exchange_device poll_request) started = Err pending_error
  ∧ EndpointDemo.value (Ok JNull) (exchange_device poll_request) polled = Err slow_down_error.
Proof. vm_compute. split; reflexivity. Qed.

(** A public client whose polls carry an idempotency key. *)
Definition fixed : Env :=
  Demo.make Demo.digest_fixed (λ s, Some (JStr s)) (λ _, None) (λ _, None) (λ _ _ _ _, None).
Definition tv : Client.t :=
  Client.mk "tv" "TV" None [] {["openid"]} ∅ false true false ProviderSettings.default.
Definition tv_device : Device.t := Device.mk None "tv" "u" {["openid"]} 1600 None 5 Pending.
Definition tv_request : TokenRequest.t :=
  TokenRequest.mk "" (Some "tv") None None None None None (Some "d") None
    None None None None None None None None None None None None None None false.
Definition tv_state : St.t :=
  St.mk (<[("clients", "tv") := RClient tv]>
           {[("devices", Demo.digest_fixed "d") := RDevice tv_device]})
    1000 0 (Some (RequestContext.mk "rq" None (Some "key-1") "fp" None None None)).
Definition tv_receipt : DevicePollReceipt.t :=
  match @poll_receipt fixed tv_request tv (Demo.digest_fixed "d") tv_state with
  | (Ok (Some rc), _) => rc
  | _ => DevicePollReceipt.mk "" "" (DevicePollAuthority.mk "" "" "" "")
  end.
Definition tv_polled : St.t := EndpointDemo.run (@exchange_device fixed tv_request) tv_state.
(** The retry comes a minute later. *)
Definition tv_later : St.t := St.mk tv_polled.(St.db) 1060 7 tv_state.(St.ctx).

(** The code of the first draw is taken. *)
Definition taken : St.t := St.mk {[("device_users", "#BCDFGHJKLM") := RString "x"]} 1000 0 None.

Lemma fixed_digest v : @poll_digest fixed (Demo.digest_fixed v) = true.
Proof.
  unfold poll_digest. cbn [b64url_decode b64url_encode fixed Demo.make].
  assert (Hlen : ∀ n s t, (n ≤ String.length t)%nat →
    String.length (String.substring 0 n (s +:+ t)) = n
    ∧ String.substring 0 n (String.substring 0 n (s +:+ t)) = String.substring 0 n (s +:+ t)).
  { induction n as [|n IH]; intros s t Hl; [by destruct (s +:+ t)|].
    destruct s as [|c s]; simpl.
    - destruct t as [|c t]; [simpl in Hl; lia|]. simpl.
      destruct (IH "" t) as [H1 H2]; [simpl in Hl; lia|]. change ("" +:+ t) with t in *. by rewrite H1, H2.
    - destruct (IH s t) as [H1 H2]; [lia|]. by rewrite H1, H2. }
  destruct (Hlen 32%nat ("#" +:+ v) "________________________________") as [H1 H2]; [done|].
  unfold Demo.digest_fixed. unfold String.append in *. fold String.append in *.
  rewrite H2, String.eqb_refl, andb_true_r. unfold Str.len. by rewrite H1.
Qed.
End DeviceDemo.

Section witnesses.
#[local] Existing Instance Demo.env.
Import DeviceDemo.

Lemma device_token_sound_witness :
  ∃ client d i token a, device_redeemed poll_request approved redeemed "ri_device_r0" client d i token a.
Proof.
  destruct (device_token_sound poll_request approved
    (EndpointDemo.answer (exchange_device poll_request) approved) redeemed)
    as (c & client & d & i & token & a & _ & H).
  - vm_compute. reflexivity.
  - pose proof (dr_code _ _ _ _ _ _ _ _ _ H) as Hc. injection Hc as <-.
    exists client, d, i, token, a. exact H.
Defined.

Lemma device_code_one_use_witness :
  exchange_device poll_request redeemed ≠ (Ok (Ok (Json.obj [])), redeemed).
Proof.
  apply (device_code_one_use poll_request approved
    (EndpointDemo.answer (exchange_device poll_request) approved) redeemed).
  - vm_compute. reflexivity.
  - reflexivity.
  - reflexivity.
Defined.

Lemma device_decision_final_witness :
  ∃ ses review channel, decision_session (Bearer "tok") started = (Ok (ses, review, channel), started)
    ∧ decided_by started approved ses review code true "#ri_device_r0" (device Pending None).
Proof.
  destruct (device_decision_final (Bearer "tok") code true started
    (EndpointDemo.value JNull (decide true) started) approved "#ri_device_r0" (device Pending None))
    as [H|[_ H]].
  - vm_compute. reflexivity.
  - vm_compute. reflexivity.
  - exfalso. vm_compute in H. discriminate H.
  - exact H.
Defined.

Lemma state_started : rtc device_step state started.
Proof. eapply rtc_once, (step_start 2 (request None)). vm_compute. reflexivity. Defined.
Lemma no_devices k : state.(St.db) !! ("devices", k) = None.
Proof.
  unfold state, FlowDemo.db. cbn [St.db St.set_db]. rewrite !lookup_insert_ne by done.
  by rewrite lookup_singleton_ne.
Defined.

Lemma approved_by_decision_witness :
  ∃ s1 s2 c ses review d1, rtc device_step state s1
    ∧ decided_by s1 s2 ses review c true "#ri_device_r0" d1
    ∧ ses.(Session.identity) = FlowDemo.identity.
Proof.
  destruct (approved_by_decision state approved "#ri_device_r0" (device (Approved FlowDemo.identity) None)
    FlowDemo.identity) as (s1 & s2 & au & c & ses & rv & ch & d1 & H1 & _ & _ & _ & H2 & H3).
  - eapply rtc_r; [exact state_started|]. eapply (step_decide (Bearer "tok") code true).
    vm_compute. reflexivity.
  - intros k d i Hd. rewrite no_devices in Hd. discriminate Hd.
  - vm_compute. reflexivity.
  - reflexivity.
  - exists s1, s2, c, ses, rv, d1. split; [exact H1|]. split; [exact H2|exact H3].
Defined.

Lemma devices_bounded_witness : (bucket_size "devices" started.(St.db) ≤ MAX_RETAINED_DEVICES)%nat.
Proof.
  apply (devices_bounded state started).
  - exact state_started.
  - apply Nat.leb_le. vm_compute. reflexivity.
Defined.

Lemma early_poll_slows_down_witness :
  ∃ d', (write_flat (exchange_device poll_request) polled).2.(St.db) !! ("devices", "#ri_device_r0")
      = Some (RDevice d') ∧ d'.(Device.interval) = 10.
Proof.
  destruct (early_poll_slows_down poll_request polled (Err slow_down_error)
    (write_flat (exchange_device poll_request) polled).2 "ri_device_r0" (device Pending (Some 1000))
    FlowDemo.client polled) as (_ & d' & Hd & _ & Hi & _).
  - vm_compute. reflexivity.
  - vm_compute. reflexivity.
  - reflexivity.
  - discriminate.
  - vm_compute. reflexivity.
  - reflexivity.
  - vm_compute. reflexivity.
  - vm_compute. reflexivity.
  - vm_compute. reflexivity.
  - vm_compute. reflexivity.
  - exists d'. split; [exact Hd|exact Hi].
Defined.

Lemma poll_retry_idempotent_witness :
  @exchange_device fixed tv_request tv_later = (Ok (Err pending_error), tv_later).
Proof.
  apply (@poll_retry_idempotent fixed tv_request tv_state pending_error tv_polled tv_later tv "d" tv_device
    tv_receipt).
  - constructor.
    + exact fixed_digest.
    + intros c s1 H. vm_compute in H. injection H as <- _. reflexivity.
    + vm_compute. reflexivity.
    + reflexivity.
    + vm_compute. reflexivity.
    + vm_compute. split; discriminate.
    + split; [|reflexivity]. vm_compute. split; discriminate.
    + vm_compute. reflexivity.
    + vm_compute. reflexivity.
  - vm_compute. reflexivity.
  - left. reflexivity.
  - reflexivity.
  - reflexivity.
  - vm_compute. reflexivity.
Defined.

Lemma fresh_user_code_terminates_witness :
  ∃ c s' normalized, fresh_user_code 3 taken = (Ok c, s') ∧ normalize_code c = Ok normalized.
Proof.
  destruct (fresh_user_code_terminates 3 taken) as (c & s' & n & H & _ & Hn & _).
  - intros n. cbn [random_user_code Demo.env Demo.make]. unfold Demo.user_code_text.
    assert (Hm : (n mod 29 < 29)%nat) by (apply Nat.mod_upper_bound; discriminate).
    revert Hm. generalize (n mod 29)%nat. intros m Hm.
    do 29 (destruct m as [|m]; [reflexivity|]). exfalso. lia.
  - intros k w Hw. unfold taken in Hw. cbn [St.db] in Hw. apply lookup_singleton_Some in Hw as [_ <-]. exists "x". reflexivity.
  - intros i j Hi Hj.
    destruct i as [|[|[|i]]]; [| | |exfalso; lia]; destruct j as [|[|[|j]]]; try (exfalso; lia);
      vm_compute; congruence.
  - apply Nat.ltb_lt. vm_compute. reflexivity.
  - exists c, s', n. split; [exact H|exact Hn].
Defined.
End witnesses.
