(* ===== verification/Logout.v ===== *)
(** * Logout: relying-party sessions and their notifications
    (src/src/identity/logout_queue.rs, assembly/logout.rs)

    When a session, an account or a client ends, every relying-party session that
    matches is marked ended, page by page, and a back-channel notification is
    queued for it.  A worker claims a notification for a minute, pins it right
    before it sends, and records the outcome; a failure is retried later. *)

From S2P Require Import Prelude Json Model Store Env Provider Oidc.

#[local] Set Warnings "-clear-no-such-hyp".

(** RP sessions read per page. *)
Definition PAGE : nat := 128.
Arguments PAGE : simpl never.
Definition LOGOUT_LEASE_SECONDS : Z := 60.

Definition end_session_row (rp : RpSession.t) : RpSession.t :=
  RpSession.mk rp.(RpSession.sid) rp.(RpSession.session_id) rp.(RpSession.user_id)
    rp.(RpSession.subject) rp.(RpSession.client_id) rp.(RpSession.created_at)
    rp.(RpSession.expires_at) true.

Section queue.
Context {E : Env}.

(** The notification a client with a back-channel address gets. *)
Definition queue_delivery (rp : RpSession.t) : tx unit :=
  client ← get Client.t "clients" rp.(RpSession.client_id);
  match client ≫= λ c, c.(Client.settings).(ProviderSettings.backchannel_logout_uri) with
  | Some uri =>
      did ← id;
      at_ ← now;
      put "logout_deliveries" did
        (LogoutDelivery.mk did rp.(RpSession.client_id) rp.(RpSession.sid) rp.(RpSession.subject)
           uri at_ at_ 0 None None false None None)
  | None => mret ()
  end.

(** One row of a page. *)
Definition end_matching (matches : RpSession.t → bool) (ended : Z) (kr : string * RpSession.t) : tx Z :=
  let rp := kr.2 in
  if negb (matches rp) || rp.(RpSession.ended) then mret ended
  else
    _ ← put "rp_sessions" rp.(RpSession.sid) (end_session_row rp);
    _ ← queue_delivery rp;
    mret (wadd ended 1).

(** The loop over the pages, [fuel] pages at most. *)
Fixpoint queue_pages (fuel : nat) (matches : RpSession.t → bool) (after : option string) (ended : Z) :
    tx Z :=
  match fuel with
  | O => fail Error.internal
  | S fuel =>
      page ← scan RpSession.t "rp_sessions" after PAGE;
      match last page with
      | None => mret ended
      | Some (key, _) =>
          ended ← fold_m (end_matching matches) ended page;
          queue_pages fuel matches (Some key) ended
      end
  end.
(** One page more than there are rows is enough. *)
Definition queue_matching (matches : RpSession.t → bool) : tx Z := λ s,
  queue_pages (S (bucket_size "rp_sessions" s.(St.db))) matches None 0 s.

Definition queue_session (session_id : string) : tx unit :=
  _ ← queue_matching (λ rp, String.eqb rp.(RpSession.session_id) session_id); mret ().
Definition queue_client (client_id : string) : tx unit :=
  _ ← queue_matching (λ rp, String.eqb rp.(RpSession.client_id) client_id); mret ().
Definition queue_all : tx Z := queue_matching (λ _, true).
Definition queue_user (user_id : string) : tx unit :=
  _ ← queue_matching (λ rp, String.eqb rp.(RpSession.user_id) user_id); mret ().
Definition queue_user_client (user_id client_id : string) : tx unit :=
  _ ← queue_matching (λ rp, String.eqb rp.(RpSession.user_id) user_id
                            && String.eqb rp.(RpSession.client_id) client_id); mret ().

(** ** Delivering *)

Definition set_claim (d : LogoutDelivery.t) (next attempts : Z) (lease : option string)
    (started : option bool) : LogoutDelivery.t :=
  LogoutDelivery.mk d.(LogoutDelivery.id) d.(LogoutDelivery.client_id) d.(LogoutDelivery.sid)
    d.(LogoutDelivery.subject) d.(LogoutDelivery.uri) d.(LogoutDelivery.created_at) next attempts
    d.(LogoutDelivery.delivered_at) d.(LogoutDelivery.last_status) d.(LogoutDelivery.last_failed)
    lease started.

(** The claims of the logout token of a delivery. *)
Definition logout_claims (client : Client.t) (d : LogoutDelivery.t) (at_ : Z) : json :=
  Json.obj [("iss", JStr (issuer_for_client client)); ("aud", JStr d.(LogoutDelivery.client_id));
            ("sub", JStr d.(LogoutDelivery.subject)); ("sid", JStr d.(LogoutDelivery.sid));
            ("iat", JNum at_); ("exp", JNum (wadd at_ 120)); ("jti", JStr d.(LogoutDelivery.id));
            ("events", Json.obj [("http://schemas.openid.net/event/backchannel-logout", Json.obj [])])].

(** One due row of [claim_logout_deliveries]: the delivery with its new lease and
    the token to send, or nothing when the row is not claimed. *)
Definition claim_delivery (key : string) (d : LogoutDelivery.t) :
    tx (option (LogoutDelivery.t * SigningKey.t * json)) :=
  at_ ← now;
  if bool_decide (is_Some d.(LogoutDelivery.delivered_at)) || (at_ <? d.(LogoutDelivery.next_attempt))
  then mret None
  else if sat_add d.(LogoutDelivery.created_at) 86400 <? at_ then
    _ ← put "logout_deliveries" key (set_claim d u64_max d.(LogoutDelivery.attempts) None None);
    mret None
  else
    lease ← id;
    let d := set_claim d (sat_add at_ LOGOUT_LEASE_SECONDS)
               ((d.(LogoutDelivery.attempts) + 1) mod 2 ^ 32) (Some lease) None in
    client ← get Client.t "clients" d.(LogoutDelivery.client_id);
    client ← some_or client (Error.bad "Logout client is missing");
    keys ← keys_for_client client;
    _ ← put "logout_deliveries" key d;
    mret (Some (d, keys.(Keys.active), logout_claims client d at_)).

Definition begin_logout_dispatch (key lease : string) : tx bool :=
  if Str.is_empty lease then mret false
  else
    d ← get LogoutDelivery.t "logout_deliveries" key;
    at_ ← now;
    match d with
    | None => mret false
    | Some d =>
        if bool_decide (is_Some d.(LogoutDelivery.delivered_at))
           || negb (bool_decide (d.(LogoutDelivery.lease) = Some lease))
           || bool_decide (d.(LogoutDelivery.dispatch_started) = Some true)
           || (d.(LogoutDelivery.next_attempt) <=? at_)
        then mret false
        else
          _ ← put "logout_deliveries" key
                (set_claim d d.(LogoutDelivery.next_attempt) d.(LogoutDelivery.attempts)
                   d.(LogoutDelivery.lease) (Some true));
          mret true
    end.

(** [(2u64.saturating_pow(n.min(12))).min(3600)]. *)
Definition backoff (attempts : Z) : Z := Z.min (2 ^ Z.min attempts 12) 3600.
Definition accepted (status : option Z) : bool :=
  match status with Some c => (200 <=? c) && (c <? 300) | None => false end.
Definition finish_logout_delivery (key : string) (attempt : Z) (status : option Z) : tx unit :=
  d ← get LogoutDelivery.t "logout_deliveries" key;
  match d with
  | None => mret ()
  | Some d =>
      if negb (d.(LogoutDelivery.attempts) =? attempt) || bool_decide (is_Some d.(LogoutDelivery.delivered_at))
      then mret ()
      else
        at_ ← now;
        put "logout_deliveries" key
          (LogoutDelivery.mk d.(LogoutDelivery.id) d.(LogoutDelivery.client_id) d.(LogoutDelivery.sid)
             d.(LogoutDelivery.subject) d.(LogoutDelivery.uri) d.(LogoutDelivery.created_at)
             (if accepted status then d.(LogoutDelivery.next_attempt)
              else wadd at_ (backoff d.(LogoutDelivery.attempts)))
             d.(LogoutDelivery.attempts)
             (if accepted status then Some at_ else d.(LogoutDelivery.delivered_at))
             status (negb (accepted status)) None None)
  end.
End queue.

(** ** What the operations change *)

Section frames.
Context {E : Env}.

#[global] Instance touches_queue_delivery rp : Touches ["logout_deliveries"] (queue_delivery rp).
Proof. unfold queue_delivery. solve_touches. Qed.
#[global] Instance touches_end_matching f n kr :
  Touches ["rp_sessions"; "logout_deliveries"] (end_matching f n kr).
Proof.
  unfold end_matching. cbv zeta. case_match; [solve_touches|].
  apply touches_bind; [solve_touches|]. intros []. apply touches_bind; [|solve_touches].
  apply (touches_mono ["logout_deliveries"]); [set_solver|apply _].
Qed.
Lemma touches_queue_pages fuel f after n :
  Touches ["rp_sessions"; "logout_deliveries"] (queue_pages fuel f after n).
Proof.
  revert after n. induction fuel as [|fuel IH]; intros after n; simpl; [solve_touches|].
  apply touches_bind; [solve_touches|]. intros page. case_match; [|solve_touches]. case_match.
  apply touches_bind; [|intros; apply IH]. apply touches_fold_m. intros. apply _.
Qed.
#[global] Instance touches_queue_matching f :
  Touches ["rp_sessions"; "logout_deliveries"] (queue_matching f).
Proof. intros s. apply touches_queue_pages. Qed.
#[global] Instance touches_queue_user u :
  Touches ["rp_sessions"; "logout_deliveries"] (queue_user u).
Proof. unfold queue_user. apply touches_bind; [apply _|]. solve_touches. Qed.
#[global] Instance touches_claim_delivery k d : Touches ["logout_deliveries"] (claim_delivery k d).
Proof. unfold claim_delivery. cbv zeta. solve_touches. Qed.
#[global] Instance touches_begin_dispatch k l : Touches ["logout_deliveries"] (begin_logout_dispatch k l).
Proof. unfold begin_logout_dispatch. solve_touches. Qed.
#[global] Instance touches_finish_delivery k a st : Touches ["logout_deliveries"] (finish_logout_delivery k a st).
Proof. unfold finish_logout_delivery. solve_touches. Qed.
#[global] Instance touches_queue_session u :
  Touches ["rp_sessions"; "logout_deliveries"] (queue_session u).
Proof. unfold queue_session. apply touches_bind; [apply _|]. solve_touches. Qed.
End frames.
#[export] Hint Resolve touches_queue_user touches_queue_session : tx.

(** ** The pages cover the bucket *)

Section pages.
Context {E : Env}.
Implicit Types (s : St.t) (rp : RpSession.t).

(** Every row is an RP session stored under its own identifier. *)
Definition rp_keyed s : Prop :=
  ∀ k w, s.(St.db) !! ("rp_sessions", k) = Some w → ∃ rp, w = RRpSession rp ∧ rp.(RpSession.sid) = k.

(** A row changes only where it is written, and stays keyed. *)
Lemma end_matching_step f n k rp s n' s' :
  end_matching f n (k, rp) s = (Ok n', s') → rp.(RpSession.sid) = k →
  s.(St.db) !! ("rp_sessions", k) = Some (RRpSession rp) → rp_keyed s →
  rp_keyed s' ∧ (∀ j, j ≠ k → s'.(St.db) !! ("rp_sessions", j) = s.(St.db) !! ("rp_sessions", j))
  ∧ s'.(St.db) !! ("rp_sessions", k)
    = Some (RRpSession (if f rp then end_session_row rp else rp)).
Proof.
  unfold end_matching. cbn [snd]. intros Hrun Hk Hrow Hall.
  destruct (f rp) eqn:Hf; simpl in Hrun.
  2:{ apply ret_ok in Hrun as [-> ->]. done. }
  destruct (RpSession.ended rp) eqn:He.
  { apply ret_ok in Hrun as [-> ->]. split_and!; [done..|]. rewrite Hrow. by destruct rp; simpl in *; subst. }
  apply bind_ok in Hrun as ([] & s1 & ->%put_ok & Hrun).
  apply bind_ok in Hrun as ([] & s2 & Hq & [-> ->]%ret_ok).
  assert (Hs : ∀ j, s2.(St.db) !! ("rp_sessions", j)
    = <[("rp_sessions", k) := RRpSession (end_session_row rp)]> s.(St.db) !! ("rp_sessions", j)).
  { intros j. rewrite (touches_at ["logout_deliveries"] _ _ _ _ _ _ Hq) by bucket. by rewrite Hk. }
  split_and!.
  - intros j w. rewrite Hs. destruct (decide (j = k)) as [->|Hj].
    + rewrite lookup_insert_eq. intros [= <-]. by exists (end_session_row rp).
    + rewrite lookup_insert_ne by congruence. apply Hall.
  - intros j Hj. by rewrite Hs, lookup_insert_ne by congruence.
  - by rewrite Hs, lookup_insert_eq.
Qed.

(** The whole loop over a list of rows. *)
Lemma end_matching_fold f l n s n' s' :
  fold_m (end_matching f) n l s = (Ok n', s') → rp_keyed s → NoDup l.*1 →
  (∀ k rp, (k, rp) ∈ l → s.(St.db) !! ("rp_sessions", k) = Some (RRpSession rp)) →
  rp_keyed s'
  ∧ (∀ k, k ∉ l.*1 → s'.(St.db) !! ("rp_sessions", k) = s.(St.db) !! ("rp_sessions", k))
  ∧ ∀ k rp, (k, rp) ∈ l →
      s'.(St.db) !! ("rp_sessions", k) = Some (RRpSession (if f rp then end_session_row rp else rp)).
Proof.
  revert n s. induction l as [|[k rp] l IH]; intros n s Hrun Hkey Hnd Hl.
  { apply ret_ok in Hrun as [-> ->]. split_and!; [done..|set_solver]. }
  apply bind_ok in Hrun as (n1 & s1 & H1 & Hrun). apply NoDup_cons in Hnd as [Hni Hnd].
  assert (Hrow := Hl k rp ltac:(set_solver)).
  destruct (Hkey _ _ Hrow) as (rp' & [= <-] & Hsid).
  destruct (end_matching_step _ _ _ _ _ _ _ H1 Hsid Hrow Hkey) as (Hkey1 & Hoth & Hthis).
  destruct (IH _ _ Hrun Hkey1 Hnd) as (Hk2 & Ho2 & Hin2).
  { intros j rq Hj. rewrite Hoth; [apply Hl; set_solver|].
    intros ->. apply Hni, list_elem_of_fmap. by exists (k, rq). }
  split; [done|]. split.
  - intros j Hj. rewrite Ho2, Hoth; [done|set_solver..].
  - intros j rq [[= -> ->]|Hj]%elem_of_cons; [|by apply Hin2]. by rewrite Ho2.
Qed.
End pages.

Section coverage.
Context {E : Env}.
Implicit Types (s : St.t) (rp : RpSession.t).

Definition encode_rows (l : list (string * RpSession.t)) : list (string * row) :=
  prod_map (λ k, k) RRpSession <$> l.
Lemma encode_rows_keys l : (encode_rows l).*1 = l.*1.
Proof. unfold encode_rows. rewrite <- list_fmap_compose. by apply list_fmap_ext; intros ? []. Qed.

Lemma rp_rows s : rp_keyed s → ∃ l, bucket_rows "rp_sessions" s.(St.db) = encode_rows l.
Proof.
  intros Hs. assert (H : ∀ k w, (k, w) ∈ bucket_rows "rp_sessions" s.(St.db) → ∃ rp, w = RRpSession rp).
  { intros k w Hw%elem_of_bucket_rows. destruct (Hs _ _ Hw) as (rp & -> & _). eauto. }
  revert H. generalize (bucket_rows "rp_sessions" s.(St.db)). intros rows.
  induction rows as [|[k w] rows IH]; intros H; [by exists []|].
  destruct (H k w) as [rp ->]; [set_solver|]. destruct IH as [l ->]; [intros j v ?; apply (H j); set_solver|].
  by exists ((k, rp) :: l).
Qed.

(** From any point of the bucket, the pages do what the plain loop over the
    remaining rows does, errors included. *)
Lemma queue_pages_fold fuel f pre rest n s :
  rp_keyed s → bucket_rows "rp_sessions" s.(St.db) = pre ++ encode_rows rest →
  (length rest < fuel)%nat →
  queue_pages fuel f (last pre.*1) n s = fold_m (end_matching f) n rest s.
Proof.
  revert pre rest n s. induction fuel as [|fuel IH]; intros pre rest n s Hkey Hrows Hfuel; [lia|].
  cbn [queue_pages].
  assert (Hscan : scan RpSession.t "rp_sessions" (last pre.*1) PAGE s = (Ok (take PAGE rest), s)).
  { apply scan_ok. split; [done|]. rewrite (filter_rest_rows _ _ _ _ Hrows). by rewrite fmap_take. }
  rewrite (bind_step _ _ _ _ _ Hscan).
  destruct rest as [|kr rest'] eqn:Hr; [done|]. rewrite <- Hr in *.
  destruct (last (take PAGE rest)) as [[key lrp]|] eqn:Hlast.
  2:{ apply last_None in Hlast. subst. change PAGE with (S 127) in Hlast. done. }
  rewrite <- (take_drop PAGE rest) at 2. rewrite fold_m_app.
  unfold mbind, tx_bind. destruct (fold_m (end_matching f) n (take PAGE rest) s) as [[n1|e] s1] eqn:Hpage; [|done].
  pose proof (bucket_rows_nodup "rp_sessions" s.(St.db)) as Hnd.
  rewrite <- (take_drop PAGE rest) in Hrows. unfold encode_rows in Hrows.
  rewrite fmap_app in Hrows. rewrite (assoc_L (++)) in Hrows. fold (encode_rows (take PAGE rest)) in Hrows.
  fold (encode_rows (drop PAGE rest)) in Hrows. rewrite Hrows, !fmap_app, !encode_rows_keys in Hnd.
  apply NoDup_app in Hnd as (Hnd1 & _ & _). apply NoDup_app in Hnd1 as (_ & _ & Hnd1).
  assert (Hin : ∀ k rp, (k, rp) ∈ take PAGE rest →
    s.(St.db) !! ("rp_sessions", k) = Some (RRpSession rp)).
  { intros k rp Hk. apply elem_of_bucket_rows. rewrite Hrows. apply elem_of_app. left.
    apply elem_of_app. right. apply list_elem_of_fmap. by exists (k, rp). }
  destruct (end_matching_fold _ _ _ _ _ _ Hpage Hkey Hnd1 Hin) as (Hkey1 & Hout & Hupd).
  destruct (bucket_rows_change "rp_sessions" s.(St.db) s1.(St.db) _ _ Hrows) as (pre' & Hrows' & Hpre').
  { intros k. destruct (decide (k ∈ (take PAGE rest).*1)) as [Hk|Hk]; [|by rewrite Hout].
    apply list_elem_of_fmap in Hk as ([k' rp] & -> & Hk). simpl.
    rewrite (Hin _ _ Hk), (Hupd _ _ Hk). split; eauto. }
  { intros k Hk. apply Hout. rewrite fmap_app, encode_rows_keys in Hk. set_solver. }
  assert (Hcur : Some key = last pre'.*1).
  { rewrite Hpre', fmap_app, encode_rows_keys, last_app, fmap_last, Hlast. done. }
  rewrite Hcur. apply IH; [done|done|]. rewrite length_drop. change PAGE with (S 127).
  subst rest. simpl in *. lia.
Qed.

Definition clients_decode s : Prop :=
  ∀ k w, s.(St.db) !! ("clients", k) = Some w → ∃ c, w = RClient c.

Lemma end_matching_total f l n s :
  clients_decode s → ∃ n' s', fold_m (end_matching f) n l s = (Ok n', s').
Proof.
  revert n s. induction l as [|[k rp] l IH]; intros n s Hc; [by exists n, s|]. cbn [fold_m].
  assert (∃ n1 s1, end_matching f n (k, rp) s = (Ok n1, s1)) as (n1 & s1 & H1).
  { unfold end_matching. cbn [snd]. case_match; [by eexists _, _|].
    erewrite bind_step by reflexivity. unfold queue_delivery.
    set (s1 := St.set_db _ _).
    assert (∃ o, get Client.t "clients" (RpSession.client_id rp) s1 = (Ok o, s1)) as [o Ho].
    { unfold get. cbn [s1 St.db St.set_db]. rewrite lookup_insert_ne by done.
      destruct (s.(St.db) !! ("clients", RpSession.client_id rp)) as [w|] eqn:Hw; [|eauto].
      destruct (Hc _ _ Hw) as [c ->]. simpl. eauto. }
    unfold mbind at 1 2, tx_bind at 1 2. rewrite Ho. destruct (_ ≫= _) in |- *; by eexists _, _. }
  rewrite (bind_step _ _ _ _ _ H1). apply IH. intros j w.
  rewrite (touches_at ["rp_sessions"; "logout_deliveries"] _ _ _ _ _ _ H1) by bucket. apply Hc.
Qed.
End coverage.

(** ** Properties *)

Section properties.
Context {E : Env}.
Implicit Types (s : St.t) (rp : RpSession.t) (d : LogoutDelivery.t).


(** What happens to one delivery: the worker's operations on it, and anything
    that leaves it as it is while time passes. *)
Inductive delivery_step (key : string) (attempt : Z) : St.t → St.t → Prop :=
| step_claim d s o s' : s.(St.db) !! ("logout_deliveries", key) = Some (RLogoutDelivery d) →
    claim_delivery key d s = (Ok o, s') → delivery_step key attempt s s'
| step_begin lease s b s' : begin_logout_dispatch key lease s = (Ok b, s') → delivery_step key attempt s s'
| step_finish a status s s' : a ≠ attempt → finish_logout_delivery key a status s = (Ok (), s') →
    delivery_step key attempt s s'
| step_other s s' :
    s'.(St.db) !! ("logout_deliveries", key) = s.(St.db) !! ("logout_deliveries", key) →
    s.(St.clock) ≤ s'.(St.clock) → delivery_step key attempt s s'.

Lemma delivery_step_clock key a s s' : delivery_step key a s s' → s.(St.clock) ≤ s'.(St.clock).
Proof.
  intros [d t o t' _ Hr|l t b t' Hr|b st t t' _ Hr|t t' _ Hr]; [| | |done].
  all: pose proof (touches_run ["logout_deliveries"] _ _ _ _ Hr) as [-> _]; lia.
Qed.

(** A worker is sending. *)
Definition sending s (key lease : string) d : Prop :=
  s.(St.db) !! ("logout_deliveries", key) = Some (RLogoutDelivery d)
  ∧ d.(LogoutDelivery.delivered_at) = None ∧ d.(LogoutDelivery.lease) = Some lease
  ∧ d.(LogoutDelivery.dispatch_started) = Some true.

Lemma begin_dispatch_ok key lease s s' :
  begin_logout_dispatch key lease s = (Ok true, s') →
  ∃ d, sending s' key lease d ∧ s'.(St.clock) = s.(St.clock)
    ∧ s.(St.clock) < d.(LogoutDelivery.next_attempt).
Proof.
  unfold begin_logout_dispatch. intros Hrun. destruct (Str.is_empty lease); [by apply ret_ok in Hrun as [? _]|].
  apply bind_ok in Hrun as (o & s1 & [-> Hrow]%get_ok & Hrun).
  apply bind_ok in Hrun as (? & s1 & [-> ->]%now_ok & Hrun).
  destruct o as [d|]; [|by apply ret_ok in Hrun as [? _]].
  destruct (_ || _ || _ || _) eqn:Hc; [by apply ret_ok in Hrun as [? _]|].
  apply bind_ok in Hrun as ([] & s1 & ->%put_ok & [_ ->]%ret_ok).
  apply orb_false_iff in Hc as [[[H1 H2]%orb_false_iff H3]%orb_false_iff H4%Z.leb_gt].
  eexists. split; [|split; [done|]].
  - split; [apply lookup_insert_eq|]. simpl. split_and!; [|by apply negb_false_iff, bool_decide_eq_true in H2|done].
    apply bool_decide_eq_false in H1. by apply eq_None_not_Some.
  - done.
Qed.

Lemma begin_dispatch_busy key lease lease' d s :
  sending s key lease d → begin_logout_dispatch key lease' s = (Ok false, s).
Proof.
  intros (Hrow & Hd & Hl & Hs). unfold begin_logout_dispatch. destruct (Str.is_empty lease'); [done|].
  tx_get. erewrite bind_step by reflexivity. rewrite Hd, Hl, Hs. simpl. by rewrite orb_true_r.
Qed.

Lemma delivery_step_sending key lease d s s' :
  delivery_step key d.(LogoutDelivery.attempts) s s' → sending s key lease d →
  s'.(St.clock) < d.(LogoutDelivery.next_attempt) →
  sending s' key lease d ∧ s.(St.clock) ≤ s'.(St.clock).
Proof.
  intros Hstep Hsend Hlt. pose proof Hsend as (Hrow & Hd & Hl & Hs).
  destruct Hstep as [d' t o t' Hrow' Hrun|lease' t b t' Hrun|a status t t' Ha Hrun|t t' Hsame Hclk].
  - rewrite Hrow in Hrow'. injection Hrow' as <-.
    assert (t'.(St.clock) = t.(St.clock)) as Hclk.
    { pose proof (touches_run ["logout_deliveries"] (claim_delivery key d) _ _ _ Hrun) as (? & _). done. }
    unfold claim_delivery in Hrun. apply bind_ok in Hrun as (? & t1 & [-> ->]%now_ok & Hrun).
    rewrite Hd in Hrun. simpl in Hrun.
    replace (t.(St.clock) <? d.(LogoutDelivery.next_attempt)) with true in Hrun by lia.
    apply ret_ok in Hrun as [_ ->]. split; [done|lia].
  - rewrite (begin_dispatch_busy _ _ lease' _ _ Hsend) in Hrun. injection Hrun as _ <-. split; [done|lia].
  - unfold finish_logout_delivery in Hrun. revert Hrun. tx_get.
    replace (d.(LogoutDelivery.attempts) =? a) with false by lia.
    intros [_ ->]%ret_ok. split; [done|lia].
  - split; [|done]. split; [by rewrite Hsame|done].
Qed.

(** Two workers never send the same notification at the same time: once a
    worker has pinned a delivery, nobody else may send it until this attempt is
    finished or its lease of a minute is over, whatever claims, pins and outcomes
    of other attempts come in between. *)
Theorem dispatch_exclusive key lease s s1 s2 :
  begin_logout_dispatch key lease s = (Ok true, s1) →
  ∃ d, sending s1 key lease d ∧ s.(St.clock) < d.(LogoutDelivery.next_attempt)
    ∧ (rtc (delivery_step key d.(LogoutDelivery.attempts)) s1 s2 →
       s2.(St.clock) < d.(LogoutDelivery.next_attempt) →
       ∀ lease', begin_logout_dispatch key lease' s2 = (Ok false, s2)).
Proof.
  intros (d & Hsend & _ & Hlt)%begin_dispatch_ok. exists d. split_and!; [done..|].
  intros Hrun Hlive lease'. eapply begin_dispatch_busy.
  assert (sending s2 key lease d ∧ s1.(St.clock) ≤ s2.(St.clock)) as [H _]; [|exact H].
  clear Hlt. revert Hsend Hlive. induction Hrun as [|t1 t2 t3 Hstep Hrun IH]; intros Hsend Hlive; [done|].
  assert (t2.(St.clock) ≤ t3.(St.clock)) as Hle.
  { clear -Hrun. induction Hrun as [|u1 u2 u3 Hu Hrun IH]; [done|]. etrans; [|exact IH].
    eapply delivery_step_clock. exact Hu. }
  destruct (delivery_step_sending _ _ _ _ _ Hstep Hsend) as [H1 H2]; [lia|].
  destruct (IH H1 Hlive) as [? ?]. split; [done|lia].
Qed.
End properties.

(** ** Concrete runs *)

Module LogoutDemo.
#[local] Existing Instance Demo.env.

Definition settings : ProviderSettings.t :=
  ProviderSettings.mk None None None None None ∅ None None None [] None ∅ None None None None false
    None [] false false None ∅ false false ∅ None None None None ∅ [] (Some "https://crm.test/bye") None
    [] false false false Policy.default None false false false.
Definition client : Client.t := Client.mk "crm" "CRM" None [] ∅ ∅ false true false settings.
Definition rp (sid user : string) : RpSession.t := RpSession.mk sid "sess" user user "crm" 900 2000 false.
Definition key : SigningKey.t := SigningKey.mk None "ES256" "k1" "" 1.
Definition state : St.t :=
  St.mk {[ ("clients", "crm") := RClient client; ("meta", "keys") := RKeys (Keys.mk key []);
           ("rp_sessions", "s1") := RRpSession (rp "s1" "amy");
           ("rp_sessions", "s2") := RRpSession (rp "s2" "bob") ]} 1000 0 None.
Definition of_amy (r : RpSession.t) : bool := String.eqb r.(RpSession.user_id) "amy".
Definition queued : St.t := (queue_matching of_amy state).2.
(** The delivery of Amy's session, its claim and its pin. *)
Definition delivery : LogoutDelivery.t :=
  LogoutDelivery.mk "id-0" "crm" "s1" "amy" "https://crm.test/bye" 1000 1000 0 None None false None None.
Definition claimed : St.t := (claim_delivery "id-0" delivery queued).2.
Definition pinned : St.t := (begin_logout_dispatch "id-0" "id-1" claimed).2.

Example queue_runs : queued.(St.db) !! ("logout_deliveries", "id-0") = Some (RLogoutDelivery delivery).
Proof. vm_compute. reflexivity. Qed.

Lemma rows k w :
  state.(St.db) !! ("rp_sessions", k) = Some w → ∃ r, w = RRpSession r ∧ r.(RpSession.sid) = k.
Proof.
  unfold state. cbn [St.db]. intros H.
  repeat (apply lookup_insert_Some in H as [[Hk Hw]|[_ H]];
    [first [by inversion Hk | inversion Hk; subst; by eexists]|]).
  apply lookup_singleton_Some in H as [Hk Hw]. inversion Hk. subst. by eexists.
Qed.
Lemma clients k w : state.(St.db) !! ("clients", k) = Some w → ∃ c, w = RClient c.
Proof.
  unfold state. cbn [St.db]. intros H.
  repeat (apply lookup_insert_Some in H as [[Hk Hw]|[_ H]];
    [first [by inversion Hk | inversion Hk; subst; by eexists]|]).
  apply lookup_singleton_Some in H as [Hk Hw]. by inversion Hk.
Qed.
End LogoutDemo.

Section witnesses.
#[local] Existing Instance Demo.env.
Import LogoutDemo.


Lemma dispatch_exclusive_witness :
  begin_logout_dispatch "id-0" "id-1" pinned = (Ok false, pinned).
Proof.
  destruct (dispatch_exclusive "id-0" "id-1" claimed pinned pinned) as (d & _ & Hlt & H).
  - vm_compute. reflexivity.
  - apply H; [reflexivity|exact Hlt].
Defined.
End witnesses.
