(* ===== verification/Credentials.v ===== *)
(** * Passwords and authenticator apps (src/src/crypto.rs, password.rs,
    identity/password_history.rs, authenticator.rs, identity.rs, passkey.rs)

    How a password is checked and replaced, the lockout that bounds guessing, the
    history that bounds reuse, and the life of a TOTP secret and its recovery
    codes: enrolled by the session that started it, used once per time step,
    removed with everything that hung on it. *)

From S2P Require Import Prelude Json Model Store Env Provider Jose Delegation Agents Assurance Claims Identities Oidc Device Logout.

#[local] Set Warnings "-clear-no-such-hyp".

(** ** Users *)

(** A user with other credentials; everything else stays. *)
Definition with_credentials (u : User.t) (password_hash : string) (epoch : Z)
    (settings : TotpSettings.t) (secret : option string) (pending : option (string * Z))
    (last_step : option Z) (codes : gset string) : User.t :=
  User.mk u.(User.has_passkeys) settings u.(User.pairwise_seed) u.(User.id) u.(User.username)
    u.(User.email) u.(User.display_name) password_hash u.(User.enabled) u.(User.admin) epoch secret
    pending last_step u.(User.created_at) u.(User.attributes) u.(User.email_verified)
    u.(User.subjects) codes.
Definition set_password (u : User.t) (hash : string) (epoch : Z) : User.t :=
  with_credentials u hash epoch u.(User.totp_settings) u.(User.totp_secret) u.(User.totp_pending)
    u.(User.totp_last_step) u.(User.recovery_codes).
Definition set_totp (u : User.t) (settings : TotpSettings.t) (secret : option string)
    (pending : option (string * Z)) (last_step : option Z) (codes : gset string) (epoch : Z) : User.t :=
  with_credentials u u.(User.password_hash) epoch settings secret pending last_step codes.
Definition set_last_step (u : User.t) (step : Z) : User.t :=
  set_totp u u.(User.totp_settings) u.(User.totp_secret) u.(User.totp_pending) (Some step)
    u.(User.recovery_codes) u.(User.epoch).
Definition set_codes (u : User.t) (codes : gset string) : User.t :=
  set_totp u u.(User.totp_settings) u.(User.totp_secret) u.(User.totp_pending)
    u.(User.totp_last_step) codes u.(User.epoch).
Definition set_pending (u : User.t) (pending : option (string * Z)) : User.t :=
  set_totp u u.(User.totp_settings) u.(User.totp_secret) pending u.(User.totp_last_step)
    u.(User.recovery_codes) u.(User.epoch).

(** ** Password hashes (crypto.rs) *)

Definition in_range (lo hi : Z) (o : option Z) : bool :=
  match o with Some n => (lo <=? n) && (n <=? hi) | None => false end.
Definition is_ascii (s : string) : bool := forallb (λ c, Str.code c <? 128) (Str.bytes s).

Section passwords.
Context {E : Env}.

Definition normalized_hash (hash : string) : string :=
  match Str.strip_prefix "argon2$" hash with Some s => "$" +:+ s | None => hash end.
Definition supported_hash (normalized : string) : bool :=
  if Str.starts_with normalized "pbkdf2_sha256$" then
    match Str.split "$" normalized with
    | [_; rounds; salt; value] =>
        in_range 1000 2000000 (Str.parse_u32 rounds)
        && negb (Str.is_empty salt) && (Str.len salt <=? 128) && is_ascii salt
        && match b64_decode value with Some b => Str.len b =? 32 | None => false end
    | _ => false
    end
  else
    match phc_parse normalized with
    | Some h =>
        (String.eqb h.(Phc.algorithm) "argon2id" || String.eqb h.(Phc.algorithm) "argon2i")
        && bool_decide (h.(Phc.version) = Some 19)
        && in_range 8 262144 h.(Phc.m) && in_range 1 10 h.(Phc.t_) && in_range 1 16 h.(Phc.p)
        && h.(Phc.has_hash) && h.(Phc.has_salt)
    | None => false
    end.
Definition validate_imported_hash (hash : string) : Result string :=
  if 1024 <? Str.len hash then Err (Error.bad "Password hash exceeds supported size")
  else
    let normalized := normalized_hash hash in
    if supported_hash normalized then Ok normalized
    else Err (Error.bad "Unsupported password hash or excessive cost; supported: Argon2id/i v19 and Django PBKDF2-SHA256").

Definition password_matches (password hash : string) : bool :=
  if 1024 <? Str.len password then false
  else if negb (is_ok (validate_imported_hash hash)) then false
  else if Str.starts_with hash "pbkdf2_sha256$" then
    match Str.split "$" hash with
    | _ :: rounds :: salt :: value :: _ =>
        match Str.parse_u32 rounds, b64_decode value with
        | Some rounds, Some expected =>
            if rounds =? 0 then false else pbkdf2_verify rounds salt password expected
        | _, _ => false
        end
    | _ => false
    end
  else match phc_parse hash with Some _ => argon_verify password hash | None => false end.

(** [password_hash]; the salt is the next random value. *)
Definition password_hash (password : string) : tx string :=
  _ ← ensure (negb ((Str.len password <? 12) || (1024 <? Str.len password)))
        (Error.bad "Passwords must be between 12 and 1024 bytes");
  salt ← draw;
  lift (argon_hash salt password).

(** The costs of a hash are not the default ones. *)
Definition nondefault_costs (old : string) : bool :=
  Str.starts_with old "$argon2id$"
  && match phc_parse old with
     | Some h => let '(m, t, p) := argon_params in
                 negb (bool_decide (h.(Phc.m) = Some m)) || negb (bool_decide (h.(Phc.t_) = Some t))
                 || negb (bool_decide (h.(Phc.p) = Some p))
     | None => false
     end.
Definition upgrade_password_hash (password old : string) : tx (option string) :=
  if negb (Str.starts_with old "pbkdf2_sha256$") && negb (Str.starts_with old "$argon2i$")
     && negb (nondefault_costs old)
  then mret None
  else salt ← draw; hash ← lift (argon_hash salt password); mret (Some hash).

(** ** Password history *)

Definition HISTORY : string := "password_history".
Definition load_history (user_id : string) : tx (list string) :=
  history ← get (list string) HISTORY user_id;
  mret (List.filter (λ h, negb (Str.is_empty h)) (default [] history)).
Definition save_history (user_id : string) (history : list string) : tx unit :=
  match history with
  | [] => remove HISTORY user_id
  | _ => put HISTORY user_id history
  end.
Definition trim_history (history : list string) (limit : Z) : list string :=
  drop (length history - Z.to_nat limit) history.

(** The hashes [reused] tries, in order: the current one, then the latest of the
    history, each once. *)
Fixpoint distinct_from (seen : gset string) (l : list string) : list string :=
  match l with
  | [] => []
  | h :: l =>
      if Str.is_empty h || bool_decide (h ∈ seen) then distinct_from seen l
      else h :: distinct_from ({[h]} ∪ seen) l
  end.
Definition reused (plaintext : string) (history : list string) (current_hash : string) (limit : Z) :
    bool :=
  negb (Str.is_empty current_hash) && password_matches plaintext current_hash
  || existsb (password_matches plaintext)
       (distinct_from (if Str.is_empty current_hash then ∅ else {[current_hash]})
          (take (Z.to_nat limit) (rev history))).

Definition push_hash (history : list string) (hash : string) : list string :=
  match last history with
  | Some h => if String.eqb h hash then history
              else List.filter (λ h, negb (String.eqb h hash)) history ++ [hash]
  | None => [hash]
  end.
Definition retain_hash (history : list string) (current_hash hash : string) (limit : Z) : list string :=
  let history :=
    if negb (Str.is_empty current_hash) && negb (String.eqb current_hash hash)
       && negb (existsb (λ h, String.eqb h current_hash) history)
    then history ++ [current_hash] else history in
  trim_history (push_hash history hash) limit.

Definition accept_history (limit : Z) (user_id current_hash plaintext new_hash : string) : tx unit :=
  if Str.is_empty new_hash || (limit =? 0) then mret ()
  else
    history ← load_history user_id;
    _ ← ensure (negb (reused plaintext history current_hash limit))
          (Error.bad "Password was used recently");
    save_history user_id (retain_hash history current_hash new_hash limit).

Definition record_imported_hash (limit : Z) (user_id current_hash hash : string) : tx unit :=
  if Str.is_empty hash || (limit =? 0) then mret ()
  else
    history ← load_history user_id;
    save_history user_id (retain_hash history current_hash hash limit).

Fixpoint replace_first (old new : string) (l : list string) : option (list string) :=
  match l with
  | [] => None
  | h :: l => if String.eqb h old then Some (new :: l) else (h ::.) <$> replace_first old new l
  end.
(** [history.retain(|item| seen.insert(item.clone()))]. *)
Fixpoint dedup (seen : gset string) (l : list string) : list string :=
  match l with
  | [] => []
  | h :: l => if bool_decide (h ∈ seen) then dedup seen l else h :: dedup ({[h]} ∪ seen) l
  end.
Definition note_rehash (limit : Z) (user_id old_hash new_hash : string) : tx unit :=
  if Str.is_empty new_hash || (limit =? 0) || String.eqb old_hash new_hash then mret ()
  else
    history ← load_history user_id;
    save_history user_id
      (match replace_first old_hash new_hash history with
       | Some l => trim_history (dedup ∅ l) limit
       | None => retain_hash history "" new_hash limit
       end).

(** ** Lockout *)

Definition LOCKOUT_SECONDS : Z := 900.
Definition LOCKOUT_FAILURES : Z := 5.
Definition rate_limited : Error.t :=
  Error.new TOO_MANY_REQUESTS "rate_limited" "Too many attempts; try again later".

(** The attempts at a time: a window of 15 minutes that is over starts again. *)
Definition current_window (at_ : Z) (a : Attempts.t) : Attempts.t :=
  if LOCKOUT_SECONDS <=? sat_sub at_ a.(Attempts.window_start) then Attempts.mk 0 at_ 0 else a.
(** One more failure. *)
Definition count_failure (at_ : Z) (a : Attempts.t) : Attempts.t :=
  let failures := (a.(Attempts.failures) + 1) mod 2 ^ 32 in
  Attempts.mk failures a.(Attempts.window_start)
    (if LOCKOUT_FAILURES <=? failures then wadd at_ LOCKOUT_SECONDS else a.(Attempts.locked_until)).

(** ** Changing a password (password.rs) *)

Inductive Kind := KindLocal | KindDirectory | KindNone.
(** [PasswordTx::directory_manages]: an imported directory owns the account. *)
Definition directory_manages (user_id : string) : tx bool :=
  b ← get DirectoryBinding.t "directory_users" user_id; mret (bool_decide (is_Some b)).
Definition kind_of (u : User.t) : tx Kind :=
  managed ← directory_manages u.(User.id);
  mret (if (managed : bool) then KindDirectory
        else if Str.is_empty u.(User.password_hash) then KindNone else KindLocal).
Definition require_local (u : User.t) : tx unit :=
  kind ← kind_of u;
  match kind with
  | KindLocal => mret ()
  | KindDirectory => fail (Error.new CONFLICT "password_unavailable"
      "Your organization's directory manages this password. Change it there.")
  | KindNone => fail (Error.new CONFLICT "password_unavailable"
      "This account has no password to change. It signs in with a passkey or another account.")
  end.

Definition reauthentication_required : Error.t :=
  Error.new FORBIDDEN "reauthentication_required" "Sign in again before changing your sign-in methods".
(** [identity::require_factor_session]. *)
Definition require_factor_session (u : User.t) (s : Session.t) : tx unit :=
  ensure (negb ((bool_decide (is_Some u.(User.totp_secret)) || u.(User.has_passkeys))
                && negb s.(Session.identity).(Identity.mfa)))
    (Error.new FORBIDDEN "mfa_required" "Sign in with your passkey or authenticator code first").
(** [passkey::require_fresh_factor]. *)
Definition require_fresh_factor (u : User.t) (s : Session.t) : tx unit :=
  at_ ← now;
  _ ← ensure (negb (FRESH_SECONDS <? sat_sub at_ s.(Session.identity).(Identity.auth_time)))
        reauthentication_required;
  require_factor_session u s.
Definition require_fresh_mfa (u : User.t) (s : Session.t) (code_verified : bool) : tx unit :=
  if code_verified || bool_decide (u.(User.totp_secret) = None) && negb u.(User.has_passkeys)
  then mret () else require_fresh_factor u s.

(** [unlocked]: [Err] when the account is locked. *)
Definition unlocked (u : User.t) : tx (Result unit) :=
  attempts ← get Attempts.t "attempts" u.(User.username);
  at_ ← now;
  mret (match attempts with
        | Some a => if at_ <? a.(Attempts.locked_until) then Err rate_limited else Ok ()
        | None => Ok ()
        end).

Definition record_failure (u : User.t) : tx Error.t :=
  at_ ← now;
  attempts ← get Attempts.t "attempts" u.(User.username);
  _ ← put "attempts" u.(User.username)
        (count_failure at_ (current_window at_ (default Attempts.default attempts)));
  _ ← audit u.(User.id) "password.change_failed" u.(User.id);
  mret (Error.new FORBIDDEN "invalid_current_password" "Your current password is incorrect").

(** [password::replace]: the user as stored. *)
Definition replace_password (u : User.t) (plaintext hash : string) : tx User.t :=
  _ ← accept_history config.(Config.password_history) u.(User.id) u.(User.password_hash) plaintext hash;
  let u := set_password u hash (wadd u.(User.epoch) 1) in
  _ ← put "users" u.(User.id) u;
  _ ← remove "attempts" u.(User.username);
  _ ← queue_user u.(User.id);
  _ ← audit u.(User.id) "user.password.change" u.(User.id);
  mret u.
End passwords.

(** ** One-time codes (crypto.rs, authenticator.rs) *)

Definition RECOVERY_CODES : nat := 10.
Definition ENROLLMENT_SECONDS : Z := 600.

(** [TotpSettings::validate]. *)
Definition totp_validate (t : TotpSettings.t) : Result unit :=
  if negb (existsb (String.eqb t.(TotpSettings.algorithm)) ["SHA1"; "SHA256"; "SHA512"])
     || negb ((t.(TotpSettings.digits) =? 6) || (t.(TotpSettings.digits) =? 8))
     || negb ((15 <=? t.(TotpSettings.period)) && (t.(TotpSettings.period) <=? 120))
  then Err (Error.bad "TOTP requires SHA1/SHA256/SHA512, 6/8 digits and a 15–120 second period")
  else Ok ().

Section totp.
Context {E : Env}.

(** [totp_with]: whether the secret and the settings make a generator. *)
Definition totp_with (secret username : string) (settings : TotpSettings.t) : Result unit :=
  _ ← totp_validate settings;
  if totp_builds secret username settings then Ok () else Err Error.internal.

(** One candidate step of [totp_step_with]. *)
Definition step_matches (secret code : string) (last_step : option Z) (settings : TotpSettings.t)
    (step : Z) : bool :=
  match last_step with Some l => l <? step | None => true end
  && String.eqb (totp_generate secret settings ((step * settings.(TotpSettings.period)) mod 2 ^ 64)) code.
Definition totp_step_with (secret username code : string) (at_ : Z) (last_step : option Z)
    (settings : TotpSettings.t) : Result (option Z) :=
  _ ← totp_validate settings;
  if negb (Str.len code =? settings.(TotpSettings.digits)) || negb (forallb Str.is_ascii_digit (Str.bytes code))
  then Ok None
  else
    _ ← totp_with secret username settings;
    let q := at_ / settings.(TotpSettings.period) in
    Ok (head (List.filter (step_matches secret code last_step settings) [q; wadd q 1; sat_sub q 1])).
Definition totp_step (secret username code : string) (at_ : Z) (last_step : option Z) :
    Result (option Z) :=
  totp_step_with secret username code at_ last_step TotpSettings.default.

Definition totp_secret : tx string := n ← draw; mret (random_totp_secret n).

Fixpoint random_tokens (n : nat) (prefix : string) : tx (list string) :=
  match n with
  | O => mret []
  | S n => t ← random_token prefix; l ← random_tokens n prefix; mret (t :: l)
  end.
Definition new_recovery_codes : tx (list string) := random_tokens RECOVERY_CODES "ri_recovery_".
Definition code_set (codes : list string) : gset string := list_to_set (digest <$> codes).

(** The user after the code was used, and whether it was accepted. *)
Definition consume_recovery_code (u : User.t) (code : string) : bool * User.t :=
  if bool_decide (is_Some u.(User.totp_secret)) && Str.starts_with code "ri_recovery_"
     && bool_decide (digest code ∈ u.(User.recovery_codes))
  then (true, set_codes u (u.(User.recovery_codes) ∖ {[digest code]}))
  else (false, u).

Definition consume_password_factor (u : User.t) (code : option string) (at_ : Z) :
    Result (bool * User.t) :=
  match u.(User.totp_secret) with
  | None => Ok (true, u)
  | Some secret =>
      match code with
      | Some c =>
          if Str.starts_with c "ri_recovery_" then Ok (consume_recovery_code u c)
          else
            step ← totp_step_with secret u.(User.username) c at_ u.(User.totp_last_step)
                     u.(User.totp_settings);
            Ok (match step with Some st => (true, set_last_step u st) | None => (false, u) end)
      | None =>
          step ← totp_step_with secret u.(User.username) "" at_ u.(User.totp_last_step)
                   u.(User.totp_settings);
          Ok (match step with Some st => (true, set_last_step u st) | None => (false, u) end)
      end
  end.

(** ** The life of an authenticator app *)

Definition ENROLLMENTS : string := "totp_enrollments".
Definition no_pending : Error.t :=
  Error.new BAD_REQUEST "enrollment_not_found" "No pending MFA enrollment".

Definition pending_enrollment (u : User.t) (s : Session.t) :
    tx (option (Enrollment.t * string * Z)) :=
  match u.(User.totp_pending) with
  | None => mret None
  | Some (secret, expires_at) =>
      e ← get Enrollment.t ENROLLMENTS u.(User.id);
      mret (match e with
            | Some e =>
                if String.eqb e.(Enrollment.session_id) s.(Session.id)
                   && (e.(Enrollment.epoch) =? u.(User.epoch))
                   && String.eqb e.(Enrollment.secret_hash) (digest secret)
                then Some (e, secret, expires_at) else None
            | None => None
            end)
  end.

Definition totp_start_in (u : User.t) (s : Session.t) (replace : bool) : tx json :=
  _ ← require_fresh_factor u s;
  _ ← match replace, bool_decide (is_Some u.(User.totp_secret)) with
      | false, true => fail (Error.conflict "MFA already enabled")
      | true, false => fail (Error.conflict "No authenticator app to replace")
      | _, _ => mret ()
      end;
  let settings := TotpSettings.default in
  secret ← totp_secret;
  _ ← lift (totp_with secret u.(User.username) settings);
  uri ← lift (totp_url secret u.(User.username) settings);
  at_ ← now;
  let expires_at := wadd at_ ENROLLMENT_SECONDS in
  _ ← put ENROLLMENTS u.(User.id)
        (Enrollment.mk s.(Session.id) u.(User.epoch) (digest secret) expires_at replace);
  let u := set_pending u (Some (secret, expires_at)) in
  _ ← put "users" u.(User.id) u;
  _ ← audit u.(User.id) (if replace then "mfa.replace.begin" else "mfa.enroll.begin") u.(User.id);
  mret (Json.obj
    [("secret", JStr secret); ("otpauth_uri", JStr uri); ("expires_in", JNum ENROLLMENT_SECONDS);
     ("replace", JBool replace); ("algorithm", JStr settings.(TotpSettings.algorithm));
     ("digits", JNum settings.(TotpSettings.digits)); ("period", JNum settings.(TotpSettings.period))]).

(** The confirmed secret is the factor from now on; the account starts a new
    epoch, so every session and grant ends. *)
Definition enabled_totp (u : User.t) (secret : string) (step : Z) (codes : gset string) : User.t :=
  set_totp u TotpSettings.default (Some secret) None (Some step) codes (wadd u.(User.epoch) 1).
Definition totp_confirm_in (u : User.t) (s : Session.t) (code : string) (recovery : bool) : tx json :=
  _ ← require_fresh_factor u s;
  p ← pending_enrollment u s;
  p ← some_or p no_pending;
  let '(enrollment, secret, expires_at) := p in
  at_ ← now;
  _ ← ensure (negb (expires_at <=? at_))
        (Error.new BAD_REQUEST "enrollment_expired" "Enrollment expired");
  let replaced := bool_decide (is_Some u.(User.totp_secret)) in
  _ ← ensure (Bool.eqb enrollment.(Enrollment.replace) replaced) no_pending;
  step ← lift (totp_step secret u.(User.username) code at_ None);
  step ← some_or step (Error.new BAD_REQUEST "invalid_code" "Invalid one-time code");
  codes ← (if recovery then new_recovery_codes else mret []);
  let u := enabled_totp u secret step (code_set codes) in
  _ ← put "users" u.(User.id) u;
  _ ← remove ENROLLMENTS u.(User.id);
  _ ← queue_user u.(User.id);
  _ ← audit u.(User.id) (if replaced then "mfa.replace" else "mfa.enabled") u.(User.id);
  let body := Json.obj [("mfa_enabled", JBool true); ("replaced", JBool replaced);
                        ("sessions_revoked", JBool true)] in
  if recovery then
    _ ← audit u.(User.id) "mfa.recovery_codes.rotate" u.(User.id);
    mret (Json.set "single_use" (JBool true) (Json.set "recovery_codes" (Json.strs codes) body))
  else mret body.

Inductive WorkflowTotpChange := PasskeyEnroll | PasswordEnroll | PasskeyReplace | PasswordReplace.
Definition change_replaces (c : WorkflowTotpChange) : bool :=
  match c with PasskeyReplace | PasswordReplace => true | _ => false end.
Definition change_passkey (c : WorkflowTotpChange) : bool :=
  match c with PasskeyEnroll | PasskeyReplace => true | _ => false end.
Definition commit_workflow_totp_change_in (u : User.t) (secret code : string)
    (change : WorkflowTotpChange) : tx unit :=
  let replace := change_replaces change in
  _ ← ensure (negb (negb (Bool.eqb (bool_decide (is_Some u.(User.totp_secret))) replace)
                    || bool_decide (is_Some u.(User.totp_pending))
                    || negb (Bool.eqb u.(User.has_passkeys) (change_passkey change)))) Error.forbidden;
  at_ ← now;
  step ← lift (totp_step secret u.(User.username) code at_ None);
  step ← some_or step Error.forbidden;
  _ ← ensure (u.(User.epoch) <? u64_max) Error.forbidden;
  let u := enabled_totp u secret step ∅ in
  _ ← put "users" u.(User.id) u;
  _ ← remove ENROLLMENTS u.(User.id);
  _ ← queue_user u.(User.id);
  audit u.(User.id) (if replace then "mfa.replace" else "mfa.enabled") u.(User.id).
Definition commit_workflow_totp_in (u : User.t) (secret code : string) : tx unit :=
  commit_workflow_totp_change_in u secret code PasskeyEnroll.
Definition commit_workflow_password_totp_in (u : User.t) (secret code : string) : tx unit :=
  commit_workflow_totp_change_in u secret code PasswordEnroll.
Definition commit_workflow_totp_replacement_in (u : User.t) (secret code : string) : tx unit :=
  commit_workflow_totp_change_in u secret code PasskeyReplace.
Definition commit_workflow_password_totp_replacement_in (u : User.t) (secret code : string) : tx unit :=
  commit_workflow_totp_change_in u secret code PasswordReplace.

Definition totp_cancel_in (u : User.t) (s : Session.t) : tx json :=
  p ← pending_enrollment u s;
  match p with
  | None => mret (Json.obj [("cancelled", JBool false)])
  | Some _ =>
      let u := set_pending u None in
      _ ← put "users" u.(User.id) u;
      _ ← remove ENROLLMENTS u.(User.id);
      _ ← audit u.(User.id) "mfa.enroll.cancel" u.(User.id);
      mret (Json.obj [("cancelled", JBool true)])
  end.

Definition totp_remove_in (u : User.t) (s : Session.t) : tx json :=
  _ ← require_fresh_factor u s;
  _ ← ensure (bool_decide (is_Some u.(User.totp_secret)))
        (Error.conflict "No authenticator app is set up");
  let u := set_totp u TotpSettings.default None None None ∅ (wadd u.(User.epoch) 1) in
  _ ← put "users" u.(User.id) u;
  _ ← remove ENROLLMENTS u.(User.id);
  _ ← queue_user u.(User.id);
  _ ← audit u.(User.id) "mfa.disabled" u.(User.id);
  mret (Json.obj [("removed", JBool true); ("sessions_revoked", JBool true)]).

Definition recovery_codes_in (u : User.t) (s : Session.t) : tx json :=
  _ ← ensure (bool_decide (is_Some u.(User.totp_secret)))
        (Error.conflict "Set up an authenticator app before creating recovery codes");
  _ ← require_fresh_factor u s;
  codes ← new_recovery_codes;
  let u := set_codes u (code_set codes) in
  _ ← put "users" u.(User.id) u;
  _ ← audit u.(User.id) "mfa.recovery_codes.rotate" u.(User.id);
  mret (Json.obj [("recovery_codes", Json.strs codes); ("single_use", JBool true)]).

Definition totp_status_in (u : User.t) (s : Session.t) : tx json :=
  let enabled := bool_decide (is_Some u.(User.totp_secret)) in
  p ← pending_enrollment u s;
  at_ ← now;
  mret (Json.obj
    [("totp_enabled", JBool enabled);
     ("enrollment_pending", JBool (match p with Some (_, _, e) => at_ <? e | None => false end));
     ("recovery_codes_remaining",
        JNum (if enabled then Z.of_nat (size u.(User.recovery_codes)) else 0));
     ("recovery_codes_total", JNum (Z.of_nat RECOVERY_CODES))]).

(** The operations of [Core] on the session of a token. *)
Definition mfa_start (token : string) (replace : bool) : tx json :=
  us ← session token;
  started ← totp_start_in us.1 us.2 replace;
  mret (Json.set "instruction"
          (JStr "Store the secret in an authenticator and run riauth mfa confirm") started).
Definition mfa_begin (token : string) : tx json := mfa_start token false.
Definition mfa_replace (token : string) : tx json := mfa_start token true.
Definition mfa_confirm (token code : string) : tx json :=
  us ← session token;
  confirmed ← totp_confirm_in us.1 us.2 code false;
  mret (Json.set "instruction"
          (JStr "All sessions revoked. Log in with a fresh one-time code.") confirmed).
Definition mfa_remove (token : string) : tx json := us ← session token; totp_remove_in us.1 us.2.
Definition recovery_codes (token : string) : tx json := us ← session token; recovery_codes_in us.1 us.2.
End totp.

(** ** What the operations change *)

Section frames.
Context {E : Env}.

#[global] Instance touches_password_hash p : Touches [] (password_hash p).
Proof. unfold password_hash. solve_touches. Qed.
#[global] Instance touches_upgrade p o : Touches [] (upgrade_password_hash p o).
Proof. unfold upgrade_password_hash. solve_touches. Qed.
#[global] Instance pure_load_history u : Pure (load_history u).
Proof. unfold load_history. solve_pure. Qed.
#[global] Instance touches_save_history u h : Touches [HISTORY] (save_history u h).
Proof. unfold save_history. solve_touches. Qed.
#[global] Instance touches_accept_history l u c p h : Touches [HISTORY] (accept_history l u c p h).
Proof.
  unfold accept_history. case_match; [solve_touches|]. apply touches_bind; [solve_touches|].
  intros h0. apply touches_bind; [solve_touches|]. intros _. apply _.
Qed.
#[global] Instance touches_note_rehash l u o h : Touches [HISTORY] (note_rehash l u o h).
Proof.
  unfold note_rehash. case_match; [solve_touches|]. apply touches_bind; [solve_touches|].
  intros h0. apply _.
Qed.
#[global] Instance pure_require_local u : Pure (require_local u).
Proof. unfold require_local, kind_of, directory_manages. solve_pure. Qed.
#[global] Instance pure_require_factor_session u s : Pure (require_factor_session u s).
Proof. unfold require_factor_session. solve_pure. Qed.
#[global] Instance pure_require_fresh_factor u s : Pure (require_fresh_factor u s).
Proof. unfold require_fresh_factor. solve_pure. Qed.
#[global] Instance pure_require_fresh_mfa u s b : Pure (require_fresh_mfa u s b).
Proof. unfold require_fresh_mfa. solve_pure. Qed.
#[global] Instance pure_unlocked u : Pure (unlocked u).
Proof. unfold unlocked. solve_pure. Qed.
#[global] Instance pure_pending_enrollment u s : Pure (pending_enrollment u s).
Proof. unfold pending_enrollment. solve_pure. Qed.
#[global] Instance touches_random_tokens n p : Touches [] (random_tokens n p).
Proof. induction n; simpl; solve_touches. Qed.
#[global] Instance touches_new_recovery_codes : Touches [] new_recovery_codes.
Proof. apply touches_random_tokens. Qed.
End frames.
#[export] Hint Resolve touches_accept_history touches_note_rehash touches_upgrade
  touches_new_recovery_codes : tx.

(** ** The lockout bounds guessing *)

Section lockout.
Implicit Types (a : Attempts.t) (l : list Z).

(** The attempts as the server keeps them: at most five failures in a window, and
    an account with five is locked until its window is over. *)
Definition attempts_wf a : Prop :=
  0 ≤ a.(Attempts.failures) ≤ LOCKOUT_FAILURES
  ∧ (a.(Attempts.failures) = LOCKOUT_FAILURES →
     a.(Attempts.window_start) + LOCKOUT_SECONDS ≤ a.(Attempts.locked_until)).

(** Failures at the times [l], each while the account was not locked. *)
Inductive failing : Attempts.t → list Z → Prop :=
| failing_nil a : failing a []
| failing_cons a t l : a.(Attempts.locked_until) ≤ t →
    failing (count_failure t (current_window t a)) l → failing a (t :: l).

Lemma count_in_window t a :
  attempts_wf a → a.(Attempts.locked_until) ≤ t → 0 ≤ t → t + LOCKOUT_SECONDS ≤ u64_max →
  t < a.(Attempts.window_start) + LOCKOUT_SECONDS →
  a.(Attempts.failures) < LOCKOUT_FAILURES
  ∧ count_failure t (current_window t a)
    = Attempts.mk (a.(Attempts.failures) + 1) a.(Attempts.window_start)
        (if LOCKOUT_FAILURES <=? a.(Attempts.failures) + 1 then t + LOCKOUT_SECONDS
         else a.(Attempts.locked_until)).
Proof.
  intros [Hf Hl] Hu H0 Ht Hw. unfold LOCKOUT_FAILURES, LOCKOUT_SECONDS in *. split; [lia|].
  unfold current_window, LOCKOUT_SECONDS, sat_sub. rewrite (proj2 (Z.leb_gt _ _)) by lia.
  unfold count_failure, LOCKOUT_FAILURES, LOCKOUT_SECONDS. rewrite Z.mod_small by lia.
  by rewrite wadd_small by lia.
Qed.
Lemma count_new_window t a :
  0 ≤ t → t + LOCKOUT_SECONDS ≤ u64_max → 0 ≤ a.(Attempts.window_start) →
  a.(Attempts.window_start) + LOCKOUT_SECONDS ≤ t →
  count_failure t (current_window t a) = Attempts.mk 1 t 0.
Proof.
  unfold LOCKOUT_SECONDS. intros. unfold current_window, LOCKOUT_SECONDS, sat_sub.
  rewrite (proj2 (Z.leb_le _ _)) by lia. reflexivity.
Qed.

Lemma count_wf t a :
  attempts_wf a → a.(Attempts.locked_until) ≤ t → 0 ≤ a.(Attempts.window_start) ≤ t →
  t + LOCKOUT_SECONDS ≤ u64_max → attempts_wf (count_failure t (current_window t a))
  ∧ 0 ≤ (count_failure t (current_window t a)).(Attempts.window_start) ≤ t.
Proof.
  intros Hwf Hu H0 Hm. assert (0 ≤ t) as Ht by lia.
  destruct (Z_lt_le_dec t (a.(Attempts.window_start) + LOCKOUT_SECONDS)) as [Hw|Hw].
  - destruct (count_in_window _ _ Hwf Hu Ht Hm Hw) as [Hlt ->]. destruct Hwf as [Hf _].
    unfold attempts_wf, LOCKOUT_FAILURES, LOCKOUT_SECONDS in *; simpl. split; [split; [lia|]|done].
    intros He. rewrite (proj2 (Z.leb_le _ _)) by lia. lia.
  - rewrite count_new_window by (done || lia). unfold attempts_wf, LOCKOUT_FAILURES; simpl. lia.
Qed.

(** Times in order, after the window's start and within the clock's width. *)
Definition times_ok a l : Prop :=
  StronglySorted Z.le l
  ∧ ∀ t, t ∈ l → 0 ≤ a.(Attempts.window_start) ≤ t ∧ t + LOCKOUT_SECONDS ≤ u64_max.
Lemma times_ok_step a t l :
  times_ok a (t :: l) → attempts_wf a → a.(Attempts.locked_until) ≤ t →
  attempts_wf (count_failure t (current_window t a))
  ∧ times_ok (count_failure t (current_window t a)) l.
Proof.
  intros [Hs Ht] Hwf Hu. destruct (Ht t) as [H0 Hm]; [set_solver|].
  destruct (count_wf t a Hwf Hu H0 Hm) as [Hwf' H0']. split; [done|].
  apply StronglySorted_inv in Hs as [Hs Hf]. split; [done|]. intros u Hin.
  rewrite Forall_forall in Hf. specialize (Hf u Hin). destruct (Ht u); [set_solver|]. lia.
Qed.

(** A lock reaches past [b], so no failure follows before [b]. *)
Lemma failing_locked a l b :
  failing a l → b ≤ a.(Attempts.locked_until) → (∀ t, t ∈ l → t < b) → l = [].
Proof.
  intros [|a' t l' Hu _] Hb Ht; [done|]. specialize (Ht t ltac:(set_solver)). lia.
Qed.

(** All failures of one window. *)
Lemma failing_one_window a l b :
  failing a l → attempts_wf a → times_ok a l → b ≤ a.(Attempts.window_start) + LOCKOUT_SECONDS →
  (∀ t, t ∈ l → t < b ≤ t + LOCKOUT_SECONDS) →
  Z.of_nat (length l) + a.(Attempts.failures) ≤ LOCKOUT_FAILURES.
Proof.
  intros Hrun. induction Hrun as [a|a t l Hu Hrun IH]; intros Hwf Ht Hb Hl.
  { destruct Hwf. simpl. lia. }
  destruct (times_ok_step _ _ _ Ht Hwf Hu) as [Hwf' Ht'].
  destruct (proj2 Ht t) as [? ?]; [set_solver|]. destruct (Hl t) as [? ?]; [set_solver|].
  destruct (count_in_window t a) as [Hlt Heq]; [done|done|lia..|]. rewrite Heq in *. simpl in *.
  destruct (LOCKOUT_FAILURES <=? Attempts.failures a + 1) eqn:Hfive.
  - rewrite (failing_locked _ _ b Hrun); [simpl; unfold LOCKOUT_FAILURES in *; lia|simpl; lia|].
    intros u Hin. apply Hl. set_solver.
  - assert (Z.of_nat (length l) + (Attempts.failures a + 1) ≤ LOCKOUT_FAILURES); [|lia].
    apply IH; [done|done|done|]. intros u Hin. apply Hl. set_solver.
Qed.

(** Failures within a quarter of an hour: the rest of a window, then one more. *)
Lemma failing_two_windows a l b :
  failing a l → attempts_wf a → times_ok a l → (∀ t, t ∈ l → t < b ≤ t + LOCKOUT_SECONDS) →
  Z.of_nat (length l) ≤ 9 - Z.min 4 a.(Attempts.failures).
Proof.
  intros Hrun. induction Hrun as [a|a t l Hu Hrun IH]; intros Hwf Ht Hl.
  { simpl. lia. }
  destruct (times_ok_step _ _ _ Ht Hwf Hu) as [Hwf' Ht'].
  destruct (proj2 Ht t) as [? ?]; [set_solver|]. destruct (Hl t) as [? ?]; [set_solver|].
  assert (Hl' : ∀ u, u ∈ l → u < b ≤ u + LOCKOUT_SECONDS) by (intros u Hin; apply Hl; set_solver).
  destruct (Z_lt_le_dec t (a.(Attempts.window_start) + LOCKOUT_SECONDS)) as [Hw|Hw].
  - destruct (count_in_window t a) as [Hlt Heq]; [done|done|lia..|]. rewrite Heq in *. simpl in *.
    destruct Hwf as [Hf _]. unfold LOCKOUT_FAILURES in *.
    destruct (5 <=? Attempts.failures a + 1) eqn:Hfive.
    + rewrite (failing_locked _ _ b Hrun); [simpl; lia|simpl; lia|]. intros u Hin. by apply Hl'.
    + specialize (IH Hwf' Ht' Hl'). lia.
  - rewrite count_new_window in * by lia.
    pose proof (failing_one_window _ _ b Hrun Hwf' Ht') as Hone. simpl in Hone.
    specialize (Hone ltac:(lia) Hl'). unfold LOCKOUT_FAILURES in Hone. simpl. lia.
Qed.

(** Ten failures take at least a quarter of an hour. *)
Lemma failing_bounded a l t0 :
  failing a l → attempts_wf a → times_ok a l →
  (∀ t, t ∈ l → t0 ≤ t < t0 + LOCKOUT_SECONDS) → (length l ≤ 9)%nat.
Proof.
  intros Hrun Hwf Ht Hl.
  assert (Z.of_nat (length l) ≤ 9 - Z.min 4 a.(Attempts.failures)) as Hb.
  { apply (failing_two_windows a l (t0 + LOCKOUT_SECONDS)); [done..|].
    intros t Hin. specialize (Hl t Hin). lia. }
  destruct Hwf as [Hf _]. lia.
Qed.
End lockout.

(** ** Second factors *)

Section factors.
Context {E : Env}.
Implicit Types (u : User.t).

Lemma head_filter {A} (f : A → bool) (l : list A) x :
  head (List.filter f l) = Some x → x ∈ l ∧ f x = true.
Proof.
  intros Hh. assert (x ∈ List.filter f l) as Hin.
  { destruct (List.filter f l); simplify_eq/=. apply list_elem_of_here. }
  apply list_elem_of_In, filter_In in Hin as [Hin ?]. split; [by apply list_elem_of_In|done].
Qed.

Lemma totp_step_with_ok secret username code at_ last settings step :
  totp_step_with secret username code at_ last settings = Ok (Some step) →
  Str.len code = settings.(TotpSettings.digits)
  ∧ forallb Str.is_ascii_digit (Str.bytes code) = true
  ∧ (∀ l, last = Some l → l < step)
  ∧ totp_generate secret settings ((step * settings.(TotpSettings.period)) mod 2 ^ 64) = code
  ∧ step ∈ [at_ / settings.(TotpSettings.period); wadd (at_ / settings.(TotpSettings.period)) 1;
            sat_sub (at_ / settings.(TotpSettings.period)) 1].
Proof.
  unfold totp_step_with, mbind, result_bind. destruct (totp_validate settings); [|by intros].
  destruct (_ || _) eqn:Hc; [by intros|].
  apply orb_false_iff in Hc as [Hl%negb_false_iff%Z.eqb_eq Hd%negb_false_iff].
  destruct (totp_with _ _ _); [|by intros].
  set (q := at_ / _). generalize [q; wadd q 1; sat_sub q 1]. intros l [= Hh].
  apply head_filter in Hh as [Hin Hm].
  unfold step_matches in Hm. apply andb_true_iff in Hm as [Hlast Hg%String.eqb_eq].
  split_and!; try done. intros l0 ->. lia.
Qed.

(** How a second factor was accepted. *)
Lemma consume_factor_ok u code at_ u' :
  consume_password_factor u code at_ = Ok (true, u') →
  match u.(User.totp_secret) with
  | None => u' = u
  | Some secret => ∃ c, code = Some c
      ∧ ((Str.starts_with c "ri_recovery_" = true ∧ digest c ∈ u.(User.recovery_codes)
          ∧ u' = set_codes u (u.(User.recovery_codes) ∖ {[digest c]}))
         ∨ (Str.starts_with c "ri_recovery_" = false ∧ ∃ step,
              totp_step_with secret u.(User.username) c at_ u.(User.totp_last_step)
                u.(User.totp_settings) = Ok (Some step)
              ∧ u' = set_last_step u step))
  end.
Proof.
  unfold consume_password_factor. destruct (User.totp_secret u) as [secret|] eqn:Hs; [|by intros [= <-]].
  destruct code as [c|].
  - exists c. split; [done|]. destruct (Str.starts_with c "ri_recovery_") eqn:Hr.
    + left. unfold consume_recovery_code in *. rewrite Hs, Hr in *. simpl in *.
      case_bool_decide; simplify_eq. done.
    + right. split; [done|]. destruct (totp_step_with _ _ _ _ _ _) as [[step|]|] eqn:Ht; simplify_eq/=.
      by exists step.
  - destruct (totp_step_with _ _ "" _ _ _) as [[step|]|] eqn:Ht; intros; simplify_eq/=.
    pose proof (totp_step_with_ok _ _ _ _ _ _ _ Ht) as (Hl & _). exfalso. unfold totp_step_with in Ht.
    destruct (totp_validate (User.totp_settings u)) as [[]|] eqn:Hv; [|done]. unfold totp_validate in Hv. destruct (_ || _) eqn:Hc in Hv; [done|].
    apply orb_false_iff in Hc as [[_ Hdig]%orb_false_iff _]. unfold Str.len in Hl. simpl in Hl. lia.
Qed.

(** C36: a time step signs in once: whenever an authenticator code is accepted, its
    step is at most one away from the current one and later than every step
    accepted before; a code accepted afterwards, even the same digits, belongs to a
    still later step. *)
Theorem totp_no_replay u c at_ u' secret :
  u.(User.totp_secret) = Some secret → Str.starts_with c "ri_recovery_" = false →
  consume_password_factor u (Some c) at_ = Ok (true, u') →
  ∃ step, u'.(User.totp_last_step) = Some step
    ∧ (∀ l, u.(User.totp_last_step) = Some l → l < step)
    ∧ totp_generate secret u.(User.totp_settings)
        ((step * u.(User.totp_settings).(TotpSettings.period)) mod 2 ^ 64) = c
    ∧ (u64 at_ → Z.abs (step - at_ / u.(User.totp_settings).(TotpSettings.period)) ≤ 1)
    ∧ ∀ c2 at2 u2, Str.starts_with c2 "ri_recovery_" = false →
        consume_password_factor u' (Some c2) at2 = Ok (true, u2) →
        ∃ step2, u2.(User.totp_last_step) = Some step2 ∧ step < step2.
Proof.
  intros Hs Hr H1. pose proof (consume_factor_ok _ _ _ _ H1) as Hc. rewrite Hs in Hc.
  destruct Hc as (c' & [= <-] & [[? _]|(_ & step & Ht & ->)]); [congruence|].
  pose proof (totp_step_with_ok _ _ _ _ _ _ _ Ht) as (Hl & _ & Hlast & Hg & Hin).
  exists step. split_and!; [done|done|done| |].
  - intros Hu. assert (15 ≤ u.(User.totp_settings).(TotpSettings.period)) as Hp.
    { unfold totp_step_with, totp_validate in Ht. destruct (_ || _ || _) eqn:Hv in Ht; [done|].
      apply orb_false_iff in Hv as [_ Hv]. lia. }
    revert Hin. set (q := at_ / _). assert (0 ≤ q ≤ at_ / 15) as Hq.
    { unfold u64 in Hu. subst q. split; [apply Z.div_pos; lia|]. apply Z.div_le_compat_l; lia. }
    assert (at_ / 15 ≤ u64_max / 15) by (unfold u64 in Hu; apply Z.div_le_mono; lia).
    assert (u64_max / 15 < u64_max) by reflexivity.
    rewrite wadd_small by lia. unfold sat_sub.
    intros [->|[->|[->|[]%elem_of_nil]%elem_of_cons]%elem_of_cons]%elem_of_cons; lia.
  - intros c2 at2 u2 Hr2 H2. pose proof (consume_factor_ok _ _ _ _ H2) as Hc.
    simpl in Hc. rewrite Hs in Hc.
    destruct Hc as (c' & [= <-] & [[? _]|(_ & step2 & Ht2 & ->)]); [congruence|].
    apply totp_step_with_ok in Ht2 as (_ & _ & Hlast2 & _). exists step2. split; [done|]. by apply Hlast2.
Qed.

(** A recovery code works once: after it was accepted it is refused, and every
    other code of the account is still there. *)
Theorem recovery_code_one_use u c at_ u' at2 :
  consume_password_factor u (Some c) at_ = Ok (true, u') →
  is_Some u.(User.totp_secret) → Str.starts_with c "ri_recovery_" = true →
  consume_password_factor u' (Some c) at2 = Ok (false, u')
  ∧ u'.(User.recovery_codes) = u.(User.recovery_codes) ∖ {[digest c]}
  ∧ digest c ∈ u.(User.recovery_codes).
Proof.
  intros H1 [secret Hs] Hr. pose proof (consume_factor_ok _ _ _ _ H1) as Hc. rewrite Hs in Hc.
  destruct Hc as (c' & [= <-] & [(_ & Hin & ->)|[? _]]); [|congruence].
  split_and!; [|done|done]. unfold consume_password_factor, consume_recovery_code. simpl.
  rewrite Hs, Hr. simpl. rewrite bool_decide_eq_false_2 by set_solver. done.
Qed.
End factors.

(** ** Password history *)

Section history.
Context {E : Env}.
Implicit Types (s : St.t) (h : list string).

Lemma trim_length h limit : 0 ≤ limit → (length (trim_history h limit) ≤ Z.to_nat limit)%nat.
Proof. intros. unfold trim_history. rewrite length_drop. lia. Qed.

(** The hashes tried once each decide as all of them. *)
Lemma existsb_distinct f seen l :
  (∀ x, x ∈ seen → f x = false) →
  existsb f (distinct_from seen l) = existsb (λ x, negb (Str.is_empty x) && f x) l.
Proof.
  revert seen. induction l as [|x l IH]; intros seen Hs; simpl; [done|].
  destruct (Str.is_empty x); simpl; [by apply IH|].
  case_bool_decide as Hx; [rewrite (Hs x Hx); simpl; by apply IH|]. simpl.
  destruct (f x) eqn:Hfx; [done|]. apply IH. intros y [->%elem_of_singleton|Hy]%elem_of_union; auto.
Qed.

(** A password is refused exactly when it matches the current hash or one of the
    latest [limit] kept ones. *)
Lemma reused_spec plaintext h current limit :
  reused plaintext h current limit = true ↔
  ∃ hash, hash ∈ current :: take (Z.to_nat limit) (rev h) ∧ hash ≠ ""
    ∧ password_matches plaintext hash = true.
Proof.
  unfold reused.
  assert (Heq : negb (Str.is_empty current) && password_matches plaintext current
      || existsb (password_matches plaintext)
           (distinct_from (if Str.is_empty current then ∅ else {[current]}) (take (Z.to_nat limit) (rev h)))
    = existsb (λ x, negb (Str.is_empty x) && password_matches plaintext x)
        (current :: take (Z.to_nat limit) (rev h))).
  { simpl. destruct (Str.is_empty current); simpl; [by rewrite existsb_distinct by set_solver|].
    destruct (password_matches plaintext current) eqn:Hc; [done|].
    by rewrite existsb_distinct by (intros ? ->%elem_of_singleton; done). }
  rewrite Heq, existsb_exists. split.
  - intros (x & Hin%list_elem_of_In & [He%negb_true_iff Hm]%andb_true_iff). exists x. split_and!; try done.
    unfold Str.is_empty in He. by apply bool_decide_eq_false in He.
  - intros (x & Hin & Hne & Hm). exists x. split; [by apply list_elem_of_In|]. rewrite Hm, andb_true_r.
    unfold Str.is_empty. by rewrite bool_decide_eq_false_2.
Qed.

(** The newest hash stays last, whatever is dropped. *)
Lemma retain_last h current hash limit :
  0 < limit → last (retain_hash h current hash limit) = Some hash.
Proof.
  intros Hl. unfold retain_hash. cbv zeta.
  match goal with |- context [push_hash ?l hash] => generalize l end. intros h1.
  assert (last (push_hash h1 hash) = Some hash) as Hlast.
  { unfold push_hash. destruct (last h1) as [x|] eqn:Hx; [|done].
    destruct (String.eqb_spec x hash) as [->|]; [done|]. apply last_snoc. }
  unfold trim_history. rewrite <- Hlast, !last_lookup, length_drop, lookup_drop. f_equal.
  apply last_Some in Hlast as [? ->]. rewrite length_app. simpl. lia.
Qed.

(** The password history does its job: a new password is accepted only if it
    matches neither the current password nor any of the last ones kept, the new
    hash is then the latest of the history, and the history never grows beyond its
    limit. *)
Theorem password_not_reused limit user_id current plaintext hash s s' :
  0 < limit → hash ≠ "" → accept_history limit user_id current plaintext hash s = (Ok (), s') →
  ∃ h h', load_history user_id s = (Ok h, s)
    ∧ (∀ x, x ∈ current :: take (Z.to_nat limit) (rev h) → x ≠ "" → password_matches plaintext x = false)
    ∧ s'.(St.db) !! (HISTORY, user_id) = Some (RStringList h')
    ∧ last h' = Some hash ∧ (length h' ≤ Z.to_nat limit)%nat.
Proof.
  unfold accept_history. intros Hl Hne Hrun.
  unfold Str.is_empty in Hrun. rewrite bool_decide_eq_false_2 in Hrun by done.
  replace (limit =? 0) with false in Hrun by lia. simpl in Hrun.
  apply bind_ok in Hrun as (h & s1 & Hload & Hrun). pose proof (pure_run _ _ _ _ Hload) as ->.
  apply bind_ok in Hrun as ([] & s1 & [Hre%negb_true_iff ->]%ensure_ok & Hrun).
  exists h, (retain_hash h current hash limit). split; [done|].
  assert (Hlast := retain_last h current hash limit Hl). split_and!; [| |done|].
  - intros x Hx Hxe. destruct (password_matches plaintext x) eqn:Hm; [|done].
    assert (reused plaintext h current limit = true) by (apply reused_spec; eauto). congruence.
  - unfold save_history in Hrun. destruct (retain_hash h current hash limit); [done|].
    apply put_ok in Hrun as ->. apply lookup_insert_eq.
  - unfold retain_hash. apply trim_length. lia.
Qed.
End history.

(** ** A credential change ends every session *)

Section epochs.
Context {E : Env}.
Implicit Types (s : St.t) (u : User.t).

(** No identity of the epoch of [u] is accepted while its account is stored as
    [u'], of another epoch. *)
Lemma epoch_refused i u' s v s' :
  s.(St.db) !! ("users", i.(Identity.user_id)) = Some (RUser u') →
  u'.(User.epoch) ≠ i.(Identity.epoch) → identity_user i s ≠ (Ok v, s').
Proof.
  intros Hu He Hrun. apply identity_user_ok in Hrun as (_ & Hrow & _ & Hep & _).
  rewrite Hu in Hrow. injection Hrow as <-. done.
Qed.

Lemma epoch_advances e : u64 e → wadd e 1 ≠ e.
Proof.
  unfold u64, wadd, u64_max. intros. destruct (decide (e = 2 ^ 64 - 1)) as [->|]; [done|].
  rewrite Z.mod_small; lia.
Qed.

(** What a confirmed enrollment rested on and left. *)
Record totp_confirmed u (ses : Session.t) (code : string) s s' (secret : string) (step : Z)
    (codes : gset string) : Prop := {
  tc_fresh : s.(St.clock) - ses.(Session.identity).(Identity.auth_time) ≤ FRESH_SECONDS;
  tc_factor : is_Some u.(User.totp_secret) ∨ u.(User.has_passkeys) = true →
    ses.(Session.identity).(Identity.mfa) = true;
  tc_enrollment : ∃ e expires, u.(User.totp_pending) = Some (secret, expires) ∧ s.(St.clock) < expires
    ∧ s.(St.db) !! (ENROLLMENTS, u.(User.id)) = Some (REnrollment e)
    ∧ e.(Enrollment.session_id) = ses.(Session.id) ∧ e.(Enrollment.epoch) = u.(User.epoch)
    ∧ e.(Enrollment.secret_hash) = digest secret
    ∧ e.(Enrollment.replace) = bool_decide (is_Some u.(User.totp_secret));
  tc_code : totp_step secret u.(User.username) code s.(St.clock) None = Ok (Some step);
  tc_user : s'.(St.db) !! ("users", u.(User.id)) = Some (RUser (enabled_totp u secret step codes));
  tc_done : s'.(St.db) !! (ENROLLMENTS, u.(User.id)) = None;
}.

Lemma require_fresh_factor_ok u ses s x s' :
  require_fresh_factor u ses s = (Ok x, s') →
  s' = s ∧ s.(St.clock) - ses.(Session.identity).(Identity.auth_time) ≤ FRESH_SECONDS
  ∧ (is_Some u.(User.totp_secret) ∨ u.(User.has_passkeys) = true →
     ses.(Session.identity).(Identity.mfa) = true).
Proof.
  unfold require_fresh_factor, require_factor_session. intros Hrun.
  apply bind_ok in Hrun as (? & s1 & [-> ->]%now_ok & Hrun).
  apply bind_ok in Hrun as (? & s1 & [Hf ->]%ensure_ok & [Hm ->]%ensure_ok).
  split_and!; [done| |].
  - unfold sat_sub in Hf. lia.
  - intros Hor. destruct (Identity.mfa _); [done|]. simpl in Hm.
    rewrite andb_true_r in Hm. apply negb_true_iff, orb_false_iff in Hm as [H1%bool_decide_eq_false H2].
    destruct Hor as [?|?]; [done|congruence].
Qed.

Lemma pending_enrollment_ok u ses s o s' :
  pending_enrollment u ses s = (Ok o, s') →
  ∀ e secret expires, o = Some (e, secret, expires) →
    u.(User.totp_pending) = Some (secret, expires)
    ∧ s.(St.db) !! (ENROLLMENTS, u.(User.id)) = Some (REnrollment e)
    ∧ e.(Enrollment.session_id) = ses.(Session.id) ∧ e.(Enrollment.epoch) = u.(User.epoch)
    ∧ e.(Enrollment.secret_hash) = digest secret.
Proof.
  unfold pending_enrollment. intros Hrun e secret expires ->.
  destruct (User.totp_pending u) as [[sec ex]|]; [|by tx_inv].
  apply bind_ok in Hrun as (oe & s1 & [-> Hrow]%get_ok & [Ho ->]%ret_ok).
  destruct oe as [e'|]; [|done]. destruct (_ && _ && _) eqn:Hc; [|done]. simplify_eq.
  apply andb_true_iff in Hc as [[H1%String.eqb_eq H2%Z.eqb_eq]%andb_true_iff H3%String.eqb_eq]. done.
Qed.

Lemma totp_confirm_ok u ses code recovery s v s' :
  totp_confirm_in u ses code recovery s = (Ok v, s') →
  ∃ secret step codes, totp_confirmed u ses code s s' secret step codes.
Proof.
  unfold totp_confirm_in. intros Hrun.
  apply bind_ok in Hrun as (? & s1 & (-> & Hfresh & Hfac)%require_fresh_factor_ok & Hrun).
  apply bind_ok in Hrun as (o & s1 & Hp & Hrun). pose proof (pure_run _ _ _ _ Hp) as ->.
  apply bind_ok in Hrun as ([[e secret] expires] & s1 & [-> ->]%some_or_ok & Hrun).
  apply bind_ok in Hrun as (? & s1 & [-> ->]%now_ok & Hrun).
  apply bind_ok in Hrun as (? & s1 & [Hlive ->]%ensure_ok & Hrun).
  apply bind_ok in Hrun as (? & s1 & [Hrep ->]%ensure_ok & Hrun).
  apply bind_ok in Hrun as (st & s1 & [Hstep ->]%lift_ok & Hrun).
  apply bind_ok in Hrun as (step & s1 & [-> ->]%some_or_ok & Hrun).
  apply bind_ok in Hrun as (codes & s1 & Hcodes & Hrun).
  apply bind_ok in Hrun as ([] & s2 & ->%put_ok & Hrun).
  apply bind_ok in Hrun as ([] & s3 & ->%remove_ok & Hrun).
  apply bind_ok in Hrun as ([] & s4 & Hq & Hrun).
  apply bind_ok in Hrun as ([] & s5 & Haud & Hrun).
  assert (Hend : ∀ b k, b ∉ ["rp_sessions"; "logout_deliveries"; "meta"; "audit"] →
    s'.(St.db) !! (b, k)
    = base.delete (ENROLLMENTS, u.(User.id))
        (<[("users", u.(User.id)) := RUser (enabled_totp u secret step (code_set codes))]> s1.(St.db)) !! (b, k)).
  { intros b k Hb. transitivity (s5.(St.db) !! (b, k)).
    - destruct recovery; [|by tx_inv]. apply bind_ok in Hrun as ([] & s6 & Ha & [_ ->]%ret_ok).
      apply (touches_at ["meta"; "audit"] _ _ _ _ _ _ Ha). set_solver.
    - rewrite (touches_at ["meta"; "audit"] _ _ _ _ _ _ Haud) by set_solver.
      apply (touches_at ["rp_sessions"; "logout_deliveries"] _ _ _ _ _ _ Hq). set_solver. }
  destruct (pending_enrollment_ok _ _ _ _ _ Hp _ _ _ eq_refl) as (H1 & H2 & H3 & H4 & H5).
  exists secret, step, (code_set codes). constructor; try done.
  - exists e, expires. split_and!; try done; [lia|]. by apply eqb_prop.
  - rewrite Hend by bucket. rewrite lookup_delete_ne by done. apply lookup_insert_eq.
  - rewrite Hend by bucket. apply lookup_delete_eq.
Qed.

(** An authenticator app becomes the account's factor only through the session
    that started its enrollment, for the epoch and the very secret it started
    with, in time, with a recent sign-in as strong as the account demands and a
    current code of that secret; from then on every session and grant of the
    account's previous epoch is refused. *)
Theorem totp_enrollment_sound u ses code recovery s v s' :
  totp_confirm_in u ses code recovery s = (Ok v, s') → u64 u.(User.epoch) →
  ∃ secret step codes, totp_confirmed u ses code s s' secret step codes
    ∧ ∀ i s2 x s3, i.(Identity.user_id) = u.(User.id) → i.(Identity.epoch) = u.(User.epoch) →
        s2.(St.db) !! ("users", u.(User.id)) = s'.(St.db) !! ("users", u.(User.id)) →
        identity_user i s2 ≠ (Ok x, s3).
Proof.
  intros (secret & step & codes & H)%totp_confirm_ok Hu. exists secret, step, codes. split; [done|].
  intros i s2 x s3 Hi He Hsame. eapply (epoch_refused _ (enabled_totp u secret step codes)).
  - rewrite Hi, Hsame. apply H.
  - rewrite He. by apply epoch_advances.
Qed.

Lemma replace_password_ok u plaintext hash s u' s' :
  replace_password u plaintext hash s = (Ok u', s') →
  u' = set_password u hash (wadd u.(User.epoch) 1)
  ∧ s'.(St.db) !! ("users", u.(User.id)) = Some (RUser u')
  ∧ s'.(St.db) !! ("attempts", u.(User.username)) = None
  ∧ s'.(St.clock) = s.(St.clock)
  ∧ ∃ s1, accept_history config.(Config.password_history) u.(User.id) u.(User.password_hash) plaintext
      hash s = (Ok (), s1).
Proof.
  unfold replace_password. intros Hrun.
  apply bind_ok in Hrun as ([] & s1 & Hh & Hrun).
  apply bind_ok in Hrun as ([] & s2 & ->%put_ok & Hrun).
  apply bind_ok in Hrun as ([] & s3 & ->%remove_ok & Hrun).
  apply bind_ok in Hrun as ([] & s4 & Hq & Hrun).
  apply bind_ok in Hrun as ([] & s5 & Ha & [-> ->]%ret_ok).
  pose proof (touches_run [HISTORY] _ _ _ _ Hh) as (Hc1 & _).
  pose proof (touches_run ["rp_sessions"; "logout_deliveries"] _ _ _ _ Hq) as (Hc2 & _).
  pose proof (touches_run ["meta"; "audit"] _ _ _ _ Ha) as (Hc3 & _).
  split_and!; [done| | |simpl in *; congruence|by exists s1].
  - rewrite (touches_at ["meta"; "audit"] _ _ _ _ _ _ Ha) by bucket.
    rewrite (touches_at ["rp_sessions"; "logout_deliveries"] _ _ _ _ _ _ Hq) by bucket.
    simpl. rewrite lookup_delete_ne by done. apply lookup_insert_eq.
  - rewrite (touches_at ["meta"; "audit"] _ _ _ _ _ _ Ha) by bucket.
    rewrite (touches_at ["rp_sessions"; "logout_deliveries"] _ _ _ _ _ _ Hq) by bucket.
    simpl. apply lookup_delete_eq.
Qed.
End epochs.
