(* ===== verification/Signin.v ===== *)
(** * Signing in (src/src/core.rs, assembly/signin.rs, signin.rs,
    identity/signals.rs, assembly/browser_runtime.rs)

    A local password sign-in: the lockout, the password, the second factor, and
    the session or the staged browser login a success leaves.  A failed sign-in
    commits what it must remember although the caller sees an error.  A staged
    login becomes a browser session when it is attached.  A password change checks
    the same things again in its own transaction. *)

From S2P Require Import Prelude Json Model Store Env Provider Jose Delegation Agents Assurance Claims Identities Oidc Token Endpoints Device Logout Credentials.

#[local] Set Warnings "-clear-no-such-hyp".

Inductive Delivery := Bearer_ | Browser_.

Section signin.
Context {E : Env}.

(** [UserView::from]. *)
Definition user_view (u : User.t) : json :=
  Json.obj
    [("id", JStr u.(User.id)); ("username", JStr u.(User.username));
     ("email", Json.of_option JStr u.(User.email)); ("display_name", JStr u.(User.display_name));
     ("enabled", JBool u.(User.enabled)); ("admin", JBool u.(User.admin));
     ("mfa_enabled", JBool (bool_decide (is_Some u.(User.totp_secret)) || u.(User.has_passkeys)));
     ("password_available", JBool (negb (Str.is_empty u.(User.password_hash))));
     ("created_at", JNum u.(User.created_at));
     ("attributes", JObj (btree_entries u.(User.attributes)));
     ("email_verified", JBool u.(User.email_verified));
     ("subjects", JObj (prod_map (λ k, k) JStr <$> btree_entries u.(User.subjects)))].

Definition with_session_id (i : Identity.t) (sid : string) : Identity.t :=
  Identity.mk i.(Identity.amr) i.(Identity.source) i.(Identity.user_id) i.(Identity.epoch)
    i.(Identity.mfa) i.(Identity.auth_time) sid.

Definition mint_bearer_session (i : Identity.t) (expires_at : Z) : tx (Session.t * string) :=
  token ← random_token "ri_session_";
  sid ← id;
  let session := Session.mk sid (digest token) (with_session_id i sid) expires_at false in
  _ ← put "sessions" session.(Session.id) session;
  _ ← put "session_tokens" session.(Session.token_hash) session.(Session.id);
  mret (session, token).

(** [signin::STAGED_SECONDS] and [signin::ROTATION_GRACE_SECONDS]. *)
Definition STAGED_SECONDS : Z := 120.
Definition ROTATION_GRACE_SECONDS : Z := 60.
Definition stage_browser_login (i : Identity.t) (session_expires_at : Z) (method : string) : tx string :=
  staged ← id;
  at_ ← now;
  _ ← put "browser_logins" staged
        (StagedLogin.mk (with_session_id i "") session_expires_at (wadd at_ STAGED_SECONDS) method);
  mret staged.

Definition login_failed_error : Error.t :=
  Error.new UNAUTHORIZED "invalid_credentials" "Invalid username, password, or one-time code".

(** The account a user name belongs to. *)
Definition login_user (username : string) : tx (option User.t) :=
  uid ← get string "usernames" username;
  match uid with Some uid => get User.t "users" uid | None => mret None end.
(** The hash a password is checked against; an unknown account costs the same. *)
Definition login_hash (user : option User.t) : string :=
  match user with
  | Some u => if Str.is_empty u.(User.password_hash) then dummy_hash else u.(User.password_hash)
  | None => dummy_hash
  end.

(** The password and the second factor: whether the sign-in is valid, and the
    user with the factor used up. *)
Definition verify_factors (user : option User.t) (matches : bool) (otp : option string) (at_ : Z) :
    Result (bool * option User.t) :=
  match user with
  | Some u =>
      if matches && negb (Str.is_empty u.(User.password_hash)) && u.(User.enabled) then
        r ← consume_password_factor u otp at_;
        Ok (r.1, Some r.2)
      else Ok (false, user)
  | None => Ok (false, None)
  end.

(** A failed sign-in: counted for an account that exists. *)
Definition login_failed (username : string) (known : bool) (attempts : Attempts.t) (at_ : Z) :
    tx (Result json) :=
  _ ← (if known then put "attempts" username (count_failure at_ attempts) else mret ());
  _ ← audit "anonymous" "login.failed" username;
  mret (Err login_failed_error).

(** The authentication transaction a sign-in is for. *)
Definition login_challenge (transaction : option string) (u : User.t) (at_ : Z) :
    tx (option AuthenticationTransaction.t) :=
  match transaction with
  | None => mret None
  | Some token =>
      c ← get AuthenticationTransaction.t "authentication" (digest token);
      c ← some_or (match c with
                   | Some c => if (at_ <? c.(AuthenticationTransaction.expires_at))
                                  && bool_decide (c.(AuthenticationTransaction.authenticated_session) = None)
                               then Some c else None
                   | None => None
                   end) (Error.bad "Authentication transaction expired or used");
      _ ← ensure (match c.(AuthenticationTransaction.user_id) with
                  | Some uid => String.eqb uid u.(User.id)
                  | None => true
                  end) Error.forbidden;
      _ ← ensure (bool_decide (c.(AuthenticationTransaction.source_stage) = None))
            (Error.bad "This authentication transaction belongs to an embedded source stage");
      mret (Some c)
  end.
Definition with_authenticated (c : AuthenticationTransaction.t) (sid : string) :
    AuthenticationTransaction.t :=
  AuthenticationTransaction.mk c.(AuthenticationTransaction.request_hash)
    c.(AuthenticationTransaction.user_id) (Some sid) c.(AuthenticationTransaction.expires_at)
    c.(AuthenticationTransaction.source_stage).

(** What a verified sign-in leaves. *)
Definition login_succeeded (username : string) (u : User.t) (upgraded : option string)
    (transaction : option string) (delivery : Delivery) (at_ : Z) : tx (Result json) :=
  _ ← match upgraded with
      | Some hash => note_rehash config.(Config.password_history) u.(User.id) u.(User.password_hash) hash
      | None => mret ()
      end;
  let u := match upgraded with Some hash => set_password u hash u.(User.epoch) | None => u end in
  _ ← put "users" u.(User.id) u;
  _ ← remove "attempts" username;
  challenge ← catch (login_challenge transaction u at_);
  match challenge with
  | Err e =>
      if Error.is_client_error e then
        _ ← audit u.(User.id) "login.transaction_rejected" username;
        mret (Err e)
      else fail e
  | Ok challenge =>
      let identity := Identity.mk [] None u.(User.id) u.(User.epoch)
                        (bool_decide (is_Some u.(User.totp_secret))) at_ "" in
      let expires_at := wadd at_ config.(Config.session_ttl) in
      match delivery with
      | Browser_ =>
          staged ← stage_browser_login identity expires_at "password";
          _ ← audit u.(User.id) "login.succeeded" staged;
          mret (Ok (Json.obj [("staged", JStr staged); ("user", user_view u)]))
      | Bearer_ =>
          st ← mint_bearer_session identity expires_at;
          let session := st.1 in
          _ ← match challenge, transaction with
              | Some c, Some token =>
                  put "authentication" (digest token) (with_authenticated c session.(Session.id))
              | _, _ => mret ()
              end;
          _ ← audit u.(User.id) "login.succeeded" session.(Session.id);
          mret (Ok (Json.obj [("session_token", JStr st.2); ("expires_at", JNum session.(Session.expires_at));
                              ("user", user_view u)]))
      end
  end.

(** The transaction of [password_login] for an account no directory manages. *)
Definition password_login_local (username password : string) (otp transaction : option string)
    (delivery : Delivery) : tx (Result json) :=
  at_ ← now;
  attempts ← get Attempts.t "attempts" username;
  let attempts := default Attempts.default attempts in
  if at_ <? attempts.(Attempts.locked_until) then
    _ ← audit "anonymous" "login.locked" username;
    mret (Err rate_limited)
  else
    let attempts := current_window at_ attempts in
    user ← login_user username;
    let hash := login_hash user in
    let matches := password_matches password hash in
    upgraded ← (if matches then upgrade_password_hash password hash else mret None);
    verified ← lift (verify_factors user matches otp at_);
    match verified with
    | (true, Some u) => login_succeeded username u upgraded transaction delivery at_
    | _ => login_failed username (bool_decide (is_Some user)) attempts at_
    end.

(** [password_login] when [directory_login] has no account to check: the request
    is checked before the transaction runs. *)
Definition password_login (username password : string) (otp transaction : option string)
    (delivery : Delivery) (s : St.t) : Result json * St.t :=
  match delivery, transaction with
  | Browser_, Some _ => (Err Error.internal, s)
  | _, _ =>
      match validate_name username with
      | Err e => (Err e, s)
      | Ok _ => write_flat (password_login_local username password otp transaction delivery) s
      end
  end.
Definition login_for (username password : string) (otp transaction : option string) :
    St.t → Result json * St.t :=
  password_login username password otp transaction Bearer_.
Definition login (username password : string) (otp : option string) : St.t → Result json * St.t :=
  login_for username password otp None.

(** ** Changing the password *)

(** The read that pins the account and the session. *)
Definition change_password_pin (token : string) : tx (User.t * Session.t) :=
  us ← session token;
  _ ← require_local us.1;
  _ ← require_fresh_mfa us.1 us.2 (bool_decide (is_Some us.1.(User.totp_secret)));
  r ← unlocked us.1;
  _ ← lift r;
  mret us.

(** A wrong password or code: only the guessing budget is committed. *)
Definition change_failed (u : User.t) (at_ : Z) : tx (Result json) :=
  attempts ← get Attempts.t "attempts" u.(User.username);
  _ ← put "attempts" u.(User.username)
        (count_failure at_ (current_window at_ (default Attempts.default attempts)));
  _ ← audit "anonymous" "login.failed" u.(User.username);
  mret (Err login_failed_error).

(** The write, with the pinned account and session, the new hash, and whether the
    current password matched the pinned hash. *)
Definition change_password_commit (token : string) (pinned : User.t) (pinned_session : Session.t)
    (password new_hash : string) (password_ok : bool) (otp : option string) : tx (Result json) :=
  us ← session token;
  let u := us.1 in
  let s := us.2 in
  _ ← ensure (String.eqb u.(User.id) pinned.(User.id) && (u.(User.epoch) =? pinned.(User.epoch))
              && String.eqb u.(User.username) pinned.(User.username)
              && String.eqb u.(User.password_hash) pinned.(User.password_hash)
              && String.eqb s.(Session.id) pinned_session.(Session.id)
              && String.eqb s.(Session.identity).(Identity.session_id) s.(Session.id)
              && String.eqb s.(Session.token_hash) (digest token)) Error.forbidden;
  _ ← require_local u;
  let factor_required := bool_decide (is_Some u.(User.totp_secret)) in
  _ ← require_fresh_mfa u s factor_required;
  r ← unlocked u;
  match r with
  | Err locked => mret (Err locked)
  | Ok _ =>
      at_ ← now;
      factor ← (if password_ok then lift (consume_password_factor u otp at_) else mret (false, u));
      if negb factor.1 then change_failed u at_
      else
        u ← replace_password factor.2 password new_hash;
        _ ← ensure (negb (s.(Session.expires_at) <=? at_)) Error.unauthorized;
        _ ← require_fresh_mfa u s factor_required;
        mret (Ok (Json.obj [("changed", JBool true); ("sessions_revoked", JBool true)]))
  end.
End signin.

(** ** Steps *)

Section steps.
Context {E : Env}.
Implicit Types (s : St.t) (u : User.t).

(** Two states with the same records at the same time. *)
Definition same_db s s1 : Prop :=
  s1.(St.clock) = s.(St.clock) ∧ s1.(St.ctx) = s.(St.ctx) ∧ ∀ b k, s1.(St.db) !! (b, k) = s.(St.db) !! (b, k).

#[global] Instance pure_login_user n : Pure (login_user n).
Proof. unfold login_user. solve_pure. Qed.
#[global] Instance pure_login_challenge t u a : Pure (login_challenge t u a).
Proof. unfold login_challenge. solve_pure. Qed.
#[global] Instance touches_mint i e : Touches ["sessions"; "session_tokens"] (mint_bearer_session i e).
Proof. unfold mint_bearer_session. solve_touches. Qed.
#[global] Instance touches_stage i e m : Touches ["browser_logins"] (stage_browser_login i e m).
Proof. unfold stage_browser_login. solve_touches. Qed.
#[global] Instance touches_login_failed n k a t :
  Touches ["attempts"; "meta"; "audit"] (login_failed n k a t).
Proof. unfold login_failed. solve_touches. Qed.

(** The two ways a sign-in runs: the account is locked, or its password and factor
    are checked. *)
Lemma login_steps username password otp transaction delivery s x s' :
  password_login_local username password otp transaction delivery s = (Ok x, s') →
  ∃ attempts, get Attempts.t "attempts" username s = (Ok attempts, s)
    ∧ ((s.(St.clock) < (default Attempts.default attempts).(Attempts.locked_until)
          ∧ x = Err rate_limited ∧ audit "anonymous" "login.locked" username s = (Ok (), s'))
       ∨ (default Attempts.default attempts).(Attempts.locked_until) ≤ s.(St.clock)
         ∧ ∃ user upgraded s1 b ou,
             login_user username s = (Ok user, s)
             ∧ same_db s s1
             ∧ verify_factors user (password_matches password (login_hash user)) otp s.(St.clock) = Ok (b, ou)
             ∧ match b, ou with
               | true, Some u => login_succeeded username u upgraded transaction delivery s.(St.clock) s1
                                   = (Ok x, s')
               | _, _ => login_failed username (bool_decide (is_Some user))
                           (current_window s.(St.clock) (default Attempts.default attempts)) s.(St.clock) s1
                         = (Ok x, s')
               end).
Proof.
  unfold password_login_local. cbv zeta. intros Hrun.
  apply bind_ok in Hrun as (? & s1 & [-> ->]%now_ok & Hrun).
  apply bind_ok in Hrun as (attempts & s1 & Hatt & Hrun). pose proof (pure_run _ _ _ _ Hatt) as ->.
  exists attempts. split; [done|].
  destruct (Z.ltb_spec s.(St.clock) (default Attempts.default attempts).(Attempts.locked_until)) as [Hl|Hl].
  { left. apply bind_ok in Hrun as ([] & s1 & Ha & [-> ->]%ret_ok). done. }
  right. split; [done|].
  apply bind_ok in Hrun as (user & s1 & Huser & Hrun). pose proof (pure_run _ _ _ _ Huser) as ->.
  apply bind_ok in Hrun as (upgraded & s1 & Hup & Hrun).
  apply bind_ok in Hrun as ([b u] & s2 & [Hv ->]%lift_ok & Hrun).
  exists user, upgraded, s1, b, u. split_and!; [done| |done|by destruct b, u].
  destruct (password_matches _ _); [|tx_inv; done].
  pose proof (touches_run [] _ _ _ _ Hup) as (? & ? & _ & Hdb). split_and!; [done..|].
  intros b' k. apply Hdb. set_solver.
Qed.
End steps.

Section success.
Context {E : Env}.
Implicit Types (s : St.t) (u : User.t).

(** The identity a password sign-in establishes. *)
Definition signed_identity u (at_ : Z) (sid : string) : Identity.t :=
  Identity.mk [] None u.(User.id) u.(User.epoch) (bool_decide (is_Some u.(User.totp_secret))) at_ sid.

(** What a sign-in leaves for its delivery. *)
Definition login_result (delivery : Delivery) u (s s' : St.t) (v : json) : Prop :=
  let expires := wadd s.(St.clock) config.(Config.session_ttl) in
  match delivery with
  | Bearer_ => ∃ token sid, Json.get "session_token" v = Some (JStr token)
      ∧ s'.(St.db) !! ("sessions", sid)
        = Some (RSession (Session.mk sid (digest token) (signed_identity u s.(St.clock) sid) expires false))
      ∧ s'.(St.db) !! ("session_tokens", digest token) = Some (RString sid)
  | Browser_ => ∃ staged, Json.get "staged" v = Some (JStr staged)
      ∧ s'.(St.db) !! ("browser_logins", staged)
        = Some (RStagedLogin (StagedLogin.mk (signed_identity u s.(St.clock) "") expires
                                (wadd s.(St.clock) STAGED_SECONDS) "password"))
      ∧ (∀ k, s'.(St.db) !! ("sessions", k) = s.(St.db) !! ("sessions", k))
      ∧ ∀ k, s'.(St.db) !! ("session_tokens", k) = s.(St.db) !! ("session_tokens", k)
  end.

Lemma mint_ok i e s ses token s' :
  mint_bearer_session i e s = (Ok (ses, token), s') →
  ∃ sid, ses = Session.mk sid (digest token) (with_session_id i sid) e false
    ∧ s'.(St.db) !! ("sessions", sid) = Some (RSession ses)
    ∧ s'.(St.db) !! ("session_tokens", digest token) = Some (RString sid).
Proof.
  unfold mint_bearer_session. intros Hrun.
  apply bind_ok in Hrun as (t & s1 & _ & Hrun). apply bind_ok in Hrun as (sid & s2 & _ & Hrun).
  cbv zeta in Hrun. cbn [Session.id Session.token_hash] in Hrun.
  apply bind_ok in Hrun as ([] & s3 & ->%put_ok & Hrun).
  apply bind_ok in Hrun as ([] & s4 & ->%put_ok & [[= -> ->] ->]%ret_ok).
  exists sid. split_and!; [done| |].
  - cbn [St.db St.set_db]. rewrite lookup_insert_ne by done. apply lookup_insert_eq.
  - apply lookup_insert_eq.
Qed.

Lemma login_succeeded_ok username u upgraded transaction delivery s v s' :
  login_succeeded username u upgraded transaction delivery s.(St.clock) s = (Ok (Ok v), s') →
  let u' := match upgraded with Some hash => set_password u hash u.(User.epoch) | None => u end in
  s'.(St.db) !! ("users", u.(User.id)) = Some (RUser u')
  ∧ s'.(St.db) !! ("attempts", username) = None
  ∧ login_result delivery u s s' v.
Proof.
  unfold login_succeeded. intros Hrun.
  apply bind_ok in Hrun as ([] & s1 & Hh & Hrun).
  assert (Hf1 : s1.(St.clock) = s.(St.clock) ∧ ∀ b k, b ≠ HISTORY → s1.(St.db) !! (b, k) = s.(St.db) !! (b, k)).
  { destruct upgraded; [|by tx_inv].
    pose proof (touches_run [HISTORY] _ _ _ _ Hh) as (? & _ & _ & Hdb). split; [done|].
    intros b k Hb. apply Hdb. set_solver. }
  destruct Hf1 as [Hc1 Hd1]. cbv zeta in Hrun.
  set (u' := match upgraded with Some hash => set_password u hash u.(User.epoch) | None => u end) in *.
  assert (Hu' : u'.(User.id) = u.(User.id) ∧ u'.(User.epoch) = u.(User.epoch)
                ∧ u'.(User.totp_secret) = u.(User.totp_secret)) by (subst u'; by destruct upgraded).
  destruct Hu' as (Hid & Hep & Hto).
  apply bind_ok in Hrun as ([] & s2 & ->%put_ok & Hrun).
  apply bind_ok in Hrun as ([] & s3 & ->%remove_ok & Hrun).
  apply bind_ok in Hrun as (ch & s4 & Hch & Hrun). apply (proj1 (catch_ok _ _ _ _)) in Hch.
  pose proof (pure_run _ _ _ _ Hch) as ->.
  destruct ch as [ch|e].
  2:{ destruct (Error.is_client_error e); [|done]. by apply bind_ok in Hrun as ([] & s5 & _ & [? _]%ret_ok). }
  rewrite Hep, Hid, Hto in Hrun. fold (signed_identity u s.(St.clock) "") in Hrun.
  set (s3 := St.set_db _ _) in Hrun.
  assert (Hbase : ∀ b k, b ≠ HISTORY → s3.(St.db) !! (b, k)
    = base.delete ("attempts", username) (<[("users", u.(User.id)) := RUser u']> s.(St.db)) !! (b, k)).
  { intros b k Hb. subst s3. cbn [St.db St.set_db].
    destruct (decide ((b, k) = ("attempts", username))) as [->|?]; [by rewrite !lookup_delete_eq|].
    rewrite !lookup_delete_ne by congruence.
    destruct (decide ((b, k) = ("users", u.(User.id)))) as [->|?]; [by rewrite !lookup_insert_eq|].
    rewrite !lookup_insert_ne by congruence. by apply Hd1. }
  assert (Hclk : s3.(St.clock) = s.(St.clock)) by (subst s3; done).
  destruct delivery.
  - apply bind_ok in Hrun as ([ses token] & s4 & Hm & Hrun). cbn [fst snd] in Hrun.
    pose proof (touches_run ["sessions"; "session_tokens"] _ _ _ _ Hm) as (_ & _ & _ & Hf).
    apply mint_ok in Hm as (sid & -> & Hses & Htok).
    apply bind_ok in Hrun as ([] & s5 & Hauth & Hrun).
    apply bind_ok in Hrun as ([] & s6 & Ha & [[= ->] ->]%ret_ok).
    assert (Hend : ∀ b k, b ∉ ["authentication"; "meta"; "audit"] →
      s6.(St.db) !! (b, k) = s4.(St.db) !! (b, k)).
    { intros b k Hb. rewrite (touches_at ["meta"; "audit"] _ _ _ _ _ _ Ha) by set_solver.
      destruct ch, transaction; try (by tx_inv). apply put_ok in Hauth as ->. cbn [St.db St.set_db].
      rewrite lookup_insert_ne; [done|]. set_solver. }
    split_and!.
    + rewrite Hend, Hf, Hbase by bucket. rewrite lookup_delete_ne by done. apply lookup_insert_eq.
    + rewrite Hend, Hf, Hbase by bucket. apply lookup_delete_eq.
    + exists token, sid. split_and!; [done| |].
      * rewrite Hend by bucket. exact Hses.
      * rewrite Hend by bucket. exact Htok.
  - unfold stage_browser_login in Hrun. apply bind_ok in Hrun as (staged & s4 & Hst & Hrun).
    pose proof (touches_run ["browser_logins"] _ _ _ _ Hst) as (_ & _ & _ & Hf).
    apply bind_ok in Hst as (sid & s5 & Hidr & Hst). apply id_ok in Hidr as [_ ->].
    apply bind_ok in Hst as (? & s5 & [-> ->]%now_ok & Hst).
    apply bind_ok in Hst as ([] & s5 & ->%put_ok & [-> ->]%ret_ok).
    apply bind_ok in Hrun as ([] & s6 & Ha & [[= ->] ->]%ret_ok).
    assert (Hend : ∀ b k, b ∉ ["browser_logins"; "meta"; "audit"] →
      s6.(St.db) !! (b, k) = s3.(St.db) !! (b, k)).
    { intros b k Hb. rewrite (touches_at ["meta"; "audit"] _ _ _ _ _ _ Ha) by set_solver. apply Hf. set_solver. }
    split_and!.
    + rewrite Hend, Hbase by bucket. rewrite lookup_delete_ne by done. apply lookup_insert_eq.
    + rewrite Hend, Hbase by bucket. apply lookup_delete_eq.
    + exists sid. split_and!; [done| | |].
      * rewrite (touches_at ["meta"; "audit"] _ _ _ _ _ _ Ha) by bucket.
        cbn [St.db St.set_db St.clock]. rewrite lookup_insert_eq. rewrite Hclk. done.
      * intros k. rewrite Hend, Hbase by bucket. by rewrite lookup_delete_ne, lookup_insert_ne.
      * intros k. rewrite Hend, Hbase by bucket. by rewrite lookup_delete_ne, lookup_insert_ne.
Qed.
End success.

(** ** Properties *)

Section properties.
Context {E : Env}.
Implicit Types (s : St.t) (u : User.t).

(** What a successful sign-in rests on. *)
Record signed_in (username password : string) (otp : option string) s u u1 : Prop := {
  si_account : ∃ uid, s.(St.db) !! ("usernames", username) = Some (RString uid)
    ∧ s.(St.db) !! ("users", uid) = Some (RUser u);
  si_unlocked : ∀ a, s.(St.db) !! ("attempts", username) = Some (RAttempts a) →
    a.(Attempts.locked_until) ≤ s.(St.clock);
  si_enabled : u.(User.enabled) = true;
  si_password : u.(User.password_hash) ≠ "" ∧ password_matches password u.(User.password_hash) = true;
  si_factor : consume_password_factor u otp s.(St.clock) = Ok (true, u1);
}.

Lemma login_user_ok username s u s' :
  login_user username s = (Ok (Some u), s') →
  ∃ uid, s.(St.db) !! ("usernames", username) = Some (RString uid)
    ∧ s.(St.db) !! ("users", uid) = Some (RUser u).
Proof.
  unfold login_user. intros Hrun. apply bind_ok in Hrun as (o & s1 & [-> Ho]%get_ok & Hrun).
  destruct o as [uid|]; [|by apply ret_ok in Hrun as [? _]].
  apply get_ok in Hrun as [_ Hu]. by exists uid.
Qed.

Lemma factor_keeps_account u otp at_ u1 :
  consume_password_factor u otp at_ = Ok (true, u1) →
  u1.(User.id) = u.(User.id) ∧ u1.(User.epoch) = u.(User.epoch)
  ∧ u1.(User.totp_secret) = u.(User.totp_secret) ∧ u1.(User.password_hash) = u.(User.password_hash)
  ∧ u1.(User.username) = u.(User.username) ∧ u1.(User.has_passkeys) = u.(User.has_passkeys).
Proof.
  intros H%consume_factor_ok. destruct (User.totp_secret u) eqn:Hs; [|by subst].
  destruct H as (c & _ & [(_ & _ & ->)|(_ & step & _ & ->)]); by rewrite <- Hs.
Qed.

(** C5: a password sign-in succeeds only for an existing, enabled, unlocked account
    whose stored hash matches the password and whose second factor, if it has one,
    was shown and is now used up; a terminal gets a session of exactly this
    account, epoch and time, a browser gets a staged login and no session; and the
    account's failed attempts are forgotten. *)
Theorem password_login_sound username password otp transaction delivery s v s' :
  password_login_local username password otp transaction delivery s = (Ok (Ok v), s') →
  ∃ u u1 u2, signed_in username password otp s u u1
    ∧ (u2 = u1 ∨ ∃ hash, u2 = set_password u1 hash u1.(User.epoch))
    ∧ s'.(St.db) !! ("users", u.(User.id)) = Some (RUser u2)
    ∧ s'.(St.db) !! ("attempts", username) = None
    ∧ login_result delivery u s s' v.
Proof.
  intros (attempts & Hatt & [(_ & [=] & _)|(Hun & user & upgraded & s1 & b & ou & Huser & Hsame & Hv & Hrun)])%login_steps.
  destruct b, ou as [u1|];
    try (unfold login_failed in Hrun;
         apply bind_ok in Hrun as (? & ? & _ & Hrun); apply bind_ok in Hrun as (? & ? & _ & [[=] _]%ret_ok)).
  destruct Hsame as (Hclk & _ & Hdb). rewrite <- Hclk in Hrun.
  apply login_succeeded_ok in Hrun as (Hu & Ha & Hres).
  unfold verify_factors in Hv. destruct user as [u|]; [|done].
  destruct (_ && _ && _) eqn:Hc; [|done].
  apply andb_true_iff in Hc as [[Hm Hne]%andb_true_iff Hen].
  destruct (consume_password_factor u otp s.(St.clock)) as [[b u1']|] eqn:Hf; [|done]. simpl in Hv.
  injection Hv as -> <-. destruct (factor_keeps_account _ _ _ _ Hf) as (Hid & Hep & Hto & _ & _ & _).
  unfold Str.is_empty in Hne. apply negb_true_iff, bool_decide_eq_false in Hne.
  rewrite Hid in Hu. exists u, u1', (match upgraded with Some hash => set_password u1' hash u1'.(User.epoch)
                                   | None => u1' end).
  split_and!; [|destruct upgraded; eauto|done|done|].
  - constructor; [by eapply login_user_ok| |done| |done].
    + intros a Ha'. apply get_ok in Hatt as [_ Hrow]. rewrite Ha' in Hrow.
      destruct attempts; [|done]. injection Hrow as <-. done.
    + split; [done|]. unfold login_hash, Str.is_empty in Hm. by rewrite bool_decide_eq_false_2 in Hm.
  - unfold login_result, signed_identity in *. rewrite Hclk, Hid, Hep, Hto in Hres.
    destruct delivery; [exact Hres|]. destruct Hres as (staged & ? & ? & H1 & H2).
    exists staged. split_and!; [done|done|intros k; rewrite H1; apply Hdb|intros k; rewrite H2; apply Hdb].
Qed.

(** A sign-in that is answered with an error. *)
Lemma login_succeeded_err username u upgraded transaction delivery at_ s e s' :
  login_succeeded username u upgraded transaction delivery at_ s = (Ok (Err e), s') →
  (∃ s1, (login_challenge transaction u at_ s1).1 = Err e
         ∨ ∃ hash, (login_challenge transaction (set_password u hash u.(User.epoch)) at_ s1).1 = Err e)
  ∧ ∀ b k, b ∉ [HISTORY; "users"; "attempts"; "meta"; "audit"] →
      s'.(St.db) !! (b, k) = s.(St.db) !! (b, k).
Proof.
  unfold login_succeeded. intros Hrun.
  apply bind_ok in Hrun as ([] & s1 & Hh & Hrun). cbv zeta in Hrun.
  assert (Hf1 : ∀ b k, b ≠ HISTORY → s1.(St.db) !! (b, k) = s.(St.db) !! (b, k)).
  { destruct upgraded; [|by tx_inv]. intros b k Hb.
    apply (touches_at [HISTORY] _ _ _ _ _ _ Hh). set_solver. }
  apply bind_ok in Hrun as ([] & s2 & ->%put_ok & Hrun).
  apply bind_ok in Hrun as ([] & s3 & ->%remove_ok & Hrun).
  apply bind_ok in Hrun as (ch & s4 & Hch & Hrun). apply (proj1 (catch_ok _ _ _ _)) in Hch.
  pose proof (pure_run _ _ _ _ Hch) as ->.
  destruct ch as [ch|e'].
  { exfalso. destruct delivery.
    - apply bind_ok in Hrun as (? & ? & _ & Hrun). cbv zeta in Hrun.
      apply bind_ok in Hrun as (? & ? & _ & Hrun). by apply bind_ok in Hrun as (? & ? & _ & [? _]%ret_ok).
    - apply bind_ok in Hrun as (? & ? & _ & Hrun). by apply bind_ok in Hrun as (? & ? & _ & [? _]%ret_ok). }
  destruct (Error.is_client_error e'); [|done].
  apply bind_ok in Hrun as ([] & s5 & Ha & [[= ->] ->]%ret_ok). split.
  - match type of Hch with login_challenge _ _ _ ?t = _ => exists t end.
    destruct upgraded as [hash|]; [right; exists hash|left]; by rewrite Hch.
  - intros b k Hb. rewrite (touches_at ["meta"; "audit"] _ _ _ _ _ _ Ha) by set_solver.
    cbn [St.db St.set_db]. rewrite lookup_delete_ne, lookup_insert_ne by set_solver. apply Hf1. set_solver.
Qed.

End properties.

(** ** Guessing *)

Section guessing.
Context {E : Env}.
Implicit Types (s : St.t) (u : User.t).

Definition attempts_of s (username : string) : Attempts.t :=
  match s.(St.db) !! ("attempts", username) with
  | Some (RAttempts a) => a
  | _ => Attempts.default
  end.

(** Wrong guesses for one account, at the times they were made.  Between two of
    them anything may happen that leaves the account's attempts alone: refused
    attempts while it is locked, other accounts' sign-ins, time. *)
Inductive guess_run (username : string) : St.t → list Z → Prop :=
| guess_nil s : guess_run username s []
| guess_fail s u password otp transaction delivery s1 s2 l :
    login_user username s = (Ok (Some u), s) →
    password_login_local username password otp transaction delivery s
      = (Ok (Err login_failed_error), s1) →
    s2.(St.db) !! ("attempts", username) = s1.(St.db) !! ("attempts", username) →
    s1.(St.clock) ≤ s2.(St.clock) → guess_run username s2 l →
    guess_run username s (s.(St.clock) :: l).

Lemma login_challenge_err transaction u at_ s e s' :
  login_challenge transaction u at_ s = (Err e, s') → e ≠ login_failed_error.
Proof.
  unfold login_challenge. destruct transaction; [|done].
  unfold get, some_or, ensure, lift, mbind, tx_bind, mret, tx_ret, fail, ok_or.
  repeat case_match; intros ? ->; simplify_eq.
Qed.

(** A wrong guess is counted. *)
Lemma failed_login_counts username password otp transaction delivery s u s1 :
  login_user username s = (Ok (Some u), s) →
  password_login_local username password otp transaction delivery s = (Ok (Err login_failed_error), s1) →
  (attempts_of s username).(Attempts.locked_until) ≤ s.(St.clock) ∧ s1.(St.clock) = s.(St.clock)
  ∧ attempts_of s1 username
    = count_failure s.(St.clock) (current_window s.(St.clock) (attempts_of s username)).
Proof.
  intros Hu Hrun.
  apply login_steps in Hrun
    as (attempts & Hatt & [(_ & [=] & _)|(Hun & user & upgraded & s2 & b & ou & Huser & Hsame & _ & Hrun)]).
  rewrite Hu in Huser. injection Huser as <-.
  assert (default Attempts.default attempts = attempts_of s username) as Ha.
  { apply get_ok in Hatt as [_ Hrow]. unfold attempts_of. rewrite Hrow. by destruct attempts. }
  rewrite Ha in *. destruct Hsame as (Hclk & _ & _).
  assert (login_failed username true (current_window s.(St.clock) (attempts_of s username)) s.(St.clock) s2
          = (Ok (Err login_failed_error), s1)) as Hfail.
  { destruct b, ou as [u1|]; try done. exfalso.
    apply login_succeeded_err in Hrun as [(t & [He|(h & He)]) _];
      destruct (login_challenge _ _ _ t) as [r t'] eqn:Hch; simpl in He; subst r;
      by apply login_challenge_err in Hch. }
  pose proof (touches_run ["attempts"; "meta"; "audit"] _ _ _ _ Hfail) as (Hc & _).
  split_and!; [done|congruence|].
  unfold login_failed in Hfail. apply bind_ok in Hfail as ([] & s3 & ->%put_ok & Hfail).
  apply bind_ok in Hfail as ([] & s4 & Haud & [_ ->]%ret_ok).
  unfold attempts_of at 1. rewrite (touches_at ["meta"; "audit"] _ _ _ _ _ _ Haud) by bucket.
  cbn [St.db St.set_db]. by rewrite lookup_insert_eq.
Qed.

Lemma guess_run_failing username s l :
  guess_run username s l →
  failing (attempts_of s username) l ∧ StronglySorted Z.le l ∧ ∀ t, t ∈ l → s.(St.clock) ≤ t.
Proof.
  intros Hrun. induction Hrun as [s|s u pw otp tr dl s1 s2 l Hu Hlog Hsame Hle Hrun (IHf & IHs & IHt)].
  { split_and!; [constructor..|set_solver]. }
  destruct (failed_login_counts _ _ _ _ _ _ _ _ Hu Hlog) as (Hun & Hclk & Hatt).
  assert (attempts_of s2 username = attempts_of s1 username) as H12 by (unfold attempts_of; by rewrite Hsame).
  split_and!.
  - constructor; [done|]. by rewrite <- Hatt, <- H12.
  - constructor; [done|]. apply Forall_forall. intros t Ht. specialize (IHt t Ht). lia.
  - intros t [->|Ht]%elem_of_cons; [lia|]. specialize (IHt t Ht). lia.
Qed.

End guessing.

(** ** Changing the password *)

Section changing.
Context {E : Env}.
Implicit Types (s : St.t) (u : User.t).

Lemma session_ok token s u ses s' :
  session token s = (Ok (u, ses), s') →
  s' = s ∧ identity_user ses.(Session.identity) s = (Ok u, s) ∧ s.(St.clock) < ses.(Session.expires_at)
  ∧ ses.(Session.revoked) = false.
Proof.
  unfold session. intros Hrun. tx_inv.
  match goal with H : identity_user _ _ = _ |- _ => pose proof (pure_run _ _ _ _ H) as Hp; subst end.
  bools. split_and!; try done.
Qed.

(** What a password change rests on and leaves. *)
Record password_changed (token password hash : string) (pinned u u1 : User.t) (ses : Session.t)
    (otp : option string) s s' : Prop := {
  pc_session : session token s = (Ok (u, ses), s);
  pc_pinned : u.(User.id) = pinned.(User.id) ∧ u.(User.epoch) = pinned.(User.epoch)
    ∧ u.(User.password_hash) = pinned.(User.password_hash);
  pc_unlocked : ∀ a, s.(St.db) !! ("attempts", u.(User.username)) = Some (RAttempts a) →
    a.(Attempts.locked_until) ≤ s.(St.clock);
  pc_factor : consume_password_factor u otp s.(St.clock) = Ok (true, u1);
  pc_history : ∃ s1, accept_history config.(Config.password_history) u.(User.id) u.(User.password_hash)
    password hash s = (Ok (), s1);
  pc_stored : s'.(St.db) !! ("users", u.(User.id))
    = Some (RUser (set_password u1 hash (wadd u.(User.epoch) 1)));
}.

(** A password changes only under the live session that asked for it, for the
    very account, epoch and hash that were pinned when the current password was
    checked (a change in between is refused), while the account is not locked,
    with its second factor and outside its history; afterwards every identity of
    the old epoch is refused. *)
Theorem password_change_sound token pinned pinned_session password hash password_ok otp s v s' :
  change_password_commit token pinned pinned_session password hash password_ok otp s = (Ok (Ok v), s') →
  u64 pinned.(User.epoch) →
  password_ok = true ∧ ∃ u u1 ses, password_changed token password hash pinned u u1 ses otp s s'
    ∧ ∀ i s2 x s3, i.(Identity.user_id) = u.(User.id) → i.(Identity.epoch) = u.(User.epoch) →
        s2.(St.db) !! ("users", u.(User.id)) = s'.(St.db) !! ("users", u.(User.id)) →
        identity_user i s2 ≠ (Ok x, s3).
Proof.
  unfold change_password_commit. intros Hrun Hu64.
  apply bind_ok in Hrun as ([u ses] & s1 & Hses & Hrun). pose proof (pure_run _ _ _ _ Hses) as ->.
  cbn [fst snd] in Hrun. cbv zeta in Hrun.
  apply bind_ok in Hrun as (? & s1 & [Hpin ->]%ensure_ok & Hrun).
  apply bind_ok in Hrun as (? & s1 & Hloc & Hrun). pose proof (pure_run _ _ _ _ Hloc) as ->.
  apply bind_ok in Hrun as (? & s1 & Hmfa & Hrun). pose proof (pure_run _ _ _ _ Hmfa) as ->.
  apply bind_ok in Hrun as (r & s1 & Hun & Hrun). pose proof (pure_run _ _ _ _ Hun) as ->.
  destruct r as [|e]; [|by apply ret_ok in Hrun as [[=] _]].
  apply bind_ok in Hrun as (? & s1 & [-> ->]%now_ok & Hrun).
  apply bind_ok in Hrun as ([ok u1] & s1 & Hfac & Hrun). cbn [fst snd] in Hrun.
  destruct ok; simpl in Hrun.
  2:{ unfold change_failed in Hrun. apply bind_ok in Hrun as (? & ? & _ & Hrun).
      apply bind_ok in Hrun as (? & ? & _ & Hrun). by apply bind_ok in Hrun as (? & ? & _ & [[=] _]%ret_ok). }
  destruct password_ok; [|by apply ret_ok in Hfac as [[=] _]]. split; [done|].
  apply lift_ok in Hfac as [Hfac ->].
  apply bind_ok in Hrun as (u2 & s2 & (-> & Hst & _ & _ & s3 & Hh)%replace_password_ok & Hrun).
  apply bind_ok in Hrun as (? & s4 & [_ ->]%ensure_ok & Hrun).
  apply bind_ok in Hrun as (? & s4 & Hm2 & [_ ->]%ret_ok). pose proof (pure_run _ _ _ _ Hm2) as ->.
  destruct (factor_keeps_account _ _ _ _ Hfac) as (Hid & Hep & _ & Hpw & Hname & _).
  rewrite Hid, Hep in Hst. rewrite Hid, Hpw in Hh.
  repeat (apply andb_true_iff in Hpin as [Hpin ?]). apply String.eqb_eq in Hpin.
  repeat match goal with H : String.eqb _ _ = true |- _ => apply String.eqb_eq in H end.
  match goal with H : (_ =? _) = true |- _ => apply Z.eqb_eq in H end.
  exists u, u1, ses. split.
  - constructor; try done; [|by exists s3].
    intros att Ha. unfold unlocked in Hun. apply bind_ok in Hun as (o & t1 & [-> Ho]%get_ok & Hun).
    apply bind_ok in Hun as (? & t1 & [-> ->]%now_ok & [Hr _]%ret_ok). rewrite Ha in Ho.
    destruct o as [att'|]; [|done]. injection Ho as <-.
    destruct (Z.ltb_spec (St.clock s) (Attempts.locked_until att)); [done|lia].
  - intros i t2 y t3 Hi He Hsame.
    eapply (epoch_refused _ (set_password u1 hash (wadd u.(User.epoch) 1))).
    + by rewrite Hi, Hsame.
    + rewrite He. apply epoch_advances. congruence.
Qed.
End changing.

(** ** Concrete runs *)

Module SigninDemo.
#[local] Existing Instance Demo.env.

Definition password : string := "correct horse".
(** Amy has a password, an authenticator and a recovery code. *)
Definition amy : User.t :=
  User.mk false TotpSettings.default "seed" "u-amy" "amy" None "Amy" ("$argon2id$" +:+ password) true false 1
    (Some "SECRET") None None 100 ∅ false ∅ {["#ri_recovery_1"]}.
Definition identity : Identity.t := Identity.mk [] None "u-amy" 1 true 900 "sess-1".
Definition db : gmap (string * string) row :=
  {[ ("users", "u-amy") := RUser amy; ("usernames", "amy") := RString "u-amy";
     ("sessions", "sess-1") := RSession (Session.mk "sess-1" "#tok" identity 5000 false);
     ("session_tokens", "#tok") := RString "sess-1" ]}.
Definition state : St.t := St.mk db 1000 0 None.
(** The code of the current half minute, and the recovery code. *)
Definition code : string := "000033".
Definition sign_in (pw : string) (otp : option string) : tx (Result json) :=
  password_login_local "amy" pw otp None Bearer_.
Definition signed : St.t := (sign_in password (Some code) state).2.
Definition failed : St.t := (sign_in "wrong" None state).2.
(** Five wrong guesses. *)
Definition locked : St.t :=
  (sign_in "e" None (sign_in "d" None (sign_in "c" None (sign_in "b" None failed).2).2).2).2.

Example sign_in_runs :
  is_ok (EndpointDemo.value (Err Error.internal) (sign_in password (Some code)) state) = true
  ∧ EndpointDemo.value (Ok JNull) (sign_in password (Some code)) signed = Err login_failed_error
  ∧ is_ok (EndpointDemo.value (Err Error.internal) (sign_in password (Some "ri_recovery_1")) signed) = true
  ∧ EndpointDemo.value (Ok JNull) (sign_in password (Some code)) locked = Err rate_limited.
Proof. vm_compute. repeat split; reflexivity. Qed.

(** A new authenticator replaces the old one. *)
Definition session : Session.t := Session.mk "sess-1" "#tok" identity 5000 false.
Definition started : St.t := (totp_start_in amy session true state).2.
Definition pending : User.t := set_pending amy (Some ("SECRET0", 1600)).
Definition confirmed : St.t := (totp_confirm_in pending session code false started).2.
Definition new_hash : string := "$argon2id$battery staple".
Definition change : tx (Result json) :=
  change_password_commit "tok" amy session "battery staple" new_hash true (Some code).
Definition changed : St.t := (change state).2.

Example confirm_runs : is_ok (totp_confirm_in pending session code false started).1 = true.
Proof. vm_compute. reflexivity. Qed.
Example change_runs : is_ok (EndpointDemo.value (Err Error.internal) change state) = true.
Proof. vm_compute. reflexivity. Qed.
End SigninDemo.

Section witnesses.
#[local] Existing Instance Demo.env.
Import SigninDemo.

Lemma totp_no_replay_witness :
  ∃ step, (set_last_step amy 33).(User.totp_last_step) = Some step.
Proof.
  destruct (totp_no_replay amy code 1000 (set_last_step amy 33) "SECRET") as (step & H & _).
  - reflexivity.
  - reflexivity.
  - vm_compute. reflexivity.
  - exists step. exact H.
Defined.

Lemma recovery_code_one_use_witness :
  consume_password_factor (set_codes amy ∅) (Some "ri_recovery_1") 2000 = Ok (false, set_codes amy ∅).
Proof.
  apply (recovery_code_one_use amy "ri_recovery_1" 1000).
  - vm_compute. reflexivity.
  - exists "SECRET". reflexivity.
  - reflexivity.
Defined.

Lemma password_not_reused_witness :
  ∃ h, last h = Some new_hash ∧ (length h ≤ Z.to_nat 3)%nat.
Proof.
  destruct (password_not_reused 3 "u-amy" amy.(User.password_hash) "battery staple" new_hash state
    (accept_history 3 "u-amy" amy.(User.password_hash) "battery staple" new_hash state).2)
    as (h & h' & _ & _ & _ & Hl & Hn).
  - reflexivity.
  - discriminate.
  - vm_compute. reflexivity.
  - exists h'. split; [exact Hl|exact Hn].
Defined.

Lemma totp_enrollment_sound_witness :
  ∃ secret step codes, totp_confirmed pending session code started confirmed secret step codes.
Proof.
  destruct (totp_enrollment_sound pending session code false started
    (match (totp_confirm_in pending session code false started).1 with Ok v => v | Err _ => JNull end)
    confirmed) as (secret & step & codes & H & _).
  - vm_compute. reflexivity.
  - vm_compute. split; discriminate.
  - exists secret, step, codes. exact H.
Defined.

Lemma password_login_sound_witness :
  ∃ u u1, signed_in "amy" password (Some code) state u u1.
Proof.
  destruct (password_login_sound "amy" password (Some code) None Bearer_ state
    (EndpointDemo.answer (sign_in password (Some code)) state) signed) as (u & u1 & u2 & H & _).
  - vm_compute. reflexivity.
  - exists u, u1. exact H.
Defined.



Lemma password_change_sound_witness :
  ∃ u u1 ses, password_changed "tok" "battery staple" new_hash amy u u1 ses (Some code) state changed.
Proof.
  destruct (password_change_sound "tok" amy session "battery staple" new_hash true (Some code) state
    (EndpointDemo.answer change state) changed) as (_ & u & u1 & ses & H & _).
  - vm_compute. reflexivity.
  - vm_compute. split; discriminate.
  - exists u, u1, ses. exact H.
Defined.
End witnesses.
