(* ===== verification/Radius.v ===== *)
(** * RADIUS packets (src/src/radius.rs, radius/eap.rs)

    The wire format: an Access-Request is taken apart only if its lengths add up
    and its Message-Authenticator verifies; a PAP password is unhidden block by
    block; a response carries its own authenticators; EAP messages are split over
    attributes, and EAP-TLS flights over EAP messages, in both directions.  Bytes
    are numbers below 256. *)

From S2P Require Import Prelude Json Model Store Env Provider.

#[local] Set Warnings "-clear-no-such-hyp".

(** ** Bytes *)

Definition byte (b : Z) : Prop := 0 ≤ b < 256.
Definition at_byte (l : list Z) (i : nat) : Z := default 0 (l !! i).
(** [&bytes[a..b]] and [bytes[a..b].copy_from_slice(v)]. *)
Definition slice (l : list Z) (a b : nat) : list Z := take (b - a) (drop a l).
Definition splice (l : list Z) (a : nat) (v : list Z) : list Z :=
  take a l ++ v ++ drop (a + length v) l.
(** [u16::from_be_bytes], [u16::to_be_bytes] and [u32::to_be_bytes]. *)
Definition u16_of (a b : Z) : Z := 256 * a + b.
Definition u16_be (n : Z) : list Z := [n / 256 mod 256; n mod 256].
Definition u32_be (n : Z) : list Z := [n / 2 ^ 24 mod 256; n / 2 ^ 16 mod 256; n / 256 mod 256; n mod 256].
Definition u32_of (l : list Z) : Z := foldl (λ acc b, 256 * acc + b) 0 l.

Definition string_bytes (s : string) : list Z := Str.code <$> Str.bytes s.

(** [std::str::from_utf8]: the well-formed byte sequences. *)
Definition continuation (b : Z) : bool := Str.between 128 b 191.
Fixpoint utf8_valid (l : list Z) : bool :=
  match l with
  | [] => true
  | a :: l =>
      if a <? 128 then utf8_valid l
      else match l with
           | b :: l =>
               if Str.between 194 a 223 then continuation b && utf8_valid l
               else match l with
                    | c :: l =>
                        if (a =? 224) && Str.between 160 b 191
                           || Str.between 225 a 236 && continuation b
                           || (a =? 237) && Str.between 128 b 159
                           || Str.between 238 a 239 && continuation b
                        then continuation c && utf8_valid l
                        else match l with
                             | d :: l =>
                                 ((a =? 240) && Str.between 144 b 191
                                  || Str.between 241 a 243 && continuation b
                                  || (a =? 244) && Str.between 128 b 143)
                                 && continuation c && continuation d && utf8_valid l
                             | [] => false
                             end
                    | [] => false
                    end
           | [] => false
           end
  end.

(** ** Packets *)

Definition WireAttributes : Type := list (Z * list Z).
Module Packet.
Record t := mk { identifier : Z; authenticator : list Z; attrs : list (Z * list Z) }.
End Packet.

(** The attributes that may appear once. *)
Definition SINGLETONS : list Z := [1; 2; 3; 24; 80].

(** The loop over the attributes from [offset] on; [fuel] bounds the turns. *)
Fixpoint decode_attrs (fuel : nat) (bytes : list Z) (offset : nat) (attrs : WireAttributes)
    (ma : option nat) (singleton : list Z) : Result (WireAttributes * option nat) :=
  if (length bytes <=? offset)%nat then Ok (attrs, ma)
  else
    match fuel with
    | O => Err Error.internal
    | S fuel =>
        if (length bytes <? offset + 2)%nat then Err (Error.bad "Truncated RADIUS attribute")
        else
          let code := at_byte bytes offset in
          let len := Z.to_nat (at_byte bytes (S offset)) in
          if (code =? 0) || (len <? 2)%nat || (length bytes <? offset + len)%nat
          then Err (Error.bad "Invalid RADIUS attribute length")
          else if bool_decide (code ∈ SINGLETONS) && bool_decide (code ∈ singleton)
          then Err (Error.bad "Duplicate RADIUS credential or authenticator")
          else
            let singleton := if bool_decide (code ∈ SINGLETONS) then code :: singleton else singleton in
            if (code =? 80) && negb (len =? 18)%nat then Err (Error.bad "Invalid Message-Authenticator")
            else
              decode_attrs fuel bytes (offset + len)
                (attrs ++ [(code, slice bytes (offset + 2) (offset + len))])
                (if code =? 80 then Some (offset + 2)%nat else ma) singleton
    end.

Section packets.
Context {E : Env}.

(** [decode]; a turn of the loop takes two bytes at least, so one turn per byte is
    enough. *)
Definition decode (bytes secret : list Z) : Result Packet.t :=
  if (length bytes <? 20)%nat || (4096 <? Z.of_nat (length bytes)) || negb (at_byte bytes 0 =? 1)
     || negb (u16_of (at_byte bytes 2) (at_byte bytes 3) =? Z.of_nat (length bytes))
  then Err (Error.bad "Invalid RADIUS packet")
  else
    r ← decode_attrs (length bytes) bytes 20 [] None [];
    ma ← ok_or r.2 (Error.bad "Message-Authenticator is mandatory");
    let signed := splice bytes ma (replicate 16 0) in
    if bool_decide (hmac_md5 secret signed = slice bytes ma (ma + 16)) then
      Ok (Packet.mk (at_byte bytes 1) (slice bytes 4 20) r.1)
    else Err Error.forbidden.

Definition packet_attr (p : Packet.t) (code : Z) : option (list Z) :=
  snd <$> List.find (λ a, a.1 =? code) p.(Packet.attrs).

Definition xor_bytes (a b : list Z) : list Z := zip_with Z.lxor a b.

(** The blocks of a hidden password; each is unhidden with the block before it. *)
Fixpoint unhide (fuel : nat) (secret previous ciphertext : list Z) : list Z :=
  match fuel with
  | O => []
  | S fuel =>
      match ciphertext with
      | [] => []
      | _ =>
          let chunk := take 16 ciphertext in
          xor_bytes chunk (md5 (secret ++ previous)) ++ unhide fuel secret chunk (drop 16 ciphertext)
      end
  end.
Fixpoint before_zero (l : list Z) : list Z :=
  match l with [] => [] | b :: l => if b =? 0 then [] else b :: before_zero l end.
Definition packet_password (p : Packet.t) (secret : list Z) : Result (list Z) :=
  ciphertext ← ok_or (packet_attr p 2) (Error.bad "PAP User-Password is required");
  if (length ciphertext =? 0)%nat || (128 <? length ciphertext)%nat
     || negb (length ciphertext mod 16 =? 0)%nat
  then Err (Error.bad "Invalid PAP password length")
  else
    let plain := unhide (length ciphertext / 16) secret p.(Packet.authenticator) ciphertext in
    let text := before_zero plain in
    if (length text =? 0)%nat || existsb (λ b, negb (b =? 0)) (drop (length text) plain)
    then Err (Error.bad "Invalid PAP password padding")
    else if utf8_valid text then Ok text else Err (Error.bad "PAP passwords must be UTF-8").

(** One attribute on the wire. *)
Definition encode_attr (a : Z * list Z) : list Z := a.1 :: (Z.of_nat (length a.2) + 2) mod 256 :: a.2.
Definition encode_attrs (l : WireAttributes) : list Z := concat (encode_attr <$> l).

Definition packet_response (p : Packet.t) (code : Z) (secret : list Z) (attributes : WireAttributes) :
    Result (list Z) :=
  let all := attributes ++ List.filter (λ a, a.1 =? 33) p.(Packet.attrs) in
  if existsb (λ a : Z * list Z, (253 <? length a.2)%nat) all
  then Err (Error.bad "RADIUS response attribute is too long")
  else
    let bytes := [code; p.(Packet.identifier); 0; 0] ++ p.(Packet.authenticator)
                 ++ [80; 18] ++ replicate 16 0 ++ encode_attrs all in
    if 4096 <? Z.of_nat (length bytes) then Err (Error.bad "RADIUS response exceeds packet limit")
    else
      let bytes := splice bytes 2 (u16_be (Z.of_nat (length bytes))) in
      let bytes := splice bytes 22 (hmac_md5 secret bytes) in
      Ok (splice bytes 4 (md5 (bytes ++ secret))).

(** ** Reply attributes *)

Definition validate_type (code : Z) (value : ReplyValue) : Result unit :=
  let wrong := Err (Error.bad "RADIUS reply value has the wrong wire type for this attribute") in
  match value with
  | ReplyAttribute _ => Ok ()
  | _ =>
      if existsb (Z.eqb code) [8; 9; 14] then
        match value with ReplyIpv4 _ _ _ _ => Ok () | _ => wrong end
      else if existsb (Z.eqb code) [64; 65] then
        match value with ReplyInteger n => if n <=? 16777215 then Ok () else wrong | _ => wrong end
      else if existsb (Z.eqb code) [6; 7; 10; 12; 13; 15; 16; 19; 23; 27; 28; 29; 37; 38] then
        match value with ReplyInteger _ => Ok () | _ => wrong end
      else match value with ReplyText _ => Ok () | _ => wrong end
  end.

Definition REPLY_CODES : list Z :=
  [6; 7; 8; 9; 10; 11; 12; 13; 14; 15; 16; 18; 19; 20; 22; 23; 25; 27; 28; 29; 34; 35; 37; 38; 39; 64; 65; 81].
Definition text_ok (v : string) : bool :=
  negb (Str.is_empty v) && (Str.len v <=? 200) && negb (existsb (λ c, Str.is_control c.1) (Str.chars v)).
Definition validate_value (value : ReplyValue) : Result unit :=
  match value with
  | ReplyText v => if text_ok v then Ok () else Err (Error.bad "Invalid RADIUS text value")
  | ReplyAttribute name => validate_name name
  | _ => Ok ()
  end.
Definition validate_attribute (eap_tls : bool) (a : RadiusAttribute) : Result unit :=
  match a with
  | Standard code value =>
      if negb (existsb (Z.eqb code) REPLY_CODES)
      then Err (Error.bad "RADIUS attribute is reserved or outside this reply profile")
      else if eap_tls && (code =? 18) then Err (Error.bad "EAP replies cannot carry Reply-Message")
      else _ ← validate_type code value; validate_value value
  | Vendor vendor code value =>
      if (vendor =? 0) || (code =? 0) || (vendor =? 311) && ((code =? 16) || (code =? 17))
      then Err (Error.bad "Invalid or reserved RADIUS vendor attribute")
      else validate_value value
  end.
Fixpoint all_ok {A} (f : A → Result unit) (l : list A) : Result unit :=
  match l with [] => Ok () | a :: l => _ ← f a; all_ok f l end.
(** [Settings::validate]. *)
Definition settings_validate (r : RadiusSettings.t) (client : Client.t) : Result unit :=
  if client.(Client.service) || negb (bool_decide ("radius" ∈ client.(Client.scopes)))
     || (32 <? length r.(RadiusSettings.reply))%nat
  then Err (Error.bad "RADIUS requires an interactive policy client, radius scope and at most 32 reply attributes")
  else all_ok (validate_attribute r.(RadiusSettings.eap_tls)) r.(RadiusSettings.reply).

(** The value of one reply attribute for a user. *)
Definition resolve_value (value : ReplyValue) (user : User.t) : Result ReplyValue :=
  match value with
  | ReplyAttribute name =>
      let missing := Err (Error.bad "RADIUS reply attribute requires a configured text or integer user attribute") in
      match user.(User.attributes) !! name with
      | Some (JStr v) => if text_ok v then Ok (ReplyText v) else missing
      | Some (JNum n) =>
          if (0 <=? n) && (n <=? u64_max) then
            if n <? 2 ^ 32 then Ok (ReplyInteger n) else Err (Error.bad "RADIUS attribute is too large")
          else Err (Error.bad "RADIUS attribute must be unsigned")
      | _ => missing
      end
  | value => Ok value
  end.
Definition value_bytes (value : ReplyValue) : list Z :=
  match value with
  | ReplyText v => string_bytes v
  | ReplyInteger n => u32_be n
  | ReplyIpv4 a b c d => [a; b; c; d]
  | ReplyAttribute _ => []
  end.
Definition reply_attribute (user : User.t) (a : RadiusAttribute) : Result (Z * list Z) :=
  match a with
  | Standard code value =>
      resolved ← resolve_value value user;
      _ ← validate_type code resolved;
      Ok (code, if code =? 81 then 0 :: value_bytes resolved else value_bytes resolved)
  | Vendor vendor code value =>
      resolved ← resolve_value value user;
      let bytes := value_bytes resolved in
      Ok (26, u32_be vendor ++ [code; (Z.of_nat (length bytes) + 2) mod 256] ++ bytes)
  end.
(** [Settings::attributes]. *)
Fixpoint reply_attributes (user : User.t) (l : list RadiusAttribute) : Result WireAttributes :=
  match l with
  | [] => Ok []
  | a :: l => w ← reply_attribute user a; ws ← reply_attributes user l; Ok (w :: ws)
  end.

(** ** What a well-formed request is

    The attributes [decode] accepts, a request as RFC 2865 and RFC 3579 lay it out,
    and a PAP password as a client hides it. *)

Definition wire (a : Z * list Z) : Prop :=
  0 < a.1 < 256 ∧ (length a.2 ≤ 253)%nat ∧ Forall byte a.2 ∧ (a.1 = 80 → length a.2 = 16%nat).
(** None of [seen] and none twice among the attributes that may appear once. *)
Fixpoint once (seen : list Z) (l : WireAttributes) : Prop :=
  match l with
  | [] => True
  | a :: l => (a.1 ∈ SINGLETONS → a.1 ∉ seen) ∧
              once (if bool_decide (a.1 ∈ SINGLETONS) then a.1 :: seen else seen) l
  end.
Definition access_request (p : Packet.t) : list Z :=
  [1; p.(Packet.identifier)] ++ u16_be (20 + Z.of_nat (length (encode_attrs p.(Packet.attrs))))
  ++ p.(Packet.authenticator) ++ encode_attrs p.(Packet.attrs).
Definition with_attrs (p : Packet.t) (l : WireAttributes) : Packet.t :=
  Packet.mk p.(Packet.identifier) p.(Packet.authenticator) l.
(** The Message-Authenticator is the HMAC of the request with its value zeroed. *)
Definition signed_by (secret : list Z) (p : Packet.t) : Prop :=
  ∃ before mac after,
    p.(Packet.attrs) = before ++ (80, mac) :: after ∧
    mac = hmac_md5 secret (access_request (with_attrs p (before ++ (80, replicate 16 0) :: after))).
Definition well_formed (p : Packet.t) : Prop :=
  length p.(Packet.authenticator) = 16%nat ∧ Forall wire p.(Packet.attrs) ∧
  once [] p.(Packet.attrs) ∧ 20 + Z.of_nat (length (encode_attrs p.(Packet.attrs))) ≤ 4096.

Fixpoint hide (fuel : nat) (secret previous plain : list Z) : list Z :=
  match fuel with
  | O => []
  | S fuel =>
      match plain with
      | [] => []
      | _ =>
          let block := xor_bytes (take 16 plain) (md5 (secret ++ previous)) in
          block ++ hide fuel secret block (drop 16 plain)
      end
  end.
(** A text and the zeros up to a multiple of sixteen. *)
Definition padded (text : list Z) : list Z :=
  text ++ replicate ((16 - length text mod 16) mod 16) 0.
Definition hidden_password (secret authenticator text : list Z) : list Z :=
  hide (length (padded text) / 16) secret authenticator (padded text).

(** ** The attribute loop *)

Lemma encode_attrs_cons a l : encode_attrs (a :: l) = encode_attr a ++ encode_attrs l.
Proof. done. Qed.
Lemma encode_attrs_app l k : encode_attrs (l ++ k) = encode_attrs l ++ encode_attrs k.
Proof. unfold encode_attrs. by rewrite fmap_app, concat_app. Qed.

(** Where the last Message-Authenticator's value starts. *)
Fixpoint mac_at (offset : nat) (l : WireAttributes) (acc : option nat) : option nat :=
  match l with
  | [] => acc
  | a :: l => mac_at (offset + (2 + length a.2)) l (if a.1 =? 80 then Some (offset + 2)%nat else acc)
  end.

Lemma drop_two (l : list Z) (o : nat) :
  (o + 2 ≤ length l)%nat → drop o l = at_byte l o :: at_byte l (S o) :: drop (o + 2) l.
Proof.
  intros Hlen. unfold at_byte.
  destruct (lookup_lt_is_Some_2 l o) as [a Ha]; [lia|].
  destruct (lookup_lt_is_Some_2 l (S o)) as [b Hb]; [lia|].
  rewrite (drop_S l a o Ha), (drop_S l b (S o) Hb), Ha, Hb. simpl.
  by replace (o + 2)%nat with (S (S o)) by lia.
Qed.

Lemma slice_drop (l : list Z) (a b : nat) :
  (a ≤ b ≤ length l)%nat → drop a l = slice l a b ++ drop b l.
Proof.
  intros H. unfold slice.
  replace (drop b l) with (drop (b - a) (drop a l)) by (rewrite drop_drop; f_equal; lia).
  by rewrite take_drop.
Qed.
Lemma slice_length (l : list Z) (a b : nat) : (a ≤ b ≤ length l)%nat → length (slice l a b) = (b - a)%nat.
Proof. intros H. unfold slice. rewrite length_take, length_drop. lia. Qed.
Lemma slice_bytes l a b : Forall byte l → Forall byte (slice l a b).
Proof. intros. by apply Forall_take, Forall_drop. Qed.
Lemma at_byte_range l i : Forall byte l → byte (at_byte l i).
Proof.
  intros Hl. unfold at_byte. destruct (l !! i) as [b|] eqn:Hb; simpl; [|done].
  by eapply Forall_lookup_1.
Qed.

Ltac nat_bools :=
  repeat match goal with
  | H : (_ <? _)%nat = false |- _ => apply Nat.ltb_ge in H
  | H : (_ <? _)%nat = true |- _ => apply Nat.ltb_lt in H
  | H : (_ =? _)%nat = true |- _ => apply Nat.eqb_eq in H
  | H : (_ =? _)%nat = false |- _ => apply Nat.eqb_neq in H
  end.

(** The loop never runs out of turns, and more turns change nothing. *)
Lemma decode_attrs_total (fuel : nat) bytes offset attrs ma seen :
  (length bytes ≤ offset + fuel)%nat →
  decode_attrs fuel bytes offset attrs ma seen ≠ Err Error.internal ∧
  ∀ k, decode_attrs (fuel + k) bytes offset attrs ma seen = decode_attrs fuel bytes offset attrs ma seen.
Proof.
  revert offset attrs ma seen. induction fuel as [|fuel IH]; intros offset attrs ma seen Hlen; simpl.
  - destruct (Nat.leb_spec (length bytes) offset); [|lia]. split; [done|].
    intros [|k]; simpl; by destruct (Nat.leb_spec (length bytes) offset); [|lia].
  - destruct (Nat.leb_spec (length bytes) offset); [done|].
    destruct (Nat.ltb_spec (length bytes) (offset + 2)); [done|].
    destruct (_ || _ || _) eqn:Hc; [done|]. bools.
    destruct (bool_decide _ && _); [done|].
    destruct (_ && negb _) eqn:?; [done|].
    nat_bools. apply IH. lia.
Qed.

Lemma decode_attrs_sound (fuel : nat) bytes offset attrs ma seen attrs' ma' :
  Forall byte bytes → (offset ≤ length bytes)%nat →
  decode_attrs fuel bytes offset attrs ma seen = Ok (attrs', ma') →
  ∃ l, attrs' = attrs ++ l ∧ drop offset bytes = encode_attrs l ∧ Forall wire l ∧ once seen l ∧
       ma' = mac_at offset l ma.
Proof.
  intros Hbytes. revert offset attrs ma seen.
  induction fuel as [|fuel IH]; intros offset attrs ma seen Hoff; simpl;
    destruct (Nat.leb_spec (length bytes) offset) as [Hend|Hend]; try done.
  1,2: intros [= <- <-]; exists []; rewrite app_nil_r, drop_ge by lia; done.
  destruct (Nat.ltb_spec (length bytes) (offset + 2)) as [|H2]; [done|].
  destruct (_ || _ || _) eqn:Hc; [done|]. bools.
  set (code := at_byte bytes offset) in *. set (len := Z.to_nat (at_byte bytes (S offset))) in *.
  nat_bools. apply Z.eqb_neq in H.
  destruct (bool_decide (code ∈ SINGLETONS) && _) eqn:Hs; [done|].
  destruct ((code =? 80) && _) eqn:Hm; [done|].
  intros Hrun. apply IH in Hrun as (l & -> & Hdrop & Hwire & Honce & ->); [|lia].
  assert (Hcode : byte code) by by apply at_byte_range.
  assert (Hlen : byte (at_byte bytes (S offset))) by by apply at_byte_range.
  unfold byte in Hcode, Hlen.
  assert (Hsl : length (slice bytes (offset + 2) (offset + len)) = (len - 2)%nat)
    by (rewrite slice_length; lia).
  exists ((code, slice bytes (offset + 2) (offset + len)) :: l). split_and!.
  - by rewrite <- (assoc_L (++)).
  - rewrite (drop_two bytes offset) by lia. rewrite (slice_drop bytes (offset + 2) (offset + len)) by lia.
    rewrite Hdrop, encode_attrs_cons. unfold encode_attr. cbn [fst snd]. rewrite Hsl.
    simpl. f_equal. f_equal. rewrite Z.mod_small; lia.
  - constructor; [|done]. unfold wire. cbn [fst snd]. rewrite Hsl. split_and!; [lia..| |].
    + by apply slice_bytes.
    + intros ->. simpl in Hm. apply negb_false_iff, Nat.eqb_eq in Hm. lia.
  - simpl. split; [|done]. intros Hin. rewrite (bool_decide_eq_true_2 _ Hin) in Hs. by apply bool_decide_eq_false in Hs.
  - simpl. rewrite Hsl. by replace (offset + S (S (len - 2)))%nat with (offset + len)%nat by lia.
Qed.

Lemma decode_attrs_complete (l : WireAttributes) (fuel : nat) bytes offset attrs ma seen :
  drop offset bytes = encode_attrs l → Forall wire l → once seen l →
  (length bytes ≤ offset + fuel)%nat →
  decode_attrs fuel bytes offset attrs ma seen = Ok (attrs ++ l, mac_at offset l ma).
Proof.
  revert fuel offset attrs ma seen. induction l as [|[code value] l IH];
    intros fuel offset attrs ma seen Hdrop Hwire Honce Hfuel.
  - apply (f_equal length) in Hdrop. rewrite length_drop in Hdrop. simpl in Hdrop.
    rewrite app_nil_r. destruct fuel; simpl; by destruct (Nat.leb_spec (length bytes) offset); [|lia].
  - inversion Hwire as [|? ? (Hcode & Hlen & Hval & H80) Hrest]; subst. cbn [fst snd] in *.
    destruct Honce as [Hnew Honce]. cbn [fst] in *.
    rewrite encode_attrs_cons in Hdrop. unfold encode_attr in Hdrop. cbn [fst snd] in Hdrop.
    rewrite Z.mod_small in Hdrop by lia.
    pose proof (f_equal length Hdrop) as Hl. rewrite length_drop, length_app in Hl. simpl in Hl.
    rewrite (drop_two bytes offset) in Hdrop by lia. simpl in Hdrop. injection Hdrop as Hc Hn Hdrop.
    destruct fuel as [|fuel]; simpl; [lia|].
    destruct (Nat.leb_spec (length bytes) offset); [lia|].
    destruct (Nat.ltb_spec (length bytes) (offset + 2)); [lia|]. rewrite Hc, Hn.
    replace (Z.to_nat (Z.of_nat (length value) + 2)) with (2 + length value)%nat by lia.
    destruct (Z.eqb_spec code 0); [lia|]. cbn [orb].
    destruct (Nat.ltb_spec (2 + length value) 2); [lia|]. cbn [orb].
    destruct (Nat.ltb_spec (length bytes) (offset + (2 + length value))); [lia|].
    assert (Hslice : slice bytes (offset + 2) (offset + (2 + length value)) = value).
    { unfold slice. replace (offset + (2 + length value) - (offset + 2))%nat with (length value) by lia.
      by rewrite Hdrop, take_app_length. }
    rewrite Hslice.
    assert (bool_decide (code ∈ SINGLETONS) && bool_decide (code ∈ seen) = false) as ->.
    { destruct (bool_decide_reflect (code ∈ SINGLETONS)); [|done]. simpl. apply bool_decide_eq_false_2. auto. }
    assert ((code =? 80) && negb (2 + length value =? 18)%nat = false) as ->.
    { destruct (Z.eqb_spec code 80); [|done]. by rewrite H80. }
    rewrite IH; [by rewrite <- (assoc_L (++))| |done|done|lia].
    replace (offset + (2 + length value))%nat with (offset + 2 + length value)%nat by lia.
    by rewrite <- drop_drop, Hdrop, drop_app_length.
Qed.

(** The Message-Authenticator the loop found is one of the attributes. *)
Lemma mac_at_split l offset i :
  mac_at offset l None = Some i → once [] l →
  ∃ before mac after, l = before ++ (80, mac) :: after ∧ i = (offset + length (encode_attrs before) + 2)%nat.
Proof.
  cut (∀ acc seen, mac_at offset l acc = Some i → once seen l → (is_Some acc → 80 ∈ seen) →
       (acc = Some i ∨ ∃ before mac after, l = before ++ (80, mac) :: after ∧
          i = (offset + length (encode_attrs before) + 2)%nat)).
  { intros Hgen Hmac Honce. destruct (Hgen None [] Hmac Honce) as [|]; [|done|done]. by intros []. }
  revert offset. induction l as [|[code value] l IH]; intros offset acc seen Hmac Honce Hacc; simpl in *; [by left|].
  destruct Honce as [Hnew Honce].
  apply (IH _ _ _) with (2 := Honce) in Hmac as [Hi|(b & m & a & -> & ->)].
  - destruct (Z.eqb_spec code 80) as [->|]; [|by left]. injection Hi as <-. right.
    exists [], value, l. split; [done|]. simpl. lia.
  - right. exists ((code, value) :: b), m, a. split; [done|].
    rewrite encode_attrs_cons, length_app. simpl. lia.
  - intros Hs. destruct (Z.eqb_spec code 80) as [->|]; [set_solver|].
    destruct (bool_decide _); set_solver.
Qed.
Lemma mac_at_found before mac after offset :
  once [] (before ++ (80, mac) :: after) →
  mac_at offset (before ++ (80, mac) :: after) None = Some (offset + length (encode_attrs before) + 2)%nat.
Proof.
  cut (∀ acc seen, once seen (before ++ (80, mac) :: after) →
    mac_at offset (before ++ (80, mac) :: after) acc = Some (offset + length (encode_attrs before) + 2)%nat);
    [eauto|].
  assert (Hlater : ∀ l seen o acc, once seen l → 80 ∈ seen → mac_at o l acc = acc).
  { induction l as [|[c v] l IH]; intros seen o acc Honce Hin; [done|]. simpl in *.
    destruct Honce as [Hnew Honce]. destruct (Z.eqb_spec c 80) as [->|].
    - exfalso. apply Hnew; [|done]. unfold SINGLETONS. set_solver.
    - eapply IH; [exact Honce|]. destruct (bool_decide _); set_solver. }
  revert offset. induction before as [|[c v] before IH]; intros offset acc seen [Hnew Honce].
  - simpl in *. rewrite (Hlater _ _ _ _ Honce) by (vm_compute; set_solver). f_equal. lia.
  - cbn [app mac_at fst snd]. rewrite (IH _ _ _ Honce), encode_attrs_cons, length_app. f_equal. simpl. lia.
Qed.

(** ** Requests on the wire *)

Lemma u16_round a b : byte a → byte b → u16_be (u16_of a b) = [a; b].
Proof.
  unfold byte, u16_be, u16_of. intros. f_equal; [|f_equal].
  - replace (256 * a + b) with (b + a * 256) by ring.
    rewrite Z.div_add, (Z.div_small b), Z.mod_small; lia.
  - replace (256 * a + b) with (b + a * 256) by ring. rewrite Z.mod_add, Z.mod_small; lia.
Qed.
Lemma u16_value n : 0 ≤ n < 65536 → u16_of (n / 256 mod 256) (n mod 256) = n.
Proof.
  intros Hn. unfold u16_of. rewrite (Z.mod_small (n / 256)).
  - symmetry. apply Z.div_mod. lia.
  - split; [apply Z.div_pos; lia|]. apply Z.div_lt_upper_bound; lia.
Qed.

Lemma splice_mid (a m c v : list Z) :
  length m = length v → splice (a ++ m ++ c) (length a) v = a ++ v ++ c.
Proof.
  intros Hl. unfold splice. rewrite take_app_length. f_equal. f_equal.
  rewrite <- drop_drop, drop_app_length, <- Hl. by rewrite drop_app_length.
Qed.
Lemma slice_mid (a m c : list Z) : slice (a ++ m ++ c) (length a) (length a + length m) = m.
Proof.
  unfold slice. rewrite drop_app_length. replace (length a + length m - length a)%nat with (length m) by lia.
  by rewrite take_app_length.
Qed.

Lemma header_split bytes :
  (20 ≤ length bytes)%nat →
  bytes = [at_byte bytes 0; at_byte bytes 1; at_byte bytes 2; at_byte bytes 3] ++ slice bytes 4 20 ++ drop 20 bytes.
Proof.
  intros Hl. rewrite <- (slice_drop bytes 4 20) by lia.
  transitivity (drop 0 bytes); [done|].
  rewrite (drop_two bytes 0), (drop_two bytes (0 + 2)) by lia. done.
Qed.

(** A request up to the value of its Message-Authenticator. *)
Definition signed_prefix (p : Packet.t) (before after : WireAttributes) : list Z :=
  [1; p.(Packet.identifier)]
  ++ u16_be (20 + Z.of_nat (length (encode_attrs before) + (18 + length (encode_attrs after))))
  ++ p.(Packet.authenticator) ++ encode_attrs before ++ [80; 18].
Lemma request_split p before mac after :
  length mac = 16%nat →
  access_request (with_attrs p (before ++ (80, mac) :: after))
  = signed_prefix p before after ++ mac ++ encode_attrs after.
Proof.
  intros Hm. unfold access_request, signed_prefix. cbn [with_attrs Packet.attrs Packet.identifier Packet.authenticator].
  rewrite encode_attrs_app, encode_attrs_cons, !length_app. unfold encode_attr. cbn [fst snd]. rewrite Hm.
  simpl length. rewrite Hm. by rewrite <- !(assoc_L (++)).
Qed.
Lemma signed_prefix_length p before after :
  length p.(Packet.authenticator) = 16%nat →
  length (signed_prefix p before after) = (20 + length (encode_attrs before) + 2)%nat.
Proof. intros Ha. unfold signed_prefix. rewrite !length_app, Ha. simpl. lia. Qed.
Lemma request_length p :
  length p.(Packet.authenticator) = 16%nat →
  length (access_request p) = (20 + length (encode_attrs p.(Packet.attrs)))%nat.
Proof. intros Ha. unfold access_request. rewrite !length_app, Ha. simpl. lia. Qed.

(** The check of the Message-Authenticator at the place the loop found. *)
Lemma mac_check p before mac after :
  length p.(Packet.authenticator) = 16%nat → length mac = 16%nat →
  let bytes := access_request (with_attrs p (before ++ (80, mac) :: after)) in
  let ma := (20 + length (encode_attrs before) + 2)%nat in
  splice bytes ma (replicate 16 0) = access_request (with_attrs p (before ++ (80, replicate 16 0) :: after))
  ∧ slice bytes ma (ma + 16) = mac.
Proof.
  intros Ha Hm. cbn zeta. rewrite !request_split by done.
  rewrite <- (signed_prefix_length p before after Ha). split.
  - by apply splice_mid; rewrite Hm, length_replicate.
  - rewrite <- Hm. apply slice_mid.
Qed.

Lemma once_wire_mac p before mac after :
  p.(Packet.attrs) = before ++ (80, mac) :: after → Forall wire p.(Packet.attrs) → length mac = 16%nat.
Proof.
  intros -> Hw. apply Forall_app in Hw as [_ Hw]. inversion Hw as [|? ? (_ & _ & _ & H80) _]. by apply H80.
Qed.

Lemma with_attrs_same p : with_attrs p p.(Packet.attrs) = p.
Proof. by destruct p. Qed.

Lemma decode_sound bytes secret p :
  Forall byte bytes → decode bytes secret = Ok p →
  bytes = access_request p ∧ well_formed p ∧ signed_by secret p.
Proof.
  intros Hb. unfold decode. destruct (_ || _ || _ || _) eqn:Hg; [done|]. bools. nat_bools.
  apply Z.eqb_eq in H1, H0.
  destruct (decode_attrs _ _ _ _ _ _) as [[l ma]|] eqn:Hrun; [|done]. cbn [mbind result_bind fst snd].
  apply decode_attrs_sound in Hrun as (l' & -> & Hdrop & Hwire & Honce & ->); [|done|lia].
  destruct (mac_at 20 l' None) as [i|] eqn:Hma; [|done]. cbn [ok_or mbind result_bind].
  apply mac_at_split in Hma as (before & mac & after & -> & ->); [|done].
  case_bool_decide as Hmac; [|done]. intros [= <-]. cbn [app] in *.
  set (p := Packet.mk (at_byte bytes 1) (slice bytes 4 20) (before ++ (80, mac) :: after)).
  assert (Ha : length p.(Packet.authenticator) = 16%nat) by (apply slice_length; lia).
  assert (Hl : length mac = 16%nat) by by eapply (once_wire_mac p).
  assert (Hbytes : bytes = access_request p).
  { rewrite (header_split bytes) at 1 by lia. unfold access_request. cbn [p Packet.identifier Packet.authenticator Packet.attrs].
    rewrite <- Hdrop, length_drop.
    replace (20 + Z.of_nat (length bytes - 20)) with (u16_of (at_byte bytes 2) (at_byte bytes 3)) by lia.
    rewrite u16_round by (by apply at_byte_range). simpl. f_equal; lia || done. }
  destruct (mac_check p before mac after Ha Hl) as [Hs Hsl].
  change (with_attrs p (before ++ (80, mac) :: after)) with p in *. rewrite <- Hbytes in *.
  split; [done|]. split.
  - split_and!; [done..|]. cbn [p Packet.attrs]. rewrite <- Hdrop, length_drop. lia.
  - exists before, mac, after. split; [done|]. rewrite <- Hs, <- Hsl at 1. by symmetry.
Qed.

Lemma decode_complete secret p :
  well_formed p → signed_by secret p → decode (access_request p) secret = Ok p.
Proof.
  intros (Ha & Hwire & Honce & Hlen) (before & mac & after & Hattrs & Hmac).
  assert (Hl : length mac = 16%nat) by by eapply (once_wire_mac p).
  pose proof (request_length p Ha) as Hreq.
  assert (Hdrop : drop 20 (access_request p) = encode_attrs p.(Packet.attrs)).
  { unfold access_request. rewrite !(assoc_L (++)). rewrite drop_app_length'; [done|].
    rewrite !length_app, Ha. done. }
  assert (Hauth : slice (access_request p) 4 20 = p.(Packet.authenticator)).
  { unfold access_request.
    pose proof (slice_mid ([1; Packet.identifier p] ++ u16_be (20 + Z.of_nat (length (encode_attrs p.(Packet.attrs)))))
      p.(Packet.authenticator) (encode_attrs p.(Packet.attrs))) as Hs.
    rewrite Ha, <- !(assoc_L (++)) in Hs. exact Hs. }
  unfold decode. rewrite Hreq.
  replace (at_byte (access_request p) 0) with 1 by done.
  replace (at_byte (access_request p) 1) with p.(Packet.identifier) by done.
  assert (u16_of (at_byte (access_request p) 2) (at_byte (access_request p) 3)
    = 20 + Z.of_nat (length (encode_attrs p.(Packet.attrs)))) as ->.
  { unfold access_request, at_byte. simpl. apply u16_value. lia. }
  rewrite (proj2 (Nat.ltb_ge _ 20)) by lia. rewrite (proj2 (Z.ltb_ge 4096 _)) by lia.
  rewrite Z.eqb_refl, (proj2 (Z.eqb_eq (20 + _) _)) by lia. cbn [negb orb].
  rewrite (decode_attrs_complete p.(Packet.attrs)); [|done..|lia].
  cbn [mbind result_bind fst snd app].
  rewrite Hattrs, mac_at_found by (by rewrite <- Hattrs). cbn [ok_or mbind result_bind].
  destruct (mac_check p before mac after Ha Hl) as [Hs Hsl].
  rewrite <- Hattrs, with_attrs_same in Hs, Hsl. rewrite Hs, Hsl, bool_decide_true by done.
  rewrite Hauth, <- Hattrs. by destruct p.
Qed.

(** ** PAP passwords *)

Section pap.
Context (md5_length : ∀ m, length (md5 m) = 16%nat).

Lemma xor_twice (a k : list Z) : (length a ≤ length k)%nat → xor_bytes (xor_bytes a k) k = a.
Proof.
  revert k. induction a as [|x a IH]; intros [|y k] Hl; simpl in *; try done; [lia|].
  unfold xor_bytes in *. simpl. rewrite IH by lia. f_equal.
  by rewrite Z.lxor_assoc, Z.lxor_nilpotent, Z.lxor_0_r.
Qed.
Lemma xor_length (a k : list Z) : length a = length k → length (xor_bytes a k) = length a.
Proof. intros Hl. unfold xor_bytes. rewrite length_zip_with. lia. Qed.

(** Hiding keeps the length and unhiding undoes it, block by block. *)
Lemma unhide_hide n secret previous plain :
  length plain = (16 * n)%nat →
  length (hide n secret previous plain) = length plain ∧
  unhide n secret previous (hide n secret previous plain) = plain.
Proof.
  revert previous plain. induction n as [|n IH]; intros previous plain Hl.
  { by destruct plain. }
  assert (Hk : length (take 16 plain) = 16%nat) by (rewrite length_take; lia).
  set (block := xor_bytes (take 16 plain) (md5 (secret ++ previous))).
  assert (Hb : length block = 16%nat) by (unfold block; rewrite xor_length; by rewrite ?md5_length).
  destruct (IH block (drop 16 plain)) as [IHl IHu]; [rewrite length_drop; lia|].
  assert (hide (S n) secret previous plain = block ++ hide n secret block (drop 16 plain)) as ->
    by by destruct plain.
  split; [rewrite length_app, IHl, length_drop, Hb; lia|].
  assert (∀ c, c ≠ [] → unhide (S n) secret previous c
    = xor_bytes (take 16 c) (md5 (secret ++ previous)) ++ unhide n secret (take 16 c) (drop 16 c)) as ->
    by (by intros []).
  - rewrite take_app_length', drop_app_length' by done. unfold block at 1.
    rewrite xor_twice by (rewrite md5_length; lia). by rewrite IHu, take_drop.
  - intros Hnil. apply (f_equal length) in Hnil. rewrite length_app, Hb in Hnil. done.
Qed.

Lemma padded_length text :
  (0 < length text ≤ 128)%nat →
  length (padded text) = (16 * (length (padded text) / 16))%nat ∧ (0 < length (padded text) ≤ 128)%nat.
Proof.
  intros Hl. unfold padded. rewrite length_app, length_replicate.
  pose proof (Nat.div_mod_eq (length text) 16) as Hdm. pose proof (Nat.mod_upper_bound (length text) 16).
  set (q := (length text / 16)%nat) in *. set (r := (length text mod 16)%nat) in *.
  destruct (decide (r = 0)%nat) as [Hr|Hr].
  - rewrite Hr. change ((16 - 0) mod 16)%nat with 0%nat.
    replace (length text + 0)%nat with (q * 16)%nat by lia. rewrite Nat.div_mul by lia. lia.
  - rewrite (Nat.mod_small (16 - r)) by lia.
    replace (length text + (16 - r))%nat with ((q + 1) * 16)%nat by lia. rewrite Nat.div_mul by lia. lia.
Qed.

Lemma before_zero_app text n : 0 ∉ text → before_zero (text ++ replicate n 0) = text.
Proof.
  induction text as [|b text IH]; intros Hz; simpl; [by destruct n|].
  destruct (Z.eqb_spec b 0); [set_solver|]. rewrite IH by set_solver. done.
Qed.

Lemma password_read secret p text :
  (0 < length text ≤ 128)%nat → 0 ∉ text → utf8_valid text = true →
  packet_attr p 2 = Some (hidden_password secret p.(Packet.authenticator) text) →
  packet_password p secret = Ok text.
Proof.
  intros Hl Hz Hu Hattr. unfold packet_password. rewrite Hattr. cbn [ok_or mbind result_bind].
  destruct (padded_length text Hl) as [H16 Hp].
  destruct (unhide_hide _ secret p.(Packet.authenticator) _ H16) as [Hlen Hun].
  fold (hidden_password secret p.(Packet.authenticator) text) in Hlen, Hun. rewrite Hlen.
  assert ((length (padded text) mod 16 =? 0)%nat = true) as ->.
  { apply Nat.eqb_eq. rewrite H16, Nat.mul_comm. apply Nat.Div0.mod_mul. }
  rewrite (proj2 (Nat.eqb_neq _ 0)), (proj2 (Nat.ltb_ge 128 _)) by lia. cbn [orb negb]. rewrite Hun.
  unfold padded. rewrite before_zero_app by done.
  rewrite (proj2 (Nat.eqb_neq _ 0)) by lia. cbn [orb]. rewrite drop_app_length.
  assert (existsb (λ b, negb (b =? 0)) (replicate ((16 - length text mod 16) mod 16) 0) = false) as ->.
  { induction ((16 - length text mod 16) mod 16)%nat; done. }
  by rewrite Hu.
Qed.
End pap.

(** ** Responses *)

Section responses.
Context (md5_length : ∀ m, length (md5 m) = 16%nat) (hmac_length : ∀ k m, length (hmac_md5 k m) = 16%nat).

(** What a client checks of a response: its length field, the Response
    Authenticator over the request's, the Message-Authenticator with its value
    zeroed, and its attributes. *)
Definition response_verifies (p : Packet.t) (code : Z) (secret : list Z) (all : WireAttributes)
    (bytes : list Z) : Prop :=
  let request := splice bytes 4 p.(Packet.authenticator) in
  at_byte bytes 0 = code ∧ at_byte bytes 1 = p.(Packet.identifier)
  ∧ u16_of (at_byte bytes 2) (at_byte bytes 3) = Z.of_nat (length bytes)
  ∧ (length bytes ≤ 4096)%nat
  ∧ slice bytes 4 20 = md5 (request ++ secret)
  ∧ slice bytes 22 38 = hmac_md5 secret (splice request 22 (replicate 16 0))
  ∧ drop 20 bytes = encode_attrs ((80, slice bytes 22 38) :: all).

Lemma response_shape (p : Packet.t) code secret attributes bytes :
  length p.(Packet.authenticator) = 16%nat →
  packet_response p code secret attributes = Ok bytes →
  let all := attributes ++ List.filter (λ a, a.1 =? 33) p.(Packet.attrs) in
  Forall (λ a, length a.2 ≤ 253)%nat all ∧ response_verifies p code secret all bytes.
Proof.
  intros Ha. unfold packet_response. set (all := attributes ++ _). cbn zeta.
  destruct (existsb _ all) eqn:Hlong; [done|].
  set (rest := encode_attrs all).
  set (h0 := ([code; p.(Packet.identifier); 0; 0] ++ p.(Packet.authenticator) ++ [80; 18] ++ replicate 16 0 ++ rest)).
  destruct (Z.ltb_spec 4096 (Z.of_nat (length h0))) as [|Hmax]; [done|]. intros Hok.
  apply (f_equal (λ r, match r with Ok b => b | Err _ => bytes end)) in Hok. cbn beta iota in Hok. subst bytes.
  set (len := u16_be (Z.of_nat (length h0))).
  assert (Hn : length h0 = (38 + length rest)%nat) by (unfold h0; rewrite !length_app, Ha; simpl; lia).
  set (h1 := splice h0 2 len).
  assert (H1 : h1 = (([code; p.(Packet.identifier)] ++ len) ++ p.(Packet.authenticator)) ++ ([80; 18] ++ replicate 16 0 ++ rest))
    by (unfold h1, h0; apply (splice_mid [code; p.(Packet.identifier)] [0; 0]); done).
  set (mac := hmac_md5 secret h1). assert (Hmac : length mac = 16%nat) by apply hmac_length.
  set (h2 := splice h1 22 mac).
  assert (H2 : h2 = ([code; p.(Packet.identifier)] ++ len) ++ p.(Packet.authenticator) ++ ([80; 18] ++ mac ++ rest)).
  { unfold h2. rewrite H1.
    pose proof (splice_mid ((([code; p.(Packet.identifier)] ++ len) ++ p.(Packet.authenticator)) ++ [80; 18])
      (replicate 16 0) rest mac) as Hs. rewrite length_replicate, !length_app, Ha in Hs.
    rewrite <- !(assoc_L (++)) in *. apply Hs. done. }
  set (auth := md5 (h2 ++ secret)). assert (Hauth : length auth = 16%nat) by apply md5_length.
  assert (H3 : splice h2 4 auth = ([code; p.(Packet.identifier)] ++ len) ++ auth ++ ([80; 18] ++ mac ++ rest)).
  { rewrite H2. apply (splice_mid ([code; p.(Packet.identifier)] ++ len)). by rewrite Ha. }
  rewrite H3. split.
  { apply Forall_forall. intros a Hin. destruct (decide (length a.2 ≤ 253)%nat) as [|Hgt]; [done|].
    exfalso. apply not_true_iff_false in Hlong. apply Hlong. apply existsb_exists. exists a.
    split; [by apply list_elem_of_In|]. apply Nat.ltb_lt. lia. }
  set (final := ([code; p.(Packet.identifier)] ++ len) ++ auth ++ ([80; 18] ++ mac ++ rest)).
  assert (Hreq : splice final 4 p.(Packet.authenticator) = h2).
  { rewrite H2. apply (splice_mid ([code; p.(Packet.identifier)] ++ len)). by rewrite Ha, Hauth. }
  assert (Hfl : length final = (38 + length rest)%nat)
    by (unfold final; rewrite !length_app, Hauth, Hmac; simpl; lia).
  assert (Hsl : slice final 22 38 = mac).
  { pose proof (slice_mid ((([code; p.(Packet.identifier)] ++ len) ++ auth) ++ [80; 18]) mac rest) as Hs.
    rewrite !length_app, Hauth, Hmac in Hs. rewrite <- !(assoc_L (++)) in Hs. exact Hs. }
  unfold response_verifies. rewrite Hreq, Hsl. split_and!; try done.
  - rewrite Hfl, <- Hn. apply (u16_value (Z.of_nat (length h0))). lia.
  - lia.
  - pose proof (slice_mid ([code; p.(Packet.identifier)] ++ len) auth ([80; 18] ++ mac ++ rest)) as Hs.
    rewrite Hauth in Hs. exact Hs.
  - unfold mac. f_equal. rewrite H1, H2.
    pose proof (splice_mid ((([code; p.(Packet.identifier)] ++ len) ++ p.(Packet.authenticator)) ++ [80; 18])
      mac rest (replicate 16 0)) as Hs. rewrite length_replicate, !length_app, Ha in Hs.
    rewrite <- !(assoc_L (++)) in *. symmetry. by apply Hs.
  - unfold final. rewrite (assoc_L (++)), drop_app_length' by (rewrite !length_app, Hauth; done).
    rewrite encode_attrs_cons. unfold encode_attr. cbn [fst snd]. rewrite Hmac. done.
Qed.
End responses.

(** ** Properties *)

(** Taking the attributes of an Access-Request apart always ends: the loop
    takes two bytes at least per turn, so a turn per byte is enough, and more turns
    never change what it returns. *)
Theorem decode_terminates bytes secret :
  decode bytes secret ≠ Err Error.internal ∧
  ∀ k, decode_attrs (length bytes + k) bytes 20 [] None []
     = decode_attrs (length bytes) bytes 20 [] None [].
Proof.
  destruct (decode_attrs_total (length bytes) bytes 20 [] None []) as [Hne Hk]; [lia|].
  split; [|done]. unfold decode. destruct (_ || _); [done|].
  destruct (decode_attrs _ _ _ _ _ _) as [[l ma]|e]; [|cbn; congruence].
  cbn [mbind result_bind fst snd]. destruct ma; [|done]. cbn [ok_or mbind result_bind].
  by case_bool_decide.
Qed.

(** C20: decoding accepts exactly the well-formed, authenticated Access-Requests: a
    packet comes out if and only if the bytes are that packet as the RFC lays it out,
    every attribute in bounds, the single-use ones at most once, 4096 bytes at most,
    and its Message-Authenticator the HMAC of the request with that value zeroed. *)
Theorem request_roundtrip bytes secret p :
  Forall byte bytes →
  decode bytes secret = Ok p ↔ (bytes = access_request p ∧ well_formed p ∧ signed_by secret p).
Proof.
  intros Hb. split; [by apply decode_sound|]. intros (-> & Hw & Hs). by apply decode_complete.
Qed.

(** A password of at most 128 bytes of UTF-8 without a zero, hidden the way
    RFC 2865 has a client hide it, is read back exactly. *)
Theorem pap_roundtrip secret p text :
  (∀ m, length (md5 m) = 16%nat) →
  (0 < length text ≤ 128)%nat → 0 ∉ text → utf8_valid text = true →
  packet_attr p 2 = Some (hidden_password secret p.(Packet.authenticator) text) →
  packet_password p secret = Ok text.
Proof. intros. by apply password_read. Qed.

(** A response verifies for the client that sent the request: the length field
    is its length, the Response Authenticator covers it with the request's
    authenticator, the Message-Authenticator is its HMAC, and the attributes read
    back are the Message-Authenticator, the ones given and the request's
    Proxy-State. *)
Theorem response_authentic (p : Packet.t) code secret attributes bytes :
  (∀ m, length (md5 m) = 16%nat) → (∀ k m, length (hmac_md5 k m) = 16%nat) →
  length p.(Packet.authenticator) = 16%nat →
  packet_response p code secret attributes = Ok bytes →
  let all := attributes ++ List.filter (λ a, a.1 =? 33) p.(Packet.attrs) in
  response_verifies p code secret all bytes ∧
  (Forall byte bytes → Forall wire all → once [80] all →
   decode_attrs (length bytes) bytes 20 [] None []
   = Ok ((80, slice bytes 22 38) :: all, mac_at 20 ((80, slice bytes 22 38) :: all) None)).
Proof.
  intros Hmd Hmac Ha Hrun. cbn zeta. apply response_shape in Hrun as [_ Hv]; [|done..].
  split; [done|]. destruct Hv as (_ & _ & _ & _ & _ & Hsl & Hdrop). intros Hb Hw Ho.
  apply (decode_attrs_complete _ _ _ _ [] None []); [done| |split; [set_solver|exact Ho]|lia].
  constructor; [|done]. split_and!; cbn [fst snd]; rewrite ?Hsl, ?Hmac; try done; [lia|].
  rewrite <- Hsl. by apply slice_bytes.
Qed.
End packets.

(** ** Witnesses *)

#[local] Existing Instance Demo.env.

Module RadiusDemo.
Definition secret : list Z := string_bytes "xyzzy5461xyzzy5461".
Definition authenticator : list Z := (λ n, Z.of_nat n) <$> seq 1 16.
Definition text : list Z := string_bytes "correct horse battery".
Definition user_name : Z * list Z := (1, string_bytes "nemo").
Definition password : Z * list Z := (2, hidden_password secret authenticator text).
Definition proxy_state : Z * list Z := (33, [5; 6]).
Definition unsigned : WireAttributes := [user_name; password; (80, replicate 16 0); proxy_state].
Definition mac : list Z :=
  hmac_md5 secret (access_request (Packet.mk 7 authenticator unsigned)).
Definition request : Packet.t := Packet.mk 7 authenticator [user_name; password; (80, mac); proxy_state].
Definition reply : WireAttributes := [(6, u32_be 2); (25, string_bytes "ops")].
End RadiusDemo.

#[local] Ltac decided := refine (bool_decide_unpack _ _); vm_compute; exact I.
#[local] Instance byte_dec b : Decision (byte b) := _.
#[local] Instance wire_dec a : Decision (wire a) := _.
#[local] Instance once_dec seen l : Decision (once seen l).
Proof. revert seen. induction l; intros seen; simpl; apply _. Defined.

Lemma demo_well_formed : well_formed RadiusDemo.request.
Proof. split_and!; [reflexivity|decided|decided|vm_compute; discriminate]. Qed.

Lemma request_roundtrip_witness :
  Forall byte (access_request RadiusDemo.request) ∧
  decode (access_request RadiusDemo.request) RadiusDemo.secret = Ok RadiusDemo.request.
Proof.
  assert (Hb : Forall byte (access_request RadiusDemo.request)) by decided.
  split; [exact Hb|].
  apply (request_roundtrip _ RadiusDemo.secret RadiusDemo.request Hb).
  split; [reflexivity|]. split; [exact demo_well_formed|].
  exists [RadiusDemo.user_name; RadiusDemo.password], RadiusDemo.mac, [RadiusDemo.proxy_state].
  split; reflexivity.
Defined.

Lemma demo_md5_length m : length (md5 m) = 16%nat.
Proof. change (length (take 16 (m ++ replicate 16 3)) = 16%nat). rewrite length_take, length_app, length_replicate. lia. Qed.
Lemma demo_hmac_length k m : length (hmac_md5 k m) = 16%nat.
Proof. change (length (take 16 (k ++ replicate 16 7)) = 16%nat). rewrite length_take, length_app, length_replicate. lia. Qed.

Lemma pap_roundtrip_witness :
  packet_password RadiusDemo.request RadiusDemo.secret = Ok RadiusDemo.text.
Proof.
  apply (pap_roundtrip); [exact demo_md5_length|vm_compute; lia|decided|reflexivity|reflexivity].
Defined.

Lemma response_authentic_witness :
  match packet_response RadiusDemo.request 2 RadiusDemo.secret RadiusDemo.reply with
  | Ok bytes =>
      response_verifies RadiusDemo.request 2 RadiusDemo.secret
        (RadiusDemo.reply ++ [RadiusDemo.proxy_state]) bytes
      ∧ decode_attrs (length bytes) bytes 20 [] None []
        = Ok ((80, slice bytes 22 38) :: RadiusDemo.reply ++ [RadiusDemo.proxy_state], Some 22%nat)
  | Err _ => False
  end.
Proof.
  destruct (packet_response _ _ _ _) as [bytes|] eqn:Hrun; [|vm_compute in Hrun; discriminate].
  destruct (response_authentic RadiusDemo.request _ _ _ _ demo_md5_length demo_hmac_length eq_refl Hrun) as [Hv Hd].
  split; [exact Hv|]. apply Hd; [|decided|decided].
  vm_compute in Hrun. injection Hrun as <-. decided.
Defined.
