(* ===== verification/Eap.v ===== *)
(** * EAP-TLS over RADIUS (src/src/radius/eap.rs)

    EAP messages travel in attributes of at most 253 bytes; TLS flights travel in
    EAP-TLS fragments, one per message, each acknowledged.  A conversation
    reassembles the peer's flight, feeds it to TLS, and answers with TLS's own
    flight; once the handshake is over, it creates an identity for the peer's
    certificate and waits for one empty acknowledgement before it accepts.  The
    engine keeps the conversations under random state tokens.

    The TLS connection and the server core are interfaces: [Tls] for rustls,
    [EapPort] for the trait of that name. *)

From S2P Require Import Prelude Json Model Store Env Provider Jose Identities Radius.

#[local] Set Warnings "-clear-no-such-hyp".

(** ** Interfaces *)

(** [rustls::ServerConnection]: [read_tls] tells how many bytes it took,
    [process_new_packets] whether the peer closed or sent application data. *)
Class Tls (T : Type) := {
  (** [Config::load] past its validation, and [ServerConnection::new]. *)
  tls_server : EapProfile.t → Result (Result T * string);
  read_tls : T → list Z → option (T * nat);
  process_new_packets : T → option (T * bool);
  is_handshaking : T → bool;
  peer_certificate : T → option (list Z);
  is_tls13 : T → bool;
  write_plain : T → list Z → Result T;
  wants_write : T → bool;
  write_tls : T → Result (T * list Z);
  export_keying_material : T → string → option (list Z) → Result (list Z);
}.

(** [trait EapPort]. *)
Class EapPort := {
  eap_profile : string → Result EapProfile.t;
  eap_create_identity : Client.t → string → string → list Z → tx Identity.t;
  eap_close : option Identity.t → tx unit;
}.

Module Nas.
Record t := mk { peer : string; client_id : string; shared_secret_file : option string }.
End Nas.

(** ** EAP messages *)

(** [chunks(n)]. *)
Fixpoint chunk_list {A} (fuel n : nat) (l : list A) : list (list A) :=
  match fuel, l with
  | S fuel, _ :: _ => take n l :: chunk_list fuel n (drop n l)
  | _, _ => []
  end.
Definition chunks {A} (n : nat) (l : list A) : list (list A) := chunk_list (length l) n l.

(** No EAP-Message attribute follows one of another kind that follows one. *)
Fixpoint consecutive (seen ended : bool) (l : WireAttributes) : bool :=
  match l with
  | [] => true
  | a :: l =>
      if a.1 =? 79 then if ended then false else consecutive true ended l
      else consecutive seen (ended || seen) l
  end.
Definition message (p : Packet.t) : Result (list Z) :=
  if negb (consecutive false false p.(Packet.attrs))
  then Err (Error.bad "EAP-Message attributes must be consecutive")
  else
    let bytes := concat (snd <$> List.filter (λ a, a.1 =? 79) p.(Packet.attrs)) in
    if (length bytes <? 5)%nat || negb (at_byte bytes 0 =? 2)
       || negb (u16_of (at_byte bytes 2) (at_byte bytes 3) =? Z.of_nat (length bytes))
    then Err (Error.bad "Invalid EAP Response")
    else Ok bytes.
Definition packet (code id : Z) (method : option Z) (data : list Z) : list Z :=
  let bytes := [code; id; 0; 0] ++ match method with Some m => [m] | None => [] end ++ data in
  splice bytes 2 (u16_be (Z.of_nat (length bytes) mod 65536)).
Definition attributes (eap : list Z) (state : option string) : WireAttributes :=
  ((λ chunk, (79, chunk)) <$> chunks 253 eap)
  ++ match state with Some s => [(24, string_bytes s)] | None => [] end.
Definition failure (request : Packet.t) : WireAttributes :=
  match message request with
  | Ok m => attributes (packet 4 (at_byte m 1) None []) None
  | Err _ => []
  end.

(** ** Conversations *)

Module Conversation.
Record t {T : Type} := mk {
  tls : T;
  context : string;
  profile_fingerprint : string;
  expires_at : Z;
  expected : Z;
  rounds : Z;
  received : list Z;
  total : option Z;
  outbound : list (list Z);
  identity : option Identity.t;
  await_success : bool;
  fragment_size : nat;
}.
Arguments t : clear implicits.
Section setters.
Context {T : Type}.
Implicit Types c : t T.
Definition with_tls c x : t T := mk T x c.(context) c.(profile_fingerprint) c.(expires_at) c.(expected)
  c.(rounds) c.(received) c.(total) c.(outbound) c.(identity) c.(await_success) c.(fragment_size).
Definition with_expected c x : t T := mk T c.(tls) c.(context) c.(profile_fingerprint) c.(expires_at) x
  c.(rounds) c.(received) c.(total) c.(outbound) c.(identity) c.(await_success) c.(fragment_size).
Definition with_rounds c x : t T := mk T c.(tls) c.(context) c.(profile_fingerprint) c.(expires_at)
  c.(expected) x c.(received) c.(total) c.(outbound) c.(identity) c.(await_success) c.(fragment_size).
Definition with_received c x y : t T := mk T c.(tls) c.(context) c.(profile_fingerprint) c.(expires_at)
  c.(expected) c.(rounds) x y c.(outbound) c.(identity) c.(await_success) c.(fragment_size).
Definition with_outbound c x : t T := mk T c.(tls) c.(context) c.(profile_fingerprint) c.(expires_at)
  c.(expected) c.(rounds) c.(received) c.(total) x c.(identity) c.(await_success) c.(fragment_size).
Definition with_identity c x y : t T := mk T c.(tls) c.(context) c.(profile_fingerprint) c.(expires_at)
  c.(expected) c.(rounds) c.(received) c.(total) c.(outbound) x y c.(fragment_size).
End setters.
End Conversation.

(** [Step] and [Outcome]. *)
Inductive Step := SChallenge (reply : list Z) | SAccept (i : Identity.t) (material : list Z).
Inductive Outcome := Challenge (l : WireAttributes) | Accept (i : Identity.t) (l : WireAttributes)
                   | Reject (l : WireAttributes).

(** A computation over a state of its own and the store: what it changed stays
    changed when it fails, since the caller closes the identity that a failed
    conversation created and drops the conversation itself. *)
Definition sm (W A : Type) : Type := W → St.t → Result A * W * St.t.

Section sm.
Context {W : Type}.
#[global] Instance sm_ret : MRet (sm W) := λ A a w s, (Ok a, w, s).
#[global] Instance sm_bind : MBind (sm W) := λ A B f m w s,
  match m w s with
  | (Ok a, w', s') => f a w' s'
  | (Err e, w', s') => (Err e, w', s')
  end.
Definition wget : sm W W := λ w s, (Ok w, w, s).
Definition wset (w : W) : sm W unit := λ _ s, (Ok (), w, s).
Definition wfail {A} (e : Error.t) : sm W A := λ w s, (Err e, w, s).
Definition wlift {A} (r : Result A) : sm W A := λ w s, (r, w, s).
Definition wtx {A} (m : tx A) : sm W A := λ w s, let '(r, s') := m s in (r, w, s').
Definition wensure (b : bool) (e : Error.t) : sm W unit := if b then mret () else wfail e.
End sm.

Section eap.
Context {E : Env} {T : Type} {TLS : Tls T} {P : EapPort}.
#[local] Abbreviation conv := (sm (Conversation.t T)).

(** [Conversation::request]. *)
Definition conversation_request (data : list Z) : conv (list Z) :=
  c ← wget;
  let expected := (c.(Conversation.expected) + 1) mod 256 in
  _ ← wset (Conversation.with_expected c expected);
  mret (packet 1 expected (Some 13) data).

(** The fragments of a flight: the flags, the total length on the first of
    several, a part of the flight. *)
Definition fragments (size : nat) (bytes : list Z) : list (list Z) :=
  let cs := chunks size bytes in
  imap (λ i chunk,
          let more := if (S i <? length cs)%nat then 64 else 0 in
          if (size <? length bytes)%nat && (i =? 0)%nat
          then Z.lor more 128 :: u32_be (Z.of_nat (length bytes)) ++ chunk
          else more :: chunk) cs.
Definition next_fragment (l : list (list Z)) : conv (list Z) :=
  match l with
  | [] => wfail Error.internal
  | next :: rest =>
      c ← wget;
      _ ← wset (Conversation.with_outbound c rest);
      conversation_request next
  end.
(** [Conversation::flight]. *)
Definition flight (bytes : list Z) : conv (list Z) :=
  _ ← wensure (negb ((length bytes =? 0)%nat || (65536 <? Z.of_nat (length bytes))))
        (Error.bad "Invalid EAP-TLS flight length");
  c ← wget;
  next_fragment (c.(Conversation.outbound) ++ fragments c.(Conversation.fragment_size) bytes).

(** A fragment of the peer's flight: [None] while more is to come, the whole
    flight at its last fragment. *)
Definition announced (flags : Z) (data : list Z) : conv (list Z) :=
  c ← wget;
  if negb (Z.land flags 128 =? 0) then
    _ ← wensure (negb ((length data <? 4)%nat || bool_decide (is_Some c.(Conversation.total))
                       || negb (length c.(Conversation.received) =? 0)%nat))
          (Error.bad "Invalid EAP-TLS fragment length field");
    let total := u32_of (take 4 data) in
    _ ← wensure (negb ((total =? 0) || (65536 <? total))) (Error.bad "EAP-TLS flight exceeds 64 KiB");
    _ ← wset (Conversation.with_received c c.(Conversation.received) (Some total));
    mret (drop 4 data)
  else mret data.
Definition reassemble (flags : Z) (data : list Z) : conv (option (list Z)) :=
  data ← announced flags data;
  c ← wget;
  _ ← wensure (negb ((length data =? 0)%nat
                     || (65536 <? Z.of_nat (length c.(Conversation.received) + length data))))
        (Error.bad "Empty or oversized EAP-TLS input");
  let received := c.(Conversation.received) ++ data in
  let len := Z.of_nat (length received) in
  _ ← wset (Conversation.with_received c received c.(Conversation.total));
  if negb (Z.land flags 64 =? 0) then
    _ ← wensure (match c.(Conversation.total) with Some total => len <? total | None => false end)
          (Error.bad "Invalid fragmented EAP-TLS input");
    mret None
  else
    _ ← wensure (match c.(Conversation.total) with Some total => len =? total | None => true end)
          (Error.bad "Incomplete EAP-TLS flight");
    _ ← wset (Conversation.with_received c [] None);
    mret (Some received).

(** The loop that feeds a flight to TLS; each turn takes a byte at least. *)
Fixpoint feed (fuel : nat) (bytes : list Z) : conv unit :=
  match bytes with
  | [] => mret ()
  | _ =>
      match fuel with
      | O => wfail Error.internal
      | S fuel =>
          c ← wget;
          tn ← wlift (ok_or (read_tls c.(Conversation.tls) bytes) Error.forbidden);
          _ ← wset (Conversation.with_tls c tn.1);
          _ ← wensure (negb (tn.2 =? 0)%nat) Error.forbidden;
          c ← wget;
          tb ← wlift (ok_or (process_new_packets c.(Conversation.tls)) Error.forbidden);
          _ ← wset (Conversation.with_tls c tb.1);
          _ ← wensure (negb tb.2) Error.forbidden;
          feed fuel (drop tn.2 bytes)
      end
  end.

(** The identity of the certificate, once the handshake is over. *)
Definition finish_handshake (client : Client.t) (listener : string) : conv unit :=
  c ← wget;
  if is_handshaking c.(Conversation.tls) then mret ()
  else
    der ← wlift (ok_or (peer_certificate c.(Conversation.tls)) Error.forbidden);
    identity ← wtx (eap_create_identity client listener c.(Conversation.profile_fingerprint) der);
    _ ← wset (Conversation.with_identity c (Some identity) false);
    c ← wget;
    tls ← (if is_tls13 c.(Conversation.tls) then wlift (write_plain c.(Conversation.tls) [0])
           else mret c.(Conversation.tls));
    wset (Conversation.with_identity (Conversation.with_tls c tls) (Some identity) true).

(** The loop that collects TLS's flight, at most 64 KiB. *)
Fixpoint drain (fuel : nat) (out : list Z) : conv (list Z) :=
  c ← wget;
  if wants_write c.(Conversation.tls) then
    match fuel with
    | O => wfail Error.internal
    | S fuel =>
        tb ← wlift (write_tls c.(Conversation.tls));
        _ ← wset (Conversation.with_tls c tb.1);
        let out := out ++ tb.2 in
        _ ← wensure (negb (65536 <? Z.of_nat (length out)))
              (Error.bad "EAP-TLS output flight exceeds 64 KiB");
        drain fuel out
    end
  else mret out.
Definition DRAIN_FUEL : nat := Z.to_nat 65537.
#[global] Arguments DRAIN_FUEL : simpl never.

(** The keys of an acknowledged success. *)
Definition success_material (tls : T) : Result (list Z) :=
  if is_tls13 tls then export_keying_material tls "EXPORTER_EAP_TLS_Key_Material" (Some [13])
  else export_keying_material tls "client EAP encryption" None.

(** [Conversation::step]. *)
Definition take_flight (client : Client.t) (listener : string) (bytes : list Z) : conv Step :=
  _ ← feed (length bytes) bytes;
  _ ← finish_handshake client listener;
  out ← drain DRAIN_FUEL [];
  reply ← (if (length out =? 0)%nat then conversation_request [0] else flight out);
  mret (SChallenge reply).
(** The step of the conversation [c] just counted. *)
Definition counted_step (client : Client.t) (listener : string) (input : list Z) (c : Conversation.t T) :
    conv Step :=
  _ ← wensure (negb ((256 <? c.(Conversation.rounds))
                     || negb (at_byte input 1 =? c.(Conversation.expected))
                     || negb (at_byte input 4 =? 13) || (length input <? 6)%nat))
        (Error.bad "Unexpected EAP-TLS response or sequence");
  let flags := at_byte input 5 in
  _ ← wensure (Z.land flags 63 =? 0) (Error.bad "Unsupported EAP-TLS flags");
  let data := drop 6 input in
  let empty := (flags =? 0) && (length data =? 0)%nat in
  match c.(Conversation.outbound) with
  | _ :: _ =>
      _ ← wensure empty (Error.bad "EAP-TLS fragment acknowledgement must be empty");
      reply ← next_fragment c.(Conversation.outbound);
      mret (SChallenge reply)
  | [] =>
      if c.(Conversation.await_success) then
        _ ← wensure empty (Error.bad "EAP-TLS success acknowledgement must be empty");
        identity ← wlift (ok_or c.(Conversation.identity) Error.forbidden);
        material ← wlift (success_material c.(Conversation.tls));
        mret (SAccept identity material)
      else
        whole ← reassemble flags data;
        match whole with
        | None => reply ← conversation_request [0]; mret (SChallenge reply)
        | Some bytes => take_flight client listener bytes
        end
  end.
Definition step (client : Client.t) (listener : string) (input : list Z) : conv Step :=
  c ← wget;
  let c := Conversation.with_rounds c (c.(Conversation.rounds) + 1) in
  _ ← wset c;
  counted_step client listener input c.

(** ** The engine *)

#[local] Abbreviation engine := (gmap string (Conversation.t T)).
#[local] Abbreviation eng := (sm engine).

Definition lookup_conversation (state : string) : eng (option (Conversation.t T)) :=
  e ← wget; mret (e !! state).

(** [radius::fingerprint]. *)
Definition fingerprint (client : Client.t) : string := digest (client_string client).
Definition bytes_string (l : list Z) : string :=
  Str.of_bytes ((λ b, Ascii.ascii_of_N (Z.to_N b)) <$> l).

(** [mppe]: a key for the access point, hidden like a password. *)
Definition mppe (key secret auth : list Z) (salt kind : Z) : list Z :=
  let plain := Z.of_nat (length key) mod 256 :: key in
  let plaintext := plain ++ replicate ((16 - length plain mod 16) mod 16) 0 in
  let ciphertext := hide (length plaintext / 16) secret (auth ++ u16_be salt) plaintext in
  u32_be 311 ++ [kind; (Z.of_nat (length ciphertext) + 4) mod 256] ++ u16_be salt ++ ciphertext.

(** The answer that starts EAP: an empty EAP-Message asks for it. *)
Definition starts_eap (p : Packet.t) : bool :=
  bool_decide (packet_attr p 24 = None) && bool_decide (packet_attr p 2 = None)
  && bool_decide (packet_attr p 3 = None)
  && (length (List.filter (λ a : Z * list Z, Z.eqb a.1 79) p.(Packet.attrs)) =? 1)%nat
  && bool_decide (packet_attr p 79 = Some []).

(** What binds a conversation to its listener, NAS, client and secret. *)
Definition eap_context (listener nas_id : string) (nas : Nas.t) (client : Client.t) (secret : list Z) :
    string :=
  digest (listener +:+ NUL +:+ nas_id +:+ NUL +:+ nas.(Nas.peer) +:+ NUL +:+ fingerprint client
          +:+ NUL +:+ b64url_encode (bytes_string secret)).

Definition eap_load (config : EapProfile.t) : Result (Result T * string) :=
  _ ← eap_config_validate config; tls_server config.

Definition reject (request : Packet.t) : eng Outcome := mret (Reject (failure request)).

(** A first response: the outer identity is checked for its form only. *)
Definition open_conversation (config : EapProfile.t) (context : string) (request : Packet.t)
    (input : list Z) : eng Outcome :=
  e ← wget;
  if negb (at_byte input 4 =? 1) || (258 <? length input)%nat || (length input =? 5)%nat
     || (512 <=? size e)%nat
  then reject request
  else
    _ ← wensure (utf8_valid (drop 5 input)) (Error.bad "EAP identity must be UTF-8");
    if existsb (λ c, Str.is_control c.1) (Str.chars (bytes_string (drop 5 input))) then reject request
    else
      loaded ← wlift (eap_load config);
      tls ← wlift loaded.1;
      state ← wtx (random_token "ri_eap_");
      at_ ← wtx now;
      let c := Conversation.mk T tls context loaded.2 (wadd at_ 120) (at_byte input 1) 0 [] None [] None
                 false config.(EapProfile.fragment_size) in
      let expected := (c.(Conversation.expected) + 1) mod 256 in
      e ← wget;
      _ ← wset (<[state := Conversation.with_expected c expected]> e);
      mret (Challenge (attributes (packet 1 expected (Some 13) [32]) (Some state))).

(** An accepted conversation: EAP-Success and the two keys. *)
Definition accept_attributes (secret : list Z) (request : Packet.t) (id salt : Z) (material : list Z) :
    WireAttributes :=
  attributes (packet 3 id None []) None
  ++ [(26, mppe (take 32 material) secret request.(Packet.authenticator) salt 17);
      (26, mppe (slice material 32 64) secret request.(Packet.authenticator) (Z.lxor salt 1) 16)].

(** One step of the conversation, which goes back under its token only if it
    goes on. *)
Definition continue_conversation (listener : string) (client : Client.t) (secret : list Z)
    (request : Packet.t) (input : list Z) (state : string) (c : Conversation.t T) : eng Outcome :=
  λ e s,
  match step client listener input c s with
  | (Ok (SChallenge reply), c', s') =>
      (Ok (Challenge (attributes reply (Some state))), <[state := c']> e, s')
  | (Ok (SAccept identity material), c', s') =>
      let '(n, s'') := draw s' in
      (n ← n; Ok (Accept identity
             (accept_attributes secret request (at_byte input 1) (Z.lor (random_u16 n) 32768) material)),
       e, s'')
  | (Err error, c', s') =>
      let s'' := match c'.(Conversation.identity) with
                 | Some identity => (eap_close (Some identity) s').2
                 | None => s'
                 end in
      ((if Error.is_server_error error then Err error
        else Ok (Reject (failure request))), e, s'')
  end.

(** [Engine::process]. *)
Definition process_input (listener nas_id : string) (nas : Nas.t) (request : Packet.t)
    (secret : list Z) (client : Client.t) (input : list Z) : eng Outcome :=
  config ← wlift (eap_profile listener);
  let context := eap_context listener nas_id nas client secret in
  at_ ← wtx now;
  e ← wget;
  _ ← wset (filter (λ kc, at_ < (kc.2 : Conversation.t T).(Conversation.expires_at)) e);
  match packet_attr request 24 with
  | None => open_conversation config context request input
  | Some bytes =>
      _ ← wensure (utf8_valid bytes) (Error.bad "Invalid EAP state");
      let state := bytes_string bytes in
      c ← lookup_conversation state;
      match c with
      | None => reject request
      | Some c =>
          if negb (String.eqb c.(Conversation.context) context) then reject request
          else
            e ← wget;
            _ ← wset (base.delete state e);
            fp ← wlift (eap_profile_fingerprint config);
            if negb (String.eqb c.(Conversation.profile_fingerprint) fp) then reject request
            else continue_conversation listener client secret request input state c
      end
  end.
Definition process (listener nas_id : string) (nas : Nas.t) (request : Packet.t) (secret : list Z)
    (client : Client.t) : eng Outcome :=
  if starts_eap request then
    n ← wtx draw;
    mret (Challenge (attributes (packet 1 (random_u8 n) (Some 1) []) None))
  else
    match message request with
    | Err _ => reject request
    | Ok input =>
        if bool_decide (is_Some (packet_attr request 2)) || bool_decide (is_Some (packet_attr request 3))
        then reject request
        else process_input listener nas_id nas request secret client input
    end.

(** ** Splitting and joining *)

Lemma chunk_list_spec {A} (fuel n : nat) (l : list A) :
  (0 < n)%nat → (length l ≤ fuel)%nat →
  concat (chunk_list fuel n l) = l ∧ Forall (λ c, (0 < length c ≤ n)%nat) (chunk_list fuel n l).
Proof.
  intros Hn. revert l. induction fuel as [|fuel IH]; intros [|a l] Hl; simpl; try done; [simpl in Hl; lia|].
  destruct (IH (drop n (a :: l))) as [Hc Hf]; [rewrite length_drop; simpl in *; lia|].
  rewrite Hc. split; [apply take_drop|]. constructor; [|done].
  rewrite length_take. simpl. lia.
Qed.
Lemma chunks_spec {A} (n : nat) (l : list A) :
  (0 < n)%nat → concat (chunks n l) = l ∧ Forall (λ c, (0 < length c ≤ n)%nat) (chunks n l).
Proof. intros Hn. by apply chunk_list_spec. Qed.

Lemma packet_layout code id method data :
  let m := match method with Some m => [m] | None => [] end in
  packet code id method data
  = [code; id] ++ u16_be (Z.of_nat (4 + length (m ++ data)) mod 65536) ++ m ++ data.
Proof.
  unfold packet. cbn zeta.
  etransitivity; [by apply (splice_mid [code; id] [0; 0])|]. by rewrite !length_app.
Qed.

Lemma consecutive_none seen ended l rest :
  Forall (λ a, a.1 ≠ 79) l → consecutive seen ended (l ++ rest) = consecutive seen (ended || (seen && negb (length l =? 0)%nat)) rest.
Proof.
  revert seen ended. induction l as [|a l IH]; intros seen ended Hl; simpl.
  - by rewrite andb_false_r, orb_false_r.
  - inversion Hl as [|? ? Ha Hr]; subst. destruct (Z.eqb_spec a.1 79); [done|]. rewrite IH by done.
    f_equal. destruct ended, seen; simpl; try done; by destruct (length l).
Qed.
Lemma consecutive_run seen l rest :
  consecutive seen false (((λ c : list Z, (79, c)) <$> l) ++ rest)
  = consecutive (seen || negb (length l =? 0)%nat) false rest.
Proof.
  revert seen. induction l as [|c l IH]; intros seen; simpl; [by rewrite orb_false_r|].
  rewrite IH. by rewrite orb_true_r.
Qed.
Lemma consecutive_after seen ended l : Forall (λ a, a.1 ≠ 79) l → consecutive seen ended l = true.
Proof.
  intros Hl. rewrite <- (app_nil_r l), consecutive_none by done. done.
Qed.
Lemma filter_none (l : WireAttributes) : Forall (λ a, a.1 ≠ 79) l → List.filter (λ a, a.1 =? 79) l = [].
Proof. induction 1 as [|a l Ha _ IH]; simpl; [done|]. by destruct (Z.eqb_spec a.1 79). Qed.
Lemma filter_run l : List.filter (λ a, a.1 =? 79) ((λ c : list Z, (79, c)) <$> l) = (λ c, (79, c)) <$> l.
Proof. induction l as [|c l IH]; [done|]. exact (f_equal (cons (79, c)) IH). Qed.

(** ** Reassembly *)

Lemma u32_round n : 0 ≤ n < 2 ^ 32 → u32_of (u32_be n) = n.
Proof.
  intros Hn. unfold u32_of, u32_be. simpl.
  change (Z.pow_pos 2 24) with (2 ^ 24). change (Z.pow_pos 2 16) with (2 ^ 16).
  rewrite (Z.mod_small (n / 2 ^ 24)) by (split; [apply Z.div_pos; lia|apply Z.div_lt_upper_bound; lia]).
  pose proof (Z.div_mod n 256 ltac:(lia)). pose proof (Z.div_mod (n / 256) 256 ltac:(lia)).
  pose proof (Z.div_mod (n / 256 / 256) 256 ltac:(lia)).
  rewrite !Z.div_div in * by lia. change (256 * 256) with (2 ^ 16) in *. change (2 ^ 16 * 256) with (2 ^ 24) in *.
  lia.
Qed.

(** The receiver's side: each fragment's flags and data, in order. *)
Fixpoint receive (l : list (list Z)) : conv (list (option (list Z))) :=
  match l with
  | [] => mret []
  | f :: l =>
      r ← reassemble (at_byte f 0) (drop 1 f);
      rs ← receive l;
      mret (r :: rs)
  end.

(** A fragment that does not announce a length. *)
Lemma reassemble_more (c : Conversation.t T) s data total :
  c.(Conversation.total) = Some total →
  Z.of_nat (length c.(Conversation.received) + length data) < total → total ≤ 65536 → (0 < length data)%nat →
  reassemble 64 data c s
  = (Ok None, Conversation.with_received c (c.(Conversation.received) ++ data) (Some total), s).
Proof.
  intros Ht Hl Hmax Hd. unfold reassemble, announced, wensure, wget, wset, mbind, sm_bind, mret, sm_ret.
  change (Z.land 64 128 =? 0) with true. change (Z.land 64 64 =? 0) with false. cbn [negb].
  rewrite (proj2 (Nat.eqb_neq (length data) 0)) by lia. rewrite (proj2 (Z.ltb_ge 65536 _)) by lia. cbn [negb orb].
  rewrite Ht. cbn [Conversation.with_received Conversation.total].
  rewrite length_app, (proj2 (Z.ltb_lt _ total)) by lia. done.
Qed.
Lemma reassemble_last (c : Conversation.t T) s data total :
  c.(Conversation.total) = total →
  (match total with Some n => Z.of_nat (length c.(Conversation.received) + length data) = n | None => True end) →
  Z.of_nat (length c.(Conversation.received) + length data) ≤ 65536 → (0 < length data)%nat →
  reassemble 0 data c s
  = (Ok (Some (c.(Conversation.received) ++ data)), Conversation.with_received c [] None, s).
Proof.
  intros Ht Hl Hmax Hd. unfold reassemble, announced, wensure, wget, wset, mbind, sm_bind, mret, sm_ret.
  change (Z.land 0 128 =? 0) with true. change (Z.land 0 64 =? 0) with true. cbn [negb].
  rewrite (proj2 (Nat.eqb_neq (length data) 0)) by lia. rewrite (proj2 (Z.ltb_ge 65536 _)) by lia. cbn [negb orb].
  cbn [Conversation.with_received Conversation.total]. rewrite Ht, length_app.
  destruct total as [n|]; [|done]. by rewrite (proj2 (Z.eqb_eq _ n)) by lia.
Qed.

(** The fragments after the first, as a recursion over the parts. *)
Fixpoint tail_frames (cs : list (list Z)) : list (list Z) :=
  match cs with
  | [] => []
  | d :: rest => ((if (length rest =? 0)%nat then 0 else 64) :: d) :: tail_frames rest
  end.
Lemma tail_frames_imap k cs :
  imap (λ i d, (if (S (k + i) <? k + length cs)%nat then 64 else 0) :: d) cs = tail_frames cs.
Proof.
  revert k. induction cs as [|d cs IH]; intros k; [done|].
  rewrite imap_cons. simpl. f_equal.
  - f_equal. destruct (Nat.ltb_spec (S (k + 0)) (k + S (length cs))), (Nat.eqb_spec (length cs) 0); try done; lia.
  - rewrite <- (IH (S k)). apply imap_ext. intros i d' _. simpl.
    by replace (S (k + S i)) with (S (S (k + i))) by lia; replace (k + S (length cs))%nat with (S (k + length cs)) by lia.
Qed.

Lemma with_received_twice (c : Conversation.t T) a b x y :
  Conversation.with_received (Conversation.with_received c a b) x y = Conversation.with_received c x y.
Proof. done. Qed.

Lemma receive_tail cs (c : Conversation.t T) s n :
  cs ≠ [] → Forall (λ d, (0 < length d)%nat) cs → c.(Conversation.total) = Some n →
  Z.of_nat (length c.(Conversation.received) + length (concat cs)) = n → n ≤ 65536 →
  receive (tail_frames cs) c s
  = (Ok (replicate (length cs - 1) None ++ [Some (c.(Conversation.received) ++ concat cs)]),
     Conversation.with_received c [] None, s).
Proof.
  revert c. induction cs as [|d cs IH]; intros c Hne Hcs Ht Hn Hmax; [done|].
  apply Forall_cons in Hcs as [Hd Hrest]. cbn [tail_frames receive concat] in *.
  rewrite length_app in Hn. change (at_byte (?x :: d) 0) with x.
  change (drop 1 (_ :: d)) with d.
  destruct cs as [|d' cs].
  - cbn [length Nat.eqb concat] in *. unfold mbind at 1, sm_bind at 1. cbn [at_byte].
    change (at_byte (0 :: d) 0) with 0.
    rewrite (reassemble_last c s d (Some n)) by (rewrite ?Ht; simpl in *; done || lia).
    by rewrite app_nil_r.
  - cbn [length Nat.eqb]. unfold mbind at 1, sm_bind at 1. change (at_byte (64 :: d) 0) with 64.
    assert (0 < length (concat (d' :: cs)))%nat.
    { cbn [concat]. rewrite length_app. inversion Hrest. lia. }
    rewrite (reassemble_more c s d n) by (done || lia).
    unfold mbind, sm_bind. rewrite IH; [| done | done | done | | done].
    + cbn [Conversation.with_received Conversation.received mret sm_ret length Nat.sub].
      rewrite Nat.sub_0_r. by rewrite <- (assoc_L (++)).
    + cbn [Conversation.with_received Conversation.received]. rewrite length_app. lia.
Qed.

Lemma fragments_shape size bytes :
  fragments size bytes
  = if (size <? length bytes)%nat then
      match chunks size bytes with
      | d :: cs => (Z.lor (if (1 <? length (d :: cs))%nat then 64 else 0) 128
                    :: u32_be (Z.of_nat (length bytes)) ++ d) :: tail_frames cs
      | [] => []
      end
    else tail_frames (chunks size bytes).
Proof.
  unfold fragments. cbn zeta. destruct (size <? length bytes)%nat; cbn [andb].
  - destruct (chunks size bytes) as [|d cs]; [done|]. rewrite imap_cons. f_equal.
    rewrite <- (tail_frames_imap 1). apply imap_ext. intros i d' _. done.
  - apply (tail_frames_imap 0).
Qed.

(** The first of several fragments announces the length of the flight. *)
Lemma reassemble_first (c : Conversation.t T) s data n :
  c.(Conversation.received) = [] → c.(Conversation.total) = None →
  Z.of_nat (length data) < n → n ≤ 65536 → (0 < length data)%nat →
  reassemble 192 (u32_be n ++ data) c s
  = (Ok None, Conversation.with_received c data (Some n), s).
Proof.
  intros Hr Ht Hl Hmax Hd.
  unfold reassemble, announced, wensure, wget, wset, mbind, sm_bind, mret, sm_ret.
  change (Z.land 192 128 =? 0) with false. change (Z.land 192 64 =? 0) with false. cbn [negb].
  rewrite Hr, Ht, length_app. change (take 4 (u32_be n ++ data)) with (u32_be n).
  change (drop 4 (u32_be n ++ data)) with data. rewrite u32_round by lia.
  rewrite (proj2 (Nat.ltb_ge _ 4)) by (simpl; lia). rewrite (bool_decide_eq_false_2 (is_Some None)) by (by intros []).
  rewrite (proj2 (Z.eqb_neq n 0)), (proj2 (Z.ltb_ge 65536 n)) by lia. cbn [length Nat.eqb negb orb].
  cbn [Conversation.with_received Conversation.total Conversation.received].
  rewrite (proj2 (Nat.eqb_neq (length data) 0)) by lia.
  rewrite (proj2 (Z.ltb_ge 65536 _)) by (simpl; lia). cbn [negb orb app].
  by rewrite (proj2 (Z.ltb_lt _ n)) by lia.
Qed.

Lemma receive_fragments size bytes (c : Conversation.t T) s :
  (0 < size)%nat → (0 < length bytes)%nat → Z.of_nat (length bytes) ≤ 65536 →
  c.(Conversation.received) = [] → c.(Conversation.total) = None →
  receive (fragments size bytes) c s
  = (Ok (replicate (length (fragments size bytes) - 1) None ++ [Some bytes]), c, s).
Proof.
  intros Hs Hb Hmax Hr Ht. destruct (chunks_spec size bytes Hs) as [Hcat Hcs].
  assert (Hc : ∀ a b, Conversation.with_received (Conversation.with_received c a b) [] None = c)
    by (intros; destruct c; simpl in *; by subst).
  rewrite fragments_shape. destruct (chunks size bytes) as [|d cs] eqn:Hch.
  { simpl in Hcat. subst. simpl in Hb. lia. }
  apply Forall_cons in Hcs as [Hd Hrest]. cbn [concat] in Hcat.
  pose proof (f_equal length Hcat) as Hlen. rewrite length_app in Hlen.
  assert (Hnon : Forall (λ x : list Z, (0 < length x)%nat) cs) by (eapply Forall_impl; [exact Hrest|]; simpl; lia).
  destruct (Nat.ltb_spec size (length bytes)) as [Hlt|Hge].
  - assert (cs ≠ []) as Hne by (intros ->; simpl in *; lia).
    assert (0 < length (concat cs))%nat.
    { destruct cs; [done|]. inversion Hnon; subst. cbn [concat]. rewrite length_app. lia. }
    destruct (Nat.ltb_spec 1 (length (d :: cs))) as [_|Hbad]; [|destruct cs; simpl in *; lia].
    change (Z.lor 64 128) with 192. cbn [receive]. unfold mbind at 1, sm_bind at 1.
    change (at_byte (192 :: ?x) 0) with 192.
    change (drop 1 (?f :: ?x)) with x.
    rewrite (reassemble_first c s d (Z.of_nat (length bytes))) by (done || lia).
    unfold mbind, sm_bind. rewrite (receive_tail cs _ _ (Z.of_nat (length bytes)));
      [|done|done|done|cbn [Conversation.with_received Conversation.received]; lia|done].
    cbn [Conversation.with_received Conversation.received mret sm_ret]. rewrite Hc, Hcat.
    assert (Htl : length (tail_frames cs) = length cs) by (clear; induction cs; simpl; congruence).
    simpl length. rewrite Htl. destruct cs as [|x cs]; [done|]. simpl. by rewrite Nat.sub_0_r.
  - assert (cs = []) as ->.
    { destruct cs as [|x cs]; [done|]. exfalso. unfold chunks in Hch. destruct bytes as [|b bytes]; [done|].
      cbn [length chunk_list] in Hch. injection Hch as Hd' Hx. rewrite drop_ge in Hx by (simpl in *; lia).
      destruct (length bytes); done. }
    rewrite app_nil_r in Hcat. subst d. cbn [tail_frames receive length Nat.eqb].
    unfold mbind, sm_bind. change (at_byte (0 :: bytes) 0) with 0. change (drop 1 (0 :: bytes)) with bytes.
    rewrite (reassemble_last c s bytes None) by (rewrite ?Hr; simpl; done || lia).
    rewrite Hr. cbn [mret sm_ret app replicate Nat.sub]. do 2 f_equal.
    destruct c; simpl in *; by subst.
Qed.

(** ** The conversation's invariant *)

(** The port created [i] for a certificate, for a client on a listener under the
    profile and context of the conversation. *)
Definition created (c : Conversation.t T) (i : Identity.t) : Prop :=
  ∃ listener nas_id nas client secret der s s',
    c.(Conversation.context) = eap_context listener nas_id nas client secret ∧
    eap_create_identity client listener c.(Conversation.profile_fingerprint) der s = (Ok i, s').
Definition identity_sound (c : Conversation.t T) : Prop :=
  ∀ i, c.(Conversation.identity) = Some i → created c i.
(** Sound identities, a bounded buffer, success only with an identity. *)
Definition conversation_ok (c : Conversation.t T) : Prop :=
  identity_sound c ∧ Z.of_nat (length c.(Conversation.received)) ≤ 65536 ∧
  (c.(Conversation.await_success) = true → is_Some c.(Conversation.identity)).
Definition same_binding (c c' : Conversation.t T) : Prop :=
  c'.(Conversation.context) = c.(Conversation.context) ∧
  c'.(Conversation.profile_fingerprint) = c.(Conversation.profile_fingerprint) ∧
  c'.(Conversation.expires_at) = c.(Conversation.expires_at) ∧
  c'.(Conversation.rounds) = c.(Conversation.rounds).
Definition advances (c c' : Conversation.t T) : Prop :=
  same_binding c c' ∧ (conversation_ok c → conversation_ok c').

#[local] Instance advances_preorder : PreOrder advances.
Proof.
  split; [done|]. intros a b c ([? [? [? ?]]] & Hab) ([? [? [? ?]]] & Hbc).
  split; [split_and!; congruence|auto].
Qed.

(** Every run of [m] on a conversation bound to [ctx] advances it, whether it
    succeeds or fails; [pinned] is the same for a conversation just read. *)
Section keeps.
Context (ctx : string).
Definition keeps {A} (m : conv A) : Prop :=
  ∀ c s r c' s', c.(Conversation.context) = ctx → m c s = (r, c', s') → advances c c'.
Definition pinned {A} (c0 : Conversation.t T) (m : conv A) : Prop :=
  ∀ s r c' s', c0.(Conversation.context) = ctx → m c0 s = (r, c', s') → advances c0 c'.

Lemma advances_context c c' : advances c c' → c'.(Conversation.context) = c.(Conversation.context).
Proof. by intros [[? _] _]. Qed.

Lemma keeps_bind {A B} (m : conv A) (f : A → conv B) : keeps m → (∀ a, keeps (f a)) → keeps (m ≫= f).
Proof.
  intros Hm Hf c s r c' s' Hc Hrun. unfold mbind, sm_bind in Hrun.
  destruct (m c s) as [[[a|e] c1] s1] eqn:H1.
  - pose proof (Hm _ _ _ _ _ Hc H1) as Ha. etransitivity; [exact Ha|]. eapply Hf; [|exact Hrun].
    by rewrite (advances_context _ _ Ha).
  - simplify_eq. eauto.
Qed.
Lemma keeps_get {A} (f : Conversation.t T → conv A) : (∀ c, pinned c (f c)) → keeps (wget ≫= f).
Proof. intros H c s r c' s' Hc Hrun. exact (H c s r c' s' Hc Hrun). Qed.
Lemma pinned_get {A} c (f : Conversation.t T → conv A) : pinned c (f c) → pinned c (wget ≫= f).
Proof. intros H s r c' s' Hc Hrun. exact (H s r c' s' Hc Hrun). Qed.
Lemma keeps_pinned {A} c (m : conv A) : keeps m → pinned c m.
Proof. intros H s r c' s'. apply H. Qed.
Lemma pinned_set_then {A} c0 c1 (f : conv A) :
  advances c0 c1 → keeps f → pinned c0 (wset c1 ≫= λ _, f).
Proof.
  intros Ha Hf s r c' s' Hc Hrun. unfold mbind, sm_bind, wset in Hrun.
  etransitivity; [exact Ha|]. eapply Hf; [|exact Hrun]. by rewrite (advances_context _ _ Ha).
Qed.
Lemma pinned_set_pinned {A} c0 c1 (f : conv A) :
  advances c0 c1 → pinned c1 f → pinned c0 (wset c1 ≫= λ _, f).
Proof.
  intros Ha Hf s r c' s' Hc Hrun. unfold mbind, sm_bind, wset in Hrun.
  etransitivity; [exact Ha|]. eapply Hf; [|exact Hrun]. by rewrite (advances_context _ _ Ha).
Qed.
Lemma pinned_set c0 c1 : advances c0 c1 → pinned c0 (wset c1).
Proof. intros Ha s r c' s' Hc Hrun. unfold wset in Hrun. by simplify_eq. Qed.
Lemma pinned_lift_then {A B} c (r : Result A) (f : A → conv B) :
  (∀ a, r = Ok a → pinned c (f a)) → pinned c (wlift r ≫= f).
Proof.
  intros H s r' c' s' Hc Hrun. unfold mbind, sm_bind, wlift in Hrun.
  destruct r as [a|e]; [exact (H a eq_refl s r' c' s' Hc Hrun)|by simplify_eq].
Qed.
Lemma pinned_ensure_then {B} c b e (f : conv B) :
  (b = true → pinned c f) → pinned c (wensure b e ≫= λ _, f).
Proof.
  intros H s r c' s' Hc Hrun. unfold mbind, sm_bind, wensure in Hrun.
  destruct b; [exact (H eq_refl s r c' s' Hc Hrun)|]. unfold wfail in Hrun. by simplify_eq.
Qed.
Lemma pinned_ret {A} c (a : A) : pinned c (mret a).
Proof. intros s r c' s' _ Hrun. unfold mret, sm_ret in Hrun. by simplify_eq. Qed.
Lemma pinned_fail {A} c e : pinned c (wfail (A:=A) e).
Proof. intros s r c' s' _ Hrun. unfold wfail in Hrun. by simplify_eq. Qed.
Lemma keeps_all {A} (m : conv A) : (∀ c, pinned c m) → keeps m.
Proof. intros H c s r c' s'. apply H. Qed.
End keeps.
End eap.

Ltac keeps_step :=
  match goal with
  | |- keeps _ (wget ≫= _) => apply keeps_get; intros ?c
  | |- pinned _ _ (wget ≫= _) => apply pinned_get
  | |- pinned _ _ (wensure _ _ ≫= _) => apply pinned_ensure_then; intros ?
  | |- pinned _ _ (wlift _ ≫= _) => apply pinned_lift_then; intros ? ?
  | |- pinned _ _ (mret _) => apply pinned_ret
  | |- pinned _ _ (wfail _) => apply pinned_fail
  | |- pinned _ _ (if ?b then _ else _) => destruct b eqn:?
  | |- keeps _ (_ ≫= _) => apply keeps_bind; [|intros ?]
  | |- keeps _ _ => apply keeps_all; intros ?c
  end.

Section invariant.
Context {E : Env} {T : Type} {TLS : Tls T} {P : EapPort}.
#[local] Abbreviation conv := (sm (Conversation.t T)).
Implicit Types c : Conversation.t T.

Lemma advances_tls c x : advances c (Conversation.with_tls c x).
Proof. split; [done|]. intros (Hi & Hr & Ha). split_and!; [|done|done]. exact Hi. Qed.
Lemma advances_expected c x : advances c (Conversation.with_expected c x).
Proof. split; [done|]. intros (Hi & Hr & Ha). split_and!; [|done|done]. exact Hi. Qed.
Lemma advances_outbound c x : advances c (Conversation.with_outbound c x).
Proof. split; [done|]. intros (Hi & Hr & Ha). split_and!; [|done|done]. exact Hi. Qed.
Lemma advances_received c x y : Z.of_nat (length x) ≤ 65536 → advances c (Conversation.with_received c x y).
Proof. intros Hx. split; [done|]. intros (Hi & Hr & Ha). split_and!; [|done|done]. exact Hi. Qed.
Lemma advances_total c y : advances c (Conversation.with_received c c.(Conversation.received) y).
Proof. split; [done|]. intros (Hi & Hr & Ha). split_and!; [|done|done]. exact Hi. Qed.

Lemma keeps_request ctx data : keeps ctx (conversation_request data : conv _).
Proof.
  unfold conversation_request. keeps_step. cbn zeta.
  apply pinned_set_then; [apply advances_expected|]. do 2 keeps_step.
Qed.
Lemma keeps_next ctx l : keeps ctx (next_fragment l : conv _).
Proof.
  destruct l as [|x l]; cbn [next_fragment]; [by do 2 keeps_step|]. keeps_step.
  apply pinned_set_then; [apply advances_outbound|apply keeps_request].
Qed.
Lemma keeps_flight ctx bytes : keeps ctx (flight bytes : conv _).
Proof.
  unfold flight. apply keeps_all. intros c. keeps_step. keeps_step. apply keeps_pinned, keeps_next.
Qed.
Lemma keeps_announced ctx flags data : keeps ctx (announced flags data : conv _).
Proof.
  unfold announced. repeat (keeps_step; cbn zeta).
  apply pinned_set_then; [apply advances_total|]. do 2 keeps_step.
Qed.
Lemma keeps_reassemble ctx flags data : keeps ctx (reassemble flags data : conv _).
Proof.
  unfold reassemble. apply keeps_bind; [apply keeps_announced|]. intros d. keeps_step. keeps_step. cbn zeta.
  apply negb_true_iff, orb_false_iff in H as [_ H%Z.ltb_ge].
  apply pinned_set_pinned; [apply advances_received; rewrite length_app; lia|].
  keeps_step; keeps_step; [apply pinned_ret|].
  apply pinned_set_then; [by apply (advances_received (Conversation.with_received c _ _))|]. do 2 keeps_step.
Qed.
Lemma keeps_feed ctx fuel bytes : keeps ctx (feed fuel bytes : conv _).
Proof.
  revert bytes. induction fuel as [|fuel IH]; intros [|b bytes]; cbn [feed]; try by do 2 keeps_step.
  keeps_step. keeps_step. apply pinned_set_then; [apply advances_tls|].
  apply keeps_all. intros c1. do 3 keeps_step. apply pinned_set_then; [apply advances_tls|].
  apply keeps_all. intros c2. keeps_step. apply keeps_pinned, IH.
Qed.
Lemma keeps_drain ctx fuel out : keeps ctx (drain fuel out : conv _).
Proof.
  revert out. induction fuel as [|fuel IH]; intros out; cbn [drain]; keeps_step; keeps_step; try by keeps_step.
  keeps_step. apply pinned_set_then; [apply advances_tls|].
  apply keeps_all. intros c1. keeps_step. apply keeps_pinned, IH.
Qed.
Lemma keeps_finish listener nas_id nas client secret :
  keeps (eap_context listener nas_id nas client secret) (finish_handshake client listener : conv _).
Proof.
  unfold finish_handshake. keeps_step. keeps_step; [apply pinned_ret|]. keeps_step.
  intros s r c' s' Hc Hrun. unfold mbind, sm_bind, mret, sm_ret, wtx, wset, wget in Hrun.
  destruct (eap_create_identity _ _ _ _ s) as [[i|e] s1] eqn:Hi; [|by simplify_eq].
  assert (Hmade : ∀ x b, advances c (Conversation.with_identity (Conversation.with_tls c x) (Some i) b)).
  { intros x b. split; [done|]. intros (_ & Hr & _). split_and!; [|done|by eexists].
    intros j [= <-]. exists listener, nas_id, nas, client, secret, a, s, s1. done. }
  pose proof (Hmade c.(Conversation.tls) false) as Hfalse.
  destruct c. cbn [Conversation.tls Conversation.with_identity Conversation.with_tls] in *.
  destruct (is_tls13 tls); [|simplify_eq; exact (Hmade tls true)].
  unfold wlift in Hrun. destruct (write_plain tls [0]) as [x|]; simplify_eq; [exact (Hmade x true)|exact Hfalse].
Qed.
Lemma keeps_take_flight listener nas_id nas client secret bytes :
  keeps (eap_context listener nas_id nas client secret) (take_flight client listener bytes : conv _).
Proof.
  unfold take_flight. keeps_step; [apply keeps_feed|]. keeps_step; [apply keeps_finish|].
  keeps_step; [apply keeps_drain|]. keeps_step.
  - destruct (_ =? _)%nat; [apply keeps_request|apply keeps_flight].
  - do 2 keeps_step.
Qed.

(** A computation that never accepts. *)
Definition challenges (m : conv Step) : Prop :=
  ∀ c s i k c' s', m c s ≠ (Ok (SAccept i k), c', s').
Lemma challenges_bind {A} (m : conv A) (f : A → conv Step) : (∀ a, challenges (f a)) → challenges (m ≫= f).
Proof.
  intros Hf c s i k c' s'. unfold mbind, sm_bind. destruct (m c s) as [[[a|e] c1] s1]; [apply Hf|done].
Qed.
Lemma challenges_ret reply : challenges (mret (SChallenge reply)).
Proof. by intros c s i k c' s'. Qed.
Lemma challenges_flight client listener bytes : challenges (take_flight client listener bytes).
Proof. unfold take_flight. repeat (apply challenges_bind; intros ?). apply challenges_ret. Qed.

Lemma wensure_run {A} b e (f : conv A) c s x c' s' :
  (wensure b e ≫= λ _, f) c s = (Ok x, c', s') → b = true ∧ f c s = (Ok x, c', s').
Proof. unfold mbind, sm_bind, wensure. by destruct b. Qed.

(** Only a conversation that waits for its acknowledgement accepts, and only the
    identity it created. *)
Lemma counted_step_accept client listener input c s i k c' s' :
  counted_step client listener input c c s = (Ok (SAccept i k), c', s') →
  c.(Conversation.identity) = Some i ∧ c.(Conversation.await_success) = true ∧
  at_byte input 1 = c.(Conversation.expected).
Proof.
  unfold counted_step. cbn zeta.
  intros [Hg Hrun]%wensure_run. apply wensure_run in Hrun as [_ Hrun].
  bools. destruct (Conversation.outbound c) as [|f l].
  - destruct (Conversation.await_success c) eqn:Haw.
    + apply wensure_run in Hrun as [_ Hrun]. unfold mbind, sm_bind, wlift in Hrun.
      destruct (Conversation.identity c) as [j|]; cbn [ok_or] in Hrun; [|by simplify_eq].
      unfold mret, sm_ret in Hrun. destruct (success_material _); simplify_eq. split_and!; [done..|lia].
    + exfalso. revert Hrun. apply challenges_bind. intros [bytes|]; [apply challenges_flight|].
      apply challenges_bind. intros reply. apply challenges_ret.
  - exfalso. apply wensure_run in Hrun as [_ Hrun]. revert Hrun.
    apply challenges_bind. intros reply. apply challenges_ret.
Qed.
Lemma counted_step_rounds client listener input c s x c' s' :
  counted_step client listener input c c s = (Ok x, c', s') → c.(Conversation.rounds) ≤ 256.
Proof. unfold counted_step. cbn zeta. intros [Hg _]%wensure_run. bools. lia. Qed.
Lemma keeps_counted_step listener nas_id nas client secret input c :
  pinned (eap_context listener nas_id nas client secret) c (counted_step client listener input c).
Proof.
  unfold counted_step. cbn zeta. keeps_step. keeps_step. destruct (Conversation.outbound c) as [|f l].
  - destruct (Conversation.await_success c).
    + do 3 keeps_step. apply pinned_ret.
    + apply keeps_pinned, keeps_bind; [apply keeps_reassemble|]. intros [bytes|]; [apply keeps_take_flight|].
      apply keeps_bind; [apply keeps_request|]. intros. do 2 keeps_step.
  - keeps_step. apply keeps_pinned, keeps_bind; [apply keeps_next|]. intros. do 2 keeps_step.
Qed.

(** One step counts a round, keeps the binding and the invariant, and accepts only
    the identity of a conversation that waits for its acknowledgement. *)
Lemma step_run listener nas_id nas client secret input c s r c' s' :
  c.(Conversation.context) = eap_context listener nas_id nas client secret →
  step client listener input c s = (r, c', s') →
  advances (Conversation.with_rounds c (c.(Conversation.rounds) + 1)) c' ∧
  (is_ok r = true → c'.(Conversation.rounds) ≤ 256) ∧
  (∀ i m, r = Ok (SAccept i m) → c.(Conversation.identity) = Some i ∧
     c.(Conversation.await_success) = true ∧ at_byte input 1 = c.(Conversation.expected)).
Proof.
  intros Hc Hrun. set (c1 := Conversation.with_rounds c (c.(Conversation.rounds) + 1)) in *.
  change (counted_step client listener input c1 c1 s = (r, c', s')) in Hrun.
  assert (Hadv : advances c1 c') by exact (keeps_counted_step _ _ _ _ _ _ c1 s r c' s' Hc Hrun).
  split; [done|]. split.
  - intros Hok. destruct r as [x|]; [|done]. apply counted_step_rounds in Hrun.
    by destruct Hadv as [(_ & _ & _ & ->) _].
  - intros i m ->. by apply counted_step_accept in Hrun.
Qed.

(** ** The engine's invariant *)

#[local] Abbreviation engine := (gmap string (Conversation.t T)).
#[local] Abbreviation eng := (sm engine).

(** At most 512 conversations, each sound and within 256 rounds. *)
Definition engine_ok (e : engine) : Prop :=
  (size e ≤ 512)%nat ∧
  ∀ k c, e !! k = Some c → conversation_ok c ∧ c.(Conversation.rounds) ≤ 256.

Lemma engine_ok_subset (e e' : engine) : engine_ok e → e' ⊆ e → engine_ok e'.
Proof.
  intros [Hs Hc] Hsub. split.
  - etransitivity; [|exact Hs]. by apply map_subseteq_size.
  - intros k c Hk. apply (Hc k). by eapply lookup_weaken.
Qed.
Lemma engine_ok_insert (e : engine) k c :
  engine_ok e → (is_Some (e !! k) ∨ (size e < 512)%nat) → conversation_ok c → c.(Conversation.rounds) ≤ 256 →
  engine_ok (<[k := c]> e).
Proof.
  intros [Hs Hc] Hroom Hok Hr. split.
  - rewrite map_size_insert. destruct (e !! k) eqn:Hk; simpl; [lia|]. destruct Hroom as [[? ?]|]; [done|lia].
  - intros k' c' [[_ <-]|[_ Hk]]%lookup_insert_Some; [done|by eapply Hc].
Qed.
Lemma engine_ok_back (e e' : engine) k c c0 :
  engine_ok e → e !! k = Some c0 → e' = base.delete k e → conversation_ok c → c.(Conversation.rounds) ≤ 256 →
  engine_ok (<[k := c]> e').
Proof.
  intros He Hk -> Hok Hr. rewrite insert_delete_eq. apply engine_ok_insert; eauto.
Qed.

(** An outcome that is no acceptance. *)
Definition no_accept (r : Result Outcome) : Prop := ∀ i l, r ≠ Ok (Accept i l).

Lemma open_run config context request input (e e' : engine) s r s' :
  engine_ok e → open_conversation config context request input e s = (r, e', s') →
  engine_ok e' ∧ no_accept r.
Proof.
  intros He. unfold open_conversation, reject, mbind, sm_bind, wget, wset, wlift, wtx, wensure, wfail, mret, sm_ret.
  destruct (_ || (512 <=? size e)%nat) eqn:Hfull; [by intros [= <- <- <-]|].
  apply orb_false_iff in Hfull as [_ Hroom]. apply Nat.leb_gt in Hroom.
  destruct (utf8_valid _); [|by intros [= <- <- <-]].
  destruct (existsb _ _); [by intros [= <- <- <-]|].
  destruct (eap_load config) as [[[tls|] fp]|]; cbn [fst snd]; try by intros [= <- <- <-].
  destruct (random_token "ri_eap_" s) as [[state|] s1]; [|by intros [= <- <- <-]]. cbn [now].
  intros [= <- <- <-]. split; [|done].
  apply engine_ok_insert; [done|by right| |done].
  split_and!; [by intros i|done|done].
Qed.

Lemma continue_run listener nas_id nas client secret request input state c (e e' : engine) s r s' :
  engine_ok e → e !! state = Some c → c.(Conversation.context) = eap_context listener nas_id nas client secret →
  continue_conversation listener client secret request input state c (base.delete state e) s = (r, e', s') →
  engine_ok e' ∧
  ∀ i l, r = Ok (Accept i l) → c.(Conversation.identity) = Some i ∧ c.(Conversation.await_success) = true
    ∧ at_byte input 1 = c.(Conversation.expected) ∧ e' = base.delete state e.
Proof.
  intros He Hk Hc Hrun. pose proof (proj2 He _ _ Hk) as [Hok Hrounds].
  assert (Hdel : engine_ok (base.delete state e)) by (eapply engine_ok_subset; [exact He|apply delete_subseteq]).
  unfold continue_conversation in Hrun.
  destruct (step client listener input c s) as [[[[reply|i k]|err] c1] s1] eqn:Hst.
  all: destruct (step_run listener nas_id nas client secret _ _ _ _ _ _ Hc Hst) as ([_ Hadv] & Hr & Hacc).
  - simplify_eq. split; [|done]. eapply engine_ok_back; [exact He|exact Hk|reflexivity|apply Hadv; exact Hok|by apply Hr].
  - destruct (draw s1) as [n s2]. simplify_eq. split; [done|]. intros j l Hj.
    destruct (Hacc i k eq_refl) as (? & ? & ?). destruct n as [n|]; [|done].
    unfold mbind, result_bind in Hj. by simplify_eq.
  - simplify_eq. split; [done|]. intros i l. by destruct (Error.is_server_error err).
Qed.

Lemma process_input_run listener nas_id nas client secret request input (e e' : engine) s r s' :
  engine_ok e → process_input listener nas_id nas request secret client input e s = (r, e', s') →
  engine_ok e' ∧
  ∀ i l, r = Ok (Accept i l) → ∃ bytes c config,
    packet_attr request 24 = Some bytes ∧ e !! bytes_string bytes = Some c ∧
    s.(St.clock) < c.(Conversation.expires_at) ∧
    c.(Conversation.context) = eap_context listener nas_id nas client secret ∧
    eap_profile listener = Ok config ∧ eap_profile_fingerprint config = Ok c.(Conversation.profile_fingerprint) ∧
    c.(Conversation.identity) = Some i ∧ c.(Conversation.await_success) = true ∧
    at_byte input 1 = c.(Conversation.expected) ∧ e' !! bytes_string bytes = None.
Proof.
  intros He. unfold process_input. unfold mbind at 1, sm_bind at 1, wlift at 1.
  destruct (eap_profile listener) as [config|] eqn:Hconfig; [|by intros [= <- <- <-]]. cbn zeta.
  unfold mbind at 1, sm_bind at 1, wtx at 1, now at 1. unfold mbind at 1, sm_bind at 1, wget at 1.
  unfold mbind at 1, sm_bind at 1, wset at 1.
  set (e1 := filter (λ kc, s.(St.clock) < (kc.2 : Conversation.t T).(Conversation.expires_at)) e).
  assert (He1 : engine_ok e1) by (eapply engine_ok_subset; [exact He|apply map_filter_subseteq]).
  destruct (packet_attr request 24) as [bytes|] eqn:Hstate.
  2:{ intros Hrun. apply open_run in Hrun as [? Hno]; [|done]. split; [done|]. intros i l ->. by destruct (Hno i l). }
  unfold mbind at 1, sm_bind at 1, wensure at 1. destruct (utf8_valid bytes); [|by intros [= <- <- <-]].
  unfold mret at 1, sm_ret at 1. cbn zeta. unfold lookup_conversation, mbind, sm_bind, wget, wset, wlift, mret, sm_ret.
  destruct (e1 !! bytes_string bytes) as [c|] eqn:Hc; [|by intros [= <- <- <-]].
  destruct (negb (String.eqb c.(Conversation.context) _)) eqn:Hctx; [by intros [= <- <- <-]|].
  assert (Hdel : engine_ok (base.delete (bytes_string bytes) e1))
    by (eapply engine_ok_subset; [exact He1|apply delete_subseteq]).
  destruct (eap_profile_fingerprint config) as [fp|] eqn:Hfp; [|by intros [= <- <- <-]].
  destruct (negb (String.eqb _ fp)) eqn:Hsame; [by intros [= <- <- <-]|]. bools.
  intros Hrun. eapply continue_run in Hrun as [Hok Hacc]; [|done|done|done]. split; [done|].
  intros i l ->. destruct (Hacc i l eq_refl) as (? & ? & ? & ->).
  apply map_lookup_filter_Some in Hc as [Hc Hlive]. exists bytes, c, config.
  split_and!; try done. apply lookup_delete_eq.
Qed.

(** ** Runs of the engine *)

(** The engines that packets can lead to. *)
Inductive served : engine → Prop :=
| served_start : served ∅
| served_packet e listener nas_id nas request secret client s r e' s' :
    served e → process listener nas_id nas request secret client e s = (r, e', s') → served e'.

Lemma process_run listener nas_id nas client secret request (e e' : engine) s r s' :
  engine_ok e → process listener nas_id nas request secret client e s = (r, e', s') →
  engine_ok e' ∧
  ∀ i l, r = Ok (Accept i l) → ∃ input, message request = Ok input ∧
    process_input listener nas_id nas request secret client input e s = (r, e', s').
Proof.
  intros He. unfold process. destruct (starts_eap request).
  { unfold mbind, sm_bind, wtx, draw, mret, sm_ret. intros [= <- <- <-]. split; [done|]. intros i l Hr. done. }
  destruct (message request) as [input|]; [|by unfold reject, mret, sm_ret; intros [= <- <- <-]].
  destruct (_ || _); [by unfold reject, mret, sm_ret; intros [= <- <- <-]|]. intros Hrun.
  split; [by eapply process_input_run|]. intros i l ->. by exists input.
Qed.
Lemma served_ok e : served e → engine_ok e.
Proof.
  induction 1 as [|e listener nas_id nas request secret client s r e' s' _ IH Hrun].
  - split; [rewrite map_size_empty; lia|]. intros k c. by rewrite lookup_empty.
  - by eapply process_run.
Qed.

(** ** Properties *)

(** An EAP message survives its way through RADIUS attributes: cut into
    attributes of at most 253 bytes and put between other attributes, a response of
    any method and any data is read back byte for byte. *)
Theorem eap_message_roundtrip id method data before after p :
  let bytes := packet 2 id (Some method) data in
  Z.of_nat (5 + length data) < 65536 →
  Forall (λ a, a.1 ≠ 79) before → Forall (λ a, a.1 ≠ 79) after →
  p.(Packet.attrs) = before ++ attributes bytes None ++ after →
  message p = Ok bytes ∧ Forall (λ a, length a.2 ≤ 253)%nat (attributes bytes None).
Proof.
  intros bytes Hlen Hb Ha Hp. destruct (chunks_spec 253 bytes) as [Hcat Hcs]; [lia|].
  unfold attributes in *. rewrite app_nil_r in *. split.
  2:{ apply Forall_fmap. eapply Forall_impl; [exact Hcs|]. simpl. lia. }
  unfold message. rewrite Hp. rewrite !List.filter_app, filter_run, (filter_none _ Hb), (filter_none _ Ha), app_nil_r.
  cbn [app]. rewrite <- list_fmap_compose, (list_fmap_ext (snd ∘ _) (λ x, x)) by done. rewrite list_fmap_id, Hcat.
  rewrite consecutive_none by done. cbn [orb andb]. rewrite consecutive_run, consecutive_after by done. cbn [negb].
  assert (Hl : length bytes = (5 + length data)%nat) by (unfold bytes; rewrite packet_layout; done).
  assert (Hf : u16_of (at_byte bytes 2) (at_byte bytes 3) = Z.of_nat (length bytes)).
  { rewrite Hl. unfold bytes. rewrite packet_layout. cbn [length app]. unfold at_byte. simpl.
    rewrite u16_value by (apply Z.mod_pos_bound; lia). rewrite Z.mod_small by lia. lia. }
  rewrite (proj2 (Nat.ltb_ge _ 5)) by lia. rewrite Hf.
  assert (at_byte bytes 0 = 2) as -> by (unfold bytes; by rewrite packet_layout). by rewrite !Z.eqb_refl.
Qed.

(** A TLS flight survives fragmentation: the fragments a conversation sends
    for a flight of at most 64 KiB, the first at once and one more for each
    acknowledgement, are reassembled by the peer to exactly the flight at the last
    of them, and to nothing before; the receiver is then ready for the next flight. *)
Theorem eap_flight_roundtrip (sender receiver : Conversation.t T) bytes s :
  (0 < sender.(Conversation.fragment_size))%nat →
  (0 < length bytes)%nat → Z.of_nat (length bytes) ≤ 65536 →
  sender.(Conversation.outbound) = [] →
  receiver.(Conversation.received) = [] → receiver.(Conversation.total) = None →
  ∃ first rest sender',
    flight bytes sender s = (Ok (packet 1 ((sender.(Conversation.expected) + 1) mod 256) (Some 13) first), sender', s)
    ∧ sender'.(Conversation.outbound) = rest
    ∧ receive (first :: rest) receiver s
      = (Ok (replicate (length rest) None ++ [Some bytes]), receiver, s).
Proof.
  intros Hs Hb Hmax Ho Hr Ht.
  pose proof (receive_fragments sender.(Conversation.fragment_size) bytes receiver s Hs Hb Hmax Hr Ht) as Hrec.
  destruct (fragments sender.(Conversation.fragment_size) bytes) as [|first rest] eqn:Hf.
  { exfalso. rewrite fragments_shape in Hf. destruct (chunks_spec sender.(Conversation.fragment_size) bytes Hs) as [Hcat _].
    destruct (chunks _ bytes) as [|d cs]; [simpl in Hcat; rewrite <- Hcat in Hb; simpl in Hb; lia|]. by destruct (_ <? _)%nat. }
  exists first, rest, (Conversation.with_expected (Conversation.with_outbound sender rest)
                         ((sender.(Conversation.expected) + 1) mod 256)).
  rewrite Hrec. cbn [length Nat.sub]. rewrite Nat.sub_0_r. split; [|done].
  unfold flight, wensure. rewrite (proj2 (Nat.eqb_neq (length bytes) 0)), (proj2 (Z.ltb_ge 65536 _)) by lia. cbn [orb negb].
  unfold mbind, sm_bind, mret, sm_ret, wget. rewrite Ho, Hf. done.
Qed.

(** Whatever packets arrive, the engine holds at most 512 conversations; each
    has reassembled at most 64 KiB and taken at most 256 rounds, announces success
    only with an identity, and holds only an identity that the port created for a
    certificate, under the conversation's own profile and for the client, listener,
    access point and secret of its context. *)
Theorem engine_invariant (e : engine) : served e → engine_ok e.
Proof. apply served_ok. Qed.

(** C21: an EAP Access-Accept is sound: it answers a packet that carries the token
    of a live conversation of the same listener, access point, client and secret,
    under the trust profile of now, which finished its handshake and whose last
    message it acknowledges; the identity is the one the port created for this
    conversation's certificate, and the token is used up. *)
Theorem eap_accept_sound (e e' : engine) listener nas_id nas request secret client s i l s' :
  served e →
  process listener nas_id nas request secret client e s = (Ok (Accept i l), e', s') →
  ∃ bytes c config input,
    message request = Ok input ∧ packet_attr request 24 = Some bytes ∧
    e !! bytes_string bytes = Some c ∧ s.(St.clock) < c.(Conversation.expires_at) ∧
    c.(Conversation.context) = eap_context listener nas_id nas client secret ∧
    eap_profile listener = Ok config ∧ eap_profile_fingerprint config = Ok c.(Conversation.profile_fingerprint) ∧
    at_byte input 1 = c.(Conversation.expected) ∧
    c.(Conversation.identity) = Some i ∧ created c i ∧ e' !! bytes_string bytes = None.
Proof.
  intros He%served_ok Hrun. destruct (process_run _ _ _ _ _ _ _ _ _ _ _ He Hrun) as [_ Hacc].
  destruct (Hacc i l eq_refl) as (input & Hm & Hin).
  apply process_input_run in Hin as [_ Hin]; [|done].
  destruct (Hin i l eq_refl) as (bytes & c & config & Hb & Hc & Hlive & Hctx & Hconf & Hfp & Hid & _ & Hexp & Hgone).
  exists bytes, c, config, input. split_and!; try done.
  by apply (proj2 He _ _ Hc).
Qed.
End invariant.

(** ** Witnesses

    A TLS that finishes its handshake with the peer's first flight, and a port that
    knows one certificate. *)

#[local] Existing Instance Demo.env.

Module EapDemo.
Definition listener : string := "wifi".
Definition nas : Nas.t := Nas.mk "10.0.0.7" "crm" None.
Definition secret : list Z := string_bytes "xyzzy5461xyzzy5461".
Definition hello : list Z := replicate 700 22.
End EapDemo.

#[local] Instance demo_tls : Tls (nat * list Z) := {|
  tls_server p := Ok (Ok (0%nat, []), p.(EapProfile.text));
  read_tls t bytes := Some ((S t.1, [7; 7]), length bytes);
  process_new_packets t := Some (t, false);
  is_handshaking t := (t.1 =? 0)%nat;
  peer_certificate t := Some [48; 1];
  is_tls13 t := false;
  write_plain t l := Ok t;
  wants_write t := negb (length t.2 =? 0)%nat;
  write_tls t := Ok ((t.1, []), t.2);
  export_keying_material t label context := Ok (replicate 128 9);
|}.
#[local] Instance demo_port : EapPort := {|
  eap_profile _ := Ok (EapProfile.mk "profile" 512);
  eap_create_identity client listener fp der := mret FlowDemo.identity;
  eap_close _ := mret ();
|}.

Module EapRun.
Import EapDemo.
Abbreviation engine := (gmap string (Conversation.t (nat * list Z))).
Definition receive_packet (p : Packet.t) : sm engine Outcome :=
  process listener "ap-1" nas p secret FlowDemo.client.
Definition with_state (bytes : list Z) : Packet.t :=
  Packet.mk 1 [] (attributes bytes (Some "ri_eap_r0")).
(** The outer identity, a flight in two fragments, the acknowledgement. *)
Definition opening : Packet.t := Packet.mk 1 [] (attributes (packet 2 5 (Some 1) (string_bytes "nemo")) None).
Definition half_one : Packet.t :=
  with_state (packet 2 6 (Some 13) (192 :: u32_be 700 ++ take 512 hello)).
Definition half_two : Packet.t := with_state (packet 2 7 (Some 13) (0 :: drop 512 hello)).
Definition acknowledgement : Packet.t := with_state (packet 2 8 (Some 13) [0]).
Definition fresh : Conversation.t (nat * list Z) :=
  Conversation.mk (nat * list Z) (0%nat, []) "" "" 0 0 0 [] None [] None false 512.
Definition step1 := receive_packet opening (∅ : engine) FlowDemo.state.
Definition step2 := receive_packet half_one step1.1.2 step1.2.
Definition step3 := receive_packet half_two step2.1.2 step2.2.
Definition step4 := receive_packet acknowledgement step3.1.2 step3.2.

Lemma served_next e p s : served e → served (receive_packet p e s).1.2.
Proof.
  intros He. destruct (receive_packet p e s) as [[r e'] s'] eqn:Hrun. by eapply served_packet.
Qed.
Lemma served_three : served step3.1.2.
Proof. unfold step3, step2, step1. do 3 apply served_next. apply served_start. Qed.
End EapRun.

Example eap_runs : match EapRun.step4.1.1 with Ok (Accept i _) => i = FlowDemo.identity | _ => False end.
Proof. vm_compute. reflexivity. Qed.

Lemma eap_message_roundtrip_witness :
  message EapRun.half_one = Ok (packet 2 6 (Some 13) (192 :: u32_be 700 ++ take 512 EapDemo.hello)).
Proof.
  apply (eap_message_roundtrip 6 13 (192 :: u32_be 700 ++ take 512 EapDemo.hello) []
           [(24, string_bytes "ri_eap_r0")] EapRun.half_one).
  - vm_compute. reflexivity.
  - constructor.
  - constructor; [discriminate|constructor].
  - vm_compute. reflexivity.
Defined.

Lemma eap_flight_roundtrip_witness :
  ∃ first rest, (receive (first :: rest) EapRun.fresh
    FlowDemo.state).1.1 = Ok (replicate (length rest) None ++ [Some EapDemo.hello]).
Proof.
  destruct (eap_flight_roundtrip EapRun.fresh
    EapRun.fresh EapDemo.hello FlowDemo.state)
    as (first & rest & sender' & _ & _ & Hr).
  - vm_compute. lia.
  - vm_compute. lia.
  - vm_compute. discriminate.
  - reflexivity.
  - reflexivity.
  - reflexivity.
  - exists first, rest. rewrite Hr. reflexivity.
Defined.

Lemma engine_invariant_witness : engine_ok EapRun.step3.1.2.
Proof. apply (engine_invariant EapRun.step3.1.2). exact EapRun.served_three. Defined.

Lemma accepted_run {W} (x : Result Outcome * W * St.t) i :
  match x.1.1 with Ok (Accept j _) => j = i | _ => False end →
  ∃ l, x = (Ok (Accept i l), x.1.2, x.2).
Proof. destruct x as [[[[l|j l|l]|] w] s]; simpl; try done. intros ->. by exists l. Qed.

Lemma eap_accept_sound_witness :
  ∃ c : Conversation.t (nat * list Z), created c FlowDemo.identity
    ∧ c.(Conversation.context) = eap_context EapDemo.listener "ap-1" EapDemo.nas FlowDemo.client EapDemo.secret.
Proof.
  destruct (accepted_run EapRun.step4 FlowDemo.identity eap_runs) as [l Hrun].
  destruct (eap_accept_sound EapRun.step3.1.2 EapRun.step4.1.2 EapDemo.listener "ap-1" EapDemo.nas
    EapRun.acknowledgement EapDemo.secret FlowDemo.client EapRun.step3.2 FlowDemo.identity l EapRun.step4.2
    EapRun.served_three Hrun)
    as (bytes & c & config & input & _ & _ & _ & _ & Hctx & _ & _ & _ & _ & Hmade & _).
  exists c. split; [exact Hmade|exact Hctx].
Defined.
