(* ===== verification/Maintenance.v ===== *)
(** * The maintenance sweep (src/src/store/maintenance.rs, and the clean-ups of
    core.rs, authorization.rs, authenticator.rs, mtls.rs, identity/logout_queue.rs,
    assembly/oidc.rs, workflow/executor)

    [maintenance_page] reads a bucket a page at a time, pass after pass.  Its
    cursor and the upper bound of the sweep are records of the store, so a sweep
    survives a restart, and freezing the bound keeps rows appended meanwhile from
    prolonging it.  A clean-up deletes the expired rows of the page it gets.

    The theorems: a sweep that only appended rows run alongside reaches every row
    it started with in as many passes as it has pages; a clean-up deletes nothing
    that has not expired; and deleting expired replay records never lets an
    assertion be used twice. *)

From S2P Require Import Prelude Json Model Store Env Provider Jose Preparation Token Authorize Pushed Device Logout Credentials.

#[local] Set Warnings "-clear-no-such-hyp".

Definition PAGE : nat := 128.

(** [Tx::scan_reverse]: the rows below a key, the last first. *)
Definition before_key (before : option string) (kr : string * row) : bool :=
  match before with None => true | Some k => negb (String.leb k kr.1) end.
Definition scan_reverse (T : Type) `{Row T} (bucket : string) (before : option string) (limit : nat) :
    tx (list (string * T)) := λ s,
  (decode_rows (take limit (reverse (List.filter (before_key before) (bucket_rows bucket s.(St.db))))), s).

Definition CURSORS : string := "maintenance_cursors".
Definition BOUNDS : string := "maintenance_bounds".

Fixpoint take_while {A} (f : A → bool) (l : list A) : list A :=
  match l with [] => [] | a :: l => if f a then a :: take_while f l else [] end.

(** The sweep is over: the next pass starts a new one. *)
Definition restart_sweep (bucket : string) : tx unit :=
  _ ← remove CURSORS bucket; remove BOUNDS bucket.

(** The upper bound of the sweep: the stored one, or the last key of now. *)
Definition sweep_end (bucket : string) : tx (option string) :=
  stored ← get string BOUNDS bucket;
  match stored with
  | Some e => mret (Some e)
  | None => last_ ← scan_reverse row bucket None 1; mret (fst <$> head last_)
  end.

Definition maintenance_page (T : Type) `{Row T} (bucket : string) : tx (list (string * T)) :=
  cursor ← get string CURSORS bucket;
  end_ ← sweep_end bucket;
  match end_ with
  | None => _ ← restart_sweep bucket; mret []
  | Some end_ =>
      page ← scan T bucket cursor PAGE;
      let records := take_while (λ kr, String.leb kr.1 end_) page in
      _ ← match last records with
          | Some (key, _) =>
              if (length records <? PAGE)%nat || String.leb end_ key then restart_sweep bucket
              else _ ← put CURSORS bucket key; put BOUNDS bucket end_
          | None => restart_sweep bucket
          end;
      mret records
  end.

(** A clean-up loop over the page: [drop] for every row that is [dead]. *)
Definition sweep (T : Type) `{Row T} (bucket : string) (dead : T → bool) (drop : string → T → tx unit) :
    tx unit :=
  page ← maintenance_page T bucket;
  for_each (λ kr, if dead kr.2 then drop kr.1 kr.2 else mret ()) page.

(** ** The sweep *)

Section pages.
Implicit Types (d : gmap (string * string) row) (c : option string) (e : string).

Lemma take_while_take {A} (f : A → bool) n (l : list A) :
  take_while f (take n l) = take n (take_while f l).
Proof. revert n. induction l as [|a l IH]; intros [|n]; simpl; try done; destruct (f a); simpl; by f_equal. Qed.
Lemma take_while_fmap {A B} (f : B → bool) (g : A → B) (l : list A) :
  take_while f (g <$> l) = g <$> take_while (f ∘ g) l.
Proof. induction l as [|a l IH]; csimpl; [done|]. destruct (f (g a)); csimpl; by f_equal. Qed.
Lemma filter_fmap_keys (f : string → bool) (l : list (string * row)) :
  (List.filter (λ kr, f kr.1) l).*1 = List.filter f l.*1.
Proof. induction l as [|[k w] l IH]; csimpl; [done|]. destruct (f k); csimpl; by f_equal. Qed.

(** In key order, the rows up to a bound are a prefix. *)
Lemma take_while_sorted e (l : list string) :
  StronglySorted String.le l →
  take_while (λ k, String.leb k e) l = List.filter (λ k, String.leb k e) l.
Proof.
  induction 1 as [|k l Hs IH Hk]; csimpl; [done|]. destruct (String.leb k e) eqn:Hle; [by rewrite IH|].
  assert (Hbelow : ∀ j, String.le k j → String.leb j e = false).
  { intros j Hj. apply Bool.not_true_iff_false in Hle. apply Bool.not_true_iff_false.
    intros Hje%string_leb_spec. apply Hle, string_leb_spec. by transitivity j. }
  symmetry. clear Hs IH. induction Hk as [|j l Hj Hk IHk]; csimpl; [done|]. by rewrite Hbelow.
Qed.
End pages.

(** The keys a sweep at a cursor still has to reach, up to its bound. *)
Definition after_cursor (c : option string) (k : string) : bool :=
  match c with None => true | Some j => negb (String.leb k j) end.
Definition left_keys (b : string) (c : option string) (e : string) (d : gmap (string * string) row) :
    list string :=
  List.filter (λ k, String.leb k e) (List.filter (after_cursor c) (bucket_rows b d).*1).

Section left_keys.
Implicit Types (d : gmap (string * string) row) (c : option string) (e : string).

Lemma list_filter_elem {A} (f : A → bool) x l : x ∈ List.filter f l ↔ f x = true ∧ x ∈ l.
Proof. rewrite !list_elem_of_In, filter_In. tauto. Qed.
Lemma list_filter_nodup {A} (f : A → bool) (l : list A) : NoDup l → NoDup (List.filter f l).
Proof.
  induction 1 as [|x l Hx Hl IH]; simpl; [constructor|]. destruct (f x); [|done].
  constructor; [|done]. by intros [_ ?]%list_filter_elem.
Qed.
Lemma list_filter_sorted {A} (R : relation A) (f : A → bool) l :
  StronglySorted R l → StronglySorted R (List.filter f l).
Proof.
  induction 1 as [|x l Hs IH Hx]; simpl; [constructor|]. destruct (f x); [|done].
  constructor; [done|]. apply Forall_forall. intros y [_ Hy]%list_filter_elem.
  rewrite Forall_forall in Hx. by apply Hx.
Qed.

Lemma elem_of_left b c e d k :
  k ∈ left_keys b c e d ↔ String.le k e ∧ after_cursor c k = true ∧ is_Some (d !! (b, k)).
Proof. unfold left_keys. by rewrite !list_filter_elem, elem_of_bucket_keys, string_leb_spec. Qed.
Lemma left_nodup b c e d : NoDup (left_keys b c e d).
Proof. unfold left_keys. apply list_filter_nodup, list_filter_nodup, bucket_rows_nodup. Qed.
Lemma left_sorted b c e d : StronglySorted String.le (left_keys b c e d).
Proof. unfold left_keys. apply list_filter_sorted, list_filter_sorted, bucket_keys_sorted. Qed.
Lemma left_shrinks b c e d d' :
  (∀ k, String.le k e → is_Some (d' !! (b, k)) → is_Some (d !! (b, k))) →
  (length (left_keys b c e d') ≤ length (left_keys b c e d))%nat.
Proof.
  intros Hd. apply submseteq_length, NoDup_submseteq; [apply left_nodup|].
  intros k. rewrite !elem_of_left. naive_solver.
Qed.

(** After a prefix of what is left, the rest is left. *)
Lemma left_after b c e d pre k post :
  left_keys b c e d = pre ++ k :: post → left_keys b (Some k) e d = post.
Proof.
  intros Hl. pose proof (left_sorted b c e d) as Hs. pose proof (left_nodup b c e d) as Hn.
  rewrite Hl in Hs, Hn. assert (Hk : k ∈ left_keys b c e d) by (rewrite Hl; set_solver).
  apply elem_of_left in Hk as (Hke & Hck & _).
  apply (StronglySorted_unique String.le); [apply left_sorted| |].
  { apply StronglySorted_app_1_r in Hs. by inversion Hs. }
  apply NoDup_Permutation; [apply left_nodup| |].
  { apply NoDup_app in Hn as (_ & _ & Hn). by apply NoDup_cons in Hn as [_ ?]. }
  intros j. split.
  - intros (Hje & Hjk & Hd)%elem_of_left. simpl in Hjk. apply negb_true_iff in Hjk.
    assert (Hj : j ∈ left_keys b c e d).
    { apply elem_of_left. split_and!; [done| |done]. destruct c as [i|]; [|done]. simpl in *.
      apply negb_true_iff, Bool.not_true_iff_false. intros Hji%string_leb_spec.
      apply Bool.not_true_iff_false in Hjk. apply Hjk, string_leb_spec. transitivity i; [done|].
      destruct (total String.le i k) as [?|Hki]; [done|]. apply string_leb_spec in Hki. by rewrite Hki in Hck. }
    rewrite Hl in Hj. apply elem_of_app in Hj as [Hj|[->|?]%elem_of_cons]; [| |done].
    + apply StronglySorted_app in Hs as (Hs & _ & _). exfalso. apply Bool.not_true_iff_false in Hjk.
      apply Hjk, string_leb_spec, Hs; set_solver.
    + exfalso. apply Bool.not_true_iff_false in Hjk. apply Hjk. by apply string_leb_spec.
  - intros Hj. assert (Hjl : j ∈ left_keys b c e d) by (rewrite Hl; set_solver).
    apply elem_of_left in Hjl as (? & _ & ?). apply elem_of_left. split_and!; [done| |done].
    simpl. apply negb_true_iff, Bool.not_true_iff_false. intros Hjk%string_leb_spec.
    apply StronglySorted_app in Hs as (_ & _ & Hs). inversion Hs as [|? ? _ Hk']; subst.
    rewrite Forall_forall in Hk'. assert (j = k) as -> by (apply (anti_symm String.le); auto).
    apply NoDup_app in Hn as (_ & _ & Hn). apply NoDup_cons in Hn as [? _]. done.
Qed.
End left_keys.

(** Where a sweep stands: its cursor and its bound. *)
Definition at_position (b : string) (c e : option string) (s : St.t) : Prop :=
  s.(St.db) !! (CURSORS, b) = RString <$> c ∧ s.(St.db) !! (BOUNDS, b) = RString <$> e.
(** The bound the next pass works with. *)
Definition bound_of (b : string) (e : option string) (s : St.t) : option string :=
  match e with Some e => Some e | None => last (bucket_rows b s.(St.db)).*1 end.

#[global] Instance pure_scan_reverse T `{Row T} b before limit : Pure (scan_reverse T b before limit).
Proof. by intros s. Qed.
#[global] Instance pure_sweep_end b : Pure (sweep_end b).
Proof. unfold sweep_end. solve_pure. Qed.
Lemma touches_maintenance_page T `{Row T} b : Touches [CURSORS; BOUNDS] (maintenance_page T b).
Proof. unfold maintenance_page, restart_sweep. solve_touches. Qed.

Section pass.
Context {T : Type} `{HT : Row T}.
Implicit Types (s : St.t) (c : option string).

Lemma restart_sweep_ok b s u s' :
  restart_sweep b s = (Ok u, s') → at_position b None None s'.
Proof.
  unfold restart_sweep. intros Hrun. apply bind_ok in Hrun as ([] & s1 & ->%remove_ok & ->%remove_ok).
  split; cbn [St.db St.set_db]; [|apply lookup_delete_eq].
  rewrite lookup_delete_ne by done. apply lookup_delete_eq.
Qed.

Lemma string_row_ok b k o s s' (e : option string) :
  get string b k s = (Ok o, s') → s.(St.db) !! (b, k) = RString <$> e → o = e ∧ s' = s.
Proof. intros [-> Ho]%get_ok He. rewrite He in Ho. split; [|done]. destruct o, e; naive_solver. Qed.

Lemma sweep_end_ok b c (e : option string) s o s' :
  sweep_end b s = (Ok o, s') → at_position b c e s → o = bound_of b e s.
Proof.
  intros Hrun [_ He]. unfold sweep_end in Hrun. apply bind_ok in Hrun as (st & s1 & Hst & Hrun).
  destruct (string_row_ok _ _ _ _ _ _ Hst He) as [-> ->]. destruct e as [e|]; [by apply ret_ok in Hrun as [-> _]|].
  apply bind_ok in Hrun as (l & s1 & Hl & [-> _]%ret_ok). unfold scan_reverse in Hl. injection Hl as Hl <-.
  apply decode_rows_spec in Hl. simpl. rewrite List.forallb_filter_id in Hl by (by apply forallb_forall).
  rewrite fmap_last. destruct (bucket_rows b s.(St.db)) as [|kr rows _] using rev_ind.
  { simpl in Hl. by destruct l. }
  rewrite reverse_snoc in Hl. cbn [take] in Hl. rewrite last_snoc.
  destruct l as [|[k w] l]; [done|]. injection Hl as <- _. done.
Qed.

(** The records of a pass are the first page of what is left. *)
Lemma page_left b c s e (l : list (string * T)) s1 :
  scan T b c PAGE s = (Ok l, s1) →
  (take_while (λ kr, String.leb kr.1 e) l).*1 = take PAGE (left_keys b c e s.(St.db))
  ∧ ∀ k r, (k, r) ∈ l → s.(St.db) !! (b, k) = Some (encode r).
Proof.
  intros [_ Hl]%scan_ok.
  assert (Hk : l.*1 = take PAGE (List.filter (after_cursor c) (bucket_rows b s.(St.db)).*1)).
  { apply (f_equal (fmap fst)) in Hl. rewrite fmap_take in Hl.
    replace (after_key c) with (λ kr : string * row, after_cursor c kr.1) in Hl by (by destruct c).
    rewrite (filter_fmap_keys (after_cursor c)) in Hl. rewrite Hl, <- list_fmap_compose.
    apply list_fmap_ext. by intros ? []. }
  split.
  - change (λ kr : string * T, String.leb kr.1 e) with ((λ k, String.leb k e) ∘ fst (A:=string) (B:=T)).
    rewrite <- take_while_fmap, Hk, take_while_take. f_equal.
    apply take_while_sorted, list_filter_sorted, bucket_keys_sorted.
  - intros k r Hin. apply elem_of_bucket_rows.
    assert (Hr : (k, encode r) ∈ prod_map (λ k : string, k) encode <$> l) by (apply list_elem_of_fmap; by exists (k, r)).
    rewrite <- Hl in Hr. apply elem_of_take in Hr as (i & Hi & _). apply list_elem_of_lookup_2 in Hi.
    rewrite !list_elem_of_In, filter_In in Hi. apply list_elem_of_In, Hi.
Qed.

(** Ending a page at the bound or before it is full leaves nothing. *)
Lemma page_ends b c e s pre k :
  take PAGE (left_keys b c e s.(St.db)) = pre ++ [k] → String.le e k →
  left_keys b c e s.(St.db) = pre ++ [k].
Proof.
  intros Htake Hek. pose proof (take_drop PAGE (left_keys b c e s.(St.db))) as Hl. rewrite Htake in Hl.
  destruct (drop PAGE _) as [|j post] eqn:Hd; [by rewrite app_nil_r in Hl|exfalso].
  pose proof (left_sorted b c e s.(St.db)) as Hs. pose proof (left_nodup b c e s.(St.db)) as Hn.
  assert (Hj : j ∈ left_keys b c e s.(St.db)) by (rewrite <- Hl; set_solver).
  apply elem_of_left in Hj as (Hje & _). rewrite <- Hl in Hs, Hn.
  assert (Hkj : String.le k j) by (eapply (StronglySorted_app_1_elem_of _ _ _ _ _ Hs); set_solver).
  assert (j = k) as -> by (apply (anti_symm String.le); [by transitivity e|done]).
  apply NoDup_app in Hn as (_ & Hn & _). apply (Hn k); set_solver.
Qed.

(** One pass: it reads the first page of what is left, and then either nothing
    is left and a new sweep is due, or it moves the cursor and keeps the bound. *)
Lemma maintenance_page_ok b c (e : option string) s (page : list (string * T)) s' :
  maintenance_page T b s = (Ok page, s') → at_position b c e s →
  (∀ k r, (k, r) ∈ page → s.(St.db) !! (b, k) = Some (encode r))
  ∧ match bound_of b e s with
    | None => page = [] ∧ at_position b None None s'
    | Some e =>
        let left := left_keys b c e s.(St.db) in
        page.*1 = take PAGE left
        ∧ (left = page.*1 ∧ at_position b None None s'
           ∨ ∃ k, left_keys b (Some k) e s.(St.db) = drop PAGE left ∧ length page = PAGE
             ∧ at_position b (Some k) (Some e) s')
    end.
Proof.
  unfold maintenance_page. intros Hrun Hpos. pose proof Hpos as [Hc _].
  apply bind_ok in Hrun as (c' & s1 & Hc' & Hrun). destruct (string_row_ok _ _ _ _ _ _ Hc' Hc) as [-> ->].
  apply bind_ok in Hrun as (o & s1 & He & Hrun). rewrite (pure_run _ _ _ _ He) in *.
  rewrite <- (sweep_end_ok _ _ _ _ _ _ He Hpos). destruct o as [o|].
  2:{ apply bind_ok in Hrun as ([] & s2 & Hre%restart_sweep_ok & [-> ->]%ret_ok). by split; [set_solver|]. }
  apply bind_ok in Hrun as (l & s2 & Hl & Hrun). rewrite (pure_run _ _ _ _ Hl) in *.
  apply bind_ok in Hrun as ([] & s3 & Hset & [-> ->]%ret_ok).
  destruct (page_left _ _ _ o _ _ Hl) as [Hkeys Hrows].
  set (page := take_while _ l) in *. cbv zeta. split.
  { intros k r Hin. apply Hrows. subst page. clear -Hin. induction l as [|a l IH]; [done|]. simpl in Hin.
    destruct (String.leb _ _); set_solver. }
  split; [done|]. assert (Hlen : length page = length page.*1) by (by rewrite length_fmap).
  assert (Hall : (length page < PAGE)%nat → left_keys b c o s.(St.db) = page.*1).
  { intros Hlt. rewrite Hkeys, take_ge; [done|]. rewrite Hlen, Hkeys, length_take in Hlt. lia. }
  destruct page as [|[k r] pre _] using rev_ind.
  { left. split; [apply Hall; unfold PAGE; simpl; lia|by apply restart_sweep_ok in Hset]. }
  rewrite last_snoc in Hset. destruct (Nat.ltb_spec (length (pre ++ [(k, r)])) PAGE) as [Hlt|Hge].
  { left. split; [by apply Hall|by apply restart_sweep_ok in Hset]. }
  rewrite fmap_app in Hkeys |- *. csimpl in *. destruct (String.leb o k) eqn:Hok.
  { left. split; [|by apply restart_sweep_ok in Hset]. apply (page_ends b c o); [done|by apply string_leb_spec]. }
  right. exists k. apply bind_ok in Hset as ([] & s4 & ->%put_ok & ->%put_ok).
  assert (Hsize : length (pre ++ [(k, r)]) = PAGE).
  { apply (f_equal length) in Hkeys. rewrite length_take, length_app, length_fmap in Hkeys.
    rewrite length_app in Hge |- *. cbn [length] in *. pose proof (Nat.le_min_l PAGE (length (left_keys b c o s.(St.db)))).
    lia. }
  split_and!; [|done|].
  - apply (left_after b c o _ pre.*1). rewrite <- (take_drop PAGE (left_keys b c o _)) at 1.
    by rewrite <- Hkeys, <- (assoc_L (++)).
  - split; cbn [St.db St.set_db]; [|apply lookup_insert_eq].
    rewrite lookup_insert_ne by done. apply lookup_insert_eq.
Qed.
End pass.

(** The rows of a pass are rows of the bucket, wherever the sweep stands. *)
Lemma page_subset (T : Type) `{Row T} b (s : St.t) (page : list (string * T)) s' k r :
  maintenance_page T b s = (Ok page, s') → (k, r) ∈ page → s.(St.db) !! (b, k) = Some (encode r).
Proof.
  unfold maintenance_page. intros Hrun Hin.
  apply bind_ok in Hrun as (c & s1 & Hc & Hrun). rewrite (pure_run _ _ _ _ Hc) in Hrun.
  apply bind_ok in Hrun as (o & s2 & He & Hrun). rewrite (pure_run _ _ _ _ He) in Hrun.
  destruct o as [o|]; [|by apply bind_ok in Hrun as ([] & s3 & _ & [-> _]%ret_ok); apply elem_of_nil in Hin].
  apply bind_ok in Hrun as (l & s3 & Hl & Hrun). apply bind_ok in Hrun as ([] & s4 & _ & [-> _]%ret_ok).
  destruct (page_left _ _ _ o _ _ Hl) as [_ Hrows]. apply Hrows. clear -Hin.
  induction l as [|a l IH]; [done|]. simpl in Hin. destruct (String.leb _ _); set_solver.
Qed.

(** ** A sweep that keeps pace with appended rows *)

Section reach.
Context {T : Type} `{HT : Row T}.
Implicit Types (s : St.t).

(** A drop of a row: it is gone, no other row of the bucket appears or changes,
    and the sweep stays where it is. *)
Definition drops (b : string) (drop : string → T → tx unit) : Prop := ∀ k r s u s',
  drop k r s = (Ok u, s') →
  s'.(St.db) !! (b, k) = None
  ∧ (∀ j, s'.(St.db) !! (b, j) = None ∨ s'.(St.db) !! (b, j) = s.(St.db) !! (b, j))
  ∧ ∀ c e, at_position b c e s → at_position b c e s'.

(** What may happen to the bucket between two passes while a row is watched: the
    sweep is left alone, the row is kept as it is or deleted, and the keys that
    appear lie above the bound of the sweep. *)
Definition alongside (b k : string) s s' : Prop :=
  (∀ c e, at_position b c e s → at_position b c e s')
  ∧ (s'.(St.db) !! (b, k) = None ∨ s'.(St.db) !! (b, k) = s.(St.db) !! (b, k))
  ∧ ∀ j, is_Some (s'.(St.db) !! (b, j)) →
      is_Some (s.(St.db) !! (b, j)) ∨ ∀ c e, at_position b c (Some e) s → ¬ String.le j e.

(** [n] passes of a clean-up, with other transactions after each of them. *)
Inductive swept (b k : string) (dead : T → bool) (drop : string → T → tx unit) : nat → St.t → St.t → Prop :=
| swept_none s : swept b k dead drop 0 s s
| swept_pass n s s1 s2 s' :
    sweep T b dead drop s = (Ok (), s1) → alongside b k s1 s2 → swept b k dead drop n s2 s' →
    swept b k dead drop (S n) s s'.

Lemma for_each_drops b drop dead (l : list (string * T)) s u s' :
  drops b drop →
  for_each (λ kr, if dead kr.2 : bool then drop kr.1 kr.2 else mret ()) l s = (Ok u, s') →
  (∀ k r, (k, r) ∈ l → dead r = true → s'.(St.db) !! (b, k) = None)
  ∧ (∀ j, s'.(St.db) !! (b, j) = None ∨ s'.(St.db) !! (b, j) = s.(St.db) !! (b, j))
  ∧ ∀ c e, at_position b c e s → at_position b c e s'.
Proof.
  intros Hdrop. revert s. induction l as [|[k r] l IH]; intros s Hrun.
  { apply ret_ok in Hrun as [_ ->]. split_and!; [set_solver|by right|done]. }
  apply bind_ok in Hrun as ([] & s1 & H1 & Hrun). destruct (IH _ Hrun) as (Hin & Hout & Hp). simpl in H1.
  assert (Hhead : (dead r = true → s1.(St.db) !! (b, k) = None)
    ∧ (∀ j, s1.(St.db) !! (b, j) = None ∨ s1.(St.db) !! (b, j) = s.(St.db) !! (b, j))
    ∧ ∀ c e, at_position b c e s → at_position b c e s1).
  { destruct (dead r); [by apply Hdrop in H1 as (? & ? & ?)|].
    apply ret_ok in H1 as [_ ->]. split_and!; [done|by right|done]. }
  destruct Hhead as (Hd & Ho & Hp1). split_and!; [| |by eauto].
  - intros j r' [[= -> ->]|Hj]%elem_of_cons Hdead; [|by eapply Hin].
    destruct (Hout k) as [?| ->]; [done|by apply Hd].
  - intros j. destruct (Hout j) as [?| ->]; [by left|apply Ho].
Qed.

Lemma at_position_frame b c (e : option string) s s' :
  (∀ k, s'.(St.db) !! (CURSORS, k) = s.(St.db) !! (CURSORS, k)) →
  (∀ k, s'.(St.db) !! (BOUNDS, k) = s.(St.db) !! (BOUNDS, k)) →
  at_position b c e s → at_position b c e s'.
Proof. intros Hc Hb [Hc0 Hb0]. by split; rewrite ?Hc, ?Hb. Qed.

Lemma sweep_ok b dead drop s u s' c (e : option string) :
  b ≠ CURSORS → b ≠ BOUNDS → drops b drop →
  sweep T b dead drop s = (Ok u, s') → at_position b c e s →
  (∀ j, s'.(St.db) !! (b, j) = None ∨ s'.(St.db) !! (b, j) = s.(St.db) !! (b, j))
  ∧ match bound_of b e s with
    | None => at_position b None None s'
    | Some e =>
        let left := left_keys b c e s.(St.db) in
        (∀ k r, k ∈ take PAGE left → s.(St.db) !! (b, k) = Some (encode r) → dead r = true →
           s'.(St.db) !! (b, k) = None)
        ∧ (left = take PAGE left ∧ at_position b None None s'
           ∨ ∃ k, left_keys b (Some k) e s.(St.db) = List.skipn PAGE left ∧ (PAGE ≤ length left)%nat
             ∧ at_position b (Some k) (Some e) s')
    end.
Proof.
  intros Hb1 Hb2 Hdrop Hrun Hpos. unfold sweep in Hrun.
  apply bind_ok in Hrun as (page & s1 & Hpage & Hrun).
  pose proof (touches_maintenance_page T b) as Htouch.
  assert (Hsame : ∀ j, s1.(St.db) !! (b, j) = s.(St.db) !! (b, j)).
  { intros j. apply (touches_at [CURSORS; BOUNDS] _ _ _ _ _ _ Hpage). set_solver. }
  destruct (maintenance_page_ok _ _ _ _ _ _ Hpage Hpos) as [Hrows Hleft].
  destruct (for_each_drops _ _ _ _ _ _ _ Hdrop Hrun) as (Hin & Hout & Hp).
  split. { intros j. rewrite <- Hsame. apply Hout. }
  destruct (bound_of b e s) as [o|]; [|by destruct Hleft as [_ ?]; apply Hp].
  destruct Hleft as (Hk & Hleft). split.
  - intros k r Hkl Hr Hdead. rewrite <- Hk in Hkl. apply list_elem_of_fmap in Hkl as ([k' r'] & -> & Hkr).
    pose proof (Hrows _ _ Hkr) as Hr'. simpl in *. rewrite Hr in Hr'. injection Hr' as Hr'.
    apply (f_equal decode) in Hr'. rewrite !decode_encode in Hr'. injection Hr' as ->. by eapply Hin.
  - destruct Hleft as [[Hl ?]|(k & Hl & Hlen & ?)]; [left|right].
    + split; [congruence|by apply Hp].
    + exists k. split_and!; [done| |by apply Hp]. rewrite <- Hlen, <- (length_fmap fst page), Hk, length_take. lia.
Qed.

Lemma swept_gone b k dead drop n s s' :
  swept b k dead drop n s s' → s.(St.db) !! (b, k) = None → drops b drop → b ≠ CURSORS → b ≠ BOUNDS →
  s'.(St.db) !! (b, k) = None.
Proof.
  intros Hsw Hk Hdrop Hb1 Hb2. induction Hsw as [|n s s1 s2 s' Hrun (_ & Hal & _) Hsw IH]; [done|]. apply IH.
  assert (H1 : s1.(St.db) !! (b, k) = None).
  { unfold sweep in Hrun. apply bind_ok in Hrun as (page & s0 & Hpage & Hrun).
    pose proof (touches_maintenance_page T b) as Htouch.
    assert (Hsame : s0.(St.db) !! (b, k) = None).
    { rewrite <- Hk. apply (touches_at [CURSORS; BOUNDS] _ _ _ _ _ _ Hpage). set_solver. }
    destruct (for_each_drops _ _ _ _ _ _ _ Hdrop Hrun) as (_ & Hout & _). destruct (Hout k); congruence. }
  destruct Hal; congruence.
Qed.

(** From a sweep under way: a dead row still to be reached is gone after as many
    passes as there are pages up to the bound. *)
Lemma swept_reaches b k r dead drop n s s' c (e : option string) o :
  b ≠ CURSORS → b ≠ BOUNDS → drops b drop → dead r = true →
  swept b k dead drop n s s' → at_position b c e s → bound_of b e s = Some o →
  s.(St.db) !! (b, k) = Some (encode r) → k ∈ left_keys b c o s.(St.db) →
  (length (left_keys b c o s.(St.db)) ≤ n * PAGE)%nat →
  s'.(St.db) !! (b, k) = None.
Proof.
  intros Hb1 Hb2 Hdrop Hdead Hsw. revert c e. induction Hsw as [|n s s1 s2 s' Hrun Hal Hsw IH];
    intros c e Hpos Hbound Hk Hin Hlen.
  { simpl in Hlen. destruct (left_keys _ _ _ _); [set_solver|simpl in Hlen; lia]. }
  pose proof Hal as (Halp & Halk & Halj).
  destruct (sweep_ok _ _ _ _ _ _ _ _ Hb1 Hb2 Hdrop Hrun Hpos) as [Hout Hleft]. rewrite Hbound in Hleft.
  destruct Hleft as [Htaken Hleft].
  assert (Hgone : s1.(St.db) !! (b, k) = None → s'.(St.db) !! (b, k) = None).
  { intros H1. eapply swept_gone; [exact Hsw| |done..]. destruct Halk; congruence. }
  destruct Hleft as [[Hl _]|(k1 & Hl & Hfull & Hpos1)].
  { apply Hgone, (Htaken k r); [by rewrite <- Hl|done..]. }
  destruct (Hout k) as [Hk1|Hk1]; [by apply Hgone|]. rewrite Hk in Hk1.
  destruct (decide (k ∈ take PAGE (left_keys b c o s.(St.db)))) as [Ht|Ht].
  { by apply Hgone, (Htaken k r). }
  destruct Halk as [Hk2|Hk2]; [by eapply swept_gone|]. rewrite Hk1 in Hk2.
  assert (Hrest : k ∈ left_keys b (Some k1) o s.(St.db)).
  { rewrite Hl. rewrite <- (take_drop PAGE) in Hin. apply elem_of_app in Hin as [?|?]; [done|done]. }
  apply (IH (Some k1) (Some o)); [by apply Halp|done|done| |].
  - apply elem_of_left. apply elem_of_left in Hrest as (? & ? & _). split_and!; [done..|]. by rewrite Hk2.
  - etrans; [apply (left_shrinks _ _ _ s.(St.db))|].
    + intros j Hj Hj2. destruct (Halj j Hj2) as [Hj1|Hj1]; [|by destruct (Hj1 _ _ Hpos1)].
      destruct (Hout j) as [Hn|Hs]; [rewrite Hn in Hj1; by destruct Hj1|by rewrite <- Hs].
    + rewrite Hl. rewrite length_drop. rewrite Nat.mul_succ_l in Hlen. lia.
Qed.
End reach.

(** ** The clean-ups *)

Section cleanups.
Context {E : Env}.

(** The common loop: an expired row is deleted. *)
Definition expire (T : Type) `{Row T} (bucket : string) (dead : T → bool) : tx unit :=
  sweep T bucket dead (λ k _, remove bucket k).

(** [authorization::cleanup]. *)
Definition cleanup_authorizations (at_ : Z) : tx unit :=
  _ ← expire Pushed.t "pushed_requests" (λ r, r.(Pushed.expires_at) <=? at_);
  expire Signed.t "signed_requests" (λ r, r.(Signed.expires_at) <=? at_).

Definition cleanup_prepared (at_ : Z) : tx unit :=
  _ ← expire PreparedRequests.t PREPARED_REQUESTS (λ r, r.(PreparedRequests.expires_at) <=? at_);
  expire PreparedActorDecisions.t PREPARED_ACTOR_DECISIONS
    (λ r, r.(PreparedActorDecisions.expires_at) <=? at_).

(** [authenticator::cleanup]: the secret of an expired enrollment goes with it. *)
Definition drop_enrollment (at_ : Z) (user_id : string) (_ : Enrollment.t) : tx unit :=
  _ ← remove ENROLLMENTS user_id;
  user ← get User.t "users" user_id;
  match user with
  | Some u =>
      match u.(User.totp_pending) with
      | Some (_, expires_at) =>
          if expires_at <=? at_ then put "users" user_id (set_pending u None) else mret ()
      | None => mret ()
      end
  | None => mret ()
  end.
Definition cleanup_enrollments (at_ : Z) : tx unit :=
  sweep Enrollment.t ENROLLMENTS (λ e, negb (at_ <? e.(Enrollment.expires_at))) (drop_enrollment at_).

(** [mtls::cleanup]. *)
Definition cleanup_mtls (at_ : Z) : tx unit :=
  expire MtlsLoginLink.t "mtls_logins" (λ l, l.(MtlsLoginLink.expires_at) <=? at_).

Definition cleanup_device_poll_receipts (at_ : Z) : tx unit :=
  expire StoredDevicePollReceipt.t DEVICE_POLL_RECEIPTS
    (λ r, receipt_valid r && (r.(StoredDevicePollReceipt.retain_until) <=? at_)).

(** [executor::authorization::cleanup] and [executor::consent::cleanup]. *)
Definition RETAIN_FINAL_SECONDS : Z := 7 * 86400.
Definition cleanup_authorization_runs (at_ : Z) : tx unit :=
  expire AuthorizationBound.t AUTHORIZATIONS
    (λ b, sat_add b.(AuthorizationBound.expires_at) RETAIN_FINAL_SECONDS <=? at_).
Definition cleanup_consent_runs (at_ : Z) : tx unit :=
  expire ConsentBound.t CONSENTS
    (λ b, sat_add b.(ConsentBound.expires_at) RETAIN_FINAL_SECONDS <=? at_).

(** [logout_queue::cleanup]. *)
Definition cleanup_logout_queue (at_ : Z) : tx unit :=
  _ ← expire RpSession.t "rp_sessions" (λ rp, sat_add rp.(RpSession.expires_at) 86400 <? at_);
  expire LogoutDelivery.t "logout_deliveries"
    (λ d, sat_add d.(LogoutDelivery.created_at) (7 * 86400) <? at_).

(** The last transaction of [cleanup_pass]. *)
Definition AUDIT_RETENTION_SECONDS : Z := 90 * 24 * 60 * 60.
Definition expire_replays (bucket : string) (at_ : Z) : tx unit :=
  expire Z bucket (λ expiry, expiry <=? at_).
Definition expire_http_rates (at_ : Z) : tx unit :=
  expire (Z * Z) "http_rates" (λ r, sat_add r.1 60 <=? at_).
(** A session outlives itself as long as a grant of it can. *)
Definition drop_session (at_ : Z) (k : string) (v : Session.t) : tx unit :=
  retention ← get Z "session_retention" k;
  if match retention with Some expiry => at_ <=? expiry | None => false end then mret ()
  else if sat_add v.(Session.expires_at) (Z.max config.(Config.refresh_token_ttl) 3600) <? at_ then
    _ ← remove "session_tokens" v.(Session.token_hash);
    _ ← remove "sessions" k;
    remove "session_retention" k
  else mret ().
Definition expire_sessions (at_ : Z) : tx unit :=
  sweep Session.t "sessions" (λ _, true) (drop_session at_).
Definition drop_device (k : string) (v : Device.t) : tx unit :=
  _ ← remove "device_users" v.(Device.user_code_hash); remove "devices" k.
Definition expire_grants (bucket : string) (at_ : Z) : tx unit :=
  expire Grant.t bucket (λ g, g.(Grant.expires_at) <? at_).
Definition cleanup_core (at_ : Z) : tx unit :=
  _ ← expire_http_rates at_;
  _ ← expire_replays "dpop_replays" at_;
  _ ← expire_replays "assertion_replays" at_;
  _ ← expire_sessions at_;
  _ ← expire Code.t "codes" (λ v, v.(Code.expires_at) <? at_);
  _ ← expire AuthenticationTransaction.t "authentication"
        (λ v, v.(AuthenticationTransaction.expires_at) <? at_);
  _ ← sweep Device.t "devices" (λ v, wadd v.(Device.expires_at) 60 <? at_) drop_device;
  _ ← expire_grants "access" at_;
  _ ← expire_grants "refresh" at_;
  _ ← expire Family.t "families" (λ v, v.(Family.expires_at) <? at_);
  _ ← expire Attempts.t "attempts" (λ v, wadd v.(Attempts.window_start) 1800 <? at_);
  expire Audit.t "audit" (λ v, sat_add v.(Audit.at_) AUDIT_RETENTION_SECONDS <? at_).
End cleanups.

(** ** What a clean-up may delete *)

Section prunes.
Context {E : Env}.
Implicit Types (s : St.t) (d : gmap (string * string) row).

(** Whatever happens, a record of [d] outside the sweep's own buckets is either
    still there as it was or deleted with [P]'s leave; nothing appears. *)
Definition pruned (P : string → string → Prop) d s : Prop := ∀ b k, b ∉ [CURSORS; BOUNDS] →
  s.(St.db) !! (b, k) = d !! (b, k) ∨ s.(St.db) !! (b, k) = None ∧ P b k.
Definition prunes {A} (P : string → string → Prop) d (m : tx A) : Prop := ∀ s,
  pruned P d s → pruned P d (m s).2.

Context (P : string → string → Prop) (d : gmap (string * string) row).

Lemma prunes_pure {A} (m : tx A) `{!Pure m} : prunes P d m.
Proof. intros s Hs. by rewrite (pure_eq (m:=m)). Qed.
Lemma prunes_bind_run {A B} (m : tx A) (f : A → tx B) :
  prunes P d m → (∀ s a s', pruned P d s → m s = (Ok a, s') → pruned P d s' → pruned P d (f a s').2) →
  prunes P d (m ≫= f).
Proof.
  intros Hm Hf s Hs. unfold mbind, tx_bind. pose proof (Hm s Hs) as H1.
  destruct (m s) as [[a|e] s1] eqn:Hrun; simpl in *; [by apply (Hf s a s1)|done].
Qed.
Lemma prunes_bind {A B} (m : tx A) (f : A → tx B) : prunes P d m → (∀ a, prunes P d (f a)) → prunes P d (m ≫= f).
Proof. intros Hm Hf. apply prunes_bind_run; [done|]. intros s a s' _ _ Hs. by apply Hf. Qed.
Lemma prunes_remove b k : P b k → prunes P d (remove b k).
Proof.
  intros HP s Hs b' k' Hb. simpl. destruct (decide ((b', k') = (b, k))) as [[= -> ->]|Hne].
  - right. by rewrite lookup_delete_eq.
  - rewrite lookup_delete_ne by congruence. by apply Hs.
Qed.
Lemma prunes_for_each {A} (f : A → tx unit) l : (∀ a, a ∈ l → prunes P d (f a)) → prunes P d (for_each f l).
Proof.
  induction l as [|a l IH]; intros Hf; [by apply prunes_pure, _|]. apply prunes_bind; [apply Hf; set_solver|].
  intros _. apply IH. intros; apply Hf; set_solver.
Qed.

(** A clean-up loop may assume that the row it drops is the row of [d]. *)
Lemma prunes_sweep T `{Row T} b (dead : T → bool) drop :
  b ∉ [CURSORS; BOUNDS] →
  (∀ k r, d !! (b, k) = Some (encode r) → dead r = true → prunes P d (drop k r)) →
  prunes P d (sweep T b dead drop).
Proof.
  intros Hb Hdrop. apply prunes_bind_run.
  - intros s Hs b' k' Hb'. pose proof (touches_maintenance_page T b s) as (_ & _ & _ & Hf).
    rewrite Hf by done. by apply Hs.
  - intros s page s1 Hs Hpage Hs1. apply prunes_for_each; [|done]. intros [k r] Hin. simpl.
    destruct (dead r) eqn:Hdead; [|by apply prunes_pure, _]. apply Hdrop; [|done].
    pose proof (page_subset _ _ _ _ _ _ _ Hpage Hin) as Hrow. destruct (Hs b k Hb) as [Hk|[Hk _]]; congruence.
Qed.
Lemma prunes_expire T `{Row T} b (dead : T → bool) :
  b ∉ [CURSORS; BOUNDS] → (∀ k r, d !! (b, k) = Some (encode r) → dead r = true → P b k) →
  prunes P d (expire T b dead).
Proof. intros Hb HP. apply prunes_sweep; [done|]. intros k r Hr Hd. by eapply prunes_remove, HP. Qed.
End prunes.

(** What the last clean-up transaction may delete at a time. *)
Section expired.
Context {E : Env}.
Implicit Types (s : St.t) (d : gmap (string * string) row).

Definition session_over (at_ : Z) d (id : string) (v : Session.t) : Prop :=
  sat_add v.(Session.expires_at) (Z.max config.(Config.refresh_token_ttl) 3600) < at_
  ∧ ∀ n, d !! ("session_retention", id) = Some (RU64 n) → n < at_.
Definition device_over (at_ : Z) (v : Device.t) : bool := wadd v.(Device.expires_at) 60 <? at_.
Definition row_over (at_ : Z) (b : string) (w : row) : bool :=
  match w with
  | RHttpRate r => String.eqb b "http_rates" && (sat_add r.1 60 <=? at_)
  | RU64 expiry => (String.eqb b "dpop_replays" || String.eqb b "assertion_replays") && (expiry <=? at_)
  | RCode v => String.eqb b "codes" && (v.(Code.expires_at) <? at_)
  | RAuthentication v =>
      String.eqb b "authentication" && (v.(AuthenticationTransaction.expires_at) <? at_)
  | RDevice v => String.eqb b "devices" && device_over at_ v
  | RGrant v => (String.eqb b "access" || String.eqb b "refresh") && (v.(Grant.expires_at) <? at_)
  | RFamily v => String.eqb b "families" && (v.(Family.expires_at) <? at_)
  | RAttempts v => String.eqb b "attempts" && (wadd v.(Attempts.window_start) 1800 <? at_)
  | RAudit v => String.eqb b "audit" && (sat_add v.(Audit.at_) AUDIT_RETENTION_SECONDS <? at_)
  | _ => false
  end.
Inductive expired (at_ : Z) d : string → string → Prop :=
| expired_row b k w : d !! (b, k) = Some w → row_over at_ b w = true → expired at_ d b k
| expired_session id v b k :
    d !! ("sessions", id) = Some (RSession v) → session_over at_ d id v →
    (b, k) ∈ [("sessions", id); ("session_tokens", v.(Session.token_hash)); ("session_retention", id)] →
    expired at_ d b k
| expired_user_code key v : d !! ("devices", key) = Some (RDevice v) → device_over at_ v = true →
    expired at_ d "device_users" v.(Device.user_code_hash).

Lemma prunes_rows at_ d T `{Row T} b (dead : T → bool) :
  b ∉ [CURSORS; BOUNDS] → (∀ r, dead r = true → row_over at_ b (encode r) = true) →
  prunes (expired at_ d) d (expire T b dead).
Proof. intros Hb Hd. apply prunes_expire; [done|]. intros k r Hr ?. by eapply expired_row, Hd. Qed.

Lemma prunes_drop_session at_ d k v :
  d !! ("sessions", k) = Some (RSession v) → prunes (expired at_ d) d (drop_session at_ k v).
Proof.
  intros Hv. apply prunes_bind_run; [by apply prunes_pure, _|]. intros s ret s' Hs [-> Hret]%get_ok _.
  destruct (match ret with Some expiry => at_ <=? expiry | None => false end) eqn:Hkeep;
    [by apply prunes_pure; [apply _|]|].
  destruct (sat_add _ _ <? at_) eqn:Hover; [|by apply prunes_pure; [apply _|]]. apply Z.ltb_lt in Hover.
  assert (Hses : session_over at_ d k v).
  { split; [done|]. intros n Hn. destruct (Hs "session_retention" k) as [Hk|[_ Hk]]; [bucket| |].
    - rewrite Hn in Hk. rewrite Hk in Hret. destruct ret as [m|]; [|done]. injection Hret as ->. lia.
    - inversion Hk as [? ? w Hw Hrow| id v' ? ? Hv' [_ Hover'] Hin|]; subst.
      + rewrite Hn in Hw. injection Hw as <-. done.
      + assert (k = id) as -> by (vm_compute in Hin; set_solver). by apply Hover'. }
  revert s Hs Hret. assert (Hp : ∀ b j, (b, j) ∈ [("sessions", k); ("session_tokens", v.(Session.token_hash));
    ("session_retention", k)] → prunes (expired at_ d) d (remove b j)).
  { intros b j Hin. apply prunes_remove. by eapply expired_session. }
  intros s Hs _. revert s Hs. apply prunes_bind; [apply Hp; set_solver|]. intros _.
  apply prunes_bind; [apply Hp; set_solver|]. intros _. apply Hp. set_solver.
Qed.
Lemma prunes_drop_device at_ d k v :
  d !! ("devices", k) = Some (RDevice v) → device_over at_ v = true →
  prunes (expired at_ d) d (drop_device k v).
Proof.
  intros Hv Ho. apply prunes_bind; [|intros _]; apply prunes_remove; [by eapply expired_user_code|].
  by eapply expired_row.
Qed.

Lemma prunes_cleanup_core at_ d : prunes (expired at_ d) d (cleanup_core at_).
Proof.
  unfold cleanup_core, expire_http_rates, expire_replays, expire_sessions, expire_grants.
  repeat (apply prunes_bind; [|intros _]).
  4: { apply prunes_sweep; [bucket|]. intros k v Hv _. by apply prunes_drop_session. }
  6: { apply prunes_sweep; [bucket|]. intros k v Hv Hd. by apply prunes_drop_device. }
  all: apply prunes_rows; [bucket|]; intros r Hr; exact Hr.
Qed.
End expired.

(** ** The theorems *)

(** The rows of a bucket are all of the type its code reads. *)
Definition typed (T : Type) `{Row T} (b : string) (d : gmap (string * string) row) : Prop :=
  ∀ k w, d !! (b, k) = Some w → is_Some (decode (T:=T) w).

Lemma decode_rows_total {T} `{Row T} (l : list (string * row)) :
  (∀ k w, (k, w) ∈ l → is_Some (decode (T:=T) w)) → ∃ r, decode_rows (T:=T) l = Ok r.
Proof.
  induction l as [|[k w] l IH]; intros Hl; [by exists []|]. destruct IH as [r Hr]; [set_solver|].
  destruct (Hl k w) as [v Hv]; [set_solver|]. exists ((k, v) :: r). cbn [decode_rows foldr].
  simpl. rewrite Hv. unfold decode_rows in Hr. by rewrite Hr.
Qed.

Section totality.
Context {T : Type} `{HT : Row T}.
Implicit Types (s : St.t).

Lemma typed_page b (s : St.t) (f : string * row → bool) n :
  typed T b s.(St.db) → ∃ l, decode_rows (T:=T) (take n (List.filter f (bucket_rows b s.(St.db)))) = Ok l.
Proof.
  intros Hty. apply decode_rows_total. intros k w (i & Hi & _)%elem_of_take.
  apply list_elem_of_lookup_2 in Hi. apply list_filter_elem in Hi as [_ Hi].
  by eapply Hty, elem_of_bucket_rows.
Qed.
Lemma restart_sweep_run b s : ∃ s', restart_sweep b s = (Ok (), s').
Proof. by eexists. Qed.

(** A pass over a typed bucket succeeds, wherever the sweep stands. *)
Lemma maintenance_page_total b c (e : option string) s :
  typed T b s.(St.db) → at_position b c e s → ∃ page s', maintenance_page T b s = (Ok page, s').
Proof.
  intros Hty [Hc He]. unfold maintenance_page.
  assert (Hcur : get string CURSORS b s = (Ok c, s)) by (unfold get; rewrite Hc; by destruct c).
  rewrite (bind_step _ _ _ _ _ Hcur).
  assert (Hend : ∃ o, sweep_end b s = (Ok o, s)).
  { unfold sweep_end.
    assert (Hb : get string BOUNDS b s = (Ok e, s)) by (unfold get; rewrite He; by destruct e).
    rewrite (bind_step _ _ _ _ _ Hb). destruct e as [e|]; [by eexists|].
    destruct (decode_rows_total (T:=row) (take 1 (reverse (List.filter (before_key None) (bucket_rows b s.(St.db))))))
      as [l Hl]; [by eexists|].
    eexists. unfold mbind, tx_bind, scan_reverse. by rewrite Hl. }
  destruct Hend as [o Ho]. rewrite (bind_step _ _ _ _ _ Ho). destruct o as [o|]; [|by do 2 eexists].
  destruct (typed_page b s (λ kr, match c with None => true | Some k => negb (String.leb kr.1 k) end) PAGE Hty)
    as [l Hl].
  assert (Hscan : scan T b c PAGE s = (Ok l, s)) by (unfold scan; by rewrite Hl).
  rewrite (bind_step _ _ _ _ _ Hscan). destruct (last _) as [[k r]|]; [|by do 2 eexists].
  destruct (_ || _); by do 2 eexists.
Qed.
Lemma expire_total b c (e : option string) dead s :
  typed T b s.(St.db) → at_position b c e s → ∃ s', expire T b dead s = (Ok (), s').
Proof.
  intros Hty Hpos. destruct (maintenance_page_total _ _ _ _ Hty Hpos) as (page & s1 & Hpage).
  unfold expire, sweep. rewrite (bind_step _ _ _ _ _ Hpage). clear. revert s1.
  induction page as [|[k r] page IH]; intros s1; [by eexists|]. cbn [for_each].
  destruct (dead r) eqn:Hd; unfold mbind, tx_bind; simpl; rewrite Hd; simpl; apply IH.
Qed.
Lemma drops_remove b : b ≠ CURSORS → b ≠ BOUNDS → drops (T:=T) b (λ k _, remove b k).
Proof.
  intros Hb1 Hb2 k r s u s' ->%remove_ok. cbn [St.db St.set_db]. split_and!.
  - apply lookup_delete_eq.
  - intros j. destruct (decide (j = k)) as [->|?]; [left; apply lookup_delete_eq|right].
    by rewrite lookup_delete_ne by congruence.
  - intros c e. apply at_position_frame; intros j; cbn [St.db St.set_db]; by rewrite lookup_delete_ne by congruence.
Qed.
End totality.

(** C38: a pass of a clean-up over readable rows succeeds, and an expired row is
    gone after as many passes as its bucket has pages when the sweep starts,
    however many rows are appended behind it meanwhile. *)
Theorem expired_rows_go (T : Type) `{Row T} b k (r : T) dead n s s' :
  b ≠ CURSORS → b ≠ BOUNDS → at_position b None None s →
  s.(St.db) !! (b, k) = Some (encode r) → dead r = true →
  (bucket_size b s.(St.db) ≤ n * PAGE)%nat →
  swept (T:=T) b k dead (λ k _, remove b k) n s s' →
  (typed T b s.(St.db) → ∃ s1, expire T b dead s = (Ok (), s1)) ∧ s'.(St.db) !! (b, k) = None.
Proof.
  intros Hb1 Hb2 Hpos Hk Hdead Hsize Hsw. split; [by intros Hty; eapply expire_total|].
  assert (Hin : k ∈ (bucket_rows b s.(St.db)).*1) by (apply elem_of_bucket_keys; by eexists).
  destruct (last (bucket_rows b s.(St.db)).*1) as [o|] eqn:Ho.
  2: { apply last_None in Ho. rewrite Ho in Hin. by apply elem_of_nil in Hin. }
  apply (swept_reaches b k r dead _ n s s' None None o Hb1 Hb2 (drops_remove b Hb1 Hb2) Hdead Hsw Hpos Ho Hk).
  - apply elem_of_left. split_and!; [|done|by eexists].
    apply last_Some in Ho as [pre Ho]. pose proof (bucket_keys_sorted b s.(St.db)) as Hs.
    rewrite Ho in Hin, Hs. apply elem_of_app in Hin as [Hin|Hin%list_elem_of_singleton]; [|by subst].
    eapply (StronglySorted_app_1_elem_of _ _ _ _ _ Hs); set_solver.
  - etrans; [|exact Hsize]. unfold bucket_size, left_keys. rewrite <- (length_fmap fst).
    etrans; [apply List.filter_length_le|]. apply List.filter_length_le.
Qed.

Section cleanup_theorems.
Context {E : Env}.
Implicit Types (s : St.t).

Lemma pruned_cleanup at_ s : pruned (expired at_ s.(St.db)) s.(St.db) (cleanup_core at_ s).2.
Proof. apply prunes_cleanup_core. intros b k _. by left. Qed.

(** The last clean-up of a pass, whether it succeeds or fails, changes no
    record and creates none: what it removes is a row that had expired at the time
    of the pass, the token and the retention mark of a session that is over and
    not retained, or the user code of an expired device request. *)
Theorem cleanup_deletes_only_expired at_ s b k :
  b ≠ CURSORS → b ≠ BOUNDS →
  (cleanup_core at_ s).2.(St.db) !! (b, k) = s.(St.db) !! (b, k)
  ∨ (cleanup_core at_ s).2.(St.db) !! (b, k) = None ∧ expired at_ s.(St.db) b k.
Proof. intros Hb1 Hb2. apply pruned_cleanup. set_solver. Qed.

(** The state at another time. *)
Definition at_time (s : St.t) (at_ : Z) : St.t := St.mk s.(St.db) at_ s.(St.rng) s.(St.ctx).

Lemma replay_seen_same b at_ now_ k s :
  b = "assertion_replays" ∨ b = "dpop_replays" → at_ ≤ now_ →
  ∀ d', d' = (cleanup_core at_ s).2.(St.db) →
  (d' !! (b, k) = s.(St.db) !! (b, k))
  ∨ ∃ e, s.(St.db) !! (b, k) = Some (RU64 e) ∧ e ≤ now_ ∧ d' !! (b, k) = None.
Proof.
  intros Hb Hat d' ->. destruct (pruned_cleanup at_ s b k) as [?|[Hnone Hex]]; [|by left|right].
  { destruct Hb as [-> | ->]; bucket. }
  inversion Hex as [? ? w Hw Hrow|id v ? ? _ _ Hin|? v _ _]; subst.
  - exists (match w with RU64 e => e | _ => 0 end). destruct w; simpl in Hrow; try (destruct Hb as [-> | ->]; done).
    bools. split_and!; [done|lia|done].
  - exfalso. destruct Hb as [-> | ->]; set_solver.
  - exfalso. by destruct Hb.
Qed.

Definition unseen (now_ : Z) (seen : option Z) : bool :=
  match seen with Some e => negb (now_ <? e) | None => true end.

(** Two states give a computation the same result when its steps do. *)
Lemma same_lift {A B} (r : Result A) (f : A → tx B) s s' :
  (∀ a, (f a s').1 = (f a s).1) → ((lift r ≫= f) s').1 = ((lift r ≫= f) s).1.
Proof. intros Hf. unfold mbind, tx_bind, lift. destruct r; [apply Hf|done]. Qed.
Lemma same_ensure {B} b e (m : tx B) s s' :
  (m s').1 = (m s).1 → ((ensure b e ≫= λ _, m) s').1 = ((ensure b e ≫= λ _, m) s).1.
Proof. intros Hm. unfold mbind, tx_bind, ensure. by destruct b. Qed.
Lemma same_now {B} (f : Z → tx B) s s' :
  s'.(St.clock) = s.(St.clock) → (f s.(St.clock) s').1 = (f s.(St.clock) s).1 →
  ((now ≫= f) s').1 = ((now ≫= f) s).1.
Proof. intros Hc Hf. unfold mbind, tx_bind, now. by rewrite Hc. Qed.
Lemma same_get {B} b k (f : option Z → tx B) s s' :
  (get Z b k s').1 = (get Z b k s).1 → (∀ o, (f o s').1 = (f o s).1) →
  ((get Z b k ≫= f) s').1 = ((get Z b k ≫= f) s).1.
Proof.
  intros Hk Hf. unfold mbind, tx_bind. pose proof (pure_run (get Z b k) s) as H1.
  pose proof (pure_run (get Z b k) s') as H2.
  destruct (get Z b k s) as [o s1], (get Z b k s') as [o' s1']. simpl in Hk. subst o'.
  rewrite (H1 _ _ eq_refl), (H2 _ _ eq_refl). destruct o; [apply Hf|done].
Qed.

(** C31: deleting expired replay records is unobservable: at any time from the
    clean-up on, an assertion or a DPoP proof is accepted or refused exactly as
    it would have been had nothing been deleted. *)
Theorem cleanup_keeps_replay_protection at_ now_ s claims ns p m e t :
  at_ ≤ now_ →
  (consume_assertion claims ns (at_time (cleanup_core at_ s).2 now_)).1
  = (consume_assertion claims ns (at_time s now_)).1
  ∧ (Dpop.verify p m e t (at_time (cleanup_core at_ s).2 now_)).1
    = (Dpop.verify p m e t (at_time s now_)).1.
Proof.
  intros Hat.
  assert (Hget : ∀ b k, b = "assertion_replays" ∨ b = "dpop_replays" →
    (get Z b k (at_time (cleanup_core at_ s).2 now_)).1 = (get Z b k (at_time s now_)).1
    ∨ ∃ e, e ≤ now_ ∧ (get Z b k (at_time s now_)) = (Ok (Some e), at_time s now_)
           ∧ (get Z b k (at_time (cleanup_core at_ s).2 now_))
             = (Ok None, at_time (cleanup_core at_ s).2 now_)).
  { intros b k Hb. destruct (replay_seen_same b at_ now_ k s Hb Hat _ eq_refl) as [Hk|(x & Hx & Hle & Hk)].
    - left. unfold get, at_time. cbn [St.db]. rewrite Hk.
      destruct (s.(St.db) !! (b, k)) as [w|]; [destruct (decode (T:=Z) w)|]; done.
    - right. exists x. unfold get, at_time. cbn [St.db]. rewrite Hk, Hx. done. }
  assert (Hsame : ∀ {A} b k e (f : tx A), b = "assertion_replays" ∨ b = "dpop_replays" →
    (∀ s s', (f s').1 = (f s).1) →
    ((seen ← get Z b k; _ ← ensure (unseen now_ seen) e; f) (at_time (cleanup_core at_ s).2 now_)).1
    = ((seen ← get Z b k; _ ← ensure (unseen now_ seen) e; f) (at_time s now_)).1).
  { intros A b k err f Hb Hf. destruct (Hget b k Hb) as [Hk|(x & Hle & Hx & Hk)].
    - apply same_get; [done|]. intros seen. apply same_ensure, Hf.
    - unfold mbind, tx_bind. rewrite Hk, Hx. unfold unseen.
      destruct (Z.ltb_spec now_ x) as [?|_]; [lia|]. apply Hf. }
  split.
  - unfold consume_assertion. apply same_now; [done|]. repeat (apply same_lift; intros ?). apply same_ensure.
    by apply (Hsame unit); [left|].
  - unfold Dpop.verify. apply same_now; [done|]. apply same_lift. intros [jkt jti].
    by apply (Hsame string); [right|].
Qed.
End cleanup_theorems.

(** ** A small bucket *)

Module MaintenanceDemo.
Definition start : St.t :=
  St.mk (<[("dpop_replays", "a") := RU64 900]> (<[("dpop_replays", "b") := RU64 500]>
          (<[("dpop_replays", "c") := RU64 600]> ∅))) 600 0 None.
Definition dead (e : Z) : bool := e <=? 600.
Definition one : St.t := (expire Z "dpop_replays" dead start).2.
End MaintenanceDemo.

(** The row in use stays. *)
Example one_pass : (bucket_rows "dpop_replays" MaintenanceDemo.one.(St.db)).*1 = ["a"].
Proof. vm_compute. reflexivity. Qed.

Lemma alongside_refl b k s : alongside b k s s.
Proof. split_and!; [done|by right|by left]. Qed.

Lemma expired_rows_go_witness : MaintenanceDemo.one.(St.db) !! ("dpop_replays", "b") = None.
Proof.
  refine (proj2 (expired_rows_go Z "dpop_replays" "b" 500 MaintenanceDemo.dead 1
    MaintenanceDemo.start MaintenanceDemo.one _ _ _ _ _ _ _)).
  - discriminate.
  - discriminate.
  - split; vm_compute; reflexivity.
  - vm_compute. reflexivity.
  - reflexivity.
  - vm_compute. lia.
  - apply (swept_pass _ _ _ _ 0 _ MaintenanceDemo.one MaintenanceDemo.one);
      [vm_compute; reflexivity|apply alongside_refl|apply swept_none].
Defined.

Lemma cleanup_deletes_only_expired_witness :
  (@cleanup_core JoseDemo.env 600 MaintenanceDemo.start).2.(St.db) !! ("dpop_replays", "b")
  = MaintenanceDemo.start.(St.db) !! ("dpop_replays", "b")
  ∨ (@cleanup_core JoseDemo.env 600 MaintenanceDemo.start).2.(St.db) !! ("dpop_replays", "b") = None
    ∧ @expired JoseDemo.env 600 MaintenanceDemo.start.(St.db) "dpop_replays" "b".
Proof. apply (@cleanup_deletes_only_expired JoseDemo.env 600 MaintenanceDemo.start); discriminate. Defined.

Lemma cleanup_keeps_replay_protection_witness :
  (@Dpop.verify JoseDemo.env "p" "POST" "https://id.test/oauth/token" None
     (at_time (@cleanup_core JoseDemo.env 1130 JoseDemo.used).2 1130)).1
  = (@Dpop.verify JoseDemo.env "p" "POST" "https://id.test/oauth/token" None (at_time JoseDemo.used 1130)).1.
Proof.
  refine (proj2 (@cleanup_keeps_replay_protection JoseDemo.env 1130 1130 JoseDemo.used (JoseDemo.claims 990)
    "client:ci" "p" "POST" "https://id.test/oauth/token" None _)). lia.
Defined.
