(* ===== verification/Signals.v ===== *)
(** * Security signals (src/src/identity/signals.rs, store.rs)

    What the end of a session or a change of credentials leaves for shared-signal
    streams: one delivery for every subject of a push stream that is linked to the
    account and subscribed to the event.  The transaction remembers which events
    it has already announced; that set is passed along here. *)

From S2P Require Import Prelude Json Model Store Env.

#[local] Set Warnings "-clear-no-such-hyp".

Definition ACCOUNT_DISABLED : string :=
  "https://schemas.openid.net/secevent/risc/event-type/account-disabled".
Definition SESSION_REVOKED : string :=
  "https://schemas.openid.net/secevent/caep/event-type/session-revoked".
Definition CREDENTIAL_CHANGE : string :=
  "https://schemas.openid.net/secevent/caep/event-type/credential-change".
Definition PUSH : string := "urn:ietf:rfc:8935".
Definition SUPPORTED : list string := [ACCOUNT_DISABLED; SESSION_REVOKED; CREDENTIAL_CHANGE].

(** [Tx::security_events]: the events of this transaction. *)
Definition events : Type := gset (string * string * string).

Section signals.
Context {E : Env}.

(** The delivery for one subject of a stream. *)
Definition signal_delivery (did event credential : string) (at_ : Z) (stream : SsfStream.t)
    (subject : string) : SsfDelivery.t :=
  SsfDelivery.mk did stream.(SsfStream.id) stream.(SsfStream.endpoint_url) event subject
    stream.(SsfStream.audience) credential at_ at_ 0 None None false false did None None.
Definition enqueue_subject (user_id event credential : string) (stream : SsfStream.t)
    (link : string * string) : tx unit :=
  if negb (String.eqb link.2 user_id) then mret ()
  else
    did ← id;
    at_ ← now;
    put "ssf_deliveries" did (signal_delivery did event credential at_ stream link.1).
Definition subscribed (event : string) (stream : SsfStream.t) : bool :=
  String.eqb stream.(SsfStream.delivery_method) PUSH && bool_decide (event ∈ stream.(SsfStream.events)).
Definition enqueue_stream (user_id event credential : string) (row : string * SsfStream.t) : tx unit :=
  if subscribed event row.2
  then for_each (enqueue_subject user_id event credential row.2) (btree_entries row.2.(SsfStream.subjects))
  else mret ().

(** [signals::enqueue], with the events announced before and after it. *)
Definition enqueue (seen : events) (user_id event credential : string) : tx events :=
  if negb (existsb (String.eqb event) SUPPORTED) then mret seen
  else if bool_decide ((user_id, event, credential) ∈ seen) then mret seen
  else
    streams ← list_all SsfStream.t "ssf_streams";
    _ ← for_each (enqueue_stream user_id event credential) streams;
    mret ({[(user_id, event, credential)]} ∪ seen).

#[global] Instance touches_enqueue seen u e c : Touches ["ssf_deliveries"] (enqueue seen u e c).
Proof. unfold enqueue, enqueue_stream, enqueue_subject. solve_touches. Qed.

(** It fails only when a stream does not decode. *)
Lemma enqueue_repeats seen u e c s :
  (u, e, c) ∈ seen → enqueue seen u e c s = (Ok seen, s).
Proof. intros Hin. unfold enqueue. destruct (existsb _ _); [|done]. simpl. by rewrite bool_decide_true. Qed.
End signals.
#[export] Hint Resolve touches_enqueue : tx.
