(* ===== verification/SessionProtocol.v ===== *)
(** * Logout requests (src/src/session_protocol.rs, logout.rs,
    assembly/session_protocol.rs)

    The requests of relying parties to end a session: the check of the redirect
    they ask for, the ID token hint that names a session, the confirmation a
    browser waits for, and the front-channel addresses of a session.  A redirect
    is checked again whenever it is about to be delivered. *)

From S2P Require Import Prelude Json Model Store Env Provider Oidc Identities Maintenance.

#[local] Set Warnings "-clear-no-such-hyp".

(** [logout::LogoutRequest]. *)
Module LogoutRequest.
Record t := mk {
  id_token_hint : option string;
  client_id : option string;
  post_logout_redirect_uri : option string;
  state : option string;
}.
End LogoutRequest.

(** [SigningKey::jwk]: the public half of a key, which the cryptographic library
    computes. *)
Class PublicKeys := { key_jwk : SigningKey.t → Result json }.

Section protocol.
Context {E : Env}.

(** [PostLogoutReturn::allowed_by]. *)
Definition registered_return (uri : string) (client : option Client.t) : bool :=
  match client with
  | Some c => existsb (String.eqb uri) c.(Client.settings).(ProviderSettings.post_logout_redirect_uris)
  | None => false
  end.
Definition allowed_by (b : PostLogoutReturn.t) (client : option Client.t) : bool :=
  registered_return b.(PostLogoutReturn.registered_uri) client.

Definition long_state (state : option string) : bool :=
  match state with Some s => 512 <? Str.len s | None => false end.
Definition logout_redirect (client : option Client.t) (uri state : option string) : Result (option string) :=
  if long_state state then Err (Error.bad "Logout state too long")
  else
    match uri with
    | None => Ok None
    | Some uri =>
        if negb (registered_return uri client)
        then Err (Error.bad "Unregistered post-logout redirect URI")
        else
          u ← ok_or (url_parse uri) (Error.bad "Invalid logout redirect");
          Ok (Some (url_str (match state with Some s => url_extend u [("state", s)] | None => u end)))
    end.

Definition confirmation_redirect (c : Confirmation.t) : tx (option string) :=
  match c.(Confirmation.client_id), c.(Confirmation.post_logout_redirect_uri) with
  | Some client_id, Some uri =>
      client ← get Client.t "clients" client_id;
      mret (if registered_return uri client then c.(Confirmation.redirect_uri) else None)
  | _, _ => mret None
  end.
Definition confirmation_return (c : Confirmation.t) : tx (option PostLogoutReturn.t) :=
  rendered ← confirmation_redirect c;
  mret (match c.(Confirmation.client_id), c.(Confirmation.post_logout_redirect_uri), rendered with
        | Some client_id, Some registered, Some rendered =>
            Some (PostLogoutReturn.mk client_id registered rendered)
        | _, _, _ => None
        end).

(** One relying-party session of [frontchannel_urls]. *)
Definition frontchannel_url (session_id : string) (urls : list string) (row : string * RpSession.t) :
    tx (list string) :=
  let rp := row.2 in
  at_ ← now;
  if negb (String.eqb rp.(RpSession.session_id) session_id)
     || (sat_add rp.(RpSession.expires_at) 3600 <? at_)
  then mret urls
  else
    client ← get Client.t "clients" rp.(RpSession.client_id);
    match client with
    | Some client =>
        match client.(Client.settings).(ProviderSettings.frontchannel_logout_uri) with
        | Some uri =>
            u ← some_or (url_parse uri) Error.internal;
            mret (urls ++ [url_str (url_extend u [("iss", issuer_for_client client);
                                                  ("sid", rp.(RpSession.sid))])])
        | None => mret urls
        end
    | None => mret urls
    end.
Definition frontchannel_urls (session_id : string) : tx (list string) :=
  rows ← list_all RpSession.t "rp_sessions";
  fold_m (frontchannel_url session_id) [] rows.

(** [session_protocol::lookup] and [bound]. *)
Definition lookup_confirmation (code : string) : tx Confirmation.t :=
  norm ← lift (normalize_code code);
  id ← get string "logout_codes" (digest norm);
  id ← some_or id (Error.missing "Logout request not found");
  c ← get Confirmation.t "logout_confirmations" id;
  at_ ← now;
  some_or (match c with
           | Some c => if at_ <? c.(Confirmation.expires_at) then Some c else None
           | None => None
           end) (Error.missing "Logout request expired").
Definition bound_by (binding : option string) (c : Confirmation.t) : bool :=
  match binding with Some b => String.eqb (digest b) c.(Confirmation.browser_hash) | None => false end.
Definition bound (id : string) (binding : option string) : tx Confirmation.t :=
  c ← get Confirmation.t "logout_confirmations" id;
  at_ ← now;
  c ← some_or (match c with
               | Some c => if at_ <? c.(Confirmation.expires_at) then Some c else None
               | None => None
               end)
        (Error.new NOT_FOUND "interaction_expired" "This sign-out request has expired");
  _ ← ensure (bound_by binding c) Error.unauthorized;
  mret c.

Definition put_confirmation (c : Confirmation.t) : tx unit :=
  put "logout_confirmations" c.(Confirmation.id) c.
Definition logout_result (logged_out : bool) (redirect : option string) (urls : list string) : json :=
  Json.obj [("logged_out", JBool logged_out); ("redirect_uri", Json.of_option JStr redirect);
            ("frontchannel_urls", JArr (JStr <$> urls))].
(** [settle]: a decision that ends no session. *)
Definition settle (c : Confirmation.t) (logged_out : bool) : tx unit :=
  redirect ← confirmation_redirect c;
  put_confirmation (Confirmation.with_result c c.(Confirmation.completed_session_id)
                      (logout_result logged_out redirect [])).
Definition deny_logout (c : Confirmation.t) (actor : string) : tx unit :=
  _ ← settle c false;
  audit actor "logout.denied" (default "session" c.(Confirmation.client_id)).

(** [session_protocol::cleanup]. *)
Definition drop_confirmation (id : string) (c : Confirmation.t) : tx unit :=
  norm ← lift (normalize_code c.(Confirmation.code));
  _ ← remove "logout_codes" (digest norm);
  remove "logout_confirmations" id.
Definition cleanup_confirmations (at_ : Z) : tx unit :=
  sweep Confirmation.t "logout_confirmations" (λ c, c.(Confirmation.expires_at) <=? at_) drop_confirmation.
End protocol.
