(* ===== verification/SamlLogout.v ===== *)
(** * SAML logout (src/src/saml/logout.rs, assembly/saml_logout.rs)

    Revocation commits first; then the browser is sent to the SAML participants
    of the ended sessions one after another.  A flow keeps the targets, the one
    whose answer is awaited, and how many confirmed or failed.  A participant that
    cannot be reached, does not answer in thirty seconds or answers with a failure
    counts as failed, and so does every target left when the flow expires.

    The XML of the messages, their signatures and the settings of a peer belong to
    the SAML provider: they are the interface [SamlPeers].  Everything the
    coordinator keeps and decides is modelled. *)

From S2P Require Import Prelude Json Model Store Env Provider Jose Claims Identities Logout Maintenance Signals SessionProtocol.

#[local] Set Warnings "-clear-no-such-hyp".

(** [saml::Reply], for the replies this file makes. *)
Inductive Reply :=
| LogoutPage (v : json)
| Post (target : string) (fields : list (string * string))
| Redirect (uri : string).

(** [Current], as far as the coordinator looks into it. *)
Module Current.
Record t := mk {
  issuer : string;
  name_qualifier : string;
  sp_qualifier : string;
  redirect : option string;
  post : option string;
}.
(** [Current::endpoint]. *)
Definition endpoint (c : t) (use_post : bool) : Result string :=
  ok_or (if use_post then c.(post) else c.(redirect))
    (Error.bad "SAML logout binding is not registered").
End Current.

(** [wire::LogoutResponse]. *)
Module LogoutResponse.
Record t := mk { request : string; relay_state : string; success : bool }.
End LogoutResponse.

(** What the SAML provider promises: the settings and keys of a peer as they are
    now, a signed message, and the verified content of one. *)
Class SamlPeers {E : Env} := {
  (** [Peer::current]; it only reads. *)
  peer_current : Peer → tx Current.t;
  peer_current_pure p :: Pure (peer_current p);
  (** The XML of a request to a target and of the final response, at a time. *)
  logout_request_xml : Current.t → LogoutTarget.t → string → string → Z → Z → Result string;
  logout_response_xml : Current.t → ReturnResponse.t → string → string → Z → bool → Result string;
  (** [Current::message]. *)
  message : Current.t → string → option string → bool → string → Result Reply;
  (** [wire::receive_logout_response], [is_response] and [receive_logout]. *)
  receive_logout_response : Current.t → string → bool → Result LogoutResponse.t;
  is_response : string → bool;
  receive_logout : Current.t → string → bool → Result SamlLogoutRequest.t;
}.

Definition name_id_uri (f : NameIdFormat) : string :=
  match f with
  | Persistent => "urn:oasis:names:tc:SAML:2.0:nameid-format:persistent"
  | Transient => "urn:oasis:names:tc:SAML:2.0:nameid-format:transient"
  | NameIdEmail => "urn:oasis:names:tc:SAML:1.1:nameid-format:emailAddress"
  | Unspecified => "urn:oasis:names:tc:SAML:1.1:nameid-format:unspecified"
  end.

Definition peer_id (p : Peer) : string := match p with PeerClient i _ | PeerSource i _ => i end.
Definition same_entity (p q : Peer) : bool :=
  match p, q with
  | PeerClient i _, PeerClient j _ | PeerSource i _, PeerSource j _ => String.eqb i j
  | _, _ => false
  end.

Section flow.
Context {E : Env}.

Definition flow_url (id : string) : string :=
  endpoint config.(Config.issuer) ("/saml/logout/" +:+ id).

(** A ticket of the form [random_token] gives: 43 characters of base64url. *)
Definition ticket_char (c : Ascii.ascii) : bool :=
  Str.is_ascii_alphanumeric c || Ascii.eqb c "_"%char || Ascii.eqb c "-"%char.
Definition ticket_form (ticket : string) : bool :=
  (Str.len ticket =? 43) && forallb ticket_char (Str.bytes ticket).

Definition flow_done (f : LogoutFlow.t) : bool :=
  (f.(LogoutFlow.position) =? length f.(LogoutFlow.targets))%nat.
Definition flow_status (f : LogoutFlow.t) (at_ : Z) : string :=
  if flow_done f then if f.(LogoutFlow.failed) =? 0 then "complete" else "partial_logout"
  else if f.(LogoutFlow.expires_at) <=? at_ then "expired" else "pending".
(** [Flow::status]. *)
Definition status_json (f : LogoutFlow.t) (at_ : Z) : json :=
  Json.obj
    [("protocol", JStr "saml"); ("logged_out", JBool true); ("status", JStr (flow_status f at_));
     ("confirmed", JNum f.(LogoutFlow.confirmed)); ("failed", JNum f.(LogoutFlow.failed));
     ("remaining", JNum (Z.of_nat (length f.(LogoutFlow.targets) - f.(LogoutFlow.position))));
     ("expires_at", JNum f.(LogoutFlow.expires_at)); ("resume_uri", JStr (flow_url f.(LogoutFlow.id)));
     ("retry_after", Json.of_option (λ p, JNum (sat_sub p.(PendingLogout.deadline) at_))
                       f.(LogoutFlow.pending))].

(** [logout::lookup]. *)
Definition lookup_flow (ticket : string) : tx LogoutFlow.t :=
  _ ← ensure (ticket_form ticket) (Error.missing "SAML logout not found");
  f ← get LogoutFlow.t "saml_logout_flows" (digest ticket);
  at_ ← now;
  some_or (match f with
           | Some f => if at_ <? wadd f.(LogoutFlow.expires_at) 86400 then Some f else None
           | None => None
           end) (Error.missing "SAML logout expired").

(** [logout::status]. *)
Definition logout_flow_status (ticket : string) : tx json :=
  f ← lookup_flow ticket; at_ ← now; mret (status_json f at_).

Definition is_continuation (sid uri : string) : tx bool :=
  match Str.strip_prefix (flow_url "") uri with
  | None => mret false
  | Some ticket =>
      if negb (ticket_form ticket) then mret false
      else
        stored ← get string "saml_logout_sessions" sid;
        if negb (bool_decide (stored = Some ticket)) then mret false
        else
          f ← get LogoutFlow.t "saml_logout_flows" (digest ticket);
          at_ ← now;
          mret (match f with
                | Some f => String.eqb f.(LogoutFlow.id) ticket
                            && (at_ <? sat_add f.(LogoutFlow.expires_at) 86400)
                            && String.eqb uri (flow_url f.(LogoutFlow.id))
                | None => false
                end)
  end.

(** [logout::cleanup]. *)
Definition drop_ticket (sid ticket : string) : tx unit :=
  f ← get LogoutFlow.t "saml_logout_flows" (digest ticket);
  match f with None => remove "saml_logout_sessions" sid | Some _ => mret () end.
Definition cleanup_flows (at_ : Z) : tx unit :=
  _ ← expire LogoutFlow.t "saml_logout_flows" (λ f, wadd f.(LogoutFlow.expires_at) 86400 <=? at_);
  sweep string "saml_logout_sessions" (λ _, true) drop_ticket.
End flow.

(** The session with its revocation stored. *)
Definition revoked (s : Session.t) : Session.t :=
  Session.mk s.(Session.id) s.(Session.token_hash) s.(Session.identity) s.(Session.expires_at) true.

Section coordinator.
Context {E : Env} {S_ : SamlPeers}.

Definition put_flow (f : LogoutFlow.t) : tx unit := put "saml_logout_flows" (digest f.(LogoutFlow.id)) f.

(** ** Starting a flow *)

(** The targets found so far and the participants that cannot be asked. *)
Definition found : Type := list LogoutTarget.t * Z.
Definition excluded (exclude : option Peer) (p : Peer) : bool :=
  match exclude with Some q => same_entity q p | None => false end.
Definition client_target (ids : gset string) (exclude : option Peer) (at_ : Z) (acc : found)
    (row : string * SamlRpSession.t) : found :=
  let rp := row.2 in
  if negb (bool_decide (rp.(SamlRpSession.identity).(Identity.session_id) ∈ ids))
     || (rp.(SamlRpSession.expires_at) <=? at_) then acc
  else
    let peer := PeerClient rp.(SamlRpSession.client_id) rp.(SamlRpSession.fingerprint) in
    if excluded exclude peer then acc
    else
      match rp.(SamlRpSession.index) with
      | Some index =>
          (acc.1 ++ [LogoutTarget.mk peer rp.(SamlRpSession.name_id)
                       (name_id_uri rp.(SamlRpSession.format)) index], acc.2)
      | None => (acc.1, acc.2 + 1)
      end.

Definition upstream_target (exclude : option Peer) (at_ : Z) (acc : found) (context : SourceIdentity.t)
    (upstream : UpstreamSession.t) : tx found :=
  if match upstream.(UpstreamSession.expires_at) with Some e => e <=? at_ | None => false end
  then mret acc
  else
    let peer := PeerSource context.(SourceIdentity.id) context.(SourceIdentity.fingerprint) in
    if excluded exclude peer then mret acc
    else
      source ← get Source.t "sources" context.(SourceIdentity.id);
      match upstream.(UpstreamSession.subject), source ≫= Source.saml with
      | Some subject, Some settings =>
          mret (acc.1 ++ [LogoutTarget.mk peer subject (name_id_uri settings.(SourceSaml.name_id_format))
                            upstream.(UpstreamSession.index)], acc.2)
      | _, _ => mret (acc.1, acc.2 + 1)
      end.
Definition source_target (exclude : option Peer) (acc : found) (sid : string) : tx found :=
  session ← get Session.t "sessions" sid;
  match session ≫= λ s, s.(Session.identity).(Identity.source) with
  | None => mret acc
  | Some context =>
      upstream ← get UpstreamSession.t "saml_source_sessions" sid;
      at_ ← now;
      match upstream with
      | None => mret acc
      | Some upstream => upstream_target exclude at_ acc context upstream
      end
  end.

(** Equal targets are asked once, in the order they were found. *)
Fixpoint once (seen l : list LogoutTarget.t) : list LogoutTarget.t :=
  match l with
  | [] => []
  | t :: l => if bool_decide (t ∈ seen) then once seen l else t :: once (t :: seen) l
  end.
Definition MAX_TARGETS : nat := 64.
Definition MAX_FLOWS : Z := 5000.
Definition require_revoked (sid : string) : tx unit :=
  s ← get Session.t "sessions" sid;
  ensure (match s with Some s => s.(Session.revoked) | None => true end) Error.internal.

(** The reply that ends a flow: the response the initiating peer waits for, the
    return address if it is still registered, or the status page. *)
Definition finish_reply (f : LogoutFlow.t) : tx Reply :=
  let page := (at_ ← now; mret (LogoutPage (status_json f at_))) in
  match f.(LogoutFlow.finish).(Finish.response) with
  | Some end_ =>
      current ← peer_current end_.(ReturnResponse.peer);
      target ← lift (Current.endpoint current end_.(ReturnResponse.post));
      mid ← id;
      at_ ← now;
      xml ← lift (logout_response_xml current end_ target mid at_ (0 <? f.(LogoutFlow.failed)));
      lift (message current xml end_.(ReturnResponse.request).(SamlLogoutRequest.relay_state)
              end_.(ReturnResponse.post) "SAMLResponse")
  | None =>
      match f.(LogoutFlow.finish).(Finish.return_binding) with
      | Some binding =>
          if bool_decide (f.(LogoutFlow.finish).(Finish.redirect)
                          = Some binding.(PostLogoutReturn.rendered_uri)) then
            client ← get Client.t "clients" binding.(PostLogoutReturn.client_id);
            if allowed_by binding client then mret (Redirect binding.(PostLogoutReturn.rendered_uri))
            else page
          else page
      | None => page
      end
  end.

(** The flow of the participants found, with at most [MAX_TARGETS] of them. *)
Definition new_flow (fid : string) (at_ : Z) (f : found) (finish : Finish.t) : LogoutFlow.t :=
  let targets := once [] f.1 in
  LogoutFlow.mk fid (wadd at_ 600) (take MAX_TARGETS targets) 0 None 0
    (f.2 + Z.of_nat (length targets - MAX_TARGETS)) finish.
Definition abandon (f : LogoutFlow.t) : LogoutFlow.t :=
  LogoutFlow.advance f (length f.(LogoutFlow.targets)) f.(LogoutFlow.confirmed)
    (f.(LogoutFlow.failed)
     + Z.of_nat (length f.(LogoutFlow.targets) - f.(LogoutFlow.position))).

Definition participants (ids : gset string) (finish : Finish.t) : tx found :=
  let exclude := ReturnResponse.peer <$> finish.(Finish.response) in
  rows ← list_all SamlRpSession.t "saml_sessions";
  at_ ← now;
  fold_m (source_target exclude) (foldl (client_target ids exclude at_) ([], 0) rows) (btree_iter ids).
Definition begin_logout (ids : gset string) (finish : Finish.t) : tx Reply :=
  _ ← for_each require_revoked (btree_iter ids);
  f ← participants ids finish;
  fid ← random_token "";
  at_ ← now;
  let flow := new_flow fid at_ f finish in
  if (length flow.(LogoutFlow.targets) =? 0)%nat && bool_decide (finish.(Finish.frontchannel_urls) = ∅)
  then finish_reply flow
  else
    _ ← cleanup_flows at_;
    flows ← list_all LogoutFlow.t "saml_logout_flows";
    if MAX_FLOWS <=? Z.of_nat (length flows) then finish_reply (abandon flow)
    else
      _ ← put_flow flow;
      mret (LogoutPage (Json.obj
        [("logged_out", JBool true); ("redirect_uri", JStr (flow_url fid));
         ("frontchannel_urls", JArr (JStr <$> btree_iter finish.(Finish.frontchannel_urls)))])).

(** [logout::redirect]: the flow of a session, started once. *)
Definition live_ticket (ticket : option string) : tx (option string) :=
  match ticket with
  | Some t => r ← catch (lookup_flow t); mret (if is_ok r then Some t else None)
  | None => mret None
  end.
Definition reply_value (r : Reply) : Result json :=
  match r with
  | Redirect uri => Ok (Json.obj [("redirect_uri", JStr uri)])
  | LogoutPage v => Ok v
  | Post _ _ => Err Error.internal
  end.
Definition saml_redirect (sid : string) (original : option PostLogoutReturn.t) : tx json :=
  ticket ← get string "saml_logout_sessions" sid;
  live ← live_ticket ticket;
  match live with
  | Some ticket => mret (Json.obj [("redirect_uri", JStr (flow_url ticket))])
  | None =>
      reply ← begin_logout {[sid]}
                (Finish.mk (PostLogoutReturn.rendered_uri <$> original) original None ∅);
      value ← lift (reply_value reply);
      let ticket := Json.as_str (Json.index value "redirect_uri") ≫= Str.strip_prefix (flow_url "") in
      live ← live_ticket (if match ticket with Some t => Str.len t =? 43 | None => false end
                          then ticket else None);
      _ ← match live with
          | Some t => put "saml_logout_sessions" sid t
          | None => mret ()
          end;
      mret value
  end.

(** ** Following a flow *)

(** The message to the current target, made once. *)
Definition prepare_message (f : LogoutFlow.t) (target : LogoutTarget.t) (current : Current.t) :
    tx (option LogoutFlow.t) :=
  match f.(LogoutFlow.pending) with
  | Some _ => mret (Some f)
  | None =>
      let use_post := bool_decide (current.(Current.redirect) = None) in
      match Current.endpoint current use_post with
      | Err _ => mret None
      | Ok to =>
          mid ← id;
          at_ ← now;
          let until := Z.min (wadd at_ 300) f.(LogoutFlow.expires_at) in
          xml ← lift (logout_request_xml current target ("_" +:+ mid) to at_ until);
          mret (Some (LogoutFlow.with_pending f
                        (PendingLogout.mk ("_" +:+ mid) xml use_post
                           (Z.min (wadd at_ 30) f.(LogoutFlow.expires_at)))))
      end
  end.
Definition fail_target (f : LogoutFlow.t) : LogoutFlow.t :=
  LogoutFlow.advance f (S f.(LogoutFlow.position)) f.(LogoutFlow.confirmed) (f.(LogoutFlow.failed) + 1).
Definition overdue (f : LogoutFlow.t) (at_ : Z) : bool :=
  match f.(LogoutFlow.pending) with Some p => p.(PendingLogout.deadline) <=? at_ | None => false end.

(** The loop of [logout::next]: a turn for each target that cannot be asked;
    [stuck] stands for running out of turns, which does not happen. *)
Definition settle_flow (ticket : string) (f : LogoutFlow.t) : tx Reply :=
  _ ← put "saml_logout_flows" (digest ticket) f; finish_reply f.
Fixpoint next_target (stuck : tx Reply) (fuel : nat) (ticket : string) (f : LogoutFlow.t) : tx Reply :=
  match fuel with
  | O => stuck
  | S fuel =>
      match f.(LogoutFlow.targets) !! f.(LogoutFlow.position) with
      | None => settle_flow ticket f
      | Some target =>
          at_ ← now;
          if f.(LogoutFlow.expires_at) <=? at_ then settle_flow ticket (abandon f)
          else
            current ← catch (peer_current target.(LogoutTarget.peer));
            match current with
            | Err _ => next_target stuck fuel ticket (fail_target f)
            | Ok current =>
                if overdue f at_ then next_target stuck fuel ticket (fail_target f)
                else
                  ready ← prepare_message f target current;
                  match ready ≫= λ f, (f,.) <$> f.(LogoutFlow.pending) with
                  | None => next_target stuck fuel ticket (fail_target f)
                  | Some (f, p) =>
                      match message current p.(PendingLogout.xml) (Some f.(LogoutFlow.id))
                              p.(PendingLogout.post) "SAMLRequest" with
                      | Ok reply => _ ← put "saml_logout_flows" (digest ticket) f; mret reply
                      | Err _ => next_target stuck fuel ticket (fail_target f)
                      end
                  end
            end
      end
  end.
(** One turn more than there are targets left is enough. *)
Definition next_fuel (f : LogoutFlow.t) : nat :=
  S (length f.(LogoutFlow.targets) - f.(LogoutFlow.position)).
Definition next_reply (ticket : string) : tx Reply :=
  f ← lookup_flow ticket; next_target (fail Error.internal) (next_fuel f) ticket f.

(** [response_in]: the answer of the current target. *)
Definition logout_response_in (peer : Peer) (raw : string) (use_post : bool) : tx Reply :=
  current ← peer_current peer;
  response ← lift (receive_logout_response current raw use_post);
  f ← lookup_flow response.(LogoutResponse.relay_state);
  p ← some_or f.(LogoutFlow.pending) (Error.conflict "SAML logout response already consumed");
  at_ ← now;
  _ ← ensure (negb ((f.(LogoutFlow.expires_at) <=? at_) || (p.(PendingLogout.deadline) <=? at_)
                    || negb (String.eqb p.(PendingLogout.id) response.(LogoutResponse.request))
                    || match f.(LogoutFlow.targets) !! f.(LogoutFlow.position) with
                       | Some t => negb (bool_decide (t.(LogoutTarget.peer) = peer))
                       | None => true
                       end)) Error.forbidden;
  let ok := response.(LogoutResponse.success) in
  let f := LogoutFlow.advance f (S f.(LogoutFlow.position))
             (f.(LogoutFlow.confirmed) + (if ok then 1 else 0))
             (f.(LogoutFlow.failed) + (if ok then 0 else 1)) in
  _ ← put_flow f;
  _ ← audit "saml-peer" "saml.logout.confirmation" (peer_id peer);
  mret (Redirect (flow_url f.(LogoutFlow.id))).

(** ** Logout that an identity provider asks for *)

Definition revoke_source_session (source_id sid : string) (s : Session.t) (acc : gset string * events) :
    tx (gset string * events) :=
  let user_id := s.(Session.identity).(Identity.user_id) in
  fronts ← frontchannel_urls sid;
  _ ← put "sessions" sid (revoked s);
  _ ← queue_session sid;
  seen ← enqueue acc.2 user_id SESSION_REVOKED "";
  _ ← audit user_id "saml.source.logout" source_id;
  mret (acc.1 ∪ list_to_set fronts, seen).
Definition revoke_found (source_id : string) (acc : gset string * events) (sid : string) :
    tx (gset string * events) :=
  s ← get Session.t "sessions" sid;
  match s with Some s => revoke_source_session source_id sid s acc | None => mret acc end.

(** A session of the request's subject under one of its indices, live, and linked
    by this source as it is now or as its retired certificates left it. *)
Definition linked_session (source_id fp : string) (at_ : Z) (s : Session.t) : bool :=
  (at_ <? s.(Session.expires_at))
  && match s.(Session.identity).(Identity.source) with
     | Some linked =>
         String.eqb linked.(SourceIdentity.id) source_id
         && (String.eqb linked.(SourceIdentity.fingerprint) fp
             || s.(Session.revoked) && linked.(SourceIdentity.pin_retired))
     | None => false
     end.
Definition named_upstream (request : SamlLogoutRequest.t) (at_ : Z) (u : UpstreamSession.t) : bool :=
  bool_decide (u.(UpstreamSession.subject) = Some request.(SamlLogoutRequest.name_id))
  && bool_decide (u.(UpstreamSession.index) ∈ request.(SamlLogoutRequest.indices))
  && negb match u.(UpstreamSession.expires_at) with Some e => e <=? at_ | None => false end.
Definition find_session (source_id fp : string) (request : SamlLogoutRequest.t)
    (acc : gset string * gset string) (row : string * UpstreamSession.t) : tx (gset string * gset string) :=
  at_ ← now;
  if negb (named_upstream request at_ row.2) then mret acc
  else
    s ← get Session.t "sessions" row.1;
    mret (match s with
          | Some s => if linked_session source_id fp at_ s
                      then ({[row.1]} ∪ acc.1, {[row.2.(UpstreamSession.index)]} ∪ acc.2) else acc
          | None => acc
          end).
Definition MAX_REPLAYS : Z := 20000.
Definition source_replay (source_id : string) (request : SamlLogoutRequest.t) : string :=
  digest ("source/" +:+ source_id +:+ NUL +:+ request.(SamlLogoutRequest.id)).

(** The request is taken: every session it names is found, or none is touched. *)
Definition take_source_logout (source_id fp : string) (settings : SourceSaml.t)
    (request : SamlLogoutRequest.t) : tx (gset string) :=
  let replay := source_replay source_id request in
  used ← get Z "saml_replays" replay;
  at_ ← now;
  _ ← ensure (match used with Some e => negb (at_ <? e) | None => true end)
        (Error.conflict "SAML logout request replay");
  _ ← ensure (match request.(SamlLogoutRequest.format) with
              | Some f => String.eqb f (name_id_uri settings.(SourceSaml.name_id_format))
              | None => true
              end) Error.forbidden;
  rows ← list_all UpstreamSession.t "saml_source_sessions";
  sf ← fold_m (find_session source_id fp request) (∅, ∅) rows;
  _ ← ensure (size sf.2 =? length request.(SamlLogoutRequest.indices))%nat Error.forbidden;
  replays ← list_all Z "saml_replays";
  _ ← ensure (Z.of_nat (length replays) <? MAX_REPLAYS) (Error.conflict "Too many SAML requests");
  _ ← put "saml_replays" replay (wadd at_ 630);
  mret sf.1.

Definition source_logout (source_id raw : string) (use_post : bool) : tx Reply :=
  source ← get Source.t "sources" source_id;
  source ← some_or (match source with
                    | Some s => if s.(Source.enabled) then Some s else None
                    | None => None
                    end) Error.forbidden;
  let fp := source_fingerprint source in
  let peer := PeerSource source_id fp in
  current ← peer_current peer;
  if is_response raw then logout_response_in peer raw use_post
  else
    _ ← lift (Current.endpoint current use_post);
    request ← lift (receive_logout current raw use_post);
    settings ← some_or source.(Source.saml) Error.internal;
    sessions ← take_source_logout source_id fp settings request;
    fronts ← fold_m (revoke_found source_id) (∅, ∅) (btree_iter sessions);
    begin_logout sessions
      (Finish.mk None None (Some (ReturnResponse.mk peer request use_post)) fronts.1).
End coordinator.

(** ** Frames *)

Section frames.
Context {E : Env} {S_ : SamlPeers}.

#[global] Instance pure_lookup_flow t : Pure (lookup_flow t).
Proof. unfold lookup_flow. solve_pure. Qed.
#[global] Instance pure_frontchannel_urls sid : Pure (frontchannel_urls sid).
Proof. unfold frontchannel_urls, frontchannel_url. solve_pure. Qed.
#[global] Instance pure_participants ids f : Pure (participants ids f).
Proof. unfold participants, source_target, upstream_target. solve_pure. Qed.
#[global] Instance pure_live_ticket t : Pure (live_ticket t).
Proof. unfold live_ticket. solve_pure. Qed.
Lemma touches_finish_reply bs f : Touches bs (finish_reply f).
Proof. unfold finish_reply. solve_touches. Qed.
Lemma touches_prepare_message bs f t c : Touches bs (prepare_message f t c).
Proof. unfold prepare_message. solve_touches. Qed.
Hint Resolve touches_finish_reply touches_prepare_message touches_maintenance_page : tx.
Lemma touches_cleanup_flows at_ :
  Touches ["saml_logout_flows"; "saml_logout_sessions"; CURSORS; BOUNDS] (cleanup_flows at_).
Proof. unfold cleanup_flows, expire, sweep, drop_ticket. solve_touches. Qed.
Hint Resolve touches_cleanup_flows : tx.
Lemma touches_begin_logout ids f :
  Touches ["saml_logout_flows"; "saml_logout_sessions"; CURSORS; BOUNDS] (begin_logout ids f).
Proof. unfold begin_logout, require_revoked, put_flow. solve_touches. Qed.
Lemma touches_settle_flow t f : Touches ["saml_logout_flows"] (settle_flow t f).
Proof. unfold settle_flow. solve_touches. Qed.
Lemma touches_saml_redirect sid o :
  Touches ["saml_logout_flows"; "saml_logout_sessions"; CURSORS; BOUNDS] (saml_redirect sid o).
Proof. pose proof touches_begin_logout. unfold saml_redirect. solve_touches. Qed.
Lemma touches_revoke_source_session src sid s acc :
  Touches ["sessions"; "rp_sessions"; "logout_deliveries"; "ssf_deliveries"; "audit"]
    (revoke_source_session src sid s acc).
Proof. unfold revoke_source_session. solve_touches. Qed.
Lemma touches_revoke_found src acc sid :
  Touches ["sessions"; "rp_sessions"; "logout_deliveries"; "ssf_deliveries"; "audit"]
    (revoke_found src acc sid).
Proof.
  unfold revoke_found. apply touches_bind; [apply pure_touches, _|]. intros [x|]; [|apply pure_touches, _].
  apply touches_revoke_source_session.
Qed.
Lemma touches_take_source_logout src fp st r :
  Touches ["saml_replays"] (take_source_logout src fp st r).
Proof. unfold take_source_logout, find_session. solve_touches. Qed.
End frames.
#[export] Hint Resolve touches_finish_reply touches_prepare_message touches_cleanup_flows
  touches_begin_logout touches_settle_flow touches_saml_redirect touches_revoke_source_session
  touches_revoke_found touches_take_source_logout : tx.

(** ** What a transaction keeps of every row of a bucket *)

Definition every (b : string) (Q : row → Prop) (s : St.t) : Prop := ∀ k w,
  s.(St.db) !! (b, k) = Some w → Q w.
Definition preserves {A} (b : string) (Q : row → Prop) (m : tx A) : Prop := ∀ s,
  every b Q s → every b Q (m s).2.

Section every.
Context (b : string) (Q : row → Prop).

Lemma preserves_touches {A} bs (m : tx A) : Touches bs m → b ∉ bs → preserves b Q m.
Proof. intros Hm Hb s Hs k w. destruct (Hm s) as (_ & _ & _ & Hf). rewrite Hf by done. apply Hs. Qed.
Lemma preserves_pure {A} (m : tx A) `{!Pure m} : preserves b Q m.
Proof. intros s Hs. by rewrite (pure_eq (m:=m)). Qed.
(** What follows a step may use the step's result. *)
Lemma preserves_run {A B} (m : tx A) (f : A → tx B) :
  preserves b Q m →
  (∀ s a s', every b Q s → m s = (Ok a, s') → every b Q s' → every b Q (f a s').2) →
  preserves b Q (m ≫= f).
Proof.
  intros Hm Hf s Hs. unfold mbind, tx_bind. pose proof (Hm s Hs) as H1.
  destruct (m s) as [[a|e] s1] eqn:Hrun; simpl in *; [by apply (Hf s a s1)|done].
Qed.
Lemma preserves_bind {A B} (m : tx A) (f : A → tx B) :
  preserves b Q m → (∀ a, preserves b Q (f a)) → preserves b Q (m ≫= f).
Proof. intros Hm Hf. apply preserves_run; [done|]. intros s a s' _ _ Hs. by apply Hf. Qed.
Lemma preserves_put `{Row T} b' k (r : T) : Q (encode r) → preserves b Q (put b' k r).
Proof. intros Hr s Hs k' w Hw. cbn in Hw. apply lookup_insert_Some in Hw as [[_ <-]|[_ ?]]; [done|by eapply Hs]. Qed.
Lemma preserves_remove b' k : preserves b Q (remove b' k).
Proof. intros s Hs k' w Hw. cbn in Hw. apply lookup_delete_Some in Hw as [_ ?]. by eapply Hs. Qed.
Lemma preserves_for_each {A} (f : A → tx unit) l : (∀ a, preserves b Q (f a)) → preserves b Q (for_each f l).
Proof. intros Hf. induction l; [by apply preserves_pure, _|]. by apply preserves_bind. Qed.
Lemma preserves_write {A} (m : tx A) : preserves b Q m → preserves b Q (write m).
Proof. intros Hm s Hs. unfold write. pose proof (Hm s Hs). by destruct (m s) as [[]]. Qed.
Lemma preserves_expire `{Row T} b' dead : b' ∉ [CURSORS; BOUNDS] → b ∉ [CURSORS; BOUNDS] →
  preserves b Q (expire T b' dead).
Proof.
  intros _ Hb. apply preserves_bind.
  - eapply preserves_touches; [apply touches_maintenance_page|done].
  - intros page. apply preserves_for_each. intros kr. destruct (dead kr.2); [apply preserves_remove|].
    by apply preserves_pure, _.
Qed.
End every.

Lemma fold_m_inv {A B} (P : B → Prop) (f : B → A → tx B) acc l s acc' s' :
  (∀ b a s b' s', P b → f b a s = (Ok b', s') → P b') → P acc →
  fold_m f acc l s = (Ok acc', s') → P acc'.
Proof.
  intros Hf. revert acc s. induction l as [|a l IH]; intros acc s Hacc Hrun; [by apply ret_ok in Hrun as [-> _]|].
  apply bind_ok in Hrun as (b & s1 & Hb & Hrun). eapply IH, Hrun. by eapply Hf.
Qed.

(** ** The books of a flow *)

(** Every target behind the position is confirmed or failed, and only a target
    that is still to come can be awaited. *)
Definition flow_ok (f : LogoutFlow.t) : Prop :=
  (f.(LogoutFlow.position) ≤ length f.(LogoutFlow.targets))%nat
  ∧ 0 ≤ f.(LogoutFlow.confirmed) ≤ Z.of_nat f.(LogoutFlow.position)
  ∧ Z.of_nat f.(LogoutFlow.position) - f.(LogoutFlow.confirmed) ≤ f.(LogoutFlow.failed)
  ∧ (is_Some f.(LogoutFlow.pending) → (f.(LogoutFlow.position) < length f.(LogoutFlow.targets))%nat).
Definition flow_row_ok (w : row) : Prop := match w with RLogoutFlow f => flow_ok f | _ => True end.

Section books.
Context {E : Env} {S_ : SamlPeers}.
Implicit Types (f : LogoutFlow.t) (s : St.t).

Abbreviation flows := "saml_logout_flows".
Abbreviation books := (preserves flows flow_row_ok).

Lemma fail_target_ok f t :
  f.(LogoutFlow.targets) !! f.(LogoutFlow.position) = Some t → flow_ok f → flow_ok (fail_target f).
Proof.
  intros Ht%lookup_lt_Some (? & ? & ? & ?). unfold flow_ok. simpl. split_and!; [lia..|]. by intros [].
Qed.
Lemma abandon_ok f : flow_ok f → flow_ok (abandon f).
Proof. intros (? & ? & ? & ?). unfold flow_ok. simpl. split_and!; [lia..|]. by intros []. Qed.
Lemma with_pending_ok f t p :
  f.(LogoutFlow.targets) !! f.(LogoutFlow.position) = Some t → flow_ok f → flow_ok (LogoutFlow.with_pending f p).
Proof. intros Ht%lookup_lt_Some (? & ? & ? & ?). unfold flow_ok. simpl. split_and!; lia. Qed.
Lemma prepare_message_ok f t c s r s' :
  f.(LogoutFlow.targets) !! f.(LogoutFlow.position) = Some t → flow_ok f →
  prepare_message f t c s = (Ok (Some r), s') → flow_ok r.
Proof.
  intros Ht Hok. unfold prepare_message. intros Hrun. tx_crush; try done. by eapply with_pending_ok.
Qed.
Lemma lookup_flow_ok t s f s' :
  lookup_flow t s = (Ok f, s') →
  s' = s ∧ ticket_form t = true ∧ s.(St.db) !! (flows, digest t) = Some (RLogoutFlow f)
  ∧ s.(St.clock) < wadd f.(LogoutFlow.expires_at) 86400.
Proof.
  unfold lookup_flow. intros Hrun. tx_inv. case_match; simplify_eq/=. case_match; simplify_eq/=. bools.
  split_and!; done.
Qed.
Lemma books_settle t f : flow_ok f → books (settle_flow t f).
Proof.
  intros Hf. apply preserves_bind; [by apply preserves_put|]. intros _.
  eapply preserves_touches; [apply (touches_finish_reply [])|set_solver].
Qed.

Lemma books_next_target n t f : flow_ok f → books (next_target (fail Error.internal) n t f).
Proof.
  revert f. induction n as [|n IH]; intros f Hf; [by apply preserves_pure, _|]. cbn [next_target].
  destruct (_ !! _) as [target|] eqn:Ht; [|by apply books_settle].
  apply preserves_bind; [by apply preserves_pure, _|]. intros at_.
  destruct (_ <=? _); [by apply books_settle, abandon_ok|].
  apply preserves_bind; [by apply preserves_pure, _|]. intros [current|e]; [|by eapply IH, fail_target_ok].
  destruct (overdue f at_); [by eapply IH, fail_target_ok|].
  apply preserves_run.
  { eapply preserves_touches; [apply (touches_prepare_message [])|set_solver]. }
  intros s [r|] s' _ Hrun; [|by eapply IH, fail_target_ok].
  pose proof (prepare_message_ok _ _ _ _ _ _ Ht Hf Hrun) as Hr.
  assert (Hsame : r.(LogoutFlow.targets) !! r.(LogoutFlow.position) = Some target).
  { revert Hrun. unfold prepare_message. intros Hrun. by tx_crush. }
  clear Hrun. revert s'. simpl.
  destruct (LogoutFlow.pending r) as [p|]; simpl; [|by eapply IH, fail_target_ok].
  destruct (message _ _ _ _ _); [|by eapply IH, fail_target_ok].
  apply preserves_bind; [by apply preserves_put|]. intros _. by apply preserves_pure, _.
Qed.
Lemma row_flow_ok s t f :
  every flows flow_row_ok s → s.(St.db) !! (flows, digest t) = Some (RLogoutFlow f) → flow_ok f.
Proof. intros Hs Hf. apply (Hs _ _ Hf). Qed.
Lemma books_next t : books (next_reply t).
Proof.
  apply preserves_run; [by apply preserves_pure, _|].
  intros s f s' Hs (-> & _ & Hf & _)%lookup_flow_ok _. eapply books_next_target, Hs. by eapply row_flow_ok.
Qed.
Lemma books_response p raw post : books (logout_response_in p raw post).
Proof.
  apply preserves_bind; [by apply preserves_pure, _|]. intros current.
  apply preserves_bind; [by apply preserves_pure, _|]. intros r.
  apply preserves_run; [by apply preserves_pure, _|]. intros s f s' Hs (-> & _ & Hf & _)%lookup_flow_ok _.
  pose proof (row_flow_ok _ _ _ Hs Hf) as Hok. clear Hf. revert s Hs.
  apply preserves_run; [by apply preserves_pure, _|]. intros s q s' _ [Hp _]%some_or_ok Hs. revert s' Hs.
  apply preserves_bind; [by apply preserves_pure, _|]. intros at_.
  apply preserves_bind; [by apply preserves_pure, _|]. intros _.
  apply preserves_bind.
  - apply preserves_put. destruct Hok as (? & ? & ? & Hpend). rewrite Hp in Hpend.
    specialize (Hpend ltac:(by eexists)). unfold flow_row_ok, flow_ok. simpl.
    destruct (LogoutResponse.success r); split_and!; try lia; by intros [].
  - intros _. eapply preserves_touches; [apply touches_bind; [solve_touches|intros; apply pure_touches, _]|bucket].
Qed.
Lemma new_flow_ok fid at_ acc finish : 0 ≤ acc.2 → flow_ok (new_flow fid at_ acc finish).
Proof. intros Hacc. unfold flow_ok. simpl. split_and!; [lia..|]. by intros []. Qed.
Lemma participants_ok ids finish s acc s' : participants ids finish s = (Ok acc, s') → 0 ≤ acc.2.
Proof.
  unfold participants. intros Hrun. apply bind_ok in Hrun as (rows & s1 & _ & Hrun).
  apply bind_ok in Hrun as (at_ & s2 & _ & Hrun).
  revert Hrun. apply (fold_m_inv (λ acc : found, 0 ≤ acc.2)).
  - intros b sid s3 b' s4 Hb. unfold source_target, upstream_target. intros Hrun. tx_crush; simpl; lia.
  - assert (H0 : 0 ≤ ([] : list LogoutTarget.t, 0).2) by done. revert H0.
    generalize ([] : list LogoutTarget.t, 0). induction rows as [|row rows IH]; intros b Hb; [done|].
    apply IH. unfold client_target. repeat case_match; simpl; lia.
Qed.
Lemma books_cleanup at_ : books (cleanup_flows at_).
Proof.
  apply preserves_bind; [apply preserves_expire; bucket|]. intros _.
  apply (preserves_touches _ _ ["saml_logout_sessions"; CURSORS; BOUNDS]); [|bucket].
  unfold sweep, drop_ticket. solve_touches.
Qed.
Lemma books_begin ids finish : books (begin_logout ids finish).
Proof.
  apply preserves_bind.
  { apply (preserves_touches _ _ []); [unfold require_revoked; solve_touches|set_solver]. }
  intros _. apply preserves_run; [by apply preserves_pure, _|]. intros s acc s' _ Hacc%participants_ok Hs.
  clear s. revert s' Hs. apply preserves_bind; [apply (preserves_touches _ _ []); [solve_touches|set_solver]|].
  intros fid. apply preserves_bind; [by apply preserves_pure, _|]. intros at_. cbv zeta.
  destruct (_ && _); [apply (preserves_touches _ _ []); [solve_touches|set_solver]|].
  apply preserves_bind; [apply books_cleanup|]. intros _. apply preserves_bind; [by apply preserves_pure, _|].
  intros flows. destruct (_ <=? _); [apply (preserves_touches _ _ []); [solve_touches|set_solver]|].
  apply preserves_bind; [|intros _; by apply preserves_pure, _]. by apply preserves_put, new_flow_ok.
Qed.
Lemma books_redirect sid o : books (saml_redirect sid o).
Proof.
  apply preserves_bind; [by apply preserves_pure, _|]. intros ticket.
  apply preserves_bind; [by apply preserves_pure, _|]. intros [t|]; [by apply preserves_pure, _|].
  apply preserves_bind; [apply books_begin|]. intros reply.
  apply (preserves_touches _ _ ["saml_logout_sessions"]); [solve_touches|bucket].
Qed.
Lemma books_source_logout src raw post : books (source_logout src raw post).
Proof.
  unfold source_logout. do 2 (apply preserves_bind; [by apply preserves_pure, _|]; intros ?). cbv zeta.
  apply preserves_bind; [by apply preserves_pure, _|]. intros current.
  destruct (is_response raw); [apply books_response|].
  do 3 (apply preserves_bind; [by apply preserves_pure, _|]; intros ?).
  apply preserves_bind; [eapply preserves_touches; [apply touches_take_source_logout|bucket]|]. intros ids.
  apply preserves_bind; [|intros acc; apply books_begin].
  apply (preserves_touches _ _ ["sessions"; "rp_sessions"; "logout_deliveries"; "ssf_deliveries"; "audit"]); [|bucket].
  apply touches_fold_m. intros. apply touches_revoke_found.
Qed.
End books.

(** ** Runs *)

Section runs.
Context {E : Env} {S_ : SamlPeers}.
Implicit Types (f : LogoutFlow.t) (s : St.t).

(** A committed or abandoned transaction of the coordinator, or a transaction
    that leaves its flows alone. *)
Inductive saml_step s s' : Prop :=
| saml_begins ids finish r : write (begin_logout ids finish) s = (r, s') → saml_step s s'
| saml_redirects sid o r : write (saml_redirect sid o) s = (r, s') → saml_step s s'
| saml_follows t r : write (next_reply t) s = (r, s') → saml_step s s'
| saml_answered p raw post r : write (logout_response_in p raw post) s = (r, s') → saml_step s s'
| saml_asked src raw post r : write (source_logout src raw post) s = (r, s') → saml_step s s'
| saml_cleaned at_ r : write (cleanup_flows at_) s = (r, s') → saml_step s s'
| saml_elsewhere :
    (∀ k, s'.(St.db) !! ("saml_logout_flows", k) = s.(St.db) !! ("saml_logout_flows", k)) → saml_step s s'.

Lemma saml_step_books s s' :
  saml_step s s' → every "saml_logout_flows" flow_row_ok s → every "saml_logout_flows" flow_row_ok s'.
Proof.
  assert (Hw : ∀ {A} (m : tx A) r, preserves "saml_logout_flows" flow_row_ok m → write m s = (r, s') →
    every "saml_logout_flows" flow_row_ok s → every "saml_logout_flows" flow_row_ok s').
  { intros A m r Hm Hrun Hs. pose proof (preserves_write _ _ m Hm s Hs) as H. by rewrite Hrun in H. }
  destruct 1 as [? ? ? H|? ? ? H|? ? H|? ? ? ? H|? ? ? ? H|? ? H|H].
  7: { intros Hs k w Hk. rewrite H in Hk. by eapply Hs. }
  all: eapply Hw, H.
  - apply books_begin.
  - apply books_redirect.
  - apply books_next.
  - apply books_response.
  - apply books_source_logout.
  - apply books_cleanup.
Qed.


(** ** The loop of [next] ends *)

Lemma bind_same {A B} (m : tx A) (f g : A → tx B) s :
  (∀ a s', m s = (Ok a, s') → f a s' = g a s') → (m ≫= f) s = (m ≫= g) s.
Proof. intros Hfg. unfold mbind, tx_bind. destruct (m s) as [[a|e] s1]; [by apply Hfg|done]. Qed.
Lemma prepare_message_same f t c s r s' :
  prepare_message f t c s = (Ok (Some r), s') →
  r.(LogoutFlow.targets) = f.(LogoutFlow.targets) ∧ r.(LogoutFlow.position) = f.(LogoutFlow.position).
Proof. unfold prepare_message. intros Hrun. by tx_crush. Qed.
Lemma next_fuel_fail f t n :
  f.(LogoutFlow.targets) !! f.(LogoutFlow.position) = Some t → (next_fuel f ≤ S n)%nat →
  (next_fuel (fail_target f) ≤ n)%nat.
Proof. intros Ht%lookup_lt_Some. unfold next_fuel. simpl. lia. Qed.

Lemma next_target_stable stuck stuck' n m t f s :
  (next_fuel f ≤ n)%nat → (next_fuel f ≤ m)%nat →
  next_target stuck n t f s = next_target stuck' m t f s.
Proof.
  revert m f s. induction n as [|n IH]; intros [|m] f s Hn Hm; [unfold next_fuel in *; lia..|].
  cbn [next_target]. destruct (_ !! _) as [target|] eqn:Ht; [|done].
  pose proof (next_fuel_fail _ _ _ Ht Hn) as Hn'. pose proof (next_fuel_fail _ _ _ Ht Hm) as Hm'.
  apply bind_same. intros at_ s1 _. destruct (_ <=? _); [done|]. apply bind_same. intros [current|e] s2 _; [|by apply IH].
  destruct (overdue f at_); [by apply IH|]. apply bind_same. intros [r|] s3 Hrun; [|by apply IH].
  destruct (prepare_message_same _ _ _ _ _ _ Hrun) as [Htargets Hpos].
  assert (Hr : next_fuel (fail_target r) = next_fuel (fail_target f)).
  { unfold next_fuel. simpl. by rewrite Htargets, Hpos. }
  simpl. destruct (LogoutFlow.pending r) as [p|]; simpl; [|by apply IH].
  destruct (message _ _ _ _ _); [done|]. apply IH; by rewrite Hr.
Qed.

(** C40: following a flow ends: a turn for each target still to come and one more
    are enough, whatever would happen otherwise. *)
Theorem next_logout_terminates stuck n t f s :
  (next_fuel f ≤ n)%nat →
  next_target stuck n t f s = next_target (fail Error.internal) (next_fuel f) t f s.
Proof. intros Hn. by apply next_target_stable. Qed.
End runs.

(** ** Answers *)

Section answers.
Context {E : Env} {S_ : SamlPeers}.
Implicit Types (f : LogoutFlow.t) (s : St.t).

(** A flow after the answer of its current target. *)
Definition answered (ok : bool) f : LogoutFlow.t :=
  LogoutFlow.advance f (S f.(LogoutFlow.position))
    (f.(LogoutFlow.confirmed) + (if ok then 1 else 0)) (f.(LogoutFlow.failed) + (if ok then 0 else 1)).

(** The flow a response names awaits it: its request is the one made last, to the
    peer that answers, and neither the request nor the flow is out of time. *)
Definition awaits f (p : PendingLogout.t) (peer : Peer) (request : string) (at_ : Z) : Prop :=
  f.(LogoutFlow.pending) = Some p ∧ p.(PendingLogout.id) = request
  ∧ at_ < p.(PendingLogout.deadline) ∧ at_ < f.(LogoutFlow.expires_at)
  ∧ ∃ t, f.(LogoutFlow.targets) !! f.(LogoutFlow.position) = Some t ∧ t.(LogoutTarget.peer) = peer.

Lemma logout_response_run peer raw post s r s' :
  logout_response_in peer raw post s = (Ok r, s') →
  ∃ current response f p,
    peer_current peer s = (Ok current, s)
    ∧ receive_logout_response current raw post = Ok response
    ∧ lookup_flow response.(LogoutResponse.relay_state) s = (Ok f, s)
    ∧ awaits f p peer response.(LogoutResponse.request) s.(St.clock)
    ∧ s'.(St.db) !! ("saml_logout_flows", digest f.(LogoutFlow.id))
      = Some (RLogoutFlow (answered response.(LogoutResponse.success) f))
    ∧ ∀ k, k ≠ digest f.(LogoutFlow.id) →
        s'.(St.db) !! ("saml_logout_flows", k) = s.(St.db) !! ("saml_logout_flows", k).
Proof.
  unfold logout_response_in. intros Hrun. apply bind_ok in Hrun as (current & s1 & Hc & Hrun).
  pose proof (pure_run _ _ _ _ Hc) as ->. apply bind_ok in Hrun as (resp & s1 & [Hr ->]%lift_ok & Hrun).
  apply bind_ok in Hrun as (f & s1 & Hf & Hrun). pose proof (pure_run _ _ _ _ Hf) as ->.
  apply bind_ok in Hrun as (p & s1 & [Hp ->]%some_or_ok & Hrun).
  apply bind_ok in Hrun as (at_ & s1 & [-> ->]%now_ok & Hrun).
  apply bind_ok in Hrun as ([] & s1 & [Hg ->]%ensure_ok & Hrun). cbv zeta in Hrun.
  apply bind_ok in Hrun as ([] & s1 & ->%put_ok & Hrun). apply bind_ok in Hrun as ([] & s2 & Ha & [_ ->]%ret_ok).
  apply audit_event_run in Ha as (_ & _ & Ha); [|by vm_compute].
  exists current, resp, f, p. split_and!; [done..| | |].
  - destruct (_ !! _) as [t|] eqn:Ht; [|by rewrite !orb_true_r in Hg]. bools.
    split_and!; [done|done|lia|lia|by exists t].
  - rewrite Ha by done. apply lookup_insert_eq.
  - intros k Hk. rewrite Ha by done. apply lookup_insert_ne. by intros [= <-].
Qed.

(** A participant's answer counts once.  It is taken only when its flow
    awaits it; the flow then passes the target, counts it as confirmed or failed
    and awaits nothing; and as long as that flow has not made another request the
    same answer is refused. *)
Theorem logout_response_once peer raw post s r s' :
  logout_response_in peer raw post s = (Ok r, s') →
  ∃ response f p,
    lookup_flow response.(LogoutResponse.relay_state) s = (Ok f, s)
    ∧ awaits f p peer response.(LogoutResponse.request) s.(St.clock)
    ∧ s'.(St.db) !! ("saml_logout_flows", digest f.(LogoutFlow.id))
      = Some (RLogoutFlow (answered response.(LogoutResponse.success) f))
    ∧ ∀ s2, s2.(St.db) !! ("saml_logout_flows", digest response.(LogoutResponse.relay_state))
            = s'.(St.db) !! ("saml_logout_flows", digest f.(LogoutFlow.id)) →
        (peer_current peer s2).1 = (peer_current peer s).1 →
        ∃ e, logout_response_in peer raw post s2 = (Err e, s2) ∧ Error.is_client_error e = true.
Proof.
  intros (current & resp & f & p & Hc & Hr & Hf & Haw & Hs' & _)%logout_response_run.
  exists resp, f, p. split_and!; [done..|]. intros s2 Hrow Hcur. rewrite Hs' in Hrow.
  unfold logout_response_in. rewrite Hc in Hcur. simpl in Hcur.
  assert (Hc2 : peer_current peer s2 = (Ok current, s2)).
  { pose proof (pure_eq (m:=peer_current peer) s2). destruct (peer_current peer s2); simpl in *; congruence. }
  rewrite (bind_step _ _ _ _ _ Hc2). rewrite (bind_step _ _ s2 resp s2) by (unfold lift; by rewrite Hr).
  apply lookup_flow_ok in Hf as (_ & Hform & _). unfold lookup_flow. rewrite Hform.
  unfold mbind, tx_bind. cbn [ensure mret tx_ret]. unfold get. rewrite Hrow. simpl.
  destruct (_ <? _); simpl; eexists; by split.
Qed.
End answers.

(** ** Sessions an identity provider ends *)

Section source_logout.
Context {E : Env} {S_ : SamlPeers}.
Implicit Types (s : St.t).

(** The request names this session: the upstream record is of its subject and one
    of its indices, and the session is live and of this source. *)
Definition names (src fp : string) (q : SamlLogoutRequest.t) s (sid : string) (u : UpstreamSession.t)
    (x : Session.t) : Prop :=
  s.(St.db) !! ("saml_source_sessions", sid) = Some (RUpstream u)
  ∧ named_upstream q s.(St.clock) u = true
  ∧ s.(St.db) !! ("sessions", sid) = Some (RSession x)
  ∧ linked_session src fp s.(St.clock) x = true.

Lemma find_session_ok src fp q acc row s acc' s' :
  find_session src fp q acc row s = (Ok acc', s') →
  s.(St.db) !! ("saml_source_sessions", row.1) = Some (RUpstream row.2) →
  s' = s
  ∧ ((∃ x, names src fp q s row.1 row.2 x)
       ∧ acc' = ({[row.1]} ∪ acc.1, {[row.2.(UpstreamSession.index)]} ∪ acc.2)
     ∨ (∀ x, ¬ names src fp q s row.1 row.2 x) ∧ acc' = acc).
Proof.
  unfold find_session. intros Hrun Hu. apply bind_ok in Hrun as (at_ & s1 & [-> ->]%now_ok & Hrun).
  destruct (named_upstream _ _ _) eqn:Hn; simpl in Hrun.
  2: { apply ret_ok in Hrun as [-> ->]. split; [done|right; split; [|done]]. intros x (_ & Hx & _). congruence. }
  apply bind_ok in Hrun as (o & s1 & [-> Ho]%get_ok & [-> ->]%ret_ok). split; [done|].
  destruct o as [x|]; simpl in Ho.
  - destruct (linked_session _ _ _ x) eqn:Hl; [left|right].
    + split; [by exists x|done].
    + split; [|done]. intros y (_ & _ & Hy & Hly). rewrite Ho in Hy. injection Hy as ->. congruence.
  - right. split; [|done]. intros y (_ & _ & Hy & _). congruence.
Qed.
Lemma find_sessions_ok src fp q rows acc s acc' s' :
  fold_m (find_session src fp q) acc rows s = (Ok acc', s') →
  (∀ sid u, (sid, u) ∈ rows → s.(St.db) !! ("saml_source_sessions", sid) = Some (RUpstream u)) →
  s' = s
  ∧ (∀ sid, sid ∈ acc'.1 ↔ sid ∈ acc.1 ∨ ∃ u x, (sid, u) ∈ rows ∧ names src fp q s sid u x)
  ∧ ∀ i, i ∈ acc'.2 ↔ i ∈ acc.2 ∨ ∃ sid u x,
      (sid, u) ∈ rows ∧ names src fp q s sid u x ∧ u.(UpstreamSession.index) = i.
Proof.
  revert acc. induction rows as [|[sid u] rows IH]; intros acc Hrun Hrows.
  { apply ret_ok in Hrun as [-> ->]. split_and!; [done|set_solver..]. }
  apply bind_ok in Hrun as (acc1 & s1 & H1 & Hrun).
  apply find_session_ok in H1 as [-> H1]; [|apply Hrows; set_solver]. simpl in H1.
  destruct (IH _ Hrun) as (-> & Hs & Hi); [intros; apply Hrows; set_solver|]. split; [done|].
  destruct H1 as [[[x Hx] ->]|[Hno ->]]; simpl in Hs, Hi.
  - split; [intros sid'; rewrite Hs|intros i; rewrite Hi]; set_solver.
  - split; [intros sid'; rewrite Hs|intros i; rewrite Hi]; set_solver.
Qed.

Lemma list_to_set_size (l : list string) : (size (list_to_set l : gset string) ≤ length l)%nat.
Proof.
  induction l as [|a l IH]; [done|]. cbn [list_to_set length].
  rewrite size_union_alt, size_singleton.
  assert (Hsub : list_to_set l ∖ {[a]} ⊆@{gset string} list_to_set l) by set_solver.
  apply subseteq_size in Hsub. lia.
Qed.

(** The sessions taken are those named, every index names one, and the request is
    remembered. *)
Lemma take_source_logout_ok src fp st q s ids s' :
  take_source_logout src fp st q s = (Ok ids, s') →
  (∀ e, s.(St.db) !! ("saml_replays", source_replay src q) = Some (RU64 e) → e ≤ s.(St.clock))
  ∧ (∀ sid, sid ∈ ids ↔ ∃ u x, names src fp q s sid u x)
  ∧ (∀ i, i ∈ q.(SamlLogoutRequest.indices) →
       ∃ sid u x, sid ∈ ids ∧ names src fp q s sid u x ∧ u.(UpstreamSession.index) = i)
  ∧ s' = St.set_db s (<[("saml_replays", source_replay src q) := RU64 (wadd s.(St.clock) 630)]> s.(St.db)).
Proof.
  unfold take_source_logout. cbv zeta. intros Hrun.
  apply bind_ok in Hrun as (used & s1 & [-> Hu]%get_ok & Hrun).
  apply bind_ok in Hrun as (at_ & s1 & [-> ->]%now_ok & Hrun).
  apply bind_ok in Hrun as ([] & s1 & [Hg ->]%ensure_ok & Hrun).
  apply bind_ok in Hrun as ([] & s1 & [_ ->]%ensure_ok & Hrun).
  apply bind_ok in Hrun as (rows & s1 & (-> & Hin & Hall)%list_all_elem & Hrun).
  apply bind_ok in Hrun as (sf & s1 & Hf & Hrun).
  apply find_sessions_ok in Hf as (-> & Hs & Hi); [|by intros sid u ?%Hin].
  apply bind_ok in Hrun as ([] & s1 & [Hsize ->]%ensure_ok & Hrun).
  apply bind_ok in Hrun as (l & s1 & Hl & Hrun). rewrite (pure_run _ _ _ _ Hl) in Hrun.
  apply bind_ok in Hrun as ([] & s2 & [_ ->]%ensure_ok & Hrun).
  apply bind_ok in Hrun as ([] & s2 & ->%put_ok & [-> ->]%ret_ok). split_and!; [| | |done].
  - intros e He. rewrite He in Hu. destruct used as [e'|]; [|done]. injection Hu as ->. bools. lia.
  - intros sid. rewrite Hs. split; [set_solver|]. intros (u & x & Hx). right. exists u, x.
    split; [|done]. by apply Hin, Hx.
  - intros i Hq. apply Nat.eqb_eq in Hsize.
    assert (Hsub : sf.2 ⊆ list_to_set q.(SamlLogoutRequest.indices)).
    { intros j [|(sid & u & x & _ & (_ & Hn & _) & <-)]%Hi; [set_solver|].
      unfold named_upstream in Hn. bools. set_solver. }
    assert (Heq : sf.2 = list_to_set q.(SamlLogoutRequest.indices)).
    { apply set_subseteq_size_eq; [done|]. rewrite Hsize. apply list_to_set_size. }
    assert (Hif : i ∈ sf.2) by (rewrite Heq; set_solver).
    apply Hi in Hif as [|(sid & u & x & ? & ? & ?)]; [set_solver|]. exists sid, u, x.
    split; [apply Hs; right; by exists u, x|done].
Qed.

Lemma begin_logout_at ids finish s r s' b k :
  begin_logout ids finish s = (r, s') →
  b ∉ ["saml_logout_flows"; "saml_logout_sessions"; CURSORS; BOUNDS] →
  s'.(St.db) !! (b, k) = s.(St.db) !! (b, k).
Proof. intros Hrun. pose proof (touches_begin_logout ids finish). by eapply touches_at. Qed.
Lemma revoke_all_at src acc l s r s' b k :
  fold_m (revoke_found src) acc l s = (r, s') →
  b ∉ ["sessions"; "rp_sessions"; "logout_deliveries"; "ssf_deliveries"; "audit"] →
  s'.(St.db) !! (b, k) = s.(St.db) !! (b, k).
Proof.
  intros Hrun.
  assert (Ht : Touches ["sessions"; "rp_sessions"; "logout_deliveries"; "ssf_deliveries"; "audit"]
    (fold_m (revoke_found src) acc l)).
  { apply touches_fold_m. intros. apply touches_revoke_found. }
  by eapply touches_at.
Qed.

(** Ending the sessions found touches only them. *)
Lemma revoke_found_ok src acc sid s acc' s' :
  revoke_found src acc sid s = (Ok acc', s') →
  (∀ x, s.(St.db) !! ("sessions", sid) = Some (RSession x) →
       s'.(St.db) !! ("sessions", sid) = Some (RSession (revoked x)))
  ∧ (∀ k, k ≠ sid → s'.(St.db) !! ("sessions", k) = s.(St.db) !! ("sessions", k)).
Proof.
  intros Hrun. unfold revoke_found in Hrun. apply bind_ok in Hrun as (o & s1 & [-> Ho]%get_ok & Hrun).
  destruct o as [x|]; simpl in Ho.
  2: { apply ret_ok in Hrun as [_ ->]. split; [intros y Hy; congruence|done]. }
  unfold revoke_source_session in Hrun. cbv zeta in Hrun.
  apply bind_ok in Hrun as (fronts & s1 & Hf & Hrun). rewrite (pure_run _ _ _ _ Hf) in Hrun.
  apply bind_ok in Hrun as ([] & s2 & ->%put_ok & Hrun).
  assert (Htail : ∀ k, s'.(St.db) !! ("sessions", k)
    = (St.set_db s (<[("sessions", sid) := encode (revoked x)]> s.(St.db))).(St.db) !! ("sessions", k)).
  { intros k. eapply (touches_at ["rp_sessions"; "logout_deliveries"; "ssf_deliveries"; "audit"] _ _ _ _ _ _ Hrun).
    bucket. Unshelve. solve_touches. }
  split; [intros y Hy|intros k Hk]; rewrite Htail; cbn [St.db St.set_db].
  - rewrite lookup_insert_eq. rewrite Ho in Hy. by injection Hy as ->.
  - by rewrite lookup_insert_ne by congruence.
Qed.
Lemma revoke_all_ok src l acc s acc' s' :
  fold_m (revoke_found src) acc l s = (Ok acc', s') →
  ∀ k, (k ∈ l → ∀ x, s.(St.db) !! ("sessions", k) = Some (RSession x) →
          s'.(St.db) !! ("sessions", k) = Some (RSession (revoked x)))
       ∧ (k ∉ l → s'.(St.db) !! ("sessions", k) = s.(St.db) !! ("sessions", k)).
Proof.
  revert acc s. induction l as [|sid l IH]; intros acc s Hrun k; [by apply ret_ok in Hrun as [_ ->]; set_solver|].
  apply bind_ok in Hrun as (acc1 & s1 & (Hsid & Hother)%revoke_found_ok & Hrun).
  destruct (IH _ _ Hrun k) as [Hin Hout]. split.
  - intros Hk x Hx. destruct (decide (k = sid)) as [->|Hne].
    + apply Hsid in Hx. destruct (decide (sid ∈ l)) as [Hl|Hl]; [by rewrite (Hin Hl _ Hx)|by rewrite Hout].
    + apply elem_of_cons in Hk as [?|Hk]; [done|]. apply Hin; [done|]. by rewrite Hother.
  - intros [Hne Hl]%not_elem_of_cons. rewrite Hout by done. by apply Hother.
Qed.

End source_logout.

(** ** An example *)

Module SamlDemo.
#[global] Program Instance peers : @SamlPeers Demo.env := {|
  peer_current p := mret (Current.mk "https://id.test" "https://id.test" "https://sp.test"
                            (Some "https://sp.test/slo") None);
  logout_request_xml c t mid to at_ until := Ok ("request for " +:+ t.(LogoutTarget.name_id));
  logout_response_xml c r to mid at_ partial := Ok "response";
  message c xml relay use_post field := Ok (Redirect (field +:+ "=" +:+ xml));
  receive_logout_response c raw use_post := Ok (LogoutResponse.mk "_id-0" raw true);
  is_response raw := negb (String.eqb raw "request");
  receive_logout c raw use_post := Ok (SamlLogoutRequest.mk "q-1" "amy@corp" None ["ix-1"] None);
|}.

Definition ticket : string := "ticket_0123456789_0123456789_0123456789_abc".
Definition sp : Peer := PeerClient "sp" "fp".
Definition flow : LogoutFlow.t :=
  LogoutFlow.mk ticket 1600 [LogoutTarget.mk sp "amy" "persistent" "ix-9"] 0 None 0 0
    (Finish.mk None None None ∅).
Definition flow_state : St.t :=
  St.mk {[("saml_logout_flows", @digest Demo.env ticket) := RLogoutFlow flow]} 1000 0 None.
(** The request is made, and then answered. *)
Definition asked : St.t := (@next_reply Demo.env peers ticket flow_state).2.
Definition done_ : Result Reply * St.t := @logout_response_in Demo.env peers sp ticket false asked.

(** A session of a SAML source, with a relying party, and the source. *)
Definition source : Source.t :=
  Source.mk (Some (SourceSaml.mk "key" "pem" [] Persistent None None None false None None))
    None "corp" "Corp" "https://corp.test" "" "" "id" AuthNone [] ∅ true false ∅ ∅ false.
Definition identity (at_session : string) : Identity.t :=
  Identity.mk [] (Some (SourceIdentity.mk "corp" "#corp" "link" None false)) "u-1" 0 false 900 at_session.
Definition session (revoked : bool) : Session.t := Session.mk "s-1" "#token" (identity "s-1") 5000 revoked.
Definition rp : SamlRpSession.t :=
  SamlRpSession.mk (Some "ix-9") "https://id.test" "fp" "sp" "amy" Persistent (identity "s-1") 5000.
Definition upstream : UpstreamSession.t := UpstreamSession.mk (Some "amy@corp") "ix-1" None.
Definition records (over : bool) : gmap (string * string) row :=
  <[("sessions", "s-1") := RSession (session over)]> (<[("saml_sessions", "rp-1") := RSamlSession rp]>
    (<[("sources", "corp") := RSource source]> {[("saml_source_sessions", "s-1") := RUpstream upstream]})).
Definition linked : St.t := St.mk (records false) 1000 0 None.
Definition ended : St.t := St.mk (records true) 1000 0 None.
Definition begun : Result Reply * St.t := @begin_logout Demo.env peers {["s-1"]} Finish.empty ended.
Definition begun_flow : LogoutFlow.t :=
  LogoutFlow.mk "r0" 1600
    [LogoutTarget.mk sp "amy" (name_id_uri Persistent) "ix-9";
     LogoutTarget.mk (PeerSource "corp" "#corp") "amy@corp" (name_id_uri Persistent) "ix-1"]
    0 None 0 0 Finish.empty.
Definition source_ended : Result Reply * St.t := @source_logout Demo.env peers "corp" "request" false linked.
End SamlDemo.

Example flow_completes :
  SamlDemo.done_.1 = Ok (Redirect (@flow_url Demo.env SamlDemo.ticket))
  ∧ (@logout_flow_status Demo.env SamlDemo.ticket SamlDemo.done_.2).1
    = Ok (Json.obj [("protocol", JStr "saml"); ("logged_out", JBool true); ("status", JStr "complete");
                    ("confirmed", JNum 1); ("failed", JNum 0); ("remaining", JNum 0);
                    ("expires_at", JNum 1600);
                    ("resume_uri", JStr (@flow_url Demo.env SamlDemo.ticket)); ("retry_after", JNull)]).
Proof. split; vm_compute; reflexivity. Qed.


Lemma next_logout_terminates_witness :
  @next_target Demo.env SamlDemo.peers (mret (LogoutPage JNull)) 7 SamlDemo.ticket SamlDemo.flow SamlDemo.flow_state
  = @next_target Demo.env SamlDemo.peers (fail Error.internal) 2 SamlDemo.ticket SamlDemo.flow SamlDemo.flow_state.
Proof.
  apply (@next_logout_terminates Demo.env SamlDemo.peers (mret (LogoutPage JNull)) 7 SamlDemo.ticket
    SamlDemo.flow SamlDemo.flow_state). vm_compute. lia.
Defined.

Lemma logout_response_once_witness :
  ∃ response f p,
    @lookup_flow Demo.env response.(LogoutResponse.relay_state) SamlDemo.asked = (Ok f, SamlDemo.asked)
    ∧ awaits f p SamlDemo.sp response.(LogoutResponse.request) 1000.
Proof.
  destruct (@logout_response_once Demo.env SamlDemo.peers SamlDemo.sp SamlDemo.ticket false SamlDemo.asked
    (Redirect (@flow_url Demo.env SamlDemo.ticket)) SamlDemo.done_.2) as (resp & f & p & Hf & Haw & _).
  - vm_compute. reflexivity.
  - exists resp, f, p. exact (conj Hf Haw).
Defined.


(** The session named is revoked, and its relying party is asked next. *)
Example source_logout_example :
  SamlDemo.source_ended.2.(St.db) !! ("sessions", "s-1") = Some (RSession (SamlDemo.session true)).
Proof. vm_compute. reflexivity. Qed.
