(* ===== verification/Management.v ===== *)
(** * Management mutations (src/src/core.rs, agent.rs, context.rs)

    Who acts behind a management credential, and the writer every management
    mutation goes through: authority first, then the receipt of an earlier attempt
    with the same idempotency key, then the revision the caller saw, and only then
    the mutation, whose result is kept for a retry. *)

From S2P Require Import Prelude Json Model Store Env Provider Jose Delegation Agents Identities Device.

#[local] Set Warnings "-clear-no-such-hyp".

(** [reconciliation::validate_apply_lease]: outside a dispatched reconciliation
    run it accepts; inside one it checks the run's lease. *)
Class ApplyLease {E : Env} := {
  validate_apply_lease : Principal.t → tx unit;
  validate_apply_lease_pure p :: Pure (validate_apply_lease p);
}.

Definition BROWSER_SESSION : string := "browser-session ".
Definition browser_cookie (token : string) : option string := Str.strip_prefix BROWSER_SESSION token.

(** [serde_json::to_value] of grants and permissions. *)
Definition human_role_json (r : HumanRole) : json :=
  JStr match r with
       | HelpDesk => "help_desk"
       | ApplicationOwner => "application_owner"
       | DirectoryOperator => "directory_operator"
       | Auditor => "auditor"
       | SecurityAdministrator => "security_administrator"
       end.
Definition human_grant_json (g : HumanGrant.t) : json :=
  Json.obj [("role", human_role_json g.(HumanGrant.role)); ("scope", JStr g.(HumanGrant.scope));
            ("target_id", JStr g.(HumanGrant.target_id))].
Definition permission_json (p : Permission.t) : json :=
  Json.obj [("action", JStr p.(Permission.action)); ("resource", JStr p.(Permission.resource))].

Section management.
Context {E : Env} {L : ApplyLease}.

(** [Core::browser_user]. *)
Definition browser_user (cookie : string) : tx (User.t * Session.t) :=
  s ← browser_session (Some cookie);
  s ← some_or s Error.unauthorized;
  user ← identity_user s.(Session.identity);
  mret (user, s).

(** [Core::principal]. *)
Definition human_principal (token : string) : tx Principal.t :=
  us ← match browser_cookie token with Some cookie => browser_user cookie | None => session token end;
  let user := us.1 in
  grants ← (if user.(User.admin) then mret [] else Human.active user.(User.id));
  _ ← ensure (user.(User.admin) || negb (length grants =? 0)%nat) Error.forbidden;
  mret (Principal.mk user.(User.id) false (negb user.(User.admin)) grants []).
Definition principal (token : string) : tx Principal.t :=
  if Str.starts_with token "ri_agent_" then agent_principal token else human_principal token.

Definition management (token action resource : string) : tx Principal.t :=
  actor ← principal token;
  _ ← lift (Principal.require actor action resource);
  _ ← validate_apply_lease actor;
  mret actor.

Definition management_permissions (actor : Principal.t) : tx json :=
  if actor.(Principal.delegated) then
    generation ← get Z "human_grant_generations" actor.(Principal.id);
    mret (Json.obj [("human_grants", JArr (human_grant_json <$> actor.(Principal.grants)));
                    ("generation", JNum (default 0 generation))])
  else mret (JArr (permission_json <$> actor.(Principal.permissions))).

(** The key of the receipt of a keyed request. *)
Definition receipt_key (actor : Principal.t) (context : option RequestContext.t) : option string :=
  (λ k, digest (actor.(Principal.id) +:+ NUL +:+ k)) <$> (context ≫= RequestContext.idempotency_key).
Definition context_fingerprint (context : option RequestContext.t) : string :=
  default "" (RequestContext.fingerprint <$> context).

(** [Core::mutation_checked], without [Store::write] around it. *)
Definition mutation_checked (token : string) (check : Principal.t → option RequestContext.t → tx unit)
    (f : tx json) : tx json :=
  actor ← principal token;
  context ← current;
  let key := receipt_key actor context in
  permissions ← management_permissions actor;
  replayed ← match key with
             | Some key => replay_receipt key (context_fingerprint context) permissions
             | None => mret None
             end;
  match replayed with
  | Some result => mret result
  | None =>
      _ ← check actor context;
      result ← f;
      _ ← match key with
          | Some key => save_receipt key (context_fingerprint context) permissions result
          | None => mret ()
          end;
      mret result
  end.

(** The precondition of [Core::mutation]. *)
Definition precondition_required : Error.t :=
  Error.new 428 "precondition_required" "Scoped mutations require If-Match with the current revision".
Definition revision_check (actor : Principal.t) (context : option RequestContext.t) : tx unit :=
  match context with
  | None => mret ()
  | Some c =>
      _ ← ensure (negb ((actor.(Principal.agent) || actor.(Principal.delegated))
                        && bool_decide (c.(RequestContext.revision) = None))) precondition_required;
      revision ← get Z "meta" "revision";
      ensure (match c.(RequestContext.revision) with
              | Some r => r =? default 0 revision
              | None => true
              end) (Error.conflict "Configuration revision changed")
  end.
Definition mutation (token : string) (f : tx json) : tx json := mutation_checked token revision_check f.
End management.

(** ** Replays and revisions *)

Section mutations.
Context {E : Env} {L : ApplyLease}.
Implicit Types (s : St.t).

#[global] Instance pure_principal token : Pure (principal token).
Proof. unfold principal, human_principal, browser_user. solve_pure. Qed.
#[global] Instance pure_management_permissions a : Pure (management_permissions a).
Proof. unfold management_permissions. solve_pure. Qed.
#[global] Instance pure_revision_check a c : Pure (revision_check a c).
Proof. unfold revision_check. solve_pure. Qed.

(** A stored receipt answers the request. *)
Definition answers (r : Receipt.t) (context : option RequestContext.t) (permissions : json) (at_ : Z) : Prop :=
  at_ < r.(Receipt.expires_at) ∧ r.(Receipt.fingerprint) = context_fingerprint context
  ∧ r.(Receipt.permissions) = permissions.

Lemma replay_receipt_ok key fp perms s o s' :
  replay_receipt key fp perms s = (Ok o, s') →
  s' = s
  ∧ match o with
    | Some v => ∃ r, s.(St.db) !! ("receipts", key) = Some (RReceipt r) ∧ r.(Receipt.result) = v
        ∧ s.(St.clock) < r.(Receipt.expires_at) ∧ r.(Receipt.fingerprint) = fp
        ∧ r.(Receipt.permissions) = perms
    | None => s.(St.db) !! ("receipts", key) = None
    end.
Proof.
  intros Hrun. pose proof (pure_run _ _ _ _ Hrun) as ->. split; [done|]. unfold replay_receipt in Hrun.
  apply bind_ok in Hrun as (o' & s1 & [-> Ho]%get_ok & Hrun). destruct o' as [r|]; simpl in Ho.
  - tx_inv. bools. exists r. split_and!; try done; lia.
  - by apply ret_ok in Hrun as [-> _].
Qed.
Lemma replay_receipt_run key fp perms s r :
  s.(St.db) !! ("receipts", key) = Some (RReceipt r) → s.(St.clock) < r.(Receipt.expires_at) →
  r.(Receipt.fingerprint) = fp → r.(Receipt.permissions) = perms →
  replay_receipt key fp perms s = (Ok (Some r.(Receipt.result)), s).
Proof.
  intros Hr He <- <-. unfold replay_receipt. tx_get. unfold mbind, tx_bind, now, ensure.
  destruct (Z.leb_spec r.(Receipt.expires_at) s.(St.clock)); [lia|]. simpl.
  rewrite String.eqb_refl. simpl. by rewrite bool_decide_true.
Qed.

(** What a mutation did: it answered from a receipt, or it passed the check and
    ran, in the state it found. *)
Definition ran (actor : Principal.t) (permissions : json) (check : Principal.t → option RequestContext.t → tx unit)
    (f : tx json) s v s' : Prop :=
  check actor s.(St.ctx) s = (Ok (), s)
  ∧ ∃ s1, f s = (Ok v, s1)
    ∧ match receipt_key actor s.(St.ctx) with
      | Some k => s' = St.set_db s1 (<[("receipts", k) := RReceipt (Receipt.mk (context_fingerprint s.(St.ctx))
                    permissions v (wadd s1.(St.clock) 86400))]> s1.(St.db))
      | None => s' = s1
      end.
Definition replayed (actor : Principal.t) (permissions : json) s v s' : Prop :=
  s' = s ∧ ∃ k r, receipt_key actor s.(St.ctx) = Some k
    ∧ s.(St.db) !! ("receipts", k) = Some (RReceipt r) ∧ r.(Receipt.result) = v
    ∧ answers r s.(St.ctx) permissions s.(St.clock).

Lemma mutation_checked_run token check f s v s' :
  (∀ a c, Pure (check a c)) →
  mutation_checked token check f s = (Ok v, s') →
  ∃ actor permissions, principal token s = (Ok actor, s)
    ∧ management_permissions actor s = (Ok permissions, s)
    ∧ (replayed actor permissions s v s' ∨ ran actor permissions check f s v s').
Proof.
  intros Hpure. unfold mutation_checked. intros Hrun.
  apply bind_ok in Hrun as (actor & s1 & Ha & Hrun). pose proof (pure_run _ _ _ _ Ha) as ->.
  apply bind_ok in Hrun as (context & s1 & [-> ->]%current_ok & Hrun). cbv zeta in Hrun.
  apply bind_ok in Hrun as (perms & s1 & Hp & Hrun). pose proof (pure_run _ _ _ _ Hp) as ->.
  exists actor, perms. split; [done|]. split; [done|].
  apply bind_ok in Hrun as (o & s1 & Ho & Hrun).
  destruct (receipt_key actor (St.ctx s)) as [k|] eqn:Hk.
  - apply replay_receipt_ok in Ho as [-> Ho]. destruct o as [w|].
    + apply ret_ok in Hrun as [-> ->]. destruct Ho as (r & Hr & Hv & ? & ? & ?). left. split; [done|].
      by exists k, r.
    + apply bind_ok in Hrun as ([] & s1 & Hc & Hrun). pose proof (pure_run _ _ _ _ Hc) as ->.
      apply bind_ok in Hrun as (w & s1 & Hf & Hrun). unfold save_receipt in Hrun. tx_inv.
      right. split; [done|]. exists s1. by rewrite Hk.
  - apply ret_ok in Ho as [-> ->]. apply bind_ok in Hrun as ([] & s1 & Hc & Hrun).
    pose proof (pure_run _ _ _ _ Hc) as ->. apply bind_ok in Hrun as (w & s1 & Hf & Hrun). tx_inv.
    right. split; [done|]. exists s1. by rewrite Hk.
Qed.

(** C10: a management mutation runs only for a live principal, and only against the
    revision it was decided on: an agent or a delegated administrator must name
    the current revision, anyone who names one must name the current one, and the
    mutation sees the very state that was checked.  Otherwise an answer comes from
    a live receipt of the same request under the same permissions, and nothing
    changes. *)
Theorem mutation_sound token f s v s' :
  mutation token f s = (Ok v, s') →
  ∃ actor permissions, principal token s = (Ok actor, s)
    ∧ management_permissions actor s = (Ok permissions, s)
    ∧ (replayed actor permissions s v s'
       ∨ ran actor permissions revision_check f s v s'
         ∧ ∀ c, s.(St.ctx) = Some c →
             (actor.(Principal.agent) || actor.(Principal.delegated) = true →
                is_Some c.(RequestContext.revision))
             ∧ ∀ r, c.(RequestContext.revision) = Some r →
                 s.(St.db) !! ("meta", "revision") = Some (RU64 r)
                 ∨ s.(St.db) !! ("meta", "revision") = None ∧ r = 0).
Proof.
  intros (actor & perms & Ha & Hp & Hrun)%mutation_checked_run; [|apply _]. exists actor, perms.
  split; [done|]. split; [done|]. destruct Hrun as [Hrun|Hrun]; [by left|right]. split; [done|].
  intros c Hc. destruct Hrun as [Hcheck _]. rewrite Hc in Hcheck. unfold revision_check in Hcheck.
  apply bind_ok in Hcheck as ([] & s1 & [H1 ->]%ensure_ok & Hcheck).
  apply bind_ok in Hcheck as (o & s1 & [-> Ho]%get_ok & [H2 _]%ensure_ok). split.
  - intros Hsc. rewrite Hsc in H1. simpl in H1. apply negb_true_iff, bool_decide_eq_false in H1.
    by destruct (RequestContext.revision c).
  - intros r Hr. rewrite Hr in H2. apply Z.eqb_eq in H2. subst r. destruct o as [z|]; simpl in *; [by left|by right].
Qed.

(** A keyed mutation happens once.  After it succeeded, the same request of the
    same principal under the same permissions is answered with the same result
    while its receipt is kept, whatever the mutation would do now, and changes
    nothing. *)
Theorem keyed_mutation_once token f g s v s1 s2 actor permissions c key r :
  s.(St.ctx) = Some c → c.(RequestContext.idempotency_key) = Some key →
  principal token s = (Ok actor, s) → management_permissions actor s = (Ok permissions, s) →
  mutation token f s = (Ok v, s1) →
  s2.(St.ctx) = Some c →
  principal token s2 = (Ok actor, s2) → management_permissions actor s2 = (Ok permissions, s2) →
  let k := digest (actor.(Principal.id) +:+ NUL +:+ key) in
  s2.(St.db) !! ("receipts", k) = s1.(St.db) !! ("receipts", k) →
  s2.(St.db) !! ("receipts", k) = Some (RReceipt r) → s2.(St.clock) < r.(Receipt.expires_at) →
  mutation token g s2 = (Ok v, s2).
Proof.
  intros Hc Hkey Ha Hp Hrun Hc2 Ha2 Hp2 k Hsame Hr Hlive.
  assert (Hk : receipt_key actor (Some c) = Some k) by (unfold receipt_key; simpl; by rewrite Hkey).
  apply mutation_checked_run in Hrun as (actor' & perms' & Ha' & Hp' & Hrun); [|apply _].
  rewrite Ha in Ha'. injection Ha' as <-. rewrite Hp in Hp'. injection Hp' as <-.
  assert (Hrow : r.(Receipt.result) = v ∧ r.(Receipt.fingerprint) = context_fingerprint (Some c)
    ∧ r.(Receipt.permissions) = permissions).
  { destruct Hrun as [(-> & k' & r' & Hk' & Hr' & Hv & _ & Hfp & Hpm)|(_ & s0 & _ & Hs1)]; rewrite Hc in *.
    - rewrite Hk in Hk'. injection Hk' as <-. rewrite Hsame, Hr' in Hr. by injection Hr as ->.
    - rewrite Hk in Hs1. subst s1. rewrite Hsame in Hr. cbn [St.db St.set_db] in Hr.
      rewrite lookup_insert_eq in Hr. by injection Hr as <-. }
  destruct Hrow as (Hv & Hfp & Hpm). unfold mutation, mutation_checked.
  rewrite (bind_step _ _ _ _ _ Ha2). unfold mbind at 1, tx_bind at 1, current. rewrite Hc2. cbv zeta.
  rewrite (bind_step _ _ _ _ _ Hp2), Hk.
  rewrite (bind_step _ _ _ _ _ (replay_receipt_run _ _ _ _ _ Hr Hlive Hfp Hpm)). by rewrite Hv.
Qed.
End mutations.

(** ** An example *)

Module ManagementDemo.
(** Amy holds a help-desk grant; her request is keyed and names revision 0. *)
Definition context : RequestContext.t := RequestContext.mk "req-1" None (Some "key-1") "fp" (Some 0) None None.
Definition state : St.t :=
  St.mk (<[("session_tokens", "#tok") := RString "sess-1"]>
           (<[("human_grants", "u-amy") := RHumanGrants [DelegationDemo.grant]]>
             (<[("users", "u-bob") := RUser (DelegationDemo.user "u-bob" "bob")]>
               (<[("usernames", "bob") := RString "u-bob"]>
                 (<[("elevation_provenance", "u-amy") :=
                      RProvenance (ElevationProvenance.mk "u-amy" (@identity_stamp Demo.env FlowDemo.user)
                                     Bootstrap 100)]> FlowDemo.db))))) 1000 0 (Some context).
Definition change : tx json := _ ← put "meta" "note" "changed"; mret (JStr "done").
Definition changed : Result json * St.t := @mutation Demo.env "tok" change state.
Definition actor : Principal.t := Principal.mk "u-amy" false true [DelegationDemo.grant] [].
Definition permissions : json :=
  Json.obj [("human_grants", JArr [human_grant_json DelegationDemo.grant]); ("generation", JNum 0)].
Definition receipt : Receipt.t := Receipt.mk "fp" permissions (JStr "done") 87400.
End ManagementDemo.

(** Without a revision the same mutation is refused. *)
Example scoped_needs_revision :
  ManagementDemo.changed.1 = Ok (JStr "done")
  ∧ (@mutation Demo.env "tok" ManagementDemo.change
       (St.mk ManagementDemo.state.(St.db) 1000 0
          (Some (RequestContext.mk "req-1" None None "fp" None None None)))).1 = Err precondition_required.
Proof. split; vm_compute; reflexivity. Qed.

Lemma mutation_sound_witness :
  ∃ actor permissions, @principal Demo.env "tok" ManagementDemo.state = (Ok actor, ManagementDemo.state)
    ∧ @management_permissions actor ManagementDemo.state = (Ok permissions, ManagementDemo.state).
Proof.
  destruct (@mutation_sound Demo.env "tok" ManagementDemo.change ManagementDemo.state (JStr "done")
    ManagementDemo.changed.2) as (actor & permissions & Ha & Hp & _).
  - vm_compute. reflexivity.
  - exists actor, permissions. exact (conj Ha Hp).
Defined.

Lemma keyed_mutation_once_witness :
  @mutation Demo.env "tok" (fail Error.internal) ManagementDemo.changed.2
  = (Ok (JStr "done"), ManagementDemo.changed.2).
Proof.
  apply (@keyed_mutation_once Demo.env "tok" ManagementDemo.change (fail Error.internal) ManagementDemo.state
    (JStr "done") ManagementDemo.changed.2 ManagementDemo.changed.2 ManagementDemo.actor
    ManagementDemo.permissions ManagementDemo.context "key-1" ManagementDemo.receipt).
  all: try (vm_compute; reflexivity).
  all: reflexivity.
Defined.
