(* ===== verification/Sessions.v ===== *)
(** * Ending sessions (src/src/management/sessions.rs, management/personal.rs,
    management/agent_applications.rs, assembly/portal_self_service.rs)

    One writer ends the sessions that terminals, agents and browsers ask to end.
    It checks the caller against the live records of the same transaction, marks
    the session revoked, ends its relying-party sessions, announces the end to
    shared-signal streams and starts SAML logout.  A keyed request that ended
    another session than the caller's own can be retried. *)

From S2P Require Import Prelude Json Model Store Env Provider Jose Agents Identities Device Logout Credentials Maintenance Signals SessionProtocol SamlLogout Management.

#[local] Set Warnings "-clear-no-such-hyp".

(** [portal::self_service::Binding]. *)
Module Binding.
Record t := mk { expected_user_id : string; expected_session_id : string }.
End Binding.

(** [RevokeIntent]. *)
Inductive RevokeIntent :=
| LogoutIntent (token : string)
| BrowserSignOut (cookie : option string) (browser_only : bool)
| BearerOne (token target_id : string)
| BrowserOne (cookie : option string) (binding : Binding.t) (target_id : string)
| BrowserAll (cookie : option string) (binding : Binding.t).

(** [RevokeOutcome]. *)
Module RevokeOutcome.
Record t := mk { body : json; clear_browser_cookie : bool }.
Definition plain (body : json) : t := mk body false.
End RevokeOutcome.

(** [SessionReceipt]. *)
Module SessionReceipt.
Record t := mk { key : string; fingerprint : string; scope : json }.
End SessionReceipt.

Section sessions.
Context {E : Env} {L : ApplyLease} {S_ : SamlPeers}.

(** [SessionReceipt::current], [replay] and [save]. *)
Definition session_receipt (caller : string) (scope : json) : tx (option SessionReceipt.t) :=
  context ← current;
  mret (c ← context;
        (λ key, SessionReceipt.mk
           (digest ("session.revoke" +:+ NUL +:+ caller +:+ NUL +:+ key))
           c.(RequestContext.fingerprint) scope) <$> c.(RequestContext.idempotency_key)).
Definition replay_session (r : option SessionReceipt.t) : tx (option json) :=
  match r with
  | Some r => replay_receipt r.(SessionReceipt.key) r.(SessionReceipt.fingerprint) r.(SessionReceipt.scope)
  | None => mret None
  end.
Definition save_session (r : option SessionReceipt.t) (body : json) : tx unit :=
  match r with
  | Some r => save_receipt r.(SessionReceipt.key) r.(SessionReceipt.fingerprint)
                r.(SessionReceipt.scope) body
  | None => mret ()
  end.

(** [signin::bearer_backed]. *)
Definition bearer_backed (s : Session.t) : tx bool :=
  sid ← get string "session_tokens" s.(Session.token_hash);
  mret (bool_decide (sid = Some s.(Session.id))).

(** ** Ending one session *)

Definition session_missing : Error.t := Error.missing "Session not found".
Definition revoke_one (actor : string) (target : Session.t) : tx unit :=
  _ ← ensure (negb target.(Session.revoked)) session_missing;
  _ ← put "sessions" target.(Session.id) (revoked target);
  _ ← queue_session target.(Session.id);
  _ ← enqueue ∅ target.(Session.identity).(Identity.user_id) SESSION_REVOKED "";
  audit actor "session.revoke" target.(Session.id).
Definition revoke_one_api (actor : string) (target : Session.t) : tx json :=
  _ ← revoke_one actor target;
  propagation ← saml_redirect target.(Session.id) None;
  mret (Json.obj [("revoked", JBool true);
                  ("saml_logout_url", Json.index propagation "redirect_uri");
                  ("saml_logout", propagation)]).
Definition propagate (ids : gset string) (frontchannel : list string) : tx json :=
  reply ← begin_logout ids (Finish.mk None None None (list_to_set frontchannel));
  lift (reply_value reply).
Definition revoke_one_browser (actor : string) (target : Session.t) : tx json :=
  frontchannel ← frontchannel_urls target.(Session.id);
  _ ← revoke_one actor target;
  propagate {[target.(Session.id)]} frontchannel.

(** ** The caller *)

(** [Core::verified_browser]. *)
Definition account_changed : Error.t :=
  Error.new CONFLICT "account_changed" "Your signed-in account changed. Reload this page.".
Definition session_changed : Error.t :=
  Error.new CONFLICT "session_changed" "Your browser session changed. Reload this page.".
Definition browser_reauthentication : Error.t :=
  Error.new FORBIDDEN "reauthentication_required"
    "Sign in again in this browser before changing sessions or consent.".
Definition verified_browser (cookie : option string) (binding : Binding.t) : tx (User.t * Session.t) :=
  s ← browser_session cookie;
  s ← some_or s Error.unauthorized;
  user ← identity_user s.(Session.identity);
  _ ← ensure (String.eqb binding.(Binding.expected_user_id) user.(User.id)) account_changed;
  _ ← ensure (String.eqb binding.(Binding.expected_session_id) s.(Session.id)) session_changed;
  backed ← bearer_backed s;
  at_ ← now;
  _ ← ensure (negb ((backed : bool)
                    || (FRESH_SECONDS <? sat_sub at_ s.(Session.identity).(Identity.auth_time))))
        browser_reauthentication;
  _ ← require_factor_session user s;
  mret (user, s).

(** [session]: the session a request names. *)
Definition named_session (id : string) : tx Session.t :=
  s ← get Session.t "sessions" id; some_or s session_missing.

(** What an agent may end: the session it names, or the sessions of an account. *)
Definition agent_target (actor : Principal.t) (target_id : string) : tx Session.t :=
  let by_id := Principal.allows actor "session.revoke" ("session/" +:+ target_id) in
  target ← get Session.t "sessions" target_id;
  target ← some_or target (if by_id then session_missing else Error.forbidden);
  _ ← (if by_id then mret ()
       else
         owner ← get User.t "users" target.(Session.identity).(Identity.user_id);
         owner ← some_or owner Error.forbidden;
         lift (Principal.require actor "sessions.revoke" ("user/" +:+ owner.(User.username))));
  _ ← validate_apply_lease actor;
  mret target.

(** A replayed body, or the body of ending the session now. *)
Definition replay_or (receipt : option SessionReceipt.t) (m : tx json) : tx json :=
  replayed ← replay_session receipt;
  match replayed with
  | Some body => mret body
  | None => body ← m; _ ← save_session receipt body; mret body
  end.

Definition revoke_as_agent (token target_id : string) : tx json :=
  actor ← principal token;
  target ← agent_target actor target_id;
  receipt ← session_receipt actor.(Principal.id)
              (Json.obj [("authority", JStr "agent"); ("actor", JStr actor.(Principal.id));
                         ("permissions", JArr (permission_json <$> actor.(Principal.permissions)))]);
  replay_or receipt (revoke_one_api actor.(Principal.id) target).

Definition other_receipt (own : bool) (caller : string) (scope : json) : tx (option SessionReceipt.t) :=
  if own then mret None else session_receipt caller scope.
Definition revoke_as_human (token target_id : string) : tx json :=
  us ← session token;
  let user := us.1 in
  let current := us.2 in
  target ← named_session target_id;
  _ ← ensure (String.eqb target.(Session.identity).(Identity.user_id) user.(User.id)
              || user.(User.admin)) Error.forbidden;
  receipt ← other_receipt (String.eqb target.(Session.id) current.(Session.id))
              ("human:" +:+ user.(User.id) +:+ ":" +:+ current.(Session.id))
              (Json.obj [("authority", JStr "bearer"); ("user_id", JStr user.(User.id));
                         ("session_id", JStr current.(Session.id)); ("admin", JBool user.(User.admin))]);
  replay_or receipt (revoke_one_api user.(User.id) target).

(** ** Browsers *)

(** The body of a selected browser revocation. *)
Definition end_selected (user : User.t) (target : Session.t) (signed_out : bool) (cookie : string) : tx json :=
  _ ← ensure (negb target.(Session.revoked)) session_missing;
  propagation ← revoke_one_browser user.(User.id) target;
  _ ← (if signed_out then remove "browser_sessions" (digest cookie) else mret ());
  mret (Json.obj [("revoked", JBool true); ("signed_out", JBool signed_out);
                  ("logout_url", Json.index propagation "redirect_uri"); ("propagation", propagation)]).
Definition revoke_selected (cookie : option string) (binding : Binding.t) (target_id : string) :
    tx RevokeOutcome.t :=
  cookie ← some_or cookie Error.unauthorized;
  us ← verified_browser (Some cookie) binding;
  let user := us.1 in
  let current := us.2 in
  target ← get Session.t "sessions" target_id;
  target ← some_or (match target with
                    | Some t => if String.eqb t.(Session.identity).(Identity.user_id) user.(User.id)
                                then Some t else None
                    | None => None
                    end) session_missing;
  let signed_out := String.eqb target.(Session.id) current.(Session.id) in
  receipt ← other_receipt signed_out ("browser:" +:+ user.(User.id) +:+ ":" +:+ current.(Session.id))
              (Json.obj [("authority", JStr "browser"); ("user_id", JStr user.(User.id));
                         ("session_id", JStr current.(Session.id))]);
  replayed ← replay_session receipt;
  match replayed with
  | Some body => mret (RevokeOutcome.plain body)
  | None =>
      body ← end_selected user target signed_out cookie;
      _ ← save_session receipt body;
      mret (RevokeOutcome.mk body signed_out)
  end.

(** [agent_applications::revoke_owner_all]. *)
Definition revoke_approval (at_ : Z) (a : Approval.t) : Approval.t :=
  Approval.mk a.(Approval.id) a.(Approval.agent_id) a.(Approval.owner_id) a.(Approval.client_id)
    a.(Approval.scopes) a.(Approval.resource) a.(Approval.mfa) a.(Approval.owner_epoch)
    a.(Approval.source) a.(Approval.created_at) a.(Approval.expires_at) (Some at_).
Definition revoke_owner_all (owner_id : string) : tx unit :=
  at_ ← now;
  rows ← list_all Approval.t AgentApps.APPROVALS;
  for_each (λ kr : string * Approval.t,
              if String.eqb kr.2.(Approval.owner_id) owner_id
                 && bool_decide (kr.2.(Approval.revoked_at) = None)
              then put AgentApps.APPROVALS kr.1 (revoke_approval at_ kr.2) else mret ()) rows.

(** The sessions ended so far and the addresses to call for them. *)
Definition end_owned (user_id : string) (acc : gset string * gset string) (row : string * Session.t) :
    tx (gset string * gset string) :=
  let target := row.2 in
  if negb (String.eqb target.(Session.identity).(Identity.user_id) user_id) || target.(Session.revoked)
  then mret acc
  else
    urls ← frontchannel_urls row.1;
    _ ← put "sessions" row.1 (revoked target);
    _ ← audit user_id "session.revoke" row.1;
    mret ({[row.1]} ∪ acc.1, acc.2 ∪ list_to_set urls).
Definition revoke_everything (cookie : option string) (binding : Binding.t) : tx RevokeOutcome.t :=
  cookie ← some_or cookie Error.unauthorized;
  us ← verified_browser (Some cookie) binding;
  let uid := us.1.(User.id) in
  rows ← list_all Session.t "sessions";
  ended ← fold_m (end_owned uid) (∅, ∅) rows;
  _ ← queue_user uid;
  _ ← enqueue ∅ uid SESSION_REVOKED "";
  _ ← revoke_owner_all uid;
  _ ← audit uid "session.revoke_all" uid;
  propagation ← propagate ended.1 (btree_iter ended.2);
  _ ← remove "browser_sessions" (digest cookie);
  mret (RevokeOutcome.mk
          (Json.obj [("revoked", JBool true); ("signed_out", JBool true);
                     ("sessions_revoked", JNum (Z.of_nat (size ended.1)));
                     ("logout_url", Json.index propagation "redirect_uri"); ("propagation", propagation)])
          true).

(** A browser that only borrows a terminal's session is unmapped from it. *)
Definition sign_out_body (s : option Session.t) (browser_only : bool) : tx json :=
  match s with
  | None => mret (Json.obj [("revoked", JBool true)])
  | Some s =>
      backed ← (if browser_only then bearer_backed s else mret false);
      if (backed : bool) then mret (Json.obj [("revoked", JBool false)])
      else
        revoked ← revoke_one_api s.(Session.identity).(Identity.user_id) s;
        mret (Json.obj [("revoked", JBool true);
                        ("saml_logout_url", Json.index revoked "saml_logout_url")])
  end.
Definition sign_out (cookie : option string) (browser_only : bool) : tx RevokeOutcome.t :=
  s ← browser_session cookie;
  body ← sign_out_body s browser_only;
  _ ← match cookie with
      | Some cookie => remove "browser_sessions" (digest cookie)
      | None => mret ()
      end;
  mret (RevokeOutcome.mk body true).

(** ** The writer *)

Definition revoke_sessions (intent : RevokeIntent) : tx RevokeOutcome.t :=
  match intent with
  | LogoutIntent token =>
      us ← session token;
      body ← revoke_one_api us.1.(User.id) us.2;
      mret (RevokeOutcome.plain body)
  | BrowserSignOut cookie browser_only => sign_out cookie browser_only
  | BearerOne token target_id =>
      body ← (if Str.starts_with token "ri_agent_" then revoke_as_agent token target_id
              else revoke_as_human token target_id);
      mret (RevokeOutcome.plain body)
  | BrowserOne cookie binding target_id => revoke_selected cookie binding target_id
  | BrowserAll cookie binding => revoke_everything cookie binding
  end.

(** [session_list]. *)
Definition session_view (row : string * Session.t) : tx json :=
  let s := row.2 in
  backed ← bearer_backed s;
  mret (Json.obj [("id", JStr s.(Session.id)); ("auth_time", JNum s.(Session.identity).(Identity.auth_time));
                  ("expires_at", JNum s.(Session.expires_at)); ("mfa", JBool s.(Session.identity).(Identity.mfa));
                  ("kind", JStr (if (backed : bool) then "terminal" else "browser"))]).
Definition session_list (user_id : string) : tx json :=
  rows ← list_all Session.t "sessions";
  views ← fold_m (λ acc (row : string * Session.t),
                    if String.eqb row.2.(Session.identity).(Identity.user_id) user_id
                       && negb row.2.(Session.revoked)
                    then v ← session_view row; mret (acc ++ [v]) else mret acc) [] rows;
  mret (JArr views).
End sessions.

(** ** Frames *)

Section frames.
Context {E : Env} {L : ApplyLease} {S_ : SamlPeers}.
Implicit Types (s : St.t).

#[global] Instance pure_bearer_backed x : Pure (bearer_backed x).
Proof. unfold bearer_backed. solve_pure. Qed.
#[global] Instance pure_verified_browser c b : Pure (verified_browser c b).
Proof. unfold verified_browser, require_factor_session. solve_pure. Qed.
#[global] Instance pure_named_session i : Pure (named_session i).
Proof. unfold named_session. solve_pure. Qed.
#[global] Instance pure_agent_target a i : Pure (agent_target a i).
Proof. pose proof validate_apply_lease_pure. unfold agent_target. cbv zeta. solve_pure. Qed.
#[global] Instance pure_session_receipt c j : Pure (session_receipt c j).
Proof. unfold session_receipt. solve_pure. Qed.
#[global] Instance pure_other_receipt o c j : Pure (other_receipt o c j).
Proof. unfold other_receipt. solve_pure. Qed.
#[global] Instance pure_replay_session r : Pure (replay_session r).
Proof. unfold replay_session. solve_pure. Qed.
Lemma touches_save_session r b : Touches ["receipts"] (save_session r b).
Proof. unfold save_session. solve_touches. Qed.
End frames.
#[export] Hint Resolve touches_save_session : tx.

(** ** Who may end which session *)

Section authority.
Context {E : Env} {L : ApplyLease} {S_ : SamlPeers}.
Implicit Types (s : St.t) (x : Session.t).

(** The transaction leaves the sessions alone. *)
Definition spares {A} (m : tx A) : Prop := ∀ s k,
  (m s).2.(St.db) !! ("sessions", k) = s.(St.db) !! ("sessions", k).
Lemma spares_touches {A} bs (m : tx A) : Touches bs m → "sessions" ∉ bs → spares m.
Proof. intros Hm Hb s k. destruct (Hm s) as (_ & _ & _ & Hf). by apply Hf. Qed.
Lemma spares_run {A} (m : tx A) s r s' k :
  spares m → m s = (r, s') → s'.(St.db) !! ("sessions", k) = s.(St.db) !! ("sessions", k).
Proof. intros Hm Hrun. pose proof (Hm s k) as H. by rewrite Hrun in H. Qed.

(** One session is revoked, and no other changes. *)
Definition ends x s s' : Prop :=
  x.(Session.revoked) = false
  ∧ s'.(St.db) !! ("sessions", x.(Session.id)) = Some (RSession (revoked x))
  ∧ ∀ k, k ≠ x.(Session.id) → s'.(St.db) !! ("sessions", k) = s.(St.db) !! ("sessions", k).

Lemma ends_spared {A} x s s1 (m : tx A) r s' : ends x s s1 → spares m → m s1 = (r, s') → ends x s s'.
Proof.
  intros (? & H1 & H2) Hm Hrun. split; [done|]. split; [by rewrite (spares_run _ _ _ _ _ Hm Hrun)|].
  intros k Hk. rewrite (spares_run _ _ _ _ _ Hm Hrun). by apply H2.
Qed.
Lemma spares_bind {A B} (m : tx A) (f : A → tx B) : spares m → (∀ a, spares (f a)) → spares (m ≫= f).
Proof.
  intros Hm Hf s k. unfold mbind, tx_bind. pose proof (Hm s k) as H1.
  destruct (m s) as [[a|e] s1]; simpl in *; [by rewrite Hf|done].
Qed.

Lemma revoke_one_ends actor x s u s' : revoke_one actor x s = (Ok u, s') → ends x s s'.
Proof.
  unfold revoke_one. intros Hrun. apply bind_ok in Hrun as ([] & s1 & [Hg ->]%ensure_ok & Hrun).
  apply bind_ok in Hrun as ([] & s1 & ->%put_ok & Hrun). apply negb_true_iff in Hg.
  eapply (ends_spared _ _ (St.set_db s (<[("sessions", x.(Session.id)) := encode (revoked x)]> s.(St.db)))), Hrun.
  - split; [done|]. cbn [St.db St.set_db]. split; [apply lookup_insert_eq|].
    intros k Hk. by rewrite lookup_insert_ne by congruence.
  - apply (spares_touches ["rp_sessions"; "logout_deliveries"; "ssf_deliveries"; "meta"; "audit"]); [|bucket].
    solve_touches.
Qed.
Lemma revoke_one_api_ends actor x s v s' : revoke_one_api actor x s = (Ok v, s') → ends x s s'.
Proof.
  unfold revoke_one_api. intros Hrun. apply bind_ok in Hrun as ([] & s1 & Hr%revoke_one_ends & Hrun).
  eapply ends_spared, Hrun; [done|]. eapply spares_touches; [|].
  - apply touches_bind; [apply touches_saml_redirect|]. intros. apply pure_touches, _.
  - bucket.
Qed.
Lemma revoke_one_browser_ends actor x s v s' : revoke_one_browser actor x s = (Ok v, s') → ends x s s'.
Proof.
  unfold revoke_one_browser. intros Hrun. apply bind_ok in Hrun as (urls & s1 & Hu & Hrun).
  rewrite (pure_run _ _ _ _ Hu) in Hrun. apply bind_ok in Hrun as ([] & s2 & Hr%revoke_one_ends & Hrun).
  eapply ends_spared, Hrun; [done|]. eapply spares_touches; [|].
  - apply touches_bind; [apply touches_begin_logout|]. intros. apply pure_touches, _.
  - bucket.
Qed.
Lemma replay_or_ends r (m : tx json) x s v s' :
  (∀ s1 v1, m s = (Ok v1, s1) → ends x s s1) →
  replay_or r m s = (Ok v, s') → s' = s ∨ ends x s s'.
Proof.
  unfold replay_or. intros Hm Hrun. apply bind_ok in Hrun as (o & s1 & Ho & Hrun).
  rewrite (pure_run _ _ _ _ Ho) in Hrun. destruct o as [b|]; [left; by apply ret_ok in Hrun as [_ ->]|right].
  apply bind_ok in Hrun as (b & s2 & Hb%Hm & Hrun). eapply ends_spared, Hrun; [done|].
  eapply spares_touches; [|].
  - apply touches_bind; [apply touches_save_session|]. intros. apply pure_touches, _.
  - bucket.
Qed.

(** Who may end a session: its own token or browser, an administrator or its
    owner, or an agent with a permission for it or for the sessions of its
    account. *)
Definition may_end (intent : RevokeIntent) s x : Prop :=
  match intent with
  | LogoutIntent token => ∃ u, session token s = (Ok (u, x), s)
  | BrowserSignOut cookie browser_only =>
      browser_session cookie s = (Ok (Some x), s)
      ∧ (browser_only = true → bearer_backed x s = (Ok false, s))
  | BearerOne token target_id =>
      x.(Session.id) = target_id
      ∧ if Str.starts_with token "ri_agent_" then
          ∃ actor, principal token s = (Ok actor, s)
            ∧ (Principal.allows actor "session.revoke" ("session/" +:+ target_id) = true
               ∨ ∃ owner, s.(St.db) !! ("users", x.(Session.identity).(Identity.user_id)) = Some (RUser owner)
                   ∧ Principal.allows actor "sessions.revoke" ("user/" +:+ owner.(User.username)) = true)
        else
          ∃ u own, session token s = (Ok (u, own), s)
            ∧ (x.(Session.identity).(Identity.user_id) = u.(User.id) ∨ u.(User.admin) = true)
  | BrowserOne cookie binding target_id =>
      x.(Session.id) = target_id
      ∧ ∃ u own, verified_browser cookie binding s = (Ok (u, own), s)
          ∧ x.(Session.identity).(Identity.user_id) = u.(User.id)
  | BrowserAll cookie binding =>
      ∃ u own, verified_browser cookie binding s = (Ok (u, own), s)
        ∧ x.(Session.identity).(Identity.user_id) = u.(User.id)
  end.
End authority.

Section revocation.
Context {E : Env} {L : ApplyLease} {S_ : SamlPeers}.
Implicit Types (s : St.t) (x : Session.t).

(** Sessions are stored under their own ids. *)
Definition sessions_keyed s : Prop := ∀ k x,
  s.(St.db) !! ("sessions", k) = Some (RSession x) → x.(Session.id) = k.
(** Sessions change only by being revoked, and only those [P] allows. *)
Definition only_ends (P : Session.t → Prop) s s' : Prop := ∀ k,
  s'.(St.db) !! ("sessions", k) = s.(St.db) !! ("sessions", k)
  ∨ ∃ x, s.(St.db) !! ("sessions", k) = Some (RSession x)
      ∧ s'.(St.db) !! ("sessions", k) = Some (RSession (revoked x)) ∧ P x.

Lemma only_ends_spared {A} P s s1 (m : tx A) r s' :
  only_ends P s s1 → spares m → m s1 = (r, s') → only_ends P s s'.
Proof.
  intros Hs1 Hm Hrun k. rewrite (spares_run _ _ _ _ k Hm Hrun). apply Hs1.
Qed.
Lemma ends_only P x s s' k :
  sessions_keyed s → s.(St.db) !! ("sessions", k) = Some (RSession x) → P x → ends x s s' → only_ends P s s'.
Proof.
  intros Hkeyed Hx HP (_ & H1 & H2) j. rewrite <- (Hkeyed _ _ Hx) in Hx.
  destruct (decide (j = x.(Session.id))) as [->|Hj]; [right; by exists x|left; by apply H2].
Qed.
Lemma only_ends_refl P s : only_ends P s s.
Proof. intros k. by left. Qed.

Lemma session_row token s u x s' :
  session token s = (Ok (u, x), s') → s' = s ∧ x.(Session.revoked) = false
    ∧ ∃ k, s.(St.db) !! ("sessions", k) = Some (RSession x).
Proof.
  unfold session. intros Hrun. tx_inv.
  match goal with H : identity_user _ _ = _ |- _ => pose proof (pure_run _ _ _ _ H) as Hp; subst end.
  bools. split_and!; [done|done|]. by eexists.
Qed.
Lemma browser_session_row cookie s x s' :
  browser_session cookie s = (Ok (Some x), s') → s' = s ∧ x.(Session.revoked) = false
    ∧ ∃ k, s.(St.db) !! ("sessions", k) = Some (RSession x).
Proof.
  intros Hrun. pose proof (pure_run _ _ _ _ Hrun) as ->. split; [done|]. unfold browser_session in Hrun.
  destruct cookie as [c|]; [|done]. apply bind_ok in Hrun as (at_ & s1 & [_ ->]%now_ok & Hrun).
  apply bind_ok in Hrun as (o & s1 & [-> _]%get_ok & Hrun). destruct o as [b|]; [|done].
  destruct (_ || _); [done|]. apply bind_ok in Hrun as (o & s1 & [-> Hx]%get_ok & Hrun).
  destruct o as [y|]; [|done]. destruct (y.(Session.revoked)) eqn:Hrev; [done|]. simpl in Hrun.
  destruct (_ <=? _); [done|]. apply bind_ok in Hrun as (r & s1 & _ & [Hr _]%ret_ok).
  destruct (is_ok r); [|done]. injection Hr as <-. split; [done|by eexists].
Qed.

Lemma revoke_as_agent_ends token tid s v s' :
  sessions_keyed s → Str.starts_with token "ri_agent_" = true →
  revoke_as_agent token tid s = (Ok v, s') → only_ends (may_end (BearerOne token tid) s) s s'.
Proof.
  intros Hkeyed Htok Hrun. unfold revoke_as_agent in Hrun.
  apply bind_ok in Hrun as (actor & s1 & Ha & Hrun). pose proof (pure_run _ _ _ _ Ha) as ->.
  apply bind_ok in Hrun as (x & s1 & Ht & Hrun). pose proof (pure_run _ _ _ _ Ht) as ->.
  apply bind_ok in Hrun as (r & s1 & Hr & Hrun). rewrite (pure_run _ _ _ _ Hr) in Hrun.
  apply (replay_or_ends _ _ x) in Hrun; [|intros; by eapply revoke_one_api_ends].
  destruct Hrun as [->|Hends]; [apply only_ends_refl|].
  unfold agent_target in Ht. cbv zeta in Ht. apply bind_ok in Ht as (o & s2 & [-> Hx]%get_ok & Ht).
  apply bind_ok in Ht as (y & s2 & [Hy ->]%some_or_ok & Ht). rewrite Hy in Hx.
  apply bind_ok in Ht as ([] & s2 & Hauth & Ht). apply bind_ok in Ht as ([] & s3 & _ & [-> _]%ret_ok).
  apply (ends_only _ _ _ _ tid Hkeyed Hx); [|done]. split; [by apply Hkeyed|]. rewrite Htok.
  exists actor. split; [done|]. destruct (Principal.allows actor "session.revoke" _); [by left|right].
  apply bind_ok in Hauth as (ou & s4 & [-> Hu]%get_ok & Hauth).
  apply bind_ok in Hauth as (owner & s4 & [Ho ->]%some_or_ok & [Hall _]%lift_ok). rewrite Ho in Hu.
  exists owner. split; [done|]. unfold Principal.require in Hall. by destruct (Principal.allows _ _ _).
Qed.
Lemma revoke_as_human_ends token tid s v s' :
  sessions_keyed s → Str.starts_with token "ri_agent_" = false →
  revoke_as_human token tid s = (Ok v, s') → only_ends (may_end (BearerOne token tid) s) s s'.
Proof.
  intros Hkeyed Htok Hrun. unfold revoke_as_human in Hrun.
  apply bind_ok in Hrun as ([u own] & s1 & Hu & Hrun). pose proof (pure_run _ _ _ _ Hu) as ->. cbv zeta in Hrun.
  apply bind_ok in Hrun as (x & s1 & Ht & Hrun). pose proof (pure_run _ _ _ _ Ht) as ->.
  apply bind_ok in Hrun as ([] & s1 & [Hg ->]%ensure_ok & Hrun).
  apply bind_ok in Hrun as (r & s1 & Hr & Hrun). rewrite (pure_run _ _ _ _ Hr) in Hrun.
  apply (replay_or_ends _ _ x) in Hrun; [|intros; by eapply revoke_one_api_ends].
  destruct Hrun as [->|Hends]; [apply only_ends_refl|].
  apply bind_ok in Ht as (o & s2 & [-> Hx]%get_ok & [Hy _]%some_or_ok). rewrite Hy in Hx.
  apply (ends_only _ _ _ _ tid Hkeyed Hx); [|done]. split; [by apply Hkeyed|]. rewrite Htok.
  exists u, own. split; [done|]. apply orb_true_iff in Hg as [Hg%String.eqb_eq|]; [by left|by right].
Qed.
Lemma end_selected_ends u x b c s v s' : end_selected u x b c s = (Ok v, s') → ends x s s'.
Proof.
  unfold end_selected. intros Hrun. apply bind_ok in Hrun as ([] & s1 & [_ ->]%ensure_ok & Hrun).
  apply bind_ok in Hrun as (p & s1 & Hp%revoke_one_browser_ends & Hrun).
  eapply ends_spared, Hrun; [done|]. apply (spares_touches ["browser_sessions"]); [|bucket].
  apply touches_bind; [destruct b; [apply touches_remove; bucket|apply pure_touches, _]|].
  intros. apply pure_touches, _.
Qed.
Lemma revoke_selected_ends cookie binding tid s v s' :
  sessions_keyed s → revoke_selected cookie binding tid s = (Ok v, s') →
  only_ends (may_end (BrowserOne cookie binding tid) s) s s'.
Proof.
  intros Hkeyed Hrun. unfold revoke_selected in Hrun.
  apply bind_ok in Hrun as (c & s1 & [-> ->]%some_or_ok & Hrun).
  apply bind_ok in Hrun as ([u own] & s1 & Hu & Hrun). pose proof (pure_run _ _ _ _ Hu) as ->. cbv zeta in Hrun.
  apply bind_ok in Hrun as (o & s1 & [-> Hx]%get_ok & Hrun).
  apply bind_ok in Hrun as (x & s1 & [Ho ->]%some_or_ok & Hrun).
  destruct o as [y|]; [|done]. simpl in Hx, Ho.
  destruct (String.eqb_spec (Identity.user_id (Session.identity y)) (User.id u)) as [Hown|]; [|done].
  injection Ho as ->. apply bind_ok in Hrun as (r & s1 & Hr & Hrun). rewrite (pure_run _ _ _ _ Hr) in Hrun.
  apply bind_ok in Hrun as (o & s2 & Ho & Hrun). rewrite (pure_run _ _ _ _ Ho) in Hrun.
  destruct o as [body|]; [apply ret_ok in Hrun as [_ ->]; apply only_ends_refl|].
  apply bind_ok in Hrun as (body & s3 & He & Hrun).
  apply (ends_only _ _ _ _ tid Hkeyed Hx); [split; [by apply Hkeyed|by exists u, own]|].
  eapply ends_spared, Hrun; [eapply end_selected_ends, He|].
  apply (spares_touches ["receipts"]); [|bucket].
  apply touches_bind; [apply touches_save_session|]. intros. apply pure_touches, _.
Qed.

Lemma sign_out_ends cookie b s v s' :
  sessions_keyed s → sign_out cookie b s = (Ok v, s') → only_ends (may_end (BrowserSignOut cookie b) s) s s'.
Proof.
  intros Hkeyed Hrun. unfold sign_out in Hrun. apply bind_ok in Hrun as (o & s1 & Ho & Hrun).
  pose proof (pure_run _ _ _ _ Ho) as ->. apply bind_ok in Hrun as (body & s2 & Hb & Hrun).
  assert (Hs2 : only_ends (may_end (BrowserSignOut cookie b) s) s s2).
  { destruct o as [x|]; [|apply ret_ok in Hb as [_ ->]; apply only_ends_refl]. simpl in Hb.
    apply bind_ok in Hb as (backed & s3 & Hk & Hb).
    assert (s3 = s ∧ (backed = false → b = true → bearer_backed x s = (Ok false, s))) as [-> Hk'].
    { destruct b; [|by apply ret_ok in Hk as [_ ->]]. pose proof (pure_run _ _ _ _ Hk) as ->. split; [done|]. by intros ->. }
    destruct backed; [apply ret_ok in Hb as [_ ->]; apply only_ends_refl|].
    apply bind_ok in Hb as (r & s4 & Hr%revoke_one_api_ends & [_ ->]%ret_ok).
    destruct (browser_session_row _ _ _ _ Ho) as (_ & _ & k & Hx).
    apply (ends_only _ _ _ _ k Hkeyed Hx); [|done]. split; [done|]. by apply Hk'. }
  eapply only_ends_spared, Hrun; [done|]. apply (spares_touches ["browser_sessions"]); [|bucket].
  apply touches_bind; [destruct cookie; [apply touches_remove; bucket|apply pure_touches, _]|].
  intros. apply pure_touches, _.
Qed.

(** *** All sessions of an account *)

Definition owned (user_id : string) x : bool :=
  String.eqb x.(Session.identity).(Identity.user_id) user_id && negb x.(Session.revoked).
Lemma owned_or_not (d : gmap (string * string) row) uid k :
  (∃ x, d !! ("sessions", k) = Some (RSession x) ∧ owned uid x = true)
  ∨ ∀ x, d !! ("sessions", k) = Some (RSession x) → owned uid x = false.
Proof.
  destruct (d !! ("sessions", k)) as [[]|]; try (by right).
  match goal with x : Session.t |- _ => destruct (owned uid x) eqn:Hown end.
  - left. by eexists.
  - right. by intros x [= <-].
Qed.
Lemma end_owned_ok uid acc k x s acc' s' :
  end_owned uid acc (k, x) s = (Ok acc', s') →
  (owned uid x = true → s'.(St.db) !! ("sessions", k) = Some (RSession (revoked x)))
  ∧ (owned uid x = false → s'.(St.db) !! ("sessions", k) = s.(St.db) !! ("sessions", k))
  ∧ ∀ j, j ≠ k → s'.(St.db) !! ("sessions", j) = s.(St.db) !! ("sessions", j).
Proof.
  unfold end_owned, owned. cbn [fst snd]. intros Hrun.
  destruct (String.eqb _ _ && negb _) eqn:Hown.
  - apply andb_true_iff in Hown as [Hu Hr]. apply negb_true_iff in Hr. rewrite Hu, Hr in Hrun. simpl in Hrun.
    apply bind_ok in Hrun as (urls & s1 & Hurls & Hrun). rewrite (pure_run _ _ _ _ Hurls) in Hrun.
    apply bind_ok in Hrun as ([] & s2 & ->%put_ok & Hrun).
    apply bind_ok in Hrun as ([] & s3 & Ha & [_ ->]%ret_ok).
    apply audit_event_run in Ha as (_ & _ & Ha); [|by vm_compute].
    split_and!; [|done|]; intros; rewrite Ha by done; cbn [St.db St.set_db].
    + apply lookup_insert_eq.
    + by rewrite lookup_insert_ne by congruence.
  - assert (Hno : (negb (String.eqb (Identity.user_id (Session.identity x)) uid) || Session.revoked x) = true)
      by (by destruct (String.eqb _ _), (Session.revoked x)).
    rewrite Hno in Hrun. by apply ret_ok in Hrun as [_ ->].
Qed.
Lemma end_owned_all uid rows acc s acc' s' :
  NoDup rows.*1 → fold_m (end_owned uid) acc rows s = (Ok acc', s') →
  ∀ k, (∀ x, (k, x) ∈ rows → owned uid x = true →
          s'.(St.db) !! ("sessions", k) = Some (RSession (revoked x)))
       ∧ ((∀ x, (k, x) ∈ rows → owned uid x = false) →
          s'.(St.db) !! ("sessions", k) = s.(St.db) !! ("sessions", k)).
Proof.
  revert acc s. induction rows as [|[j y] rows IH]; intros acc s Hnd Hrun k.
  { apply ret_ok in Hrun as [_ ->]. split; [set_solver|done]. }
  csimpl in Hnd. apply NoDup_cons in Hnd as [Hj Hnd].
  apply bind_ok in Hrun as (acc1 & s1 & (H1 & H2 & H3)%end_owned_ok & Hrun).
  destruct (IH _ _ Hnd Hrun k) as [Hin Hout]. split.
  - intros x [[= -> ->]|Hx]%elem_of_cons Hown; [|by apply Hin].
    rewrite Hout; [by apply H1|]. intros z Hz. destruct Hj. apply list_elem_of_fmap. by exists (j, z).
  - intros Hno. rewrite Hout by (intros z Hz; apply Hno; set_solver).
    destruct (decide (k = j)) as [->|Hk]; [|by apply H3]. apply H2, Hno. set_solver.
Qed.

(** The same row by row for the approvals of the account. *)
Definition pending_approval (uid : string) (a : Approval.t) : bool :=
  String.eqb a.(Approval.owner_id) uid && bool_decide (a.(Approval.revoked_at) = None).
Lemma revoke_approvals_ok uid at_ rows s u s' :
  for_each (λ kr : string * Approval.t,
    if String.eqb kr.2.(Approval.owner_id) uid && bool_decide (kr.2.(Approval.revoked_at) = None)
    then put AgentApps.APPROVALS kr.1 (revoke_approval at_ kr.2) else mret ()) rows s = (Ok u, s') →
  ∀ k a, s'.(St.db) !! (AgentApps.APPROVALS, k) = Some (RApproval a) →
    pending_approval uid a = true →
    s.(St.db) !! (AgentApps.APPROVALS, k) = Some (RApproval a)
    ∧ ∀ b, (k, b) ∈ rows → pending_approval uid b = false.
Proof.
  revert s. induction rows as [|[j b] rows IH]; intros s Hrun k a Ha Hp.
  { apply ret_ok in Hrun as [_ ->]. split; [done|set_solver]. }
  apply bind_ok in Hrun as ([] & s1 & H1 & Hrun). destruct (IH _ Hrun _ _ Ha Hp) as [Hk Hno]. cbn [fst snd] in H1.
  destruct (_ && _) eqn:Hown.
  - apply put_ok in H1 as ->. cbn [St.db St.set_db] in Hk. apply lookup_insert_Some in Hk as [[_ Hk]|[Hne Hk]].
    + injection Hk as <-. unfold pending_approval in Hp. simpl in Hp. by rewrite andb_false_r in Hp.
    + split; [done|]. intros c [[= -> ->]|Hc]%elem_of_cons; [done|by apply Hno].
  - apply ret_ok in H1 as [_ ->]. split; [done|]. intros c [[= -> ->]|Hc]%elem_of_cons; [done|by apply Hno].
Qed.
Lemma revoke_owner_all_ok uid s u s' k a :
  revoke_owner_all uid s = (Ok u, s') → s'.(St.db) !! (AgentApps.APPROVALS, k) = Some (RApproval a) →
  pending_approval uid a = false.
Proof.
  unfold revoke_owner_all. intros Hrun Ha. apply bind_ok in Hrun as (at_ & s1 & [_ ->]%now_ok & Hrun).
  apply bind_ok in Hrun as (rows & s1 & (-> & Hin & _)%list_all_elem & Hrun).
  apply Bool.not_true_iff_false. intros Hp.
  destruct (revoke_approvals_ok _ _ _ _ _ _ Hrun _ _ Ha Hp) as [Hk Hno]. apply Hin in Hk.
  apply Hno in Hk. congruence.
Qed.
Lemma spares_revoke_owner_all uid : spares (revoke_owner_all uid).
Proof. apply (spares_touches [AgentApps.APPROVALS]); [|bucket]. unfold revoke_owner_all. solve_touches. Qed.

Lemma propagate_at ids l s r s' b k :
  propagate ids l s = (r, s') → b ∉ ["saml_logout_flows"; "saml_logout_sessions"; CURSORS; BOUNDS] →
  s'.(St.db) !! (b, k) = s.(St.db) !! (b, k).
Proof.
  intros Hrun.
  assert (Ht : Touches ["saml_logout_flows"; "saml_logout_sessions"; CURSORS; BOUNDS] (propagate ids l)).
  { apply touches_bind; [apply touches_begin_logout|]. intros. apply pure_touches, _. }
  by eapply touches_at.
Qed.
Lemma revoke_everything_run cookie binding s o s' :
  revoke_everything cookie binding s = (Ok o, s') →
  ∃ c u own, cookie = Some c ∧ verified_browser cookie binding s = (Ok (u, own), s)
    ∧ (∀ k x, s.(St.db) !! ("sessions", k) = Some (RSession x) → owned u.(User.id) x = true →
         s'.(St.db) !! ("sessions", k) = Some (RSession (revoked x)))
    ∧ (∀ k, (∀ x, s.(St.db) !! ("sessions", k) = Some (RSession x) → owned u.(User.id) x = false) →
         s'.(St.db) !! ("sessions", k) = s.(St.db) !! ("sessions", k))
    ∧ (∀ k a, s'.(St.db) !! (AgentApps.APPROVALS, k) = Some (RApproval a) →
         pending_approval u.(User.id) a = false)
    ∧ s'.(St.db) !! ("browser_sessions", digest c) = None.
Proof.
  unfold revoke_everything. intros Hrun. apply bind_ok in Hrun as (c & s1 & [-> ->]%some_or_ok & Hrun).
  apply bind_ok in Hrun as ([u own] & s1 & Hu & Hrun). pose proof (pure_run _ _ _ _ Hu) as ->. cbv zeta in Hrun.
  cbn [fst] in Hrun. apply bind_ok in Hrun as (rows & s1 & Hl & Hrun).
  destruct (list_all_elem _ _ _ _ Hl) as (-> & Hin & _).
  assert (Hnd : NoDup rows.*1).
  { apply list_all_ok in Hl as [_ Hl]. pose proof (bucket_rows_nodup "sessions" s.(St.db)) as Hnd. rewrite Hl in Hnd.
    rewrite <- list_fmap_compose in Hnd. erewrite list_fmap_ext; [exact Hnd|]. by intros ? [? ?]. }
  apply bind_ok in Hrun as (ended & s1 & He & Hrun). pose proof (end_owned_all _ _ _ _ _ _ Hnd He) as Hall.
  apply bind_ok in Hrun as ([] & s2 & Hq & Hrun). apply bind_ok in Hrun as (seen & s3 & Hsig & Hrun).
  apply bind_ok in Hrun as ([] & s4 & Hap & Hrun). apply bind_ok in Hrun as ([] & s5 & Hau & Hrun).
  apply bind_ok in Hrun as (prop & s6 & Hp & Hrun). apply bind_ok in Hrun as ([] & s7 & ->%remove_ok & [_ ->]%ret_ok).
  apply audit_event_run in Hau as (_ & _ & Hau); [|by vm_compute].
  assert (Hs : ∀ k, (base.delete ("browser_sessions", digest c) s6.(St.db)) !! ("sessions", k)
    = s1.(St.db) !! ("sessions", k)).
  { intros k. rewrite lookup_delete_ne by done. rewrite (propagate_at _ _ _ _ _ _ _ Hp) by bucket.
    rewrite Hau by done. rewrite (spares_run _ _ _ _ k (spares_revoke_owner_all _) Hap).
    rewrite (touches_at ["ssf_deliveries"] _ _ _ _ _ _ Hsig) by bucket.
    apply (touches_at ["rp_sessions"; "logout_deliveries"] _ _ _ _ _ _ Hq). bucket. }
  exists c, u, own. cbn [St.db St.set_db]. split_and!; [done|done| | | |apply lookup_delete_eq].
  - intros k x Hx Hown. rewrite Hs. destruct (Hall k) as [H1 _]. apply H1; [by apply Hin|done].
  - intros k Hno. rewrite Hs. destruct (Hall k) as [_ H2]. apply H2. intros x Hx. by apply Hno, Hin.
  - intros k a Ha. eapply (revoke_owner_all_ok _ _ _ _ k); [exact Hap|].
    rewrite lookup_delete_ne, (propagate_at _ _ _ _ _ _ _ Hp), Hau in Ha; [done|done|bucket|done].
Qed.
End revocation.

Section sign_out_theorems.
Context {E : Env} {L : ApplyLease} {S_ : SamlPeers}.
Implicit Types (s : St.t) (x : Session.t).

(** C9: ending sessions is authorized.  Whatever a caller asks for, a successful
    revocation changes the stored sessions only by revoking some of them, and each
    of those is the caller's own, or of the account that asks, or an
    administrator asked for it, or an agent holds a permission for it, as the
    records stand when it is revoked. *)
Theorem revocation_authorized intent s o s' :
  sessions_keyed s → revoke_sessions intent s = (Ok o, s') → only_ends (may_end intent s) s s'.
Proof.
  intros Hkeyed Hrun. destruct intent as [token|cookie b|token tid|cookie binding tid|cookie binding];
    cbn [revoke_sessions] in Hrun.
  - apply bind_ok in Hrun as ([u x] & s1 & Hu & Hrun). destruct (session_row _ _ _ _ _ Hu) as (-> & _ & k & Hx).
    apply bind_ok in Hrun as (v & s1 & Hr%revoke_one_api_ends & [_ ->]%ret_ok).
    apply (ends_only _ _ _ _ k Hkeyed Hx); [by exists u|done].
  - by apply sign_out_ends in Hrun.
  - destruct (Str.starts_with token "ri_agent_") eqn:Htok; apply bind_ok in Hrun as (v & s1 & Hr & [_ ->]%ret_ok).
    + by eapply revoke_as_agent_ends.
    + by eapply revoke_as_human_ends.
  - by eapply revoke_selected_ends.
  - apply revoke_everything_run in Hrun as (c & u & own & -> & Hu & Hin & Hout & _). intros k.
    destruct (owned_or_not s.(St.db) u.(User.id) k) as [(x & Hx & Hown)|Hno].
    + right. exists x. split; [done|]. split; [by apply Hin|]. exists u, own. split; [done|].
      apply andb_true_iff in Hown as [Hown _]. by apply String.eqb_eq in Hown.
    + left. by apply Hout.
Qed.

(** C30: "sign out everywhere" is complete: afterwards every session of the account
    is revoked, whoever it belongs to by its key and however old it is, so neither
    a bearer token nor a browser cookie authenticates as it, and no approval its
    owner gave an agent's application is left in force. *)
Theorem sign_out_everywhere_complete cookie binding s o s' :
  revoke_sessions (BrowserAll cookie binding) s = (Ok o, s') →
  ∃ u own, verified_browser cookie binding s = (Ok (u, own), s)
    ∧ (∀ k x, s'.(St.db) !! ("sessions", k) = Some (RSession x) →
         x.(Session.identity).(Identity.user_id) = u.(User.id) → x.(Session.revoked) = true)
    ∧ (∀ token v x t, session token s' = (Ok (v, x), t) →
         x.(Session.identity).(Identity.user_id) ≠ u.(User.id))
    ∧ (∀ c x t, browser_session c s' = (Ok (Some x), t) →
         x.(Session.identity).(Identity.user_id) ≠ u.(User.id))
    ∧ ∀ k a, s'.(St.db) !! (AgentApps.APPROVALS, k) = Some (RApproval a) →
        a.(Approval.owner_id) = u.(User.id) → is_Some a.(Approval.revoked_at).
Proof.
  cbn [revoke_sessions]. intros (c & u & own & -> & Hu & Hin & Hout & Hap & _)%revoke_everything_run.
  assert (Hrev : ∀ k x, s'.(St.db) !! ("sessions", k) = Some (RSession x) →
    x.(Session.identity).(Identity.user_id) = u.(User.id) → x.(Session.revoked) = true).
  { intros k x Hx Hown. destruct (owned_or_not s.(St.db) u.(User.id) k) as [(y & Hk & Hy)|Hno].
    - rewrite (Hin _ _ Hk Hy) in Hx. by injection Hx as <-.
    - rewrite Hout in Hx by done. specialize (Hno _ Hx). unfold owned in Hno.
      rewrite Hown, String.eqb_refl in Hno. by apply negb_false_iff in Hno. }
  exists u, own. split; [done|]. split; [done|]. split_and!.
  - intros token v x t (_ & Hr & k & Hx)%session_row Hown. rewrite (Hrev _ _ Hx Hown) in Hr. done.
  - intros ck x t (_ & Hr & k & Hx)%browser_session_row Hown. rewrite (Hrev _ _ Hx Hown) in Hr. done.
  - intros k a Ha Hown. specialize (Hap _ _ Ha). unfold pending_approval in Hap. rewrite Hown, String.eqb_refl in Hap.
    simpl in Hap. apply bool_decide_eq_false in Hap. by destruct (Approval.revoked_at a).
Qed.
End sign_out_theorems.

(** ** An example *)

Module SessionsDemo.
#[global] Program Instance lease : @ApplyLease Demo.env := {| validate_apply_lease _ := mret () |}.

(** Amy's terminal session, and the browser she is signed in with. *)
Definition browser_identity : Identity.t := Identity.mk ["pwd"; "otp"] None "u-amy" 1 true 900 "sess-2".
Definition browser : Session.t := Session.mk "sess-2" "#none" browser_identity 5000 false.
Definition state : St.t :=
  St.mk (<[("sessions", "sess-2") := RSession browser]>
           (<[("session_tokens", "#tok") := RString "sess-1"]>
             (<[("browser_sessions", "#cookie") := RBrowserSession (BrowserSession.mk "sess-2" 5000 false)]>
               FlowDemo.db))) 1000 0 None.
Definition binding : Binding.t := Binding.mk "u-amy" "sess-2".
Definition run (intent : RevokeIntent) : Result RevokeOutcome.t * St.t :=
  @revoke_sessions Demo.env lease SamlDemo.peers intent state.
Definition one : Result RevokeOutcome.t * St.t := run (BearerOne "tok" "sess-2").
Definition all : Result RevokeOutcome.t * St.t := run (BrowserAll (Some "cookie") binding).
Definition result (r : Result RevokeOutcome.t) : RevokeOutcome.t := match r with Ok o => o | Err _ => RevokeOutcome.plain JNull end.
End SessionsDemo.

Example sessions_run : is_ok SessionsDemo.one.1 = true ∧ is_ok SessionsDemo.all.1 = true.
Proof. split; vm_compute; reflexivity. Qed.

Lemma revocation_authorized_witness :
  only_ends (@may_end Demo.env (BearerOne "tok" "sess-2") SessionsDemo.state)
    SessionsDemo.state SessionsDemo.one.2.
Proof.
  apply (@revocation_authorized Demo.env SessionsDemo.lease SamlDemo.peers (BearerOne "tok" "sess-2")
    SessionsDemo.state (SessionsDemo.result SessionsDemo.one.1) SessionsDemo.one.2).
  - intros k x. unfold SessionsDemo.state, FlowDemo.db. cbn [St.db]. intros Hx.
    repeat first
      [ apply lookup_insert_Some in Hx as [[[= <-] [= <-]]|[_ Hx]]; [reflexivity|]
      | apply lookup_insert_Some in Hx as [[? ?]|[_ Hx]]; [discriminate|] ].
    apply lookup_singleton_Some in Hx as [? ?]. discriminate.
  - vm_compute. reflexivity.
Defined.

Lemma sign_out_everywhere_complete_witness :
  ∃ u own, @verified_browser Demo.env (Some "cookie") SessionsDemo.binding SessionsDemo.state
             = (Ok (u, own), SessionsDemo.state)
    ∧ ∀ k x, SessionsDemo.all.2.(St.db) !! ("sessions", k) = Some (RSession x) →
        x.(Session.identity).(Identity.user_id) = u.(User.id) → x.(Session.revoked) = true.
Proof.
  destruct (@sign_out_everywhere_complete Demo.env SessionsDemo.lease SamlDemo.peers (Some "cookie")
    SessionsDemo.binding SessionsDemo.state (SessionsDemo.result SessionsDemo.all.1) SessionsDemo.all.2)
    as (u & own & Hu & Hrev & _).
  - vm_compute. reflexivity.
  - exists u, own. exact (conj Hu Hrev).
Defined.
