(* ===== verification/SignOut.v ===== *)
(** * Signing out through a relying party (src/src/logout.rs, session_protocol.rs,
    assembly/logout.rs, assembly/session_protocol.rs)

    A relying party asks to end the session an ID token names.  If the caller holds
    that very session, it ends at once; otherwise the request becomes a
    confirmation that the account's terminal or the browser that asked decides
    once.  The browser polls the confirmation, and every redirect is checked again
    against the client's registration when it is delivered. *)

From stdpp Require Import pretty.
From S2P Require Import Prelude Json Model Store Env Provider Jose Oidc Identities Device Logout Maintenance Signals SessionProtocol SamlLogout Sessions.

#[local] Set Warnings "-clear-no-such-hyp".

(** ** The ID token hint *)

Section hint.
Context {E : Env} {K : PublicKeys}.

(** [keyring::public_keys]: the primary ring and every signing domain, the active
    key and the retired ones still published. *)
Definition ring_keys (at_ : Z) (acc : list json) (ring : Keys.t) : tx (list json) :=
  active ← lift (key_jwk ring.(Keys.active));
  mret (acc ++ active :: (fst <$> List.filter (λ r : json * Z, at_ <? r.2) ring.(Keys.retired))).
Definition public_keys : tx (list json) :=
  primary ← primary_keys;
  domains ← list_all Keys.t "key_domains";
  at_ ← now;
  fold_m (ring_keys at_) [] (primary :: (snd <$> domains)).

Definition hint_algorithm (a : Algorithm) : option string :=
  match a with
  | RS256 => Some "RS256" | ES256 => Some "ES256" | EdDSA => Some "EdDSA" | OtherAlgorithm _ => None
  end.
Definition bad_hint : Error.t := Error.bad "Invalid ID token hint".
Definition hint_type (typ : option string) : bool :=
  match typ with Some t => String.eqb t "JWT" || String.eqb t "dpop+id_token" | None => false end.

(** The payload before its signature is checked, to find the client. *)
Definition untrusted_client (token : string) : Result string :=
  payload ← ok_or (Str.split "." token !! 1%nat) bad_hint;
  bytes ← ok_or (b64url_decode payload) bad_hint;
  untrusted ← ok_or (json_parse bytes) bad_hint;
  ok_or (Json.as_str (Json.index untrusted "aud")) bad_hint.
(** [logout::verify_hint]; an expired token still names its session. *)
Definition verify_hint (token : string) : tx json :=
  header ← some_or (decode_header token) bad_hint;
  alg ← some_or (hint_algorithm header.(JwtHeader.alg)) bad_hint;
  _ ← ensure (hint_type header.(JwtHeader.typ)) bad_hint;
  jwks ← public_keys;
  jwk ← some_or (List.find (λ j, bool_decide (Json.as_str (Json.index j "kid") = header.(JwtHeader.kid))) jwks)
          bad_hint;
  _ ← ensure (bool_decide (Json.as_str (Json.index jwk "alg") = Some alg)) bad_hint;
  key ← some_or (jwk_of_json jwk) bad_hint;
  _ ← ensure (decoding_key_ok key) bad_hint;
  cid ← lift (untrusted_client token);
  client ← get Client.t "clients" cid;
  client ← some_or client bad_hint;
  at_ ← now;
  claims ← some_or (jwt_decode at_ token key
                      (Validation.mk header.(JwtHeader.alg) (Some (issuer_for_client client)) None ["exp"]
                         false false true 60)) bad_hint;
  _ ← ensure (match Json.as_u64 (Json.index claims "iat"), Json.as_u64 (Json.index claims "exp") with
              | Some iat, Some _ => negb (wadd at_ 60 <? iat)
              | _, _ => false
              end) bad_hint;
  mret claims.
End hint.

(** ** Cookies and paths *)

Section cookies.
Context {E : Env}.

(** [cookie_path]; the issuer parses. *)
Definition cookie_path : string :=
  match url_parse config.(Config.issuer) with
  | Some u => Str.trim_end_matches "/" u.(Url.path) +:+ "/"
  | None => "/"
  end.
Definition logout_path (id : string) : string := cookie_path +:+ "oauth/logout/resume/" +:+ id.
Definition https : bool := Str.starts_with config.(Config.issuer) "https://".
Definition binding_cookie_name (kind id : string) : string :=
  if https then "__Host-riauth_" +:+ kind +:+ "_" +:+ String.substring 0 16 (digest id)
  else "riauth_" +:+ kind.
Definition browser_cookie (name value path : string) (ttl : Z) : string :=
  name +:+ "=" +:+ value +:+ "; Path=" +:+ path +:+ "; Max-Age=" +:+ pretty ttl
  +:+ "; HttpOnly; SameSite=Lax" +:+ (if https then "; Secure" else "").
Definition binding_cookie (kind id value path : string) (ttl : Z) : string :=
  let name := binding_cookie_name kind id in
  browser_cookie name value (if Str.starts_with name "__Host-" then "/" else path) ttl.
Definition sso_cookies (value : string) (ttl : Z) : list string :=
  if https
  then ["__Host-riauth_sso=" +:+ value +:+ "; Path=/; Max-Age=" +:+ pretty ttl
        +:+ "; HttpOnly; SameSite=None; Secure";
        browser_cookie "riauth_sso" "" cookie_path 0]
  else [browser_cookie "riauth_sso" value cookie_path ttl].

(** [browser_session_id]: the session a cookie maps to, whether it is live or not. *)
Definition browser_session_id (cookie : option string) : tx (option string) :=
  match cookie with
  | None => mret None
  | Some cookie =>
      binding ← get BrowserSession.t "browser_sessions" (digest cookie);
      at_ ← now;
      mret (match binding with
            | Some b => if b.(BrowserSession.rotated) || (b.(BrowserSession.expires_at) <=? at_) then None
                        else Some b.(BrowserSession.session_id)
            | None => None
            end)
  end.
Definition forget_browser (cookie : option string) (sid : string) : tx bool :=
  mapped ← browser_session_id cookie;
  let mapped := bool_decide (mapped = Some sid) in
  _ ← match cookie with
      | Some cookie => if mapped then remove "browser_sessions" (digest cookie) else mret ()
      | None => mret ()
      end;
  mret mapped.
End cookies.

(** ** Ending a session at once *)

Section direct.
Context {E : Env} {K : PublicKeys} {S_ : SamlPeers}.

Definition interaction_required (msg : string) : Error.t := Error.oauth "interaction_required" msg.
(** The relying-party session the claims of a hint name, and its client. *)
Definition hinted (request : LogoutRequest.t) (claims : json) : tx (Client.t * RpSession.t) :=
  cid ← some_or (Json.as_str (Json.index claims "aud")) (Error.bad "Invalid ID token audience");
  _ ← ensure (match request.(LogoutRequest.client_id) with Some c => String.eqb c cid | None => true end)
        (Error.bad "Logout client does not match ID token");
  client ← get Client.t "clients" cid;
  client ← some_or client (Error.bad "Unknown logout client");
  sid ← some_or (Json.as_str (Json.index claims "sid")) (Error.bad "ID token has no session identifier");
  rp ← get RpSession.t "rp_sessions" sid;
  rp ← some_or rp (Error.bad "Unknown RP session");
  at_ ← now;
  _ ← ensure (negb (negb (String.eqb rp.(RpSession.client_id) cid)
                    || negb (bool_decide (Json.as_str (Json.index claims "sub") = Some rp.(RpSession.subject)))
                    || (sat_add rp.(RpSession.expires_at) 3600 <? at_)))
        (Error.bad "ID token does not identify a recent session");
  mret (client, rp).

Definition direct_reply (propagation : json) (urls : list string) (clear_sso : bool) : json :=
  Json.obj [("logged_out", JBool true); ("redirect_uri", Json.index propagation "redirect_uri");
            ("frontchannel_urls", JArr (JStr <$> urls)); ("clear_sso", JBool clear_sso)].

(** The session is over already: this caller may still be sent on. *)
Definition session_gone (sid : string) : tx bool :=
  s ← get Session.t "sessions" sid;
  mret (match s with Some s => s.(Session.revoked) | None => true end).
Definition already_ended (cookie bearer : option string) (rp : RpSession.t)
    (return_ : option PostLogoutReturn.t) : tx (option json) :=
  gone ← (if rp.(RpSession.ended) then session_gone rp.(RpSession.session_id) else mret false);
  if negb (gone : bool) then mret None
  else
    bearer_sid ← match bearer with
                 | Some t => get string "session_tokens" (digest t)
                 | None => mret None
                 end;
    clear_sso ← forget_browser cookie rp.(RpSession.session_id);
    if (clear_sso : bool) || bool_decide (bearer_sid = Some rp.(RpSession.session_id)) then
      propagation ← saml_redirect rp.(RpSession.session_id) return_;
      urls ← frontchannel_urls rp.(RpSession.session_id);
      mret (Some (direct_reply propagation urls clear_sso))
    else mret None.

(** The session the caller holds. *)
Definition held_session (cookie bearer : option string) : tx Session.t :=
  match bearer with
  | Some token => us ← session token; mret us.2
  | None =>
      s ← browser_session cookie;
      some_or s (interaction_required "Terminal confirmation required; use riauth logout")
  end.
Definition end_held (cid : string) (cookie : option string) (x : Session.t)
    (return_ : option PostLogoutReturn.t) : tx json :=
  urls ← frontchannel_urls x.(Session.id);
  _ ← put "sessions" x.(Session.id) (revoked x);
  _ ← queue_session x.(Session.id);
  _ ← enqueue ∅ x.(Session.identity).(Identity.user_id) SESSION_REVOKED "";
  _ ← audit x.(Session.identity).(Identity.user_id) "oidc.logout" cid;
  clear_sso ← forget_browser cookie x.(Session.id);
  propagation ← saml_redirect x.(Session.id) return_;
  mret (direct_reply propagation urls clear_sso).

(** [Core::end_session_direct]. *)
Definition end_session_direct (request : LogoutRequest.t) (cookie bearer : option string) : tx json :=
  _ ← ensure (negb (long_state request.(LogoutRequest.state))) (Error.bad "Logout state too long");
  hint ← some_or request.(LogoutRequest.id_token_hint)
           (interaction_required "Use riauth logout, or provide a session-bound ID token hint");
  claims ← verify_hint hint;
  cr ← hinted request claims;
  let client := cr.1 in
  let rp := cr.2 in
  redirect ← lift (logout_redirect (Some client) request.(LogoutRequest.post_logout_redirect_uri)
                     request.(LogoutRequest.state));
  let return_ := match request.(LogoutRequest.post_logout_redirect_uri), redirect with
                 | Some registered, Some rendered =>
                     Some (PostLogoutReturn.mk rp.(RpSession.client_id) registered rendered)
                 | _, _ => None
                 end in
  done ← already_ended cookie bearer rp return_;
  match done with
  | Some reply => mret reply
  | None =>
      x ← held_session cookie bearer;
      _ ← ensure (String.eqb x.(Session.id) rp.(RpSession.session_id))
            (interaction_required "ID token belongs to another session; use that account's terminal to log out");
      end_held rp.(RpSession.client_id) cookie x return_
  end.
End direct.

(** ** Confirmations *)

Section confirmations.
Context {E : Env} {K : PublicKeys} {S_ : SamlPeers}.

(** [context::requester]. *)
Definition requester : tx (option json) :=
  context ← current;
  at_ ← now;
  mret ((λ c, Json.obj [("ip", Json.of_option JStr c.(RequestContext.client_ip));
                        ("user_agent", Json.of_option JStr c.(RequestContext.user_agent));
                        ("at", JNum at_)]) <$> context).

(** Whose session the request is about: the client, the user and the session. *)
Definition subject : Type := option string * option string * option string.
Definition hinted_subject (client_id : option string) (hint : string) : tx subject :=
  claims ← verify_hint hint;
  cid ← some_or (Json.as_str (Json.index claims "aud")) (Error.bad "Invalid ID token audience");
  _ ← ensure (match client_id with Some c => String.eqb c cid | None => true end)
        (Error.bad "Logout client does not match hint");
  sid ← some_or (Json.as_str (Json.index claims "sid")) (Error.bad "Hint has no session");
  rp ← get RpSession.t "rp_sessions" sid;
  at_ ← now;
  rp ← some_or (match rp with
                | Some r =>
                    if String.eqb r.(RpSession.client_id) cid
                       && bool_decide (Json.as_str (Json.index claims "sub") = Some r.(RpSession.subject))
                       && (at_ <=? sat_add r.(RpSession.expires_at) 3600)
                    then Some r else None
                | None => None
                end) (Error.bad "Unknown or expired RP session");
  mret (Some cid, Some rp.(RpSession.user_id), Some rp.(RpSession.session_id)).
Definition request_subject (request : LogoutRequest.t) (cookie : option string) : tx subject :=
  match request.(LogoutRequest.id_token_hint) with
  | Some hint => hinted_subject request.(LogoutRequest.client_id) hint
  | None =>
      s ← browser_session cookie;
      mret (request.(LogoutRequest.client_id), (λ s, s.(Session.identity).(Identity.user_id)) <$> s,
            Session.id <$> s)
  end.
Definition known_client (client_id : option string) : tx (option Client.t) :=
  match client_id with
  | Some id => c ← get Client.t "clients" id; c ← some_or c (Error.bad "Unknown logout client"); mret (Some c)
  | None => mret None
  end.

(** [Core::logout_confirmation]. *)
Definition logout_confirmation (request : LogoutRequest.t) (cookie : option string) : tx json :=
  requested_from ← requester;
  subject ← request_subject request cookie;
  let '(cid, user_id, session_id) := subject in
  client ← known_client cid;
  redirect ← lift (logout_redirect client request.(LogoutRequest.post_logout_redirect_uri)
                     request.(LogoutRequest.state));
  id ← id;
  code ← user_code;
  binding ← random_token "ri_logout_";
  at_ ← now;
  norm ← lift (normalize_code code);
  _ ← put_confirmation (Confirmation.mk id code (digest binding) (wadd at_ 600) cid user_id session_id
                          redirect request.(LogoutRequest.post_logout_redirect_uri) None None requested_from);
  _ ← put "logout_codes" (digest norm) id;
  mret (Json.obj [("interaction_required", JBool true); ("user_code", JStr code);
                  ("expires_at", JNum (wadd at_ 600));
                  ("instruction", JStr ("Run riauth logout-request approve " +:+ code
                                        +:+ " in the account's terminal"));
                  ("resume_uri", JStr (logout_path id));
                  ("set_cookie", JStr (binding_cookie "logout" id binding (logout_path id) 600))]).

(** [Core::end_session]: two transactions. *)
Definition end_session (request : LogoutRequest.t) (cookie bearer : option string) (s : St.t) :
    Result json * St.t :=
  match write (end_session_direct request cookie bearer) s with
  | (Ok v, s') => (Ok v, s')
  | (Err e, s') =>
      if String.eqb e.(Error.code) "interaction_required" then write (logout_confirmation request cookie) s'
      else (Err e, s')
  end.

Definition other_user (c : Confirmation.t) (user_id : string) : bool :=
  match c.(Confirmation.user_id) with Some u => negb (String.eqb u user_id) | None => false end.
(** [Core::logout_request_details]. *)
Definition logout_request_details (token code : string) : tx json :=
  us ← session token;
  c ← lookup_confirmation code;
  _ ← ensure (negb (other_user c us.1.(User.id))) Error.forbidden;
  redirect ← confirmation_redirect c;
  mret (Json.obj
    [("client_id", Json.of_option JStr c.(Confirmation.client_id));
     ("redirect_uri", Json.of_option JStr redirect); ("expires_at", JNum c.(Confirmation.expires_at));
     ("decided", JBool (bool_decide (is_Some c.(Confirmation.result))));
     ("username", JStr us.1.(User.username));
     ("session_id", Json.of_option JStr c.(Confirmation.session_id));
     ("requested_from", default JNull c.(Confirmation.requested_from))]).

(** [Core::confirm_logout]. *)
Definition confirm_logout (c : Confirmation.t) (user : User.t) (sid : string) : tx unit :=
  x ← get Session.t "sessions" sid;
  x ← some_or (match x with
               | Some x => if String.eqb x.(Session.identity).(Identity.user_id) user.(User.id)
                           then Some x else None
               | None => None
               end) Error.forbidden;
  urls ← frontchannel_urls sid;
  _ ← put "sessions" sid (revoked x);
  _ ← queue_session sid;
  _ ← enqueue ∅ user.(User.id) SESSION_REVOKED "";
  return_ ← confirmation_return c;
  propagation ← saml_redirect sid return_;
  let redirect := Json.as_str (Json.index propagation "redirect_uri") in
  _ ← put_confirmation (Confirmation.with_result c (Some sid) (logout_result true redirect urls));
  audit user.(User.id) "logout.confirmed" (default "session" c.(Confirmation.client_id)).

(** [Core::logout_request_decide]: the account's terminal. *)
Definition logout_request_decide (token code : string) (approve : bool) : tx json :=
  us ← session token;
  let user := us.1 in
  let own := us.2 in
  c ← lookup_confirmation code;
  _ ← ensure (negb (other_user c user.(User.id))) Error.forbidden;
  _ ← ensure (bool_decide (c.(Confirmation.result) = None)) (Error.conflict "Logout request already decided");
  at_ ← now;
  _ ← ensure (negb (wadd own.(Session.identity).(Identity.auth_time) 300 <? at_))
        (Error.oauth "login_required" "Log in again before confirming logout");
  _ ← (if approve then confirm_logout c user (default own.(Session.id) c.(Confirmation.session_id))
       else deny_logout c user.(User.id));
  mret (Json.obj [("approved", JBool approve); ("delivery", JStr "original_browser")]).

(** [session_ended]: the session can never authenticate again. *)
Definition session_ended (sid : string) : tx bool :=
  x ← get Session.t "sessions" sid;
  at_ ← now;
  match x with
  | Some x =>
      if x.(Session.revoked) || (x.(Session.expires_at) <=? at_) then mret true
      else
        user ← catch (identity_user x.(Session.identity));
        match user with
        | Ok _ => mret false
        | Err e => if Error.is_server_error e then fail e else mret true
        end
  | None => mret true
  end.

(** The body and the cookies of the page's answer. *)
Definition page_reply : Type := json * list string.
Definition done_reply (id : string) (cookies : list string) : page_reply :=
  (Json.obj [("status", JStr "done"); ("continue", JStr (logout_path id))], cookies).
Definition session_mismatch : Error.t :=
  Error.new FORBIDDEN "session_mismatch"
    "This sign-out request belongs to another session; approve it from that account's terminal".
(** The browser's own session, if it is the one asked for; [None] when nothing is
    left to end. *)
Definition own_target (c : Confirmation.t) (own : option Session.t) : tx (option Session.t) :=
  match c.(Confirmation.session_id) with
  | None => mret own
  | Some sid =>
      ended ← session_ended sid;
      if (ended : bool) then mret None
      else match own with
           | Some x => if String.eqb x.(Session.id) sid then mret (Some x) else fail session_mismatch
           | None => fail session_mismatch
           end
  end.
(** [Core::logout_browser_decide]. *)
Definition logout_browser_decide (id : string) (binding sso : option string) (approve : bool) :
    tx page_reply :=
  c ← bound id binding;
  _ ← ensure (bool_decide (c.(Confirmation.result) = None))
        (Error.new CONFLICT "request_decided" "This sign-out request was already decided");
  own ← browser_session sso;
  if negb approve then
    _ ← deny_logout c (match own with
                       | Some x => x.(Session.identity).(Identity.user_id)
                       | None => "anonymous"
                       end);
    mret (done_reply id [])
  else
    own ← own_target c own;
    match own with
    | None =>
        _ ← settle c (bool_decide (is_Some c.(Confirmation.session_id)));
        mret (done_reply id [])
    | Some x =>
        user ← identity_user x.(Session.identity);
        _ ← confirm_logout c user x.(Session.id);
        _ ← match sso with
            | Some cookie => remove "browser_sessions" (digest cookie)
            | None => mret ()
            end;
        mret (done_reply id (sso_cookies "" 0))
    end.
End confirmations.

(** ** What a browser is told *)

Section views.
Context {E : Env} {K : PublicKeys} {S_ : SamlPeers}.

Definition account_json (user : User.t) (x : Session.t) : json :=
  Json.obj [("username", JStr user.(User.username)); ("display_name", JStr user.(User.display_name));
            ("mfa", JBool x.(Session.identity).(Identity.mfa))].
Definition own_account (own : option Session.t) : tx json :=
  match own with
  | Some x => user ← identity_user x.(Session.identity); mret (account_json user x)
  | None => mret JNull
  end.
Definition application_json (c : Confirmation.t) (client : option Client.t) (redirect : option string) : json :=
  let host := (redirect ≫= url_parse) ≫= Url.host_str in
  Json.of_option (λ cid, Json.obj [("client_id", JStr cid);
                                   ("name", JStr (default cid (Client.name <$> client)));
                                   ("host", Json.of_option JStr host)]) c.(Confirmation.client_id).
Definition matches_browser (c : Confirmation.t) (own : option Session.t) : bool :=
  match own with
  | Some x => match c.(Confirmation.session_id) with Some sid => String.eqb sid x.(Session.id) | None => true end
  | None => false
  end.
(** [Core::logout_state]. *)
Definition logout_state (id : string) (binding sso : option string) : tx json :=
  c ← bound id binding;
  own ← browser_session sso;
  account ← own_account own;
  client ← match c.(Confirmation.client_id) with
           | Some cid => get Client.t "clients" cid
           | None => mret None
           end;
  redirect ← confirmation_redirect c;
  ended ← match c.(Confirmation.session_id) with Some sid => session_ended sid | None => mret false end;
  let done := bool_decide (is_Some c.(Confirmation.result)) in
  mret (Json.obj
    [("kind", JStr "logout"); ("status", JStr (if done then "done" else "confirm")); ("reason", JNull);
     ("expires_at", JNum c.(Confirmation.expires_at)); ("application", application_json c client redirect);
     ("account", account);
     ("session_ref", Json.of_option (λ x, JStr (session_ref id x.(Session.id))) own);
     ("pinned", JBool false); ("requirements", JNull); ("consent", JNull);
     ("logout", Json.obj [("targeted", JBool (bool_decide (is_Some c.(Confirmation.session_id))));
                          ("matches_browser", JBool (matches_browser c own)); ("ended", JBool ended)]);
     ("terminal", Json.obj [("user_code", JStr c.(Confirmation.code));
                            ("issuer", JStr config.(Config.issuer))]);
     ("continue", if done then JStr (logout_path id) else JNull); ("error", JNull); ("message", JNull)]).

(** The session whose front-channel addresses a stored result still leads to. *)
Definition front_session (c : Confirmation.t) (result : json) : option string :=
  if bool_decide (Json.index result "logged_out" = JBool true) then
    match c.(Confirmation.completed_session_id) with
    | Some sid => Some sid
    | None =>
        match Json.index result "frontchannel_urls" with
        | JArr (_ :: _) => c.(Confirmation.session_id)
        | _ => None
        end
    end
  else None.
(** The return asked for is no longer registered. *)
Definition suppressed (c : Confirmation.t) : tx bool :=
  match c.(Confirmation.redirect_uri) with
  | Some _ => registered ← confirmation_redirect c; mret (bool_decide (registered = None))
  | None => mret false
  end.
(** A stored result, with its redirect dropped when it is no longer registered and
    its addresses read again. *)
Definition resumed (c : Confirmation.t) (suppress : bool) (result : json) : tx json :=
  let sid := match c.(Confirmation.completed_session_id) with
             | Some sid => Some sid
             | None => c.(Confirmation.session_id)
             end in
  internal ← match sid, Json.as_str (Json.index result "redirect_uri") with
             | Some sid, Some uri => is_continuation sid uri
             | _, _ => mret false
             end;
  let result := if suppress && negb (internal : bool) then Json.set "redirect_uri" JNull result else result in
  urls ← match front_session c result with Some sid => frontchannel_urls sid | None => mret [] end;
  mret (Json.set "frontchannel_urls" (JArr (JStr <$> urls)) result).
(** [Core::logout_request_resume]. *)
Definition logout_request_resume (id : string) (binding : option string) : tx json :=
  c ← get Confirmation.t "logout_confirmations" id;
  at_ ← now;
  c ← some_or (match c with
               | Some c => if at_ <? c.(Confirmation.expires_at) then Some c else None
               | None => None
               end) (Error.missing "Logout confirmation expired");
  _ ← ensure (bound_by binding c) Error.unauthorized;
  suppress ← suppressed c;
  match c.(Confirmation.result) with
  | Some result => resumed c suppress result
  | None => mret (Json.obj [("interaction_required", JBool true); ("user_code", JStr c.(Confirmation.code));
                            ("resume_uri", JStr (logout_path id))])
  end.

(** [session_state] with a given salt, and [Core::session_check]. *)
Definition salted_state (client_id origin session_id salt : string) : tx string :=
  secret ← get string "meta" "dummy_hash";
  secret ← some_or secret Error.internal;
  mret (digest (client_id +:+ NUL +:+ origin +:+ NUL +:+ session_id +:+ NUL +:+ secret
                +:+ NUL +:+ salt) +:+ "." +:+ salt).
Definition check_status (v : string) : json := Json.obj [("status", JStr v)].
Definition session_check (client_id origin state : string) (cookie : option string) : tx json :=
  client ← get Client.t "clients" client_id;
  client ← some_or (match client with
                    | Some c => if c.(Client.enabled) then Some c else None
                    | None => None
                    end) Error.forbidden;
  _ ← ensure (existsb (λ u, match url_parse u with
                            | Some u => String.eqb (url_origin u) origin
                            | None => false
                            end) client.(Client.redirect_uris)) Error.forbidden;
  match Str.split_once "." state with
  | None => mret (check_status "error")
  | Some (_, salt) =>
      if negb (Str.len salt =? 43) || (128 <? Str.len state) then mret (check_status "error")
      else
        s ← browser_session cookie;
        match s with
        | None => mret (check_status "changed")
        | Some s =>
            expected ← salted_state client_id origin s.(Session.id) salt;
            mret (check_status (if String.eqb state expected then "unchanged" else "changed"))
        end
  end.
End views.

(** ** What is proved *)

Section theory.
Context {E : Env} {K : PublicKeys} {S_ : SamlPeers}.
Implicit Types (s : St.t) (c : Confirmation.t).

#[global] Instance pure_public_keys : Pure public_keys.
Proof. unfold public_keys, ring_keys. solve_pure. Qed.
#[global] Instance pure_verify_hint t : Pure (verify_hint t).
Proof. unfold verify_hint. solve_pure. Qed.
#[global] Instance pure_hinted r v : Pure (hinted r v).
Proof. unfold hinted. solve_pure. Qed.
#[global] Instance pure_browser_session_id ck : Pure (browser_session_id ck).
Proof. unfold browser_session_id. solve_pure. Qed.
#[global] Instance pure_held_session ck b : Pure (held_session ck b).
Proof. unfold held_session. solve_pure. Qed.
#[global] Instance pure_lookup_confirmation code : Pure (lookup_confirmation code).
Proof. unfold lookup_confirmation. solve_pure. Qed.
#[global] Instance pure_bound id b : Pure (bound id b).
Proof. unfold bound. solve_pure. Qed.
#[global] Instance pure_confirmation_redirect c : Pure (confirmation_redirect c).
Proof. unfold confirmation_redirect. solve_pure. Qed.
#[global] Instance pure_confirmation_return c : Pure (confirmation_return c).
Proof. unfold confirmation_return. solve_pure. Qed.
#[global] Instance pure_session_ended sid : Pure (session_ended sid).
Proof. unfold session_ended. solve_pure. Qed.
#[global] Instance pure_own_target c o : Pure (own_target c o).
Proof. unfold own_target. solve_pure. Qed.
#[global] Instance pure_is_continuation sid uri : Pure (is_continuation sid uri).
Proof. unfold is_continuation. solve_pure. Qed.
#[global] Instance touches_forget_browser ck sid : Touches ["browser_sessions"] (forget_browser ck sid).
Proof. unfold forget_browser. solve_touches. Qed.
Lemma touches_settle c b : Touches ["logout_confirmations"] (settle c b).
Proof. unfold settle, put_confirmation. solve_touches. Qed.
Lemma touches_deny c a : Touches ["logout_confirmations"; "audit"] (deny_logout c a).
Proof. pose proof touches_settle. unfold deny_logout. solve_touches. Qed.
End theory.
#[export] Hint Resolve touches_forget_browser touches_settle touches_deny : tx.

(** ** Whose session ends, and how a decision is kept *)

Section decisions.
Context {E : Env} {K : PublicKeys} {S_ : SamlPeers}.
Implicit Types (s : St.t) (c : Confirmation.t) (x : Session.t).

(** The ways a relying party's request ends a session. *)
Inductive SignOutOp :=
| Direct (request : LogoutRequest.t) (cookie bearer : option string)
| Terminal (token code : string) (approve : bool)
| Page (id : string) (binding sso : option string) (approve : bool).
Definition sign_out_run (op : SignOutOp) : tx unit :=
  match op with
  | Direct request cookie bearer => _ ← end_session_direct request cookie bearer; mret ()
  | Terminal token code approve => _ ← logout_request_decide token code approve; mret ()
  | Page id binding sso approve => _ ← logout_browser_decide id binding sso approve; mret ()
  end.

(** The confirmation an operation decides. *)
Definition asked (op : SignOutOp) s c : Prop :=
  match op with
  | Direct _ _ _ => False
  | Terminal token code _ =>
      lookup_confirmation code s = (Ok c, s)
      ∧ ∃ u own, session token s = (Ok (u, own), s) ∧ other_user c u.(User.id) = false
          ∧ s.(St.clock) ≤ wadd own.(Session.identity).(Identity.auth_time) 300
  | Page id binding _ _ => bound id binding s = (Ok c, s)
  end.
(** The session the caller may end with it. *)
Definition rightful (op : SignOutOp) s x : Prop :=
  match op with
  | Direct request cookie bearer =>
      held_session cookie bearer s = (Ok x, s)
      ∧ ∃ hint claims client rp, request.(LogoutRequest.id_token_hint) = Some hint
          ∧ verify_hint hint s = (Ok claims, s) ∧ hinted request claims s = (Ok (client, rp), s)
          ∧ rp.(RpSession.session_id) = x.(Session.id)
  | Terminal token code approve =>
      approve = true ∧ ∃ c u own, asked op s c ∧ session token s = (Ok (u, own), s)
        ∧ x.(Session.identity).(Identity.user_id) = u.(User.id)
        ∧ x.(Session.id) = default own.(Session.id) c.(Confirmation.session_id)
  | Page id binding sso approve =>
      approve = true ∧ ∃ c, asked op s c ∧ browser_session sso s = (Ok (Some x), s)
        ∧ default x.(Session.id) c.(Confirmation.session_id) = x.(Session.id)
  end.

(** Confirmations are stored under their own ids. *)
Definition confirmations_keyed s : Prop := ∀ k c,
  s.(St.db) !! ("logout_confirmations", k) = Some (RConfirmation c) → c.(Confirmation.id) = k.
(** One confirmation gets its result, and no other changes. *)
Definition decides c s s' : Prop :=
  (∃ sid r, s'.(St.db) !! ("logout_confirmations", c.(Confirmation.id))
            = Some (RConfirmation (Confirmation.with_result c sid r)))
  ∧ ∀ k, k ≠ c.(Confirmation.id) →
      s'.(St.db) !! ("logout_confirmations", k) = s.(St.db) !! ("logout_confirmations", k).

Lemma saml_redirect_at sid o s r s' b k :
  saml_redirect sid o s = (r, s') →
  b ∉ ["saml_logout_flows"; "saml_logout_sessions"; CURSORS; BOUNDS] →
  s'.(St.db) !! (b, k) = s.(St.db) !! (b, k).
Proof. intros Hrun. pose proof (touches_saml_redirect sid o). by eapply touches_at. Qed.
Lemma confirm_logout_ok c user sid s u s' :
  confirm_logout c user sid s = (Ok u, s') →
  ∃ x, s.(St.db) !! ("sessions", sid) = Some (RSession x)
    ∧ x.(Session.identity).(Identity.user_id) = user.(User.id)
    ∧ s'.(St.db) !! ("sessions", sid) = Some (RSession (revoked x))
    ∧ (∀ k, k ≠ sid → s'.(St.db) !! ("sessions", k) = s.(St.db) !! ("sessions", k))
    ∧ decides c s s'.
Proof.
  unfold confirm_logout. intros Hrun. apply bind_ok in Hrun as (o & s1 & [-> Ho]%get_ok & Hrun).
  apply bind_ok in Hrun as (x & s1 & [Hx ->]%some_or_ok & Hrun).
  destruct o as [y|]; [|done]. simpl in Ho.
  destruct (String.eqb_spec y.(Session.identity).(Identity.user_id) user.(User.id)) as [Hu|]; [|done].
  injection Hx as ->. apply bind_ok in Hrun as (urls & s1 & Hurls & Hrun). rewrite (pure_run _ _ _ _ Hurls) in Hrun.
  apply bind_ok in Hrun as ([] & s2 & ->%put_ok & Hrun). apply bind_ok in Hrun as ([] & s3 & Hq & Hrun).
  apply bind_ok in Hrun as (seen & s4 & Hsig & Hrun). apply bind_ok in Hrun as (ret & s5 & Hret & Hrun).
  rewrite (pure_run _ _ _ _ Hret) in Hrun. apply bind_ok in Hrun as (prop & s6 & Hp & Hrun). cbv zeta in Hrun.
  apply bind_ok in Hrun as ([] & s7 & ->%put_ok & Ha).
  apply audit_event_run in Ha as (_ & _ & Ha); [|by vm_compute].
  assert (Hrest : ∀ b k, b ∉ ["rp_sessions"; "logout_deliveries"; "ssf_deliveries"; "saml_logout_flows";
      "saml_logout_sessions"; CURSORS; BOUNDS] → s6.(St.db) !! (b, k)
    = (<[("sessions", sid) := encode (revoked x)]> s.(St.db)) !! (b, k)).
  { intros b k Hb. rewrite (saml_redirect_at _ _ _ _ _ _ _ Hp) by set_solver.
    rewrite (touches_at ["ssf_deliveries"] _ _ _ _ _ _ Hsig) by set_solver.
    apply (touches_at ["rp_sessions"; "logout_deliveries"] _ _ _ _ _ _ Hq). set_solver. }
  exists x. split; [done|]. split; [done|].
  assert (Hses : ∀ k, s'.(St.db) !! ("sessions", k) = (<[("sessions", sid) := encode (revoked x)]> s.(St.db)) !! ("sessions", k)).
  { intros k. rewrite Ha by done. cbn [St.db St.set_db]. rewrite lookup_insert_ne by done. apply Hrest. bucket. }
  split; [rewrite Hses; apply lookup_insert_eq|]. split.
  { intros k Hk. rewrite Hses. by rewrite lookup_insert_ne by congruence. }
  split; [|intros k Hk]; [do 2 eexists|]; rewrite Ha by done; cbn [St.db St.set_db]; [apply lookup_insert_eq|].
  rewrite lookup_insert_ne by (intros [= <-]; by apply Hk). rewrite Hrest by bucket. by rewrite lookup_insert_ne by done.
Qed.
Lemma settle_decides c b s u s' : settle c b s = (Ok u, s') →
  decides c s s' ∧ ∀ k, s'.(St.db) !! ("sessions", k) = s.(St.db) !! ("sessions", k).
Proof.
  unfold settle. intros Hrun. apply bind_ok in Hrun as (r & s1 & Hr & Hrun). rewrite (pure_run _ _ _ _ Hr) in Hrun.
  unfold put_confirmation in Hrun. apply put_ok in Hrun as ->. cbn [St.db St.set_db]. split; [split|].
  - do 2 eexists. apply lookup_insert_eq.
  - intros k Hk. apply lookup_insert_ne. intros [= <-]. by apply Hk.
  - intros k. by apply lookup_insert_ne.
Qed.
Lemma deny_decides c a s u s' : deny_logout c a s = (Ok u, s') →
  decides c s s' ∧ ∀ k, s'.(St.db) !! ("sessions", k) = s.(St.db) !! ("sessions", k).
Proof.
  unfold deny_logout. intros Hrun. apply bind_ok in Hrun as ([] & s1 & [[(sid & r & Hd) Ho] Hs]%settle_decides & Ha).
  apply audit_event_run in Ha as (_ & _ & Ha); [|by vm_compute]. split; [split|].
  - exists sid, r. by rewrite Ha by done.
  - intros k Hk. rewrite Ha by done. by apply Ho.
  - intros k. rewrite Ha by done. apply Hs.
Qed.

Lemma forget_browser_same ck sid s s' : forget_browser ck sid s = (Ok false, s') → s' = s.
Proof.
  unfold forget_browser. intros Hrun. apply bind_ok in Hrun as (o & s1 & Ho & Hrun).
  rewrite (pure_run _ _ _ _ Ho) in Hrun. cbv zeta in Hrun.
  apply bind_ok in Hrun as ([] & s2 & Hr & [Hm ->]%ret_ok). rewrite <- Hm in Hr.
  destruct ck; by apply ret_ok in Hr as [_ ->].
Qed.
Lemma already_ended_none ck b rp ret s s' : already_ended ck b rp ret s = (Ok None, s') → s' = s.
Proof.
  unfold already_ended. intros Hrun. apply bind_ok in Hrun as (gone & s1 & Hg & Hrun).
  assert (s1 = s) as -> by (destruct (RpSession.ended rp); [eapply pure_run, Hg|by apply ret_ok in Hg as [_ ->]];
    unfold session_gone; solve_pure).
  destruct gone; [|by apply ret_ok in Hrun as [_ ->]]. simpl in Hrun.
  apply bind_ok in Hrun as (bs & s1 & Hb & Hrun).
  assert (s1 = s) as -> by (destruct b; [eapply pure_run, Hb; apply _|by apply ret_ok in Hb as [_ ->]]).
  apply bind_ok in Hrun as (clear & s1 & Hc & Hrun). destruct clear; simpl in Hrun; [by tx_inv|].
  apply forget_browser_same in Hc as ->. destruct (bool_decide _); [by tx_inv|]. by apply ret_ok in Hrun as [_ ->].
Qed.
Lemma touches_already_ended ck b rp ret :
  Touches ["browser_sessions"; "saml_logout_flows"; "saml_logout_sessions"; CURSORS; BOUNDS]
    (already_ended ck b rp ret).
Proof. pose proof touches_saml_redirect. unfold already_ended, session_gone. solve_touches. Qed.
Lemma already_ended_at ck b rp ret s r s' bk k :
  already_ended ck b rp ret s = (r, s') →
  bk ∉ ["browser_sessions"; "saml_logout_flows"; "saml_logout_sessions"; CURSORS; BOUNDS] →
  s'.(St.db) !! (bk, k) = s.(St.db) !! (bk, k).
Proof. intros Hrun. pose proof (touches_already_ended ck b rp ret). by eapply touches_at. Qed.

Lemma end_held_ok cid ck x ret s v s' :
  end_held cid ck x ret s = (Ok v, s') →
  s'.(St.db) !! ("sessions", x.(Session.id)) = Some (RSession (revoked x))
  ∧ (∀ k, k ≠ x.(Session.id) → s'.(St.db) !! ("sessions", k) = s.(St.db) !! ("sessions", k))
  ∧ ∀ k, s'.(St.db) !! ("logout_confirmations", k) = s.(St.db) !! ("logout_confirmations", k).
Proof.
  unfold end_held. intros Hrun. apply bind_ok in Hrun as (urls & s1 & Hu & Hrun). rewrite (pure_run _ _ _ _ Hu) in Hrun.
  apply bind_ok in Hrun as ([] & s2 & ->%put_ok & Hrun). apply bind_ok in Hrun as ([] & s3 & Hq & Hrun).
  apply bind_ok in Hrun as (seen & s4 & Hsig & Hrun). apply bind_ok in Hrun as ([] & s5 & Ha & Hrun).
  apply bind_ok in Hrun as (clear & s6 & Hc & Hrun). apply bind_ok in Hrun as (prop & s7 & Hp & [_ ->]%ret_ok).
  apply audit_event_run in Ha as (_ & _ & Ha); [|by vm_compute].
  assert (Hrest : ∀ b k, b ∉ ["rp_sessions"; "logout_deliveries"; "ssf_deliveries"; "audit"; "browser_sessions";
      "saml_logout_flows"; "saml_logout_sessions"; CURSORS; BOUNDS] → s7.(St.db) !! (b, k)
    = (<[("sessions", x.(Session.id)) := encode (revoked x)]> s.(St.db)) !! (b, k)).
  { intros b k Hb. rewrite (saml_redirect_at _ _ _ _ _ _ _ Hp) by set_solver.
    rewrite (touches_at ["browser_sessions"] _ _ _ _ _ _ Hc) by set_solver.
    rewrite Ha by set_solver. rewrite (touches_at ["ssf_deliveries"] _ _ _ _ _ _ Hsig) by set_solver.
    apply (touches_at ["rp_sessions"; "logout_deliveries"] _ _ _ _ _ _ Hq). set_solver. }
  split_and!.
  - rewrite Hrest by bucket. apply lookup_insert_eq.
  - intros k Hk. rewrite Hrest by bucket. by apply lookup_insert_ne; intros [= <-].
  - intros k. rewrite Hrest by bucket. by apply lookup_insert_ne.
Qed.

Lemma held_session_row ck b s x s' :
  held_session ck b s = (Ok x, s') → ∃ k, s.(St.db) !! ("sessions", k) = Some (RSession x).
Proof.
  unfold held_session. destruct b as [token|]; intros Hrun.
  - apply bind_ok in Hrun as ([u y] & s1 & (_ & _ & Hx)%session_row & [-> _]%ret_ok). done.
  - apply bind_ok in Hrun as (o & s1 & Ho & [Hx _]%some_or_ok). subst o.
    by destruct (browser_session_row _ _ _ _ Ho) as (_ & _ & Hk).
Qed.
Lemma direct_ok request ck b s v s' :
  sessions_keyed s → end_session_direct request ck b s = (Ok v, s') →
  only_ends (rightful (Direct request ck b) s) s s'
  ∧ ∀ k, s'.(St.db) !! ("logout_confirmations", k) = s.(St.db) !! ("logout_confirmations", k).
Proof.
  intros Hkeyed Hrun. unfold end_session_direct in Hrun. apply bind_ok in Hrun as ([] & s1 & [_ ->]%ensure_ok & Hrun).
  apply bind_ok in Hrun as (hint & s1 & [Hh ->]%some_or_ok & Hrun).
  apply bind_ok in Hrun as (claims & s1 & Hv & Hrun). pose proof (pure_run _ _ _ _ Hv) as ->.
  apply bind_ok in Hrun as ([client rp] & s1 & Hr & Hrun). pose proof (pure_run _ _ _ _ Hr) as ->. cbv zeta in Hrun.
  apply bind_ok in Hrun as (red & s1 & [_ ->]%lift_ok & Hrun). cbn [fst snd] in Hrun.
  apply bind_ok in Hrun as (done_ & s1 & Hd & Hrun). destruct done_ as [reply|].
  { apply ret_ok in Hrun as [_ ->]. split; intros k; [left|]; apply (already_ended_at _ _ _ _ _ _ _ _ _ Hd); bucket. }
  apply already_ended_none in Hd as ->. apply bind_ok in Hrun as (x & s1 & Hx & Hrun).
  pose proof (pure_run _ _ _ _ Hx) as ->. apply bind_ok in Hrun as ([] & s1 & [He ->]%ensure_ok & Hrun).
  apply String.eqb_eq in He. apply end_held_ok in Hrun as (H1 & H2 & H3). split; [|done].
  destruct (held_session_row _ _ _ _ _ Hx) as [k Hk]. intros j.
  destruct (decide (j = x.(Session.id))) as [->|Hj]; [right|left; by apply H2].
  exists x. split; [by rewrite (Hkeyed _ _ Hk)|]. split; [done|]. split; [done|].
  by exists hint, claims, client, rp.
Qed.

(** A session is revoked under the key its confirmation gives. *)
Lemma one_ends P sid x s s' :
  s.(St.db) !! ("sessions", sid) = Some (RSession x) →
  s'.(St.db) !! ("sessions", sid) = Some (RSession (revoked x)) →
  (∀ k, k ≠ sid → s'.(St.db) !! ("sessions", k) = s.(St.db) !! ("sessions", k)) → P x → only_ends P s s'.
Proof.
  intros Hx H1 H2 HP k. destruct (decide (k = sid)) as [->|Hk]; [right; by exists x|left; by apply H2].
Qed.
Lemma same_ends P s s' :
  (∀ k, s'.(St.db) !! ("sessions", k) = s.(St.db) !! ("sessions", k)) → only_ends P s s'.
Proof. intros Hs k. by left. Qed.

Lemma terminal_ok token code approve s v s' :
  sessions_keyed s → logout_request_decide token code approve s = (Ok v, s') →
  only_ends (rightful (Terminal token code approve) s) s s'
  ∧ ∃ c, asked (Terminal token code approve) s c ∧ c.(Confirmation.result) = None ∧ decides c s s'.
Proof.
  intros Hkeyed Hrun. unfold logout_request_decide in Hrun.
  apply bind_ok in Hrun as ([u own] & s1 & Hu & Hrun). pose proof (pure_run _ _ _ _ Hu) as ->. cbv zeta in Hrun.
  apply bind_ok in Hrun as (c & s1 & Hc & Hrun). pose proof (pure_run _ _ _ _ Hc) as ->.
  apply bind_ok in Hrun as ([] & s1 & [Ho ->]%ensure_ok & Hrun).
  apply bind_ok in Hrun as ([] & s1 & [Hn ->]%ensure_ok & Hrun).
  apply bind_ok in Hrun as (at_ & s1 & [-> ->]%now_ok & Hrun).
  apply bind_ok in Hrun as ([] & s1 & [Hf ->]%ensure_ok & Hrun). apply negb_true_iff in Ho, Hf.
  apply Z.ltb_ge in Hf. apply bool_decide_eq_true in Hn. cbn [fst snd] in *.
  assert (Hask : asked (Terminal token code approve) s c) by (split; [done|by exists u, own]).
  apply bind_ok in Hrun as ([] & s1 & Hrun & [_ ->]%ret_ok). destruct approve.
  - apply confirm_logout_ok in Hrun as (x & Hx & Hown & H1 & H2 & Hd).
    split; [|by exists c]. apply (one_ends _ _ _ _ _ Hx H1 H2). split; [done|].
    exists c, u, own. split_and!; [done|done|done|]. by apply Hkeyed in Hx.
  - apply deny_decides in Hrun as [Hd Hs]. split; [by apply same_ends|by exists c].
Qed.
Lemma page_ok id binding sso approve s v s' :
  sessions_keyed s → logout_browser_decide id binding sso approve s = (Ok v, s') →
  only_ends (rightful (Page id binding sso approve) s) s s'
  ∧ ∃ c, asked (Page id binding sso approve) s c ∧ c.(Confirmation.result) = None ∧ decides c s s'.
Proof.
  intros Hkeyed Hrun. unfold logout_browser_decide in Hrun.
  apply bind_ok in Hrun as (c & s1 & Hc & Hrun). pose proof (pure_run _ _ _ _ Hc) as ->.
  apply bind_ok in Hrun as ([] & s1 & [Hn%bool_decide_eq_true ->]%ensure_ok & Hrun).
  apply bind_ok in Hrun as (own & s1 & Hown & Hrun). pose proof (pure_run _ _ _ _ Hown) as ->.
  destruct approve; simpl in Hrun.
  2: { apply bind_ok in Hrun as ([] & s1 & [Hd Hs]%deny_decides & [_ ->]%ret_ok).
       split; [by apply same_ends|by exists c]. }
  apply bind_ok in Hrun as (t & s1 & Ht & Hrun). pose proof (pure_run _ _ _ _ Ht) as ->.
  destruct t as [x|].
  2: { apply bind_ok in Hrun as ([] & s1 & [Hd Hs]%settle_decides & [_ ->]%ret_ok).
       split; [by apply same_ends|by exists c]. }
  assert (Hx : own = Some x ∧ default x.(Session.id) c.(Confirmation.session_id) = x.(Session.id)).
  { unfold own_target in Ht. destruct (Confirmation.session_id c) as [sid|]; [|by apply ret_ok in Ht as [-> _]].
    apply bind_ok in Ht as (e & s1 & _ & Ht). destruct e; [done|]. destruct own as [y|]; [|done].
    destruct (String.eqb_spec y.(Session.id) sid); [|done]. by apply ret_ok in Ht as [[= ->] _]. }
  destruct Hx as [-> Hx]. apply bind_ok in Hrun as (user & s1 & Hu & Hrun). pose proof (pure_run _ _ _ _ Hu) as ->.
  apply bind_ok in Hrun as ([] & s1 & (y & Hy & Hown' & H1 & H2 & Hd1 & Hd2)%confirm_logout_ok & Hrun).
  apply bind_ok in Hrun as ([] & s2 & Hrm & [_ ->]%ret_ok).
  assert (Hsame : ∀ b k, b ≠ "browser_sessions" → s2.(St.db) !! (b, k) = s1.(St.db) !! (b, k)).
  { intros b k Hb. destruct sso; [|by apply ret_ok in Hrm as [_ ->]]. apply remove_ok in Hrm as ->.
    cbn [St.db St.set_db]. apply lookup_delete_ne. congruence. }
  destruct (browser_session_row _ _ _ _ Hown) as (_ & _ & k & Hk).
  assert (y = x) as ->. { rewrite <- (Hkeyed _ _ Hk) in Hk. rewrite Hy in Hk. by injection Hk. }
  split.
  - apply (one_ends _ x.(Session.id) x); [done|by rewrite Hsame|intros j Hj; rewrite Hsame by done; by apply H2|].
    split; [done|]. by exists c.
  - exists c. split; [done|]. split; [done|]. split.
    + destruct Hd1 as (sid & r & Hd1). exists sid, r. by rewrite Hsame.
    + intros j Hj. rewrite Hsame by done. by apply Hd2.
Qed.

(** C15: a relying party's sign-out ends only a session the caller holds: directly,
    the live session of the bearer token or the browser, and only if the ID token
    hint names a relying-party session of it; by a terminal, a session of the
    account that approved with a recent sign-in, for a request about that
    account; on the page, the browser's own session, for the browser that holds
    the request. *)
Theorem sign_out_ends_own_session op s s' :
  sessions_keyed s → sign_out_run op s = (Ok (), s') → only_ends (rightful op s) s s'.
Proof.
  intros Hkeyed Hrun. destruct op; apply bind_ok in Hrun as (v & s1 & Hrun & [_ ->]%ret_ok).
  - by eapply direct_ok.
  - by eapply terminal_ok.
  - by eapply page_ok.
Qed.

(** C37: a sign-out request is decided once.  A decision is taken only on a live
    request that has none, and gives that request its result; nothing changes a
    result afterwards, and ending a session directly decides no request. *)
Theorem sign_out_decided_once op s s' k c r :
  sessions_keyed s → confirmations_keyed s → sign_out_run op s = (Ok (), s') →
  s.(St.db) !! ("logout_confirmations", k) = Some (RConfirmation c) → c.(Confirmation.result) = Some r →
  s'.(St.db) !! ("logout_confirmations", k) = Some (RConfirmation c)
  ∧ ¬ asked op s c
  ∧ ∀ b, asked op s b → b.(Confirmation.result) = None ∧ decides b s s'.
Proof.
  intros Hkeyed Hck Hrun Hc Hr.
  assert (Hone : (∀ j, s'.(St.db) !! ("logout_confirmations", j) = s.(St.db) !! ("logout_confirmations", j))
      ∧ (∀ b, ¬ asked op s b)
    ∨ ∃ b, asked op s b ∧ b.(Confirmation.result) = None ∧ decides b s s').
  { destruct op; apply bind_ok in Hrun as (v & s1 & Hrun & [_ ->]%ret_ok).
    - left. split; [by eapply direct_ok|by intros b ?].
    - right. by eapply terminal_ok in Hrun as [_ ?].
    - right. by eapply page_ok in Hrun as [_ ?]. }
  destruct Hone as [[Hsame Hno]|(b & Hb & Hn & Hd)].
  { rewrite Hsame. split; [done|]. split; [apply Hno|]. intros b Hb. by destruct (Hno b). }
  assert (Huniq : ∀ a, asked op s a → a = b).
  { intros a Ha. destruct op; simpl in Ha, Hb; [done| |].
    - destruct Ha as [Ha _], Hb as [Hb _]. rewrite Ha in Hb. by injection Hb.
    - rewrite Ha in Hb. by injection Hb. }
  assert (Hbk : ∃ j, s.(St.db) !! ("logout_confirmations", j) = Some (RConfirmation b)).
  { destruct op; simpl in Hb; [done| |].
    - destruct Hb as [Hb _]. unfold lookup_confirmation in Hb. tx_inv.
      repeat (case_match; simplify_eq/=). by eexists.
    - unfold bound in Hb. tx_inv. repeat (case_match; simplify_eq/=). by eexists. }
  destruct Hbk as [j Hj]. assert (Hkb : k ≠ b.(Confirmation.id)).
  { intros ->. rewrite <- (Hck _ _ Hj) in Hj. rewrite Hj in Hc. injection Hc as ->. congruence. }
  split; [rewrite (proj2 Hd) by done; done|]. split.
  - intros Ha%Huniq. subst. congruence.
  - intros a Ha%Huniq. by subst.
Qed.
End decisions.

(** ** Where the browser is sent *)

Section returns.
Context {E : Env} {K : PublicKeys} {S_ : SamlPeers}.
Implicit Types (s : St.t) (c : Confirmation.t).

Lemma index_set_ne k j w v : k ≠ j → Json.index (Json.set k w v) j = Json.index v j.
Proof. intros Hk. unfold Json.index. by rewrite Json.get_set_ne. Qed.

(** The return is registered for the client, as the records stand. *)
Definition return_registered c s : Prop :=
  ∃ cid uri client, c.(Confirmation.client_id) = Some cid ∧ c.(Confirmation.post_logout_redirect_uri) = Some uri
    ∧ s.(St.db) !! ("clients", cid) = Some (RClient client) ∧ registered_return uri (Some client) = true.
Lemma confirmation_redirect_ok c s u s' :
  confirmation_redirect c s = (Ok (Some u), s') → return_registered c s ∧ c.(Confirmation.redirect_uri) = Some u.
Proof.
  unfold confirmation_redirect. intros Hrun.
  destruct (Confirmation.client_id c) as [cid|] eqn:Hcid; [|done].
  destruct (Confirmation.post_logout_redirect_uri c) as [uri|] eqn:Huri; [|done].
  apply bind_ok in Hrun as (o & s1 & [-> Ho]%get_ok & [Hu _]%ret_ok).
  destruct (registered_return uri o) eqn:Hreg; [|done]. destruct o as [client|]; [|done].
  split; [by exists cid, uri, client|done].
Qed.

(** A polled sign-out sends the browser to an address outside the server only
    while that address is registered for the client: whatever the stored result
    says, the redirect delivered is a continuation of the SAML logout of the very
    session that was ended, or the client's registration still lists the return
    that was asked for, or none was asked for.  It goes only to the browser that
    holds the request. *)
Theorem sign_out_return_registered id binding s v s' uri :
  logout_request_resume id binding s = (Ok v, s') → Json.as_str (Json.index v "redirect_uri") = Some uri →
  ∃ c, s.(St.db) !! ("logout_confirmations", id) = Some (RConfirmation c)
    ∧ s.(St.clock) < c.(Confirmation.expires_at) ∧ bound_by binding c = true
    ∧ (return_registered c s ∨ c.(Confirmation.redirect_uri) = None
       ∨ ∃ sid, (c.(Confirmation.completed_session_id) = Some sid
                 ∨ c.(Confirmation.completed_session_id) = None ∧ c.(Confirmation.session_id) = Some sid)
           ∧ is_continuation sid uri s = (Ok true, s)).
Proof.
  intros Hrun Huri. unfold logout_request_resume in Hrun.
  apply bind_ok in Hrun as (o & s1 & [-> Ho]%get_ok & Hrun). apply bind_ok in Hrun as (at_ & s1 & [-> ->]%now_ok & Hrun).
  apply bind_ok in Hrun as (c & s1 & [Hc ->]%some_or_ok & Hrun). destruct o as [c'|]; [|done].
  destruct (Z.ltb_spec s.(St.clock) c'.(Confirmation.expires_at)); [|done]. injection Hc as ->.
  apply bind_ok in Hrun as ([] & s1 & [Hb ->]%ensure_ok & Hrun).
  exists c. split; [done|]. split; [done|]. split; [done|].
  apply bind_ok in Hrun as (sup & s1 & Hsup & Hrun).
  assert (s1 = s ∧ (sup = false → return_registered c s ∨ c.(Confirmation.redirect_uri) = None)) as [-> Hreg].
  { unfold suppressed in Hsup. destruct (Confirmation.redirect_uri c) as [u|] eqn:Hu; [|apply ret_ok in Hsup as [-> ->]; by auto].
    apply bind_ok in Hsup as (r & s2 & Hr & [-> ->]%ret_ok). rewrite (pure_run _ _ _ _ Hr). split; [done|].
    intros Hn%bool_decide_eq_false. destruct r as [w|]; [|done]. left. by apply confirmation_redirect_ok in Hr as [? _]. }
  destruct sup; [|destruct Hreg; auto]. right. right.
  destruct (Confirmation.result c) as [result|]; [|by apply ret_ok in Hrun as [-> _]].
  unfold resumed in Hrun. cbv zeta in Hrun. apply bind_ok in Hrun as (int & s1 & Hint & Hrun).
  apply bind_ok in Hrun as (urls & s2 & _ & [-> _]%ret_ok). rewrite index_set_ne in Huri by done.
  destruct int; simpl in Huri.
  2: { unfold Json.index in Huri. destruct result; try done. by rewrite Json.get_set_eq in Huri. }
  destruct (Confirmation.completed_session_id c) as [sid|] eqn:Hsid;
    [|destruct (Confirmation.session_id c) as [sid|] eqn:Hsid2; [|by apply ret_ok in Hint as [? _]]].
  all: rewrite Huri in Hint; exists sid; split; [auto|];
    rewrite (pure_run _ _ _ _ Hint) in Hint; exact Hint.
Qed.
End returns.

(** ** An example *)

Module SignOutDemo.
#[local] Instance keys : PublicKeys := {| key_jwk k := Ok (Json.obj [("kid", JStr k.(SigningKey.kid))]) |}.

(** A client with a registered return, and a request its browser holds. *)
Definition settings : ProviderSettings.t :=
  ProviderSettings.mk None None None None None ∅ None None None [] None ∅ None None None None false
    None [] false false None ∅ false false ∅ None None None None ∅ ["https://crm.test/bye"] None None
    [] false false false Policy.default None false false false.
Definition client : Client.t := Client.mk "crm" "CRM" None [] ∅ ∅ false true false settings.
Definition request (id : string) (result : option json) : Confirmation.t :=
  Confirmation.mk id "BCDFG-HJKLM" "#bind" 1600 (Some "crm") (Some "u-amy") (Some "sess-2")
    (Some "https://crm.test/bye?state=x") (Some "https://crm.test/bye") None result None.
Definition denied : json := logout_result false None [].
Definition state : St.t :=
  St.mk (<[("clients", "crm") := RClient client]>
           (<[("logout_confirmations", "lr-1") := RConfirmation (request "lr-1" None)]>
             (<[("logout_confirmations", "lr-0") := RConfirmation (request "lr-0" (Some denied))]>
               SessionsDemo.state.(St.db)))) 1000 0 None.
Definition op : SignOutOp := Page "lr-1" (Some "bind") (Some "cookie") true.
Definition ended : Result unit * St.t := @sign_out_run Demo.env keys SamlDemo.peers op state.
Definition resumed_ : Result json * St.t :=
  @logout_request_resume Demo.env "lr-1" (Some "bind") ended.2.
Definition resumed_value : json := match resumed_.1 with Ok v => v | Err _ => JNull end.
End SignOutDemo.

(** The browser signs itself out and is sent back to the client. *)
Example sign_out_example :
  SignOutDemo.ended.1 = Ok ()
  ∧ Json.index SignOutDemo.resumed_value "redirect_uri" = JStr "https://crm.test/bye?state=x".
Proof. split; vm_compute; reflexivity. Qed.

Ltac demo_rows :=
  repeat first
    [ match goal with H : <[_ := _]> _ !! _ = Some _ |- _ =>
        apply lookup_insert_Some in H as [[[= <-] [= <-]]|[_ H]]; [reflexivity|] end
    | match goal with H : <[_ := _]> _ !! _ = Some _ |- _ =>
        apply lookup_insert_Some in H as [[? ?]|[_ H]]; [discriminate|] end
    | match goal with H : {[_ := _]} !! _ = Some _ |- _ =>
        apply lookup_singleton_Some in H as [? ?]; discriminate end ].
Lemma demo_sessions_keyed : sessions_keyed SignOutDemo.state.
Proof.
  intros k x. unfold SignOutDemo.state, SessionsDemo.state, FlowDemo.db. cbn [St.db]. intros Hx. demo_rows.
Qed.
Lemma demo_confirmations_keyed : confirmations_keyed SignOutDemo.state.
Proof.
  intros k x. unfold SignOutDemo.state, SessionsDemo.state, FlowDemo.db. cbn [St.db]. intros Hx. demo_rows.
Qed.

Lemma sign_out_ends_own_session_witness :
  only_ends (@rightful Demo.env SignOutDemo.keys SignOutDemo.op SignOutDemo.state)
    SignOutDemo.state SignOutDemo.ended.2.
Proof.
  apply (@sign_out_ends_own_session Demo.env SignOutDemo.keys SamlDemo.peers SignOutDemo.op).
  - apply demo_sessions_keyed.
  - vm_compute. reflexivity.
Defined.

Lemma sign_out_decided_once_witness :
  SignOutDemo.ended.2.(St.db) !! ("logout_confirmations", "lr-0")
  = Some (RConfirmation (SignOutDemo.request "lr-0" (Some SignOutDemo.denied))).
Proof.
  refine (proj1 (@sign_out_decided_once Demo.env SignOutDemo.keys SamlDemo.peers SignOutDemo.op
    SignOutDemo.state SignOutDemo.ended.2 "lr-0" (SignOutDemo.request "lr-0" (Some SignOutDemo.denied))
    SignOutDemo.denied demo_sessions_keyed demo_confirmations_keyed _ _ _)).
  - vm_compute. reflexivity.
  - vm_compute. reflexivity.
  - reflexivity.
Defined.

Lemma sign_out_return_registered_witness :
  ∃ c, SignOutDemo.ended.2.(St.db) !! ("logout_confirmations", "lr-1") = Some (RConfirmation c)
    ∧ @bound_by Demo.env (Some "bind") c = true.
Proof.
  destruct (@sign_out_return_registered Demo.env "lr-1" (Some "bind") SignOutDemo.ended.2
    SignOutDemo.resumed_value SignOutDemo.ended.2 "https://crm.test/bye?state=x") as (c & Hc & _ & Hb & _).
  - vm_compute. reflexivity.
  - vm_compute. reflexivity.
  - exists c. exact (conj Hc Hb).
Defined.
