(* ===== verification/Access.v ===== *)
(** * Temporary access (src/src/assembly/pam.rs, management/pam.rs, pam.rs,
    store/maintenance.rs)

    A person asks for a group for a limited time, a configured approver of that
    group decides, and the grant confers the group until it expires or is
    revoked.  Durable membership never changes: the group is read from the grant
    at every use ([Delegation.extra_groups]), through an index the store keeps of
    the grants that are not revoked.

    The theorems: what an approval rests on and what it writes; that it confers
    the group for exactly its window and a revocation withdraws it; that while a
    group is conferred the record of who approved it is still there, whatever the
    clean-up has removed; and that a reviewer sees exactly the requests it can
    decide. *)

From S2P Require Import Prelude Json Model Store Env Provider Jose Delegation Agents Redaction Identities Device Maintenance Management.

#[local] Set Warnings "-clear-no-such-hyp".

Definition PENDING : string := "pending".
Definition APPROVED : string := "approved".
Definition DENIED : string := "denied".
Definition MAX_PENDING : nat := 1000.
Definition RETAIN_SECONDS : Z := 604800.

(** ** What may be asked for (pam.rs) *)

Definition BLOCKED_WORDS : list string :=
  ["password"; "secret"; "bearer "; "private key"; "private_key"; "begin "].
Definition BLOCKED_PREFIXES : list string :=
  ["ri_session_"; "ri_agent_"; "ri_client_"; "ri_mail_"; "ri_recovery_"; "ri_portal_"].
Definition validate_reason (reason : string) : Result unit :=
  let cs := Str.chars reason in
  if negb ((1 <=? length cs) && (length cs <=? 280))%nat || existsb (λ c, Str.is_control c.1) cs
  then Err (Error.bad "Reason must be 1–280 characters without control characters")
  else
    let lower := Redaction.to_ascii_lowercase reason in
    if existsb (Redaction.contains lower) BLOCKED_WORDS
       || existsb (Redaction.contains reason) BLOCKED_PREFIXES
    then Err (Error.bad "Reason must not contain secrets")
    else Ok ().
Definition validate_request (input : NewAccessRequest.t) : Result unit :=
  match validate_name input.(NewAccessRequest.group) with
  | Err e => Err e
  | Ok _ =>
      match validate_reason input.(NewAccessRequest.reason) with
      | Err e => Err e
      | Ok _ =>
          if (60 <=? input.(NewAccessRequest.ttl)) && (input.(NewAccessRequest.ttl) <=? 86400)
          then Ok () else Err (Error.bad "Duration must be 60–86400 seconds")
      end
  end.

(** ** The records as JSON *)

Definition request_json (r : AccessRequest.t) : json :=
  Json.obj [("id", JStr r.(AccessRequest.id)); ("user_id", JStr r.(AccessRequest.user_id));
            ("username", JStr r.(AccessRequest.username)); ("group", JStr r.(AccessRequest.group));
            ("reason", JStr r.(AccessRequest.reason)); ("ttl", JNum r.(AccessRequest.ttl));
            ("status", JStr r.(AccessRequest.status)); ("created_at", JNum r.(AccessRequest.created_at));
            ("decided_at", Json.of_option JNum r.(AccessRequest.decided_at));
            ("decided_by", Json.of_option JStr r.(AccessRequest.decided_by));
            ("grant_id", Json.of_option JStr r.(AccessRequest.grant_id))].
Definition grant_json (g : AccessGrant.t) : json :=
  Json.obj [("id", JStr g.(AccessGrant.id)); ("user_id", JStr g.(AccessGrant.user_id));
            ("group", JStr g.(AccessGrant.group)); ("not_before", JNum g.(AccessGrant.not_before));
            ("expires_at", JNum g.(AccessGrant.expires_at)); ("request_id", JStr g.(AccessGrant.request_id));
            ("revoked_at", Json.of_option JNum g.(AccessGrant.revoked_at));
            ("revoked_by", Json.of_option JStr g.(AccessGrant.revoked_by))].

(** ** Receipts *)

(** [AccessReceipt]. *)
Module AccessReceipt.
Record t := mk { key : string; fingerprint : string; scope : json }.
End AccessReceipt.

(** Lists are answered oldest first. *)
Definition request_le (a b : AccessRequest.t) : Prop :=
  a.(AccessRequest.created_at) < b.(AccessRequest.created_at)
  ∨ a.(AccessRequest.created_at) = b.(AccessRequest.created_at)
    ∧ String.le a.(AccessRequest.id) b.(AccessRequest.id).
#[global] Instance request_le_dec a b : Decision (request_le a b).
Proof. unfold request_le. apply _. Defined.
Definition grant_le (time : AccessGrant.t → Z) (a b : AccessGrant.t * json) : Prop :=
  time a.1 < time b.1 ∨ time a.1 = time b.1 ∧ String.le a.1.(AccessGrant.id) b.1.(AccessGrant.id).
#[global] Instance grant_le_dec time a b : Decision (grant_le time a b).
Proof. unfold grant_le. apply _. Defined.

Section access.
Context {E : Env} {L : ApplyLease}.

(** [AccessReceipt::current], [replay] and [save]. *)
Definition access_receipt (user : User.t) (session : Session.t) (channel credential : string) (intent : json) :
    tx (option AccessReceipt.t) :=
  context ← current;
  mret (c ← context;
        key ← c.(RequestContext.idempotency_key);
        let credential_hash := digest credential in
        Some (AccessReceipt.mk
          (digest ("access.mutation" +:+ NUL +:+ channel +:+ NUL +:+ user.(User.id) +:+ NUL
                   +:+ session.(Session.id) +:+ NUL +:+ credential_hash +:+ NUL +:+ key))
          c.(RequestContext.fingerprint)
          (Json.obj [("self_service", JStr "access.mutation"); ("channel", JStr channel);
                     ("user_id", JStr user.(User.id)); ("session_id", JStr session.(Session.id));
                     ("credential_hash", JStr credential_hash);
                     ("revision", Json.of_option JNum c.(RequestContext.revision));
                     ("intent", intent)]))).
Definition replay_access (r : AccessReceipt.t) : tx (option json) :=
  replay_receipt r.(AccessReceipt.key) r.(AccessReceipt.fingerprint) r.(AccessReceipt.scope).
Definition save_access (r : option AccessReceipt.t) (result : json) : tx unit :=
  match r with
  | Some r => save_receipt r.(AccessReceipt.key) r.(AccessReceipt.fingerprint) r.(AccessReceipt.scope) result
  | None => mret ()
  end.

Definition require_revision : tx unit :=
  context ← current;
  match context ≫= RequestContext.revision with
  | Some expected =>
      revision ← get Z "meta" "revision";
      ensure (expected =? default 0 revision) (Error.conflict "Configuration revision changed")
  | None => mret ()
  end.

(** ** The index of grants (store/maintenance.rs) *)

Definition grants_bucket (user_id : string) : string := "index_user_access_grants/" +:+ digest user_id.
(** The index row of a grant: its bucket and key, unless the grant is revoked. *)
Definition grant_entry (id : string) (g : AccessGrant.t) : option (string * string) :=
  if bool_decide (g.(AccessGrant.revoked_at) = None)
  then Some (grants_bucket g.(AccessGrant.user_id), digest id) else None.
Definition update_grant_index (id : string) (before after : option AccessGrant.t) : tx unit :=
  _ ← match before ≫= grant_entry id with
      | Some e => remove e.1 e.2
      | None => mret ()
      end;
  match after ≫= grant_entry id with
  | Some e => put e.1 e.2 id
  | None => mret ()
  end.
Definition put_grant (id : string) (g : AccessGrant.t) : tx unit :=
  before ← get AccessGrant.t "access_grants" id;
  _ ← update_grant_index id before (Some g);
  put "access_grants" id g.
Definition delete_grant (id : string) : tx unit :=
  before ← get AccessGrant.t "access_grants" id;
  _ ← update_grant_index id before None;
  remove "access_grants" id.

(** ** Who acts *)

Definition pam_actor (token : string) : tx (User.t * Session.t * string) :=
  if Str.starts_with token "ri_agent_" then
    _ ← principal token; fail Error.forbidden
  else
    match browser_cookie token with
    | Some cookie => us ← browser_user cookie; mret (us, "browser")
    | None => us ← session token; mret (us, "bearer")
    end.
End access.

(** ** Operations (management/pam.rs) *)

Section operations.
Context {E : Env} {L : ApplyLease}.

(** The group's approvers, if it has a rule. *)
Definition approvers (group : string) : option (gset string) :=
  config.(Config.pam_approvers) !! group.
Definition no_rule : Error.t := Error.bad "No approver rule for this group".

(** A keyed answer: replayed, or computed and kept. *)
Definition answer (receipt : option AccessReceipt.t) (m : tx json) : tx json :=
  result ← m;
  _ ← save_access receipt result;
  mret result.

Definition request_access (token : string) (input : NewAccessRequest.t) : tx json :=
  _ ← lift (validate_request input);
  a ← pam_actor token;
  let actor := a.1.1 in
  let group := input.(NewAccessRequest.group) in
  _ ← ensure actor.(User.enabled) (Error.bad "Requester is disabled");
  g ← get Group.t "groups" group;
  _ ← some_or g (Error.bad "Unknown group");
  _ ← some_or (approvers group) no_rule;
  receipt ← access_receipt actor a.1.2 a.2 token
    (Json.obj [("operation", JStr "request"); ("group", JStr group);
               ("reason_hash", JStr (digest input.(NewAccessRequest.reason)));
               ("ttl", JNum input.(NewAccessRequest.ttl))]);
  replayed ← match receipt with Some r => replay_access r | None => mret None end;
  match replayed with
  | Some result => mret result
  | None =>
      answer receipt
        (_ ← require_revision;
         rows ← list_all AccessRequest.t "access_requests";
         _ ← ensure (length (List.filter (λ kr, String.eqb kr.2.(AccessRequest.status) PENDING) rows)
                     <? MAX_PENDING)%nat (Error.conflict "Too many pending access requests");
         rid ← id;
         at_ ← now;
         let request := AccessRequest.mk rid actor.(User.id) actor.(User.username) group
           input.(NewAccessRequest.reason) input.(NewAccessRequest.ttl) PENDING at_ None None None in
         _ ← put "access_requests" rid request;
         _ ← audit actor.(User.id) "access.request" rid;
         mret (request_json request))
  end.

Definition require_decision_authority (actor : User.t) (request : AccessRequest.t) : tx unit :=
  names ← some_or (approvers request.(AccessRequest.group)) no_rule;
  g ← get Group.t "groups" request.(AccessRequest.group);
  _ ← some_or g (Error.bad "Unknown group");
  requester ← get User.t "users" request.(AccessRequest.user_id);
  requester ← some_or requester (Error.missing "Requester not found");
  _ ← ensure requester.(User.enabled) (Error.bad "Requester is disabled");
  ensure (negb (String.eqb actor.(User.id) requester.(User.id)
                || negb (bool_decide (actor.(User.username) ∈ (names : gset string))))) Error.forbidden.

(** A decision that may be retried: with a key the authority is checked before the
    receipt is looked up, without one after the state is. *)
Definition settled (receipt : option AccessReceipt.t) (authority open m : tx unit) (result : tx json) : tx json :=
  replayed ← match receipt with Some r => _ ← authority; replay_access r | None => mret None end;
  match replayed with
  | Some v => mret v
  | None =>
      _ ← open;
      _ ← match receipt with None => authority | Some _ => mret () end;
      _ ← m;
      answer receipt result
  end.

Definition needs_recovery : Error.t :=
  Error.conflict "Requester needs independent credential recovery before temporary access approval".
Definition admit_decision (request : AccessRequest.t) (approve : bool) : tx unit :=
  at_ ← now;
  _ ← ensure (at_ <? sat_add request.(AccessRequest.created_at) RETAIN_SECONDS)
        (Error.missing "Access request expired");
  _ ← require_revision;
  if approve then
    exposure ← credential_exposure request.(AccessRequest.user_id);
    ensure (bool_decide (exposure = None)) needs_recovery
  else mret ().

(** The grant a request leads to. *)
Definition new_grant (gid : string) (request : AccessRequest.t) (at_ : Z) : AccessGrant.t :=
  AccessGrant.mk gid request.(AccessRequest.user_id) request.(AccessRequest.group) at_
    (sat_add at_ request.(AccessRequest.ttl)) request.(AccessRequest.id) None None.
Definition record_decision (actor : User.t) (rid : string) (request : AccessRequest.t) (approve : bool) : tx json :=
  at_ ← now;
  if approve then
    gid ← id;
    let grant := new_grant gid request at_ in
    _ ← put_grant gid grant;
    let decided := AccessRequest.decide request APPROVED at_ actor.(User.id) (Some gid) in
    _ ← put "access_requests" rid decided;
    _ ← audit actor.(User.id) "access.approve" rid;
    mret (Json.obj [("request", request_json decided); ("grant", grant_json grant)])
  else
    let decided := AccessRequest.decide request DENIED at_ actor.(User.id) request.(AccessRequest.grant_id) in
    _ ← put "access_requests" rid decided;
    _ ← audit actor.(User.id) "access.deny" rid;
    mret (Json.obj [("request", request_json decided)]).

Definition decide_access (token rid : string) (approve : bool) : tx json :=
  a ← pam_actor token;
  let actor := a.1.1 in
  request ← get AccessRequest.t "access_requests" rid;
  request ← some_or request (Error.missing "Access request not found");
  receipt ← access_receipt actor a.1.2 a.2 token
    (Json.obj [("operation", JStr "decide"); ("request_id", JStr rid); ("approve", JBool approve)]);
  settled receipt (require_decision_authority actor request)
    (ensure (String.eqb request.(AccessRequest.status) PENDING)
       (Error.conflict "Access request is already decided"))
    (admit_decision request approve)
    (record_decision actor rid request approve).

Definition may_revoke (actor : User.t) (grant : AccessGrant.t) : bool :=
  actor.(User.admin)
  || match approvers grant.(AccessGrant.group) with
     | Some names => bool_decide (actor.(User.username) ∈ names)
     | None => false
     end.
Definition require_revoke_authority (actor : User.t) (grant : AccessGrant.t) : tx unit :=
  ensure (may_revoke actor grant) Error.forbidden.

Definition revoke_grant (g : AccessGrant.t) (at_ : Z) (by_ : string) : AccessGrant.t :=
  AccessGrant.mk g.(AccessGrant.id) g.(AccessGrant.user_id) g.(AccessGrant.group) g.(AccessGrant.not_before)
    g.(AccessGrant.expires_at) g.(AccessGrant.request_id) (Some at_) (Some by_).
Definition revoke_access (token gid : string) : tx json :=
  a ← pam_actor token;
  let actor := a.1.1 in
  grant ← get AccessGrant.t "access_grants" gid;
  grant ← some_or grant (Error.missing "Access grant not found");
  receipt ← access_receipt actor a.1.2 a.2 token
    (Json.obj [("operation", JStr "revoke"); ("grant_id", JStr gid)]);
  settled receipt (require_revoke_authority actor grant)
    (ensure (bool_decide (grant.(AccessGrant.revoked_at) = None))
       (Error.conflict "Access grant is already revoked"))
    (at_ ← now;
     _ ← ensure (at_ <? grant.(AccessGrant.expires_at)) (Error.conflict "Access grant has expired");
     require_revision)
    (at_ ← now;
     let grant := revoke_grant grant at_ actor.(User.id) in
     _ ← put_grant gid grant;
     _ ← audit actor.(User.id) "access.revoke" gid;
     mret (grant_json grant)).

(** The clean-up of retained history. *)
Definition request_dead (at_ : Z) (r : AccessRequest.t) : bool :=
  let anchor := if String.eqb r.(AccessRequest.status) PENDING then r.(AccessRequest.created_at)
                else default r.(AccessRequest.created_at) r.(AccessRequest.decided_at) in
  sat_add anchor RETAIN_SECONDS <=? at_.
Definition grant_dead (at_ : Z) (g : AccessGrant.t) : bool :=
  sat_add (default g.(AccessGrant.expires_at) g.(AccessGrant.revoked_at)) RETAIN_SECONDS <=? at_.
Definition cleanup_access (at_ : Z) : tx unit :=
  _ ← sweep AccessRequest.t "access_requests" (request_dead at_) (λ k _, remove "access_requests" k);
  sweep AccessGrant.t "access_grants" (grant_dead at_) (λ k _, delete_grant k).
End operations.

(** ** Reading (assembly/pam.rs, management/pam.rs) *)

(** [AccessReader]. *)
Inductive AccessReader :=
| AllAccess
| HumanAccess (user_id : string) (approver_groups : gset string).
Definition reader_allows (r : AccessReader) (user_id group : string) : bool :=
  match r with
  | AllAccess => true
  | HumanAccess actor groups => String.eqb actor user_id || bool_decide (group ∈ groups)
  end.

Section reading.
Context {E : Env} {L : ApplyLease}.

(** The groups a name approves. *)
Definition approver_groups (username : string) : gset string :=
  dom (filter (λ kv : string * gset string, username ∈ kv.2) config.(Config.pam_approvers)).
Definition read_access (token resource : string) : tx AccessReader :=
  if Str.starts_with token "ri_agent_" then _ ← management token "access.read" resource; mret AllAccess
  else
    a ← pam_actor token;
    let actor := a.1.1 in
    mret (if actor.(User.admin) then AllAccess
          else HumanAccess actor.(User.id) (approver_groups actor.(User.username))).

Definition list_access_requests (token : string) : tx json :=
  reader ← read_access token "access/requests";
  rows ← list_all AccessRequest.t "access_requests";
  let visible := List.filter (λ r, reader_allows reader r.(AccessRequest.user_id) r.(AccessRequest.group)) rows.*2 in
  mret (JArr (request_json <$> merge_sort request_le visible)).
Definition list_access_grants (token : string) : tx json :=
  reader ← read_access token "access/grants";
  rows ← list_all AccessGrant.t "access_grants";
  let visible := List.filter (λ g, reader_allows reader g.(AccessGrant.user_id) g.(AccessGrant.group)) rows.*2 in
  mret (JArr ((merge_sort (grant_le AccessGrant.not_before) ((λ g, (g, grant_json g)) <$> visible)).*2)).

(** The requests and grants a reviewer is shown. *)
Definition review_request (actor : User.t) (at_ : Z) (acc : list AccessRequest.t)
    (row : string * AccessRequest.t) : tx (list AccessRequest.t) :=
  let request := row.2 in
  if negb (String.eqb request.(AccessRequest.status) PENDING)
     || (sat_add request.(AccessRequest.created_at) RETAIN_SECONDS <=? at_)
  then mret acc
  else
    checked ← catch (require_decision_authority actor request);
    match checked with
    | Ok _ => mret (acc ++ [request])
    | Err e => if Error.is_server_error e then fail e else mret acc
    end.
Definition review_grant (actor : User.t) (at_ : Z) (acc : list (AccessGrant.t * json))
    (row : string * AccessGrant.t) : tx (list (AccessGrant.t * json)) :=
  let grant := row.2 in
  if negb (bool_decide (grant.(AccessGrant.revoked_at) = None)) || (grant.(AccessGrant.expires_at) <=? at_)
     || negb (may_revoke actor grant)
  then mret acc
  else
    user ← get User.t "users" grant.(AccessGrant.user_id);
    let username := default grant.(AccessGrant.user_id) (User.username <$> user) in
    mret (acc ++ [(grant, Json.obj [("id", JStr grant.(AccessGrant.id)); ("username", JStr username);
                                    ("group", JStr grant.(AccessGrant.group));
                                    ("expires_at", JNum grant.(AccessGrant.expires_at))])]).
Definition reviewed_requests (actor : User.t) : tx (list AccessRequest.t) :=
  at_ ← now;
  rows ← list_all AccessRequest.t "access_requests";
  fold_m (review_request actor at_) [] rows.
Definition reviewer (actor : User.t) : bool :=
  actor.(User.admin)
  || existsb (λ names : gset string, bool_decide (actor.(User.username) ∈ names))
       (map_to_list config.(Config.pam_approvers)).*2.
Definition review_access (token : string) : tx json :=
  a ← pam_actor token;
  let actor := a.1.1 in
  _ ← ensure (reviewer actor) Error.forbidden;
  requests ← reviewed_requests actor;
  at_ ← now;
  grants ← list_all AccessGrant.t "access_grants";
  rows ← fold_m (review_grant actor at_) [] grants;
  revision ← get Z "meta" "revision";
  mret (Json.obj
    [("user", Json.obj [("id", JStr actor.(User.id)); ("username", JStr actor.(User.username))]);
     ("revision", JNum (default 0 revision));
     ("requests", JArr (request_json <$> merge_sort request_le requests));
     ("grants", JArr (merge_sort (grant_le AccessGrant.expires_at) rows).*2)]).
End reading.

(** ** Frames *)

Section frames.
Context {E : Env} {L : ApplyLease}.

#[global] Instance pure_pam_actor t : Pure (pam_actor t).
Proof. unfold pam_actor, browser_user. solve_pure. Qed.
#[global] Instance pure_access_receipt u x c t i : Pure (access_receipt u x c t i).
Proof. unfold access_receipt. solve_pure. Qed.
#[global] Instance pure_require_revision : Pure require_revision.
Proof. unfold require_revision. solve_pure. Qed.
#[global] Instance pure_decision_authority u r : Pure (require_decision_authority u r).
Proof. unfold require_decision_authority. solve_pure. Qed.
#[global] Instance pure_admit_decision r b : Pure (admit_decision r b).
Proof. unfold admit_decision. solve_pure. Qed.
#[global] Instance pure_revoke_authority u g : Pure (require_revoke_authority u g).
Proof. unfold require_revoke_authority. solve_pure. Qed.
#[global] Instance pure_replay_access r : Pure (replay_access r).
Proof. unfold replay_access. solve_pure. Qed.
#[global] Instance pure_read_access t r : Pure (read_access t r).
Proof. pose proof validate_apply_lease_pure. unfold read_access, management. solve_pure. Qed.
End frames.

(** ** The index of grants *)

Section index.
Context {E : Env} {L : ApplyLease}.
Implicit Types (s : St.t) (g : AccessGrant.t) (d : gmap (string * string) row).

(** The index after the record [id] changed. *)
Definition reindex (id : string) (before after : option AccessGrant.t) d : gmap (string * string) row :=
  let d := match before ≫= grant_entry id with Some e => base.delete (e.1, e.2) d | None => d end in
  match after ≫= grant_entry id with Some e => <[(e.1, e.2) := RString id]> d | None => d end.

Lemma update_grant_index_run id before after s u s' :
  update_grant_index id before after s = (Ok u, s') → s' = St.set_db s (reindex id before after s.(St.db)).
Proof.
  unfold update_grant_index, reindex. intros Hrun. apply bind_ok in Hrun as ([] & s1 & H1 & H2).
  assert (s1 = St.set_db s match before ≫= grant_entry id with
                           | Some e => base.delete (e.1, e.2) s.(St.db) | None => s.(St.db) end) as ->.
  { destruct (before ≫= grant_entry id); [by apply remove_ok in H1|apply ret_ok in H1 as [_ ->]; by destruct s]. }
  destruct (after ≫= grant_entry id); [by apply put_ok in H2 as ->|by apply ret_ok in H2 as [_ ->]].
Qed.
Lemma put_grant_run id g s u s' :
  put_grant id g s = (Ok u, s') →
  ∃ before, s.(St.db) !! ("access_grants", id) = RAccessGrant <$> before
    ∧ s' = St.set_db s (<[("access_grants", id) := RAccessGrant g]> (reindex id before (Some g) s.(St.db))).
Proof.
  unfold put_grant. intros Hrun. apply bind_ok in Hrun as (before & s1 & [-> Hb]%get_ok & Hrun).
  apply bind_ok in Hrun as ([] & s1 & ->%update_grant_index_run & ->%put_ok). by exists before.
Qed.
Lemma delete_grant_run id s u s' :
  delete_grant id s = (Ok u, s') →
  ∃ before, s.(St.db) !! ("access_grants", id) = RAccessGrant <$> before
    ∧ s' = St.set_db s (base.delete ("access_grants", id) (reindex id before None s.(St.db))).
Proof.
  unfold delete_grant. intros Hrun. apply bind_ok in Hrun as (before & s1 & [-> Hb]%get_ok & Hrun).
  apply bind_ok in Hrun as ([] & s1 & ->%update_grant_index_run & ->%remove_ok). by exists before.
Qed.

(** The index is a family of buckets of its own. *)
Definition index_bucket (b : string) : bool := Str.starts_with b "index_user_access_grants/".
Lemma grants_bucket_index u : index_bucket (grants_bucket u) = true.
Proof.
  unfold index_bucket, grants_bucket, Str.starts_with.
  destruct (Str.strip_prefix _ _) eqn:Hp; [done|]. exfalso.
  assert (H : Str.strip_prefix "index_user_access_grants/" ("index_user_access_grants/" +:+ digest u) = Some (digest u))
    by (by apply strip_prefix_spec). congruence.
Qed.
Lemma reindex_other id before after d b k :
  index_bucket b = false → reindex id before after d !! (b, k) = d !! (b, k).
Proof.
  intros Hb. assert (Hne : ∀ (o : option AccessGrant.t) e, o ≫= grant_entry id = Some e → e.1 ≠ b).
  { intros [g|] e He; [|done]. simpl in He. unfold grant_entry in He. case_bool_decide; [|done].
    injection He as <-. simpl. intros <-. by rewrite grants_bucket_index in Hb. }
  unfold reindex. destruct (after ≫= grant_entry id) as [e|] eqn:Ha.
  - apply Hne in Ha. rewrite lookup_insert_ne by congruence.
    destruct (before ≫= grant_entry id) as [e'|] eqn:Hbf; [|done].
    apply Hne in Hbf. by rewrite lookup_delete_ne by congruence.
  - destruct (before ≫= grant_entry id) as [e'|] eqn:Hbf; [|done].
    apply Hne in Hbf. by rewrite lookup_delete_ne by congruence.
Qed.

(** What a user's index lists: every row is read, and no grant is read elsewhere. *)
Definition readable u s : Prop := ∀ k w, s.(St.db) !! (grants_bucket u, k) = Some w →
  ∃ id, w = RString id ∧ ∃ o, s.(St.db) !! ("access_grants", id) = RAccessGrant <$> o.
Definition listed u s g : Prop := ∃ k id,
  s.(St.db) !! (grants_bucket u, k) = Some (RString id)
  ∧ s.(St.db) !! ("access_grants", id) = Some (RAccessGrant g).

Lemma collect_grants_ok (l : list (string * string)) acc s gs s' :
  fold_m (λ grants (kv : string * string),
    g ← get AccessGrant.t "access_grants" kv.2;
    mret (match g with Some g => grants ++ [g] | None => grants end)) acc l s = (Ok gs, s') →
  s' = s ∧ (∀ g, g ∈ gs ↔ g ∈ acc ∨ ∃ kv, kv ∈ l ∧ s.(St.db) !! ("access_grants", kv.2) = Some (RAccessGrant g))
  ∧ ∀ kv, kv ∈ l → ∃ o, s.(St.db) !! ("access_grants", kv.2) = RAccessGrant <$> o.
Proof.
  revert acc. induction l as [|kv l IH]; intros acc Hrun; simpl in Hrun.
  { apply ret_ok in Hrun as [-> ->]. split_and!; [done|set_solver|set_solver]. }
  apply bind_ok in Hrun as (acc1 & s1 & Hg & Hrun).
  apply bind_ok in Hg as (o & s2 & [-> Ho]%get_ok & [-> ->]%ret_ok).
  apply IH in Hrun as (-> & Hin & Hall). split; [done|]. split.
  - intros g. rewrite Hin. setoid_rewrite elem_of_cons. destruct o as [g'|]; simpl in Ho.
    + rewrite elem_of_app, list_elem_of_singleton. split.
      * intros [[?| ->]|(kv' & ? & ?)]; eauto 6.
      * intros [?|(kv' & [->|?] & Hk)]; eauto 6. rewrite Ho in Hk. injection Hk as ->. eauto.
    + split; [intros [?|(kv' & ? & ?)]; eauto 6|].
      intros [?|(kv' & [->|?] & Hk)]; eauto 6. by rewrite Ho in Hk.
  - intros kv' [->|?]%elem_of_cons; eauto.
Qed.
Lemma collect_grants_run (l : list (string * string)) acc s :
  (∀ kv, kv ∈ l → ∃ o, s.(St.db) !! ("access_grants", kv.2) = RAccessGrant <$> o) →
  ∃ gs, fold_m (λ grants (kv : string * string),
    g ← get AccessGrant.t "access_grants" kv.2;
    mret (match g with Some g => grants ++ [g] | None => grants end)) acc l s = (Ok gs, s).
Proof.
  revert acc. induction l as [|kv l IH]; intros acc Hall; simpl; [by eexists|].
  destruct (Hall kv) as [o Ho]; [set_solver|].
  assert (Hg : get AccessGrant.t "access_grants" kv.2 s = (Ok o, s)) by (by apply get_ok).
  erewrite bind_step by (by rewrite (bind_step _ _ _ _ _ Hg)). apply IH. set_solver.
Qed.

Lemma list_all_run {T} `{Row T} b s :
  (∀ k w, s.(St.db) !! (b, k) = Some w → ∃ r : T, w = encode r) → ∃ l, list_all T b s = (Ok l, s).
Proof.
  intros Hb. assert (Hall : ∀ kw, kw ∈ bucket_rows b s.(St.db) → ∃ r : T, kw.2 = encode r).
  { intros [k w] Hin%elem_of_bucket_rows. by eapply Hb. }
  assert (Hex : ∃ l : list (string * T), bucket_rows b s.(St.db) = prod_map (λ k, k) encode <$> l).
  { revert Hall. generalize (bucket_rows b s.(St.db)). intros rows. induction rows as [|[k w] rows IH]; intros Hall.
    - by exists [].
    - destruct (Hall (k, w)) as [r Hr]; [set_solver|]. simpl in Hr. subst w.
      destruct IH as [l ->]; [intros; apply Hall; set_solver|]. by exists ((k, r) :: l). }
  destruct Hex as [l Hl]. exists l. by apply list_all_ok.
Qed.

Lemma user_access_grants_ok u s gs s' :
  user_access_grants u s = (Ok gs, s') → s' = s ∧ readable u s ∧ ∀ g, g ∈ gs ↔ listed u s g.
Proof.
  unfold user_access_grants. intros Hrun. apply bind_ok in Hrun as (l & s1 & Hl & Hrun).
  fold (grants_bucket u) in Hl. apply list_all_elem in Hl as (-> & Hin & Hrows).
  apply collect_grants_ok in Hrun as (-> & Hgs & Hall). split; [done|]. split.
  - intros k w (id & -> & Hk)%Hrows. exists id. split; [done|]. apply (Hall (k, id) Hk).
  - intros g. rewrite Hgs. unfold listed. split.
    + intros [Hno|([k id] & Hk%Hin & Hg)]; [set_solver|]. by exists k, id.
    + intros (k & id & Hk & Hg). right. exists (k, id). split; [by apply Hin|done].
Qed.
Lemma user_access_grants_run u s :
  readable u s → ∃ gs, user_access_grants u s = (Ok gs, s) ∧ ∀ g, g ∈ gs ↔ listed u s g.
Proof.
  intros Hr. destruct (list_all_run (T:=string) (grants_bucket u) s) as [l Hl].
  { intros k w (id & -> & _)%Hr. by exists id. }
  pose proof (list_all_elem _ _ _ _ Hl) as (_ & Hin & _).
  destruct (collect_grants_run l [] s) as [gs Hgs].
  { intros [k id] Hk%Hin. destruct (Hr _ _ Hk) as (id' & [= <-] & Ho). done. }
  assert (Hrun : user_access_grants u s = (Ok gs, s)).
  { unfold user_access_grants. rewrite (bind_step _ _ _ _ _ Hl). exact Hgs. }
  exists gs. split; [done|]. by apply user_access_grants_ok in Hrun as (_ & _ & ?).
Qed.

(** The groups a user's live grants confer at a time. *)
Definition conferred u t s x : Prop := ∃ g, listed u s g
  ∧ g.(AccessGrant.user_id) = u ∧ AccessGrant.active g t = true ∧ g.(AccessGrant.group) = x.
Lemma elem_of_active u t (gs : list AccessGrant.t) x :
  x ∈ (list_to_set (AccessGrant.group <$>
         List.filter (λ g, String.eqb g.(AccessGrant.user_id) u && AccessGrant.active g t) gs) : gset string)
  ↔ ∃ g, g ∈ gs ∧ g.(AccessGrant.user_id) = u ∧ AccessGrant.active g t = true ∧ g.(AccessGrant.group) = x.
Proof.
  rewrite elem_of_list_to_set, list_elem_of_fmap. split.
  - intros (g & -> & [Hg Hp]%list_elem_of_In%filter_In). apply andb_true_iff in Hp as [Hu%String.eqb_eq Ha].
    exists g. by rewrite list_elem_of_In.
  - intros (g & Hg & Hu & Ha & <-). exists g. split; [done|].
    apply list_elem_of_In, filter_In. rewrite <- list_elem_of_In. split; [done|].
    by rewrite Hu, String.eqb_refl.
Qed.
Lemma extra_groups_ok u t s G s' :
  extra_groups u t s = (Ok G, s') →
  s' = s ∧ (s.(St.db) !! (CREDENTIAL_EXPOSURE, u) = None → readable u s ∧ ∀ x, x ∈ G ↔ conferred u t s x)
  ∧ (s.(St.db) !! (CREDENTIAL_EXPOSURE, u) ≠ None →
       G = ∅ ∧ ∃ e, s.(St.db) !! (CREDENTIAL_EXPOSURE, u) = Some (RExposure e)).
Proof.
  unfold extra_groups, credential_exposure. intros Hrun.
  apply bind_ok in Hrun as (o & s1 & [-> Ho]%get_ok & Hrun). rewrite Ho. destruct o as [e|]; simpl.
  - apply ret_ok in Hrun as [-> ->]. split; [done|]. split; [done|]. intros _. split; [done|]. by exists e.
  - apply bind_ok in Hrun as (gs & s1 & (-> & Hr & Hgs)%user_access_grants_ok & [-> ->]%ret_ok).
    split_and!; [done| |done]. intros _. split; [done|]. intros x. rewrite elem_of_active.
    unfold conferred. by setoid_rewrite Hgs.
Qed.
Lemma extra_groups_exposed u t s e :
  s.(St.db) !! (CREDENTIAL_EXPOSURE, u) = Some (RExposure e) → extra_groups u t s = (Ok ∅, s).
Proof. intros He. unfold extra_groups, credential_exposure. tx_get. done. Qed.
Lemma extra_groups_run u t s :
  s.(St.db) !! (CREDENTIAL_EXPOSURE, u) = None → readable u s →
  ∃ G, extra_groups u t s = (Ok G, s) ∧ ∀ x, x ∈ G ↔ conferred u t s x.
Proof.
  intros He Hr. destruct (user_access_grants_run u s Hr) as (gs & Hgs & Hin).
  assert (Hg : get CredentialExposure.t CREDENTIAL_EXPOSURE u s = (Ok None, s)) by (by apply get_none).
  eexists. split.
  - unfold extra_groups, credential_exposure. rewrite (bind_step _ _ _ _ _ Hg), (bind_step _ _ _ _ _ Hgs). done.
  - intros x. rewrite elem_of_active. unfold conferred. by setoid_rewrite Hin.
Qed.
End index.

(** ** Decisions *)

Section decisions.
Context {E : Env} {L : ApplyLease}.
Implicit Types (s : St.t) (r : AccessRequest.t) (g : AccessGrant.t).

(** An approver of the group, of a live request of another, enabled account. *)
Definition may_decide (actor : User.t) r s : Prop :=
  ∃ names group requester,
    approvers r.(AccessRequest.group) = Some names ∧ actor.(User.username) ∈ names
    ∧ s.(St.db) !! ("groups", r.(AccessRequest.group)) = Some (RGroup group)
    ∧ s.(St.db) !! ("users", r.(AccessRequest.user_id)) = Some (RUser requester)
    ∧ requester.(User.enabled) = true ∧ actor.(User.id) ≠ requester.(User.id).

Lemma decision_authority_ok actor r s u s' :
  require_decision_authority actor r s = (Ok u, s') ↔ s' = s ∧ may_decide actor r s.
Proof.
  split.
  - unfold require_decision_authority. intros Hrun.
    apply bind_ok in Hrun as (names & s1 & [Hn ->]%some_or_ok & Hrun).
    apply bind_ok in Hrun as (og & s1 & [-> Hg]%get_ok & Hrun).
    apply bind_ok in Hrun as (group & s1 & [-> ->]%some_or_ok & Hrun).
    apply bind_ok in Hrun as (ou & s1 & [-> Hu]%get_ok & Hrun).
    apply bind_ok in Hrun as (requester & s1 & [-> ->]%some_or_ok & Hrun).
    apply bind_ok in Hrun as ([] & s1 & [He ->]%ensure_ok & [Hd ->]%ensure_ok).
    split; [done|]. exists names, group, requester. bools. split_and!; try done; naive_solver.
  - intros [-> (names & group & requester & Hn & Hin & Hg & Hu & He & Hne)].
    unfold require_decision_authority. rewrite Hn.
    erewrite bind_step by reflexivity. tx_get. erewrite bind_step by reflexivity. tx_get.
    erewrite bind_step by reflexivity. rewrite He. erewrite bind_step by reflexivity.
    apply ensure_ok. split; [|done]. rewrite (proj2 (String.eqb_neq _ _) Hne), bool_decide_true by done. done.
Qed.

(** A keyed request was answered from its receipt. *)
Definition from_receipt (receipt : option AccessReceipt.t) s (v : json) s' : Prop :=
  s' = s ∧ ∃ rc, receipt = Some rc ∧ replay_access rc s = (Ok (Some v), s).

Lemma settled_run receipt authority open m result s v s' :
  Pure authority → Pure open → Pure m →
  settled receipt authority open m result s = (Ok v, s') →
  authority s = (Ok (), s)
  ∧ (from_receipt receipt s v s'
     ∨ open s = (Ok (), s) ∧ m s = (Ok (), s)
       ∧ ∃ s1, result s = (Ok v, s1) ∧ save_access receipt v s1 = (Ok (), s')).
Proof.
  intros Hpa Hpo Hpm Hrun. unfold settled in Hrun. apply bind_ok in Hrun as (o & s1 & Ho & Hrun).
  assert (s1 = s ∧ (is_Some receipt → authority s = (Ok (), s))
          ∧ ∀ w, o = Some w → from_receipt receipt s w s) as (-> & Hauth & Hrep).
  { destruct receipt as [r|].
    - apply bind_ok in Ho as ([] & s2 & Ha & Hr). pose proof (pure_run _ _ _ _ Ha) as ->.
      pose proof (pure_run _ _ _ _ Hr) as ->. split; [done|]. split; [done|].
      intros w ->. split; [done|]. by exists r.
    - apply ret_ok in Ho as [-> ->]. split; [done|]. split; [|done]. by intros [? ?]. }
  destruct o as [w|].
  - apply ret_ok in Hrun as [-> ->]. specialize (Hrep _ eq_refl). split; [|by left].
    apply Hauth. destruct Hrep as (_ & r & -> & _). done.
  - apply bind_ok in Hrun as ([] & s1 & Hop & Hrun). pose proof (pure_run _ _ _ _ Hop) as ->.
    apply bind_ok in Hrun as ([] & s1 & Ha & Hrun).
    assert (s1 = s ∧ authority s = (Ok (), s)) as [-> Ha'].
    { destruct receipt as [r|]; [apply ret_ok in Ha as [_ ->]; eauto|].
      pose proof (pure_run _ _ _ _ Ha) as ->. done. }
    apply bind_ok in Hrun as ([] & s1 & Hm & Hrun). pose proof (pure_run _ _ _ _ Hm) as ->.
    split; [done|]. right. split; [done|]. split; [done|]. unfold answer in Hrun.
    apply bind_ok in Hrun as (v' & s1 & Hres & Hrun).
    apply bind_ok in Hrun as ([] & s2 & Hs & [-> ->]%ret_ok). by exists s1.
Qed.

Lemma touches_save_access rc v : Touches ["receipts"] (save_access rc v).
Proof. unfold save_access. solve_touches. Qed.

(** The records a decision and a revocation write, audit and receipts aside. *)
Definition same_records (keep : string → bool) s s' : Prop :=
  s'.(St.clock) = s.(St.clock)
  ∧ ∀ b k, keep b = true → s'.(St.db) !! (b, k) = s.(St.db) !! (b, k).
Definition kept (b : string) : bool := negb (existsb (String.eqb b) ["meta"; "audit"; "receipts"]).
Lemma touches_kept {A} bs (m : tx A) s x s' :
  Touches bs m → bs ⊆ ["meta"; "audit"; "receipts"] → m s = (x, s') → same_records kept s s'.
Proof.
  intros Hm Hbs Hrun. pose proof (touches_run bs _ _ _ _ Hrun) as (Hc & _ & _ & Hf). split; [done|].
  intros b k Hb. apply Hf. intros Hin%Hbs. unfold kept in Hb. apply negb_true_iff in Hb.
  assert (Ht : existsb (String.eqb b) ["meta"; "audit"; "receipts"] = true); [|congruence].
  apply existsb_exists. exists b. rewrite String.eqb_refl. split; [|done].
  by apply list_elem_of_In in Hin.
Qed.
Lemma same_records_trans keep s1 s2 s3 :
  same_records keep s1 s2 → same_records keep s2 s3 → same_records keep s1 s3.
Proof. intros [Hc1 H1] [Hc2 H2]. split; [congruence|]. intros b k Hb. by rewrite H2, H1. Qed.
Lemma same_records_refl keep s : same_records keep s s.
Proof. by split. Qed.

(** The state after an approval, up to audit and receipts. *)
Definition approved_request actor_id r s : AccessRequest.t :=
  AccessRequest.decide r APPROVED s.(St.clock) actor_id (Some (uuid s.(St.rng))).
Definition granted r s : AccessGrant.t := new_grant (uuid s.(St.rng)) r s.(St.clock).
Definition after_approval actor_id rid r before s : St.t :=
  St.set_db s (<[("access_requests", rid) := RAccessRequest (approved_request actor_id r s)]>
    (<[("access_grants", uuid s.(St.rng)) := RAccessGrant (granted r s)]>
      (reindex (uuid s.(St.rng)) before (Some (granted r s)) s.(St.db)))).
Lemma approve_run actor rid r s v s' :
  record_decision actor rid r true s = (Ok v, s') →
  ∃ before, s.(St.db) !! ("access_grants", uuid s.(St.rng)) = RAccessGrant <$> before
    ∧ same_records kept (after_approval actor.(User.id) rid r before s) s'.
Proof.
  unfold record_decision. intros Hrun. apply bind_ok in Hrun as (at_ & s1 & [-> ->]%now_ok & Hrun). cbv iota in Hrun.
  apply bind_ok in Hrun as (gid & s1 & [-> ->]%id_ok & Hrun). cbv zeta in Hrun.
  apply bind_ok in Hrun as ([] & s1 & (before & Hb & ->)%put_grant_run & Hrun).
  apply bind_ok in Hrun as ([] & s1 & ->%put_ok & Hrun).
  apply bind_ok in Hrun as ([] & s1 & Ha & [_ ->]%ret_ok). exists before. split; [done|].
  apply (touches_kept ["meta"; "audit"]) in Ha; [|apply touches_audit_with|set_solver].
  destruct Ha as [Hc Hf]. split; [done|]. intros b k Hk. rewrite Hf by done. done.
Qed.
Lemma deny_run actor rid r s v s' :
  record_decision actor rid r false s = (Ok v, s') →
  same_records kept (St.set_db s (<[("access_requests", rid) := RAccessRequest
    (AccessRequest.decide r DENIED s.(St.clock) actor.(User.id) r.(AccessRequest.grant_id))]> s.(St.db))) s'.
Proof.
  unfold record_decision. intros Hrun. apply bind_ok in Hrun as (at_ & s1 & [-> ->]%now_ok & Hrun). cbv iota zeta in Hrun.
  apply bind_ok in Hrun as ([] & s1 & ->%put_ok & Hrun).
  apply bind_ok in Hrun as ([] & s1 & Ha & [_ ->]%ret_ok).
  by apply (touches_kept ["meta"; "audit"]) in Ha; [|apply touches_audit_with|set_solver].
Qed.

Lemma admit_decision_ok r b s u s' :
  admit_decision r b s = (Ok u, s') →
  s.(St.clock) < sat_add r.(AccessRequest.created_at) RETAIN_SECONDS
  ∧ (b = true → s.(St.db) !! (CREDENTIAL_EXPOSURE, r.(AccessRequest.user_id)) = None).
Proof.
  unfold admit_decision. intros Hrun. apply bind_ok in Hrun as (at_ & s1 & [-> ->]%now_ok & Hrun).
  apply bind_ok in Hrun as ([] & s1 & [Hl ->]%ensure_ok & Hrun).
  apply bind_ok in Hrun as ([] & s1 & Hr & Hrun). pose proof (pure_run _ _ _ _ Hr) as ->.
  split; [by apply Z.ltb_lt|]. intros ->. unfold credential_exposure in Hrun.
  apply bind_ok in Hrun as (o & s1 & [-> Ho]%get_ok & [He _]%ensure_ok).
  apply bool_decide_eq_true in He as ->. done.
Qed.

Lemma access_receipt_key user session channel credential intent s receipt s' :
  access_receipt user session channel credential intent s = (Ok receipt, s') →
  is_Some receipt ↔ is_Some (s.(St.ctx) ≫= RequestContext.idempotency_key).
Proof.
  unfold access_receipt. intros Hrun. apply bind_ok in Hrun as (c & s1 & [-> ->]%current_ok & [-> _]%ret_ok).
  destruct s.(St.ctx) as [c|]; simpl; [|by split; intros [? ?]].
  destruct (RequestContext.idempotency_key c); simpl; split; intros [? ?]; try done; by eexists.
Qed.

(** What a decision went through. *)
Lemma decide_run token rid b s v s' :
  decide_access token rid b s = (Ok v, s') →
  ∃ actor session channel r receipt,
    pam_actor token s = (Ok (actor, session, channel), s)
    ∧ s.(St.db) !! ("access_requests", rid) = Some (RAccessRequest r)
    ∧ may_decide actor r s
    ∧ (is_Some receipt → is_Some (s.(St.ctx) ≫= RequestContext.idempotency_key))
    ∧ (from_receipt receipt s v s'
       ∨ r.(AccessRequest.status) = PENDING
         ∧ s.(St.clock) < sat_add r.(AccessRequest.created_at) RETAIN_SECONDS
         ∧ (b = true → s.(St.db) !! (CREDENTIAL_EXPOSURE, r.(AccessRequest.user_id)) = None)
         ∧ ∃ s1, record_decision actor rid r b s = (Ok v, s1) ∧ same_records kept s1 s').
Proof.
  unfold decide_access. intros Hrun. apply bind_ok in Hrun as ([[actor session] channel] & s1 & Ha & Hrun).
  pose proof (pure_run _ _ _ _ Ha) as ->. cbv zeta in Hrun. cbn [fst snd] in Hrun.
  apply bind_ok in Hrun as (o & s1 & [-> Ho]%get_ok & Hrun).
  apply bind_ok in Hrun as (r & s1 & [-> ->]%some_or_ok & Hrun).
  apply bind_ok in Hrun as (receipt & s1 & Hr & Hrun). pose proof (pure_run _ _ _ _ Hr) as ->.
  apply settled_run in Hrun as (Hauth & Hrun); [|apply _..].
  apply decision_authority_ok in Hauth as [_ Hauth].
  exists actor, session, channel, r, receipt. split; [done|]. split; [done|]. split; [done|]. split.
  { apply access_receipt_key in Hr. intros Hrc. by apply Hr. }
  destruct Hrun as [Hrep|(Hop & Hm & s1 & Hres & Hs)]; [by left|right].
  apply ensure_ok in Hop as [Hop%String.eqb_eq _]. apply admit_decision_ok in Hm as [Hm1 Hm2].
  split; [done|]. split; [done|]. split; [done|]. exists s1. split; [done|].
  by apply (touches_kept ["receipts"]) in Hs; [|apply touches_save_access|set_solver].
Qed.
End decisions.
#[export] Hint Resolve touches_save_access : tx.

(** ** What a decision and a revocation do *)

Section effects.
Context {E : Env} {L : ApplyLease}.
Implicit Types (s : St.t) (r : AccessRequest.t) (g : AccessGrant.t).

(** C11: a decision on a request for temporary access is made by a live person in a
    session, never by an agent: an approver the configuration names for the
    group, who is not the requester, while the requester's account is enabled.
    It is made once, on a pending request younger than the retention, and only
    for an account whose credentials no third party is known to hold.  An
    approval leaves exactly one new grant, for the requester, the group and the
    time of the request; a denial leaves none; no other request changes.  A retry
    under the same key changes nothing. *)
Theorem access_decision_sound token rid b s v s' :
  decide_access token rid b s = (Ok v, s') →
  ∃ actor session channel r,
    Str.starts_with token "ri_agent_" = false
    ∧ pam_actor token s = (Ok (actor, session, channel), s)
    ∧ s.(St.db) !! ("access_requests", rid) = Some (RAccessRequest r)
    ∧ may_decide actor r s
    ∧ (s' = s
       ∨ r.(AccessRequest.status) = PENDING
         ∧ s.(St.clock) < sat_add r.(AccessRequest.created_at) RETAIN_SECONDS
         ∧ (∀ k, k ≠ rid → s'.(St.db) !! ("access_requests", k) = s.(St.db) !! ("access_requests", k))
         ∧ if b then
             s.(St.db) !! (CREDENTIAL_EXPOSURE, r.(AccessRequest.user_id)) = None
             ∧ s'.(St.db) !! ("access_requests", rid)
                 = Some (RAccessRequest (approved_request actor.(User.id) r s))
             ∧ s'.(St.db) !! ("access_grants", uuid s.(St.rng)) = Some (RAccessGrant (granted r s))
             ∧ ∀ k, k ≠ uuid s.(St.rng) →
                 s'.(St.db) !! ("access_grants", k) = s.(St.db) !! ("access_grants", k)
           else
             s'.(St.db) !! ("access_requests", rid)
               = Some (RAccessRequest (AccessRequest.decide r DENIED s.(St.clock) actor.(User.id) r.(AccessRequest.grant_id)))
             ∧ ∀ k, s'.(St.db) !! ("access_grants", k) = s.(St.db) !! ("access_grants", k)).
Proof.
  intros Hrun. apply decide_run in Hrun as (actor & session & channel & r & receipt & Ha & Hr & Hm & _ & Hrun).
  exists actor, session, channel, r. split.
  { destruct (Str.starts_with token "ri_agent_") eqn:Ht; [|done]. unfold pam_actor in Ha. rewrite Ht in Ha.
    by apply bind_ok in Ha as (p & s1 & _ & Ha). }
  split; [done|]. split; [done|]. split; [done|].
  destruct Hrun as [[-> _]|(Hp & Hl & He & s1 & Hrec & [_ Hk])]; [by left|right].
  split; [done|]. split; [done|]. destruct b.
  - apply approve_run in Hrec as (before & _ & [_ Hs1]). specialize (He eq_refl).
    assert (Hs' : ∀ b k, kept b = true →
      s'.(St.db) !! (b, k) = (after_approval actor.(User.id) rid r before s).(St.db) !! (b, k)).
    { intros b k Hb. by rewrite Hk, Hs1. }
    unfold after_approval in Hs'. cbn [St.db St.set_db] in Hs'. split_and!.
    + intros k Hne. rewrite Hs' by done. rewrite !lookup_insert_ne by congruence. by apply reindex_other.
    + done.
    + rewrite Hs' by done. apply lookup_insert_eq.
    + rewrite Hs' by done. rewrite lookup_insert_ne by congruence. apply lookup_insert_eq.
    + intros k Hne. rewrite Hs' by done. rewrite !lookup_insert_ne by congruence. by apply reindex_other.
  - apply deny_run in Hrec as [_ Hs1]. cbn [St.db St.set_db] in Hs1. split_and!.
    + intros k Hne. rewrite Hk, Hs1 by done. by rewrite lookup_insert_ne by congruence.
    + rewrite Hk, Hs1 by done. apply lookup_insert_eq.
    + intros k. rewrite Hk, Hs1 by done. by rewrite lookup_insert_ne by congruence.
Qed.

(** The lists of a user, for every user, after an approval. *)
Definition unused_grant u s : Prop :=
  s.(St.db) !! ("access_grants", uuid s.(St.rng)) = None
  ∧ s.(St.db) !! (grants_bucket u, digest (uuid s.(St.rng))) = None.

Lemma index_kept u : kept (grants_bucket u) = true.
Proof.
  unfold kept. apply negb_true_iff, not_true_iff_false. intros (b & Hin & Heq%String.eqb_eq)%existsb_exists.
  assert (Hb : index_bucket b = true) by (rewrite <- Heq; apply grants_bucket_index).
  destruct Hin as [<-|[<-|[<-|[]]]]; discriminate Hb.
Qed.
Lemma index_ne u b : index_bucket b = false → grants_bucket u ≠ b.
Proof. intros Hb <-. by rewrite grants_bucket_index in Hb. Qed.

Section approval.
Context (aid rid : string) r s s'.
Context (Hfresh : unused_grant r.(AccessRequest.user_id) s).
Context (Hs' : same_records kept (after_approval aid rid r None s) s').
#[local] Abbreviation gid := (uuid s.(St.rng)).

Lemma approval_index u k :
  s'.(St.db) !! (grants_bucket u, k)
  = if bool_decide ((grants_bucket u, k) = (grants_bucket r.(AccessRequest.user_id), digest gid))
    then Some (RString gid) else s.(St.db) !! (grants_bucket u, k).
Proof.
  destruct Hs' as [_ H]. rewrite H by apply index_kept. unfold after_approval. cbn [St.db St.set_db].
  pose proof (index_ne u "access_requests" eq_refl). pose proof (index_ne u "access_grants" eq_refl).
  rewrite !lookup_insert_ne by congruence.
  change (reindex _ None (Some (granted r s)) (St.db s))
    with (<[(grants_bucket r.(AccessRequest.user_id), digest gid) := RString gid]> s.(St.db)).
  case_bool_decide as Heq; [rewrite Heq; apply lookup_insert_eq|by rewrite lookup_insert_ne].
Qed.
Lemma approval_grant k :
  s'.(St.db) !! ("access_grants", k)
  = if bool_decide (k = gid) then Some (RAccessGrant (granted r s)) else s.(St.db) !! ("access_grants", k).
Proof.
  destruct Hs' as [_ H]. rewrite H by done. unfold after_approval. cbn [St.db St.set_db].
  rewrite lookup_insert_ne by congruence. case_bool_decide as Heq; [rewrite Heq; apply lookup_insert_eq|].
  rewrite lookup_insert_ne by congruence. by apply reindex_other.
Qed.
Lemma approval_listed u g :
  (listed u s' g → listed u s g ∨ g = granted r s) ∧ (listed u s g → listed u s' g)
  ∧ listed r.(AccessRequest.user_id) s' (granted r s).
Proof.
  destruct Hfresh as [Hf1 Hf2]. unfold listed. split_and!.
  - intros (k & id & Hk & Hg). rewrite approval_index in Hk. rewrite approval_grant in Hg.
    destruct (decide (id = gid)) as [->|Hid].
    { rewrite bool_decide_true in Hg by done. injection Hg as <-. by right. }
    rewrite bool_decide_false in Hg by done. left. case_bool_decide; [congruence|]. eauto.
  - intros (k & id & Hk & Hg). exists k, id. rewrite approval_index, approval_grant.
    rewrite !bool_decide_false; [done|congruence|congruence].
  - exists (digest gid), gid. rewrite approval_index, approval_grant. by rewrite !bool_decide_true.
Qed.
Lemma approval_readable u : readable u s → readable u s'.
Proof.
  intros Hr k w Hk. rewrite approval_index in Hk.
  assert (Hid : ∀ id, (∃ o, s.(St.db) !! ("access_grants", id) = RAccessGrant <$> o) →
                      ∃ o, s'.(St.db) !! ("access_grants", id) = RAccessGrant <$> o).
  { intros id [o Ho]. destruct (decide (id = gid)) as [->|Hne].
    - exists (Some (granted r s)). by rewrite approval_grant, bool_decide_true.
    - exists o. by rewrite approval_grant, bool_decide_false. }
  case_bool_decide as H1.
  - injection Hk as <-. exists gid. split; [done|]. apply Hid. exists None. by apply Hfresh.
  - destruct (Hr _ _ Hk) as (id & -> & Ho). exists id. split; [done|]. by apply Hid.
Qed.
Lemma approval_conferred u t x :
  conferred u t s' x ↔ conferred u t s x
    ∨ u = r.(AccessRequest.user_id) ∧ x = r.(AccessRequest.group)
      ∧ s.(St.clock) ≤ t < sat_add s.(St.clock) r.(AccessRequest.ttl).
Proof.
  assert (Hact : AccessGrant.active (granted r s) t = true
    ↔ s.(St.clock) ≤ t < sat_add s.(St.clock) r.(AccessRequest.ttl)).
  { unfold AccessGrant.active. simpl. rewrite andb_true_iff, Z.leb_le, Z.ltb_lt. done. }
  split.
  - intros (g & Hl & Hu & Ha & Hx). destruct (approval_listed u g) as (H1 & _ & _).
    destruct (H1 Hl) as [?| ->]; [left; by exists g|right]. simpl in Hu, Hx. by rewrite <- Hact.
  - intros [(g & Hl & Hrest)|(-> & -> & Ht)].
    + exists g. split; [by apply approval_listed|done].
    + exists (granted r s). rewrite Hact. destruct Ht, (approval_listed r.(AccessRequest.user_id) (granted r s)) as (_ & _ & Hl).
      by split_and!.
Qed.
End approval.

(** An approval confers the group, and nothing else: in the state it leaves, a
    user's temporary groups are those it had and, for the requester, the
    requested group from the second of the approval until the requested time has
    passed.  This holds for every user and every instant, for whom a grant was
    drawn with an unused id. *)
Theorem approval_confers token rid r s v s' u t G :
  decide_access token rid true s = (Ok v, s') →
  s.(St.db) !! ("access_requests", rid) = Some (RAccessRequest r) →
  unused_grant r.(AccessRequest.user_id) s →
  extra_groups u t s = (Ok G, s) →
  s' = s
  ∨ ∃ G', extra_groups u t s' = (Ok G', s')
      ∧ ∀ x, x ∈ G' ↔ x ∈ G ∨ u = r.(AccessRequest.user_id) ∧ x = r.(AccessRequest.group)
                             ∧ s.(St.clock) ≤ t < sat_add s.(St.clock) r.(AccessRequest.ttl).
Proof.
  intros Hrun Hr Hfresh HG.
  apply decide_run in Hrun as (actor & session & channel & r' & receipt & _ & Hr' & _ & _ & Hrun).
  rewrite Hr in Hr'. injection Hr' as <-. destruct Hrun as [[-> _]|(_ & _ & He & s1 & Hrec & Hk)]; [by left|right].
  apply approve_run in Hrec as (before & Hb & Hs1). rewrite (proj1 Hfresh) in Hb.
  destruct before; [done|]. pose proof (same_records_trans _ _ _ _ Hs1 Hk) as Hs'. specialize (He eq_refl).
  assert (Hexp : ∀ u, s'.(St.db) !! (CREDENTIAL_EXPOSURE, u) = s.(St.db) !! (CREDENTIAL_EXPOSURE, u)).
  { intros u0. destruct Hs' as [_ ->]; [|done]. unfold after_approval. cbn [St.db St.set_db].
    rewrite !lookup_insert_ne by done. by apply reindex_other. }
  apply extra_groups_ok in HG as (_ & H1 & H2).
  destruct (s.(St.db) !! (CREDENTIAL_EXPOSURE, u)) as [w|] eqn:Hu.
  - destruct H2 as (-> & e & He'); [done|]. exists ∅. split.
    + apply (extra_groups_exposed u t s' e). by rewrite Hexp, Hu.
    + intros x. split; [set_solver|]. intros [?|[-> _]]; [set_solver|congruence].
  - destruct (H1 eq_refl) as [Hread Hin].
    destruct (extra_groups_run u t s') as (G' & HG' & Hin'); [by rewrite Hexp|by eapply approval_readable|].
    exists G'. split; [done|]. intros x. rewrite Hin', Hin. by eapply approval_conferred.
Qed.

(** What a revocation writes. *)
Lemma revoke_run token gid s v s' :
  revoke_access token gid s = (Ok v, s') →
  ∃ actor session channel g,
    pam_actor token s = (Ok (actor, session, channel), s)
    ∧ s.(St.db) !! ("access_grants", gid) = Some (RAccessGrant g)
    ∧ may_revoke actor g = true
    ∧ (s' = s
       ∨ g.(AccessGrant.revoked_at) = None ∧ s.(St.clock) < g.(AccessGrant.expires_at)
         ∧ same_records kept
             (St.set_db s (<[("access_grants", gid) := RAccessGrant (revoke_grant g s.(St.clock) actor.(User.id))]>
                (base.delete (grants_bucket g.(AccessGrant.user_id), digest gid) s.(St.db)))) s').
Proof.
  unfold revoke_access. intros Hrun. apply bind_ok in Hrun as ([[actor session] channel] & s1 & Ha & Hrun).
  pose proof (pure_run _ _ _ _ Ha) as ->. cbv zeta in Hrun. cbn [fst snd] in Hrun.
  apply bind_ok in Hrun as (o & s1 & [-> Ho]%get_ok & Hrun).
  apply bind_ok in Hrun as (g & s1 & [-> ->]%some_or_ok & Hrun).
  apply bind_ok in Hrun as (receipt & s1 & Hr & Hrun). pose proof (pure_run _ _ _ _ Hr) as ->.
  apply settled_run in Hrun as (Hauth & Hrun); [|apply _|apply _|solve_pure].
  apply ensure_ok in Hauth as [Hauth _]. exists actor, session, channel, g.
  split; [done|]. split; [done|]. split; [done|].
  destruct Hrun as [[-> _]|(Hop & Hm & s1 & Hres & Hs)]; [by left|right].
  apply ensure_ok in Hop as [Hop%bool_decide_eq_true _].
  apply bind_ok in Hm as (at_ & s2 & [-> ->]%now_ok & Hm). apply bind_ok in Hm as ([] & s2 & [Hl%Z.ltb_lt ->]%ensure_ok & _).
  split; [done|]. split; [done|].
  apply bind_ok in Hres as (at_ & s2 & [-> ->]%now_ok & Hres). cbv zeta in Hres.
  apply bind_ok in Hres as ([] & s2 & (before & Hb & ->)%put_grant_run & Hres).
  apply bind_ok in Hres as ([] & s2 & Hau & [_ ->]%ret_ok).
  simpl in Ho. rewrite Ho in Hb. destruct before as [g'|]; [|done]. injection Hb as <-.
  assert (Hre : reindex gid (Some g) (Some (revoke_grant g s.(St.clock) actor.(User.id))) s.(St.db)
    = base.delete (grants_bucket g.(AccessGrant.user_id), digest gid) s.(St.db)).
  { unfold reindex. cbn [mbind option_bind]. unfold grant_entry. by rewrite Hop. }
  rewrite Hre in Hau. eapply same_records_trans.
  - apply (touches_kept ["meta"; "audit"]) in Hau; [exact Hau|apply touches_audit_with|set_solver].
  - by apply (touches_kept ["receipts"]) in Hs; [|apply touches_save_access|set_solver].
Qed.

(** A revocation is made by an administrator or an approver of the group, on a
    grant that is neither revoked nor expired, and takes effect at once: in the
    state it leaves, for every user and every instant, a temporary group is one
    that another live grant confers, and all of those are still conferred.  The
    index is assumed to name the grant where the store keeps it. *)
Theorem revocation_withdraws token gid s v s' u t G :
  revoke_access token gid s = (Ok v, s') →
  (∀ g, s.(St.db) !! ("access_grants", gid) = Some (RAccessGrant g) → g.(AccessGrant.revoked_at) = None →
     s.(St.db) !! (grants_bucket g.(AccessGrant.user_id), digest gid) = Some (RString gid)) →
  extra_groups u t s = (Ok G, s) →
  s' = s
  ∨ (∃ actor session channel g, pam_actor token s = (Ok (actor, session, channel), s)
       ∧ s.(St.db) !! ("access_grants", gid) = Some (RAccessGrant g) ∧ may_revoke actor g = true
       ∧ g.(AccessGrant.revoked_at) = None ∧ s.(St.clock) < g.(AccessGrant.expires_at))
    ∧ ∃ G', extra_groups u t s' = (Ok G', s')
        ∧ ∀ x, x ∈ G' ↔ s.(St.db) !! (CREDENTIAL_EXPOSURE, u) = None
            ∧ ∃ k id g, id ≠ gid ∧ s.(St.db) !! (grants_bucket u, k) = Some (RString id)
                ∧ s.(St.db) !! ("access_grants", id) = Some (RAccessGrant g)
                ∧ g.(AccessGrant.user_id) = u ∧ AccessGrant.active g t = true ∧ g.(AccessGrant.group) = x.
Proof.
  intros Hrun Hidx HG.
  apply revoke_run in Hrun as (actor & session & channel & g & Ha & Hg & Hm & [->|(Hr & Hl & [_ Hs'])]); [by left|right].
  split; [by exists actor, session, channel, g|]. specialize (Hidx _ Hg Hr).
  cbn [St.db St.set_db] in Hs'.
  assert (Hgr : ∀ id, id ≠ gid → s'.(St.db) !! ("access_grants", id) = s.(St.db) !! ("access_grants", id)).
  { intros id Hne. rewrite Hs' by done. rewrite lookup_insert_ne by congruence.
    by apply lookup_delete_ne. }
  assert (Hgid : s'.(St.db) !! ("access_grants", gid)
    = Some (RAccessGrant (revoke_grant g s.(St.clock) actor.(User.id)))).
  { rewrite Hs' by done. apply lookup_insert_eq. }
  assert (Hix : ∀ k, s'.(St.db) !! (grants_bucket u, k) = s.(St.db) !! (grants_bucket u, k)
    ∨ s.(St.db) !! (grants_bucket u, k) = Some (RString gid) ∧ s'.(St.db) !! (grants_bucket u, k) = None).
  { intros k. rewrite Hs' by apply index_kept. pose proof (index_ne u "access_grants" eq_refl).
    rewrite lookup_insert_ne by congruence.
    destruct (decide ((grants_bucket g.(AccessGrant.user_id), digest gid) = (grants_bucket u, k))) as [Heq|Hne].
    - right. rewrite <- Heq. split; [done|apply lookup_delete_eq].
    - left. by rewrite lookup_delete_ne. }
  assert (Hexp : s'.(St.db) !! (CREDENTIAL_EXPOSURE, u) = s.(St.db) !! (CREDENTIAL_EXPOSURE, u)).
  { rewrite Hs' by done. rewrite lookup_insert_ne by done.
    by apply lookup_delete_ne. }
  assert (Hread : readable u s → readable u s').
  { intros Hrd k w Hk. destruct (Hix k) as [Heq|[_ Heq]]; [|congruence]. rewrite Heq in Hk.
    destruct (Hrd _ _ Hk) as (id & -> & o & Ho). exists id. split; [done|].
    destruct (decide (id = gid)) as [->|Hne]; [by eexists (Some _)|exists o; by rewrite Hgr]. }
  apply extra_groups_ok in HG as (_ & H1 & H2). destruct (s.(St.db) !! (CREDENTIAL_EXPOSURE, u)) as [w|] eqn:Hu.
  - destruct H2 as (_ & e & He); [done|]. exists ∅. split; [apply (extra_groups_exposed u t s' e); congruence|].
    intros x. split; [set_solver|]. by intros [? _].
  - destruct (H1 eq_refl) as [Hrd _]. destruct (extra_groups_run u t s') as (G' & HG' & Hin); [done|by apply Hread|].
    exists G'. split; [done|]. intros x. rewrite Hin. unfold conferred, listed. split.
    + intros (h & (k & id & Hk & Hh) & Hhu & Hha & Hhx). split; [done|].
      destruct (decide (id = gid)) as [->|Hne].
      { rewrite Hgid in Hh. injection Hh as <-. done. }
      exists k, id, h. rewrite Hgr in Hh by done.
      destruct (Hix k) as [Heq|[_ Heq]]; [|congruence]. rewrite Heq in Hk. done.
    + intros (_ & k & id & h & Hne & Hk & Hh & Hrest). exists h. split; [|done]. exists k, id.
      rewrite Hgr by done. split; [|done]. destruct (Hix k) as [->|[Heq _]]; [done|congruence].
Qed.
End effects.

(** ** Every temporary group is accounted for *)

Section accountability.
Context {E : Env} {L : ApplyLease}.
Implicit Types (s : St.t) (r : AccessRequest.t) (g : AccessGrant.t).

(** One committed operation, or anything else the server does: it may change the
    users as long as each keeps its key, but not these two buckets, and time does
    not run backwards.  A failed operation changes no record ([write_err]).  The
    id drawn for a request is unused. *)
Inductive access_step : St.t → St.t → Prop :=
| step_request token input s v s' :
    s.(St.db) !! ("access_requests", uuid s.(St.rng)) = None →
    request_access token input s = (Ok v, s') → access_step s s'
| step_decide token rid b s v s' : decide_access token rid b s = (Ok v, s') → access_step s s'
| step_revoke token gid s v s' : revoke_access token gid s = (Ok v, s') → access_step s s'
| step_cleanup s u s' : cleanup_access s.(St.clock) s = (Ok u, s') → access_step s s'
| step_other s s' :
    s.(St.clock) ≤ s'.(St.clock) →
    (∀ k, s'.(St.db) !! ("access_requests", k) = s.(St.db) !! ("access_requests", k)) →
    (∀ k, s'.(St.db) !! ("access_grants", k) = s.(St.db) !! ("access_grants", k)) →
    (∀ k u, s'.(St.db) !! ("users", k) = Some (RUser u) → u.(User.id) = k) →
    access_step s s'.

(** The request a grant came from: who asked, and who else approved. *)
Definition approved_by g k s : Prop := ∃ r a,
  s.(St.db) !! ("access_requests", g.(AccessGrant.request_id)) = Some (RAccessRequest r)
  ∧ r.(AccessRequest.status) = APPROVED ∧ r.(AccessRequest.decided_at) = Some g.(AccessGrant.not_before)
  ∧ r.(AccessRequest.decided_by) = Some a ∧ a ≠ r.(AccessRequest.user_id)
  ∧ r.(AccessRequest.user_id) = g.(AccessGrant.user_id) ∧ r.(AccessRequest.group) = g.(AccessGrant.group)
  ∧ r.(AccessRequest.grant_id) = Some k.
Definition grant_ok g k s : Prop :=
  g.(AccessGrant.expires_at) ≤ g.(AccessGrant.not_before) + 86400
  ∧ g.(AccessGrant.expires_at) ≤ u64_max
  ∧ is_Some (approvers g.(AccessGrant.group))
  ∧ (approved_by g k s ∨ sat_add g.(AccessGrant.not_before) RETAIN_SECONDS ≤ s.(St.clock)).
Record accountable s : Prop := {
  acc_users k u : s.(St.db) !! ("users", k) = Some (RUser u) → u.(User.id) = k;
  acc_requests k r : s.(St.db) !! ("access_requests", k) = Some (RAccessRequest r) →
    r.(AccessRequest.id) = k ∧ 60 ≤ r.(AccessRequest.ttl) ≤ 86400;
  acc_grants k g : s.(St.db) !! ("access_grants", k) = Some (RAccessGrant g) → grant_ok g k s;
}.

(** A request that is not an approved one may go. *)
Lemma grant_ok_step g k s s' :
  grant_ok g k s → s.(St.clock) ≤ s'.(St.clock) →
  (∀ r, s.(St.db) !! ("access_requests", g.(AccessGrant.request_id)) = Some (RAccessRequest r) →
        r.(AccessRequest.status) = APPROVED → r.(AccessRequest.decided_at) = Some g.(AccessGrant.not_before) →
        s'.(St.db) !! ("access_requests", g.(AccessGrant.request_id)) = Some (RAccessRequest r)
        ∨ sat_add g.(AccessGrant.not_before) RETAIN_SECONDS ≤ s'.(St.clock)) →
  grant_ok g k s'.
Proof.
  intros (H1 & H2 & H3 & H4) Hc Hkeep. split; [done|]. split; [done|]. split; [done|].
  destruct H4 as [(r & a & Hr & Hst & Hat & Hrest)|?]; [|right; lia].
  destruct (Hkeep r Hr Hst Hat) as [?|?]; [left; by exists r, a|by right].
Qed.

Lemma validate_request_ttl input : validate_request input = Ok () → 60 ≤ input.(NewAccessRequest.ttl) ≤ 86400.
Proof. unfold validate_request. intros Hv. repeat (case_match; try done). bools. lia. Qed.
Lemma request_run token input s v s' :
  request_access token input s = (Ok v, s') →
  s' = s
  ∨ ∃ r, r.(AccessRequest.id) = uuid s.(St.rng) ∧ 60 ≤ r.(AccessRequest.ttl) ≤ 86400
      ∧ same_records kept
          (St.set_db s (<[("access_requests", uuid s.(St.rng)) := RAccessRequest r]> s.(St.db))) s'.
Proof.
  unfold request_access. intros Hrun. apply bind_ok in Hrun as ([] & s1 & [Hv ->]%lift_ok & Hrun).
  apply bind_ok in Hrun as ([[actor session] channel] & s1 & Ha & Hrun). pose proof (pure_run _ _ _ _ Ha) as ->.
  cbv zeta in Hrun. apply bind_ok in Hrun as ([] & s1 & [_ ->]%ensure_ok & Hrun).
  apply bind_ok in Hrun as (og & s1 & [-> _]%get_ok & Hrun). apply bind_ok in Hrun as (gr & s1 & [_ ->]%some_or_ok & Hrun).
  apply bind_ok in Hrun as (names & s1 & [_ ->]%some_or_ok & Hrun).
  apply bind_ok in Hrun as (receipt & s1 & Hr & Hrun). pose proof (pure_run _ _ _ _ Hr) as ->.
  apply bind_ok in Hrun as (o & s1 & Ho & Hrun).
  assert (s1 = s) as -> by (destruct receipt; [exact (pure_run _ _ _ _ Ho)|by apply ret_ok in Ho as [_ ->]]).
  destruct o as [w|]; [left; by apply ret_ok in Hrun as [_ ->]|right]. unfold answer in Hrun.
  apply bind_ok in Hrun as (w & s1 & Hw & Hrun). apply bind_ok in Hrun as ([] & s2 & Hs & [_ ->]%ret_ok).
  apply bind_ok in Hw as ([] & s3 & Hrev & Hw). pose proof (pure_run _ _ _ _ Hrev) as ->.
  apply bind_ok in Hw as (rows & s3 & Hl & Hw). pose proof (pure_run _ _ _ _ Hl) as ->.
  apply bind_ok in Hw as ([] & s3 & [_ ->]%ensure_ok & Hw).
  apply bind_ok in Hw as (rid & s3 & [-> ->]%id_ok & Hw). apply bind_ok in Hw as (at_ & s3 & [-> ->]%now_ok & Hw).
  cbv zeta in Hw. apply bind_ok in Hw as ([] & s3 & ->%put_ok & Hw).
  apply bind_ok in Hw as ([] & s3 & Hau & [_ ->]%ret_ok).
  exists (AccessRequest.mk (uuid s.(St.rng)) actor.(User.id) actor.(User.username) input.(NewAccessRequest.group)
    input.(NewAccessRequest.reason) input.(NewAccessRequest.ttl) PENDING s.(St.clock) None None None).
  split; [done|]. split; cycle 1.
  - eapply same_records_trans.
    + apply (touches_kept ["meta"; "audit"]) in Hau; [exact Hau|apply touches_audit_with|set_solver].
    + by apply (touches_kept ["receipts"]) in Hs; [|apply touches_save_access|set_solver].
  - by apply validate_request_ttl in Hv.
Qed.

(** What a clean-up removes. *)
Lemma sweep_drops T `{Row T} b (dead : T → bool) (drop : string → T → tx unit) s u s' :
  b ≠ CURSORS → b ≠ BOUNDS → index_bucket b = false →
  (∀ k (x : T) s1 u s2, drop k x s1 = (Ok u, s2) → s2.(St.clock) = s1.(St.clock)
     ∧ s2.(St.db) !! (b, k) = None
     ∧ ∀ b' j, index_bucket b' = false → (b', j) ≠ (b, k) → s2.(St.db) !! (b', j) = s1.(St.db) !! (b', j)) →
  sweep T b dead drop s = (Ok u, s') →
  s'.(St.clock) = s.(St.clock)
  ∧ (∀ k, s'.(St.db) !! (b, k) = s.(St.db) !! (b, k)
        ∨ s'.(St.db) !! (b, k) = None ∧ ∃ x, s.(St.db) !! (b, k) = Some (encode x) ∧ dead x = true)
  ∧ ∀ b' j, b' ≠ b → b' ≠ CURSORS → b' ≠ BOUNDS → index_bucket b' = false →
      s'.(St.db) !! (b', j) = s.(St.db) !! (b', j).
Proof.
  intros Hb1 Hb2 Hb3 Hdrop Hrun. unfold sweep in Hrun. apply bind_ok in Hrun as (page & s1 & Hp & Hrun).
  assert (Hrows : ∀ k (x : T), (k, x) ∈ page → s.(St.db) !! (b, k) = Some (encode x)) by (intros; by eapply page_subset).
  pose proof (touches_maintenance_page T b) as Ht. destruct (touches_run [CURSORS; BOUNDS] _ _ _ _ Hp) as (Hc & _ & _ & Hf). clear Ht Hp.
  assert (Hfor : s'.(St.clock) = s1.(St.clock)
    ∧ (∀ k, s'.(St.db) !! (b, k) = s1.(St.db) !! (b, k)
         ∨ s'.(St.db) !! (b, k) = None ∧ ∃ x, (k, x) ∈ page ∧ dead x = true)
    ∧ ∀ b' j, b' ≠ b → index_bucket b' = false → s'.(St.db) !! (b', j) = s1.(St.db) !! (b', j)).
  { clear Hrows Hf Hc. revert s1 Hrun. induction page as [|[k r] page IH]; intros s1 Hrun.
    { apply ret_ok in Hrun as [_ ->]. split_and!; [done|by left|done]. }
    apply bind_ok in Hrun as ([] & s2 & Hd & Hrun). destruct (IH _ Hrun) as (IH1 & IH2 & IH3). simpl in Hd.
    destruct (dead r) eqn:Hdead.
    - apply Hdrop in Hd as (Hd1 & Hd2 & Hd3). split_and!; [congruence| |].
      + intros j. destruct (IH2 j) as [Hj|(Hj & x & Hx & Hxd)].
        * destruct (decide (j = k)) as [->|Hne].
          -- right. rewrite Hj. split; [done|]. exists r. set_solver.
          -- left. rewrite Hj. apply Hd3; [done|congruence].
        * right. split; [done|]. exists x. set_solver.
      + intros b' j Hb Hi. rewrite IH3 by done. apply Hd3; [done|congruence].
    - apply ret_ok in Hd as [_ ->]. split_and!; [done| |done]. intros j.
      destruct (IH2 j) as [?|(? & x & ? & ?)]; [by left|right]. split; [done|]. exists x. set_solver. }
  destruct Hfor as (H1 & H2 & H3). split; [congruence|]. split.
  - intros k. rewrite <- (Hf b k) by set_solver. destruct (H2 k) as [?|(? & x & Hx%Hrows & ?)]; [by left|right].
    split; [done|]. exists x. rewrite Hf by set_solver. done.
  - intros b' j ????. rewrite H3 by done. apply Hf. set_solver.
Qed.
Lemma cleanup_run at_ s u s' :
  cleanup_access at_ s = (Ok u, s') →
  s'.(St.clock) = s.(St.clock)
  ∧ (∀ k, s'.(St.db) !! ("access_requests", k) = s.(St.db) !! ("access_requests", k)
        ∨ s'.(St.db) !! ("access_requests", k) = None
          ∧ ∃ r, s.(St.db) !! ("access_requests", k) = Some (RAccessRequest r) ∧ request_dead at_ r = true)
  ∧ (∀ k, s'.(St.db) !! ("access_grants", k) = s.(St.db) !! ("access_grants", k)
        ∨ s'.(St.db) !! ("access_grants", k) = None)
  ∧ ∀ k, s'.(St.db) !! ("users", k) = s.(St.db) !! ("users", k).
Proof.
  unfold cleanup_access. intros Hrun. apply bind_ok in Hrun as ([] & s1 & H1 & H2).
  apply sweep_drops in H1 as (Hc1 & Hr1 & Hf1); [|done..|].
  2:{ intros k r s2 [] s3 ->%remove_ok. cbn [St.db St.set_db St.clock]. split_and!; [done|apply lookup_delete_eq|].
      intros. by rewrite lookup_delete_ne by congruence. }
  apply sweep_drops in H2 as (Hc2 & Hr2 & Hf2); [|done..|].
  2:{ intros k r s2 [] s3 (before & _ & ->)%delete_grant_run. cbn [St.db St.set_db St.clock].
      split_and!; [done|apply lookup_delete_eq|]. intros b' j Hi Hne. rewrite lookup_delete_ne by congruence.
      by apply reindex_other. }
  split; [congruence|]. split_and!.
  - intros k. rewrite Hf2 by done. apply Hr1.
  - intros k. destruct (Hr2 k) as [->|[? _]]; [left; by apply Hf1|by right].
  - intros k. rewrite Hf2, Hf1 by done. done.
Qed.

Lemma accountable_step s s' : access_step s s' → accountable s → accountable s'.
Proof.
  intros Hstep [Hu Hr Hg]. destruct Hstep as [token input s v s' Hfresh Hrun|token rid b s v s' Hrun
    |token gid s v s' Hrun|s u s' Hrun|s s' Hc Hreq Hgr Hus].
  - apply request_run in Hrun as [->|(r & Hid & Httl & Hc & Hk)]; [done|]. cbn [St.db St.clock St.set_db] in Hc, Hk.
    assert (Hreq : ∀ k, k ≠ uuid s.(St.rng) →
      s'.(St.db) !! ("access_requests", k) = s.(St.db) !! ("access_requests", k)).
    { intros k Hne. rewrite Hk by done. by rewrite lookup_insert_ne by congruence. }
    split.
    + intros k u. rewrite Hk by done. rewrite lookup_insert_ne by done. apply Hu.
    + intros k r'. destruct (decide (k = uuid s.(St.rng))) as [->|Hne]; [|rewrite Hreq by done; apply Hr].
      rewrite Hk by done. rewrite lookup_insert_eq. by intros [= <-].
    + intros k g. rewrite Hk by done. rewrite lookup_insert_ne by done. intros Hg'%Hg.
      apply (grant_ok_step _ _ _ _ Hg'); [lia|]. intros r' Hr' _ _. left. rewrite Hreq; [done|]. congruence.
  - apply decide_run in Hrun as (actor & session & channel & r & receipt & _ & Hrow & Hmay & _ & Hrun).
    destruct Hrun as [[-> _]|(Hp & _ & _ & s1 & Hrec & Hk)]; [done|].
    destruct (Hr _ _ Hrow) as [Hid Httl]. destruct b.
    + apply approve_run in Hrec as (before & _ & Hs1). pose proof (same_records_trans _ _ _ _ Hs1 Hk) as [Hc Hs'].
      unfold after_approval in Hs', Hc. cbn [St.db St.clock St.set_db] in Hs', Hc.
      assert (Hreq : ∀ k, k ≠ rid → s'.(St.db) !! ("access_requests", k) = s.(St.db) !! ("access_requests", k)).
      { intros k Hne. rewrite Hs' by done. rewrite !lookup_insert_ne by congruence. by apply reindex_other. }
      split.
      * intros k u. rewrite Hs' by done. rewrite !lookup_insert_ne by done. rewrite reindex_other by done. apply Hu.
      * intros k r'. destruct (decide (k = rid)) as [->|Hne]; [|rewrite Hreq by done; apply Hr].
        rewrite Hs' by done. rewrite lookup_insert_eq. by intros [= <-].
      * intros k g. rewrite Hs' by done. rewrite lookup_insert_ne by done.
        destruct (decide (k = uuid s.(St.rng))) as [->|Hne].
        { rewrite lookup_insert_eq. intros [= <-]. destruct Hmay as (names & group & requester & Hn & _ & _ & Hrq & _ & Hne).
          split_and!; simpl; [unfold sat_add; lia|unfold sat_add; lia|by exists names|left].
          exists (approved_request actor.(User.id) r s), actor.(User.id). simpl. rewrite Hid.
          split_and!; try done; [rewrite Hs' by done; apply lookup_insert_eq|].
          by rewrite (Hu _ _ Hrq) in Hne. }
        rewrite lookup_insert_ne by congruence. rewrite reindex_other by done. intros Hg'%Hg.
        apply (grant_ok_step _ _ _ _ Hg'); [lia|]. intros r' Hr' Hst _. left. rewrite Hreq; [done|].
        intros Heq. rewrite Heq, Hrow in Hr'. injection Hr' as <-. by rewrite Hp in Hst.
    + apply deny_run in Hrec. pose proof (same_records_trans _ _ _ _ Hrec Hk) as [Hc Hs'].
      cbn [St.db St.set_db St.clock] in Hs', Hc. split.
      * intros k u. rewrite Hs' by done. rewrite lookup_insert_ne by done. apply Hu.
      * intros k r'. rewrite Hs' by done. destruct (decide (k = rid)) as [->|Hne].
        -- rewrite lookup_insert_eq. by intros [= <-].
        -- rewrite lookup_insert_ne by congruence. apply Hr.
      * intros k g. rewrite Hs' by done. rewrite lookup_insert_ne by done. intros Hg'%Hg.
        apply (grant_ok_step _ _ _ _ Hg'); [lia|]. intros r' Hr' Hst _. left. rewrite Hs' by done.
        rewrite lookup_insert_ne; [done|]. intros [= Heq]. rewrite <- Heq, Hrow in Hr'. injection Hr' as <-.
        by rewrite Hp in Hst.
  - apply revoke_run in Hrun as (actor & session & channel & g & _ & Hrow & _ & [->|(_ & _ & Hc & Hs')]); [done|].
    cbn [St.db St.set_db St.clock] in Hs', Hc.
    assert (Hdel : ∀ b k, index_bucket b = false → kept b = true → (b, k) ≠ ("access_grants", gid) →
      s'.(St.db) !! (b, k) = s.(St.db) !! (b, k)).
    { intros b k Hb Hkb Hne. rewrite Hs' by done. rewrite lookup_insert_ne by congruence.
      apply lookup_delete_ne. intros [= He _]. by apply (index_ne _ b) in He. }
    split.
    + intros k u. rewrite Hdel by done. apply Hu.
    + intros k r'. rewrite Hdel by done. apply Hr.
    + intros k h. assert (Hok : ∀ h0, grant_ok h0 k s → grant_ok h0 k s').
      { intros h0 Hg'. apply (grant_ok_step _ _ _ _ Hg'); [lia|]. intros r' Hr' _ _. left. by rewrite Hdel. }
      destruct (decide (k = gid)) as [->|Hne].
      * rewrite Hs' by done. rewrite lookup_insert_eq. intros [= <-].
        destruct (Hok _ (Hg _ _ Hrow)) as (? & ? & ? & ?). by split_and!.
      * rewrite Hdel by (done || congruence). intros Hg'%Hg. by apply Hok.
  - apply cleanup_run in Hrun as (Hc & Hreq & Hgr & Hus). split.
    + intros k u0. rewrite Hus. apply Hu.
    + intros k r'. destruct (Hreq k) as [->|[-> _]]; [apply Hr|done].
    + intros k g Hk. destruct (Hgr k) as [Heq|Heq]; [|congruence]. rewrite Heq in Hk. apply Hg in Hk.
      apply (grant_ok_step _ _ _ _ Hk); [lia|]. intros r' Hr' Hst Hat.
      destruct (Hreq g.(AccessGrant.request_id)) as [->|[_ (r0 & Hr0 & Hd)]]; [by left|right].
      rewrite Hr' in Hr0. injection Hr0 as <-. unfold request_dead in Hd. rewrite Hst, Hat in Hd.
      apply Z.leb_le in Hd. by rewrite Hc.
  - split; [done|by intros k r; rewrite Hreq; apply Hr|].
    intros k g. rewrite Hgr. intros Hk%Hg. apply (grant_ok_step _ _ _ _ Hk); [done|].
    intros r' Hr' _ _. left. by rewrite Hreq.
Qed.
Lemma accountable_steps s s' : rtc access_step s s' → accountable s → accountable s'.
Proof. induction 1; eauto using accountable_step. Qed.

(** C14: from a store without requests or grants, whatever requests, decisions,
    revocations, clean-ups and other work the server has done since: while a
    temporary group counts for a user, there is a grant for it that is not
    revoked, inside a window of at most a day, and the record of the request it
    came from is still kept.  That record names the user, the group and the
    person who approved it, who is someone else, for a group with an approver
    rule.  Cleaning up history never removes the reason for a live entitlement. *)
Theorem temporary_group_accountable s0 s u G x s' :
  (∀ k, s0.(St.db) !! ("access_requests", k) = None) → (∀ k, s0.(St.db) !! ("access_grants", k) = None) →
  (∀ k u, s0.(St.db) !! ("users", k) = Some (RUser u) → u.(User.id) = k) →
  rtc access_step s0 s →
  extra_groups u s.(St.clock) s = (Ok G, s') → x ∈ G →
  ∃ k g r a,
    s.(St.db) !! ("access_grants", k) = Some (RAccessGrant g)
    ∧ g.(AccessGrant.user_id) = u ∧ g.(AccessGrant.group) = x ∧ g.(AccessGrant.revoked_at) = None
    ∧ g.(AccessGrant.not_before) ≤ s.(St.clock) < g.(AccessGrant.expires_at)
    ∧ g.(AccessGrant.expires_at) ≤ g.(AccessGrant.not_before) + 86400
    ∧ is_Some (approvers x)
    ∧ s.(St.db) !! ("access_requests", g.(AccessGrant.request_id)) = Some (RAccessRequest r)
    ∧ r.(AccessRequest.status) = APPROVED ∧ r.(AccessRequest.grant_id) = Some k
    ∧ r.(AccessRequest.user_id) = u ∧ r.(AccessRequest.group) = x
    ∧ r.(AccessRequest.decided_by) = Some a ∧ a ≠ u.
Proof.
  intros Hr0 Hg0 Hu0 Hsteps Hrun Hx.
  assert (Hacc : accountable s).
  { apply (accountable_steps s0); [done|]. split; [done|by intros k r; rewrite Hr0|by intros k g; rewrite Hg0]. }
  apply extra_groups_ok in Hrun as (_ & H1 & H2).
  destruct (decide (s.(St.db) !! (CREDENTIAL_EXPOSURE, u) = None)) as [He|He]; [|destruct (H2 He); set_solver].
  destruct (H1 He) as [_ Hin]. apply Hin in Hx as (g & (i & k & _ & Hk) & Hu & Hact & Hgx).
  unfold AccessGrant.active in Hact. apply andb_true_iff in Hact as [Hact Hexp].
  apply andb_true_iff in Hact as [Hrev%bool_decide_eq_true Hnb]. apply Z.leb_le in Hnb. apply Z.ltb_lt in Hexp.
  destruct (acc_grants _ Hacc _ _ Hk) as (Hw & Hmax & Happ & [(r & a & Hr & Hst & Hat & Hby & Hne & Hru & Hrg & Hgid)|Hold]).
  - exists k, g, r, a. subst x u. rewrite Hru in Hne. by split_and!.
  - exfalso. unfold sat_add, RETAIN_SECONDS in Hold. lia.
Qed.
End accountability.

(** ** What a reviewer sees *)

Section review.
Context {E : Env} {L : ApplyLease}.
Implicit Types (s : St.t) (r : AccessRequest.t) (g : AccessGrant.t).

Definition open_request r s : Prop :=
  r.(AccessRequest.status) = PENDING ∧ s.(St.clock) < sat_add r.(AccessRequest.created_at) RETAIN_SECONDS.

Lemma review_fold actor (rows : list (string * AccessRequest.t)) acc s l s' :
  fold_m (review_request actor s.(St.clock)) acc rows s = (Ok l, s') →
  s' = s ∧ ∀ r, r ∈ l ↔ r ∈ acc ∨ ∃ k, (k, r) ∈ rows ∧ open_request r s ∧ may_decide actor r s.
Proof.
  revert acc. induction rows as [|[k r0] rows IH]; intros acc Hrun; simpl in Hrun.
  { apply ret_ok in Hrun as [-> ->]. split; [done|]. intros r. split; [by left|]. intros [?|(k & ? & _)]; [done|set_solver]. }
  apply bind_ok in Hrun as (acc1 & s1 & Hr & Hrun).
  assert (s1 = s ∧ ∀ r, r ∈ acc1 ↔ r ∈ acc ∨ r = r0 ∧ open_request r s ∧ may_decide actor r s) as [-> Hacc].
  { unfold review_request in Hr. cbn [snd] in Hr. cbv zeta in Hr.
    destruct (negb _ || _) eqn:Hskip.
    - apply ret_ok in Hr as [-> ->]. split; [done|]. intros r. split; [by left|]. intros [?|(-> & [Hp Hl] & _)]; [done|].
      rewrite Hp in Hskip. apply orb_true_iff in Hskip as [Hskip|Hskip%Z.leb_le]; [by vm_compute in Hskip|lia].
    - apply orb_false_iff in Hskip as [Hp%negb_false_iff%String.eqb_eq Hl%Z.leb_gt].
      apply bind_ok in Hr as (res & s2 & Hc & Hr). apply (proj1 (catch_ok _ _ _ _)) in Hc. pose proof (pure_run _ _ _ _ Hc) as ->.
      destruct res as [u|e].
      + apply ret_ok in Hr as [-> ->]. apply decision_authority_ok in Hc as [_ Hm]. split; [done|].
        intros r. rewrite elem_of_app, list_elem_of_singleton. split; [intros [?| ->]; [by left|by right]|].
        intros [?|(-> & _)]; [by left|by right].
      + destruct (Error.is_server_error e); [done|]. apply ret_ok in Hr as [-> ->]. split; [done|].
        intros r. split; [by left|]. intros [?|(-> & _ & Hm)]; [done|].
        pose proof (proj2 (decision_authority_ok actor r0 s tt s) (conj eq_refl Hm)) as Hok. congruence. }
  apply IH in Hrun as [-> Hl]. split; [done|]. intros r. rewrite Hl, Hacc. setoid_rewrite elem_of_cons. split.
  - intros [[?|(-> & ? & ?)]|(j & ? & ?)]; [by left|right; exists k; by split; [left|]|right; exists j; by split; [right|]].
  - intros [?|(j & [[= -> ->]|?] & ?)]; [by left; left|left; by right|right; by exists j].
Qed.

(** The audit of a decision cannot fail on a readable revision. *)
Lemma audit_total actor action target s (o : option Z) :
  Str.strip_prefix "agent:" actor = None → Str.starts_with action "agent." = false →
  s.(St.db) !! ("meta", "revision") = RU64 <$> o →
  ∃ s', audit actor action target s = (Ok (), s').
Proof.
  intros Ha Hact Hrev. unfold audit, audit_with_details.
  assert (Hg : get Z "meta" "revision" s = (Ok o, s)) by (by apply get_ok).
  destruct (existsb (Str.starts_with action) REVISIONED).
  - erewrite bind_step by (rewrite (bind_step _ _ _ _ _ Hg); reflexivity).
    unfold mbind at 1, tx_bind at 1, current. cbv zeta. unfold audit_attribution. rewrite Ha, Hact. by eexists.
  - erewrite bind_step by reflexivity.
    unfold mbind at 1, tx_bind at 1, current. cbv zeta. unfold audit_attribution. rewrite Ha, Hact. by eexists.
Qed.

Lemma require_revision_none s :
  s.(St.ctx) ≫= RequestContext.revision = None → require_revision s = (Ok (), s).
Proof. intros Hr. unfold require_revision. erewrite bind_step by reflexivity. by rewrite Hr. Qed.

(** Without a key and a revision, a denial succeeds exactly on a request the actor
    may decide. *)
Lemma denial_possible token rid actor session channel r (o : option Z) s :
  pam_actor token s = (Ok (actor, session, channel), s) →
  s.(St.ctx) ≫= RequestContext.idempotency_key = None → s.(St.ctx) ≫= RequestContext.revision = None →
  Str.strip_prefix "agent:" actor.(User.id) = None →
  s.(St.db) !! ("meta", "revision") = RU64 <$> o →
  s.(St.db) !! ("access_requests", rid) = Some (RAccessRequest r) →
  is_ok (decide_access token rid false s).1 = true ↔ open_request r s ∧ may_decide actor r s.
Proof.
  intros Ha Hkey Hrev Hagent Hmeta Hr. split.
  - destruct (decide_access token rid false s) as [[v|e] s'] eqn:Hrun; [intros _|done].
    apply decide_run in Hrun as (actor' & session' & channel' & r' & receipt & Ha' & Hr' & Hm & Hrc & Hrun).
    rewrite Ha in Ha'. injection Ha' as <- <- <-. rewrite Hr in Hr'. injection Hr' as <-. split; [|done].
    destruct Hrun as [(_ & rc & -> & _)|(Hp & Hl & _)]; [|done].
    rewrite Hkey in Hrc. destruct Hrc as [? ?]; [by eexists|done].
  - intros [[Hp Hl] Hm]. unfold decide_access. rewrite (bind_step _ _ _ _ _ Ha). cbv zeta. cbn [fst snd].
    tx_get. erewrite bind_step by reflexivity.
    assert (Hrc : ∀ i, access_receipt actor session channel token i s = (Ok None, s)).
    { intros i. unfold access_receipt, mbind at 1, tx_bind at 1, current.
      destruct s.(St.ctx) as [c|] eqn:Hctx; [|done]. simpl in Hkey. simpl. by rewrite Hkey. }
    rewrite (bind_step _ _ _ _ _ (Hrc _)). unfold settled. rewrite Hp, String.eqb_refl.
    assert (Hauth : require_decision_authority actor r s = (Ok (), s)) by (by apply decision_authority_ok).
    erewrite bind_step by reflexivity. cbv iota. erewrite bind_step by reflexivity.
    rewrite (bind_step _ _ _ _ _ Hauth).
    assert (Hadm : admit_decision r false s = (Ok (), s)).
    { unfold admit_decision. erewrite bind_step by reflexivity. rewrite (proj2 (Z.ltb_lt _ _) Hl).
      erewrite bind_step by reflexivity. by rewrite (bind_step _ _ _ _ _ (require_revision_none _ Hrev)). }
    rewrite (bind_step _ _ _ _ _ Hadm). unfold answer, record_decision.
    destruct (audit_total actor.(User.id) "access.deny" rid
      (St.set_db s (<[("access_requests", rid) := RAccessRequest (AccessRequest.decide r DENIED s.(St.clock)
         actor.(User.id) r.(AccessRequest.grant_id))]> s.(St.db))) o) as [s2 Hs2]; [done|by vm_compute| |].
    { cbn [St.db St.set_db]. by rewrite lookup_insert_ne by done. }
    erewrite bind_step; [reflexivity|]. erewrite bind_step by reflexivity. cbv iota zeta.
    erewrite bind_step by reflexivity. by rewrite (bind_step _ _ _ _ _ Hs2).
Qed.

#[local] Instance request_le_trans : Transitive request_le.
Proof.
  intros a b c [?|[? ?]] [?|[? ?]]; unfold request_le; [left; lia..|].
  right. split; [lia|]. by etransitivity.
Qed.
#[local] Instance request_le_total : Total request_le.
Proof.
  intros a b. unfold request_le.
  destruct (Z.lt_trichotomy a.(AccessRequest.created_at) b.(AccessRequest.created_at)) as [?|[Heq|?]].
  - left. by left.
  - destruct (total String.le a.(AccessRequest.id) b.(AccessRequest.id)); [left; by right|right; right; by rewrite Heq].
  - right. by left.
Qed.

(** The review page and the writer agree: a person who reviews temporary access
    is shown, oldest first, exactly the stored requests this person could decide
    in the same state.  The people are not agents, and the request carries
    neither a key nor a revision. *)
Theorem review_shows_decidable token s v s' actor session channel :
  review_access token s = (Ok v, s') → pam_actor token s = (Ok (actor, session, channel), s) →
  s.(St.ctx) ≫= RequestContext.idempotency_key = None → s.(St.ctx) ≫= RequestContext.revision = None →
  Str.strip_prefix "agent:" actor.(User.id) = None →
  (∀ k r, s.(St.db) !! ("access_requests", k) = Some (RAccessRequest r) → r.(AccessRequest.id) = k) →
  s' = s ∧ ∃ l, Json.index v "requests" = JArr (request_json <$> l) ∧ StronglySorted request_le l
    ∧ ∀ r, r ∈ l ↔ s.(St.db) !! ("access_requests", r.(AccessRequest.id)) = Some (RAccessRequest r)
                   ∧ is_ok (decide_access token r.(AccessRequest.id) false s).1 = true.
Proof.
  intros Hrun Ha Hkey Hrev Hagent Hkeyed. unfold review_access in Hrun. rewrite (bind_step _ _ _ _ _ Ha) in Hrun.
  cbv zeta in Hrun. cbn [fst snd] in Hrun. apply bind_ok in Hrun as ([] & s1 & [_ ->]%ensure_ok & Hrun).
  apply bind_ok in Hrun as (l & s1 & Hl & Hrun). unfold reviewed_requests in Hl.
  apply bind_ok in Hl as (at_ & s2 & [-> ->]%now_ok & Hl). apply bind_ok in Hl as (rows & s2 & Hrows & Hl).
  apply list_all_elem in Hrows as (-> & Hin & _). apply review_fold in Hl as [-> Hl].
  apply bind_ok in Hrun as (at_ & s1 & [-> ->]%now_ok & Hrun). apply bind_ok in Hrun as (grants & s1 & Hg & Hrun).
  pose proof (pure_run _ _ _ _ Hg) as ->. apply bind_ok in Hrun as (views & s1 & Hv & Hrun).
  assert (s1 = s) as ->.
  { revert Hv. apply pure_run. apply pure_fold_m. intros. unfold review_grant. solve_pure. }
  apply bind_ok in Hrun as (o & s1 & [-> Ho]%get_ok & [-> ->]%ret_ok). split; [done|].
  exists (merge_sort request_le l). split; [reflexivity|]. split.
  { apply (StronglySorted_merge_sort request_le). }
  intros r. rewrite (merge_sort_Permutation request_le), Hl. split.
  - intros [?|(k & Hk%Hin & Hopen)]; [set_solver|]. rewrite (Hkeyed _ _ Hk). split; [done|].
    by apply (denial_possible token k actor session channel r o s).
  - intros [Hr Hd]. right. exists r.(AccessRequest.id). split; [by apply Hin|].
    by apply (denial_possible token r.(AccessRequest.id) actor session channel r o s).
Qed.
End review.

(** ** An example *)

Module AccessDemo.
(** Amy asks for the group "vault"; Carol approves it. *)
Definition carol_session : Session.t :=
  Session.mk "sess-c" "#sc" (Identity.mk ["pwd"; "otp"] None "u-carol" 1 true 900 "sess-c") 5000 false.
Definition db : gmap (string * string) row :=
  <[("session_tokens", "#amy") := RString "sess-1"]>
    (<[("session_tokens", "#carol") := RString "sess-c"]>
      (<[("sessions", "sess-c") := RSession carol_session]>
        (<[("users", "u-carol") := RUser (DelegationDemo.user "u-carol" "carol")]>
          (<[("groups", "vault") := RGroup (Group.mk "vault" ∅)]> FlowDemo.db)))).
Definition start : St.t := St.mk db 1000 0 None.
Definition input : NewAccessRequest.t := NewAccessRequest.mk "vault" "Rotate the backup keys" 3600.
Definition requested : Result json * St.t := @request_access Demo.env "amy" input start.
Definition approved : Result json * St.t := @decide_access Demo.env "carol" "id-0" true requested.2.
Definition gid : string := "id-2".
Definition revoked : Result json * St.t := @revoke_access Demo.env "carol" gid approved.2.
Definition review : Result json * St.t := @review_access Demo.env "carol" requested.2.
Definition value (r : Result json) : json := match r with Ok v => v | Err _ => JNull end.
Definition request : AccessRequest.t :=
  AccessRequest.mk "id-0" "u-amy" "amy" "vault" "Rotate the backup keys" 3600 PENDING 1000 None None None.
Definition groups_at (t : Z) (s : St.t) : Result (gset string) := (@extra_groups Demo.env "u-amy" t s).1.
End AccessDemo.

(** The group counts from the approval to the end of the window, or to its
    revocation; Amy may not approve her own request, and a reason must not carry a
    token. *)
Example access_run :
  AccessDemo.groups_at 1000 AccessDemo.requested.2 = Ok ∅
  ∧ AccessDemo.groups_at 1000 AccessDemo.approved.2 = Ok {["vault"]}
  ∧ AccessDemo.groups_at 4600 AccessDemo.approved.2 = Ok ∅
  ∧ AccessDemo.groups_at 1000 AccessDemo.revoked.2 = Ok ∅
  ∧ (@decide_access Demo.env "amy" "id-0" true AccessDemo.requested.2).1 = Err Error.forbidden.
Proof. split_and!; by_vm. Qed.
Example reasons_run :
  is_ok (validate_reason "Rotate the backup keys") = true
  ∧ is_ok (validate_reason "use ri_session_abc") = false ∧ is_ok (validate_reason "") = false.
Proof. split_and!; by_vm. Qed.

Lemma access_decision_sound_witness :
  ∃ actor r, AccessDemo.requested.2.(St.db) !! ("access_requests", "id-0") = Some (RAccessRequest r)
    ∧ @may_decide Demo.env actor r AccessDemo.requested.2.
Proof.
  destruct (@access_decision_sound Demo.env "carol" "id-0" true AccessDemo.requested.2
    (AccessDemo.value AccessDemo.approved.1) AccessDemo.approved.2) as (actor & session & channel & r & _ & _ & Hr & Hm & _).
  - ran AccessDemo.value AccessDemo.approved.
  - exists actor, r. exact (conj Hr Hm).
Defined.

Lemma approval_confers_witness :
  AccessDemo.approved.2 = AccessDemo.requested.2
  ∨ ∃ G', @extra_groups Demo.env "u-amy" 1000 AccessDemo.approved.2 = (Ok G', AccessDemo.approved.2)
      ∧ ∀ x, x ∈ G' ↔ x ∈ (∅ : gset string) ∨ "u-amy" = "u-amy" ∧ x = "vault" ∧ 1000 ≤ 1000 < 4600.
Proof.
  apply (@approval_confers Demo.env "carol" "id-0" AccessDemo.request AccessDemo.requested.2
    (AccessDemo.value AccessDemo.approved.1) AccessDemo.approved.2 "u-amy" 1000 ∅).
  - ran AccessDemo.value AccessDemo.approved.
  - by_vm.
  - split; by_vm.
  - refine (ran_pure _ _ _ _). by_vm.
Defined.

Lemma revocation_withdraws_witness :
  ∃ G', @extra_groups Demo.env "u-amy" 1000 AccessDemo.revoked.2 = (Ok G', AccessDemo.revoked.2).
Proof.
  destruct (@revocation_withdraws Demo.env "carol" AccessDemo.gid AccessDemo.approved.2
    (AccessDemo.value AccessDemo.revoked.1) AccessDemo.revoked.2 "u-amy" 1000 {["vault"]}) as [Heq|(_ & G' & HG' & _)].
  - ran AccessDemo.value AccessDemo.revoked.
  - intros g Hg _. assert (Hg' : AccessDemo.approved.2.(St.db) !! ("access_grants", AccessDemo.gid)
      = Some (RAccessGrant (AccessGrant.mk AccessDemo.gid "u-amy" "vault" 1000 4600 "id-0" None None)))
      by (by_vm).
    assert (He : g = AccessGrant.mk AccessDemo.gid "u-amy" "vault" 1000 4600 "id-0" None None) by congruence.
    rewrite He. by_vm.
  - refine (ran_pure _ _ _ _). by_vm.
  - exfalso. apply (f_equal (λ s, s.(St.rng))) in Heq. vm_compute in Heq. discriminate.
  - exists G'. exact HG'.
Defined.

Ltac no_rows :=
  intros k; apply eq_None_not_Some; intros [w Hw]; unfold AccessDemo.start, AccessDemo.db, FlowDemo.db in Hw;
  cbn [St.db] in Hw;
  repeat (apply lookup_insert_Some in Hw as [[? ?]|[_ Hw]]; [discriminate|]);
  apply lookup_singleton_Some in Hw as [? ?]; discriminate.
Lemma demo_users k u : AccessDemo.start.(St.db) !! ("users", k) = Some (RUser u) → u.(User.id) = k.
Proof.
  intros Hw. unfold AccessDemo.start, AccessDemo.db, FlowDemo.db in Hw. cbn [St.db] in Hw.
    repeat first
      [ apply lookup_insert_Some in Hw as [[[= <-] [= <-]]|[_ Hw]]; [reflexivity|]
      | apply lookup_insert_Some in Hw as [[? ?]|[_ Hw]]; [discriminate|] ].
    apply lookup_singleton_Some in Hw as [? ?]. discriminate.
Qed.
Lemma demo_request_step : @access_step Demo.env AccessDemo.start AccessDemo.requested.2.
Proof.
  apply (@step_request Demo.env "amy" AccessDemo.input _ (AccessDemo.value AccessDemo.requested.1)).
  - by_vm.
  - ran AccessDemo.value AccessDemo.requested.
Qed.
Lemma demo_requested : @accountable Demo.env AccessDemo.requested.2.
Proof.
  apply (@accountable_step Demo.env AccessDemo.start _ demo_request_step). split.
  - exact demo_users.
  - intros k r Hr. exfalso. revert Hr. assert (H : AccessDemo.start.(St.db) !! ("access_requests", k) = None)
      by (revert k; no_rows). by rewrite H.
  - intros k r Hr. exfalso. revert Hr. assert (H : AccessDemo.start.(St.db) !! ("access_grants", k) = None)
      by (revert k; no_rows). by rewrite H.
Qed.
Lemma temporary_group_accountable_witness :
  ∃ k g, AccessDemo.approved.2.(St.db) !! ("access_grants", k) = Some (RAccessGrant g)
    ∧ g.(AccessGrant.user_id) = "u-amy" ∧ g.(AccessGrant.group) = "vault".
Proof.
  destruct (@temporary_group_accountable Demo.env AccessDemo.start AccessDemo.approved.2
    "u-amy" {["vault"]} "vault" AccessDemo.approved.2) as (k & g & r & a & Hk & Hu & Hg & _).
  - no_rows.
  - no_rows.
  - exact demo_users.
  - apply (rtc_l _ _ AccessDemo.requested.2).
    { exact demo_request_step. }
    apply (rtc_l _ _ AccessDemo.approved.2); [|apply rtc_refl].
    apply (@step_decide Demo.env "carol" "id-0" true _ (AccessDemo.value AccessDemo.approved.1)).
    ran AccessDemo.value AccessDemo.approved.
  - refine (ran_pure _ _ _ _). by_vm.
  - apply elem_of_singleton. reflexivity.
  - exists k, g. exact (conj Hk (conj Hu Hg)).
Defined.

Lemma review_shows_decidable_witness :
  ∃ l, Json.index (AccessDemo.value AccessDemo.review.1) "requests" = JArr (request_json <$> l)
    ∧ (AccessDemo.request ∈ l).
Proof.
  destruct (@review_shows_decidable Demo.env "carol" AccessDemo.requested.2
    (AccessDemo.value AccessDemo.review.1) AccessDemo.review.2 (DelegationDemo.user "u-carol" "carol")
    AccessDemo.carol_session "bearer") as (_ & l & Hv & _ & Hl).
  - ran AccessDemo.value AccessDemo.review.
  - refine (ran_pure _ _ _ _). by_vm.
  - reflexivity.
  - reflexivity.
  - reflexivity.
  - intros k r Hr. apply (acc_requests _ demo_requested k r Hr).
  - exists l. split; [exact Hv|]. apply Hl. split; by_vm.
Defined.
