(* ===== verification/Exposure.v ===== *)
(** * Credential exposure (src/src/delegation.rs)

    An operator who changes another account's credentials may know them.  The
    first such change is recorded together with the address that was verified
    before it; only a recovery through that address clears the record.  The stamp
    ties the address to this very account. *)

From S2P Require Import Prelude Json Model Store Env Provider Jose Delegation Agents Identities Management.

#[local] Set Warnings "-clear-no-such-hyp".

Section exposure.
Context {E : Env}.

Definition original_address_stamp (user : User.t) (email : string) : string :=
  digest (user.(User.id) +:+ NUL +:+ decimal user.(User.created_at) +:+ NUL
          +:+ user.(User.pairwise_seed) +:+ NUL +:+ email).
(** [CredentialExposure::stamped_email], [allows_recovery], [recovery_email]. *)
Definition stamped_email (e : CredentialExposure.t) (user : User.t) : option string :=
  match e.(CredentialExposure.verified_email) with
  | Some email =>
      if bool_decide (e.(CredentialExposure.original_address_stamp) = Some (original_address_stamp user email))
      then Some email else None
  | None => None
  end.
Definition current_verified (user : User.t) (email : string) : bool :=
  user.(User.email_verified) && bool_decide (user.(User.email) = Some email).
Definition allows_recovery (e : CredentialExposure.t) (user : User.t) (email : string) : bool :=
  bool_decide (e.(CredentialExposure.verified_email) = Some email)
  && (current_verified user email || bool_decide (stamped_email e user = Some email)).
Definition recovery_email (e : CredentialExposure.t) (user : User.t) : option string :=
  match stamped_email e user with
  | Some email => Some email
  | None =>
      match e.(CredentialExposure.verified_email) with
      | Some email => if current_verified user email then Some email else None
      | None => None
      end
  end.

(** [audit_for]: the grant of the actor that covers the scope, as detail. *)
Definition audit_for (actor : Principal.t) (action target scope : string) : tx unit :=
  let grant := List.find (λ g, String.eqb g.(HumanGrant.scope) scope) actor.(Principal.grants) in
  audit_with_details actor.(Principal.id) action target [("delegation", Json.of_option human_grant_json grant)].

(** [mark_credential_exposure]. *)
Definition new_exposure (actor_id : string) (user : User.t) (at_ : Z) : CredentialExposure.t :=
  let verified := if user.(User.email_verified) then user.(User.email) else None in
  CredentialExposure.mk verified actor_id at_ (original_address_stamp user <$> verified).
Definition mark_credential_exposure (actor : Principal.t) (user : User.t) : tx unit :=
  if String.eqb actor.(Principal.id) user.(User.id) then mret ()
  else
    protected ← (if user.(User.admin) then mret true
                 else
                   held ← Human.stored user.(User.id);
                   if negb (length held =? 0)%nat then mret true
                   else has_protected_or_temporary_access user.(User.id));
    _ ← ensure (negb protected) Error.forbidden;
    exposure ← credential_exposure user.(User.id);
    _ ← match exposure with
        | None => at_ ← now; put CREDENTIAL_EXPOSURE user.(User.id) (new_exposure actor.(Principal.id) user at_)
        | Some _ => mret ()
        end;
    let scope := "user/" +:+ user.(User.username) in
    if actor.(Principal.agent)
    then audit_with_details actor.(Principal.id) "agent.credential_exposure" user.(User.id) [("scope", JStr scope)]
    else audit_for actor "delegation.support_exposure" user.(User.id) scope.

#[global] Instance touches_mark_exposure actor user :
  Touches [CREDENTIAL_EXPOSURE; "meta"; "audit"] (mark_credential_exposure actor user).
Proof. unfold mark_credential_exposure, audit_for. cbv zeta. solve_touches. Qed.
(** Recovery is possible exactly through the address an exposure offers. *)
Lemma allows_recovery_iff e user email :
  allows_recovery e user email = true ↔ recovery_email e user = Some email.
Proof.
  unfold allows_recovery, recovery_email, stamped_email.
  destruct (CredentialExposure.verified_email e) as [x|]; [|done].
  rewrite andb_true_iff, orb_true_iff, !bool_decide_eq_true.
  case_bool_decide as Hs; [|destruct (current_verified user x) eqn:Hc]; split; try naive_solver congruence.
Qed.
End exposure.
