(* ===== verification/RadiusServer.v ===== *)
(** * The RADIUS server (src/src/assembly/radius.rs, src/src/radius.rs)

    What the server stores for the packets of [Radius] and the conversations of
    [Eap].  A request is claimed before it is worked on, so that a duplicate is
    answered from the cache and never authenticates again; the answer is
    committed once, after the identity was checked against the client's policy;
    a cached Accept that no longer holds turns into a Reject and ends its session.
    A client certificate is bound to one account by an operator who may write that
    account's certificates and enroll on the listener; a conversation that proves
    the certificate gets a session of at most three minutes that no token opens.

    The file gives the server's instance of [EapPort]. *)

From S2P Require Import Prelude Json Model Store Env Provider Jose Delegation Agents Assurance Claims Identities Device Maintenance Signals SamlLogout Management Sessions Signin Radius Eap Exposure.

#[local] Set Warnings "-clear-no-such-hyp".

(** [radius::RadiusClaim]. *)
Inductive RadiusClaim := CachedClaim (response : option (list Z)) | NewClaim.

(** [str::rsplit_once]. *)
Fixpoint rsplit_once (c : Ascii.ascii) (s : string) : option (string * string) :=
  match s with
  | EmptyString => None
  | String b r =>
      match rsplit_once c r with
      | Some (l, t) => Some (String b l, t)
      | None => if bool_decide (b = c) then Some (EmptyString, r) else None
      end
  end.

(** [Authorization::default()]. *)
Definition default_authorization : Authorization.t :=
  Authorization.mk None None None None None None "" "" "" "" None None "" "" None None None None None None.

Section server.
Context {E : Env} {L : ApplyLease} {S_ : SamlPeers}.

(** [close], with the events this transaction announced before and after. *)
Definition close_identity (seen : events) (i : option Identity.t) : tx events :=
  match i with
  | Some i =>
      s ← get Session.t "sessions" i.(Identity.session_id);
      match s with
      | Some s =>
          _ ← put "sessions" s.(Session.id) (revoked s);
          enqueue seen s.(Session.identity).(Identity.user_id) SESSION_REVOKED ""
      | None => mret seen
      end
  | None => mret seen
  end.

(** [radius_client_profile]. *)
Definition radius_client_profile (id : string) : tx (Client.t * RadiusSettings.t) :=
  client ← get Client.t "clients" id;
  client ← some_or (match client with
                    | Some c => if c.(Client.enabled) then Some c else None
                    | None => None
                    end) Error.forbidden;
  settings ← some_or client.(Client.settings).(ProviderSettings.radius) Error.forbidden;
  _ ← lift (settings_validate settings client);
  mret (client, settings).

(** [radius_identity]. *)
Definition radius_identity (client : Client.t) (i : Identity.t) : tx User.t :=
  user ← authorize_identity client i;
  s ← get Session.t "sessions" i.(Identity.session_id);
  at_ ← now;
  _ ← ensure (negb (match s with Some s => s.(Session.expires_at) <=? at_ | None => true end
                    || Assurance.needs_step_up client default_authorization i)) Error.forbidden;
  _ ← Claims.enforce client user i {["radius"]};
  mret user.

Definition radius_eap_client (id : string) : tx (option Client.t) :=
  cs ← radius_client_profile id;
  mret (if cs.2.(RadiusSettings.eap_tls) then Some cs.1 else None).
Definition radius_user_requires_mfa (username : string) : tx bool :=
  u ← catch (Human.user_by_name username);
  match u with
  | Ok u => mret (bool_decide (is_Some u.(User.totp_secret)))
  | Err e => if Error.status e =? 404 then mret false else fail e
  end.

(** ** Claiming a request *)

Definition REQUESTS : string := "radius_requests".
Definition attributes_digest (attrs : WireAttributes) : string := digest (radius_attributes_string attrs).
Definition has_eap (p : Packet.t) : bool := bool_decide (is_Some (packet_attr p 79)).
Definition with_user_name (p : Packet.t) (user : User.t) (attrs : WireAttributes) : WireAttributes :=
  if has_eap p then attrs ++ [(1, string_bytes user.(User.username))] else attrs.

(** A cached answer that would not be given again. *)
Definition stale (client_id : string) (cs : Client.t * RadiusSettings.t) (packet : Packet.t)
    (cached : RadiusCached.t) : tx bool :=
  if negb (String.eqb cached.(RadiusCached.client_id) client_id)
     || negb (String.eqb cached.(RadiusCached.client_fingerprint) (fingerprint cs.1))
  then mret true
  else
    match cached.(RadiusCached.identity) with
    | None => mret false
    | Some i =>
        user ← catch (radius_identity cs.1 i);
        match user with
        | Ok user =>
            attrs ← lift (reply_attributes user cs.2.(RadiusSettings.reply));
            mret (negb (bool_decide (cached.(RadiusCached.attributes_fingerprint)
                                     = Some (attributes_digest (with_user_name packet user attrs)))))
        | Err e => if Error.is_server_error e then fail e else mret true
        end
    end.

Definition reject_cached (cached : RadiusCached.t) (response : list Z) : RadiusCached.t :=
  RadiusCached.mk cached.(RadiusCached.expires_at) cached.(RadiusCached.client_id)
    cached.(RadiusCached.client_fingerprint) cached.(RadiusCached.attributes_fingerprint) (Some response) None.
Definition answer_duplicate (client_id key : string) (cs : Client.t * RadiusSettings.t) (packet : Packet.t)
    (secret : list Z) (cached : RadiusCached.t) : tx RadiusClaim :=
  gone ← stale client_id cs packet cached;
  if (gone : bool) then
    _ ← close_identity ∅ cached.(RadiusCached.identity);
    response ← lift (packet_response packet 3 secret (failure packet));
    _ ← put REQUESTS key (reject_cached cached response);
    mret (CachedClaim (Some response))
  else mret (CachedClaim cached.(RadiusCached.response)).
Definition MAX_REQUESTS : Z := 10000.
Definition admit_request (client_id key : string) (client : Client.t) : tx RadiusClaim :=
  rows ← list_all RadiusCached.t REQUESTS;
  _ ← ensure (Z.of_nat (length rows) <? MAX_REQUESTS) (Error.conflict "RADIUS duplicate cache is full");
  at_ ← now;
  _ ← put REQUESTS key (RadiusCached.mk (wadd at_ 90) client_id (fingerprint client) None None None);
  mret NewClaim.
Definition radius_claim (client_id key : string) (packet : Packet.t) (secret : list Z) : tx RadiusClaim :=
  cs ← radius_client_profile client_id;
  cached ← get RadiusCached.t REQUESTS key;
  at_ ← now;
  match cached with
  | Some cached =>
      if at_ <? cached.(RadiusCached.expires_at) then answer_duplicate client_id key cs packet secret cached
      else _ ← close_identity ∅ cached.(RadiusCached.identity); admit_request client_id key cs.1
  | None => admit_request client_id key cs.1
  end.

(** ** Answering it *)

(** The claim a commit answers: live, and not answered. *)
Definition open_claim (key : string) : tx RadiusCached.t :=
  cached ← get RadiusCached.t REQUESTS key;
  at_ ← now;
  some_or (match cached with
           | Some c => if (at_ <? c.(RadiusCached.expires_at)) && bool_decide (c.(RadiusCached.response) = None)
                       then Some c else None
           | None => None
           end) (Error.conflict "RADIUS request expired").
Definition answered (cached : RadiusCached.t) (accepted : option (Identity.t * string)) (response : list Z) :
    RadiusCached.t :=
  RadiusCached.mk cached.(RadiusCached.expires_at) cached.(RadiusCached.client_id)
    cached.(RadiusCached.client_fingerprint)
    (match accepted with Some a => Some a.2 | None => cached.(RadiusCached.attributes_fingerprint) end)
    (Some response)
    (match accepted with Some a => Some a.1 | None => cached.(RadiusCached.identity) end).
Definition radius_audit (row : RadiusCached.t) (code : Z) (listener nas_id : string) : tx unit :=
  audit (match row.(RadiusCached.identity) with Some i => i.(Identity.user_id) | None => "anonymous" end)
    (if code =? 2 then "radius.accept" else "radius.reject") (listener +:+ "/" +:+ nas_id).
(** The answer is built, kept for duplicates, and audited unless it is a challenge. *)
Definition commit_answer (listener nas_id key : string) (packet : Packet.t) (secret : list Z)
    (cached : RadiusCached.t) (code : Z) (accepted : option (Identity.t * string)) (attrs : WireAttributes) :
    tx (option (list Z) * bool) :=
  response ← lift (packet_response packet code secret attrs);
  let row := answered cached accepted response in
  _ ← put REQUESTS key row;
  _ ← (if code =? 11 then mret () else radius_audit row code listener nas_id);
  mret (Some response, code =? 2).

(** The closure [allowed] of [radius_pap_commit]. *)
Definition pap_allowed (client_id : string) (cached : RadiusCached.t) (token : option string) :
    tx (Identity.t * WireAttributes) :=
  cs ← radius_client_profile client_id;
  _ ← ensure (String.eqb (fingerprint cs.1) cached.(RadiusCached.client_fingerprint)) Error.forbidden;
  token ← some_or token Error.unauthorized;
  us ← session token;
  user ← radius_identity cs.1 us.2.(Session.identity);
  attrs ← lift (reply_attributes user cs.2.(RadiusSettings.reply));
  mret (us.2.(Session.identity), attrs).
Definition radius_pap_commit (listener nas_id client_id key : string) (packet : Packet.t) (secret : list Z)
    (token : option string) : tx (option (list Z) * bool) :=
  cached ← open_claim key;
  allowed ← catch (pap_allowed client_id cached token);
  match allowed with
  | Ok (i, attrs) => commit_answer listener nas_id key packet secret cached 2 (Some (i, attributes_digest attrs)) attrs
  | Err e => if Error.is_server_error e then fail e
             else commit_answer listener nas_id key packet secret cached 3 None []
  end.

Definition radius_eap_commit (listener nas_id client_id key : string) (packet : Packet.t) (secret : list Z)
    (outcome : Outcome) : tx (option (list Z) * bool) :=
  cached ← open_claim key;
  cs ← radius_client_profile client_id;
  let commit := commit_answer listener nas_id key packet secret cached in
  if negb (cs.2.(RadiusSettings.eap_tls)
           && String.eqb (fingerprint cs.1) cached.(RadiusCached.client_fingerprint))
  then commit 3 None (failure packet)
  else
    match outcome with
    | Challenge attrs => commit 11 None attrs
    | Reject attrs => commit 3 None attrs
    | Accept i protocol =>
        user ← catch (radius_identity cs.1 i);
        match user with
        | Ok user =>
            attrs ← lift (reply_attributes user cs.2.(RadiusSettings.reply));
            let attrs := attrs ++ [(1, string_bytes user.(User.username))] in
            commit 2 (Some (i, attributes_digest attrs)) (attrs ++ protocol)
        | Err e => if Error.is_server_error e then fail e else commit 3 None (failure packet)
        end
    end.
End server.

(** ** Client certificates *)

Definition CERTIFICATES : string := "radius_certificates".
Definition CERTIFICATE_IDS : string := "radius_certificate_ids".
Definition EAP_IDENTITIES : string := "radius_eap_identities".
Definition MAX_CERTIFICATES : nat := 32.

Definition certificate_json (c : EapCertificate.t) : json :=
  Json.obj [("id", JStr c.(EapCertificate.id)); ("username", JStr c.(EapCertificate.username));
            ("user_id", JStr c.(EapCertificate.user_id)); ("listener", JStr c.(EapCertificate.listener));
            ("fingerprint", JStr c.(EapCertificate.fingerprint)); ("expires_at", JNum c.(EapCertificate.expires_at))].

(** [eap::CertificateInput] and [eap::PreparedCertificate]. *)
Module CertificateInput.
Record t := mk { username : string; listener : string; certificate_chain_pem : string }.
End CertificateInput.
Module PreparedCertificate.
Record t := mk { key : string; fingerprint : string; expires_at : Z }.
End PreparedCertificate.

Section certificates.
Context {E : Env} {L : ApplyLease} {S_ : SamlPeers}.

Definition certificate_fingerprint (der : list Z) : string := digest (bytes_string der).
Definition certificate_key (listener fingerprint : string) : string := digest (listener +:+ NUL +:+ fingerprint).
Definition radius_eap_profile (listener : string) : Result EapProfile.t :=
  ok_or (config.(Config.eap_profiles) !! listener) (Error.bad "RADIUS listener has no EAP-TLS trust profile").

(** [require_radius_certificate_retry_binding]. *)
Definition require_retry_binding : tx unit :=
  context ← current;
  match context with
  | Some c =>
      ensure (negb (bool_decide (c.(RequestContext.idempotency_key) = None)
                    || bool_decide (c.(RequestContext.revision) = None)))
        (Error.new 428 "precondition_required" "RADIUS certificate writes require Idempotency-Key and If-Match")
  | None => mret ()
  end.

(** Who may write a certificate of an account on a listener. *)
Definition certificate_writer (token username listener : string) (user : tx User.t) : tx (Principal.t * User.t) :=
  actor ← management token "certificate.write" ("user/" +:+ username);
  _ ← lift (Principal.require actor "radius.enroll" ("radius/" +:+ listener));
  user ← user;
  _ ← ensure (negb (actor.(Principal.agent) && user.(User.admin))) Error.forbidden;
  mret (actor, user).
Definition radius_eap_authorize_bind (token username listener : string) : tx unit :=
  _ ← certificate_writer token username listener (Human.user_by_name username);
  mret ().

Definition bind_certificate (token : string) (input : CertificateInput.t) (prepared : PreparedCertificate.t) : tx json :=
  au ← certificate_writer token input.(CertificateInput.username) input.(CertificateInput.listener)
         (Human.user_by_name input.(CertificateInput.username));
  let actor := au.1 in
  let user := au.2 in
  let key := prepared.(PreparedCertificate.key) in
  existing ← get EapCertificate.t CERTIFICATES key;
  match existing with
  | Some c =>
      _ ← ensure (String.eqb c.(EapCertificate.user_id) user.(User.id))
            (Error.conflict "Certificate is already bound to another identity");
      mret (certificate_json c)
  | None =>
      rows ← list_all EapCertificate.t CERTIFICATES;
      _ ← ensure (length (List.filter (λ kc, String.eqb kc.2.(EapCertificate.user_id) user.(User.id)) rows)
                  <? MAX_CERTIFICATES)%nat (Error.conflict "User has too many EAP certificates");
      _ ← (if actor.(Principal.agent) then mark_credential_exposure actor user else mret ());
      cid ← id;
      let certificate := EapCertificate.mk cid user.(User.username) user.(User.id)
        input.(CertificateInput.listener) prepared.(PreparedCertificate.fingerprint)
        prepared.(PreparedCertificate.expires_at) in
      _ ← put CERTIFICATE_IDS cid key;
      _ ← put CERTIFICATES key certificate;
      _ ← audit actor.(Principal.id) "certificate.bind" cid;
      mret (certificate_json certificate)
  end.
(** [radius_eap_bind_commit]. *)
Definition radius_eap_bind_commit (token : string) (input : CertificateInput.t) (prepared : PreparedCertificate.t) :
    tx json :=
  mutation token (bind_certificate token input prepared).

(** [radius_certificates]: what the reader may see, under current names. *)
Definition visible_certificate (actor : Principal.t) (acc : list EapCertificate.t)
    (row : string * EapCertificate.t) : tx (list EapCertificate.t) :=
  let c := row.2 in
  user ← get User.t "users" c.(EapCertificate.user_id);
  mret match user with
       | Some user =>
           if Principal.allows actor "certificate.read" ("user/" +:+ user.(User.username))
              && Principal.allows actor "radius.enroll" ("radius/" +:+ c.(EapCertificate.listener))
           then acc ++ [EapCertificate.mk c.(EapCertificate.id) user.(User.username) c.(EapCertificate.user_id)
                          c.(EapCertificate.listener) c.(EapCertificate.fingerprint) c.(EapCertificate.expires_at)]
           else acc
       | None => acc
       end.
Definition radius_certificates (token : string) : tx json :=
  actor ← principal token;
  rows ← list_all EapCertificate.t CERTIFICATES;
  visible ← fold_m (visible_certificate actor) [] rows;
  mret (JArr (certificate_json <$> visible)).

Definition revoke_certificate (token cid : string) : tx json :=
  key ← get string CERTIFICATE_IDS cid;
  key ← some_or key (Error.missing "Certificate not found");
  certificate ← get EapCertificate.t CERTIFICATES key;
  certificate ← some_or certificate (Error.missing "Certificate not found");
  user ← get User.t "users" certificate.(EapCertificate.user_id);
  user ← some_or user Error.forbidden;
  au ← certificate_writer token user.(User.username) certificate.(EapCertificate.listener) (mret user);
  _ ← remove CERTIFICATES key;
  _ ← remove CERTIFICATE_IDS cid;
  _ ← audit au.1.(Principal.id) "certificate.revoke" cid;
  mret (Json.obj [("revoked", JBool true); ("id", JStr cid)]).
Definition radius_certificate_revoke (token cid : string) : St.t → Result json * St.t := λ s,
  match require_retry_binding s with
  | (Err e, s) => (Err e, s)
  | (Ok _, s) => write (mutation token (revoke_certificate token cid)) s
  end.

(** [radius_eap_create_identity]. *)
Definition certificate_identity (user : User.t) (sid : string) (at_ : Z) : Identity.t :=
  Identity.mk ["x509"] None user.(User.id) user.(User.epoch) false at_ sid.
Definition radius_eap_create_identity (client : Client.t) (listener profile_fp key : string) : tx Identity.t :=
  cs ← radius_client_profile client.(Client.id);
  _ ← ensure (negb (negb cs.2.(RadiusSettings.eap_tls)
                    || negb (String.eqb (fingerprint cs.1) (fingerprint client)))) Error.forbidden;
  cert ← get EapCertificate.t CERTIFICATES key;
  at_ ← now;
  cert ← some_or (match cert with
                  | Some c => if at_ <? c.(EapCertificate.expires_at) then Some c else None
                  | None => None
                  end) Error.forbidden;
  user ← get User.t "users" cert.(EapCertificate.user_id);
  user ← some_or (match user with
                  | Some u => if u.(User.enabled) then Some u else None
                  | None => None
                  end) Error.forbidden;
  sid ← id;
  let identity := certificate_identity user sid at_ in
  let expiry := Z.min (wadd at_ 180) cert.(EapCertificate.expires_at) in
  token ← random_token "";
  _ ← put "sessions" sid (Session.mk sid (digest token) identity expiry false);
  _ ← put EAP_IDENTITIES sid (EapIdentityBinding.mk key cert.(EapCertificate.id) listener profile_fp expiry);
  _ ← radius_identity cs.1 identity;
  mret identity.

(** Clean-up. *)
Definition drop_requests (at_ : Z) (seen : events) (row : string * RadiusCached.t) : tx events :=
  if row.2.(RadiusCached.expires_at) <? at_ then
    seen ← close_identity seen row.2.(RadiusCached.identity);
    _ ← remove REQUESTS row.1;
    mret seen
  else mret seen.
Definition radius_cleanup_cache (at_ : Z) : tx unit :=
  page ← maintenance_page RadiusCached.t REQUESTS;
  _ ← fold_m (drop_requests at_) ∅ page;
  mret ().
Definition radius_eap_cleanup (at_ : Z) : tx unit :=
  sweep EapIdentityBinding.t EAP_IDENTITIES (λ b, b.(EapIdentityBinding.expires_at) <=? at_)
    (λ k _, remove EAP_IDENTITIES k).
Definition radius_cleanup (at_ : Z) : tx unit :=
  _ ← radius_eap_cleanup at_; radius_cleanup_cache at_.

(** The server behind the EAP engine: [impl eap::EapPort for Core]. *)
#[local] Instance core_port : EapPort := {|
  eap_profile := radius_eap_profile;
  eap_create_identity client listener profile_fp der :=
    write (radius_eap_create_identity client listener profile_fp
             (certificate_key listener (certificate_fingerprint der)));
  eap_close i := write (_ ← close_identity ∅ i; mret ());
|}.
End certificates.

(** ** A packet (radius.rs) *)

Section packets.
Context {E : Env} {L : ApplyLease} {S_ : SamlPeers} {T : Type} {TLS : Tls T}.
#[local] Abbreviation eng := (sm (gmap string (Conversation.t T))).
#[local] Existing Instance core_port.

(** The name and the password of a PAP request, and the login they try. *)
Definition split_otp (mfa : bool) (password : string) : string * option string :=
  if mfa then
    match rsplit_once ";" password with
    | Some (p, o) => (p, Some o)
    | None => (password, None)
    end
  else (password, None).
Definition pap_credentials (packet : Packet.t) (secret : list Z) : Result (string * string) :=
  let present code := bool_decide (is_Some (packet_attr packet code)) in
  if present 3 || present 24 || present 79 then Err (Error.bad "This RADIUS profile requires PAP")
  else
    name ← ok_or (packet_attr packet 1) (Error.bad "Missing RADIUS username");
    if utf8_valid name then
      _ ← validate_name (bytes_string name);
      password ← packet_password packet secret;
      Ok (bytes_string name, bytes_string password)
    else Err (Error.bad "Invalid RADIUS username").
Definition pap_login (packet : Packet.t) (secret : list Z) : tx string :=
  np ← lift (pap_credentials packet secret);
  mfa ← read (radius_user_requires_mfa np.1);
  let po := split_otp mfa np.2 in
  result ← login np.1 po.1 po.2;
  some_or (Json.as_str (Json.index result "session_token")) Error.unauthorized.
Definition silent (e : Error.t) : bool := (500 <=? Error.status e) || (Error.status e =? 429).
(** The result of a commit; a session opened for a request that was not accepted
    is ended. *)
Definition radius_logout (token : string) : tx json :=
  write (o ← revoke_sessions (LogoutIntent token); mret o.(RevokeOutcome.body)).
Definition finish_pap (result : Result (option (list Z) * bool)) (token : option string) : tx (option (list Z)) :=
  let accepted := match result with Ok (_, ok) => ok | Err _ => false end in
  _ ← match token with
      | Some token => if accepted then mret () else _ ← catch (radius_logout token); mret ()
      | None => mret ()
      end;
  lift (match result with Ok (v, _) => Ok v | Err e => Err e end).
Definition radius_pap (listener nas_id : string) (nas : Nas.t) (key : string) (packet : Packet.t)
    (secret : list Z) : tx (option (list Z)) :=
  authenticated ← catch (pap_login packet secret);
  match authenticated with
  | Err e =>
      if silent e then mret None
      else
        result ← catch (write (radius_pap_commit listener nas_id nas.(Nas.client_id) key packet secret None));
        finish_pap result None
  | Ok token =>
      result ← catch (write (radius_pap_commit listener nas_id nas.(Nas.client_id) key packet secret (Some token)));
      finish_pap result (Some token)
  end.

(** [radius_eap_finish]. *)
Definition radius_eap_finish (listener nas_id : string) (nas : Nas.t) (key : string) (packet : Packet.t)
    (secret : list Z) (outcome : Outcome) : tx (option (list Z)) :=
  result ← catch (write (radius_eap_commit listener nas_id nas.(Nas.client_id) key packet secret outcome));
  let accepted := match result with Ok (_, ok) => ok | Err _ => false end in
  _ ← match outcome with
      | Accept i _ => if accepted then mret () else _ ← catch (eap_close (Some i)); mret ()
      | _ => mret ()
      end;
  lift (match result with Ok (v, _) => Ok v | Err e => Err e end).

(** The key of a request: where it came from and every byte of it. *)
Definition request_key (listener nas_id secret : string) (bytes : list Z) : string :=
  digest (listener +:+ NUL +:+ nas_id +:+ NUL +:+ digest secret +:+ NUL +:+ b64url_encode (bytes_string bytes)).

(** [radius_packet]; [secret] is the shared secret read from its file. *)
Definition radius_packet (listener nas_id : string) (nas : Nas.t) (bytes : list Z) (secret : Result string) :
    eng (option (list Z)) :=
  secret ← wlift secret;
  let key_bytes := string_bytes secret in
  packet ← wlift (decode bytes key_bytes);
  let key := request_key listener nas_id secret bytes in
  claim ← wtx (write (radius_claim nas.(Nas.client_id) key packet key_bytes));
  match claim with
  | CachedClaim reply => mret reply
  | NewClaim =>
      if has_eap packet then
        client ← wtx (read (radius_eap_client nas.(Nas.client_id)));
        outcome ← match client with
                  | Some client =>
                      if is_ok (radius_eap_profile listener)
                      then process listener nas_id nas packet key_bytes client
                      else mret (Reject (failure packet))
                  | None => mret (Reject (failure packet))
                  end;
        wtx (radius_eap_finish listener nas_id nas key packet key_bytes outcome)
      else wtx (radius_pap listener nas_id nas key packet key_bytes)
  end.
End packets.

(** ** Frames *)

Section frames.
Context {E : Env} {L : ApplyLease} {S_ : SamlPeers}.
Implicit Types (s : St.t).

#[global] Instance touches_close_identity seen i : Touches ["sessions"; "ssf_deliveries"] (close_identity seen i).
Proof. unfold close_identity. solve_touches. Qed.
#[global] Instance pure_client_profile id : Pure (radius_client_profile id).
Proof. unfold radius_client_profile. solve_pure. Qed.
#[global] Instance pure_radius_identity c i : Pure (radius_identity c i).
Proof. unfold radius_identity. solve_pure. Qed.
#[global] Instance pure_stale id cs p c : Pure (stale id cs p c).
Proof. unfold stale. solve_pure. Qed.
#[global] Instance pure_open_claim k : Pure (open_claim k).
Proof. unfold open_claim. solve_pure. Qed.
#[global] Instance pure_pap_allowed id c t : Pure (pap_allowed id c t).
Proof. unfold pap_allowed. solve_pure. Qed.
#[global] Instance pure_require_mfa n : Pure (radius_user_requires_mfa n).
Proof. unfold radius_user_requires_mfa, Human.user_by_name. solve_pure. Qed.
Lemma touches_commit_answer l n k p sec c code a w :
  Touches [REQUESTS; "meta"; "audit"] (commit_answer l n k p sec c code a w).
Proof. unfold commit_answer, radius_audit. cbv zeta. solve_touches. Qed.
End frames.
#[export] Hint Resolve touches_close_identity touches_commit_answer : tx.

(** ** Duplicates *)

Section duplicates.
Context {E : Env} {L : ApplyLease} {S_ : SamlPeers}.
Implicit Types (s : St.t) (c : RadiusCached.t).

(** What a cached Accept rests on now: the client as it was, the identity still
    allowed, and the very attributes that were sent. *)
Definition still_accepted client_id packet c s : Prop :=
  ∃ client settings, radius_client_profile client_id s = (Ok (client, settings), s)
    ∧ c.(RadiusCached.client_id) = client_id ∧ c.(RadiusCached.client_fingerprint) = fingerprint client
    ∧ ∀ i, c.(RadiusCached.identity) = Some i →
        ∃ user attrs, radius_identity client i s = (Ok user, s)
          ∧ reply_attributes user settings.(RadiusSettings.reply) = Ok attrs
          ∧ c.(RadiusCached.attributes_fingerprint) = Some (attributes_digest (with_user_name packet user attrs)).

Lemma close_identity_ok seen i s e s' :
  close_identity seen i s = (Ok e, s') →
  s'.(St.clock) = s.(St.clock)
  ∧ (∀ k, s'.(St.db) !! (REQUESTS, k) = s.(St.db) !! (REQUESTS, k))
  ∧ ∀ x, match i with Some i => s.(St.db) !! ("sessions", i.(Identity.session_id)) = Some (RSession x) | None => False end →
      s'.(St.db) !! ("sessions", x.(Session.id)) = Some (RSession (revoked x)).
Proof.
  intros Hrun. pose proof (touches_run ["sessions"; "ssf_deliveries"] _ _ _ _ Hrun) as (Hc & _ & _ & Hf).
  split; [done|]. split; [intros k; apply Hf; bucket|]. intros x. destruct i as [i|]; [|done]. intros Hx.
  unfold close_identity in Hrun. apply bind_ok in Hrun as (o & s1 & [-> Ho]%get_ok & Hrun).
  rewrite Hx in Ho. destruct o as [y|]; [|done]. injection Ho as <-.
  apply bind_ok in Hrun as ([] & s1 & ->%put_ok & Hrun).
  rewrite (touches_at ["ssf_deliveries"] _ _ _ _ "sessions" _ Hrun) by bucket.
  cbn [St.db St.set_db]. apply lookup_insert_eq.
Qed.

Lemma stale_ok id client settings p c s b s' :
  radius_client_profile id s = (Ok (client, settings), s) →
  stale id (client, settings) p c s = (Ok b, s') →
  s' = s ∧ (b = false → still_accepted id p c s).
Proof.
  intros Hcs Hrun. pose proof (pure_run _ _ _ _ Hrun) as ->. split; [done|]. intros ->.
  unfold stale in Hrun. cbn [fst snd] in Hrun. destruct (negb _ || negb _) eqn:Hne; [by apply ret_ok in Hrun as [? _]|].
  apply orb_false_iff in Hne as [Hid%negb_false_iff%String.eqb_eq Hfp%negb_false_iff%String.eqb_eq].
  exists client, settings. split; [done|]. split; [done|]. split; [done|]. intros i Hi. rewrite Hi in Hrun.
  apply bind_ok in Hrun as (r & s1 & Hr & Hrun). apply (proj1 (catch_ok _ _ _ _)) in Hr.
  pose proof (pure_run _ _ _ _ Hr) as ->. destruct r as [user|e].
  - apply bind_ok in Hrun as (attrs & s1 & [Ha ->]%lift_ok & [Hb _]%ret_ok). exists user, attrs.
    split; [done|]. split; [done|]. symmetry in Hb. apply negb_false_iff, bool_decide_eq_true in Hb. done.
  - destruct (Error.is_server_error e); [done|]. by apply ret_ok in Hrun as [? _].
Qed.

(** A duplicate of a request is never worked on again while its claim lives.
    It gets the answer that was given, and an Accept among them only while the
    account would still be accepted by the same client with the same attributes;
    otherwise it gets a Reject, which replaces the answer, and the session behind
    the Accept is revoked. *)
Theorem radius_duplicate_answered client_id key packet secret c s claim s' :
  s.(St.db) !! (REQUESTS, key) = Some (RRadiusCached c) → s.(St.clock) < c.(RadiusCached.expires_at) →
  radius_claim client_id key packet secret s = (Ok claim, s') →
  claim = CachedClaim c.(RadiusCached.response) ∧ s' = s ∧ still_accepted client_id packet c s
  ∨ ∃ response, packet_response packet 3 secret (failure packet) = Ok response
      ∧ claim = CachedClaim (Some response)
      ∧ s'.(St.db) !! (REQUESTS, key) = Some (RRadiusCached (reject_cached c response))
      ∧ (∀ k, k ≠ key → s'.(St.db) !! (REQUESTS, k) = s.(St.db) !! (REQUESTS, k))
      ∧ ∀ i x, c.(RadiusCached.identity) = Some i →
          s.(St.db) !! ("sessions", i.(Identity.session_id)) = Some (RSession x) →
          s'.(St.db) !! ("sessions", x.(Session.id)) = Some (RSession (revoked x)).
Proof.
  intros Hrow Hlive Hrun. unfold radius_claim in Hrun.
  apply bind_ok in Hrun as ([client settings] & s1 & Hcs & Hrun). pose proof (pure_run _ _ _ _ Hcs) as ->.
  apply bind_ok in Hrun as (o & s1 & [-> Ho]%get_ok & Hrun). apply bind_ok in Hrun as (at_ & s1 & [-> ->]%now_ok & Hrun).
  rewrite Hrow in Ho. destruct o as [c'|]; [|done]. injection Ho as <-. rewrite (proj2 (Z.ltb_lt _ _) Hlive) in Hrun.
  unfold answer_duplicate in Hrun. apply bind_ok in Hrun as (b & s1 & Hs & Hrun).
  apply (stale_ok _ _ _ _ _ _ _ _ Hcs) in Hs as [-> Hs]. destruct b.
  - right. apply bind_ok in Hrun as (e & s1 & (_ & Hk & Hx)%close_identity_ok & Hrun).
    apply bind_ok in Hrun as (response & s2 & [Hr ->]%lift_ok & Hrun).
    apply bind_ok in Hrun as ([] & s2 & ->%put_ok & [-> ->]%ret_ok). exists response.
    cbn [St.db St.set_db]. split_and!; [done|done|apply lookup_insert_eq| |].
    + intros k Hne. rewrite lookup_insert_ne by congruence. apply Hk.
    + intros i x Hi Hsx. rewrite lookup_insert_ne by done. apply Hx. by rewrite Hi.
  - left. apply ret_ok in Hrun as [-> ->]. split; [done|]. split; [done|]. by apply Hs.
Qed.
End duplicates.

(** ** A request is worked on once *)

Section once.
Context {E : Env} {L : ApplyLease} {S_ : SamlPeers}.
Implicit Types (s : St.t) (c : RadiusCached.t).

(** One committed operation of the server, or anything that leaves the claims
    alone; time does not run backwards. *)
Inductive radius_step : St.t → St.t → Prop :=
| rstep_claim client_id key packet secret s claim s' :
    radius_claim client_id key packet secret s = (Ok claim, s') → radius_step s s'
| rstep_pap listener nas_id client_id key packet secret token s v s' :
    radius_pap_commit listener nas_id client_id key packet secret token s = (Ok v, s') → radius_step s s'
| rstep_eap listener nas_id client_id key packet secret outcome s v s' :
    radius_eap_commit listener nas_id client_id key packet secret outcome s = (Ok v, s') → radius_step s s'
| rstep_cleanup s u s' : radius_cleanup_cache s.(St.clock) s = (Ok u, s') → radius_step s s'
| rstep_other s s' :
    s.(St.clock) ≤ s'.(St.clock) →
    (∀ k, s'.(St.db) !! (REQUESTS, k) = s.(St.db) !! (REQUESTS, k)) → radius_step s s'.

(** The claim of [key] lives until [e]. *)
Definition claimed (key : string) (e : Z) s : Prop := s.(St.clock) < e →
  ∃ c, s.(St.db) !! (REQUESTS, key) = Some (RRadiusCached c) ∧ c.(RadiusCached.expires_at) = e.

(** One claim changes, and keeps its expiry. *)
Definition same_claims key0 s s' : Prop :=
  s'.(St.clock) = s.(St.clock)
  ∧ (∀ k, k ≠ key0 → s'.(St.db) !! (REQUESTS, k) = s.(St.db) !! (REQUESTS, k))
  ∧ ∀ c, s.(St.db) !! (REQUESTS, key0) = Some (RRadiusCached c) → s.(St.clock) < c.(RadiusCached.expires_at) →
      ∃ c', s'.(St.db) !! (REQUESTS, key0) = Some (RRadiusCached c')
        ∧ c'.(RadiusCached.expires_at) = c.(RadiusCached.expires_at).
Lemma same_claims_claimed key0 key e s s' : same_claims key0 s s' → claimed key e s → claimed key e s'.
Proof.
  intros (Hc & Hk & H0) Hold Hlt. rewrite Hc in Hlt. destruct (Hold Hlt) as (c & Hrow & <-).
  destruct (decide (key = key0)) as [->|Hne]; [by apply H0|]. exists c. by rewrite Hk.
Qed.

Lemma admit_request_ok id key client s claim s' :
  admit_request id key client s = (Ok claim, s') →
  claim = NewClaim ∧ s' = St.set_db s (<[(REQUESTS, key) := RRadiusCached
    (RadiusCached.mk (wadd s.(St.clock) 90) id (fingerprint client) None None None)]> s.(St.db)).
Proof.
  unfold admit_request. intros Hrun. apply bind_ok in Hrun as (rows & s1 & Hl & Hrun). pose proof (pure_run _ _ _ _ Hl) as ->.
  apply bind_ok in Hrun as ([] & s1 & [_ ->]%ensure_ok & Hrun). apply bind_ok in Hrun as (at_ & s1 & [-> ->]%now_ok & Hrun).
  by apply bind_ok in Hrun as ([] & s1 & ->%put_ok & [-> ->]%ret_ok).
Qed.
Lemma claim_ok id key packet secret s claim s' :
  radius_claim id key packet secret s = (Ok claim, s') →
  same_claims key s s'
  ∧ (claim = NewClaim → ∃ c, s'.(St.db) !! (REQUESTS, key) = Some (RRadiusCached c)
       ∧ c.(RadiusCached.expires_at) = wadd s.(St.clock) 90
       ∧ ∀ c0, s.(St.db) !! (REQUESTS, key) = Some (RRadiusCached c0) → c0.(RadiusCached.expires_at) ≤ s.(St.clock)).
Proof.
  unfold radius_claim. intros Hrun. apply bind_ok in Hrun as ([client settings] & s1 & Hcs & Hrun).
  pose proof (pure_run _ _ _ _ Hcs) as ->. apply bind_ok in Hrun as (o & s1 & [-> Ho]%get_ok & Hrun).
  apply bind_ok in Hrun as (at_ & s1 & [-> ->]%now_ok & Hrun). destruct o as [c|]; simpl in Ho.
  - destruct (Z.ltb_spec s.(St.clock) c.(RadiusCached.expires_at)) as [Hlt|Hge].
    + unfold answer_duplicate in Hrun. apply bind_ok in Hrun as (b & s1 & Hs & Hrun).
      pose proof (pure_run _ _ _ _ Hs) as ->. destruct b.
      * apply bind_ok in Hrun as (e & s1 & (Hc & Hk & _)%close_identity_ok & Hrun).
        apply bind_ok in Hrun as (response & s2 & [_ ->]%lift_ok & Hrun).
        apply bind_ok in Hrun as ([] & s2 & ->%put_ok & [-> ->]%ret_ok). split; [|done].
        split_and!; cbn [St.clock St.db St.set_db]; [done| |].
        -- intros k Hne. rewrite lookup_insert_ne by congruence. apply Hk.
        -- intros c' Hc' _. rewrite lookup_insert_eq. eexists. split; [reflexivity|]. simpl. congruence.
      * apply ret_ok in Hrun as [-> ->]. split; [|done]. split_and!; eauto.
    + apply bind_ok in Hrun as (e & s1 & (Hc & Hk & _)%close_identity_ok & Hrun).
      apply admit_request_ok in Hrun as [-> ->]. cbn [St.clock St.db St.set_db]. split; [split_and!|].
      * done.
      * intros k Hne. cbn [St.db St.set_db]. rewrite lookup_insert_ne by congruence. apply Hk.
      * intros c' Hc'. rewrite Ho in Hc'. injection Hc' as <-. lia.
      * intros _. rewrite lookup_insert_eq. eexists. split; [reflexivity|]. simpl. rewrite Hc. split; [done|].
        intros c0. rewrite Ho. by intros [= <-].
  - apply admit_request_ok in Hrun as [-> ->]. cbn [St.clock St.db St.set_db]. split; [split_and!|].
    + done.
    + intros k Hne. cbn [St.db St.set_db]. by rewrite lookup_insert_ne by congruence.
    + intros c' Hc'. by rewrite Ho in Hc'.
    + intros _. rewrite lookup_insert_eq. eexists. split; [reflexivity|]. split; [done|]. by rewrite Ho.
Qed.

Lemma open_claim_ok key s c s' :
  open_claim key s = (Ok c, s') →
  s' = s ∧ s.(St.db) !! (REQUESTS, key) = Some (RRadiusCached c) ∧ s.(St.clock) < c.(RadiusCached.expires_at)
  ∧ c.(RadiusCached.response) = None.
Proof.
  unfold open_claim. intros Hrun. apply bind_ok in Hrun as (o & s1 & [-> Ho]%get_ok & Hrun).
  apply bind_ok in Hrun as (at_ & s1 & [-> ->]%now_ok & [Hc ->]%some_or_ok). destruct o as [c'|]; [|done].
  destruct (_ && _) eqn:Hb; [|done]. injection Hc as ->. apply andb_true_iff in Hb as [Hl%Z.ltb_lt Hn%bool_decide_eq_true].
  done.
Qed.
Lemma commit_answer_ok l n key p sec c code a w s v s' :
  commit_answer l n key p sec c code a w s = (Ok v, s') →
  ∃ response, packet_response p code sec w = Ok response ∧ v = (Some response, code =? 2)
    ∧ s'.(St.clock) = s.(St.clock)
    ∧ s'.(St.db) !! (REQUESTS, key) = Some (RRadiusCached (answered c a response))
    ∧ ∀ k, k ≠ key → s'.(St.db) !! (REQUESTS, k) = s.(St.db) !! (REQUESTS, k).
Proof.
  unfold commit_answer. intros Hrun. apply bind_ok in Hrun as (response & s1 & [Hr ->]%lift_ok & Hrun). cbv zeta in Hrun.
  apply bind_ok in Hrun as ([] & s1 & ->%put_ok & Hrun). apply bind_ok in Hrun as ([] & s2 & Ha & [-> ->]%ret_ok).
  exists response. assert (Ht : Touches ["meta"; "audit"]
    (if code =? 11 then mret () else radius_audit (answered c a response) code l n)) by (unfold radius_audit; solve_touches).
  destruct (touches_run ["meta"; "audit"] _ _ _ _ Ha) as (Hc & _ & _ & Hf). cbn [St.clock St.db St.set_db] in Hc, Hf.
  split_and!; [done|done|done|rewrite Hf by bucket; apply lookup_insert_eq|].
  intros k Hne. rewrite Hf by bucket. by rewrite lookup_insert_ne by congruence.
Qed.
Lemma commit_same_claims l n key p sec c code a w s v s' :
  s.(St.db) !! (REQUESTS, key) = Some (RRadiusCached c) →
  commit_answer l n key p sec c code a w s = (Ok v, s') → same_claims key s s'.
Proof.
  intros Hrow (response & _ & _ & Hc & Hk & Ho)%commit_answer_ok. split_and!; [done|done|].
  intros c' Hc' _. rewrite Hrow in Hc'. injection Hc' as <-. eexists. split; [exact Hk|done].
Qed.

(** A PAP commit answers with the Accept of an allowed session, or a Reject. *)
Lemma pap_commit_ok l n id key p sec token s v s' :
  radius_pap_commit l n id key p sec token s = (Ok v, s') →
  ∃ c, open_claim key s = (Ok c, s)
    ∧ ((∃ i attrs, pap_allowed id c token s = (Ok (i, attrs), s)
          ∧ commit_answer l n key p sec c 2 (Some (i, attributes_digest attrs)) attrs s = (Ok v, s'))
       ∨ (∃ e, pap_allowed id c token s = (Err e, s) ∧ Error.is_server_error e = false)
         ∧ commit_answer l n key p sec c 3 None [] s = (Ok v, s')).
Proof.
  unfold radius_pap_commit. intros Hrun. apply bind_ok in Hrun as (c & s1 & Hc & Hrun).
  pose proof (pure_run _ _ _ _ Hc) as ->. apply bind_ok in Hrun as (r & s1 & Hr & Hrun).
  apply (proj1 (catch_ok _ _ _ _)) in Hr. pose proof (pure_run _ _ _ _ Hr) as ->. exists c. split; [done|].
  destruct r as [[i attrs]|e]; [left; by exists i, attrs|right].
  destruct (Error.is_server_error e) eqn:He; [done|]. split; [by exists e|done].
Qed.
(** An EAP commit answers what the conversation decided, an Accept only for an
    identity that is allowed. *)
Lemma eap_commit_ok l n id key p sec outcome s v s' :
  radius_eap_commit l n id key p sec outcome s = (Ok v, s') →
  ∃ c client settings, open_claim key s = (Ok c, s) ∧ radius_client_profile id s = (Ok (client, settings), s)
    ∧ ∃ code a w, commit_answer l n key p sec c code a w s = (Ok v, s')
        ∧ (code = 2 → settings.(RadiusSettings.eap_tls) = true
            ∧ fingerprint client = c.(RadiusCached.client_fingerprint)
            ∧ ∃ i protocol user attrs, outcome = Accept i protocol
                ∧ radius_identity client i s = (Ok user, s)
                ∧ reply_attributes user settings.(RadiusSettings.reply) = Ok attrs
                ∧ w = (attrs ++ [(1, string_bytes user.(User.username))]) ++ protocol).
Proof.
  unfold radius_eap_commit. intros Hrun. apply bind_ok in Hrun as (c & s1 & Hc & Hrun).
  pose proof (pure_run _ _ _ _ Hc) as ->. apply bind_ok in Hrun as ([client settings] & s1 & Hcs & Hrun).
  pose proof (pure_run _ _ _ _ Hcs) as ->. cbv zeta in Hrun. cbn [fst snd] in Hrun.
  exists c, client, settings. split; [done|]. split; [done|]. destruct (negb (_ && _)) eqn:Hu.
  { exists 3, None, (failure p). by split. }
  apply negb_false_iff, andb_true_iff in Hu as [Htls Hfp%String.eqb_eq]. destruct outcome as [w|i protocol|w].
  - exists 11, None, w. by split.
  - apply bind_ok in Hrun as (r & s1 & Hr & Hrun). apply (proj1 (catch_ok _ _ _ _)) in Hr.
    pose proof (pure_run _ _ _ _ Hr) as ->. destruct r as [user|e].
    + apply bind_ok in Hrun as (attrs & s1 & [Ha ->]%lift_ok & Hrun). do 3 eexists. split; [exact Hrun|].
      intros _. split; [done|]. split; [done|]. by exists i, protocol, user, attrs.
    + destruct (Error.is_server_error e); [done|]. exists 3, None, (failure p). by split.
  - exists 3, None, w. by split.
Qed.

Lemma cleanup_claims page at_ seen s e s' :
  fold_m (drop_requests at_) seen page s = (Ok e, s') →
  (∀ k c, (k, c) ∈ page → s.(St.db) !! (REQUESTS, k) = Some (RRadiusCached c) ∨ s.(St.db) !! (REQUESTS, k) = None) →
  s'.(St.clock) = s.(St.clock)
  ∧ ∀ k c, s.(St.db) !! (REQUESTS, k) = Some (RRadiusCached c) → at_ ≤ c.(RadiusCached.expires_at) →
      s'.(St.db) !! (REQUESTS, k) = Some (RRadiusCached c).
Proof.
  revert seen s. induction page as [|[k0 c0] page IH]; intros seen s Hrun Hpage.
  { apply ret_ok in Hrun as [-> ->]. done. }
  apply bind_ok in Hrun as (seen1 & s1 & Hd & Hrun). unfold drop_requests in Hd. cbn [fst snd] in Hd.
  destruct (Z.ltb_spec c0.(RadiusCached.expires_at) at_) as [Hlt|Hge].
  - apply bind_ok in Hd as (e1 & s2 & (Hc & Hk & _)%close_identity_ok & Hd).
    apply bind_ok in Hd as ([] & s3 & ->%remove_ok & [-> ->]%ret_ok).
    assert (Hs : ∀ k, k ≠ k0 → (St.set_db s2 (base.delete (REQUESTS, k0) s2.(St.db))).(St.db) !! (REQUESTS, k)
      = s.(St.db) !! (REQUESTS, k)).
    { intros k Hne. cbn [St.db St.set_db]. rewrite lookup_delete_ne by congruence. apply Hk. }
    apply IH in Hrun as [Hc' Hkeep].
    + split; [cbn [St.clock St.set_db] in Hc'; congruence|]. intros k c Hrow He. apply Hkeep; [|done].
      destruct (decide (k = k0)) as [->|Hne]; [|by rewrite Hs].
      destruct (Hpage k0 c0) as [H0|H0]; [set_solver| |congruence]. rewrite Hrow in H0. injection H0 as ->. lia.
    + intros k c Hin. destruct (decide (k = k0)) as [->|Hne].
      * right. apply lookup_delete_eq.
      * rewrite Hs by done. apply Hpage. set_solver.
  - apply ret_ok in Hd as [-> ->]. apply IH in Hrun; [done|]. intros k c Hin. apply Hpage. set_solver.
Qed.

Lemma claimed_step key e s s' : radius_step s s' → claimed key e s → claimed key e s'.
Proof.
  intros Hstep Hold. destruct Hstep as [id key0 p sec s claim s' Hrun|l n id key0 p sec token s v s' Hrun
    |l n id key0 p sec outcome s v s' Hrun|s u s' Hrun|s s' Hc Hk].
  - apply claim_ok in Hrun as [Hsame _]. by eapply same_claims_claimed.
  - apply pap_commit_ok in Hrun as (c & (_ & Hrow & _)%open_claim_ok & [(i & attrs & _ & Hc)|[_ Hc]]);
      eapply same_claims_claimed; eauto using commit_same_claims.
  - apply eap_commit_ok in Hrun as (c & client & settings & (_ & Hrow & _)%open_claim_ok & _ & code & a & w & Hc & _).
    eapply same_claims_claimed; eauto using commit_same_claims.
  - unfold radius_cleanup_cache in Hrun. apply bind_ok in Hrun as (page & s1 & Hp & Hrun).
    apply bind_ok in Hrun as (seen & s2 & Hf & [_ ->]%ret_ok).
    pose proof (touches_maintenance_page RadiusCached.t REQUESTS) as Ht.
    destruct (touches_run [CURSORS; BOUNDS] _ _ _ _ Hp) as (Hc & _ & _ & Hk).
    apply cleanup_claims in Hf as [Hc' Hkeep].
    + intros Hlt. rewrite Hc', Hc in Hlt. destruct (Hold Hlt) as (c & Hrow & <-). exists c. split; [|done].
      apply Hkeep; [|lia]. rewrite Hk by bucket. done.
    + intros k c Hin. left. rewrite Hk by bucket. by apply (page_subset RadiusCached.t _ _ _ _ _ _ Hp).
  - intros Hlt. rewrite Hk. apply Hold. lia.
Qed.

(** C23: a RADIUS request is worked on at most once in ninety seconds.  When a request
    was admitted, then whatever the server claims, answers and cleans up since,
    and whatever else it does: until ninety seconds have passed, the same bytes
    from the same place are a duplicate, answered from the cache and never
    authenticated a second time. *)
Theorem radius_request_once client_id key packet secret s0 s1 s client_id' packet' secret' claim s' :
  0 ≤ s0.(St.clock) → s0.(St.clock) + 90 ≤ u64_max →
  radius_claim client_id key packet secret s0 = (Ok NewClaim, s1) →
  rtc radius_step s1 s → s.(St.clock) < s0.(St.clock) + 90 →
  radius_claim client_id' key packet' secret' s = (Ok claim, s') →
  claim ≠ NewClaim.
Proof.
  intros H0 Hmax Hnew Hsteps Hlt Hrun.
  assert (Hcl : claimed key (s0.(St.clock) + 90) s).
  { apply claim_ok in Hnew as [(Hc & _) Hrow]. destruct (Hrow eq_refl) as (c & Hc1 & He & _).
    rewrite wadd_small in He by lia.
    assert (H1 : claimed key (s0.(St.clock) + 90) s1) by (intros _; by exists c). clear -Hsteps H1.
    induction Hsteps as [|a b c0 Hab Hbc IH]; [done|]. apply IH. by eapply claimed_step. }
  destruct (Hcl Hlt) as (c & Hrow & He).
  apply claim_ok in Hrun as [_ Hc]. intros ->. destruct (Hc eq_refl) as (_ & _ & _ & Hold). specialize (Hold _ Hrow). lia.
Qed.
End once.

(** ** What an Accept rests on *)

Section accepts.
Context {E : Env} {L : ApplyLease} {S_ : SamlPeers}.
Implicit Types (s : St.t) (c : RadiusCached.t).

Lemma read_pure {A} (m : tx A) `{!Pure m} s a s' : read m s = (Ok a, s') → m s = (Ok a, s) ∧ s' = s.
Proof.
  unfold read. pose proof (pure_eq (m:=m) s) as Hp. destruct (m s) as [r s1]. simpl in Hp. subst s1.
  intros [= -> <-]. by destruct s.
Qed.

(** The login a PAP request tried. *)
Lemma pap_login_ok p sec s token s1 :
  pap_login p sec s = (Ok token, s1) →
  ∃ name password mfa v, pap_credentials p sec = Ok (name, password)
    ∧ radius_user_requires_mfa name s = (Ok mfa, s)
    ∧ login name (split_otp mfa password).1 (split_otp mfa password).2 s = (Ok v, s1)
    ∧ Json.as_str (Json.index v "session_token") = Some token.
Proof.
  unfold pap_login. intros Hrun. apply bind_ok in Hrun as ([name password] & s2 & [Hc ->]%lift_ok & Hrun).
  apply bind_ok in Hrun as (mfa & s2 & Hm & Hrun). apply read_pure in Hm as [Hm ->]; [|apply _].
  cbv zeta in Hrun. apply bind_ok in Hrun as (v & s2 & Hl & [Ht ->]%some_or_ok).
  exists name, password, mfa, v. done.
Qed.
Lemma pap_allowed_ok id c token s i attrs :
  pap_allowed id c token s = (Ok (i, attrs), s) →
  ∃ t client settings u x user, token = Some t
    ∧ radius_client_profile id s = (Ok (client, settings), s)
    ∧ fingerprint client = c.(RadiusCached.client_fingerprint)
    ∧ session t s = (Ok (u, x), s) ∧ i = x.(Session.identity)
    ∧ radius_identity client i s = (Ok user, s)
    ∧ reply_attributes user settings.(RadiusSettings.reply) = Ok attrs.
Proof.
  unfold pap_allowed. intros Hrun. apply bind_ok in Hrun as ([client settings] & s1 & Hcs & Hrun).
  pose proof (pure_run _ _ _ _ Hcs) as ->. apply bind_ok in Hrun as ([] & s1 & [Hfp%String.eqb_eq ->]%ensure_ok & Hrun).
  apply bind_ok in Hrun as (t & s1 & [-> ->]%some_or_ok & Hrun).
  apply bind_ok in Hrun as ([u x] & s1 & Hs & Hrun). pose proof (pure_run _ _ _ _ Hs) as ->.
  apply bind_ok in Hrun as (user & s1 & Hi & Hrun). pose proof (pure_run _ _ _ _ Hi) as ->.
  apply bind_ok in Hrun as (attrs' & s1 & [Ha ->]%lift_ok & [Heq _]%ret_ok). injection Heq as -> ->.
  exists t, client, settings, u, x, user. done.
Qed.

(** The commit behind a PAP answer. *)
Lemma finish_pap_ok result token s v s' :
  finish_pap result token s = (Ok v, s') → ∃ ok, result = Ok (v, ok).
Proof.
  unfold finish_pap. intros Hrun. apply bind_ok in Hrun as ([] & s1 & _ & [Hr _]%lift_ok).
  destruct result as [[w ok]|e]; [|done]. injection Hr as ->. by exists ok.
Qed.

(** An Access-Accept to a PAP request means that the name and the password in the
    packet, with the one-time code split off for an account that has one, signed
    in just now, that the session this opened is the one answered for, and that
    the client's policy for the scope radius admits its identity, which carries
    the attributes sent.  Every other answer is an Access-Reject without
    attributes. *)
Theorem radius_pap_sound listener nas_id nas key p sec s response s' :
  radius_pap listener nas_id nas key p sec s = (Ok (Some response), s') →
  (∃ name password mfa v s1 token client settings u x user attrs,
     pap_credentials p sec = Ok (name, password)
     ∧ radius_user_requires_mfa name s = (Ok mfa, s)
     ∧ login name (split_otp mfa password).1 (split_otp mfa password).2 s = (Ok v, s1)
     ∧ Json.as_str (Json.index v "session_token") = Some token
     ∧ session token s1 = (Ok (u, x), s1)
     ∧ radius_client_profile nas.(Nas.client_id) s1 = (Ok (client, settings), s1)
     ∧ radius_identity client x.(Session.identity) s1 = (Ok user, s1)
     ∧ reply_attributes user settings.(RadiusSettings.reply) = Ok attrs
     ∧ packet_response p 2 sec attrs = Ok response)
  ∨ packet_response p 3 sec [] = Ok response.
Proof.
  unfold radius_pap. intros Hrun. apply bind_ok in Hrun as (r & s1 & Hr & Hrun). apply (proj1 (catch_ok _ _ _ _)) in Hr.
  destruct r as [token|e].
  - apply bind_ok in Hrun as (res & s2 & Hc & Hrun). apply (proj1 (catch_ok _ _ _ _)) in Hc.
    apply finish_pap_ok in Hrun as [ok ->]. apply (proj1 (write_ok _ _ _ _)) in Hc.
    apply pap_commit_ok in Hc as (c & _ & [(i & attrs & Ha & Hc)|[_ Hc]]);
      apply commit_answer_ok in Hc as (resp & Hresp & [= <- _] & _); [left|by right].
    apply pap_login_ok in Hr as (name & password & mfa & v & Hcr & Hm & Hl & Ht).
    apply pap_allowed_ok in Ha as (t & client & settings & u & x & user & [= <-] & Hcs & _ & Hs & -> & Hi & Hat).
    exists name, password, mfa, v, s1, token, client, settings, u, x, user, attrs. by split_and!.
  - destruct (silent e); [by apply ret_ok in Hrun as [? _]|].
    apply bind_ok in Hrun as (res & s2 & Hc & Hrun). apply (proj1 (catch_ok _ _ _ _)) in Hc.
    apply finish_pap_ok in Hrun as [ok ->]. apply (proj1 (write_ok _ _ _ _)) in Hc. right.
    apply pap_commit_ok in Hc as (c & _ & [(i & attrs & Ha & Hc)|[_ Hc]]);
      apply commit_answer_ok in Hc as (resp & Hresp & [= <- _] & _); [|done].
    by apply pap_allowed_ok in Ha as (t & ? & ? & ? & ? & ? & ? & _).
Qed.

(** The identity a proven certificate gets is the account the certificate is
    bound to, enabled, for a certificate that has not expired and a client
    unchanged since the conversation began.  Its session lasts at most three
    minutes and never longer than the certificate, is bound to the certificate
    and the profile, and no token opens it; no other session changes. *)
Theorem eap_identity_bounded client listener profile_fp key s i s' :
  0 ≤ s.(St.clock) → s.(St.clock) + 180 ≤ u64_max →
  radius_eap_create_identity client listener profile_fp key s = (Ok i, s') →
  ∃ current settings cert user x,
    radius_client_profile client.(Client.id) s = (Ok (current, settings), s)
    ∧ settings.(RadiusSettings.eap_tls) = true ∧ fingerprint current = fingerprint client
    ∧ s.(St.db) !! (CERTIFICATES, key) = Some (REapCertificate cert)
    ∧ s.(St.clock) < cert.(EapCertificate.expires_at)
    ∧ s.(St.db) !! ("users", cert.(EapCertificate.user_id)) = Some (RUser user) ∧ user.(User.enabled) = true
    ∧ i.(Identity.user_id) = user.(User.id) ∧ i.(Identity.epoch) = user.(User.epoch) ∧ i.(Identity.mfa) = false
    ∧ s'.(St.db) !! ("sessions", i.(Identity.session_id)) = Some (RSession x) ∧ x.(Session.identity) = i
    ∧ x.(Session.expires_at) ≤ s.(St.clock) + 180 ∧ x.(Session.expires_at) ≤ cert.(EapCertificate.expires_at)
    ∧ (∃ b, s'.(St.db) !! (EAP_IDENTITIES, i.(Identity.session_id)) = Some (REapBinding b)
         ∧ b.(EapIdentityBinding.certificate_key) = key
         ∧ b.(EapIdentityBinding.certificate_id) = cert.(EapCertificate.id)
         ∧ b.(EapIdentityBinding.profile_fingerprint) = profile_fp)
    ∧ (∀ k, s'.(St.db) !! ("session_tokens", k) = s.(St.db) !! ("session_tokens", k))
    ∧ (∀ k, k ≠ i.(Identity.session_id) → s'.(St.db) !! ("sessions", k) = s.(St.db) !! ("sessions", k))
    ∧ ∃ u, radius_identity current i s' = (Ok u, s').
Proof.
  intros H0 Hmax Hrun. unfold radius_eap_create_identity in Hrun.
  apply bind_ok in Hrun as ([current settings] & s1 & Hcs & Hrun). pose proof (pure_run _ _ _ _ Hcs) as ->.
  apply bind_ok in Hrun as ([] & s1 & [Hg ->]%ensure_ok & Hrun). cbn [fst snd] in Hg, Hrun.
  apply negb_true_iff, orb_false_iff in Hg as [Htls%negb_false_iff Hfp%negb_false_iff%String.eqb_eq].
  apply bind_ok in Hrun as (oc & s1 & [-> Hoc]%get_ok & Hrun). apply bind_ok in Hrun as (at_ & s1 & [-> ->]%now_ok & Hrun).
  apply bind_ok in Hrun as (cert & s1 & [Hc ->]%some_or_ok & Hrun). destruct oc as [c|]; [|done].
  destruct (Z.ltb_spec s.(St.clock) c.(EapCertificate.expires_at)) as [Hlt|]; [|done]. injection Hc as ->.
  apply bind_ok in Hrun as (ou & s1 & [-> Hou]%get_ok & Hrun).
  apply bind_ok in Hrun as (user & s1 & [Hu ->]%some_or_ok & Hrun). destruct ou as [u|]; [|done].
  destruct u.(User.enabled) eqn:Hen; [|done]. injection Hu as ->.
  apply bind_ok in Hrun as (sid & s1 & [-> ->]%id_ok & Hrun). cbv zeta in Hrun.
  apply bind_ok in Hrun as (token & s1 & [-> ->]%random_token_ok & Hrun). cbn [St.db St.clock St.rng St.ctx] in Hrun.
  apply bind_ok in Hrun as ([] & s1 & ->%put_ok & Hrun). apply bind_ok in Hrun as ([] & s1 & ->%put_ok & Hrun).
  apply bind_ok in Hrun as (u & s1 & Hi & [-> ->]%ret_ok). pose proof (pure_run _ _ _ _ Hi) as ->.
  exists current, settings, cert, user. eexists. cbn [St.db St.set_db Identity.session_id certificate_identity].
  split_and!; try done.
  - rewrite lookup_insert_ne by done. apply lookup_insert_eq.
  - done.
  - cbn [Session.expires_at St.clock St.set_db]. rewrite wadd_small by lia. lia.
  - cbn [Session.expires_at St.clock St.set_db]. lia.
  - eexists. rewrite lookup_insert_eq. by split_and!.
  - intros k. by rewrite !lookup_insert_ne by done.
  - intros k Hne. rewrite lookup_insert_ne by done. by rewrite lookup_insert_ne by congruence.
  - by exists u.
Qed.

(** An identity proven by a certificate needs its certificate at every use. *)
Lemma x509_needs_certificate i b s :
  i.(Identity.source) = None → "x509" ∈ i.(Identity.amr) →
  s.(St.db) !! (EAP_IDENTITIES, i.(Identity.session_id)) = Some (REapBinding b) →
  s.(St.db) !! (CERTIFICATES, b.(EapIdentityBinding.certificate_key)) = None →
  is_ok (identity_user i s).1 = false.
Proof.
  intros Hsrc Hx Hb Hc. unfold identity_user, identity_user_unbound.
  assert (He : ∃ e, radius_eap_validate_identity i s = (Err e, s)).
  { unfold radius_eap_validate_identity. rewrite Hsrc, bool_decide_true by done.
    assert (Hex : existsb (String.eqb "x509") i.(Identity.amr) = true).
    { apply existsb_exists. exists "x509". split; [by apply list_elem_of_In|apply String.eqb_refl]. }
    rewrite Hex. cbn [andb]. erewrite bind_step by reflexivity.
    unfold EAP_IDENTITIES, CERTIFICATES in *. tx_get. case_match; [|by eexists].
    erewrite bind_step by reflexivity. rewrite (bind_step _ _ _ _ _ (get_none _ _ _ Hc)). by eexists. }
  destruct He as [e He]. by rewrite (bind_err _ _ _ _ _ (bind_err _ _ _ _ _ He)).
Qed.

(** C24: only an operator who may write the account's certificates and enroll on the
    listener revokes a certificate, an agent never that of an administrator, and
    the revocation holds at once: every identity that was proven by this
    certificate is refused from then on, in particular by the RADIUS policy and
    for a cached Accept. *)
Theorem certificate_revocation_immediate token cid s v s' :
  revoke_certificate token cid s = (Ok v, s') →
  ∃ key cert user actor, s.(St.db) !! (CERTIFICATE_IDS, cid) = Some (RString key)
    ∧ s.(St.db) !! (CERTIFICATES, key) = Some (REapCertificate cert)
    ∧ s.(St.db) !! ("users", cert.(EapCertificate.user_id)) = Some (RUser user)
    ∧ principal token s = (Ok actor, s)
    ∧ Principal.allows actor "certificate.write" ("user/" +:+ user.(User.username)) = true
    ∧ Principal.allows actor "radius.enroll" ("radius/" +:+ cert.(EapCertificate.listener)) = true
    ∧ (actor.(Principal.agent) && user.(User.admin) = false)
    ∧ (∀ k, k ≠ key → s'.(St.db) !! (CERTIFICATES, k) = s.(St.db) !! (CERTIFICATES, k))
    ∧ ∀ client i b, i.(Identity.source) = None → "x509" ∈ i.(Identity.amr) →
        s'.(St.db) !! (EAP_IDENTITIES, i.(Identity.session_id)) = Some (REapBinding b) →
        b.(EapIdentityBinding.certificate_key) = key →
        is_ok (radius_identity client i s').1 = false.
Proof.
  unfold revoke_certificate. intros Hrun. apply bind_ok in Hrun as (ok & s1 & [-> Hok]%get_ok & Hrun).
  apply bind_ok in Hrun as (key & s1 & [-> ->]%some_or_ok & Hrun).
  apply bind_ok in Hrun as (oc & s1 & [-> Hoc]%get_ok & Hrun). apply bind_ok in Hrun as (cert & s1 & [-> ->]%some_or_ok & Hrun).
  apply bind_ok in Hrun as (ou & s1 & [-> Hou]%get_ok & Hrun). apply bind_ok in Hrun as (user & s1 & [-> ->]%some_or_ok & Hrun).
  apply bind_ok in Hrun as ([actor user'] & s1 & Hw & Hrun). unfold certificate_writer, management in Hw.
  apply bind_ok in Hw as (a & s2 & Hm & Hw). apply bind_ok in Hm as (a' & s3 & Ha & Hm).
  pose proof (pure_run _ _ _ _ Ha) as ->. apply bind_ok in Hm as ([] & s3 & [Hr1 ->]%lift_ok & Hm).
  apply bind_ok in Hm as ([] & s3 & Hl & [-> ->]%ret_ok). pose proof validate_apply_lease_pure as Hp.
  pose proof (pure_run _ _ _ _ Hl) as ->. apply bind_ok in Hw as ([] & s3 & [Hr2 ->]%lift_ok & Hw).
  apply bind_ok in Hw as (u & s3 & [-> ->]%ret_ok & Hw).
  apply bind_ok in Hw as ([] & s3 & [Hg%negb_true_iff ->]%ensure_ok & [[= -> ->] ->]%ret_ok).
  apply bind_ok in Hrun as ([] & s1 & ->%remove_ok & Hrun). apply bind_ok in Hrun as ([] & s1 & ->%remove_ok & Hrun).
  apply bind_ok in Hrun as ([] & s2 & Hau & [_ ->]%ret_ok).
  destruct (touches_run ["meta"; "audit"] _ _ _ _ Hau) as (_ & _ & _ & Hf). cbn [St.db St.set_db] in Hf.
  unfold Principal.require in Hr1, Hr2. destruct (Principal.allows a' "certificate.write" _) eqn:H1; [|done].
  destruct (Principal.allows a' "radius.enroll" _) eqn:H2; [|done].
  exists key, cert, user, a'. split_and!; try done.
  - intros k Hne. rewrite Hf by bucket. rewrite lookup_delete_ne by done. by rewrite lookup_delete_ne by congruence.
  - intros client i b Hsrc Hx Hb <-.
    assert (Hc : s2.(St.db) !! (CERTIFICATES, b.(EapIdentityBinding.certificate_key)) = None).
    { rewrite Hf by bucket. rewrite lookup_delete_ne by done. apply lookup_delete_eq. }
    pose proof (x509_needs_certificate i b s2 Hsrc Hx Hb Hc) as Hno. unfold radius_identity, authorize_identity.
    destruct (identity_user i s2) as [[w|e] s3] eqn:Hi; [done|].
    by rewrite (bind_err _ _ _ _ _ (bind_err _ _ _ _ _ Hi)).
Qed.
End accepts.

(** ** An example *)

Module ServerDemo.
#[local] Existing Instance Demo.env.
#[local] Existing Instance SessionsDemo.lease.
#[local] Existing Instance SamlDemo.peers.

(** The network "wifi" admits Amy with her password and code or with her
    certificate; Root administers it. *)
Definition settings : ProviderSettings.t :=
  ProviderSettings.mk None None (Some (RadiusSettings.mk true [])) None None ∅ None None None [] None ∅ None None
    None None false None [] false false None ∅ false false ∅ None None None None ∅ [] None None [] false false
    false Policy.default None false false false.
Definition client : Client.t := Client.mk "crm" "WiFi" None [] {["radius"]} ∅ false true false settings.
Definition root : User.t :=
  User.mk false TotpSettings.default "seed" "u-root" "root" None "Root" "" true true 1 None None None 100 ∅ false ∅ ∅.
Definition key : string := certificate_key "wifi" "#der".
Definition certificate : EapCertificate.t := EapCertificate.mk "cert-1" "amy" "u-amy" "wifi" "#der" 9000.
Definition db : gmap (string * string) row :=
  <[("clients", "crm") := RClient client]>
    (<[(CERTIFICATES, key) := REapCertificate certificate]>
      (<[(CERTIFICATE_IDS, "cert-1") := RString key]>
        (<[("users", "u-root") := RUser root]>
          (<[("sessions", "sess-r") :=
               RSession (Session.mk "sess-r" "#root" (Identity.mk ["pwd"; "otp"] None "u-root" 1 true 900 "sess-r") 5000 false)]>
            (<[("session_tokens", "#root") := RString "sess-r"]> SigninDemo.db))))).
Definition start : St.t := St.mk db 1000 0 None.

Definition nas : Nas.t := Nas.mk "10.0.0.7" "crm" None.
Definition secret : list Z := RadiusDemo.secret.
Definition packet (password : string) : Packet.t :=
  Packet.mk 7 RadiusDemo.authenticator
    [(1, string_bytes "amy"); (2, hidden_password secret RadiusDemo.authenticator (string_bytes password))].
Definition good : Packet.t := packet "correct horse;000033".
Definition claim (p : Packet.t) (s : St.t) : Result RadiusClaim * St.t := radius_claim "crm" "req" p secret s.
Definition answer (p : Packet.t) (s : St.t) : Result (option (list Z)) * St.t :=
  radius_pap "wifi" "ap-1" nas "req" p secret s.
Definition claimed : St.t := (claim good start).2.
Definition accepted : Result (option (list Z)) * St.t := answer good claimed.
Definition refused : Result (option (list Z) * bool) * St.t :=
  radius_pap_commit "wifi" "ap-1" "crm" "req" good secret None claimed.
Definition rejected : Result (option (list Z)) := match refused.1 with Ok v => Ok v.1 | Err e => Err e end.
Definition bytes (r : Result (option (list Z))) : list Z := match r with Ok (Some b) => b | _ => [] end.

(** Amy was disabled after the Accept. *)
Definition disabled : St.t :=
  St.set_db accepted.2 (<[("users", "u-amy") := RUser (User.mk false TotpSettings.default "seed" "u-amy" "amy" None
    "Amy" "" false false 1 (Some "SECRET") None None 100 ∅ false ∅ ∅)]> accepted.2.(St.db)).
Definition cached : RadiusCached.t :=
  match accepted.2.(St.db) !! (REQUESTS, "req") with
  | Some (RRadiusCached c) => c
  | _ => RadiusCached.mk 0 "" "" None None None
  end.

Definition proven : Result Identity.t * St.t := radius_eap_create_identity client "wifi" "profile" key start.
Definition identity : Identity.t := certificate_identity SigninDemo.amy "id-0" 1000.
Definition revocation : Result json * St.t := revoke_certificate "root" "cert-1" proven.2.
Definition reply (r : Result json) : json := match r with Ok v => v | Err _ => JNull end.
Definition code_of (r : Result (option (list Z))) : option Z :=
  match r with Ok (Some (c :: _)) => Some c | _ => None end.
End ServerDemo.

(** The right password and code are accepted, a wrong password is rejected, and a
    duplicate of the accepted request is answered from the cache, with a Reject
    once the account is disabled. *)
Example server_runs :
  (ServerDemo.claim ServerDemo.good ServerDemo.start).1 = Ok NewClaim
  ∧ ServerDemo.code_of ServerDemo.accepted.1 = Some 2
  ∧ ServerDemo.code_of (ServerDemo.answer (ServerDemo.packet "wrong;000033") ServerDemo.claimed).1 = Some 3
  ∧ (ServerDemo.claim ServerDemo.good ServerDemo.accepted.2).1 = Ok (CachedClaim (Some (ServerDemo.bytes ServerDemo.accepted.1)))
  ∧ is_ok (ServerDemo.claim ServerDemo.good ServerDemo.disabled).1 = true
  ∧ ServerDemo.proven.1 = Ok ServerDemo.identity
  ∧ is_ok ServerDemo.revocation.1 = true.
Proof. split_and!; by_vm. Qed.

Lemma radius_duplicate_answered_witness :
  ∃ response, @packet_response Demo.env ServerDemo.good 3 ServerDemo.secret (failure ServerDemo.good) = Ok response
    ∧ (ServerDemo.claim ServerDemo.good ServerDemo.disabled).1 = Ok (CachedClaim (Some response)).
Proof.
  destruct (ServerDemo.claim ServerDemo.good ServerDemo.disabled) as [[c|e] s'] eqn:Hrun;
    [|apply (f_equal (λ r, is_ok r.1)) in Hrun; vm_compute in Hrun; discriminate].
  destruct (@radius_duplicate_answered Demo.env "crm" "req" ServerDemo.good ServerDemo.secret
    ServerDemo.cached ServerDemo.disabled c s') as [(-> & -> & _)|(response & Hr & -> & _)].
  - by_vm.
  - vm_compute. reflexivity.
  - exact Hrun.
  - exfalso. apply (f_equal (λ r, (r.2.(St.db) !! ("sessions", "id-1"), r.2.(St.db) !! (REQUESTS, "req")))) in Hrun.
    vm_compute in Hrun. discriminate.
  - exists response. split; [exact Hr|reflexivity].
Defined.

Lemma radius_request_once_witness : CachedClaim (Some (ServerDemo.bytes ServerDemo.rejected)) ≠ NewClaim.
Proof.
  apply (@radius_request_once Demo.env "crm" "req" ServerDemo.good ServerDemo.secret
    ServerDemo.start ServerDemo.claimed ServerDemo.refused.2 "crm" ServerDemo.good ServerDemo.secret _
    (ServerDemo.claim ServerDemo.good ServerDemo.refused.2).2).
  - vm_compute. discriminate.
  - vm_compute. discriminate.
  - by_vm.
  - apply rtc_once. apply (@rstep_pap Demo.env "wifi" "ap-1" "crm" "req" ServerDemo.good
      ServerDemo.secret None _ (Some (ServerDemo.bytes ServerDemo.rejected), false)). by_vm.
  - vm_compute. reflexivity.
  - by_vm.
Defined.

Lemma radius_pap_sound_witness :
  ∃ name password, @pap_credentials Demo.env ServerDemo.good ServerDemo.secret = Ok (name, password).
Proof.
  destruct (@radius_pap_sound Demo.env SessionsDemo.lease SamlDemo.peers "wifi" "ap-1" ServerDemo.nas "req" ServerDemo.good
    ServerDemo.secret ServerDemo.claimed (ServerDemo.bytes ServerDemo.accepted.1) ServerDemo.accepted.2)
    as [(name & password & mfa & v & s1 & token & client & settings & u & x & user & attrs & Hc & _)|Hr].
  - refine (ran_value ServerDemo.accepted _ _). by_vm.
  - exists name, password. exact Hc.
  - exfalso. vm_compute in Hr. discriminate.
Defined.

Lemma eap_identity_bounded_witness :
  ∃ x, ServerDemo.proven.2.(St.db) !! ("sessions", "id-0") = Some (RSession x) ∧ x.(Session.expires_at) ≤ 1180.
Proof.
  destruct (@eap_identity_bounded Demo.env ServerDemo.client "wifi" "profile" ServerDemo.key
    ServerDemo.start ServerDemo.identity ServerDemo.proven.2)
    as (current & settings & cert & user & x & _ & _ & _ & _ & _ & _ & _ & _ & _ & _ & Hx & _ & He & _).
  - vm_compute. discriminate.
  - vm_compute. discriminate.
  - refine (ran_value ServerDemo.proven _ _). by_vm.
  - exists x. split; [exact Hx|exact He].
Defined.

(** The session of the revoked certificate is refused. *)
Lemma certificate_revocation_immediate_witness :
  is_ok (@radius_identity Demo.env ServerDemo.client ServerDemo.identity ServerDemo.revocation.2).1 = false.
Proof.
  destruct (@certificate_revocation_immediate Demo.env SessionsDemo.lease "root" "cert-1" ServerDemo.proven.2
    (ServerDemo.reply ServerDemo.revocation.1) ServerDemo.revocation.2)
    as (key & cert & user & actor & Hid & Hcert & _ & _ & _ & _ & _ & _ & Hno).
  - ran ServerDemo.reply ServerDemo.revocation.
  - assert (Hk : ServerDemo.proven.2.(St.db) !! (CERTIFICATE_IDS, "cert-1") = Some (RString ServerDemo.key)) by by_vm.
    apply (Hno _ _ (EapIdentityBinding.mk ServerDemo.key "cert-1" "wifi" "profile" 1180)).
    + reflexivity.
    + apply list_elem_of_here.
    + by_vm.
    + pose proof (eq_trans (eq_sym Hk) Hid) as Hkey. injection Hkey as Hkey. exact Hkey.
Defined.
