(* ===== verification/Groups.v ===== *)
(** * Groups (src/src/management.rs, store/maintenance.rs, core.rs)

    The one writer of group memberships and the index it keeps.  Every adapter
    states an intent; the writer reads the group, rechecks the right at the write,
    and refuses to change the members of a privileged group, which only a reviewed
    change may do.  The record and the index of each user's groups change in the
    same transaction, so that the groups a sign-in sees are the groups whose
    records list the user. *)

From S2P Require Import Prelude Json Model Store Env Provider Jose Delegation Agents Redaction Identities Management Exposure.

#[local] Set Warnings "-clear-no-such-hyp".

(** ** The index (store/maintenance.rs) *)

Definition GROUP_DN_FOLDS : string := "index_group_dn_folds".
Definition GROUP_BINDINGS : string := "index_group_bindings".
Definition GROUP_SOURCE_DIGESTS : string := "index_group_source_digests".
Definition GROUP_MEMBERS : string := "index_group_members".
Definition GROUP_MEMBER_OVERFLOW : string := "index_group_member_overflow".
Definition INLINE_GROUP_MEMBER_BYTES : nat := 256.

Section index.
Context {E : Env}.

Definition group_json (g : Group.t) : json :=
  Json.obj [("name", JStr g.(Group.name)); ("members", JArr (JStr <$> btree_iter g.(Group.members)))].
(** [group_source_digest]. *)
Definition group_source_digest (g : Group.t) : string := digest (json_string (group_json g)).

(** Whether a version of the record lists the member under the same name. *)
Definition lists (g : option Group.t) (name user : string) : bool :=
  match g with
  | Some g => String.eqb g.(Group.name) name && bool_decide (user ∈ g.(Group.members))
  | None => false
  end.
Definition unlist_member (key user : string) : tx unit :=
  _ ← remove (user_groups_bucket user) key;
  _ ← remove (GROUP_MEMBERS +:+ "/" +:+ key) (digest user);
  remove (GROUP_MEMBER_OVERFLOW +:+ "/" +:+ key) (digest user).
Definition list_member (key name user : string) : tx unit :=
  _ ← put (user_groups_bucket user) key name;
  if (String.length user <=? INLINE_GROUP_MEMBER_BYTES)%nat
  then put (GROUP_MEMBERS +:+ "/" +:+ key) (digest user) (Some user)
  else
    _ ← put (GROUP_MEMBERS +:+ "/" +:+ key) (digest user) (None : option string);
    put (GROUP_MEMBER_OVERFLOW +:+ "/" +:+ key) (digest user) user.
Definition update_group_index (id : string) (before after : option Group.t) : tx unit :=
  _ ← match after, before with
      | Some g, _ => put GROUP_BINDINGS id (GroupBinding.mk g.(Group.name) (group_source_digest g))
      | None, Some _ => _ ← remove GROUP_BINDINGS id; remove GROUP_SOURCE_DIGESTS id
      | None, None => mret ()
      end;
  let fold_bucket := GROUP_DN_FOLDS +:+ "/" +:+ digest (Redaction.to_ascii_lowercase id) in
  _ ← match before, after with
      | None, Some _ => put fold_bucket id true
      | Some _, None => remove fold_bucket id
      | _, _ => mret ()
      end;
  let key := digest id in
  _ ← match before with
      | Some old =>
          for_each (λ user, if lists after old.(Group.name) user then mret () else unlist_member key user)
            (btree_iter old.(Group.members))
      | None => mret ()
      end;
  match after with
  | Some new =>
      for_each (λ user, if lists before new.(Group.name) user then mret () else list_member key new.(Group.name) user)
        (btree_iter new.(Group.members))
  | None => mret ()
  end.
(** [Tx::put] of a group: the index, the record, and the digest LDAP compares. *)
Definition put_group (id : string) (g : Group.t) : tx unit :=
  before ← get Group.t "groups" id;
  _ ← update_group_index id before (Some g);
  _ ← remove GROUP_SOURCE_DIGESTS id;
  _ ← put "groups" id g;
  put GROUP_SOURCE_DIGESTS id (group_source_digest g).
(** [Tx::group_binding]. *)
Definition group_binding (name : string) : tx bool :=
  binding ← get GroupBinding.t GROUP_BINDINGS name;
  source ← get string GROUP_SOURCE_DIGESTS name;
  match binding, source with
  | None, None => mret false
  | Some b, Some d =>
      if String.eqb b.(GroupBinding.name) name && String.eqb b.(GroupBinding.source_digest) d
      then mret true else fail Error.internal
  | _, _ => fail Error.internal
  end.
End index.

(** ** The writer (management.rs) *)

Inductive GroupIntent :=
| CreateGroup (members : gset string)
| ReplaceMembers (members : gset string)
| MemberIntent (user_id : string) (present : bool)
| DirectoryMember (user_id : string) (present : bool) (scope : string)
| OffboardMember (user_id username : string).
Inductive GroupAudit :=
| OnChange (action target : string)
| ScopedAudit (action target scope : string)
| DeferredAudit.
Module GroupWrite.
Record t := mk { group : Group.t; changed : bool }.
End GroupWrite.
(** [BTreeSet::insert] and [remove] of one member. *)
Definition set_member (g : Group.t) (user_id : string) (present : bool) : Group.t :=
  Group.mk g.(Group.name)
    (if present then g.(Group.members) ∪ {[user_id]} else g.(Group.members) ∖ {[user_id]}).

Section writer.
Context {E : Env}.

Definition requires_membership_review (name : string) : bool :=
  bool_decide (name ∈ config.(Config.reviewed_membership_groups))
  || bool_decide (is_Some (config.(Config.pam_approvers) !! name)).
Definition require_group_review (name : string) (reviewed : bool) : Result unit :=
  if negb reviewed && requires_membership_review name
  then Err (Error.conflict "Privileged group membership requires a reviewed membership change")
  else Ok ().

(** Who holds a membership that was reviewed. *)
Definition release_holder (name member : string) : tx unit :=
  groups ← get (gset string) MEMBERSHIP_HOLDERS member;
  let groups := default ∅ groups in
  if bool_decide (name ∈ groups) then
    let groups := groups ∖ {[name]} in
    if bool_decide (groups = ∅) then remove MEMBERSHIP_HOLDERS member
    else put MEMBERSHIP_HOLDERS member groups
  else mret ().
Definition hold_membership (name member : string) : tx unit :=
  groups ← get (gset string) MEMBERSHIP_HOLDERS member;
  let groups := default ∅ groups ∪ {[name]} in
  _ ← ensure (negb (128 <? size groups)%nat)
        (Error.conflict "A person may hold at most 128 reviewed group memberships");
  put MEMBERSHIP_HOLDERS member groups.
Definition persist_group (group : Group.t) (reviewed : bool) : tx unit :=
  before ← get Group.t "groups" group.(Group.name);
  let before := default ∅ (Group.members <$> before) in
  _ ← for_each (release_holder group.(Group.name)) (btree_iter (before ∖ group.(Group.members)));
  _ ← (if reviewed then for_each (hold_membership group.(Group.name)) (btree_iter group.(Group.members))
       else mret ());
  put_group group.(Group.name) group.

Definition existing_group (name : string) : tx Group.t :=
  group ← get Group.t "groups" name;
  group ← some_or group (Error.missing "Group not found");
  _ ← ensure (String.eqb group.(Group.name) name) (Error.conflict "Group identity does not match its key");
  mret group.
Definition validate_group_member (user_id : string) : tx unit :=
  user ← get User.t "users" user_id;
  _ ← some_or user (Error.bad "Group references unknown user");
  mret ().
Definition validate_group_members (members : gset string) : tx unit :=
  for_each validate_group_member (btree_iter members).

(** [delegation::audit_scoped]. *)
Definition audit_scoped (actor : Principal.t) (action target scope : string) : tx unit :=
  if actor.(Principal.delegated) then audit_for actor action target scope
  else audit actor.(Principal.id) action target.
Definition audit_group (actor : Principal.t) (record : GroupAudit) : tx unit :=
  match record with
  | OnChange action target => audit actor.(Principal.id) action target
  | ScopedAudit action target scope => audit_scoped actor action target scope
  | DeferredAudit => mret ()
  end.

(** Store the group if it changed. *)
Definition save_group (actor : Principal.t) (name : string) (review : option bool) (record : GroupAudit)
    (group : Group.t) (changed : bool) : tx GroupWrite.t :=
  _ ← (if changed then
         _ ← match review with Some reviewed => lift (require_group_review name reviewed) | None => mret () end;
         _ ← persist_group group (default false review);
         audit_group actor record
       else mret ());
  mret (GroupWrite.mk group changed).
(** One member joins or leaves, once the actor's right was checked. *)
Definition change_member (actor : Principal.t) (name user_id : string) (present : bool) (record : GroupAudit)
    (reviewed : bool) : tx GroupWrite.t :=
  _ ← lift (validate_name name);
  group ← existing_group name;
  _ ← (if present then validate_group_member user_id else mret ());
  save_group actor name (Some reviewed) record (set_member group user_id present)
    (xorb present (bool_decide (user_id ∈ group.(Group.members)))).

Definition write_group_inner (actor : Principal.t) (name : string) (intent : GroupIntent) (record : GroupAudit)
    (reviewed : bool) : tx GroupWrite.t :=
  let resource := "group/" +:+ name in
  match intent with
  | CreateGroup members =>
      _ ← lift (Principal.require actor "group.write" resource);
      _ ← (if bool_decide (members = ∅) then mret ()
           else lift (Principal.require actor "group.members" resource));
      _ ← lift (validate_name name);
      old ← get Group.t "groups" name;
      _ ← ensure (bool_decide (old = None)) (Error.conflict "Group already exists");
      _ ← validate_group_members members;
      _ ← (if bool_decide (members = ∅) then mret () else lift (require_group_review name reviewed));
      let group := Group.mk name members in
      _ ← persist_group group reviewed;
      _ ← audit_group actor record;
      mret (GroupWrite.mk group true)
  | ReplaceMembers members =>
      _ ← lift (Principal.require actor "group.members" resource);
      _ ← lift (validate_name name);
      group ← existing_group name;
      _ ← validate_group_members members;
      save_group actor name (Some reviewed) record (Group.mk group.(Group.name) members)
        (bool_decide (group.(Group.members) ≠ members))
  | MemberIntent user_id present =>
      _ ← lift (Principal.require actor "group.members" resource);
      change_member actor name user_id present record reviewed
  | DirectoryMember user_id present scope =>
      _ ← lift (Principal.require_directory_group actor scope name);
      change_member actor name user_id present record reviewed
  | OffboardMember user_id username =>
      _ ← lift (Principal.require actor "user.write" ("user/" +:+ username));
      _ ← lift (validate_name username);
      user ← get User.t "users" user_id;
      user ← some_or user (Error.missing "User not found");
      _ ← ensure (String.eqb user.(User.id) user_id && String.eqb user.(User.username) username
                  && negb user.(User.enabled)) (Error.conflict "Offboarded user identity does not match");
      _ ← lift (validate_name name);
      group ← existing_group name;
      if Principal.allows actor "group.members" resource then
        save_group actor name None record (set_member group user_id false)
          (bool_decide (user_id ∈ group.(Group.members)))
      else mret (GroupWrite.mk group false)
  end.
Definition write_group (actor : Principal.t) (name : string) (intent : GroupIntent) (record : GroupAudit) :
    tx GroupWrite.t :=
  write_group_inner actor name intent record false.

(** [write_source_memberships]: what an upstream sign-in may populate. *)
Definition join_source_group (user_id name : string) : tx unit :=
  group ← get Group.t "groups" name;
  group ← some_or group (Error.bad "Source group was removed");
  _ ← ensure (String.eqb group.(Group.name) name) (Error.conflict "Group identity does not match its key");
  if bool_decide (user_id ∈ group.(Group.members)) then mret ()
  else
    _ ← lift (require_group_review name false);
    persist_group (set_member group user_id true) false.
Definition write_source_memberships (groups : gset string) (user_id : string) : tx unit :=
  for_each (join_source_group user_id) (btree_iter groups).

(** [write_scim_group]. *)
Inductive ScimGroupIntent :=
| ScimCreate (members : gset string)
| ScimUpdate (members : option (gset string)) (metadata_changed : bool)
| ScimDelete (members : gset string).
Definition write_scim_group (actor : Principal.t) (name : string) (intent : ScimGroupIntent) : tx unit :=
  let resource := "group/" +:+ name in
  _ ← lift (Principal.require actor "group.write" resource);
  _ ← lift (Principal.require actor "group.members" resource);
  action ← match intent with
           | ScimCreate members =>
               _ ← write_group actor name (CreateGroup members) DeferredAudit; mret (Some "group.scim")
           | ScimUpdate members metadata_changed =>
               changed ← match members with
                         | Some members =>
                             w ← write_group actor name (ReplaceMembers members) DeferredAudit;
                             mret w.(GroupWrite.changed)
                         | None => _ ← existing_group name; mret false
                         end;
               mret (if metadata_changed || changed then Some "group.scim" else None)
           | ScimDelete members =>
               _ ← write_group actor name (ReplaceMembers members) DeferredAudit; mret (Some "group.scim_delete")
           end;
  match action with
  | Some action => audit_scoped actor action name resource
  | None => mret ()
  end.
End writer.

(** ** The requests (core.rs) *)

Section requests.
Context {E : Env} {L : ApplyLease}.

Definition require_group_retry_binding : tx unit :=
  context ← current;
  match context with
  | Some c =>
      ensure (negb (bool_decide (c.(RequestContext.idempotency_key) = None)
                    || bool_decide (c.(RequestContext.revision) = None)))
        (Error.new 428 "precondition_required" "Group writes require Idempotency-Key and If-Match")
  | None => mret ()
  end.
Definition create_group_in (token name : string) : tx json :=
  actor ← management token "group.write" ("group/" +:+ name);
  w ← write_group actor name (CreateGroup ∅) (OnChange "group.create" name);
  mret (group_json w.(GroupWrite.group)).
Definition create_group (token name : string) : tx json :=
  _ ← require_group_retry_binding;
  write (mutation token (create_group_in token name)).
Definition group_member_in (token name username : string) (add : bool) : tx json :=
  actor ← management token "group.members" ("group/" +:+ name);
  user ← Human.user_by_name username;
  w ← write_group actor name (MemberIntent user.(User.id) add)
        (OnChange (if add then "group.member.add" else "group.member.remove") (name +:+ "/" +:+ user.(User.id)));
  mret (group_json w.(GroupWrite.group)).
Definition group_member (token name username : string) (add : bool) : tx json :=
  _ ← require_group_retry_binding;
  write (mutation token (group_member_in token name username add)).

(** The loop of [list_groups]. *)
Definition readable_groups (actor : Principal.t) (page : list (string * Group.t)) : list json :=
  group_json <$> List.filter (λ g, Principal.allows actor "group.read" ("group/" +:+ g.(Group.name))) page.*2.
Fixpoint list_group_pages (fuel : nat) (actor : Principal.t) (after : option string) (groups : list json) :
    tx (list json) :=
  match fuel with
  | O => mret groups
  | S fuel =>
      page ← scan Group.t "groups" after PAGE;
      match last page with
      | None => mret groups
      | Some (key, _) =>
          let groups := groups ++ readable_groups actor page in
          if Nat.eqb (length page) PAGE then list_group_pages fuel actor (Some key) groups
          else mret groups
      end
  end.
(** The rows of the bucket bound the number of pages. *)
Definition all_groups (actor : Principal.t) : tx (list json) := λ s,
  list_group_pages (S (length (bucket_rows "groups" s.(St.db)))) actor None [] s.
Definition list_groups (token : string) : tx json :=
  actor ← principal token;
  l ← all_groups actor;
  mret (JArr l).
End requests.

(** ** Frames

    [Writes bs m]: like [Touches], for a transaction that also keeps the indexes. *)

Definition is_index (b : string) : bool := Str.starts_with b "index_".
Class Writes {A} (bs : list string) (m : tx A) : Prop := writes s :
  (m s).2.(St.clock) = s.(St.clock) ∧ (m s).2.(St.ctx) = s.(St.ctx)
  ∧ (s.(St.rng) ≤ (m s).2.(St.rng))%nat
  ∧ ∀ b k, is_index b = false → b ∉ bs → (m s).2.(St.db) !! (b, k) = s.(St.db) !! (b, k).

Section frames.
Context {E : Env} {L : ApplyLease}.

Lemma touches_writes {A} bs (m : tx A) : Touches bs m → Writes bs m.
Proof. intros Hm s. destruct (Hm s) as (? & ? & ? & ?). split_and!; eauto. Qed.
Lemma writes_mono {A} bs bs' (m : tx A) : bs ⊆ bs' → Writes bs m → Writes bs' m.
Proof. intros Hbs Hm s. destruct (Hm s) as (? & ? & ? & Hf). split_and!; try done. intros b k Hi Hb. apply Hf; [done|set_solver]. Qed.
Lemma writes_bind {A B} bs (m : tx A) (f : A → tx B) :
  Writes bs m → (∀ a, Writes bs (f a)) → Writes bs (mbind f m).
Proof.
  intros Hm Hf s. unfold mbind, tx_bind. destruct (Hm s) as (H1 & H2 & H3 & H4).
  destruct (m s) as [[a|e] s1] eqn:E1; simpl in *; [|by split_and!].
  destruct (Hf a s1) as (F1 & F2 & F3 & F4). split_and!; [congruence..|lia|].
  intros b k Hi Hb. rewrite F4, H4 by done. done.
Qed.
Lemma writes_for_each {A} bs (f : A → tx unit) l : (∀ a, Writes bs (f a)) → Writes bs (for_each f l).
Proof.
  intros Hf. induction l as [|a l IH]; simpl; [apply touches_writes, pure_touches, _|].
  apply writes_bind; [done|]. intros []. apply IH.
Qed.
Lemma writes_index_put {T} `{Row T} bs b k (r : T) : is_index b = true → Writes bs (put b k r).
Proof.
  intros Hb s. unfold put. simpl. split_and!; try done. intros b' k' Hi _.
  apply lookup_insert_ne. congruence.
Qed.
Lemma writes_index_remove bs b k : is_index b = true → Writes bs (remove b k).
Proof.
  intros Hb s. unfold remove. simpl. split_and!; try done. intros b' k' Hi _.
  apply lookup_delete_ne. congruence.
Qed.
Lemma writes_run {A} bs (m : tx A) `{!Writes bs m} s r s' :
  m s = (r, s') →
  s'.(St.clock) = s.(St.clock) ∧ s'.(St.ctx) = s.(St.ctx) ∧ (s.(St.rng) ≤ s'.(St.rng))%nat
  ∧ ∀ b k, is_index b = false → b ∉ bs → s'.(St.db) !! (b, k) = s.(St.db) !! (b, k).
Proof. intros Hrun. pose proof (writes (m:=m) s) as Hw. by rewrite Hrun in Hw. Qed.
End frames.

Create HintDb writes discriminated.
Ltac solve_writes_step :=
  first
    [ progress intros
    | solve [eauto with writes nocore]
    | solve [eapply writes_mono; [|solve [eauto with writes nocore]]; set_solver]
    | solve [apply writes_index_put; reflexivity]
    | solve [apply writes_index_remove; reflexivity]
    | solve [apply touches_writes; solve_touches]
    | apply writes_bind
    | apply writes_for_each
    | case_match ].
Ltac solve_writes := repeat solve_writes_step.

Section group_frames.
Context {E : Env} {L : ApplyLease}.

Lemma writes_update_index bs id b a : Writes bs (update_group_index id b a).
Proof. unfold update_group_index, unlist_member, list_member. cbv zeta. solve_writes. Qed.
#[local] Hint Resolve writes_update_index : writes.
Lemma writes_put_group id g : Writes ["groups"] (put_group id g).
Proof. unfold put_group. solve_writes. Qed.
#[local] Hint Resolve writes_put_group : writes.
Lemma writes_persist g r : Writes ["groups"; MEMBERSHIP_HOLDERS] (persist_group g r).
Proof. unfold persist_group, release_holder, hold_membership. cbv zeta. solve_writes. Qed.

Lemma put_group_rows id g s s' :
  put_group id g s = (Ok (), s') →
  s'.(St.db) !! ("groups", id) = Some (RGroup g)
  ∧ ∀ k, k ≠ id → s'.(St.db) !! ("groups", k) = s.(St.db) !! ("groups", k).
Proof.
  unfold put_group. intros Hrun. apply bind_ok in Hrun as (before & s1 & [-> _]%get_ok & Hrun).
  apply bind_ok in Hrun as ([] & s1 & Hi & Hrun). pose proof (writes_update_index [] id before (Some g)) as Hw.
  destruct (writes_run [] _ _ _ _ Hi) as (_ & _ & _ & Hf).
  apply bind_ok in Hrun as ([] & s2 & ->%remove_ok & Hrun). apply bind_ok in Hrun as ([] & s2 & ->%put_ok & ->%put_ok).
  cbn [St.db St.set_db]. split.
  - rewrite lookup_insert_ne by done. apply lookup_insert_eq.
  - intros k Hk. rewrite !lookup_insert_ne by congruence. rewrite lookup_delete_ne by done. apply Hf; [done|set_solver].
Qed.
End group_frames.
#[export] Hint Resolve writes_update_index writes_put_group writes_persist : writes.

(** ** The index is exact *)

Section exact.
Context {E : Env} {L : ApplyLease}.
(** The user ids and group names in play, on which the digest has no collision. *)
Variable D : string → Prop.
Hypothesis collision_free : ∀ a b, D a → D b → digest a = digest b → a = b.
Implicit Types (s : St.t) (g : Group.t) (u k : string).

(** Each group record is stored under its name, and the index of each user's
    groups lists exactly the records that list the user. *)
Record index_exact s : Prop := {
  ie_groups : ∀ id w, s.(St.db) !! ("groups", id) = Some w →
    ∃ g, w = RGroup g ∧ g.(Group.name) = id ∧ D id ∧ ∀ u, u ∈ g.(Group.members) → D u;
  ie_rows : ∀ u k w, D u →
    s.(St.db) !! (user_groups_bucket u, k) = Some w ↔
    ∃ id g, k = digest id ∧ s.(St.db) !! ("groups", id) = Some (RGroup g) ∧ u ∈ g.(Group.members) ∧ w = RString id;
}.

Lemma user_groups_bucket_inj u v : D u → D v → user_groups_bucket u = user_groups_bucket v → u = v.
Proof. intros Hu Hv [= H]. by apply collision_free. Qed.
Lemma user_groups_index u : is_index (user_groups_bucket u) = true.
Proof. done. Qed.

(** One pass over members sets the index rows of those that [c] does not keep. *)
Lemma index_pass (f : string → tx unit) (c : string → bool) key (x : option row) l s s' :
  (∀ v s1 s2, D v → f v s1 = (Ok (), s2) → ∀ u k, D u →
     s2.(St.db) !! (user_groups_bucket u, k) =
       if decide (k = key ∧ u = v ∧ c v = false) then x else s1.(St.db) !! (user_groups_bucket u, k)) →
  (∀ v, v ∈ l → D v) → for_each f l s = (Ok (), s') →
  ∀ u k, D u → s'.(St.db) !! (user_groups_bucket u, k) =
    if decide (k = key ∧ u ∈ l ∧ c u = false) then x else s.(St.db) !! (user_groups_bucket u, k).
Proof.
  intros Hf. revert s. induction l as [|v l IH]; intros s Hl Hrun u k Hu; simpl in Hrun.
  - apply ret_ok in Hrun as [_ ->]. rewrite decide_False by set_solver. done.
  - apply bind_ok in Hrun as ([] & s1 & H1 & Hrun). rewrite (IH _ (λ v Hv, Hl v (list_elem_of_further _ _ _ Hv)) Hrun u k Hu).
    rewrite (Hf _ _ _ (Hl v (list_elem_of_here _ _)) H1 u k Hu).
    repeat case_decide; try done; exfalso; set_solver.
Qed.

Lemma unlist_pass after name key l s s' :
  (∀ v, v ∈ l → D v) →
  for_each (λ user, if lists after name user then mret () else unlist_member key user) l s = (Ok (), s') →
  ∀ u k, D u → s'.(St.db) !! (user_groups_bucket u, k) =
    if decide (k = key ∧ u ∈ l ∧ lists after name u = false) then None else s.(St.db) !! (user_groups_bucket u, k).
Proof.
  apply index_pass. intros v s1 s2 Hv Hrun u k Hu. destruct (lists after name v) eqn:Hc.
  - apply ret_ok in Hrun as [_ ->]. rewrite decide_False by naive_solver. done.
  - unfold unlist_member in Hrun. apply bind_ok in Hrun as ([] & s3 & ->%remove_ok & Hrun).
    apply bind_ok in Hrun as ([] & s3 & ->%remove_ok & ->%remove_ok). cbn [St.db St.set_db].
    rewrite !(lookup_delete_ne _ (_, digest v)) by done. case_decide as Hd.
    + destruct Hd as (-> & -> & _). apply lookup_delete_eq.
    + apply lookup_delete_ne. intros [= Hb <-]. apply Hd. split_and!; [done| |done].
      symmetry. by apply collision_free.
Qed.
Lemma list_pass before name key l s s' :
  (∀ v, v ∈ l → D v) →
  for_each (λ user, if lists before name user then mret () else list_member key name user) l s = (Ok (), s') →
  ∀ u k, D u → s'.(St.db) !! (user_groups_bucket u, k) =
    if decide (k = key ∧ u ∈ l ∧ lists before name u = false) then Some (RString name)
    else s.(St.db) !! (user_groups_bucket u, k).
Proof.
  apply index_pass. intros v s1 s2 Hv Hrun u k Hu. destruct (lists before name v) eqn:Hc.
  - apply ret_ok in Hrun as [_ ->]. rewrite decide_False by naive_solver. done.
  - unfold list_member in Hrun. apply bind_ok in Hrun as ([] & s3 & ->%put_ok & Hrun).
    assert (H2 : s2.(St.db) !! (user_groups_bucket u, k)
      = <[(user_groups_bucket v, key) := RString name]> s1.(St.db) !! (user_groups_bucket u, k)).
    { case_match.
      - apply put_ok in Hrun as ->. cbn [St.db St.set_db]. by rewrite lookup_insert_ne by done.
      - apply bind_ok in Hrun as ([] & s3 & ->%put_ok & ->%put_ok). cbn [St.db St.set_db].
        by rewrite !(lookup_insert_ne _ (_, digest v)) by done. }
    rewrite H2. case_decide as Hd.
    + destruct Hd as (-> & -> & _). apply lookup_insert_eq.
    + apply lookup_insert_ne. intros [= Hb <-]. apply Hd. split_and!; [done| |done].
      symmetry. by apply collision_free.
Qed.

Lemma put_group_index id g s s' u k :
  index_exact s → D id → g.(Group.name) = id → (∀ v, v ∈ g.(Group.members) → D v) → D u →
  put_group id g s = (Ok (), s') →
  s'.(St.db) !! (user_groups_bucket u, k) =
    if decide (k = digest id) then if decide (u ∈ g.(Group.members)) then Some (RString id) else None
    else s.(St.db) !! (user_groups_bucket u, k).
Proof.
  intros [Hg Hr] Hid Hname Hmem Hu Hrun. unfold put_group in Hrun.
  apply bind_ok in Hrun as (before & s1 & [-> Hb]%get_ok & Hrun). apply bind_ok in Hrun as ([] & s1 & Hi & Hrun).
  apply bind_ok in Hrun as ([] & s2 & ->%remove_ok & Hrun). apply bind_ok in Hrun as ([] & s2 & ->%put_ok & ->%put_ok).
  cbn [St.db St.set_db]. rewrite !lookup_insert_ne by done. rewrite lookup_delete_ne by done.
  unfold update_group_index in Hi. cbv zeta in Hi. apply bind_ok in Hi as ([] & s2 & ->%put_ok & Hi).
  apply bind_ok in Hi as ([] & s3 & H3 & Hi). apply bind_ok in Hi as ([] & s4 & H4 & Hi).
  rewrite Hname in Hi. rewrite (list_pass _ _ _ _ _ _ (λ v Hv, Hmem v (proj1 (elem_of_btree_iter _ _) Hv)) Hi u k Hu).
  assert (H3' : s3.(St.db) !! (user_groups_bucket u, k) = s.(St.db) !! (user_groups_bucket u, k)).
  { destruct before; [apply ret_ok in H3 as [_ ->]|apply put_ok in H3 as ->]; cbn [St.db St.set_db];
      rewrite ?lookup_insert_ne by done; done. }
  set (held := default ∅ (Group.members <$> before)).
  assert (Hb' : ∀ o, before = Some o → o.(Group.name) = id ∧ ∀ v, v ∈ o.(Group.members) → D v).
  { intros o ->. destruct (Hg id (RGroup o) Hb) as (? & [= <-] & Ho & _ & Hom). done. }
  assert (Hl : lists before id u = bool_decide (u ∈ held)).
  { unfold held. destruct before as [o|]; [|done]. simpl. by rewrite (proj1 (Hb' o eq_refl)), String.eqb_refl. }
  assert (Hrow : s.(St.db) !! (user_groups_bucket u, digest id) = if decide (u ∈ held) then Some (RString id) else None).
  { unfold held. destruct (s.(St.db) !! (user_groups_bucket u, digest id)) as [w|] eqn:Hw.
    - apply Hr in Hw as (id' & g' & Hd & Hg' & Hin & ->); [|done].
      destruct (Hg _ _ Hg') as (? & [= <-] & _ & Hid' & _).
      assert (id' = id) as -> by (symmetry; by apply collision_free). rewrite Hg' in Hb.
      destruct before as [o|]; [|done]. injection Hb as ->. by rewrite decide_True.
    - destruct before as [o|]; simpl; [|by rewrite decide_False by set_solver].
      destruct (decide (u ∈ o.(Group.members))) as [Hin|]; [|done].
      assert (Hw' : s.(St.db) !! (user_groups_bucket u, digest id) = Some (RString id)).
      { apply Hr; [done|]. by exists id, o. }
      congruence. }
  assert (H4' : s4.(St.db) !! (user_groups_bucket u, k) =
    if decide (k = digest id ∧ u ∈ held ∧ u ∉ g.(Group.members)) then None else s.(St.db) !! (user_groups_bucket u, k)).
  { unfold held. destruct before as [o|]; simpl.
    - destruct (Hb' o eq_refl) as [Ho Hom].
      rewrite (unlist_pass _ _ _ _ _ _ (λ v Hv, Hom v (proj1 (elem_of_btree_iter _ _) Hv)) H4 u k Hu), H3'.
      apply decide_ext. rewrite elem_of_btree_iter. unfold lists. rewrite Hname, Ho, String.eqb_refl.
      cbn [andb]. rewrite bool_decide_eq_false. tauto.
    - apply ret_ok in H4 as [_ ->]. rewrite H3', decide_False by set_solver. done. }
  rewrite H4'. clear H4'. destruct (decide (k = digest id)) as [->|Hk]; [rewrite Hrow|]; clear Hrow;
    repeat case_decide; rewrite ?elem_of_btree_iter, ?Hl, ?bool_decide_eq_false in *; tauto.
Qed.
Lemma put_group_exact id g s s' :
  index_exact s → D id → g.(Group.name) = id → (∀ v, v ∈ g.(Group.members) → D v) →
  put_group id g s = (Ok (), s') → index_exact s'.
Proof.
  intros Hs Hid Hname Hmem Hrun. destruct (put_group_rows _ _ _ _ Hrun) as [Hrow Hother]. split.
  - intros id' w Hw. destruct (decide (id' = id)) as [->|Hne].
    + rewrite Hrow in Hw. injection Hw as <-. by exists g.
    + rewrite Hother in Hw by done. by apply (ie_groups _ Hs).
  - intros u k w Hu. rewrite (put_group_index _ _ _ _ u k Hs Hid Hname Hmem Hu Hrun).
    destruct (decide (k = digest id)) as [->|Hk].
    + split.
      * case_decide; [|done]. intros [= <-]. by exists id, g.
      * intros (id' & g' & Hd & Hg' & Hin & ->). destruct (decide (id' = id)) as [->|Hne].
        -- rewrite Hrow in Hg'. injection Hg' as <-. by rewrite decide_True.
        -- rewrite Hother in Hg' by done. destruct (ie_groups _ Hs _ _ Hg') as (_ & _ & _ & Hid' & _).
           destruct Hne. by apply collision_free.
    + rewrite (ie_rows _ Hs) by done. split; intros (id' & g' & -> & Hg' & Hin & ->); exists id', g'; split_and!; try done.
      * by rewrite Hother by congruence.
      * by rewrite Hother in Hg' by congruence.
Qed.
End exact.

(** ** What a write does *)

Section written.
Context {E : Env} {L : ApplyLease}.
Implicit Types (s : St.t) (g : Group.t).

Lemma existing_group_ok name s g s' :
  existing_group name s = (Ok g, s') →
  s' = s ∧ s.(St.db) !! ("groups", name) = Some (RGroup g) ∧ g.(Group.name) = name.
Proof.
  unfold existing_group. intros Hrun. apply bind_ok in Hrun as (o & s1 & [-> Ho]%get_ok & Hrun).
  apply bind_ok in Hrun as (g1 & s1 & [-> ->]%some_or_ok & Hrun).
  by apply bind_ok in Hrun as ([] & s1 & [Hn%String.eqb_eq ->]%ensure_ok & [-> ->]%ret_ok).
Qed.
Lemma validate_member_ok u s x s' :
  validate_group_member u s = (Ok x, s') → s' = s ∧ is_Some (s.(St.db) !! ("users", u)).
Proof.
  unfold validate_group_member. intros Hrun. apply bind_ok in Hrun as (o & s1 & [-> Ho]%get_ok & Hrun).
  apply bind_ok in Hrun as (v & s1 & [-> ->]%some_or_ok & [_ ->]%ret_ok). split; [done|]. rewrite Ho. by eexists.
Qed.
Lemma validate_members_ok members s x s' :
  validate_group_members members s = (Ok x, s') →
  s' = s ∧ ∀ u, u ∈ members → is_Some (s.(St.db) !! ("users", u)).
Proof.
  unfold validate_group_members. intros Hrun.
  assert (H : s' = s ∧ ∀ u, u ∈ btree_iter members → is_Some (s.(St.db) !! ("users", u))).
  { revert s Hrun. induction (btree_iter members) as [|v l IH]; intros s Hrun; simpl in Hrun.
    - apply ret_ok in Hrun as [_ ->]. split; [done|set_solver].
    - apply bind_ok in Hrun as ([] & s1 & [-> Hv]%validate_member_ok & Hrun). apply IH in Hrun as [-> Hl].
      split; [done|]. intros u [->|Hu]%elem_of_cons; auto. }
  destruct H as [-> Hl]. split; [done|]. intros u Hu. apply Hl. by apply elem_of_btree_iter.
Qed.

(** The outcome of a write: nothing happened, or a group was stored. *)
Inductive outcome (review : option bool) (actor : Principal.t) (name : string) (record : GroupAudit) s
    (w : GroupWrite.t) s' : Prop :=
| oc_same : w.(GroupWrite.changed) = false → s' = s → outcome review actor name record s w s'
| oc_saved s1 : w.(GroupWrite.changed) = true →
    (∀ r, review = Some r → require_group_review name r = Ok ()) →
    persist_group w.(GroupWrite.group) (default false review) s = (Ok (), s1) →
    audit_group actor record s1 = (Ok (), s') → outcome review actor name record s w s'.

Lemma save_group_ok actor name review record g changed s w s' :
  save_group actor name review record g changed s = (Ok w, s') →
  w = GroupWrite.mk g changed ∧ outcome review actor name record s w s'.
Proof.
  unfold save_group. intros Hrun. apply bind_ok in Hrun as ([] & s1 & H1 & [-> ->]%ret_ok). split; [done|].
  destruct changed; [|apply ret_ok in H1 as [_ ->]; by apply oc_same].
  apply bind_ok in H1 as ([] & s2 & H2 & H1). apply bind_ok in H1 as ([] & s3 & H3 & H4).
  assert (s2 = s ∧ ∀ r, review = Some r → require_group_review name r = Ok ()) as [-> Hr].
  { destruct review as [r|]; [apply lift_ok in H2 as [Hr ->]; split; [done|]; by intros ? [= <-]|].
    apply ret_ok in H2 as [_ ->]. split; [done|]. by intros. }
  by apply (oc_saved _ _ _ _ _ _ _ s3).
Qed.

(** Where the members of the stored group come from. *)
Definition members_known name (members : gset string) s : Prop := ∀ u, u ∈ members →
  is_Some (s.(St.db) !! ("users", u))
  ∨ ∃ g, s.(St.db) !! ("groups", name) = Some (RGroup g) ∧ u ∈ g.(Group.members).
Lemma change_member_ok actor name u present record reviewed s w s' :
  change_member actor name u present record reviewed s = (Ok w, s') →
  w.(GroupWrite.group).(Group.name) = name ∧ members_known name w.(GroupWrite.group).(Group.members) s
  ∧ outcome (Some reviewed) actor name record s w s'.
Proof.
  unfold change_member. intros Hrun. apply bind_ok in Hrun as ([] & s1 & [_ ->]%lift_ok & Hrun).
  apply bind_ok in Hrun as (g & s1 & (-> & Hg & Hn)%existing_group_ok & Hrun).
  apply bind_ok in Hrun as ([] & s1 & Hv & Hrun).
  assert (s1 = s ∧ (present = true → is_Some (s.(St.db) !! ("users", u)))) as [-> Hu].
  { destruct present; [apply validate_member_ok in Hv as [-> ?]; by split|apply ret_ok in Hv as [_ ->]; by split]. }
  apply save_group_ok in Hrun as [-> Hout]. split; [done|]. split; [|done]. simpl. intros v Hv'.
  destruct present; [apply elem_of_union in Hv' as [?|Hv'%elem_of_singleton]|apply elem_of_difference in Hv' as [? _]];
    subst; eauto.
Qed.

(** Every write: the group of that name is stored, or nothing is. *)
Lemma writer_ok actor name intent record reviewed s w s' :
  write_group_inner actor name intent record reviewed s = (Ok w, s') →
  w.(GroupWrite.group).(Group.name) = name ∧ members_known name w.(GroupWrite.group).(Group.members) s
  ∧ ∃ review, outcome review actor name record s w s'
      ∧ (review = Some reviewed
         ∨ review = None
           ∧ ((∃ u n user g, intent = OffboardMember u n ∧ s.(St.db) !! ("users", u) = Some (RUser user)
                 ∧ user.(User.enabled) = false ∧ s.(St.db) !! ("groups", name) = Some (RGroup g)
                 ∧ w.(GroupWrite.group).(Group.members) = g.(Group.members) ∖ {[u]})
              ∨ w.(GroupWrite.changed) = false)
         ∨ review = None ∧ reviewed = false ∧ s.(St.db) !! ("groups", name) = None
           ∧ w.(GroupWrite.group).(Group.members) = ∅).
Proof.
  unfold write_group_inner. cbv zeta. intros Hrun. destruct intent as [members|members|u present|u present scope|u n].
  - apply bind_ok in Hrun as ([] & s1 & [_ ->]%lift_ok & Hrun). apply bind_ok in Hrun as ([] & s1 & H1 & Hrun).
    assert (s1 = s) as -> by (case_bool_decide; [by apply ret_ok in H1 as [_ ->]|by apply lift_ok in H1 as [_ ->]]).
    apply bind_ok in Hrun as ([] & s1 & [_ ->]%lift_ok & Hrun). apply bind_ok in Hrun as (o & s1 & [-> Ho]%get_ok & Hrun).
    apply bind_ok in Hrun as ([] & s1 & [Hn%bool_decide_eq_true ->]%ensure_ok & Hrun). subst o.
    apply bind_ok in Hrun as ([] & s1 & [-> Hm]%validate_members_ok & Hrun).
    apply bind_ok in Hrun as ([] & s1 & H2 & Hrun). apply bind_ok in Hrun as ([] & s2 & H3 & Hrun).
    apply bind_ok in Hrun as ([] & s3 & H4 & [-> ->]%ret_ok). simpl. split; [done|]. split; [intros v Hv; left; auto|].
    case_bool_decide as He.
    + apply ret_ok in H2 as [_ ->]. exists (if reviewed then Some true else None). split.
      * apply (oc_saved _ _ _ _ _ _ _ s2); try done; [|by destruct reviewed]. destruct reviewed; [|done]. by intros ? [= <-].
      * destruct reviewed; [by left|]. do 2 right. done.
    + apply lift_ok in H2 as [Hr ->]. exists (Some reviewed). split; [|by left].
      apply (oc_saved _ _ _ _ _ _ _ s2); try done. by intros ? [= <-].
  - apply bind_ok in Hrun as ([] & s1 & [_ ->]%lift_ok & Hrun). apply bind_ok in Hrun as ([] & s1 & [_ ->]%lift_ok & Hrun).
    apply bind_ok in Hrun as (g & s1 & (-> & Hg & Hn)%existing_group_ok & Hrun).
    apply bind_ok in Hrun as ([] & s1 & [-> Hm]%validate_members_ok & Hrun).
    apply save_group_ok in Hrun as [-> Hout]. split; [done|]. split; [intros v Hv; left; auto|]. exists (Some reviewed). auto.
  - apply bind_ok in Hrun as ([] & s1 & [_ ->]%lift_ok & Hrun). apply change_member_ok in Hrun as (? & ? & ?).
    split_and!; [done..|]. exists (Some reviewed). auto.
  - apply bind_ok in Hrun as ([] & s1 & [_ ->]%lift_ok & Hrun). apply change_member_ok in Hrun as (? & ? & ?).
    split_and!; [done..|]. exists (Some reviewed). auto.
  - apply bind_ok in Hrun as ([] & s1 & [_ ->]%lift_ok & Hrun). apply bind_ok in Hrun as ([] & s1 & [_ ->]%lift_ok & Hrun).
    apply bind_ok in Hrun as (o & s1 & [-> Ho]%get_ok & Hrun). apply bind_ok in Hrun as (user & s1 & [-> ->]%some_or_ok & Hrun).
    apply bind_ok in Hrun as ([] & s1 & [Hu ->]%ensure_ok & Hrun). apply andb_true_iff in Hu as [_ Hen%negb_true_iff].
    apply bind_ok in Hrun as ([] & s1 & [_ ->]%lift_ok & Hrun).
    apply bind_ok in Hrun as (g & s1 & (-> & Hg & Hn)%existing_group_ok & Hrun).
    destruct (Principal.allows actor "group.members" ("group/" +:+ name)).
    + apply save_group_ok in Hrun as [-> Hout]. split; [done|].
      split; [intros v [Hv _]%elem_of_difference; right; eauto|]. exists None. split; [done|]. right. left. split; [done|].
      left. by exists u, n, user, g.
    + apply ret_ok in Hrun as [-> ->]. split; [done|]. split; [intros v Hv; right; eauto|].
      exists None. split; [by apply oc_same|]. right. left. split; [done|]. by right.
Qed.

(** A stored group is the record; no other group changes. *)
Lemma persist_rows g r s s' :
  persist_group g r s = (Ok (), s') →
  s'.(St.db) !! ("groups", g.(Group.name)) = Some (RGroup g)
  ∧ ∀ k, k ≠ g.(Group.name) → s'.(St.db) !! ("groups", k) = s.(St.db) !! ("groups", k).
Proof.
  unfold persist_group. cbv zeta. intros Hrun. apply bind_ok in Hrun as (o & s1 & [-> _]%get_ok & Hrun).
  apply bind_ok in Hrun as ([] & s1 & H1 & Hrun). apply bind_ok in Hrun as ([] & s2 & H2 & Hrun).
  apply put_group_rows in Hrun as [Hg Ho]. split; [done|]. intros k Hk. rewrite Ho by done.
  assert (T2 : Touches [MEMBERSHIP_HOLDERS] (if r then for_each (hold_membership g.(Group.name)) (btree_iter g.(Group.members))
    else mret ())) by (unfold hold_membership; cbv zeta; solve_touches).
  assert (T1 : ∀ l, Touches [MEMBERSHIP_HOLDERS] (for_each (release_holder g.(Group.name)) l))
    by (intros; unfold release_holder; cbv zeta; solve_touches).
  rewrite (touches_at [MEMBERSHIP_HOLDERS] _ _ _ _ _ _ H2) by bucket. by apply (touches_at [MEMBERSHIP_HOLDERS] _ _ _ _ _ _ H1); bucket.
Qed.
#[global] Instance touches_audit_group actor record : Touches ["meta"; "audit"] (audit_group actor record).
Proof. unfold audit_group, audit_scoped, audit_for. solve_touches. Qed.
Lemma outcome_rows review actor name record s w s' :
  w.(GroupWrite.group).(Group.name) = name → outcome review actor name record s w s' →
  (∀ k, s'.(St.db) !! ("groups", k) = s.(St.db) !! ("groups", k))
  ∨ (∀ r, review = Some r → require_group_review name r = Ok ())
    ∧ s'.(St.db) !! ("groups", name) = Some (RGroup w.(GroupWrite.group))
    ∧ ∀ k, k ≠ name → s'.(St.db) !! ("groups", k) = s.(St.db) !! ("groups", k).
Proof.
  intros Hn [_ ->|s1 _ Hr Hp Ha]; [by left|right]. apply persist_rows in Hp as [Hg Ho]. rewrite Hn in Hg, Ho.
  split; [done|]. split; [by rewrite (touches_at ["meta"; "audit"] _ _ _ _ _ _ Ha) by bucket|].
  intros k Hk. rewrite (touches_at ["meta"; "audit"] _ _ _ _ _ _ Ha) by bucket. by apply Ho.
Qed.

(** Nobody changes the members of a privileged group directly.  Whatever an
    adapter asks the group writer, an administrator, an agent or a directory
    connector alike, a group that needs review keeps its members: a write
    succeeds only if it changes nothing, creates the group without members, or
    takes out an account that is already disabled. *)
Theorem privileged_group_guarded actor name intent record s w s' :
  write_group actor name intent record s = (Ok w, s') → requires_membership_review name = true →
  (∀ k, s'.(St.db) !! ("groups", k) = s.(St.db) !! ("groups", k))
  ∨ s.(St.db) !! ("groups", name) = None ∧ s'.(St.db) !! ("groups", name) = Some (RGroup (Group.mk name ∅))
    ∧ (∀ k, k ≠ name → s'.(St.db) !! ("groups", k) = s.(St.db) !! ("groups", k))
  ∨ ∃ u n user g, intent = OffboardMember u n ∧ s.(St.db) !! ("users", u) = Some (RUser user)
      ∧ user.(User.enabled) = false ∧ s.(St.db) !! ("groups", name) = Some (RGroup g)
      ∧ s'.(St.db) !! ("groups", name) = Some (RGroup (Group.mk name (g.(Group.members) ∖ {[u]})))
      ∧ ∀ k, k ≠ name → s'.(St.db) !! ("groups", k) = s.(St.db) !! ("groups", k).
Proof.
  intros Hrun Hrev. unfold write_group in Hrun. apply writer_ok in Hrun as (Hn & _ & review & Hout & Hcase).
  destruct (outcome_rows _ _ _ _ _ _ _ Hn Hout) as [Hsame|(Hr & Hg & Ho)]; [by left|].
  assert (Hw : ∀ m, w.(GroupWrite.group).(Group.members) = m → w.(GroupWrite.group) = Group.mk name m).
  { intros m <-. rewrite <- Hn. by destruct (GroupWrite.group w). }
  destruct Hcase as [->|[[-> [(u & n & user & g & -> & Hu & Hen & Hgrp & Hm)|Hc]]|(-> & _ & Hnone & Hm)]].
  - specialize (Hr false eq_refl). unfold require_group_review in Hr. by rewrite Hrev in Hr.
  - right; right. exists u, n, user, g. rewrite <- (Hw _ Hm). done.
  - left. destruct Hout as [_ ->|]; [done|congruence].
  - right; left. rewrite <- (Hw _ Hm). done.
Qed.
End written.

(** ** The groups a sign-in sees *)

Section refinement.
Context {E : Env} {L : ApplyLease}.
Variable D : string → Prop.
Hypothesis collision_free : ∀ a b, D a → D b → digest a = digest b → a = b.
Implicit Types (s : St.t) (g : Group.t).

(** What a step must leave alone to keep the index. *)
Definition same_index s s' : Prop :=
  (∀ k, s'.(St.db) !! ("groups", k) = s.(St.db) !! ("groups", k))
  ∧ ∀ u k, s'.(St.db) !! (user_groups_bucket u, k) = s.(St.db) !! (user_groups_bucket u, k).
Lemma same_index_exact s s' : same_index s s' → index_exact D s → index_exact D s'.
Proof.
  intros [Hg Hi] [H1 H2]. split.
  - intros id w. rewrite Hg. apply H1.
  - intros u k w Hu. rewrite Hi, H2 by done. by setoid_rewrite Hg.
Qed.
Lemma touches_same_index {A} bs (m : tx A) `{!Touches bs m} s r s' :
  forallb (λ b, negb (is_index b || String.eqb b "groups")) bs = true → m s = (r, s') → same_index s s'.
Proof.
  intros Hbs Hrun. rewrite forallb_forall in Hbs.
  assert (Hn : ∀ b, b ∈ bs → is_index b = false ∧ b ≠ "groups").
  { intros b Hb%list_elem_of_In%Hbs%negb_true_iff. apply orb_false_iff in Hb as [? ?%String.eqb_neq]. done. }
  destruct (touches_run bs _ _ _ _ Hrun) as (_ & _ & _ & Hf). split.
  - intros k. apply Hf. intros Hb. by destruct (Hn _ Hb).
  - intros u k. apply Hf. intros Hb. by destruct (Hn _ Hb).
Qed.

Lemma persist_exact g r s s' :
  index_exact D s → D g.(Group.name) → (∀ u, u ∈ g.(Group.members) → D u) →
  persist_group g r s = (Ok (), s') → index_exact D s'.
Proof.
  intros Hs Hn Hm. unfold persist_group. cbv zeta. intros Hrun. apply bind_ok in Hrun as (o & s1 & [-> _]%get_ok & Hrun).
  apply bind_ok in Hrun as ([] & s1 & H1 & Hrun). apply bind_ok in Hrun as ([] & s2 & H2 & Hrun).
  assert (T2 : Touches [MEMBERSHIP_HOLDERS] (if r then for_each (hold_membership g.(Group.name)) (btree_iter g.(Group.members))
    else mret ())) by (unfold hold_membership; cbv zeta; solve_touches).
  assert (T1 : ∀ l, Touches [MEMBERSHIP_HOLDERS] (for_each (release_holder g.(Group.name)) l))
    by (intros; unfold release_holder; cbv zeta; solve_touches).
  eapply (put_group_exact D collision_free); [|done|done|done|exact Hrun].
  eapply same_index_exact; [exact (touches_same_index [MEMBERSHIP_HOLDERS] _ _ _ _ eq_refl H2)|].
  eapply same_index_exact; [exact (touches_same_index [MEMBERSHIP_HOLDERS] _ _ _ _ eq_refl H1)|]. done.
Qed.

(** The ids in play. *)
Definition known s : Prop := ∀ u, is_Some (s.(St.db) !! ("users", u)) → D u.

(** A step: a group write, a source's memberships, or anything that leaves the
    groups and their index alone. *)
Inductive group_step : St.t → St.t → Prop :=
| gstep_write actor name intent record reviewed s w s' :
    D name → known s → write_group_inner actor name intent record reviewed s = (Ok w, s') → group_step s s'
| gstep_source groups user_id s s' :
    D user_id → write_source_memberships groups user_id s = (Ok (), s') → group_step s s'
| gstep_other s s' : same_index s s' → group_step s s'.

Lemma join_exact u name s s' :
  index_exact D s → D u → join_source_group u name s = (Ok (), s') → index_exact D s'.
Proof.
  intros Hs Hu. unfold join_source_group. intros Hrun. apply bind_ok in Hrun as (o & s1 & [-> Ho]%get_ok & Hrun).
  apply bind_ok in Hrun as (g & s1 & [-> ->]%some_or_ok & Hrun).
  apply bind_ok in Hrun as ([] & s1 & [Hn%String.eqb_eq ->]%ensure_ok & Hrun).
  case_bool_decide; [by apply ret_ok in Hrun as [_ ->]|]. apply bind_ok in Hrun as ([] & s1 & [_ ->]%lift_ok & Hrun).
  destruct (ie_groups _ _ Hs _ _ Ho) as (? & [= <-] & _ & Hd & Hm).
  eapply persist_exact; [exact Hs| | |exact Hrun]; [simpl; by rewrite Hn|].
  simpl. intros v [?|?%elem_of_singleton]%elem_of_union; [auto|by subst].
Qed.
Lemma group_step_exact s s' : group_step s s' → index_exact D s → index_exact D s'.
Proof.
  intros Hstep Hs. destruct Hstep as [actor name intent record reviewed s w s' Hname Hk Hrun|groups u s s' Hu Hrun|s s' Hsame].
  - apply writer_ok in Hrun as (Hn & Hm & review & Hout & _). destruct Hout as [_ ->|s1 _ _ Hp Ha]; [done|].
    eapply same_index_exact; [exact (touches_same_index ["meta"; "audit"] _ _ _ _ eq_refl Ha)|].
    eapply persist_exact; [exact Hs|by rewrite Hn| |exact Hp]. intros u [?|(g & Hg & Hin)]%Hm; [by apply Hk|].
    destruct (ie_groups _ _ Hs _ _ Hg) as (? & [= <-] & _ & _ & Hd). auto.
  - unfold write_source_memberships in Hrun. revert s Hs Hrun.
    induction (btree_iter groups) as [|name l IH]; intros s Hs Hrun; simpl in Hrun; [by apply ret_ok in Hrun as [_ ->]|].
    apply bind_ok in Hrun as ([] & s1 & H1 & Hrun). eapply IH; [|exact Hrun]. by eapply join_exact.
  - by eapply same_index_exact.
Qed.

(** C12: the groups a sign-in sees are the groups whose records list the account.
    From any state in which the index agrees with the records, the empty one
    for instance, whatever groups are written, by administrators, connectors,
    sources or reviewed changes: reading a user's groups page by page succeeds
    and gives exactly the names of the groups that have the user as a member. *)
Theorem group_index_refines s0 s u :
  index_exact D s0 → rtc group_step s0 s → D u →
  ∃ names, user_group_names u s = (Ok names, s)
    ∧ ∀ name, name ∈ names ↔ ∃ g, s.(St.db) !! ("groups", name) = Some (RGroup g) ∧ u ∈ g.(Group.members).
Proof.
  intros H0 Hsteps Hu.
  assert (Hs : index_exact D s) by (clear -H0 Hsteps collision_free; induction Hsteps; eauto using group_step_exact).
  destruct (user_group_names_complete u s) as (names & Hrun & Hnames).
  { intros k r (id & g & _ & _ & _ & ->)%(ie_rows _ _ Hs); [|done]. eauto. }
  exists names. split; [done|]. intros name. rewrite Hnames. split.
  - intros [k (id & g & _ & Hg & Hin & [= ->])%(ie_rows _ _ Hs)]; [|done]. by exists g.
  - intros (g & Hg & Hin). exists (digest name). apply (ie_rows _ _ Hs); [done|]. by exists name, g.
Qed.
End refinement.

(** ** An example *)

Module GroupsDemo.
(** An environment whose digest is injective. *)
Definition env : Env :=
  Demo.make (String.append "#") (λ s, Some (JStr s)) (λ _, None) (λ _, None) (λ _ _ _ _, None).
Definition root : Principal.t := Principal.mk "u-root" false false [] [].
Definition start : St.t :=
  St.mk {[ ("users", "u-amy") := RUser (DelegationDemo.user "u-amy" "amy") ]} 1000 0 None.
Definition write (name : string) (intent : GroupIntent) (s : St.t) : Result GroupWrite.t * St.t :=
  @write_group env root name intent (OnChange "group.write" name) s.
Definition staff : Result GroupWrite.t * St.t := write "staff" (CreateGroup {["u-amy"]}) start.
Definition left : Result GroupWrite.t * St.t := write "staff" (MemberIntent "u-amy" false) staff.2.
Definition vault : Result GroupWrite.t * St.t := write "vault" (CreateGroup ∅) staff.2.
Definition written (r : Result GroupWrite.t) : GroupWrite.t :=
  match r with Ok w => w | Err _ => GroupWrite.mk (Group.mk "" ∅) false end.
Definition groups (s : St.t) : Result (gset string) := (@user_group_names env "u-amy" s).1.
End GroupsDemo.

(** The index follows the record; the members of "vault" need a review. *)
Example group_writer_run :
  GroupsDemo.groups GroupsDemo.staff.2 = Ok {["staff"]} ∧ GroupsDemo.groups GroupsDemo.left.2 = Ok ∅
  ∧ (GroupsDemo.write "vault" (MemberIntent "u-amy" true) GroupsDemo.vault.2).1
    = Err (Error.conflict "Privileged group membership requires a reviewed membership change")
  ∧ (group_binding "staff" GroupsDemo.left.2).1 = Ok true.
Proof. split_and!; by_vm. Qed.

Lemma privileged_group_guarded_witness :
  GroupsDemo.vault.2.(St.db) !! ("groups", "vault") = Some (RGroup (Group.mk "vault" ∅)).
Proof.
  destruct (@privileged_group_guarded GroupsDemo.env GroupsDemo.root "vault" (CreateGroup ∅)
    (OnChange "group.write" "vault") GroupsDemo.staff.2 (GroupsDemo.written GroupsDemo.vault.1) GroupsDemo.vault.2)
    as [Hsame|[(_ & Hg & _)|(u & n & user & g & Hi & _)]].
  - ran GroupsDemo.written GroupsDemo.vault.
  - by_vm.
  - exfalso. specialize (Hsame "vault"). vm_compute in Hsame. discriminate.
  - exact Hg.
  - discriminate.
Defined.

Lemma demo_index : @index_exact GroupsDemo.env (λ _, True) GroupsDemo.start.
Proof.
  unfold GroupsDemo.start. split; cbn [St.db].
  - intros id w Hw. apply lookup_singleton_Some in Hw as [[=] _].
  - intros u k w _. split.
    + intros Hw. apply lookup_singleton_Some in Hw as [[=] _].
    + intros (id & g & _ & Hg & _). apply lookup_singleton_Some in Hg as [[=] _].
Qed.
Lemma group_index_refines_witness :
  ∃ names, @user_group_names GroupsDemo.env "u-amy" GroupsDemo.staff.2 = (Ok names, GroupsDemo.staff.2)
    ∧ "staff" ∈ names.
Proof.
  destruct (@group_index_refines GroupsDemo.env (λ _, True) (λ a b _ _ H, inj (String.append "#") a b H)
    GroupsDemo.start GroupsDemo.staff.2 "u-amy") as (names & Hrun & Hnames).
  - exact demo_index.
  - apply rtc_once. apply (@gstep_write GroupsDemo.env (λ _, True) GroupsDemo.root "staff" (CreateGroup {["u-amy"]})
      (OnChange "group.write" "staff") false _ (GroupsDemo.written GroupsDemo.staff.1)).
    + exact I.
    + intros u _. exact I.
    + ran GroupsDemo.written GroupsDemo.staff.
  - exact I.
  - exists names. split; [exact Hrun|]. apply Hnames. exists (Group.mk "staff" {["u-amy"]}). split.
    + by_vm.
    + apply (bool_decide_unpack ("u-amy" ∈ ({["u-amy"]} : gset string))). vm_compute. exact I.
Defined.
