(* ===== verification/Reviews.v ===== *)
(** * Reviewed grants (src/src/management/grants.rs)

    A change to a high-privilege role takes three people: an administrator stages
    it, another approves exactly that content, and a third executes it, none of
    them the person it is for.  The stored change carries a digest of the whole
    proposal; approval and execution name that digest, and execution rechecks
    under the writer that every participant still is the administrator he was and
    that nothing the proposal rests on has changed.  The grant roles of little
    privilege are written at once, by the same checks.

    What the three kinds of reviewed changes share is stated once, for a
    [Reviewed] proposal; [Memberships] has the second kind. *)

From S2P Require Import Prelude Json Model Store Env Provider Jose Delegation Agents Redaction Identities Management Exposure.

#[local] Set Warnings "-clear-no-such-hyp".

Definition NEWLINE : string := String (Ascii.ascii_of_nat 10) EmptyString.
Definition LIFETIME : Z := 900.
Definition MAX_CHANGES : nat := 128.
Definition MAX_REVIEWERS : nat := 8.
Definition REQUIRED_REVIEWS : nat := 1.

(** ** Administrators *)

Section authority.
Context {E : Env} {L : ApplyLease}.

Definition authority (user_id : string) : tx Authority.t :=
  user ← get User.t "users" user_id;
  user ← some_or user Error.forbidden;
  _ ← ensure (user.(User.enabled) && user.(User.admin)) Error.forbidden;
  exposure ← credential_exposure user_id;
  _ ← ensure (negb (bool_decide (is_Some exposure)))
        (Error.conflict "This account needs independent credential recovery before privilege elevation");
  mret (Authority.mk user.(User.id) user.(User.epoch)).
Definition human_authority (actor : Principal.t) : tx Authority.t :=
  _ ← ensure (negb (actor.(Principal.agent) || actor.(Principal.delegated))) Error.forbidden;
  _ ← validate_apply_lease actor;
  authority actor.(Principal.id).
Definition full_administrator (token : string) : tx (Principal.t * Authority.t) :=
  actor ← principal token;
  current ← human_authority actor;
  mret (actor, current).
Definition revalidate_authority (expected : Authority.t) : tx unit :=
  current ← authority expected.(Authority.id);
  ensure (bool_decide (current = expected)) (Error.conflict "Reviewed change actor authority changed").
End authority.

(** ** What reviewed changes share *)

(** One kind of proposal: where its changes are stored, how it is rendered, and
    whom it is about. *)
Class Reviewed (P : Type) := {
  #[global] rv_row :: Row (Change.t P);
  rv_bucket : string;
  rv_version : string;
  rv_noun : string;
  rv_missing : string;
  rv_json : P → json;
  rv_id : P → string;
  rv_resource : P → string;
  rv_author : P → Authority.t;
  rv_before : P → json;
  rv_after : P → json;
  rv_base_revision : P → Z;
  rv_resource_revision : P → string;
  rv_policy_revision : P → string;
  rv_expires_at : P → Z;
  (** Who must not review it. *)
  rv_affects : P → string → bool;
}.

Definition authority_json (a : Authority.t) : json :=
  Json.obj [("id", JStr a.(Authority.id)); ("epoch", JNum a.(Authority.epoch))].
Definition status_json (s : ReviewStatus) : json :=
  JStr match s with
       | ReviewPending => "pending" | ReviewApproved => "approved"
       | ReviewExecuted => "executed" | ReviewCancelled => "cancelled"
       end.
Definition approval_json (a : ReviewApproval.t) : json :=
  Json.obj [("reviewer", authority_json a.(ReviewApproval.reviewer)); ("digest", JStr a.(ReviewApproval.digest));
            ("at", JNum a.(ReviewApproval.at_))].

Section reviewed.
Context {E : Env} {L : ApplyLease} {P : Type} {R : Reviewed P}.
Implicit Types (change : Change.t P) (p : P).

Definition reviewer_ids change : list string :=
  (λ a, a.(ReviewApproval.reviewer).(Authority.id)) <$> change.(Change.approvals).
Definition change_json change : json :=
  Json.obj [("proposal", rv_json change.(Change.proposal)); ("digest", JStr change.(Change.digest));
            ("status", status_json change.(Change.status));
            ("approvals", JArr (approval_json <$> change.(Change.approvals)));
            ("executor", Json.of_option authority_json change.(Change.executor));
            ("executed_at", Json.of_option JNum change.(Change.executed_at))].

(** [canonical_digest] and [canonical]. *)
Definition canonical_digest (v : json) : string :=
  digest (rv_version (P:=P) +:+ NEWLINE +:+ canonical_string v).

Definition load (id : string) : tx (Change.t P) :=
  change ← get (Change.t P) rv_bucket id;
  change ← some_or change (Error.missing rv_missing);
  _ ← ensure (String.eqb (rv_id change.(Change.proposal)) id
              && String.eqb (canonical_digest (rv_json change.(Change.proposal))) change.(Change.digest))
        (Error.conflict (rv_noun (P:=P) +:+ " content changed"));
  mret change.
Definition open_status (s : ReviewStatus) : bool :=
  match s with ReviewPending | ReviewApproved => true | _ => false end.
Definition require_open change (binding : string) : tx unit :=
  _ ← ensure (String.eqb binding change.(Change.digest)) (Error.conflict (rv_noun (P:=P) +:+ " digest does not match"));
  at_ ← now;
  _ ← ensure (negb (rv_expires_at change.(Change.proposal) <=? at_)) (Error.conflict (rv_noun (P:=P) +:+ " expired"));
  ensure (open_status change.(Change.status)) (Error.conflict (rv_noun (P:=P) +:+ " already consumed or cancelled")).

(** The loop of [revalidate] over the approvals. *)
Fixpoint revalidate_approvals change (participants : list string) (l : list ReviewApproval.t) : tx unit :=
  match l with
  | [] => mret ()
  | a :: l =>
      let id := a.(ReviewApproval.reviewer).(Authority.id) in
      _ ← ensure (String.eqb a.(ReviewApproval.digest) change.(Change.digest)
                  && negb (bool_decide (id ∈ participants))
                  && negb (rv_affects change.(Change.proposal) id)) Error.forbidden;
      _ ← revalidate_authority a.(ReviewApproval.reviewer);
      revalidate_approvals change (id :: participants) l
  end.

Definition audit_change (actor action : string) change : tx unit :=
  let p := change.(Change.proposal) in
  audit_with_details actor action (rv_resource p)
    [("change_id", JStr (rv_id p)); ("digest", JStr change.(Change.digest));
     ("author", JStr (rv_author p).(Authority.id)); ("reviewers", Json.strs (reviewer_ids change));
     ("executor", Json.of_option (λ a, JStr a.(Authority.id)) change.(Change.executor));
     ("expires_at", JNum (rv_expires_at p)); ("base_revision", JNum (rv_base_revision p));
     ("resource_revision", JStr (rv_resource_revision p)); ("policy_revision", JStr (rv_policy_revision p));
     ("before", rv_before p); ("after", rv_after p)].

(** Before a change is staged, the expired ones go. *)
Definition retire_expired (actor prefix : string) (at_ : Z) (retained : nat) (row : string * Change.t P) : tx nat :=
  let old := row.2 in
  if rv_expires_at old.(Change.proposal) <=? at_ then
    _ ← (if open_status old.(Change.status) then audit_change actor (prefix +:+ ".expire") old else mret ());
    _ ← remove rv_bucket row.1;
    mret retained
  else mret (S retained).
Definition make_room (actor prefix : string) (at_ : Z) : tx unit :=
  rows ← scan (Change.t P) rv_bucket None (MAX_CHANGES + 1);
  retained ← fold_m (retire_expired actor prefix at_) 0%nat rows;
  ensure (retained <? MAX_CHANGES)%nat (Error.conflict (rv_noun (P:=P) +:+ " capacity reached")).
Definition new_change p : Change.t P :=
  Change.mk p (canonical_digest (rv_json p)) ReviewPending [] None None.
Definition store_change (actor action id : string) change : tx json :=
  _ ← put rv_bucket id change;
  _ ← audit_change actor action change;
  mret (change_json change).

Definition approve_change change (reviewer : Authority.t) (binding : string) (at_ : Z) : Change.t P :=
  Change.mk change.(Change.proposal) change.(Change.digest) ReviewApproved
    (change.(Change.approvals) ++ [ReviewApproval.mk reviewer binding at_])
    change.(Change.executor) change.(Change.executed_at).
Definition execute_change change (executor : Authority.t) (at_ : Z) : Change.t P :=
  Change.mk change.(Change.proposal) change.(Change.digest) ReviewExecuted change.(Change.approvals)
    (Some executor) (Some at_).
Definition cancel_change change : Change.t P :=
  Change.mk change.(Change.proposal) change.(Change.digest) ReviewCancelled change.(Change.approvals)
    change.(Change.executor) change.(Change.executed_at).

(** Who may approve and who may execute. *)
Definition may_approve change (reviewer : Authority.t) : bool :=
  negb (String.eqb reviewer.(Authority.id) (rv_author change.(Change.proposal)).(Authority.id)
        || bool_decide (reviewer.(Authority.id) ∈ reviewer_ids change)
        || (MAX_REVIEWERS <=? length change.(Change.approvals))%nat).
Definition may_execute change (executor : Authority.t) : bool :=
  bool_decide (change.(Change.status) = ReviewApproved)
  && negb (length change.(Change.approvals) <? REQUIRED_REVIEWS)%nat
  && negb (String.eqb executor.(Authority.id) (rv_author change.(Change.proposal)).(Authority.id))
  && negb (bool_decide (executor.(Authority.id) ∈ reviewer_ids change)).

(** The requests on a stored change, given how its dependencies are rechecked,
    what execution rechecks and writes, and whom approval refuses besides. *)
Section requests.
Context (prefix : string) (revalidate : Principal.t → Change.t P → tx unit)
  (commit : Principal.t → Change.t P → tx unit) (refuses : P → string → bool).

Definition approve_in (token id binding : string) : tx json :=
  aa ← full_administrator token;
  change ← load id;
  _ ← require_open change binding;
  _ ← ensure (may_approve change aa.2 && negb (refuses change.(Change.proposal) aa.2.(Authority.id))) Error.forbidden;
  _ ← revalidate aa.1 change;
  at_ ← now;
  store_change aa.1.(Principal.id) (prefix +:+ ".approve") id (approve_change change aa.2 binding at_).
Definition execute_in (token id binding : string) : tx json :=
  aa ← full_administrator token;
  change ← load id;
  _ ← require_open change binding;
  _ ← ensure (may_execute change aa.2) Error.forbidden;
  _ ← commit aa.1 change;
  at_ ← now;
  store_change aa.1.(Principal.id) (prefix +:+ ".execute") id (execute_change change aa.2 at_).
Definition cancel_in (token id binding : string) : tx json :=
  aa ← full_administrator token;
  change ← load id;
  _ ← require_open change binding;
  store_change aa.1.(Principal.id) (prefix +:+ ".cancel") id (cancel_change change).
Definition show_change (token id : string) : tx json :=
  _ ← full_administrator token;
  change ← load id;
  mret (change_json change).
End requests.
End reviewed.

(** ** Human grants *)

(** [delegation::GrantInput]. *)
Module GrantInput.
Record t := mk { role : HumanRole; scope : string }.
#[global] Instance eq_dec : EqDecision t.
Proof. solve_decision. Defined.
End GrantInput.

Definition grants_json (l : list HumanGrant.t) : json := JArr (human_grant_json <$> l).
Definition grant_proposal_json (p : GrantProposal.t) : json :=
  Json.obj [("id", JStr p.(GrantProposal.id)); ("resource", JStr p.(GrantProposal.resource));
            ("username", JStr p.(GrantProposal.username)); ("holder_id", JStr p.(GrantProposal.holder_id));
            ("author", authority_json p.(GrantProposal.author)); ("before", grants_json p.(GrantProposal.before));
            ("after", grants_json p.(GrantProposal.after)); ("base_revision", JNum p.(GrantProposal.base_revision));
            ("resource_revision", JStr p.(GrantProposal.resource_revision));
            ("policy_revision", JStr p.(GrantProposal.policy_revision));
            ("created_at", JNum p.(GrantProposal.created_at)); ("expires_at", JNum p.(GrantProposal.expires_at))].
#[global] Instance grant_reviewed : Reviewed GrantProposal.t := {|
  rv_bucket := "reviewed_human_grants";
  rv_version := "riauth/reviewed-human-grants/v1";
  rv_noun := "Reviewed grant change";
  rv_missing := "Reviewed grant change not found";
  rv_json := grant_proposal_json;
  rv_id := GrantProposal.id;
  rv_resource := GrantProposal.resource;
  rv_author := GrantProposal.author;
  rv_before p := grants_json p.(GrantProposal.before);
  rv_after p := grants_json p.(GrantProposal.after);
  rv_base_revision := GrantProposal.base_revision;
  rv_resource_revision := GrantProposal.resource_revision;
  rv_policy_revision := GrantProposal.policy_revision;
  rv_expires_at := GrantProposal.expires_at;
  rv_affects p id := String.eqb id p.(GrantProposal.holder_id);
|}.

Definition role_rank (r : HumanRole) : nat :=
  match r with
  | HelpDesk => 0 | ApplicationOwner => 1 | DirectoryOperator => 2 | Auditor => 3 | SecurityAdministrator => 4
  end%nat.
(** The order of [sorted]. *)
Definition grant_le (a b : HumanGrant.t) : Prop :=
  (role_rank a.(HumanGrant.role) < role_rank b.(HumanGrant.role))%nat
  ∨ role_rank a.(HumanGrant.role) = role_rank b.(HumanGrant.role)
    ∧ (a.(HumanGrant.scope) ≠ b.(HumanGrant.scope) ∧ String.le a.(HumanGrant.scope) b.(HumanGrant.scope)
       ∨ a.(HumanGrant.scope) = b.(HumanGrant.scope) ∧ String.le a.(HumanGrant.target_id) b.(HumanGrant.target_id)).
#[global] Instance grant_le_dec : RelDecision grant_le.
Proof. intros a b. unfold grant_le. apply _. Defined.
Definition sorted (grants : list HumanGrant.t) : list HumanGrant.t := merge_sort grant_le grants.
Definition privileged (g : HumanGrant.t) : bool :=
  match g.(HumanGrant.role) with DirectoryOperator | SecurityAdministrator => true | _ => false end.
Definition high_privilege (grants : list HumanGrant.t) : list HumanGrant.t := List.filter privileged grants.

(** [ImmediateGrantWrite] and what it returns. *)
Inductive ImmediateGrantWrite := DirectWrite | PreviewWrite | ApplyWrite.
Module ImmediateGrantWriteResult.
Record t := mk { before : list HumanGrant.t; after : list HumanGrant.t; changed : bool; direct : json }.
End ImmediateGrantWriteResult.

Section grants.
Context {E : Env} {L : ApplyLease}.
#[local] Abbreviation gdigest := (canonical_digest (P:=GrantProposal.t)).

Definition grant_policy_revision : string :=
  gdigest (Json.obj
    [("version", JStr (rv_version (P:=GrantProposal.t))); ("issuer", JStr config.(Config.issuer));
     ("required_reviews", JNum (Z.of_nat REQUIRED_REVIEWS)); ("pam_approvers", config_json "pam_approvers");
     ("capabilities", config_json "capabilities"); ("signers", config_json "signers");
     ("ldap_reconciliation_modes", config_json "ldap_reconciliation_modes");
     ("workspace_reconciliation_modes", config_json "workspace_reconciliation_modes");
     ("entra_reconciliation_modes", config_json "entra_reconciliation_modes");
     ("high_privilege_roles", Json.strs ["directory_operator"; "security_administrator"])]).

Fixpoint bind_grants (holder_id : string) (seen : list GrantInput.t) (l : list GrantInput.t) : tx (list HumanGrant.t) :=
  match l with
  | [] => mret []
  | g :: l =>
      _ ← ensure (negb (bool_decide (g ∈ seen))) (Error.bad "Duplicate human grant");
      b ← Human.bind g.(GrantInput.role) g.(GrantInput.scope) holder_id;
      rest ← bind_grants holder_id (g :: seen) l;
      mret (b :: rest)
  end.
(** [prepare]: the holder, the grants held, and the grants proposed. *)
Definition prepare_grants (actor : Principal.t) (username : string) (grants : list GrantInput.t) :
    tx (User.t * list HumanGrant.t * list HumanGrant.t) :=
  holder ← Human.user_by_name username;
  let any := negb (bool_decide (grants = [])) in
  _ ← ensure (negb (String.eqb holder.(User.id) actor.(Principal.id) || (32 <? length grants)%nat
                    || any && (negb holder.(User.enabled) || holder.(User.admin)))) Error.forbidden;
  _ ← (if any then require_elevation_ready holder else mret ());
  bound ← bind_grants holder.(User.id) [] grants;
  before ← Human.stored holder.(User.id);
  mret (holder, sorted before, sorted bound).

(** [resource_revision]: a digest of everything the grants name. *)
Definition target_value (g : HumanGrant.t) : tx json :=
  kn ← some_or (Str.split_once "/" g.(HumanGrant.scope)) Error.forbidden;
  let '(kind, name) := kn in
  if String.eqb kind "user" then
    uid ← get string "usernames" name;
    match uid with
    | Some uid =>
        user ← get row "users" uid;
        held ← Human.stored uid;
        mret (Json.obj [("user", Json.of_option row_json user); ("grants", grants_json held)])
    | None => mret JNull
    end
  else if String.eqb kind "client" then c ← get row "clients" name; mret (Json.of_option row_json c)
  else if String.eqb kind "key" then
    k ← (if String.eqb name "signing" then get row "meta" "keys" else get row "key_domains" name);
    mret (Json.of_option row_json k)
  else if bool_decide (kind ∈ ["directory"; "workspace"; "entra"])
  then mret (Json.of_option JStr (Human.directory_target g.(HumanGrant.scope)))
  else if String.eqb kind "audit" then mret (JStr "events")
  else fail Error.forbidden.
Definition target_digests (targets : gmap string string) (g : HumanGrant.t) : tx (gmap string string) :=
  v ← target_value g;
  mret (<[g.(HumanGrant.scope) := gdigest v]> targets).
Definition grant_resource_revision (holder : User.t) (before after : list HumanGrant.t) : tx string :=
  targets ← fold_m target_digests ∅ (before ++ after);
  generation ← get Z "human_grant_generations" holder.(User.id);
  exposure ← credential_exposure holder.(User.id);
  provenance ← get row ELEVATION_PROVENANCE holder.(User.id);
  mret (gdigest (Json.obj
    [("holder", Json.obj [("id", JStr holder.(User.id)); ("username", JStr holder.(User.username));
                          ("epoch", JNum holder.(User.epoch)); ("enabled", JBool holder.(User.enabled));
                          ("admin", JBool holder.(User.admin))]);
     ("grants", grants_json before); ("generation", JNum (default 0 generation));
     ("credential_exposure", Json.of_option (λ e, row_json (RExposure e)) exposure);
     ("elevation_provenance", Json.of_option row_json provenance);
     ("targets", Json.obj (prod_map (λ k, k) JStr <$> btree_entries targets))])).

(** [persist_grants] and [commit_grants]. *)
Definition persist_grants (holder : User.t) (before after : list HumanGrant.t) : tx bool :=
  if bool_decide (before = after) then mret false
  else
    _ ← (if bool_decide (after = []) then remove "human_grants" holder.(User.id)
         else put "human_grants" holder.(User.id) after);
    generation ← get Z "human_grant_generations" holder.(User.id);
    let generation := default 0 generation in
    _ ← ensure (generation <? u64_max) (Error.conflict "Human grant generation exhausted");
    _ ← put "human_grant_generations" holder.(User.id) (generation + 1);
    mret true.
Definition direct_json (holder : User.t) (after : list HumanGrant.t) : json :=
  Json.obj [("username", JStr holder.(User.username)); ("grants", grants_json after)].
Definition commit_grants (actor : Principal.t) (holder : User.t) (before after : list HumanGrant.t) : tx json :=
  changed ← persist_grants holder before after;
  _ ← (if (changed : bool)
       then audit_with_details actor.(Principal.id) "delegation.grants.set" holder.(User.username)
              [("grants", grants_json after)]
       else mret ());
  mret (direct_json holder after).

(** [write_immediate_grants]. *)
Definition write_immediate_grants (actor : Principal.t) (username : string) (grants : list GrantInput.t)
    (mode : ImmediateGrantWrite) : tx ImmediateGrantWriteResult.t :=
  _ ← ensure (negb (actor.(Principal.agent) || actor.(Principal.delegated))) Error.forbidden;
  _ ← validate_apply_lease actor;
  _ ← authority actor.(Principal.id);
  hba ← prepare_grants actor username grants;
  let '(holder, before, after) := hba in
  _ ← ensure (bool_decide (high_privilege before = high_privilege after))
        (Error.conflict "High-privilege grant changes require a reviewed grant change");
  direct ← match mode with
           | DirectWrite => commit_grants actor holder before after
           | ApplyWrite => _ ← persist_grants holder before after; mret (direct_json holder after)
           | PreviewWrite => mret (direct_json holder after)
           end;
  mret (ImmediateGrantWriteResult.mk before after (negb (bool_decide (before = after))) direct).
Definition requires_review (actor : Principal.t) (username : string) (grants : list GrantInput.t) : tx bool :=
  hba ← prepare_grants actor username grants;
  mret (negb (bool_decide (high_privilege hba.1.2 = high_privilege hba.2))).

(** [stage_grants]. *)
Definition stage_grants (actor : Principal.t) (username : string) (grants : list GrantInput.t) : tx json :=
  author ← human_authority actor;
  hba ← prepare_grants actor username grants;
  let '(holder, before, after) := hba in
  _ ← ensure (negb (bool_decide (high_privilege before = high_privilege after)))
        (Error.bad "This grant change can use the immediate grant endpoint");
  at_ ← now;
  _ ← make_room (P:=GrantProposal.t) actor.(Principal.id) "reviewed_grants" at_;
  cid ← id;
  revision ← get Z "meta" "revision";
  resource ← grant_resource_revision holder before after;
  let change := new_change (GrantProposal.mk cid ("user/" +:+ username +:+ "/delegated-grants") username holder.(User.id)
    author before after (default 0 revision) resource grant_policy_revision at_ (wadd at_ LIFETIME)) in
  store_change actor.(Principal.id) "reviewed_grants.stage" cid change.

(** [revalidate]. *)
Definition revalidate_grants (actor : Principal.t) (change : Change.t GrantProposal.t) : tx User.t :=
  let p := change.(Change.proposal) in
  _ ← revalidate_authority p.(GrantProposal.author);
  _ ← revalidate_approvals change [p.(GrantProposal.author).(Authority.id)] change.(Change.approvals);
  revision ← get Z "meta" "revision";
  _ ← ensure ((p.(GrantProposal.base_revision) =? default 0 revision)
              && String.eqb p.(GrantProposal.policy_revision) grant_policy_revision)
        (Error.conflict "Reviewed grant change resource or policy revision changed");
  hba ← prepare_grants actor p.(GrantProposal.username)
          ((λ g, GrantInput.mk g.(HumanGrant.role) g.(HumanGrant.scope)) <$> p.(GrantProposal.after));
  let '(holder, before, after) := hba in
  let changed := Error.conflict "Reviewed grant change dependencies changed" in
  _ ← ensure (String.eqb holder.(User.id) p.(GrantProposal.holder_id)
              && bool_decide (before = p.(GrantProposal.before)) && bool_decide (after = p.(GrantProposal.after))) changed;
  resource ← grant_resource_revision holder before after;
  _ ← ensure (String.eqb p.(GrantProposal.resource_revision) resource) changed;
  mret holder.
Definition check_grants (actor : Principal.t) (change : Change.t GrantProposal.t) : tx unit :=
  _ ← revalidate_grants actor change; mret ().
(** What [execute_human_grant_change] does between its guards and the record. *)
Definition commit_change (actor : Principal.t) (change : Change.t GrantProposal.t) : tx unit :=
  holder ← revalidate_grants actor change;
  let p := change.(Change.proposal) in
  _ ← commit_grants actor holder p.(GrantProposal.before) p.(GrantProposal.after);
  mret ().

(** The requests, before [mutation]. *)
Definition set_human_grants_in (token username : string) (grants : list GrantInput.t) : tx json :=
  actor ← principal token;
  w ← write_immediate_grants actor username grants DirectWrite;
  mret w.(ImmediateGrantWriteResult.direct).
Definition stage_human_grants_in (token username : string) (grants : list GrantInput.t) : tx json :=
  actor ← principal token;
  stage_grants actor username grants.
Definition approve_human_grant_change_in : string → string → string → tx json :=
  approve_in "reviewed_grants" check_grants (λ p id, String.eqb id p.(GrantProposal.holder_id)).
Definition execute_human_grant_change_in : string → string → string → tx json :=
  execute_in "reviewed_grants" commit_change.
Definition cancel_human_grant_change_in : string → string → string → tx json :=
  cancel_in (P:=GrantProposal.t) "reviewed_grants".
Definition set_human_grants (token username : string) (grants : list GrantInput.t) : tx json :=
  write (mutation token (set_human_grants_in token username grants)).
Definition stage_human_grants (token username : string) (grants : list GrantInput.t) : tx json :=
  write (mutation token (stage_human_grants_in token username grants)).
Definition human_grant_change (token id : string) : tx json := read (show_change (P:=GrantProposal.t) token id).
Definition approve_human_grant_change (token id binding : string) : tx json :=
  write (mutation token (approve_human_grant_change_in token id binding)).
Definition execute_human_grant_change (token id binding : string) : tx json :=
  write (mutation token (execute_human_grant_change_in token id binding)).
Definition cancel_human_grant_change (token id binding : string) : tx json :=
  write (mutation token (cancel_human_grant_change_in token id binding)).
End grants.

(** ** Reads *)

Section reads.
Context {E : Env} {L : ApplyLease}.
Implicit Types (s : St.t) (a : Authority.t).

#[global] Instance pure_authority u : Pure (authority u).
Proof. unfold authority. solve_pure. Qed.
#[global] Instance pure_human_authority p : Pure (human_authority p).
Proof. unfold human_authority. pose proof (validate_apply_lease_pure p). solve_pure. Qed.
#[global] Instance pure_full_administrator t : Pure (full_administrator t).
Proof. unfold full_administrator. solve_pure. Qed.
#[global] Instance pure_revalidate_authority a : Pure (revalidate_authority a).
Proof. unfold revalidate_authority. solve_pure. Qed.

(** An enabled administrator, as he was when he acted, whose credentials nobody
    else may know. *)
Definition administrator a s : Prop :=
  ∃ k u, s.(St.db) !! ("users", k) = Some (RUser u) ∧ u.(User.id) = a.(Authority.id)
    ∧ u.(User.epoch) = a.(Authority.epoch) ∧ u.(User.enabled) = true ∧ u.(User.admin) = true
    ∧ s.(St.db) !! (CREDENTIAL_EXPOSURE, k) = None.
Definition users_keyed s : Prop := ∀ k u, s.(St.db) !! ("users", k) = Some (RUser u) → u.(User.id) = k.

Lemma authority_ok k s a s' :
  authority k s = (Ok a, s') →
  administrator a s ∧ (users_keyed s → a.(Authority.id) = k).
Proof.
  unfold authority. intros Hrun. apply bind_ok in Hrun as (o & s1 & [-> Ho]%get_ok & Hrun).
  apply bind_ok in Hrun as (u & s1 & [-> ->]%some_or_ok & Hrun).
  apply bind_ok in Hrun as ([] & s1 & [Hu ->]%ensure_ok & Hrun). apply andb_true_iff in Hu as [Hen Had].
  apply bind_ok in Hrun as (x & s1 & [-> Hx]%get_ok & Hrun).
  apply bind_ok in Hrun as ([] & s1 & [He%negb_true_iff%bool_decide_eq_false ->]%ensure_ok & [-> ->]%ret_ok).
  destruct x as [x|]; [destruct He; by eexists|]. split; [by exists k, u|]. intros Hk. by apply Hk in Ho.
Qed.
Lemma revalidate_authority_ok a s x s' : revalidate_authority a s = (Ok x, s') → administrator a s.
Proof.
  unfold revalidate_authority. intros Hrun. apply bind_ok in Hrun as (b & s1 & Hb & Hrun).
  pose proof (pure_run _ _ _ _ Hb) as ->. apply ensure_ok in Hrun as [->%bool_decide_eq_true ->].
  by apply authority_ok in Hb as [? _].
Qed.
Lemma full_administrator_ok token s actor a s' :
  full_administrator token s = (Ok (actor, a), s') →
  administrator a s ∧ (users_keyed s → a.(Authority.id) = actor.(Principal.id)).
Proof.
  unfold full_administrator, human_authority. intros Hrun. apply bind_ok in Hrun as (p & s1 & Hp & Hrun).
  pose proof (pure_run _ _ _ _ Hp) as ->. apply bind_ok in Hrun as (b & s1 & Hb & [[= -> ->] _]%ret_ok).
  apply bind_ok in Hb as ([] & s2 & [_ ->]%ensure_ok & Hb). apply bind_ok in Hb as ([] & s2 & Hl & Hb).
  pose proof (validate_apply_lease_pure p). pose proof (pure_run _ _ _ _ Hl) as ->. by apply authority_ok in Hb.
Qed.
End reads.

Section changes.
Context {E : Env} {L : ApplyLease} {P : Type} {R : Reviewed P}.
Implicit Types (s : St.t) (change : Change.t P).

#[global] Instance pure_load i : Pure (load (P:=P) i).
Proof. unfold load. solve_pure. Qed.
#[global] Instance pure_require_open c b : Pure (require_open (P:=P) c b).
Proof. unfold require_open. solve_pure. Qed.
#[global] Instance pure_revalidate_approvals c ps l : Pure (revalidate_approvals (P:=P) c ps l).
Proof. revert ps. induction l as [|x l IH]; intros ps; simpl; [apply _|]. cbv zeta. solve_pure. Qed.

Lemma load_change_ok i s change s' :
  load i s = (Ok change, s') →
  s' = s ∧ s.(St.db) !! (rv_bucket, i) = Some (encode change) ∧ rv_id change.(Change.proposal) = i
  ∧ change.(Change.digest) = canonical_digest (P:=P) (rv_json change.(Change.proposal)).
Proof.
  unfold load. intros Hrun. apply bind_ok in Hrun as (o & s1 & [-> Ho]%get_ok & Hrun).
  apply bind_ok in Hrun as (c & s1 & [-> ->]%some_or_ok & Hrun).
  apply bind_ok in Hrun as ([] & s1 & [Hg ->]%ensure_ok & [-> ->]%ret_ok).
  by apply andb_true_iff in Hg as [Hi%String.eqb_eq Hd%String.eqb_eq].
Qed.
Lemma require_open_ok change b s x s' :
  require_open change b s = (Ok x, s') →
  s' = s ∧ b = change.(Change.digest) ∧ s.(St.clock) < rv_expires_at change.(Change.proposal)
  ∧ open_status change.(Change.status) = true.
Proof.
  unfold require_open. intros Hrun. apply bind_ok in Hrun as ([] & s1 & [->%String.eqb_eq ->]%ensure_ok & Hrun).
  apply bind_ok in Hrun as (t & s1 & [-> ->]%now_ok & Hrun).
  apply bind_ok in Hrun as ([] & s1 & [Ht%negb_true_iff%Z.leb_gt ->]%ensure_ok & [Ho ->]%ensure_ok). done.
Qed.
Lemma revalidate_approvals_ok change ps l s x s' :
  revalidate_approvals change ps l s = (Ok x, s') →
  ∀ a, a ∈ l → let r := a.(ReviewApproval.reviewer) in
    a.(ReviewApproval.digest) = change.(Change.digest) ∧ administrator r s
    ∧ (r.(Authority.id) ∉ ps) ∧ rv_affects change.(Change.proposal) r.(Authority.id) = false.
Proof.
  revert ps. induction l as [|a l IH]; intros ps Hrun b Hb; [set_solver|]. simpl in Hrun.
  apply bind_ok in Hrun as ([] & s1 & [Hg ->]%ensure_ok & Hrun).
  apply andb_true_iff in Hg as [[Hd%String.eqb_eq Hp%negb_true_iff%bool_decide_eq_false]%andb_true_iff Ha%negb_true_iff].
  apply bind_ok in Hrun as ([] & s1 & Hr & Hrun). pose proof (pure_run _ _ _ _ Hr) as ->.
  apply revalidate_authority_ok in Hr. apply elem_of_cons in Hb as [->|Hb]; [done|].
  destruct (IH _ Hrun b Hb) as (? & ? & Hn & ?). split_and!; try done. set_solver.
Qed.

(** An execution, in steps. *)
Lemma execute_ok prefix commit token i b s v s' :
  execute_in (P:=P) prefix commit token i b s = (Ok v, s') →
  ∃ actor executor change s1,
    full_administrator token s = (Ok (actor, executor), s)
    ∧ s.(St.db) !! (rv_bucket, i) = Some (encode change) ∧ rv_id change.(Change.proposal) = i
    ∧ change.(Change.digest) = canonical_digest (P:=P) (rv_json change.(Change.proposal)) ∧ b = change.(Change.digest)
    ∧ s.(St.clock) < rv_expires_at change.(Change.proposal)
    ∧ change.(Change.status) = ReviewApproved ∧ change.(Change.approvals) ≠ []
    ∧ executor.(Authority.id) ≠ (rv_author change.(Change.proposal)).(Authority.id)
    ∧ (executor.(Authority.id) ∉ reviewer_ids change)
    ∧ commit actor change s = (Ok (), s1)
    ∧ store_change actor.(Principal.id) (prefix +:+ ".execute") i (execute_change change executor s1.(St.clock)) s1
      = (Ok v, s').
Proof.
  unfold execute_in. intros Hrun. apply bind_ok in Hrun as ([actor executor] & s1 & Ha & Hrun).
  pose proof (pure_run _ _ _ _ Ha) as ->. apply bind_ok in Hrun as (c & s1 & (-> & Hc & Hi & Hd)%load_change_ok & Hrun).
  apply bind_ok in Hrun as ([] & s1 & (-> & Hb & Ht & _)%require_open_ok & Hrun).
  apply bind_ok in Hrun as ([] & s1 & [Hg ->]%ensure_ok & Hrun). apply bind_ok in Hrun as ([] & s1 & Hcm & Hrun).
  apply bind_ok in Hrun as (t & s2 & [-> ->]%now_ok & Hrun). unfold may_execute in Hg. cbn [fst snd] in Hg.
  apply andb_true_iff in Hg as [[[Hst%bool_decide_eq_true Hn%negb_true_iff%Nat.ltb_ge]%andb_true_iff
    Hau%negb_true_iff%String.eqb_neq]%andb_true_iff Hr%negb_true_iff%bool_decide_eq_false].
  exists actor, executor, c, s1. split_and!; try done. intros Hnil. rewrite Hnil in Hn. simpl in Hn. unfold REQUIRED_REVIEWS in Hn. lia.
Qed.

Lemma touches_audit_change a x c : Touches ["meta"; "audit"] (audit_change (P:=P) a x c).
Proof. unfold audit_change. cbv zeta. solve_touches. Qed.
Lemma touches_store_change a x i c : Touches [rv_bucket; "meta"; "audit"] (store_change (P:=P) a x i c).
Proof. unfold store_change. pose proof (touches_audit_change a x c). solve_touches; apply touches_put; set_solver. Qed.
Lemma store_change_ok a x i c s v s' :
  rv_bucket ∉ ["meta"; "audit"] → store_change a x i c s = (Ok v, s') →
  s'.(St.db) !! (rv_bucket, i) = Some (encode c)
  ∧ ∀ k, k ≠ i → s'.(St.db) !! (rv_bucket, k) = s.(St.db) !! (rv_bucket, k).
Proof.
  intros Hb. unfold store_change. intros Hrun. apply bind_ok in Hrun as ([] & s1 & ->%put_ok & Hrun).
  apply bind_ok in Hrun as ([] & s1 & Ha & [_ ->]%ret_ok). pose proof (touches_audit_change a x c).
  destruct (touches_run ["meta"; "audit"] _ _ _ _ Ha) as (_ & _ & _ & Hf). cbn [St.db St.set_db] in Hf. split.
  - rewrite Hf by done. apply lookup_insert_eq.
  - intros k Hk. rewrite Hf by done. by rewrite lookup_insert_ne by congruence.
Qed.

(** Making room only removes changes. *)
Lemma make_room_ok actor prefix t s x s' :
  rv_bucket ∉ ["meta"; "audit"] → make_room (P:=P) actor prefix t s = (Ok x, s') →
  s'.(St.clock) = s.(St.clock)
  ∧ (∀ b k, b ∉ [rv_bucket; "meta"; "audit"] → s'.(St.db) !! (b, k) = s.(St.db) !! (b, k))
  ∧ ∀ k w, s'.(St.db) !! (rv_bucket, k) = Some w → s.(St.db) !! (rv_bucket, k) = Some w.
Proof.
  intros Hb. unfold make_room. intros Hrun. apply bind_ok in Hrun as (rows & s1 & Hs & Hrun).
  pose proof (pure_run _ _ _ _ Hs) as ->. apply bind_ok in Hrun as (n & s1 & Hf & [_ ->]%ensure_ok). clear Hs.
  revert s Hf. generalize 0%nat. induction rows as [|[k c] rows IH]; intros m s Hf; simpl in Hf.
  { apply ret_ok in Hf as [_ ->]. done. }
  apply bind_ok in Hf as (m' & s2 & H1 & Hf). apply IH in Hf as (Hc & Ho & Hk).
  assert (H2 : s2.(St.clock) = s.(St.clock)
    ∧ (∀ b k, b ∉ [rv_bucket; "meta"; "audit"] → s2.(St.db) !! (b, k) = s.(St.db) !! (b, k))
    ∧ ∀ k w, s2.(St.db) !! (rv_bucket, k) = Some w → s.(St.db) !! (rv_bucket, k) = Some w).
  { unfold retire_expired in H1. cbn [fst snd] in H1. destruct (_ <=? _); [|by apply ret_ok in H1 as [_ ->]].
    apply bind_ok in H1 as ([] & s3 & Ha & H1). apply bind_ok in H1 as ([] & s4 & ->%remove_ok & [_ ->]%ret_ok).
    assert (Ht : Touches ["meta"; "audit"] (if open_status (Change.status c)
      then audit_change actor (prefix +:+ ".expire") c else mret ())) by (pose proof (touches_audit_change actor); solve_touches).
    destruct (touches_run ["meta"; "audit"] _ _ _ _ Ha) as (Hc3 & _ & _ & Hf3). cbn [St.clock St.db St.set_db].
    split; [done|]. split.
    - intros b k' Hbk. rewrite lookup_delete_ne by set_solver. apply Hf3. set_solver.
    - intros k' w Hw. apply lookup_delete_Some in Hw as [_ Hw]. by rewrite Hf3 in Hw by done. }
  destruct H2 as (Hc2 & Ho2 & Hk2). split; [congruence|]. split; [intros; rewrite Ho; auto|eauto].
Qed.
End changes.

(** ** Three people *)

Section three.
Context {E : Env} {L : ApplyLease}.
Implicit Types (s : St.t) (c : Change.t GrantProposal.t) (g : HumanGrant.t) (u : string).
#[local] Abbreviation GRANTS := (rv_bucket (P:=GrantProposal.t)).

(** The grants stored for an account. *)
Definition held u s : list HumanGrant.t :=
  match s.(St.db) !! ("human_grants", u) with Some (RHumanGrants l) => l | _ => [] end.
Lemma held_ok u s l s' : Human.stored u s = (Ok l, s') → s' = s ∧ l = held u s.
Proof.
  unfold Human.stored, held. intros Hrun. apply bind_ok in Hrun as (o & s1 & [-> Ho]%get_ok & [-> ->]%ret_ok).
  split; [done|]. rewrite Ho. by destruct o.
Qed.
Lemma elem_of_sorted g l : g ∈ sorted l ↔ g ∈ l.
Proof. unfold sorted. by rewrite (merge_sort_Permutation grant_le). Qed.
Lemma elem_of_high g l : privileged g = true → g ∈ high_privilege l ↔ g ∈ l.
Proof. intros Hg. unfold high_privilege. rewrite !list_elem_of_In, filter_In. tauto. Qed.

#[global] Instance pure_bind_grants h seen l : Pure (bind_grants h seen l).
Proof. revert seen. induction l as [|x l IH]; intros seen; simpl; [apply _|]. solve_pure. Qed.
#[global] Instance pure_prepare_grants a n l : Pure (prepare_grants a n l).
Proof. unfold prepare_grants, Human.stored. cbv zeta. solve_pure. Qed.
#[global] Instance pure_grant_resource_revision h b a : Pure (grant_resource_revision h b a).
Proof. unfold grant_resource_revision, target_digests, target_value, Human.stored. solve_pure. Qed.

Lemma prepare_grants_ok actor n l s h b a s' :
  prepare_grants actor n l s = (Ok (h, b, a), s') →
  h.(User.id) ≠ actor.(Principal.id) ∧ b = sorted (held h.(User.id) s).
Proof.
  unfold prepare_grants. cbv zeta. intros Hrun. apply bind_ok in Hrun as (h' & s1 & Hh & Hrun).
  pose proof (pure_run _ _ _ _ Hh) as ->. apply bind_ok in Hrun as ([] & s1 & [Hg ->]%ensure_ok & Hrun).
  apply negb_true_iff, orb_false_iff in Hg as [[Hne%String.eqb_neq _]%orb_false_iff _].
  apply bind_ok in Hrun as ([] & s1 & He & Hrun).
  assert (s1 = s) as -> by (revert He; apply pure_run; solve_pure).
  apply bind_ok in Hrun as (bound & s1 & Hb & Hrun). pose proof (pure_run _ _ _ _ Hb) as ->.
  apply bind_ok in Hrun as (before & s1 & [-> ->]%held_ok & [[= -> -> ->] _]%ret_ok). done.
Qed.

(** What a write of grants leaves. *)
Lemma persist_grants_ok h b a s x s' :
  persist_grants h b a s = (Ok x, s') →
  (∀ u, held u s' = if decide (u = h.(User.id) ∧ b ≠ a) then a else held u s)
  ∧ s'.(St.clock) = s.(St.clock)
  ∧ ∀ k w, k ∉ ["human_grants"; "human_grant_generations"] → s'.(St.db) !! (k, w) = s.(St.db) !! (k, w).
Proof.
  unfold persist_grants. case_bool_decide as Heq; intros Hrun.
  { apply ret_ok in Hrun as [_ ->]. split; [|done]. intros u. by rewrite decide_False by tauto. }
  assert (Ht : Touches ["human_grants"] (if bool_decide (a = []) then remove "human_grants" (User.id h)
    else put "human_grants" (User.id h) a)) by solve_touches.
  apply bind_ok in Hrun as ([] & s1 & H1 & Hrun). destruct (touches_run ["human_grants"] _ _ _ _ H1) as (Hc & _ & _ & Hf).
  apply bind_ok in Hrun as (n & s2 & [-> _]%get_ok & Hrun). cbv zeta in Hrun.
  apply bind_ok in Hrun as ([] & s2 & [_ ->]%ensure_ok & Hrun).
  apply bind_ok in Hrun as ([] & s2 & ->%put_ok & [_ ->]%ret_ok). cbn [St.clock St.db St.set_db]. split_and!; [|done|].
  - intros u. unfold held at 1. cbn [St.db St.set_db]. rewrite lookup_insert_ne by done.
    case_bool_decide as Ha; [apply remove_ok in H1 as ->|apply put_ok in H1 as ->]; cbn [St.db St.set_db].
    + destruct (decide (u = h.(User.id))) as [->|Hu].
      * rewrite lookup_delete_eq, decide_True by done. done.
      * rewrite lookup_delete_ne, decide_False by naive_solver. done.
    + destruct (decide (u = h.(User.id))) as [->|Hu].
      * rewrite lookup_insert_eq, decide_True by done. done.
      * rewrite lookup_insert_ne, decide_False by naive_solver. done.
  - intros k w Hk. rewrite lookup_insert_ne by set_solver. apply Hf. set_solver.
Qed.
Lemma held_frame {A} bs (m : tx A) `{!Touches bs m} s r s' u :
  "human_grants" ∉ bs → m s = (r, s') → held u s' = held u s.
Proof. intros Hb Hrun. unfold held. destruct (touches_run bs _ _ _ _ Hrun) as (_ & _ & _ & Hf). by rewrite Hf by done. Qed.
Lemma commit_grants_ok actor h b a s x s' :
  commit_grants actor h b a s = (Ok x, s') →
  (∀ u, held u s' = if decide (u = h.(User.id) ∧ b ≠ a) then a else held u s)
  ∧ s'.(St.clock) = s.(St.clock) ∧ ∀ k, s'.(St.db) !! (GRANTS, k) = s.(St.db) !! (GRANTS, k).
Proof.
  unfold commit_grants. intros Hrun. apply bind_ok in Hrun as (ch & s1 & (Hh & Hc & Hf)%persist_grants_ok & Hrun).
  apply bind_ok in Hrun as ([] & s2 & Ha & [_ ->]%ret_ok).
  assert (Ht : Touches ["meta"; "audit"] (if ch then audit_with_details (Principal.id actor) "delegation.grants.set" (User.username h)
    [("grants", grants_json a)] else mret ())) by solve_touches.
  destruct (touches_run ["meta"; "audit"] _ _ _ _ Ha) as (Hc2 & _ & _ & Hf2). split_and!.
  - intros u. rewrite <- Hh. unfold held. by rewrite Hf2 by bucket.
  - congruence.
  - intros k. rewrite Hf2 by bucket. apply Hf. bucket.
Qed.

(** Nobody proposes grants for himself. *)
Definition independent c : Prop :=
  c.(Change.proposal).(GrantProposal.author).(Authority.id) ≠ c.(Change.proposal).(GrantProposal.holder_id).
Definition all_independent s : Prop := ∀ k c, s.(St.db) !! (GRANTS, k) = Some (RGrantChange c) → independent c.

(** One committed request on grants, or anything that leaves the grants and the
    staged changes alone. *)
Inductive grant_request : St.t → St.t → Prop :=
| gr_set actor n l mode s w s' : write_immediate_grants actor n l mode s = (Ok w, s') → grant_request s s'
| gr_stage actor n l s v s' : stage_grants actor n l s = (Ok v, s') → grant_request s s'
| gr_approve token i b s v s' : approve_human_grant_change_in token i b s = (Ok v, s') → grant_request s s'
| gr_execute token i b s v s' : execute_human_grant_change_in token i b s = (Ok v, s') → grant_request s s'
| gr_cancel token i b s v s' : cancel_human_grant_change_in token i b s = (Ok v, s') → grant_request s s'
| gr_other s s' : (∀ u, held u s' = held u s) → (∀ k, s'.(St.db) !! (GRANTS, k) = s.(St.db) !! (GRANTS, k)) →
    grant_request s s'.
(** User records are stored under their ids. *)
Definition grant_step s s' : Prop := users_keyed s ∧ grant_request s s'.

Lemma store_grant_ok a x i c s v s' :
  store_change a x i c s = (Ok v, s') →
  (∀ u, held u s' = held u s) ∧ s'.(St.db) !! (GRANTS, i) = Some (RGrantChange c)
  ∧ ∀ k, k ≠ i → s'.(St.db) !! (GRANTS, k) = s.(St.db) !! (GRANTS, k).
Proof.
  intros Hrun. pose proof (touches_store_change a x i c) as Ht.
  destruct (touches_run [GRANTS; "meta"; "audit"] _ _ _ _ Hrun) as (_ & _ & _ & Hf).
  split; [intros u; unfold held; by rewrite Hf by bucket|].
  apply store_change_ok in Hrun; [done|bucket].
Qed.

(** An immediate write keeps the high-privilege grants. *)
Lemma immediate_ok actor n l mode s w s' :
  write_immediate_grants actor n l mode s = (Ok w, s') →
  (∀ u g, privileged g = true → g ∈ held u s' ↔ g ∈ held u s)
  ∧ ∀ k, s'.(St.db) !! (GRANTS, k) = s.(St.db) !! (GRANTS, k).
Proof.
  unfold write_immediate_grants. intros Hrun. apply bind_ok in Hrun as ([] & s1 & [_ ->]%ensure_ok & Hrun).
  apply bind_ok in Hrun as ([] & s1 & Hl & Hrun). pose proof (validate_apply_lease_pure actor).
  pose proof (pure_run _ _ _ _ Hl) as ->. apply bind_ok in Hrun as (a0 & s1 & Ha & Hrun). pose proof (pure_run _ _ _ _ Ha) as ->.
  apply bind_ok in Hrun as ([[h b] a] & s1 & Hp & Hrun). pose proof (pure_run _ _ _ _ Hp) as ->.
  apply prepare_grants_ok in Hp as [_ ->]. apply bind_ok in Hrun as ([] & s1 & [Hhigh%bool_decide_eq_true ->]%ensure_ok & Hrun).
  apply bind_ok in Hrun as (v & s1 & Hm & [_ ->]%ret_ok).
  assert (Hw : (∀ u, held u s1 = held u s ∨ u = h.(User.id) ∧ held u s1 = a)
    ∧ ∀ k, s1.(St.db) !! (GRANTS, k) = s.(St.db) !! (GRANTS, k)).
  { assert (Hd : (∀ u, held u s1 = if decide (u = h.(User.id) ∧ sorted (held h.(User.id) s) ≠ a) then a else held u s) →
      ∀ u, held u s1 = held u s ∨ u = h.(User.id) ∧ held u s1 = a).
    { intros Hh u. rewrite Hh. clear Hh. case_decide as Hd; [right; by destruct Hd|by left]. }
    destruct mode.
    - apply commit_grants_ok in Hm as (Hh & _ & Hg). auto.
    - apply ret_ok in Hm as [_ ->]. auto.
    - apply bind_ok in Hm as (x & s2 & (Hh & _ & Hg)%persist_grants_ok & [_ ->]%ret_ok). split; [auto|].
      intros k. apply Hg. bucket. }
  destruct Hw as [Hw Hg]. split; [|done]. intros u g Hpriv. destruct (Hw u) as [->|[-> ->]]; [done|].
  by rewrite <- (elem_of_high g a Hpriv), <- Hhigh, (elem_of_high g _ Hpriv), elem_of_sorted.
Qed.

(** Staging, approving and cancelling leave the grants. *)
Lemma stage_ok actor n l s v s' :
  users_keyed s → stage_grants actor n l s = (Ok v, s') →
  (∀ u, held u s' = held u s) ∧ (all_independent s → all_independent s').
Proof.
  intros Hk. unfold stage_grants. intros Hrun. apply bind_ok in Hrun as (author & s1 & Ha & Hrun).
  pose proof (pure_run _ _ _ _ Ha) as ->. apply bind_ok in Hrun as ([[h b] a] & s1 & Hp & Hrun).
  pose proof (pure_run _ _ _ _ Hp) as ->. apply prepare_grants_ok in Hp as [Hne _].
  apply bind_ok in Hrun as ([] & s1 & [_ ->]%ensure_ok & Hrun). apply bind_ok in Hrun as (t & s1 & [-> ->]%now_ok & Hrun).
  apply bind_ok in Hrun as ([] & s1 & Hroom & Hrun). apply make_room_ok in Hroom as (_ & Hf & Hsub); [|bucket].
  apply bind_ok in Hrun as (cid & s2 & [-> ->]%id_ok & Hrun). apply bind_ok in Hrun as (rev & s2 & [-> _]%get_ok & Hrun).
  apply bind_ok in Hrun as (res & s2 & Hres & Hrun). pose proof (pure_run _ _ _ _ Hres) as ->.
  apply store_grant_ok in Hrun as (Hh & Hnew & Hold). cbn [St.db] in Hh, Hold.
  split; [intros u; rewrite Hh; unfold held; cbn [St.db]; by rewrite Hf by bucket|]. intros Hall k c Hc.
  match goal with H : _ !! (GRANTS, ?i) = Some (RGrantChange (new_change _)) |- _ => destruct (decide (k = i)) as [->|Hki] end.
  - rewrite Hnew in Hc. injection Hc as <-. unfold independent. simpl. intros Heq. apply Hne. rewrite <- Heq.
    unfold human_authority in Ha. apply bind_ok in Ha as ([] & s3 & [_ ->]%ensure_ok & Ha).
    apply bind_ok in Ha as ([] & s3 & Hl & Ha). pose proof (validate_apply_lease_pure actor).
    pose proof (pure_run _ _ _ _ Hl) as ->. apply authority_ok in Ha as [_ Hid]. by apply Hid.
  - rewrite Hold in Hc by done. by eapply Hall, Hsub.
Qed.
Lemma amended_ok a x i c c' s v s' :
  s.(St.db) !! (GRANTS, i) = Some (RGrantChange c) → c'.(Change.proposal) = c.(Change.proposal) →
  store_change a x i c' s = (Ok v, s') →
  (∀ u, held u s' = held u s) ∧ (all_independent s → all_independent s').
Proof.
  intros Hc Hp Hrun. apply store_grant_ok in Hrun as (Hh & Hnew & Hold). split; [done|]. intros Hall k d Hd.
  destruct (decide (k = i)) as [->|Hk]; [|rewrite Hold in Hd by done; by eapply Hall].
  rewrite Hnew in Hd. injection Hd as <-. unfold independent. rewrite Hp. by eapply Hall.
Qed.
Lemma approve_in_ok token i b s v s' :
  approve_human_grant_change_in token i b s = (Ok v, s') →
  (∀ u, held u s' = held u s) ∧ (all_independent s → all_independent s').
Proof.
  unfold approve_human_grant_change_in, approve_in. intros Hrun.
  apply bind_ok in Hrun as ([actor r] & s1 & Ha & Hrun). pose proof (pure_run _ _ _ _ Ha) as ->.
  apply bind_ok in Hrun as (c & s1 & (-> & Hc & _)%load_change_ok & Hrun).
  apply bind_ok in Hrun as ([] & s1 & (-> & _)%require_open_ok & Hrun). apply bind_ok in Hrun as ([] & s1 & [_ ->]%ensure_ok & Hrun).
  apply bind_ok in Hrun as ([] & s1 & Hv & Hrun).
  assert (s1 = s) as ->. { revert Hv. apply pure_run. unfold check_grants, revalidate_grants. cbv zeta. solve_pure. }
  apply bind_ok in Hrun as (t & s1 & [-> ->]%now_ok & Hrun). by eapply amended_ok in Hrun.
Qed.
Lemma cancel_ok token i b s v s' :
  cancel_human_grant_change_in token i b s = (Ok v, s') →
  (∀ u, held u s' = held u s) ∧ (all_independent s → all_independent s').
Proof.
  unfold cancel_human_grant_change_in, cancel_in. intros Hrun.
  apply bind_ok in Hrun as ([actor r] & s1 & Ha & Hrun). pose proof (pure_run _ _ _ _ Ha) as ->.
  apply bind_ok in Hrun as (c & s1 & (-> & Hc & _)%load_change_ok & Hrun).
  apply bind_ok in Hrun as ([] & s1 & (-> & _)%require_open_ok & Hrun). by eapply amended_ok in Hrun.
Qed.

(** What an execution rests on. *)
Record executed_by i c executor u s s' : Prop := {
  eb_stored : s.(St.db) !! (GRANTS, i) = Some (RGrantChange c);
  eb_status : c.(Change.status) = ReviewApproved;
  eb_live : s.(St.clock) < c.(Change.proposal).(GrantProposal.expires_at);
  eb_holder : c.(Change.proposal).(GrantProposal.holder_id) = u;
  eb_author : administrator c.(Change.proposal).(GrantProposal.author) s;
  eb_executor : administrator executor s;
  eb_reviewed : c.(Change.approvals) ≠ [];
  eb_reviewers : ∀ a, a ∈ c.(Change.approvals) → administrator a.(ReviewApproval.reviewer) s
    ∧ a.(ReviewApproval.digest) = c.(Change.digest)
    ∧ NoDup [c.(Change.proposal).(GrantProposal.author).(Authority.id);
             a.(ReviewApproval.reviewer).(Authority.id); executor.(Authority.id); u];
  eb_content : c.(Change.digest) = canonical_digest (P:=GrantProposal.t) (grant_proposal_json c.(Change.proposal));
  eb_after : ∀ g, g ∈ held u s' ↔ g ∈ c.(Change.proposal).(GrantProposal.after);
  eb_done : s'.(St.db) !! (GRANTS, i) = Some (RGrantChange (execute_change c executor s.(St.clock)));
}.

Lemma execute_grant_ok token i b s v s' :
  users_keyed s → all_independent s → execute_human_grant_change_in token i b s = (Ok v, s') →
  ∃ c executor, executed_by i c executor c.(Change.proposal).(GrantProposal.holder_id) s s'
    ∧ (∀ u, u ≠ c.(Change.proposal).(GrantProposal.holder_id) → held u s' = held u s)
    ∧ ∀ k, k ≠ i → s'.(St.db) !! (GRANTS, k) = s.(St.db) !! (GRANTS, k).
Proof.
  intros Hk Hall Hrun. unfold execute_human_grant_change_in in Hrun. apply execute_ok in Hrun
    as (actor & executor & c & s1 & Ha & Hc & _ & Hd & _ & Ht & Hst & Hap & Hne & Hnr & Hcm & Hstore).
  change (encode c) with (RGrantChange c) in Hc. apply full_administrator_ok in Ha as [Hex Hid].
  unfold commit_change in Hcm. apply bind_ok in Hcm as (h & s2 & Hv & Hcm). cbv zeta in Hcm.
  apply bind_ok in Hcm as (j & s3 & Hcg & [_ ->]%ret_ok). unfold revalidate_grants in Hv. cbv zeta in Hv.
  apply bind_ok in Hv as ([] & s4 & Hau & Hv). pose proof (pure_run _ _ _ _ Hau) as ->. apply revalidate_authority_ok in Hau.
  apply bind_ok in Hv as ([] & s4 & Hrv & Hv). pose proof (pure_run _ _ _ _ Hrv) as ->.
  pose proof (revalidate_approvals_ok _ _ _ _ _ _ Hrv) as Hr. clear Hrv.
  apply bind_ok in Hv as (rev & s4 & [-> _]%get_ok & Hv). apply bind_ok in Hv as ([] & s4 & [_ ->]%ensure_ok & Hv).
  apply bind_ok in Hv as ([[h' b'] a'] & s4 & Hp & Hv). pose proof (pure_run _ _ _ _ Hp) as ->.
  apply prepare_grants_ok in Hp as [Hself ->]. apply bind_ok in Hv as ([] & s4 & [Hg ->]%ensure_ok & Hv).
  apply andb_true_iff in Hg as [[Hh%String.eqb_eq Hb%bool_decide_eq_true]%andb_true_iff Ha'%bool_decide_eq_true].
  apply bind_ok in Hv as (res & s4 & Hres & Hv). pose proof (pure_run _ _ _ _ Hres) as ->.
  apply bind_ok in Hv as ([] & s4 & [_ ->]%ensure_ok & [-> ->]%ret_ok).
  apply commit_grants_ok in Hcg as (Hheld & Hclock & Hsame). apply store_grant_ok in Hstore as (Hh1 & Hnew & Hold).
  rewrite Hh in *. exists c, executor. split_and!.
  - split; try done.
    + intros a Hin. destruct (Hr a Hin) as (Hdg & Hadm & Hnp & Haff). split; [done|]. split; [done|]. simpl in Haff.
      apply String.eqb_neq in Haff. rewrite <- (Hid Hk) in Hself. pose proof (Hall _ _ Hc) as Hind. unfold independent in Hind.
      assert (Hrin : a.(ReviewApproval.reviewer).(Authority.id) ≠ executor.(Authority.id)).
      { intros Heq. apply Hnr. rewrite <- Heq. unfold reviewer_ids.
        by apply (list_elem_of_fmap_2 (λ a, a.(ReviewApproval.reviewer).(Authority.id))). }
      simpl in Hne. rewrite !NoDup_cons, !not_elem_of_cons. pose proof (NoDup_nil_2 (A:=string)). set_solver.
    + intros g. rewrite Hh1, Hheld. destruct (decide _) as [_|Hn]; [done|].
      assert (Heq : c.(Change.proposal).(GrantProposal.before) = c.(Change.proposal).(GrantProposal.after))
        by (destruct (decide (GrantProposal.before (Change.proposal c) = GrantProposal.after (Change.proposal c))); tauto).
      rewrite <- Heq, <- Hb. by rewrite elem_of_sorted.
    + by rewrite <- Hclock.
  - intros u Hu. rewrite Hh1, Hheld, decide_False by tauto. done.
  - intros k Hki. rewrite Hold by done. apply Hsame.
Qed.

Lemma grant_step_inv s s' :
  grant_step s s' → all_independent s →
  all_independent s'
  ∧ ∀ u g, privileged g = true → (g ∈ held u s' ↔ g ∈ held u s) ∨ ∃ i c executor, executed_by i c executor u s s'.
Proof.
  intros [Hk Hreq] Hall. destruct Hreq as [actor n l mode s w s' Hrun|actor n l s v s' Hrun|token i b s v s' Hrun
    |token i b s v s' Hrun|token i b s v s' Hrun|s s' Hh Hg].
  - apply immediate_ok in Hrun as [Hh Hg]. split; [|by left; apply Hh]. intros k c. rewrite Hg. apply Hall.
  - apply stage_ok in Hrun as [Hh Hi]; [|done]. split; [auto|]. left. by rewrite Hh.
  - apply approve_in_ok in Hrun as [Hh Hi]. split; [auto|]. left. by rewrite Hh.
  - apply execute_grant_ok in Hrun as (c & executor & He & Hother & Hold); [|done|done]. split.
    + intros k d Hd. destruct (decide (k = i)) as [->|Hki]; [|rewrite Hold in Hd by done; by eapply Hall].
      rewrite (eb_done _ _ _ _ _ _ He) in Hd. injection Hd as <-. apply (Hall _ _ (eb_stored _ _ _ _ _ _ He)).
    + intros u g _. destruct (decide (u = c.(Change.proposal).(GrantProposal.holder_id))) as [->|Hu].
      * right. by exists i, c, executor.
      * left. by rewrite Hother.
  - apply cancel_ok in Hrun as [Hh Hi]. split; [auto|]. left. by rewrite Hh.
  - split; [|left; by rewrite Hh]. intros k c. rewrite Hg. apply Hall.
Qed.

End three.

(** ** An example *)

Module ReviewsDemo.
#[local] Existing Instance Demo.env.
#[local] Program Instance lease : ApplyLease := {| validate_apply_lease _ := mret () |}.

(** Ann, Bea and Cid administer; Amy is to rotate the signing key. *)
Definition admin (id name : string) : User.t :=
  User.mk false TotpSettings.default "seed" id name None name "" true true 1 None None None 100 ∅ false ∅ ∅.
Definition session (id sid hash : string) : Session.t :=
  Session.mk sid hash (Identity.mk ["pwd"; "otp"] None id 1 true 900 sid) 5000 false.
Definition db : gmap (string * string) row :=
  {[ ("users", "u-ann") := RUser (admin "u-ann" "ann"); ("users", "u-bea") := RUser (admin "u-bea" "bea");
     ("users", "u-cid") := RUser (admin "u-cid" "cid"); ("users", "u-amy") := RUser FlowDemo.user;
     ("usernames", "amy") := RString "u-amy";
     ("elevation_provenance", "u-amy") :=
       RProvenance (ElevationProvenance.mk "u-amy" (identity_stamp FlowDemo.user) Bootstrap 100);
     ("sessions", "s-ann") := RSession (session "u-ann" "s-ann" "#ann");
     ("session_tokens", "#ann") := RString "s-ann";
     ("sessions", "s-bea") := RSession (session "u-bea" "s-bea" "#bea");
     ("session_tokens", "#bea") := RString "s-bea";
     ("sessions", "s-cid") := RSession (session "u-cid" "s-cid" "#cid");
     ("session_tokens", "#cid") := RString "s-cid" ]}.
Definition start : St.t := St.mk db 1000 0 None.
Definition ann : Principal.t := Principal.mk "u-ann" false false [] [].
Definition wanted : GrantInput.t := GrantInput.mk SecurityAdministrator "key/signing".
Definition grant : HumanGrant.t := HumanGrant.mk SecurityAdministrator "key/signing" "signing".

Definition staged : Result json * St.t := stage_grants ann "amy" [wanted] start.
Definition cid : string := "id-0".
Definition change : Change.t GrantProposal.t :=
  match staged.2.(St.db) !! ("reviewed_human_grants", cid) with
  | Some (RGrantChange c) => c
  | _ => new_change (GrantProposal.mk "" "" "" "" (Authority.mk "" 0) [] [] 0 "" "" 0 0)
  end.
Definition approved : Result json * St.t := approve_human_grant_change_in "bea" cid change.(Change.digest) staged.2.
Definition executed : Result json * St.t := execute_human_grant_change_in "cid" cid change.(Change.digest) approved.2.
Definition value (r : Result json) : json := match r with Ok v => v | Err _ => JNull end.
End ReviewsDemo.

(** Bea may not execute what she approved, and Ann may not approve what she
    proposed; nor may Ann give the role at once. *)
Example review_runs :
  held "u-amy" ReviewsDemo.executed.2 = [ReviewsDemo.grant]
  ∧ (@execute_human_grant_change_in Demo.env ReviewsDemo.lease "bea" ReviewsDemo.cid
       ReviewsDemo.change.(Change.digest) ReviewsDemo.approved.2).1 = Err Error.forbidden
  ∧ (@approve_human_grant_change_in Demo.env ReviewsDemo.lease "ann" ReviewsDemo.cid
       ReviewsDemo.change.(Change.digest) ReviewsDemo.staged.2).1 = Err Error.forbidden
  ∧ (@write_immediate_grants Demo.env ReviewsDemo.lease ReviewsDemo.ann "amy" [ReviewsDemo.wanted] DirectWrite
       ReviewsDemo.start).1 = Err (Error.conflict "High-privilege grant changes require a reviewed grant change").
Proof. split_and!; by_vm. Qed.

(** A check of all rows at once. *)
Definition row_keyed (k : string * string) (w : row) : bool :=
  match w with
  | RUser u => negb (String.eqb k.1 "users") || String.eqb u.(User.id) k.2
  | _ => true
  end.
Lemma rows_keyed s : map_Forall (λ k w, row_keyed k w = true) s.(St.db) → users_keyed s.
Proof. intros H k u Hu. apply H in Hu. cbn in Hu. by apply String.eqb_eq in Hu. Qed.
Ltac rows_checked := refine (bool_decide_eq_true_1 _ _); vm_compute; reflexivity.

