(* ===== verification/Memberships.v ===== *)
(** * Reviewed memberships (src/src/management/memberships.rs)

    The members of a privileged group change only by review: one administrator
    proposes the whole new membership, another approves it, a third executes it.
    Nobody whose own membership changes takes part, every member who stays or
    joins is ready for elevation, and execution writes through the group writer of
    [Groups], the only caller that may tell it the change was reviewed. *)

From S2P Require Import Prelude Json Model Store Env Provider Jose Delegation Agents Redaction Identities Management Exposure Groups Reviews.

#[local] Set Warnings "-clear-no-such-hyp".

Definition MAX_MEMBERS : nat := 128.

Definition member_json (m : Member.t) : json :=
  Json.obj [("user_id", JStr m.(Member.user_id)); ("username", Json.of_option JStr m.(Member.username))].
Definition members_json (l : list Member.t) : json := JArr (member_json <$> l).
Definition member_proposal_json (p : MemberProposal.t) : json :=
  Json.obj [("id", JStr p.(MemberProposal.id)); ("resource", JStr p.(MemberProposal.resource));
            ("group", JStr p.(MemberProposal.group)); ("author", authority_json p.(MemberProposal.author));
            ("before", members_json p.(MemberProposal.before)); ("after", members_json p.(MemberProposal.after));
            ("base_revision", JNum p.(MemberProposal.base_revision));
            ("resource_revision", JStr p.(MemberProposal.resource_revision));
            ("policy_revision", JStr p.(MemberProposal.policy_revision));
            ("created_at", JNum p.(MemberProposal.created_at)); ("expires_at", JNum p.(MemberProposal.expires_at))].

Definition names_member (l : list Member.t) (id : string) : bool :=
  existsb (λ m, String.eqb m.(Member.user_id) id) l.
(** [changed_member]. *)
Definition changed_member (p : MemberProposal.t) (actor_id : string) : bool :=
  xorb (names_member p.(MemberProposal.before) actor_id) (names_member p.(MemberProposal.after) actor_id).

#[global] Instance member_reviewed : Reviewed MemberProposal.t := {|
  rv_bucket := "reviewed_group_memberships";
  rv_version := "riauth/reviewed-group-memberships/v1";
  rv_noun := "Reviewed membership";
  rv_missing := "Reviewed membership change not found";
  rv_json := member_proposal_json;
  rv_id := MemberProposal.id;
  rv_resource := MemberProposal.resource;
  rv_author := MemberProposal.author;
  rv_before p := members_json p.(MemberProposal.before);
  rv_after p := members_json p.(MemberProposal.after);
  rv_base_revision := MemberProposal.base_revision;
  rv_resource_revision := MemberProposal.resource_revision;
  rv_policy_revision := MemberProposal.policy_revision;
  rv_expires_at := MemberProposal.expires_at;
  rv_affects := changed_member;
|}.

Section memberships.
Context {E : Env} {L : ApplyLease}.
#[local] Abbreviation mdigest := (canonical_digest (P:=MemberProposal.t)).

Definition member_policy_revision : string :=
  mdigest (Json.obj
    [("version", JStr (rv_version (P:=MemberProposal.t))); ("issuer", JStr config.(Config.issuer));
     ("pam_approvers", config_json "pam_approvers");
     ("reviewed_membership_groups", config_json "reviewed_membership_groups");
     ("capabilities", config_json "capabilities"); ("directories", config_json "directories");
     ("workspace_directories", config_json "workspace_directories");
     ("entra_directories", config_json "entra_directories"); ("required_reviews", JNum 1);
     ("lifetime", JNum LIFETIME); ("max_members", JNum (Z.of_nat MAX_MEMBERS))]).

Definition current_member (acc : list Member.t) (user_id : string) : tx (list Member.t) :=
  user ← get User.t "users" user_id;
  mret (acc ++ [Member.mk user_id (User.username <$> user)]).
Definition proposed_member (after : gmap string string) (username : string) : tx (gmap string string) :=
  _ ← lift (validate_name username);
  user ← Human.user_by_name username;
  _ ← ensure (String.eqb user.(User.username) username) (Error.conflict "Membership username binding changed");
  _ ← ensure user.(User.enabled) Error.forbidden;
  _ ← require_elevation_ready user;
  _ ← ensure (bool_decide (after !! user.(User.id) = None)) (Error.bad "Duplicate group member");
  mret (<[user.(User.id) := username]> after).
(** [prepare]: the members now and the members proposed. *)
Definition prepare_members (actor : Principal.t) (name : string) (members : list string) :
    tx (list Member.t * list Member.t) :=
  _ ← lift (validate_name name);
  _ ← lift (Principal.require actor "group.read" ("group/" +:+ name));
  _ ← lift (Principal.require actor "group.members" ("group/" +:+ name));
  _ ← ensure (requires_membership_review name) (Error.bad "This group uses immediate membership changes");
  group ← existing_group name;
  _ ← ensure (negb ((MAX_MEMBERS <? size group.(Group.members))%nat || (MAX_MEMBERS <? length members)%nat))
        (Error.bad "Reviewed groups support at most 128 current and proposed members");
  before ← fold_m current_member [] (btree_iter group.(Group.members));
  after ← fold_m proposed_member ∅ members;
  let after := (λ kv : string * string, Member.mk kv.1 (Some kv.2)) <$> btree_entries after in
  _ ← ensure (negb (bool_decide (before = after))) (Error.bad "Membership is unchanged");
  mret (before, after).

(** [resource_revision]: a digest of what is stored about every person involved. *)
Definition person_digest (deps : list (string * json)) (uid : string) : tx (list (string * json)) :=
  user ← get User.t "users" uid;
  username_id ← match user with
                | Some u => o ← get string "usernames" u.(User.username); mret (Json.of_option JStr o)
                | None => mret JNull
                end;
  exposure ← credential_exposure uid;
  provenance ← get row ELEVATION_PROVENANCE uid;
  fence ← get row MEMBERSHIP_HOLDERS uid;
  directory ← get row "directory_users" uid;
  cloud ← get row "cloud_directory_users" uid;
  generation ← get Z "human_grant_generations" uid;
  mret (deps ++ [(uid, JStr (mdigest (Json.obj
    [("user", Json.of_option (λ u, row_json (RUser u)) user); ("username_id", username_id);
     ("credential_exposure", Json.of_option (λ e, row_json (RExposure e)) exposure);
     ("elevation_provenance", Json.of_option row_json provenance);
     ("membership_fence", Json.of_option row_json fence); ("directory_binding", Json.of_option row_json directory);
     ("cloud_binding", Json.of_option row_json cloud); ("grant_generation", JNum (default 0 generation))])))]).
Definition member_resource_revision (before after : list Member.t) : tx string :=
  deps ← fold_m person_digest [] (btree_iter (list_to_set (Member.user_id <$> before ++ after)));
  mret (mdigest (Json.obj deps)).

(** [revalidate]. *)
Definition revalidate_members (actor : Principal.t) (change : Change.t MemberProposal.t) : tx unit :=
  let p := change.(Change.proposal) in
  _ ← revalidate_authority p.(MemberProposal.author);
  _ ← ensure (negb (changed_member p p.(MemberProposal.author).(Authority.id)
                    || changed_member p actor.(Principal.id))) Error.forbidden;
  _ ← revalidate_approvals change [p.(MemberProposal.author).(Authority.id)] change.(Change.approvals);
  _ ← ensure (String.eqb p.(MemberProposal.policy_revision) member_policy_revision)
        (Error.conflict "Reviewed membership resource or policy revision changed");
  members ← some_or (mapM Member.username p.(MemberProposal.after))
              (Error.conflict "Reviewed member identity is missing");
  ba ← prepare_members actor p.(MemberProposal.group) members;
  let changed := Error.conflict "Reviewed membership dependencies changed" in
  _ ← ensure (bool_decide (ba.1 = p.(MemberProposal.before)) && bool_decide (ba.2 = p.(MemberProposal.after))) changed;
  resource ← member_resource_revision ba.1 ba.2;
  ensure (String.eqb p.(MemberProposal.resource_revision) resource) changed.

Definition stage_group_membership_in (token group : string) (members : list string) : tx json :=
  aa ← full_administrator token;
  let actor := aa.1 in
  ba ← prepare_members actor group members;
  at_ ← now;
  cid ← id;
  revision ← get Z "meta" "revision";
  resource ← member_resource_revision ba.1 ba.2;
  let p := MemberProposal.mk cid ("group/" +:+ group +:+ "/members") group aa.2 ba.1 ba.2 (default 0 revision) resource
             member_policy_revision at_ (wadd at_ LIFETIME) in
  _ ← ensure (negb (changed_member p actor.(Principal.id))) Error.forbidden;
  _ ← make_room (P:=MemberProposal.t) actor.(Principal.id) "reviewed_memberships" at_;
  store_change actor.(Principal.id) "reviewed_memberships.stage" cid (new_change p).
(** What [execute_group_membership_change] does between its guards and the record. *)
Definition commit_members (actor : Principal.t) (change : Change.t MemberProposal.t) : tx unit :=
  _ ← revalidate_members actor change;
  let p := change.(Change.proposal) in
  _ ← write_group_inner actor p.(MemberProposal.group)
        (ReplaceMembers (list_to_set (Member.user_id <$> p.(MemberProposal.after))))
        (OnChange "group.members.reviewed" p.(MemberProposal.group)) true;
  mret ().
Definition approve_group_membership_change_in : string → string → string → tx json :=
  approve_in "reviewed_memberships" revalidate_members (λ _ _, false).
Definition execute_group_membership_change_in : string → string → string → tx json :=
  execute_in "reviewed_memberships" commit_members.
Definition cancel_group_membership_change_in : string → string → string → tx json :=
  cancel_in (P:=MemberProposal.t) "reviewed_memberships".

Definition stage_group_membership (token group : string) (members : list string) : tx json :=
  write (mutation token (stage_group_membership_in token group members)).
Definition group_membership_change (token id : string) : tx json := read (show_change (P:=MemberProposal.t) token id).
Definition approve_group_membership_change (token id binding : string) : tx json :=
  write (mutation token (approve_group_membership_change_in token id binding)).
Definition execute_group_membership_change (token id binding : string) : tx json :=
  write (mutation token (execute_group_membership_change_in token id binding)).
Definition cancel_group_membership_change (token id binding : string) : tx json :=
  write (mutation token (cancel_group_membership_change_in token id binding)).
End memberships.

(** ** Three people, and none of those it concerns *)

Section reviewed_members.
Context {E : Env} {L : ApplyLease}.
Implicit Types (s : St.t) (c : Change.t MemberProposal.t) (g : Group.t) (u name : string).
#[local] Abbreviation CHANGES := (rv_bucket (P:=MemberProposal.t)).

Definition members name s : gset string :=
  match s.(St.db) !! ("groups", name) with Some (RGroup g) => g.(Group.members) | _ => ∅ end.

#[global] Instance pure_prepare_members a n l : Pure (prepare_members a n l).
Proof. unfold prepare_members, current_member, proposed_member, existing_group. cbv zeta. solve_pure. Qed.
#[global] Instance pure_member_resource_revision b a : Pure (member_resource_revision b a).
Proof. unfold member_resource_revision, person_digest. solve_pure. Qed.
#[global] Instance pure_revalidate_members a c : Pure (revalidate_members a c).
Proof. unfold revalidate_members. cbv zeta. solve_pure. Qed.

Lemma current_members_ok l acc s b s' :
  fold_m current_member acc l s = (Ok b, s') → Member.user_id <$> b = (Member.user_id <$> acc) ++ l.
Proof.
  revert acc. induction l as [|x l IH]; intros acc Hrun; simpl in Hrun.
  { apply ret_ok in Hrun as [-> _]. by rewrite app_nil_r. }
  apply bind_ok in Hrun as (acc' & s1 & H1 & Hrun). pose proof H1 as Hc. unfold current_member in H1.
  apply bind_ok in H1 as (o & s2 & [-> _]%get_ok & [-> ->]%ret_ok).
  rewrite (IH _ Hrun), fmap_app. simpl. by rewrite <- app_assoc.
Qed.
Lemma names_member_spec l u : names_member l u = true ↔ u ∈ Member.user_id <$> l.
Proof.
  unfold names_member. rewrite existsb_exists, list_elem_of_fmap. split.
  - intros (m & Hm%list_elem_of_In & <-%String.eqb_eq). by exists m.
  - intros (m & -> & Hm%list_elem_of_In). exists m. by rewrite String.eqb_refl.
Qed.
Lemma prepare_members_ok actor name l s b a s' :
  prepare_members actor name l s = (Ok (b, a), s') →
  requires_membership_review name = true ∧ ∀ u, names_member b u = true ↔ u ∈ members name s.
Proof.
  unfold prepare_members. cbv zeta. intros Hrun. apply bind_ok in Hrun as ([] & s1 & [_ ->]%lift_ok & Hrun).
  apply bind_ok in Hrun as ([] & s1 & [_ ->]%lift_ok & Hrun). apply bind_ok in Hrun as ([] & s1 & [_ ->]%lift_ok & Hrun).
  apply bind_ok in Hrun as ([] & s1 & [Hr ->]%ensure_ok & Hrun).
  apply bind_ok in Hrun as (g & s1 & (-> & Hg & _)%existing_group_ok & Hrun).
  apply bind_ok in Hrun as ([] & s1 & [_ ->]%ensure_ok & Hrun). apply bind_ok in Hrun as (b' & s1 & Hb & Hrun).
  apply bind_ok in Hrun as (a' & s2 & _ & Hrun). apply bind_ok in Hrun as ([] & s3 & _ & [[= -> ->] _]%ret_ok).
  split; [done|]. intros u. apply current_members_ok in Hb. rewrite names_member_spec, Hb. simpl.
  rewrite elem_of_btree_iter. unfold members. by rewrite Hg.
Qed.

(** Replacing the members of a group leaves exactly those. *)
Lemma replace_members_ok actor name m record reviewed s w s' :
  write_group_inner actor name (ReplaceMembers m) record reviewed s = (Ok w, s') →
  members name s' = m ∧ ∀ k, k ≠ name → s'.(St.db) !! ("groups", k) = s.(St.db) !! ("groups", k).
Proof.
  intros Hrun. pose proof Hrun as Hw. unfold write_group_inner in Hrun. cbv zeta in Hrun.
  apply bind_ok in Hrun as ([] & s1 & [_ ->]%lift_ok & Hrun). apply bind_ok in Hrun as ([] & s1 & [_ ->]%lift_ok & Hrun).
  apply bind_ok in Hrun as (g & s1 & (-> & Hg & Hn)%existing_group_ok & Hrun).
  apply bind_ok in Hrun as ([] & s1 & [-> _]%validate_members_ok & Hrun).
  apply save_group_ok in Hrun as [-> Hout]. pose proof Hout as Hsame.
  apply outcome_rows in Hout as [Hs|(_ & Hnew & Ho)]; [| |done].
  - split; [|auto]. unfold members. rewrite Hs, Hg. destruct Hsame as [Hc _|s1 _ _ Hp Ha].
    + simpl in Hc. by apply bool_decide_eq_false, dec_stable in Hc.
    + apply persist_rows in Hp as [Hp _]. simpl in Hp. rewrite Hn in Hp.
      pose proof (touches_audit_group actor record) as Ht.
      rewrite <- (touches_at ["meta"; "audit"] _ _ _ _ "groups" name Ha) in Hp by bucket. rewrite Hs, Hg in Hp. by injection Hp as ->.
  - split; [unfold members; by rewrite Hnew|done].
Qed.

(** What the execution of a membership change rests on. *)
Record members_executed i c executor name s s' : Prop := {
  me_stored : s.(St.db) !! (CHANGES, i) = Some (RMemberChange c);
  me_status : c.(Change.status) = ReviewApproved;
  me_live : s.(St.clock) < c.(Change.proposal).(MemberProposal.expires_at);
  me_group : c.(Change.proposal).(MemberProposal.group) = name;
  me_author : administrator c.(Change.proposal).(MemberProposal.author) s;
  me_executor : administrator executor s;
  me_reviewed : c.(Change.approvals) ≠ [];
  me_reviewers : ∀ a, a ∈ c.(Change.approvals) → administrator a.(ReviewApproval.reviewer) s
    ∧ a.(ReviewApproval.digest) = c.(Change.digest)
    ∧ NoDup [c.(Change.proposal).(MemberProposal.author).(Authority.id);
             a.(ReviewApproval.reviewer).(Authority.id); executor.(Authority.id)];
  me_content : c.(Change.digest) = canonical_digest (P:=MemberProposal.t) (member_proposal_json c.(Change.proposal));
  me_after : members name s' = list_to_set (Member.user_id <$> c.(Change.proposal).(MemberProposal.after));
  me_disinterested : ∀ x, x ∈ [c.(Change.proposal).(MemberProposal.author); executor]
      ∨ x ∈ (ReviewApproval.reviewer <$> c.(Change.approvals)) →
    x.(Authority.id) ∈ members name s' ↔ x.(Authority.id) ∈ members name s;
  me_done : s'.(St.db) !! (CHANGES, i) = Some (RMemberChange (execute_change c executor s.(St.clock)));
}.

Lemma outcome_frame review actor name record s w s' b k :
  outcome review actor name record s w s' → is_index b = false →
  b ∉ ["groups"; MEMBERSHIP_HOLDERS; "meta"; "audit"] →
  s'.(St.clock) = s.(St.clock) ∧ s'.(St.db) !! (b, k) = s.(St.db) !! (b, k).
Proof.
  intros [_ ->|s1 _ _ Hp Ha] Hi Hb; [done|]. pose proof (writes_persist (GroupWrite.group w) (default false review)) as Hw.
  destruct (writes_run _ _ _ _ _ Hp) as (Hc1 & _ & _ & Hf1). pose proof (touches_audit_group actor record) as Ht.
  destruct (touches_run ["meta"; "audit"] _ _ _ _ Ha) as (Hc2 & _ & _ & Hf2).
  split; [congruence|]. rewrite Hf2 by set_solver. apply Hf1; set_solver.
Qed.

Lemma execute_members_ok token i b s v s' :
  users_keyed s → execute_group_membership_change_in token i b s = (Ok v, s') →
  ∃ c executor name, requires_membership_review name = true ∧ members_executed i c executor name s s'
    ∧ ∀ k, k ≠ name → s'.(St.db) !! ("groups", k) = s.(St.db) !! ("groups", k).
Proof.
  intros Hk Hrun. unfold execute_group_membership_change_in in Hrun. apply execute_ok in Hrun
    as (actor & executor & c & s1 & Ha & Hc & _ & Hd & _ & Ht & Hst & Hap & Hne & Hnr & Hcm & Hstore).
  change (encode c) with (RMemberChange c) in Hc. apply full_administrator_ok in Ha as [Hex Hid].
  unfold commit_members in Hcm. apply bind_ok in Hcm as ([] & s2 & Hv & Hcm). pose proof (pure_run _ _ _ _ Hv) as ->. cbv zeta in Hcm.
  apply bind_ok in Hcm as (w & s3 & Hw & [_ ->]%ret_ok). unfold revalidate_members in Hv. cbv zeta in Hv.
  apply bind_ok in Hv as ([] & s4 & Hau & Hv). pose proof (pure_run _ _ _ _ Hau) as ->. apply revalidate_authority_ok in Hau.
  apply bind_ok in Hv as ([] & s4 & [Hg ->]%ensure_ok & Hv). apply negb_true_iff, orb_false_iff in Hg as [Hga Hgx].
  apply bind_ok in Hv as ([] & s4 & Hrv & Hv). pose proof (pure_run _ _ _ _ Hrv) as ->.
  pose proof (revalidate_approvals_ok _ _ _ _ _ _ Hrv) as Hr. clear Hrv.
  apply bind_ok in Hv as ([] & s4 & [_ ->]%ensure_ok & Hv). apply bind_ok in Hv as (l & s4 & [_ ->]%some_or_ok & Hv).
  apply bind_ok in Hv as ([b' a'] & s4 & Hp & Hv). pose proof (pure_run _ _ _ _ Hp) as ->.
  apply prepare_members_ok in Hp as [Hrev Hb]. apply bind_ok in Hv as ([] & s4 & [Hg ->]%ensure_ok & _).
  apply andb_true_iff in Hg as [Hb'%bool_decide_eq_true _]. cbn [fst] in Hb'. subst b'.
  pose proof Hw as Hout. apply writer_ok in Hout as (_ & _ & review & Hout & _).
  destruct (outcome_frame _ _ _ _ _ _ _ "reviewed_group_memberships" i Hout eq_refl ltac:(bucket)) as [Hclock _].
  apply replace_members_ok in Hw as [Hm Hother].
  pose proof (touches_store_change actor.(Principal.id) ("reviewed_memberships" +:+ ".execute") i
    (execute_change c executor s3.(St.clock))) as Hts.
  destruct (touches_run [CHANGES; "meta"; "audit"] _ _ _ _ Hstore) as (_ & _ & _ & Hf).
  apply store_change_ok in Hstore as [Hnew _]; [|bucket].
  set (p := c.(Change.proposal)) in *. set (name := p.(MemberProposal.group)) in *.
  assert (Hm' : members name s' = list_to_set (Member.user_id <$> p.(MemberProposal.after))).
  { rewrite <- Hm. unfold members. by rewrite Hf by bucket. }
  assert (Hsame : ∀ x, changed_member p x = false → x ∈ members name s' ↔ x ∈ members name s).
  { intros x Hx. rewrite Hm', elem_of_list_to_set, <- names_member_spec, <- Hb. unfold changed_member in Hx.
    destruct (names_member (MemberProposal.before p) x), (names_member (MemberProposal.after p) x); done. }
  exists c, executor, name. split_and!; [done| |].
  - split; try done.
    + intros a Hin. destruct (Hr a Hin) as (Hdg & Hadm & Hnp & Haff). split; [done|]. split; [done|].
      assert (Hrin : a.(ReviewApproval.reviewer).(Authority.id) ≠ executor.(Authority.id)).
      { intros Heq. apply Hnr. rewrite <- Heq. unfold reviewer_ids.
        by apply (list_elem_of_fmap_2 (λ a, a.(ReviewApproval.reviewer).(Authority.id))). }
      simpl in Hne. rewrite !NoDup_cons, !not_elem_of_cons. pose proof (NoDup_nil_2 (A:=string)). set_solver.
    + intros x [[->|[->|Hx%not_elem_of_nil]%elem_of_cons]%elem_of_cons|(a & -> & Ha)%list_elem_of_fmap]; apply Hsame; try done.
      * by rewrite (Hid Hk).
      * by destruct (Hr a Ha) as (_ & _ & _ & ?).
    + by rewrite <- Hclock.
  - intros k Hkn. rewrite Hf by bucket. by apply Hother.
Qed.

(** One committed request that may change groups, or anything that leaves them. *)
Inductive member_request : St.t → St.t → Prop :=
| mr_write actor name intent record s w s' : write_group actor name intent record s = (Ok w, s') → member_request s s'
| mr_source groups user_id s s' : write_source_memberships groups user_id s = (Ok (), s') → member_request s s'
| mr_execute token i b s v s' : execute_group_membership_change_in token i b s = (Ok v, s') → member_request s s'
| mr_other s s' : (∀ k, s'.(St.db) !! ("groups", k) = s.(St.db) !! ("groups", k)) → member_request s s'.

Lemma source_guarded groups u name s s' :
  write_source_memberships groups u s = (Ok (), s') → requires_membership_review name = true →
  s'.(St.db) !! ("groups", name) = s.(St.db) !! ("groups", name).
Proof.
  intros Hrun Hrev. unfold write_source_memberships in Hrun. revert s Hrun.
  induction (btree_iter groups) as [|n l IH]; intros s Hrun; simpl in Hrun; [by apply ret_ok in Hrun as [_ ->]|].
  apply bind_ok in Hrun as ([] & s1 & H1 & Hrun). rewrite (IH _ Hrun). unfold join_source_group in H1.
  apply bind_ok in H1 as (o & s2 & [-> _]%get_ok & H1). apply bind_ok in H1 as (g & s2 & [-> ->]%some_or_ok & H1).
  apply bind_ok in H1 as ([] & s2 & [Hn%String.eqb_eq ->]%ensure_ok & H1). case_bool_decide; [by apply ret_ok in H1 as [_ ->]|].
  apply bind_ok in H1 as ([] & s2 & [Hr ->]%lift_ok & H1). apply persist_rows in H1 as [_ Ho]. apply Ho.
  simpl. rewrite Hn. intros ->. unfold require_group_review in Hr. by rewrite Hrev in Hr.
Qed.

(** C17: the members of a privileged group change only by review.  Whatever writes
    groups, a request that changes the members of a group that needs review
    executes an approved change that has not expired, whose author, each of
    whose reviewers and whose executor are different people and enabled
    administrators at that moment, who all approved the digest of this very
    content; none of them joins or leaves by it, and the members afterwards are
    exactly the ones proposed.  The only other change takes out an account that
    is already disabled. *)
Theorem privileged_members_reviewed name s s' :
  users_keyed s → member_request s s' → requires_membership_review name = true →
  members name s' ≠ members name s →
  (∃ i c executor, members_executed i c executor name s s')
  ∨ ∃ u user, s.(St.db) !! ("users", u) = Some (RUser user) ∧ user.(User.enabled) = false
      ∧ members name s' = members name s ∖ {[u]}.
Proof.
  intros Hk Hreq Hrev Hdiff.
  assert (Hrow : s'.(St.db) !! ("groups", name) ≠ s.(St.db) !! ("groups", name)).
  { intros Heq. apply Hdiff. unfold members. by rewrite Heq. }
  destruct Hreq as [actor n intent record s w s' Hrun|groups u s s' Hrun|token i b s v s' Hrun|s s' Hg].
  - unfold write_group in Hrun. apply writer_ok in Hrun as (Hn & _ & review & Hout & Hcase).
    destruct (outcome_rows _ _ _ _ _ _ _ Hn Hout) as [Hsame|(Hr & Hg & Ho)]; [by destruct Hrow|].
    destruct (decide (name = n)) as [->|Hne]; [|by destruct Hrow; apply Ho].
    destruct Hcase as [->|[[-> [(u & x & user & g & -> & Hu & Hen & Hgrp & Hm)|Hc]]|(-> & _ & Hnone & Hm)]].
    + specialize (Hr false eq_refl). unfold require_group_review in Hr. by rewrite Hrev in Hr.
    + right. exists u, user. split; [done|]. split; [done|]. unfold members. by rewrite Hg, Hgrp.
    + destruct Hout as [_ ->|]; [done|congruence].
    + destruct Hdiff. unfold members. by rewrite Hg, Hnone.
  - by destruct Hrow; eapply source_guarded.
  - apply execute_members_ok in Hrun as (c & executor & n & _ & He & Hother); [|done]. left.
    destruct (decide (name = n)) as [->|Hne]; [by exists i, c, executor|by destruct Hrow; apply Hother].
  - by destruct Hrow.
Qed.
End reviewed_members.

(** ** An example *)

Module MembershipsDemo.
#[local] Existing Instance Demo.env.
#[local] Existing Instance ReviewsDemo.lease.

(** Ann proposes that Amy joins "vault", Bea approves, Cid executes. *)
Definition start : St.t :=
  St.mk (<[("groups", "vault") := RGroup (Group.mk "vault" ∅)]> ReviewsDemo.db) 1000 0 None.
Definition staged : Result json * St.t := stage_group_membership_in "ann" "vault" ["amy"] start.
Definition cid : string := "id-0".
Definition digest : string :=
  match staged.2.(St.db) !! ("reviewed_group_memberships", cid) with
  | Some (RMemberChange c) => c.(Change.digest)
  | _ => ""
  end.
Definition approved : Result json * St.t := approve_group_membership_change_in "bea" cid digest staged.2.
Definition executed : Result json * St.t := execute_group_membership_change_in "cid" cid digest approved.2.
(** Amy changed her password after the approval. *)
Definition disturbed : St.t :=
  St.set_db approved.2 (<[("users", "u-amy") := RUser (User.mk false TotpSettings.default "seed" "u-amy" "amy" None "amy" ""
    true false 2 None None None 100 ∅ false ∅ ∅)]> approved.2.(St.db)).
End MembershipsDemo.

(** The membership counts at once, and the person holds a reviewed membership;
    a change whose person changed in between is refused. *)
Example membership_runs :
  (@user_group_names Demo.env "u-amy" MembershipsDemo.executed.2).1 = Ok {["vault"]}
  ∧ (@has_reviewed_membership Demo.env "u-amy" MembershipsDemo.executed.2).1 = Ok true
  ∧ (@execute_group_membership_change_in Demo.env ReviewsDemo.lease "cid" MembershipsDemo.cid MembershipsDemo.digest
       MembershipsDemo.disturbed).1 = Err (Error.conflict "Reviewed membership dependencies changed").
Proof. split_and!; by_vm. Qed.

Lemma privileged_members_reviewed_witness :
  (∃ i c executor, members_executed (E:=Demo.env) i c executor "vault" MembershipsDemo.approved.2 MembershipsDemo.executed.2)
  ∨ ∃ u user, MembershipsDemo.approved.2.(St.db) !! ("users", u) = Some (RUser user) ∧ user.(User.enabled) = false
      ∧ members "vault" MembershipsDemo.executed.2 = members "vault" MembershipsDemo.approved.2 ∖ {[u]}.
Proof.
  apply (@privileged_members_reviewed Demo.env ReviewsDemo.lease "vault").
  - apply rows_keyed. rows_checked.
  - apply (@mr_execute Demo.env ReviewsDemo.lease "cid" MembershipsDemo.cid MembershipsDemo.digest _
             (ReviewsDemo.value MembershipsDemo.executed.1)). ran ReviewsDemo.value MembershipsDemo.executed.
  - by_vm.
  - assert (Hnew : members "vault" MembershipsDemo.executed.2 = {["u-amy"]}) by by_vm.
    assert (Hold : members "vault" MembershipsDemo.approved.2 = ∅) by by_vm.
    rewrite Hnew, Hold. intros Heq. vm_compute in Heq. discriminate Heq.
Defined.
