(* ===== verification/Mail.v ===== *)
(** * Account proofs and their mail (src/src/lifecycle.rs)

    A proof is a one-use code sent to an address: the store keeps its digest, its
    purpose, the account at its credential epoch and the address.  A new proof of
    the same purpose replaces the old one; a proof that ends leaves an outcome, so
    that a late click is told why.  The message waits in an outbox: a worker
    claims it, pins the attempt before it opens SMTP, and reports back; a message
    whose proof is gone is never sent. *)

From S2P Require Import Prelude Json Model Store Env Provider Jose Delegation Agents Redaction Identities Management Maintenance Exposure Reviews.

#[local] Set Warnings "-clear-no-such-hyp".

(** Whether mail is configured ([Config::mail]) and whether [lettre] parses an
    address. *)
Class MailPort := { mail_configured : bool; address_parses : string → bool }.

Definition PROOFS : string := "account_proofs".
Definition OUTCOMES : string := "account_proof_outcomes".
Definition LATEST : string := "account_latest".
Definition MAIL : string := "mail_deliveries".
Definition LIMITS : string := "mail_limits".
Definition MAIL_LEASE_SECONDS : Z := 60.
Definition INVITATION_SECONDS : Z := 7 * 86400.

(** [Purpose::name]. *)
Definition purpose_name (p : Purpose) : string :=
  match p with VerifyEmail => "verify" | ResetPassword => "reset" | InviteAccount => "accept" end.
Definition proof_key (user : User.t) (p : Purpose) : string := user.(User.id) +:+ ":" +:+ purpose_name p.

(** ** How often mail may be asked for *)

Section limits.
Context {E : Env}.

(** The expiry index and the count of the limits (store/maintenance.rs). *)
Definition pad20 (n : Z) : string :=
  let d := decimal n in Str.of_bytes (replicate (20 - String.length d) "0"%char) +:+ d.
Definition index_key (at_ : Z) (id : string) : string := pad20 at_ +:+ "/" +:+ digest id.
Definition EXPIRY : string := "index_expiry_mail_limits".
Definition update_limit_index (id : string) (after : option (Z * Z * Z)) : tx unit :=
  previous ← get (Z * Z * Z) LIMITS id;
  _ ← match previous with
      | Some p => remove EXPIRY (index_key (sat_add p.1.1 3600) id)
      | None => mret ()
      end;
  _ ← match after with
      | Some a => put EXPIRY (index_key (sat_add a.1.1 3600) id) id
      | None => mret ()
      end;
  count ← get Z "index_counts" LIMITS;
  let count := default 0 count in
  let next := match previous, after with
              | None, Some _ => sat_add count 1
              | Some _, None => sat_sub count 1
              | _, _ => count
              end in
  if next =? count then mret () else put "index_counts" LIMITS next.
Definition put_limit (id : string) (v : Z * Z * Z) : tx unit :=
  _ ← update_limit_index id (Some v); put LIMITS id v.
Definition delete_limit (id : string) : tx unit :=
  _ ← update_limit_index id None; remove LIMITS id.
Definition limit_count : tx Z := c ← get Z "index_counts" LIMITS; mret (default 0 c).
(** [reclaim_expired_limits]. *)
Fixpoint reclaim_limits (at_ : Z) (l : list (string * string)) : tx unit :=
  match l with
  | [] => mret ()
  | (key, id) :: l =>
      expiry ← some_or (head (Str.split "/" key) ≫= Str.parse_u64) Error.internal;
      if at_ <? expiry then mret ()
      else _ ← delete_limit id; reclaim_limits at_ l
  end.
Definition reclaim_expired_limits (at_ : Z) : tx unit :=
  rows ← scan string EXPIRY None 64;
  reclaim_limits at_ rows.

Definition limit_key (username : string) (p : Purpose) : string := digest (purpose_name p +:+ NUL +:+ username).
Definition request_allowed (username : string) (p : Purpose) : tx bool :=
  let key := limit_key username p in
  at_ ← now;
  previous ← get (Z * Z * Z) LIMITS key;
  let previous := default (0, 0, 0) previous in
  let '(start, count, previous_at) := if wadd previous.1.1 3600 <=? at_ then (at_, 0, 0) else previous in
  if (at_ <? wadd previous_at 60) || (5 <=? count) then mret false
  else
    full ← (if previous.1.1 =? 0 then
              n ← limit_count;
              if 10000 <=? n then
                _ ← reclaim_expired_limits at_;
                n ← limit_count;
                mret (10000 <=? n)
              else mret false
            else mret false);
    if (full : bool) then mret false
    else _ ← put_limit key (start, (count + 1) mod 2 ^ 32, at_); mret true.
End limits.

(** What a worker gets of a claimed message ([claim_mail_attempts]). *)
Module MailClaim.
Record t := mk { id : string; attempts : Z; lease : string }.
End MailClaim.

(** ** Proofs *)

Section proofs.
Context {E : Env} {P : MailPort}.

Definition require_mail : Result unit :=
  if mail_configured then Ok ()
  else Err (Error.new 503 "delivery_unavailable" "Account email delivery is not configured").
(** [lifecycle::email]. *)
Definition lifecycle_email (value : string) : Result unit :=
  _ ← validate_email value;
  if address_parses value then Ok () else Err (Error.bad "Invalid email address").

Definition retire_proof (hash : string) (reason : ProofEnd) : tx unit :=
  proof ← get AccountProof.t PROOFS hash;
  match proof with
  | Some proof =>
      at_ ← now;
      _ ← (if bool_decide (proof.(AccountProof.purpose) = InviteAccount)
           then remove "invitation_passkey_registration" hash else mret ());
      _ ← remove PROOFS hash;
      put OUTCOMES hash (ProofOutcome.mk proof.(AccountProof.purpose) reason
        (sat_add (Z.max proof.(AccountProof.expires_at) at_) (8 * 86400)))
  | None => mret ()
  end.

Definition GONE : Z := 410.
Definition proof_error (reason : option ProofEnd) : Error.t :=
  match reason with
  | Some ExpiredProof => Error.new GONE "account_code_expired" "Account link expired; request a new one"
  | Some RevokedProof => Error.new GONE "account_code_revoked" "Invitation was revoked; contact your administrator"
  | Some ReplacedProof => Error.new GONE "account_code_replaced" "Account link was replaced by a newer one"
  | Some UsedProof => Error.new GONE "account_code_used" "Account link was already used"
  | None => Error.new 400 "account_code_invalid" "Invalid account link"
  end.
Definition completion_proof (hash : string) (purpose : Purpose) (at_ : Z) : tx AccountProof.t :=
  proof ← get AccountProof.t PROOFS hash;
  match proof with
  | Some proof =>
      if negb (bool_decide (proof.(AccountProof.purpose) = purpose)) then fail (proof_error None)
      else if proof.(AccountProof.expires_at) <=? at_ then fail (proof_error (Some ExpiredProof))
      else mret proof
  | None =>
      outcome ← get ProofOutcome.t OUTCOMES hash;
      fail (proof_error
        match outcome with
        | Some o => if bool_decide (o.(ProofOutcome.purpose) = purpose) && (at_ <? o.(ProofOutcome.retain_until))
                    then Some o.(ProofOutcome.reason) else None
        | None => None
        end)
  end.

(** ** Queueing a message *)

Definition lifetime (p : Purpose) : Z :=
  match p with ResetPassword => 1800 | VerifyEmail => 86400 | InviteAccount => INVITATION_SECONDS end.
Definition subject (p : Purpose) : string :=
  match p with
  | VerifyEmail => "Verify your riAuth email"
  | ResetPassword => "Reset your riAuth password"
  | InviteAccount => "Your riAuth account invitation"
  end.
Definition message (user : User.t) (p : Purpose) (token : string) (expires_at : Z) : string :=
  let issuer := config.(Config.issuer) in
  let nl := NEWLINE in
  subject p +:+ nl +:+ nl +:+ "Server: " +:+ issuer +:+ nl +:+ "Account: " +:+ user.(User.username) +:+ nl +:+ nl
  +:+ "Open in your browser: " +:+ Str.trim_end_matches "/" issuer +:+ "/account/" +:+ purpose_name p +:+ "#token="
  +:+ token +:+ nl +:+ nl
  +:+ "Run: riauth --server " +:+ issuer +:+ " account " +:+ purpose_name p +:+ " --token-stdin" +:+ nl
  +:+ "Paste this one-use code when asked:" +:+ nl +:+ token +:+ nl +:+ nl
  +:+ "Expires at Unix time " +:+ decimal expires_at
  +:+ ". Assisted recovery removes enrolled MFA factors; ordinary password reset keeps them."
  +:+ " If you did not request this message, ignore it." +:+ nl.
(** The proof that a new one replaces. *)
Definition replace_latest (user : User.t) (p : Purpose) (at_ : Z) : tx unit :=
  old ← get string LATEST (proof_key user p);
  match old with
  | Some old =>
      proof ← get AccountProof.t PROOFS old;
      retire_proof old
        (if match proof with Some q => q.(AccountProof.expires_at) <=? at_ | None => false end
         then ExpiredProof else ReplacedProof)
  | None => mret ()
  end.
Definition enqueue (user : User.t) (p : Purpose) (groups : gset string) (creator : option string) : tx unit :=
  recipient ← some_or user.(User.email) (Error.bad "Account has no email address");
  _ ← lift (lifecycle_email recipient);
  at_ ← now;
  _ ← replace_latest user p at_;
  token ← random_token "ri_mail_";
  let hash := digest token in
  let expires_at := wadd at_ (lifetime p) in
  _ ← put PROOFS hash (AccountProof.mk p user.(User.id) recipient user.(User.epoch) expires_at groups creator);
  _ ← put LATEST (proof_key user p) hash;
  mid ← id;
  put MAIL mid (MailDelivery.mk mid hash recipient (subject p) (Some (message user p token expires_at)) expires_at
    at_ at_ 0 None None None false).

(** ** The outbox *)

Definition set_mail (d : MailDelivery.t) (body : option string) (next attempts : Z) (lease : option string)
    (started : option bool) (delivered : option Z) (stopped : bool) : MailDelivery.t :=
  MailDelivery.mk d.(MailDelivery.id) d.(MailDelivery.proof) d.(MailDelivery.recipient) d.(MailDelivery.subject) body
    d.(MailDelivery.expires_at) d.(MailDelivery.created_at) next attempts lease started delivered stopped.
Definition stop_mail (d : MailDelivery.t) : MailDelivery.t :=
  set_mail d None d.(MailDelivery.next_attempt) d.(MailDelivery.attempts) None None d.(MailDelivery.delivered_at) true.
Definition proof_gone (d : MailDelivery.t) : tx bool :=
  proof ← get AccountProof.t PROOFS d.(MailDelivery.proof);
  mret (negb (bool_decide (is_Some proof))).

(** One due row of [claim_mail]; [ready] messages were claimed before it. *)
Definition claim_mail (ready : nat) (key : string) (d : MailDelivery.t) : tx (option MailDelivery.t) :=
  at_ ← now;
  if bool_decide (is_Some d.(MailDelivery.delivered_at)) || d.(MailDelivery.stopped) then mret None
  else
    over ← (if (d.(MailDelivery.expires_at) <=? at_) || (12 <=? d.(MailDelivery.attempts)) then mret true
            else proof_gone d);
    if (over : bool) then _ ← put MAIL key (stop_mail d); mret None
    else if (at_ <? d.(MailDelivery.next_attempt)) || (16 <=? ready)%nat then mret None
    else
      lease ← id;
      let d := set_mail d d.(MailDelivery.body) (sat_add at_ MAIL_LEASE_SECONDS)
                 ((d.(MailDelivery.attempts) + 1) mod 2 ^ 32) (Some lease) None d.(MailDelivery.delivered_at)
                 d.(MailDelivery.stopped) in
      _ ← put MAIL key d;
      mret (Some d).

Definition begin_mail_dispatch (key : string) (attempt : Z) (lease : string) : tx bool :=
  if Str.is_empty lease then mret false
  else
    d ← get MailDelivery.t MAIL key;
    at_ ← now;
    match d with
    | None => mret false
    | Some d =>
        if bool_decide (is_Some d.(MailDelivery.delivered_at)) || negb (d.(MailDelivery.attempts) =? attempt)
           || negb (bool_decide (d.(MailDelivery.lease) = Some lease))
        then mret false
        else if d.(MailDelivery.stopped) then
          _ ← put MAIL key (set_mail d d.(MailDelivery.body) d.(MailDelivery.next_attempt) d.(MailDelivery.attempts)
                              None None d.(MailDelivery.delivered_at) true);
          mret false
        else if bool_decide (d.(MailDelivery.dispatch_started) = Some true) || (d.(MailDelivery.next_attempt) <=? at_)
        then mret false
        else
          over ← (if d.(MailDelivery.expires_at) <=? at_ then mret true else proof_gone d);
          if (over : bool) then _ ← put MAIL key (stop_mail d); mret false
          else
            _ ← put MAIL key (set_mail d d.(MailDelivery.body) d.(MailDelivery.next_attempt) d.(MailDelivery.attempts)
                                d.(MailDelivery.lease) (Some true) d.(MailDelivery.delivered_at)
                                d.(MailDelivery.stopped));
            mret true
    end.

(** [(2u64.saturating_pow(n.min(12))).min(3600)]. *)
Definition mail_backoff (attempts : Z) : Z := Z.min (2 ^ Z.min attempts 12) 3600.
Definition finish_mail_attempt (key : string) (attempt : Z) (lease : string) (sent : bool) : tx unit :=
  d ← get MailDelivery.t MAIL key;
  at_ ← now;
  match d with
  | None => mret ()
  | Some d =>
      if negb (d.(MailDelivery.attempts) =? attempt) || negb (bool_decide (d.(MailDelivery.lease) = Some lease))
         || bool_decide (is_Some d.(MailDelivery.delivered_at)) || d.(MailDelivery.stopped)
      then mret ()
      else
        put MAIL d.(MailDelivery.id)
          (if sent then set_mail d None d.(MailDelivery.next_attempt) d.(MailDelivery.attempts) None None (Some at_) false
           else set_mail d d.(MailDelivery.body) (sat_add at_ (mail_backoff d.(MailDelivery.attempts)))
                  d.(MailDelivery.attempts) None None d.(MailDelivery.delivered_at) false)
  end.
Definition mail_claim (d : MailDelivery.t) : option MailClaim.t :=
  match d.(MailDelivery.lease) with
  | Some lease => if Str.is_empty lease then None
                  else Some (MailClaim.mk d.(MailDelivery.id) d.(MailDelivery.attempts) lease)
  | None => None
  end.

(** [lifecycle::cleanup]. *)
Definition cleanup_mail (at_ : Z) (row : string * MailDelivery.t) : tx unit :=
  let '(key, d) := row in
  if wadd d.(MailDelivery.created_at) (8 * 86400) <=? at_ then remove MAIL key
  else if bool_decide (is_Some d.(MailDelivery.body)) then
    over ← (if d.(MailDelivery.expires_at) <=? at_ then mret true else proof_gone d);
    if (over : bool) then put MAIL key (stop_mail d) else mret ()
  else mret ().
Definition lifecycle_cleanup (at_ : Z) : tx unit :=
  proofs ← maintenance_page AccountProof.t PROOFS;
  _ ← for_each (λ kp : string * AccountProof.t,
        if kp.2.(AccountProof.expires_at) <=? at_ then retire_proof kp.1 ExpiredProof else mret ()) proofs;
  outcomes ← maintenance_page ProofOutcome.t OUTCOMES;
  _ ← for_each (λ ko : string * ProofOutcome.t,
        if ko.2.(ProofOutcome.retain_until) <=? at_ then remove OUTCOMES ko.1 else mret ()) outcomes;
  latest ← maintenance_page string LATEST;
  _ ← for_each (λ kh : string * string,
        proof ← get AccountProof.t PROOFS kh.2;
        match proof with Some _ => mret () | None => remove LATEST kh.1 end) latest;
  limits ← maintenance_page (Z * Z * Z) LIMITS;
  _ ← for_each (λ kl : string * (Z * Z * Z),
        if wadd kl.2.1.1 3600 <=? at_ then delete_limit kl.1 else mret ()) limits;
  mails ← maintenance_page MailDelivery.t MAIL;
  for_each (cleanup_mail at_) mails.
End proofs.

(** ** An attempt is sent once *)

Section outbox.
Context {E : Env} {P : MailPort}.
Implicit Types (s : St.t) (d : MailDelivery.t) (key : string).

Definition mail_keyed s : Prop := ∀ k d, s.(St.db) !! (MAIL, k) = Some (RMailDelivery d) → d.(MailDelivery.id) = k.
(** The attempt was pinned, or is over. *)
Definition spent attempt lease d : Prop :=
  attempt < d.(MailDelivery.attempts)
  ∨ d.(MailDelivery.attempts) = attempt
    ∧ (d.(MailDelivery.lease) ≠ Some lease ∨ d.(MailDelivery.dispatch_started) = Some true).
Definition pinned key attempt lease s : Prop :=
  ∀ d, s.(St.db) !! (MAIL, key) = Some (RMailDelivery d) → spent attempt lease d.

(** One operation on the outbox, or anything that leaves it alone. *)
Inductive mail_step : St.t → St.t → Prop :=
| ms_claim ready key d s o s' :
    s.(St.db) !! (MAIL, key) = Some (RMailDelivery d) → claim_mail ready key d s = (Ok o, s') → mail_step s s'
| ms_begin key attempt lease s b s' : begin_mail_dispatch key attempt lease s = (Ok b, s') → mail_step s s'
| ms_finish key attempt lease sent s s' :
    finish_mail_attempt key attempt lease sent s = (Ok (), s') → mail_step s s'
| ms_cleanup at_ key d s s' :
    s.(St.db) !! (MAIL, key) = Some (RMailDelivery d) → cleanup_mail at_ (key, d) s = (Ok (), s') → mail_step s s'
| ms_enqueue user p groups creator s s' : enqueue user p groups creator s = (Ok (), s') → mail_step s s'
| ms_other s s' : (s.(St.rng) ≤ s'.(St.rng))%nat →
    (∀ k, s'.(St.db) !! (MAIL, k) = s.(St.db) !! (MAIL, k)) → mail_step s s'.

#[global] Instance pure_proof_gone d : Pure (proof_gone d).
Proof. unfold proof_gone. solve_pure. Qed.
Lemma over_pure (b : bool) d s o s' : (if b then mret true else proof_gone d) s = (Ok o, s') → s' = s.
Proof. destruct b; [by intros [_ ->]%ret_ok|apply pure_run, _]. Qed.

(** What one row may become. *)
Definition next_row s d d' : Prop :=
  d'.(MailDelivery.id) = d.(MailDelivery.id) ∧ ∀ attempt lease, spent attempt lease d → spent attempt lease d'.
Definition one_row key s s' : Prop :=
  (s.(St.rng) ≤ s'.(St.rng))%nat
  ∧ (∀ k, k ≠ key → s'.(St.db) !! (MAIL, k) = s.(St.db) !! (MAIL, k))
  ∧ ∀ d', s'.(St.db) !! (MAIL, key) = Some (RMailDelivery d') →
      ∃ d, s.(St.db) !! (MAIL, key) = Some (RMailDelivery d) ∧ next_row s d d'.

Lemma one_row_refl key s : one_row key s s.
Proof. split_and!; [done|done|]. intros d' Hd. exists d'. by split. Qed.
Lemma one_row_put key d d' s :
  s.(St.db) !! (MAIL, key) = Some (RMailDelivery d) → next_row s d d' →
  one_row key s (St.set_db s (<[(MAIL, key) := RMailDelivery d']> s.(St.db))).
Proof.
  intros Hd Hn. split_and!; [done| |].
  - intros k Hk. cbn [St.db St.set_db]. by rewrite lookup_insert_ne by congruence.
  - intros x Hx. cbn [St.db St.set_db] in Hx. rewrite lookup_insert_eq in Hx. injection Hx as <-. by exists d.
Qed.
Lemma next_stop s d : next_row s d (stop_mail d).
Proof. split; [done|]. intros a l [?|[? _]]; [by left|right]. split; [done|]. by left. Qed.

Lemma claim_row ready key d s o s' :
  s.(St.db) !! (MAIL, key) = Some (RMailDelivery d) → claim_mail ready key d s = (Ok o, s') → one_row key s s'.
Proof.
  intros Hd. unfold claim_mail. intros Hrun. apply bind_ok in Hrun as (t & s1 & [-> ->]%now_ok & Hrun).
  destruct (_ || _); [apply ret_ok in Hrun as [_ ->]; apply one_row_refl|].
  apply bind_ok in Hrun as (b & s1 & Hov & Hrun). pose proof (over_pure _ _ _ _ _ Hov) as ->. destruct b.
  { apply bind_ok in Hrun as ([] & s1 & ->%put_ok & [_ ->]%ret_ok). by eapply one_row_put, next_stop. }
  assert (Hat : d.(MailDelivery.attempts) < 12).
  { destruct (_ || _) eqn:Hexp in Hov; [by apply ret_ok in Hov as [? _]|]. by apply orb_false_iff in Hexp as [_ ?%Z.leb_gt]. }
  destruct (_ || _); [apply ret_ok in Hrun as [_ ->]; apply one_row_refl|].
  apply bind_ok in Hrun as (lease & s1 & [-> ->]%id_ok & Hrun). cbv zeta in Hrun.
  apply bind_ok in Hrun as ([] & s1 & ->%put_ok & [_ ->]%ret_ok). split_and!; cbn [St.rng St.db St.set_db].
  - lia.
  - intros k Hk. by rewrite lookup_insert_ne by congruence.
  - intros d' Hd'. rewrite lookup_insert_eq in Hd'. injection Hd' as <-. exists d. split; [done|]. split; [done|].
    intros a l Hs. left. simpl. assert (Hlt : d.(MailDelivery.attempts) < (d.(MailDelivery.attempts) + 1) mod 2 ^ 32).
    { destruct (Z.le_gt_cases 0 d.(MailDelivery.attempts)).
      - rewrite Z.mod_small by lia. lia.
      - pose proof (Z.mod_pos_bound (d.(MailDelivery.attempts) + 1) (2 ^ 32)). lia. }
    destruct Hs as [?|[? _]]; lia.
Qed.
Lemma begin_row key attempt lease s b s' :
  begin_mail_dispatch key attempt lease s = (Ok b, s') → one_row key s s'
  ∧ (b = true → (∃ d, s.(St.db) !! (MAIL, key) = Some (RMailDelivery d) ∧ d.(MailDelivery.attempts) = attempt
        ∧ d.(MailDelivery.lease) = Some lease ∧ d.(MailDelivery.delivered_at) = None ∧ d.(MailDelivery.stopped) = false
        ∧ d.(MailDelivery.dispatch_started) ≠ Some true ∧ s.(St.clock) < d.(MailDelivery.next_attempt)
        ∧ s.(St.clock) < d.(MailDelivery.expires_at) ∧ is_Some (s.(St.db) !! (PROOFS, d.(MailDelivery.proof))))
      ∧ pinned key attempt lease s').
Proof.
  unfold begin_mail_dispatch. destruct (Str.is_empty lease).
  { intros [-> ->]%ret_ok. split; [apply one_row_refl|done]. }
  intros Hrun. apply bind_ok in Hrun as (o & s1 & [-> Ho]%get_ok & Hrun). apply bind_ok in Hrun as (t & s1 & [-> ->]%now_ok & Hrun).
  destruct o as [d|]; [|apply ret_ok in Hrun as [-> ->]; split; [apply one_row_refl|done]].
  destruct (_ || _ || _) eqn:Hg in Hrun; [apply ret_ok in Hrun as [-> ->]; split; [apply one_row_refl|done]|].
  apply orb_false_iff in Hg as [[Hdel%bool_decide_eq_false Hat%negb_false_iff%Z.eqb_eq]%orb_false_iff
    Hl%negb_false_iff%bool_decide_eq_true]. destruct d.(MailDelivery.stopped) eqn:Hst.
  { apply bind_ok in Hrun as ([] & s1 & ->%put_ok & [-> ->]%ret_ok). split; [|done].
    eapply one_row_put; [exact Ho|]. split; [done|]. intros a l [?|[? _]]; [by left|right]. split; [done|]. by left. }
  destruct (_ || _) eqn:Hg in Hrun; [apply ret_ok in Hrun as [-> ->]; split; [apply one_row_refl|done]|].
  apply orb_false_iff in Hg as [Hds%bool_decide_eq_false Hna%Z.leb_gt].
  apply bind_ok in Hrun as (over & s1 & Hov & Hrun). pose proof (over_pure _ _ _ _ _ Hov) as ->. destruct over.
  { apply bind_ok in Hrun as ([] & s1 & ->%put_ok & [-> ->]%ret_ok). split; [|done]. by eapply one_row_put, next_stop. }
  apply bind_ok in Hrun as ([] & s1 & ->%put_ok & [-> ->]%ret_ok). split.
  - eapply one_row_put; [exact Ho|]. split; [done|]. intros a l [?|[? _]]; [by left|right]. split; [done|]. by right.
  - intros _. split.
    + exists d. destruct (Z.leb_spec d.(MailDelivery.expires_at) s.(St.clock)); [by apply ret_ok in Hov as [? _]|].
      unfold proof_gone in Hov. apply bind_ok in Hov as (q & s1 & [-> Hq]%get_ok & [Hb _]%ret_ok).
      split_and!; try done; [by destruct d.(MailDelivery.delivered_at); [destruct Hdel; eexists|]|].
      rewrite Hq. by destruct q; [eexists|].
    + intros x Hx. cbn [St.db St.set_db] in Hx. rewrite lookup_insert_eq in Hx. injection Hx as <-. right. split; [done|]. by right.
Qed.
Lemma finish_row key attempt lease sent s s' :
  mail_keyed s → finish_mail_attempt key attempt lease sent s = (Ok (), s') → one_row key s s'.
Proof.
  intros Hk. unfold finish_mail_attempt. intros Hrun. apply bind_ok in Hrun as (o & s1 & [-> Ho]%get_ok & Hrun).
  apply bind_ok in Hrun as (t & s1 & [-> ->]%now_ok & Hrun).
  destruct o as [d|]; [|apply ret_ok in Hrun as [_ ->]; apply one_row_refl].
  destruct (_ || _ || _ || _); [apply ret_ok in Hrun as [_ ->]; apply one_row_refl|].
  apply put_ok in Hrun as ->. rewrite (Hk _ _ Ho). eapply one_row_put; [exact Ho|].
  destruct sent; (split; [done|]); intros a l [?|[? _]]; [by left|right|by left|right]; (split; [done|]); by left.
Qed.
Lemma cleanup_row t key d s s' :
  s.(St.db) !! (MAIL, key) = Some (RMailDelivery d) → cleanup_mail t (key, d) s = (Ok (), s') → one_row key s s'.
Proof.
  intros Hd. unfold cleanup_mail. destruct (_ <=? _).
  { intros ->%remove_ok. split_and!; cbn [St.rng St.db St.set_db]; [done| |].
    - intros k Hk. by rewrite lookup_delete_ne by congruence.
    - intros d'. by rewrite lookup_delete_eq. }
  case_bool_decide; [|intros [_ ->]%ret_ok; apply one_row_refl]. intros Hrun.
  apply bind_ok in Hrun as (over & s1 & Hov & Hrun). pose proof (over_pure _ _ _ _ _ Hov) as ->.
  destruct over; [|apply ret_ok in Hrun as [_ ->]; apply one_row_refl]. apply put_ok in Hrun as ->.
  by eapply one_row_put, next_stop.
Qed.

(** Queueing adds one message under a new name. *)
Definition PROOF_BUCKETS : list string := ["invitation_passkey_registration"; PROOFS; OUTCOMES].
#[global] Instance touches_retire h r :
  Touches PROOF_BUCKETS (retire_proof h r).
Proof. unfold retire_proof. solve_touches. Qed.
#[global] Instance touches_replace u p t :
  Touches PROOF_BUCKETS (replace_latest u p t).
Proof.
  unfold replace_latest. apply touches_bind; [apply pure_touches, _|]. intros [old|]; [|apply pure_touches, _].
  apply touches_bind; [apply pure_touches, _|]. intros; apply _.
Qed.
Lemma enqueue_row user p groups creator s s' :
  enqueue user p groups creator s = (Ok (), s') → ∃ n d,
    (s.(St.rng) ≤ n)%nat ∧ (s.(St.rng) ≤ s'.(St.rng))%nat ∧ d.(MailDelivery.id) = uuid n
    ∧ (∀ k, k ≠ uuid n → s'.(St.db) !! (MAIL, k) = s.(St.db) !! (MAIL, k))
    ∧ s'.(St.db) !! (MAIL, uuid n) = Some (RMailDelivery d).
Proof.
  unfold enqueue. intros Hrun. apply bind_ok in Hrun as (r & s1 & [_ ->]%some_or_ok & Hrun).
  apply bind_ok in Hrun as ([] & s1 & [_ ->]%lift_ok & Hrun). apply bind_ok in Hrun as (t & s1 & [-> ->]%now_ok & Hrun).
  apply bind_ok in Hrun as ([] & s1 & Hr & Hrun). pose proof (touches_run PROOF_BUCKETS _ _ _ _ Hr) as (_ & _ & Hn & Hf).
  apply bind_ok in Hrun as (token & s2 & [-> ->]%random_token_ok & Hrun). cbv zeta in Hrun.
  apply bind_ok in Hrun as ([] & s2 & ->%put_ok & Hrun). apply bind_ok in Hrun as ([] & s2 & ->%put_ok & Hrun).
  apply bind_ok in Hrun as (mid & s2 & [-> ->]%id_ok & ->%put_ok). cbn [St.db St.rng St.set_db] in *.
  exists (S s1.(St.rng)). eexists. split_and!; cycle 4; [by rewrite lookup_insert_eq|lia|lia|done|].
  intros k Hk. rewrite lookup_insert_ne by congruence. rewrite 2!lookup_insert_ne by (by vm_compute).
  apply Hf. bucket.
Qed.

(** Whatever happens to the outbox, a spent attempt stays spent. *)
Lemma one_row_kept k0 s s' :
  one_row k0 s s' → mail_keyed s → mail_keyed s' ∧ (s.(St.rng) ≤ s'.(St.rng))%nat
  ∧ ∀ key attempt lease, pinned key attempt lease s → pinned key attempt lease s'.
Proof.
  intros (Hn & Ho & Hk) Hkeyed. split_and!; [|done|].
  - intros k d Hd. destruct (decide (k = k0)) as [->|Hne].
    + destruct (Hk _ Hd) as (d0 & Hd0 & -> & _). by apply Hkeyed.
    + rewrite Ho in Hd by done. by apply Hkeyed.
  - intros key a l Hp d Hd. destruct (decide (key = k0)) as [->|Hne].
    + destruct (Hk _ Hd) as (d0 & Hd0 & _ & Hs). by apply Hs, Hp.
    + rewrite Ho in Hd by done. by apply Hp.
Qed.
Lemma mail_step_kept key attempt lease s s' :
  mail_step s s' → mail_keyed s → (∀ n, (s.(St.rng) ≤ n)%nat → uuid n ≠ key) → pinned key attempt lease s →
  mail_keyed s' ∧ (∀ n, (s'.(St.rng) ≤ n)%nat → uuid n ≠ key) ∧ pinned key attempt lease s'.
Proof.
  intros Hstep Hk Hfresh Hp.
  enough (mail_keyed s' ∧ (s.(St.rng) ≤ s'.(St.rng))%nat ∧ pinned key attempt lease s') as (? & ? & ?).
  { split_and!; [done| |done]. intros n Hn. apply Hfresh. lia. }
  assert (Hone : ∀ k0, one_row k0 s s' →
    mail_keyed s' ∧ (s.(St.rng) ≤ s'.(St.rng))%nat ∧ pinned key attempt lease s').
  { intros k0 H1. destruct (one_row_kept _ _ _ H1 Hk) as (? & ? & Hq). split_and!; [done|done|by apply Hq]. }
  destruct Hstep as [ready k d s o s' Hd Hrun|k a l s b s' Hrun|k a l b s s' Hrun|t k d s s' Hd Hrun
    |user p groups creator s s' Hrun|s s' Hn Ho].
  - by eapply Hone, claim_row.
  - by eapply Hone, begin_row.
  - by eapply Hone, finish_row.
  - by eapply Hone, cleanup_row.
  - apply enqueue_row in Hrun as (n & d & Hn & Hn' & Hid & Ho & Hd). split_and!; [|done|].
    + intros k x Hx. destruct (decide (k = uuid n)) as [->|Hne]; [congruence|]. rewrite Ho in Hx by done. by apply Hk.
    + intros x Hx. rewrite Ho in Hx; [by apply Hp|]. intros ->. by apply (Hfresh n).
  - split_and!; [|done|]; intros x; [intros y|]; rewrite Ho; [apply Hk|apply Hp].
Qed.
Lemma mail_steps_kept key attempt lease s s' :
  rtc mail_step s s' → mail_keyed s → (∀ n, (s.(St.rng) ≤ n)%nat → uuid n ≠ key) → pinned key attempt lease s →
  pinned key attempt lease s'.
Proof.
  induction 1 as [|s s1 s' Hstep _ IH]; [done|]. intros Hk Hf Hp.
  destruct (mail_step_kept _ _ _ _ _ Hstep Hk Hf Hp) as (? & ? & ?). by apply IH.
Qed.

(** C26: an attempt to send an account message is pinned at most once, and only while its
    message is due, its worker holds the lease and its proof is still valid: whatever
    claims, reports, clean-ups and new messages come in between, the second worker that
    comes with the same attempt and lease is told not to send. *)
Theorem mail_dispatched_once key attempt lease s s1 s2 b s3 :
  mail_keyed s →
  begin_mail_dispatch key attempt lease s = (Ok true, s1) →
  (∀ n, (s1.(St.rng) ≤ n)%nat → uuid n ≠ key) →
  rtc mail_step s1 s2 →
  begin_mail_dispatch key attempt lease s2 = (Ok b, s3) →
  b = false ∧ ∃ d, s.(St.db) !! (MAIL, key) = Some (RMailDelivery d)
    ∧ d.(MailDelivery.attempts) = attempt ∧ d.(MailDelivery.lease) = Some lease
    ∧ d.(MailDelivery.delivered_at) = None ∧ d.(MailDelivery.stopped) = false
    ∧ s.(St.clock) < d.(MailDelivery.next_attempt) ∧ s.(St.clock) < d.(MailDelivery.expires_at)
    ∧ is_Some (s.(St.db) !! (PROOFS, d.(MailDelivery.proof))).
Proof.
  intros Hk Hb Hf Hrun Hb2. apply begin_row in Hb as (H1 & Hb). destruct (Hb eq_refl) as ((d & ?) & Hp).
  destruct (one_row_kept _ _ _ H1 Hk) as (Hk1 & _ & _). pose proof (mail_steps_kept _ _ _ _ _ Hrun Hk1 Hf Hp) as Hp2.
  split; [|exists d; naive_solver]. apply begin_row in Hb2 as (_ & Hb2). destruct b; [exfalso|done].
  destruct (Hb2 eq_refl) as ((d2 & Hd2 & Ha & Hl & _ & _ & Hns & _) & _).
  destruct (Hp2 _ Hd2) as [?|[_ [?|?]]]; [lia|done|done].
Qed.
End outbox.

(** ** A message on its way *)

Module MailDemo.
#[local] Existing Instance Demo.env.
#[global] Instance port : MailPort := {| mail_configured := true; address_parses _ := true |}.

(** Amy's address is verified; a reset is queued, claimed and pinned. *)
Definition amy : User.t :=
  User.mk false TotpSettings.default "seed" "u-amy" "amy" (Some "amy@example.org") "Amy" "$argon2id$old" true false 1
    (Some "SECRET") None None 100 ∅ true ∅ ∅.
Definition start : St.t := St.mk {[ ("users", "u-amy") := RUser amy; ("usernames", "amy") := RString "u-amy" ]} 1000 0 None.
Definition queued : St.t := (enqueue amy ResetPassword ∅ None start).2.
Definition key : string := "id-1".
Definition row (s : St.t) : option MailDelivery.t :=
  match s.(St.db) !! (MAIL, key) with Some (RMailDelivery d) => Some d | _ => None end.
Definition claimed : St.t :=
  match row queued with Some d => (claim_mail 0 key d queued).2 | None => queued end.
Definition lease : string := "id-2".
Definition pin (s : St.t) : Result bool * St.t := begin_mail_dispatch key 1 lease s.
(** The worker fails and reports so. *)
Definition failed : St.t := (finish_mail_attempt key 1 lease false (pin claimed).2).2.
Definition ask (t : Z) (s : St.t) : Result bool * St.t :=
  request_allowed "amy" ResetPassword (St.mk s.(St.db) t s.(St.rng) None).
End MailDemo.

(** A pinned attempt is not pinned again; a failed one waits; a later claim is another
    attempt; a new message of the purpose ends the old one. *)
Example mail_run :
  (MailDemo.pin MailDemo.claimed).1 = Ok true
  ∧ (MailDemo.pin (MailDemo.pin MailDemo.claimed).2).1 = Ok false
  ∧ (MailDemo.pin MailDemo.failed).1 = Ok false
  ∧ MailDelivery.next_attempt <$> MailDemo.row MailDemo.failed = Some 1002
  ∧ (MailDemo.pin (@enqueue Demo.env _ MailDemo.amy ResetPassword ∅ None MailDemo.claimed).2).1 = Ok false.
Proof. split_and!; by_vm. Qed.
(** Five requests in an hour, one a minute. *)
Example limits_run :
  let s5 := (MailDemo.ask 1240 (MailDemo.ask 1180 (MailDemo.ask 1120 (MailDemo.ask 1060 (MailDemo.ask 1000 MailDemo.start).2).2).2).2).2 in
  (MailDemo.ask 1030 (MailDemo.ask 1000 MailDemo.start).2).1 = Ok false ∧ (MailDemo.ask 1060 (MailDemo.ask 1000 MailDemo.start).2).1 = Ok true
  ∧ (MailDemo.ask 1300 s5).1 = Ok false ∧ (MailDemo.ask 4600 s5).1 = Ok true.
Proof. split_and!; by_vm. Qed.

Lemma id_later n : (2 ≤ n)%nat → uuid (Env:=Demo.env) n ≠ "id-1".
Proof.
  intros Hn Heq. change ("id-" +:+ pretty.pretty (Z.of_nat n) = "id-" +:+ pretty.pretty 1%Z) in Heq.
  apply (inj (String.append "id-")), (inj pretty.pretty) in Heq. lia.
Qed.
Definition mail_row_keyed (k : string * string) (w : row) : bool :=
  match w with RMailDelivery d => String.eqb d.(MailDelivery.id) k.2 | _ => true end.
Lemma mails_keyed s : map_Forall (λ k w, mail_row_keyed k w = true) s.(St.db) → mail_keyed s.
Proof. intros H k d Hd. apply H in Hd. by apply String.eqb_eq in Hd. Qed.
Lemma mail_dispatched_once_witness :
  (begin_mail_dispatch MailDemo.key 1 MailDemo.lease MailDemo.failed).1 = Ok false.
Proof.
  destruct (begin_mail_dispatch MailDemo.key 1 MailDemo.lease MailDemo.failed) as [r s3] eqn:H3.
  assert (Hr : ∃ b, r = Ok b) by (exists false; change r with (r, s3).1; rewrite <- H3; by_vm). destruct Hr as [b ->].
  destruct (begin_mail_dispatch MailDemo.key 1 MailDemo.lease MailDemo.claimed) as [r1 s1] eqn:H1.
  assert (Hr : r1 = Ok true) by (change r1 with (r1, s1).1; rewrite <- H1; by_vm). subst r1.
  assert (Hn : s1.(St.rng) = 3%nat) by (change s1 with (Ok true, s1).2; rewrite <- H1; by_vm).
  destruct (@mail_dispatched_once Demo.env MailDemo.port MailDemo.key 1 MailDemo.lease MailDemo.claimed s1
    MailDemo.failed b s3) as [-> _]; [|exact H1| | |exact H3|done].
  - apply mails_keyed. rows_checked.
  - intros n Hle. rewrite Hn in Hle. apply id_later. lia.
  - apply rtc_once. apply (ms_finish MailDemo.key 1 MailDemo.lease false).
    assert (Hs1 : s1 = (MailDemo.pin MailDemo.claimed).2) by (unfold MailDemo.pin; by rewrite H1).
    rewrite Hs1. by_vm.
Defined.
