(* ===== verification/Lifecycle.v ===== *)
(** * Account lifecycle (src/src/lifecycle.rs, lifecycle/workflow.rs,
    lifecycle/invitation.rs, management.rs)

    What a proof sent by mail can do: verify the address, reset the password, or
    accept an invitation.  A reset needs the newest proof of an enabled account at
    its credential epoch, sent to its verified address, or, when an operator may
    know the credentials, to the address that was verified before; then the
    factors go too.  An invitation makes a disabled account that only its proof
    can open, under the authority its creator still has.  Each success uses the
    proof up and begins a new credential epoch.

    [account_complete] is the Essentials edition's; the other edition hands the
    same [VerifiedReset] and [VerifiedInvitation] to its workflows, which commit
    them. *)

From S2P Require Import Prelude Json Model Store Env Provider Jose Delegation Agents Redaction Identities Logout Credentials Signin Management Maintenance Exposure Groups Reviews Mail.

#[local] Set Warnings "-clear-no-such-hyp".

(** The user with another address, verified or not. *)
Definition with_email (u : User.t) (email : option string) (verified : bool) : User.t :=
  User.mk u.(User.has_passkeys) u.(User.totp_settings) u.(User.pairwise_seed) u.(User.id) u.(User.username) email
    u.(User.display_name) u.(User.password_hash) u.(User.enabled) u.(User.admin) u.(User.epoch) u.(User.totp_secret)
    u.(User.totp_pending) u.(User.totp_last_step) u.(User.created_at) u.(User.attributes) verified u.(User.subjects)
    u.(User.recovery_codes).
Definition without_factors (u : User.t) : User.t :=
  User.mk false TotpSettings.default u.(User.pairwise_seed) u.(User.id) u.(User.username) u.(User.email)
    u.(User.display_name) u.(User.password_hash) u.(User.enabled) u.(User.admin) u.(User.epoch) None None None
    u.(User.created_at) u.(User.attributes) u.(User.email_verified) u.(User.subjects) ∅.
(** [accept_invitation]: enabled, the address verified, one epoch on. *)
Definition activated (u : User.t) : User.t :=
  User.mk u.(User.has_passkeys) u.(User.totp_settings) u.(User.pairwise_seed) u.(User.id) u.(User.username)
    u.(User.email) u.(User.display_name) u.(User.password_hash) true u.(User.admin) (wadd u.(User.epoch) 1)
    u.(User.totp_secret) u.(User.totp_pending) u.(User.totp_last_step) u.(User.created_at) u.(User.attributes) true
    u.(User.subjects) u.(User.recovery_codes).
Definition invited (u : User.t) (email : string) (display_name : string) : User.t :=
  User.mk u.(User.has_passkeys) u.(User.totp_settings) u.(User.pairwise_seed) u.(User.id) u.(User.username)
    (Some email) display_name u.(User.password_hash) u.(User.enabled) u.(User.admin) u.(User.epoch)
    u.(User.totp_secret) u.(User.totp_pending) u.(User.totp_last_step) u.(User.created_at) u.(User.attributes)
    u.(User.email_verified) u.(User.subjects) u.(User.recovery_codes).

(** [lifecycle::Invitation]. *)
Module Invitation.
Record t := mk { username : string; email : string; display_name : string; groups : gset string }.
End Invitation.
(** [workflow::Pin] and [VerifiedReset]. *)
Module ResetPin.
Record t := mk { hash : string; proof : AccountProof.t; verified_at : Z; exposure : option string }.
End ResetPin.
Module VerifiedReset.
Record t := mk { pin : ResetPin.t; plaintext : string; password_hash : string }.
End VerifiedReset.
(** [invitation::Pin] of a password, and [Verified]. *)
Module InvitationPin.
Record t := mk {
  hash : string;
  proof : AccountProof.t;
  reservation : InvitationReservation.t;
  verified_at : Z;
  exposure : option string;
}.
End InvitationPin.
Module VerifiedInvitation.
Record t := mk { pin : InvitationPin.t; plaintext : string; hash : string }.
End VerifiedInvitation.

Section lifecycle.
Context {E : Env} {L : ApplyLease} {P : MailPort}.

(** ** Recovery *)

(** Whether a reset may go to this address. *)
Definition recovery_address (exposure : option CredentialExposure.t) (user : User.t) (email : string) : bool :=
  match exposure with
  | Some e => allows_recovery e user email
  | None => user.(User.email_verified) && bool_decide (user.(User.email) = Some email)
  end.
Definition reset_authority (hash : string) (proof : AccountProof.t) (at_ : Z) : tx User.t :=
  user ← get User.t "users" proof.(AccountProof.user_id);
  user ← some_or user Error.forbidden;
  exposure ← credential_exposure user.(User.id);
  latest ← get string LATEST (proof_key user ResetPassword);
  kind ← kind_of user;
  _ ← ensure (bool_decide (proof.(AccountProof.purpose) = ResetPassword)
              && (at_ <? proof.(AccountProof.expires_at)) && user.(User.enabled)
              && (user.(User.epoch) =? proof.(AccountProof.epoch))
              && recovery_address exposure user proof.(AccountProof.email)
              && bool_decide (latest = Some hash)
              && match kind with KindLocal => true | _ => false end) Error.forbidden;
  mret user.

(** [passkey::clear] and [mtls::clear_user_binding]. *)
Definition clear_passkeys (user_id : string) : tx unit :=
  rows ← list_all PasskeyCredential.t "passkeys";
  for_each (λ c, remove "passkeys" c.(PasskeyCredential.id))
    (List.filter (λ c, String.eqb c.(PasskeyCredential.user_id) user_id) rows.*2).
Definition end_binding_session (binding_id : string) (row : string * Session.t) : tx unit :=
  let '(sid, s) := row in
  if s.(Session.revoked) then mret ()
  else
    link ← get MtlsLoginLink.t "mtls_logins" sid;
    match link with
    | Some link =>
        if String.eqb link.(MtlsLoginLink.binding_id) binding_id then
          _ ← put "sessions" sid (Session.mk s.(Session.id) s.(Session.token_hash) s.(Session.identity)
                                    s.(Session.expires_at) true);
          _ ← remove "mtls_logins" sid;
          queue_session sid
        else mret ()
    | None => mret ()
    end.
Definition clear_binding (b : MtlsBinding.t) : tx unit :=
  _ ← match b.(MtlsBinding.fingerprint) with Some v => remove "mtls_fingerprints" v | None => mret () end;
  _ ← match b.(MtlsBinding.san_email) with Some v => remove "mtls_san_emails" (digest v) | None => mret () end;
  _ ← match b.(MtlsBinding.san_uri) with Some v => remove "mtls_san_uris" (digest v) | None => mret () end;
  _ ← remove "mtls_users" b.(MtlsBinding.user_id);
  remove "mtls_bindings" b.(MtlsBinding.id).
Definition clear_user_binding (user_id : string) : tx unit :=
  bid ← get string "mtls_users" user_id;
  match bid with
  | Some bid =>
      b ← get MtlsBinding.t "mtls_bindings" bid;
      match b with
      | Some b =>
          sessions ← list_all Session.t "sessions";
          _ ← for_each (end_binding_session b.(MtlsBinding.id)) sessions;
          clear_binding b
      | None => mret ()
      end
  | None => mret ()
  end.
(** [reset_exposed_factors]; only one edition has certificate logins. *)
Definition reset_exposed_factors (platform : bool) (user : User.t) : tx (User.t * bool) :=
  exposure ← credential_exposure user.(User.id);
  match exposure with
  | None => mret (user, false)
  | Some e =>
      email ← some_or e.(CredentialExposure.verified_email) Error.forbidden;
      _ ← clear_passkeys user.(User.id);
      _ ← (if platform then clear_user_binding user.(User.id) else mret ());
      _ ← remove CREDENTIAL_EXPOSURE user.(User.id);
      mret (without_factors (with_email user (Some email) true), true)
  end.

Definition account_changed : Error.t := Error.new CONFLICT "account_changed" "Account changed; request a new link".
Definition completion_user (proof : AccountProof.t) : tx User.t :=
  user ← get User.t "users" proof.(AccountProof.user_id);
  user ← some_or (match user with
                  | Some u => if u.(User.epoch) =? proof.(AccountProof.epoch) then Some u else None
                  | None => None
                  end) account_changed;
  exposure ← (if bool_decide (proof.(AccountProof.purpose) = ResetPassword)
              then credential_exposure user.(User.id) else mret None);
  _ ← ensure match exposure with
             | Some e => allows_recovery e user proof.(AccountProof.email)
             | None => bool_decide (user.(User.email) = Some proof.(AccountProof.email))
             end account_changed;
  mret user.

(** ** Asking for a proof *)

Definition verify_request_in (user : User.t) (s : Session.t) : tx string :=
  at_ ← now;
  _ ← ensure (negb (300 <? sat_sub at_ s.(Session.identity).(Identity.auth_time))) Error.forbidden;
  allowed ← request_allowed user.(User.username) VerifyEmail;
  if user.(User.email_verified) then mret "already_verified"
  else if negb allowed then mret "cooldown"
  else
    _ ← enqueue user VerifyEmail ∅ None;
    _ ← audit user.(User.id) "account.verification.request" user.(User.id);
    mret "queued".
Definition accepted_json : json := Json.obj [("accepted", JBool true)].
Definition account_verify_request (token : string) : tx json :=
  _ ← lift require_mail;
  write (us ← session token; _ ← verify_request_in us.1 us.2; mret accepted_json).

Definition reset_recipient (user : User.t) : tx (option string) :=
  exposure ← credential_exposure user.(User.id);
  mret match exposure with
       | Some e => recovery_email e user
       | None => if user.(User.email_verified) then user.(User.email) else None
       end.
Definition account_reset_request_in (username : string) : tx json :=
  allowed ← request_allowed username ResetPassword;
  _ ← (if (allowed : bool) then
         user ← catch (Human.user_by_name username);
         match user with
         | Err e => if Error.status e =? 404 then mret () else fail e
         | Ok user =>
             if user.(User.enabled) then
               kind ← kind_of user;
               match kind with
               | KindLocal =>
                   recipient ← reset_recipient user;
                   match recipient with
                   | Some r => enqueue (with_email user (Some r) user.(User.email_verified)) ResetPassword ∅ None
                   | None => mret ()
                   end
               | _ => mret ()
               end
             else mret ()
         end
       else mret ());
  mret accepted_json.
Definition account_reset_request (username : string) : tx json :=
  _ ← lift require_mail;
  _ ← lift (validate_name username);
  write (account_reset_request_in username).

(** ** Resetting, under a pin (lifecycle/workflow.rs) *)

Definition exposure_digest (user_id : string) : tx (option string) :=
  e ← credential_exposure user_id;
  mret ((λ e, digest (json_string (row_json (RExposure e)))) <$> e).
Definition reset_pin_authority (pin : ResetPin.t) (at_ : Z) : tx User.t :=
  let proof := pin.(ResetPin.proof) in
  exposure ← exposure_digest proof.(AccountProof.user_id);
  stored ← get AccountProof.t PROOFS pin.(ResetPin.hash);
  _ ← ensure (negb (at_ <? pin.(ResetPin.verified_at)) && bool_decide (exposure = pin.(ResetPin.exposure))
              && bool_decide (stored = Some proof)) Error.forbidden;
  reset_authority pin.(ResetPin.hash) proof at_.
Definition verified_reset (hash : string) (proof : AccountProof.t) (plaintext password_hash : string) :
    tx VerifiedReset.t :=
  exposure ← exposure_digest proof.(AccountProof.user_id);
  at_ ← now;
  let pin := ResetPin.mk hash proof at_ exposure in
  _ ← reset_pin_authority pin at_;
  mret (VerifiedReset.mk pin plaintext password_hash).
(** The writes a reset ends with. *)
Definition use_proof (user : User.t) (purpose : Purpose) (hash : string) : tx unit :=
  _ ← retire_proof hash UsedProof;
  remove LATEST (proof_key user purpose).
Definition publish (user : User.t) (purpose : Purpose) : tx unit :=
  _ ← put "users" user.(User.id) user;
  _ ← remove "attempts" user.(User.username);
  _ ← queue_user user.(User.id);
  audit user.(User.id) ("user.account." +:+ purpose_name purpose) user.(User.id).
Definition commit_reset (v : VerifiedReset.t) : tx (string * Z * Z * bool) :=
  let pin := v.(VerifiedReset.pin) in
  at_ ← now;
  user ← reset_pin_authority pin at_;
  let from_epoch := user.(User.epoch) in
  _ ← ensure (from_epoch <? u64_max) Error.forbidden;
  _ ← accept_history config.(Config.password_history) user.(User.id) user.(User.password_hash)
        v.(VerifiedReset.plaintext) v.(VerifiedReset.password_hash);
  uf ← reset_exposed_factors true user;
  let user := set_password uf.1 v.(VerifiedReset.password_hash) (from_epoch + 1) in
  _ ← use_proof user ResetPassword pin.(ResetPin.hash);
  _ ← publish user ResetPassword;
  _ ← ensure (negb (pin.(ResetPin.proof).(AccountProof.expires_at) <=? at_)) (proof_error (Some ExpiredProof));
  mret (user.(User.id), from_epoch, from_epoch + 1, uf.2).

(** ** Invitations *)

Definition pending_invitation_reservation (user : User.t) : tx (option InvitationReservation.t) :=
  if user.(User.enabled) || user.(User.admin) || negb (Str.is_empty user.(User.password_hash))
     || user.(User.email_verified) || user.(User.has_passkeys) || bool_decide (is_Some user.(User.totp_secret))
     || bool_decide (is_Some user.(User.totp_pending)) || negb (bool_decide (user.(User.recovery_codes) = ∅))
  then mret None
  else
    reservation ← get InvitationReservation.t "invitation_reservations" user.(User.id);
    match reservation with
    | Some r =>
        mret (if String.eqb r.(InvitationReservation.username) user.(User.username)
                 && (r.(InvitationReservation.epoch) =? user.(User.epoch))
                 && negb (Str.is_empty r.(InvitationReservation.created_by)) then Some r else None)
    | None =>
        hash ← get string LATEST (proof_key user InviteAccount);
        match hash with
        | None => mret None
        | Some hash =>
            proof ← get AccountProof.t PROOFS hash;
            mret match proof with
                 | None => None
                 | Some q =>
                     if bool_decide (q.(AccountProof.purpose) = InviteAccount)
                        && String.eqb q.(AccountProof.user_id) user.(User.id)
                        && (q.(AccountProof.epoch) =? user.(User.epoch))
                        && bool_decide (user.(User.email) = Some q.(AccountProof.email))
                     then match q.(AccountProof.creator) with
                          | Some creator =>
                              if Str.is_empty creator then None
                              else Some (InvitationReservation.mk user.(User.username) creator user.(User.epoch))
                          | None => None
                          end
                     else None
                 end
        end
    end.
Definition rebase_invitation_reservation (user_id username : string) (old_epoch new_epoch : Z) : tx unit :=
  reservation ← get InvitationReservation.t "invitation_reservations" user_id;
  match reservation with
  | Some r =>
      if String.eqb r.(InvitationReservation.username) username && (r.(InvitationReservation.epoch) =? old_epoch)
      then put "invitation_reservations" user_id
             (InvitationReservation.mk r.(InvitationReservation.username) r.(InvitationReservation.created_by) new_epoch)
      else mret ()
  | None => mret ()
  end.

(** [creator] and [acceptance_authorized]. *)
Definition invitation_creator (id : string) : tx Principal.t :=
  match Str.strip_prefix "agent:" id with
  | Some name =>
      agent ← get Agent.t "agents" name;
      agent ← some_or agent Error.forbidden;
      p ← live_principal agent;
      some_or p Error.forbidden
  | None =>
      user ← get User.t "users" id;
      _ ← some_or (match user with
                   | Some u => if u.(User.enabled) && u.(User.admin) then Some u else None
                   | None => None
                   end) Error.forbidden;
      mret (Principal.mk id false false [] [])
  end.
Definition group_open (actor : Principal.t) (name : string) : tx bool :=
  if negb (Principal.allows actor "group.members" ("group/" +:+ name)) then mret false
  else
    g ← get Group.t "groups" name;
    mret match g with Some g => String.eqb g.(Group.name) name | None => false end.
Definition acceptance_authorized (user : User.t) (proof : AccountProof.t) : tx bool :=
  match proof.(AccountProof.creator) with
  | None => mret false
  | Some id =>
      actor ← catch (invitation_creator id);
      match actor with
      | Err e => if Error.status e =? FORBIDDEN then mret false else fail e
      | Ok actor =>
          if negb (Principal.allows actor "user.write" ("user/" +:+ user.(User.username))) then mret false
          else
            closed ← any_m (λ name, o ← group_open actor name; mret (negb o)) (btree_iter proof.(AccountProof.groups));
            mret (negb closed)
      end
  end.

Definition passkey_count (user_id : string) : tx nat :=
  rows ← list_all PasskeyCredential.t "passkeys";
  mret (length (List.filter (λ c, String.eqb c.(PasskeyCredential.user_id) user_id) rows.*2)).
Definition invitation_authority (pin : InvitationPin.t) (at_ : Z) : tx User.t :=
  let proof := pin.(InvitationPin.proof) in
  user ← get User.t "users" proof.(AccountProof.user_id);
  user ← some_or user Error.forbidden;
  _ ← ensure (bool_decide (proof.(AccountProof.purpose) = InviteAccount) && negb (at_ <? pin.(InvitationPin.verified_at))
              && (at_ <? proof.(AccountProof.expires_at)) && String.eqb user.(User.id) proof.(AccountProof.user_id)
              && (user.(User.epoch) =? proof.(AccountProof.epoch))
              && bool_decide (user.(User.email) = Some proof.(AccountProof.email))) Error.forbidden;
  name ← get string "usernames" user.(User.username);
  stored ← get AccountProof.t PROOFS pin.(InvitationPin.hash);
  latest ← get string LATEST (proof_key user InviteAccount);
  _ ← ensure (bool_decide (name = Some user.(User.id)) && bool_decide (stored = Some proof)
              && bool_decide (latest = Some pin.(InvitationPin.hash))) Error.forbidden;
  reservation ← pending_invitation_reservation user;
  kind ← kind_of user;
  keys ← passkey_count user.(User.id);
  exposure ← exposure_digest user.(User.id);
  _ ← ensure (bool_decide (reservation = Some pin.(InvitationPin.reservation))
              && match kind with KindNone => true | _ => false end && (keys =? 0)%nat
              && bool_decide (user.(User.totp_last_step) = None)
              && bool_decide (exposure = pin.(InvitationPin.exposure))) Error.forbidden;
  allowed ← acceptance_authorized user proof;
  _ ← ensure allowed Error.forbidden;
  mret user.
Definition verified_invitation (hash : string) (proof : AccountProof.t) (plaintext password_hash : string) :
    tx VerifiedInvitation.t :=
  user ← get User.t "users" proof.(AccountProof.user_id);
  user ← some_or user Error.forbidden;
  reservation ← pending_invitation_reservation user;
  reservation ← some_or reservation Error.forbidden;
  exposure ← exposure_digest user.(User.id);
  at_ ← now;
  let pin := InvitationPin.mk hash proof reservation at_ exposure in
  _ ← invitation_authority pin at_;
  mret (VerifiedInvitation.mk pin plaintext password_hash).

(** [delegation::mark_invitation_exposure] and [management::accept_invitation]. *)
Definition mark_invitation_exposure (actor : Principal.t) (user : User.t) : tx unit :=
  mark_credential_exposure actor (with_email user user.(User.email) false).
Definition accept_invitation (actor : Principal.t) (user : User.t) (groups : gset string) : tx User.t :=
  _ ← lift (Principal.require actor "user.write" ("user/" +:+ user.(User.username)));
  _ ← (if actor.(Principal.agent) then mark_invitation_exposure actor user else mret ());
  _ ← for_each (λ name, _ ← write_group actor name (MemberIntent user.(User.id) true) DeferredAudit; mret ())
        (btree_iter groups);
  mret (activated user).
Definition commit_invitation (v : VerifiedInvitation.t) : tx (string * Z * Z) :=
  let pin := v.(VerifiedInvitation.pin) in
  let proof := pin.(InvitationPin.proof) in
  at_ ← now;
  user ← invitation_authority pin at_;
  let from_epoch := user.(User.epoch) in
  _ ← ensure (from_epoch <? u64_max) Error.forbidden;
  let to_epoch := from_epoch + 1 in
  _ ← accept_history config.(Config.password_history) user.(User.id) user.(User.password_hash)
        v.(VerifiedInvitation.plaintext) v.(VerifiedInvitation.hash);
  creator ← some_or proof.(AccountProof.creator) Error.forbidden;
  actor ← invitation_creator creator;
  user ← accept_invitation actor user proof.(AccountProof.groups);
  _ ← ensure (user.(User.epoch) =? to_epoch) (Error.conflict "Invitation credential epoch changed");
  let user := set_password user v.(VerifiedInvitation.hash) user.(User.epoch) in
  _ ← use_proof user InviteAccount pin.(InvitationPin.hash);
  _ ← remove "invitation_reservations" user.(User.id);
  _ ← publish user InviteAccount;
  _ ← ensure (negb (proof.(AccountProof.expires_at) <=? at_)) (proof_error (Some ExpiredProof));
  mret (user.(User.id), from_epoch, to_epoch).

(** [core::make_user], of an account that cannot sign in yet. *)
Definition make_invited (input : Invitation.t) : tx User.t :=
  let name := if Str.is_empty input.(Invitation.display_name) then input.(Invitation.username)
              else input.(Invitation.display_name) in
  password ← random_token "";
  _ ← lift (validate_name input.(Invitation.username));
  _ ← lift (validate_email input.(Invitation.email));
  _ ← lift (validate_display name);
  seed ← random_token "";
  uid ← id;
  _ ← password_hash password;
  at_ ← now;
  mret (User.mk false TotpSettings.default seed uid input.(Invitation.username) (Some input.(Invitation.email)) name ""
          false false 0 None None None at_ ∅ false ∅ ∅).
Definition queued_json (user : User.t) : json :=
  Json.obj [("user", user_view user); ("delivery_queued", JBool true)].
Definition invite_group (actor : Principal.t) (name : string) : tx unit :=
  _ ← lift (Principal.require actor "group.members" ("group/" +:+ name));
  g ← get Group.t "groups" name;
  _ ← some_or g (Error.missing "Invitation group not found");
  mret ().
(** An account of that name that was invited before. *)
Definition reissue_invitation (actor : Principal.t) (input : Invitation.t) (uid : string) : tx json :=
  user ← get User.t "users" uid;
  user ← some_or user (Error.conflict "User already exists");
  reservation ← pending_invitation_reservation user;
  reservation ← some_or reservation (Error.conflict "User already exists");
  _ ← (if actor.(Principal.agent) then mark_invitation_exposure actor user else mret ());
  let user := invited user input.(Invitation.email) input.(Invitation.display_name) in
  _ ← put "users" user.(User.id) user;
  _ ← put "invitation_reservations" user.(User.id) reservation;
  _ ← enqueue user InviteAccount input.(Invitation.groups) (Some actor.(Principal.id));
  _ ← audit actor.(Principal.id) "user.invitation.reissue" user.(User.id);
  mret (queued_json user).
Definition invite_user (actor : Principal.t) (input : Invitation.t) : tx json :=
  _ ← lift (Principal.require actor "user.write" ("user/" +:+ input.(Invitation.username)));
  _ ← lift (validate_name input.(Invitation.username));
  _ ← lift (validate_display input.(Invitation.display_name));
  _ ← lift (lifecycle_email input.(Invitation.email));
  _ ← for_each (invite_group actor) (btree_iter input.(Invitation.groups));
  existing ← get string "usernames" input.(Invitation.username);
  match existing with
  | Some uid => reissue_invitation actor input uid
  | None =>
      user ← make_invited input;
      _ ← put "users" user.(User.id) user;
      _ ← put "usernames" user.(User.username) user.(User.id);
      _ ← (if actor.(Principal.agent) then mark_invitation_exposure actor user
           else if negb actor.(Principal.delegated) then record_elevation_provenance user HumanInvite
           else mret ());
      _ ← put "invitation_reservations" user.(User.id)
            (InvitationReservation.mk user.(User.username) actor.(Principal.id) user.(User.epoch));
      _ ← enqueue user InviteAccount input.(Invitation.groups) (Some actor.(Principal.id));
      _ ← audit actor.(Principal.id) "user.invite" user.(User.id);
      mret (queued_json user)
  end.

Definition revoke_invitation_proof (user : User.t) : tx bool :=
  let key := proof_key user InviteAccount in
  hash ← get string LATEST key;
  match hash with
  | None => mret false
  | Some hash => _ ← retire_proof hash RevokedProof; _ ← remove LATEST key; mret true
  end.
Definition revoke_invitation (actor : Principal.t) (username : string) : tx json :=
  _ ← lift (Principal.require actor "user.write" ("user/" +:+ username));
  user ← Human.user_by_name username;
  reservation ← pending_invitation_reservation user;
  _ ← match reservation with
      | Some r => put "invitation_reservations" user.(User.id) r
      | None => mret ()
      end;
  _ ← revoke_invitation_proof user;
  _ ← audit actor.(Principal.id) "user.invitation.revoke" user.(User.id);
  mret (Json.obj [("revoked", JBool true)]).
Definition require_invitation_retry_binding : tx unit :=
  context ← current;
  match context with
  | Some c =>
      ensure (negb (bool_decide (c.(RequestContext.idempotency_key) = None)
                    || bool_decide (c.(RequestContext.revision) = None)))
        (Error.new 428 "precondition_required" "Invitation writes require Idempotency-Key and If-Match")
  | None => mret ()
  end.
Definition account_invite (token : string) (input : Invitation.t) : tx json :=
  _ ← require_invitation_retry_binding;
  _ ← lift require_mail;
  write (mutation token (actor ← principal token; invite_user actor input)).
Definition account_invitation_revoke (token username : string) : tx json :=
  _ ← require_invitation_retry_binding;
  write (mutation token (actor ← principal token; revoke_invitation actor username)).

(** ** Completing *)

(** What the submission must look like. *)
Definition completion_shape (token : string) (purpose : Purpose) (password : option string) : Result unit :=
  if negb (Str.starts_with token "ri_mail_") || (128 <? Str.len token) then Err (proof_error None)
  else match purpose, password with
       | VerifyEmail, Some _ => Err (Error.bad "Verification does not accept a password")
       | VerifyEmail, None => Ok ()
       | _, None => Err (Error.bad "New password required")
       | _, Some _ => Ok ()
       end.
(** The read that comes before hashing. *)
Definition completion_admitted (hash : string) (purpose : Purpose) : tx unit :=
  at_ ← now;
  proof ← completion_proof hash purpose at_;
  _ ← completion_user proof;
  match purpose with
  | ResetPassword => _ ← reset_authority hash proof at_; mret ()
  | _ => mret ()
  end.
Definition completed (login_required factors_reset : bool) : json :=
  Json.obj ([("completed", JBool true); ("login_required", JBool login_required)]
            ++ if factors_reset then [("factors_reset", JBool true)] else []).
(** The write; [hashed] is the new password and its hash. *)
Definition complete_in (hash : string) (purpose : Purpose) (hashed : option (string * string)) : tx json :=
  at_ ← now;
  proof ← completion_proof hash purpose at_;
  user ← completion_user proof;
  kind ← kind_of user;
  match purpose with
  | VerifyEmail =>
      _ ← ensure user.(User.enabled) Error.forbidden;
      let user := with_email user user.(User.email) true in
      _ ← use_proof user VerifyEmail hash;
      _ ← put "users" user.(User.id) user;
      _ ← audit user.(User.id) ("user.account." +:+ purpose_name VerifyEmail) user.(User.id);
      mret (completed false false)
  | ResetPassword =>
      _ ← ensure (user.(User.enabled) && match kind with KindLocal => true | _ => false end) Error.forbidden;
      _ ← reset_authority hash proof at_;
      ph ← some_or hashed (Error.bad "New password required");
      _ ← accept_history config.(Config.password_history) user.(User.id) user.(User.password_hash) ph.1 ph.2;
      uf ← reset_exposed_factors false (set_password user ph.2 user.(User.epoch));
      let user := uf.1 in
      _ ← ensure (user.(User.epoch) <? u64_max) Error.forbidden;
      let user := set_password user ph.2 (user.(User.epoch) + 1) in
      _ ← use_proof user ResetPassword hash;
      _ ← publish user ResetPassword;
      mret (completed true uf.2)
  | InviteAccount =>
      _ ← ensure (negb user.(User.enabled) && negb user.(User.admin) && Str.is_empty user.(User.password_hash))
            Error.forbidden;
      ph ← some_or hashed (Error.bad "New password required");
      v ← verified_invitation hash proof ph.1 ph.2;
      _ ← commit_invitation v;
      mret (completed true false)
  end.
Definition account_complete (token : string) (purpose : Purpose) (password : option string) : tx json :=
  _ ← lift (completion_shape token purpose password);
  let hash := digest token in
  _ ← read (completion_admitted hash purpose);
  hashed ← match password with
           | Some p => h ← password_hash p; mret (Some (p, h))
           | None => mret None
           end;
  write (complete_in hash purpose hashed).
End lifecycle.

(** ** Recovery is sound *)

Section recovery.
Context {E : Env} {L : ApplyLease} {P : MailPort}.
Implicit Types (s : St.t) (u : User.t) (q : AccountProof.t).

#[global] Instance pure_reset_authority h q t : Pure (reset_authority h q t).
Proof. unfold reset_authority. solve_pure. Qed.
#[global] Instance pure_completion_proof h p t : Pure (completion_proof h p t).
Proof. unfold completion_proof. solve_pure. Qed.
#[global] Instance pure_completion_user q : Pure (completion_user q).
Proof. unfold completion_user. solve_pure. Qed.
#[global] Instance pure_completion_admitted h p : Pure (completion_admitted h p).
Proof. unfold completion_admitted. solve_pure. Qed.
#[global] Instance touches_clear_passkeys i : Touches ["passkeys"] (clear_passkeys i).
Proof. unfold clear_passkeys. solve_touches. Qed.

Lemma read_state {A} (m : tx A) `{!Pure m} s r s' : read m s = (r, s') → s' = s.
Proof.
  unfold read. destruct (m s) as [r' s1] eqn:Hm. pose proof (pure_run _ _ _ _ Hm) as ->. destruct s. by intros [= _ <-].
Qed.

(** Whom a proof recovers: the live, newest proof of an enabled account at its
    credential epoch, sent to an address that may recover it. *)
Record recoverable (h : string) q u (exposure : option CredentialExposure.t) s : Prop := {
  rc_user : s.(St.db) !! ("users", q.(AccountProof.user_id)) = Some (RUser u);
  rc_purpose : q.(AccountProof.purpose) = ResetPassword;
  rc_live : s.(St.clock) < q.(AccountProof.expires_at);
  rc_enabled : u.(User.enabled) = true;
  rc_epoch : u.(User.epoch) = q.(AccountProof.epoch);
  rc_latest : s.(St.db) !! (LATEST, proof_key u ResetPassword) = Some (RString h);
  rc_exposure : s.(St.db) !! (CREDENTIAL_EXPOSURE, u.(User.id)) = RExposure <$> exposure;
  rc_address : recovery_address exposure u q.(AccountProof.email) = true;
}.
Lemma reset_authority_ok h q s u s' :
  reset_authority h q s.(St.clock) s = (Ok u, s') → ∃ exposure, recoverable h q u exposure s.
Proof.
  unfold reset_authority, credential_exposure. intros Hrun.
  apply bind_ok in Hrun as (o & s1 & [-> Hu]%get_ok & Hrun). apply bind_ok in Hrun as (u0 & s1 & [-> ->]%some_or_ok & Hrun).
  apply bind_ok in Hrun as (e & s1 & [-> He]%get_ok & Hrun). apply bind_ok in Hrun as (l & s1 & [-> Hl]%get_ok & Hrun).
  apply bind_ok in Hrun as (k & s1 & Hk & Hrun). pose proof (pure_run _ _ _ _ Hk) as ->.
  apply bind_ok in Hrun as ([] & s1 & [Hg ->]%ensure_ok & [-> ->]%ret_ok).
  repeat (apply andb_true_iff in Hg as [Hg ?]). bools. exists e. constructor; try done. by apply Z.eqb_eq.
Qed.
Lemma completion_proof_ok h p s q s' :
  completion_proof h p s.(St.clock) s = (Ok q, s') →
  s.(St.db) !! (PROOFS, h) = Some (RAccountProof q) ∧ q.(AccountProof.purpose) = p
  ∧ s.(St.clock) < q.(AccountProof.expires_at).
Proof.
  unfold completion_proof. intros Hrun. apply bind_ok in Hrun as (o & s1 & [-> Ho]%get_ok & Hrun). destruct o as [q0|].
  - case_bool_decide as Hp; [|done]. cbn [negb] in Hrun. destruct (Z.leb_spec q0.(AccountProof.expires_at) s.(St.clock)); [done|].
    apply ret_ok in Hrun as [-> ->]. done.
  - apply bind_ok in Hrun as (? & ? & _ & Hrun). done.
Qed.
Lemma completion_user_at q s u s' :
  completion_user q s = (Ok u, s') → s.(St.db) !! ("users", q.(AccountProof.user_id)) = Some (RUser u).
Proof.
  unfold completion_user. intros Hrun. apply bind_ok in Hrun as (o & s1 & [-> Ho]%get_ok & Hrun).
  apply bind_ok in Hrun as (u0 & s1 & [Hs ->]%some_or_ok & Hrun). destruct o as [u1|]; [|done].
  destruct (_ =? _); [|done]. simplify_eq.
  apply bind_ok in Hrun as (e & s1 & He & Hrun). assert (s1 = s) as ->.
  { destruct (bool_decide _); apply (pure_run _ _ _ _ He). }
  by apply bind_ok in Hrun as ([] & s1 & _ & [-> ->]%ret_ok).
Qed.

(** The account a reset stores: kept factors, or, once the credentials were exposed,
    none, and the address that was verified before. *)
Definition reset_account (exposure : option CredentialExposure.t) u (hash : string) : User.t :=
  set_password
    match exposure with
    | Some e => without_factors (with_email (set_password u hash u.(User.epoch)) e.(CredentialExposure.verified_email) true)
    | None => set_password u hash u.(User.epoch)
    end hash (u.(User.epoch) + 1).
Lemma reset_factors_ok u exposure s uf s' :
  s.(St.db) !! (CREDENTIAL_EXPOSURE, u.(User.id)) = RExposure <$> exposure →
  reset_exposed_factors false u s = (Ok uf, s') →
  uf.1 = match exposure with
         | Some e => without_factors (with_email u e.(CredentialExposure.verified_email) true)
         | None => u
         end
  ∧ s'.(St.db) !! (CREDENTIAL_EXPOSURE, u.(User.id)) = None
  ∧ ∀ b k, b ∉ ["passkeys"; CREDENTIAL_EXPOSURE] → s'.(St.db) !! (b, k) = s.(St.db) !! (b, k).
Proof.
  intros He. unfold reset_exposed_factors, credential_exposure. intros Hrun.
  apply bind_ok in Hrun as (o & s1 & [-> Ho]%get_ok & Hrun). rewrite He in Ho. destruct exposure as [e|], o as [e'|]; simplify_eq/=.
  - apply bind_ok in Hrun as (em & s1 & [Hem ->]%some_or_ok & Hrun). apply bind_ok in Hrun as ([] & s1 & Hc & Hrun).
    apply bind_ok in Hrun as ([] & s2 & [_ ->]%ret_ok & Hrun). apply bind_ok in Hrun as ([] & s2 & ->%remove_ok & [-> ->]%ret_ok).
    cbn [fst St.db St.set_db]. rewrite Hem. split_and!; [done|apply lookup_delete_eq|]. intros b k Hb.
    rewrite lookup_delete_ne by set_solver. apply (touches_at ["passkeys"] _ _ _ _ _ _ Hc). set_solver.
  - apply ret_ok in Hrun as [-> ->]. split_and!; done.
Qed.
Lemma use_proof_rows u p h s s' :
  use_proof u p h s = (Ok (), s') →
  s'.(St.db) !! (PROOFS, h) = None ∧ s'.(St.db) !! (LATEST, proof_key u p) = None
  ∧ ∀ b k, b ∉ LATEST :: PROOF_BUCKETS → s'.(St.db) !! (b, k) = s.(St.db) !! (b, k).
Proof.
  unfold use_proof. intros Hrun. apply bind_ok in Hrun as ([] & s1 & Hr & ->%remove_ok). cbn [St.db St.set_db].
  split_and!.
  - rewrite lookup_delete_ne by done. unfold retire_proof in Hr. apply bind_ok in Hr as (o & s2 & [-> Ho]%get_ok & Hr).
    destruct o as [q|]; [|by apply ret_ok in Hr as [_ ->]]. apply bind_ok in Hr as (t & s2 & [-> ->]%now_ok & Hr).
    apply bind_ok in Hr as ([] & s2 & _ & Hr). apply bind_ok in Hr as ([] & s3 & ->%remove_ok & ->%put_ok).
    cbn [St.db St.set_db]. rewrite lookup_insert_ne by done. apply lookup_delete_eq.
  - apply lookup_delete_eq.
  - intros b k Hb. rewrite lookup_delete_ne by set_solver. apply (touches_at PROOF_BUCKETS _ _ _ _ _ _ Hr). set_solver.
Qed.
Lemma publish_rows u p s s' :
  publish u p s = (Ok (), s') →
  s'.(St.db) !! ("users", u.(User.id)) = Some (RUser u)
  ∧ (∀ k, k ≠ u.(User.id) → s'.(St.db) !! ("users", k) = s.(St.db) !! ("users", k))
  ∧ ∀ b k, b ∉ ["users"; "attempts"; "rp_sessions"; "logout_deliveries"; "meta"; "audit"] →
      s'.(St.db) !! (b, k) = s.(St.db) !! (b, k).
Proof.
  unfold publish. intros Hrun. apply bind_ok in Hrun as ([] & s1 & ->%put_ok & Hrun).
  apply bind_ok in Hrun as ([] & s1 & ->%remove_ok & Hrun). apply bind_ok in Hrun as ([] & s1 & Hq & Ha).
  assert (Hend : ∀ b k, b ∉ ["rp_sessions"; "logout_deliveries"; "meta"; "audit"] → s'.(St.db) !! (b, k)
    = base.delete ("attempts", u.(User.username)) (<[("users", u.(User.id)) := RUser u]> s.(St.db)) !! (b, k)).
  { intros b k Hb. rewrite (touches_at ["meta"; "audit"] _ _ _ _ _ _ Ha) by set_solver.
    apply (touches_at ["rp_sessions"; "logout_deliveries"] _ _ _ _ _ _ Hq). set_solver. }
  split_and!.
  - rewrite Hend by bucket. rewrite lookup_delete_ne by done. apply lookup_insert_eq.
  - intros k Hk. rewrite Hend by bucket. rewrite lookup_delete_ne by done. apply lookup_insert_ne. congruence.
  - intros b k Hb. rewrite Hend by set_solver. rewrite lookup_delete_ne by set_solver. apply lookup_insert_ne. set_solver.
Qed.

(** What a reset rested on and left. *)
Record reset_done (h password hash : string) q u (exposure : option CredentialExposure.t) s s' : Prop := {
  rd_proof : s.(St.db) !! (PROOFS, h) = Some (RAccountProof q);
  rd_recoverable : recoverable h q u exposure s;
  rd_hash : ∃ salt, argon_hash salt password = Ok hash;
  rd_account : s'.(St.db) !! ("users", u.(User.id)) = Some (RUser (reset_account exposure u hash));
  rd_others : ∀ k, k ≠ u.(User.id) → s'.(St.db) !! ("users", k) = s.(St.db) !! ("users", k);
  rd_used : s'.(St.db) !! (PROOFS, h) = None ∧ s'.(St.db) !! (LATEST, proof_key u ResetPassword) = None;
  rd_recovered : s'.(St.db) !! (CREDENTIAL_EXPOSURE, u.(User.id)) = None;
}.
Lemma reset_account_id exposure u hash : User.id (reset_account exposure u hash) = User.id u.
Proof. by destruct exposure. Qed.
Lemma recoverable_users h q u u' exposure s :
  s.(St.db) !! ("users", q.(AccountProof.user_id)) = Some (RUser u) → recoverable h q u' exposure s → u' = u.
Proof. intros Hu Hr. pose proof (rc_user _ _ _ _ _ Hr). congruence. Qed.
Lemma complete_reset_ok h password hash s v s' :
  complete_in h ResetPassword (Some (password, hash)) s = (Ok v, s') →
  (∃ salt, argon_hash salt password = Ok hash) →
  ∃ q u exposure, reset_done h password hash q u exposure s s'.
Proof.
  intros Hrun Hsalt. unfold complete_in in Hrun. apply bind_ok in Hrun as (t & s1 & [-> ->]%now_ok & Hrun).
  apply bind_ok in Hrun as (q & s1 & Hq & Hrun). pose proof (pure_run _ _ _ _ Hq) as ->.
  apply completion_proof_ok in Hq as (Hrow & _ & _).
  apply bind_ok in Hrun as (u & s1 & Hu & Hrun). pose proof (pure_run _ _ _ _ Hu) as ->. apply completion_user_at in Hu.
  apply bind_ok in Hrun as (k & s1 & Hk & Hrun). pose proof (pure_run _ _ _ _ Hk) as ->.
  apply bind_ok in Hrun as ([] & s1 & [_ ->]%ensure_ok & Hrun). apply bind_ok in Hrun as (u0 & s1 & Ha & Hrun).
  pose proof (pure_run _ _ _ _ Ha) as ->. apply reset_authority_ok in Ha as [exposure Ha].
  pose proof (recoverable_users _ _ _ _ _ _ Hu Ha) as ->. apply bind_ok in Hrun as (ph & s1 & [[= <-] ->]%some_or_ok & Hrun).
  cbn [fst snd] in Hrun. apply bind_ok in Hrun as ([] & s1 & Hh & Hrun). apply bind_ok in Hrun as (uf & s2 & Hf & Hrun).
  apply reset_factors_ok with (exposure:=exposure) in Hf as (Huf & Hex & Hf2).
  2: { rewrite (touches_at [HISTORY] _ _ _ _ _ _ Hh) by bucket. apply Ha. }
  cbv zeta in Hrun. apply bind_ok in Hrun as ([] & s3 & [_ ->]%ensure_ok & Hrun).
  apply bind_ok in Hrun as ([] & s3 & (Hp & Hl & Hf3)%use_proof_rows & Hrun).
  apply bind_ok in Hrun as ([] & s4 & (Hst & Hoth & Hf4)%publish_rows & [_ ->]%ret_ok).
  assert (Hacc : set_password uf.1 hash (User.epoch uf.1 + 1) = reset_account exposure u hash)
    by (rewrite Huf; by destruct exposure).
  rewrite Hacc in *. rewrite reset_account_id in *. exists q, u, exposure. constructor; try done.
  - intros i Hi. rewrite Hoth by done. rewrite Hf3, Hf2 by bucket. apply (touches_at [HISTORY] _ _ _ _ _ _ Hh). bucket.
  - rewrite 2!Hf4 by bucket. split; [done|]. by destruct exposure.
  - rewrite Hf4, Hf3 by bucket. done.
Qed.

End recovery.

(** ** What every operation keeps

    An invariant of the account records: whatever a request or the clean-up does to
    the store, it is made of writes the invariant allows. *)

Definition ACCOUNT : list string := [PROOFS; OUTCOMES; LATEST; MAIL; LIMITS].
(** The type of the rows of these buckets. *)
Definition account_row (b : string) (w : row) : bool :=
  if String.eqb b PROOFS then match w with RAccountProof _ => true | _ => false end
  else if String.eqb b OUTCOMES then match w with RProofOutcome _ => true | _ => false end
  else if String.eqb b LATEST then match w with RString _ => true | _ => false end
  else if String.eqb b MAIL then match w with RMailDelivery _ => true | _ => false end
  else if String.eqb b LIMITS then match w with RMailLimit _ => true | _ => false end
  else true.

Class AccountInv {E : Env} (I : St.t → Prop) : Prop := {
  ai_frame s s' : I s → (s.(St.rng) ≤ s'.(St.rng))%nat →
    (∀ b k, b ∈ ACCOUNT → s'.(St.db) !! (b, k) = s.(St.db) !! (b, k)) → I s';
  ai_put s b k w : b ≠ PROOFS → account_row b w = true → I s → I (St.set_db s (<[(b, k) := w]> s.(St.db)));
  ai_remove s b k : I s → I (St.set_db s (base.delete (b, k) s.(St.db)));
  (** A proof is stored under the token drawn for it. *)
  ai_proof s q : I s →
    I (St.mk (<[(PROOFS, digest ("ri_mail_" +:+ random_bytes s.(St.rng))) := RAccountProof q]> s.(St.db))
         s.(St.clock) (S s.(St.rng)) s.(St.ctx));
  ai_rollback s s' : I s → I s' → (s.(St.rng) ≤ s'.(St.rng))%nat → I (St.set_db s' s.(St.db));
}.
Class Keeps {A} (I : St.t → Prop) (m : tx A) : Prop := keeps s :
  I s → I (m s).2 ∧ (s.(St.rng) ≤ (m s).2.(St.rng))%nat.
Create HintDb keeps discriminated.

Lemma writes_write_group {E : Env} a n i r : Writes ["groups"; MEMBERSHIP_HOLDERS; "meta"; "audit"] (write_group a n i r).
Proof.
  assert (Ha : ∀ x y, Writes ["groups"; MEMBERSHIP_HOLDERS; "meta"; "audit"] (audit_group x y))
    by (intros; apply touches_writes; apply (touches_mono ["meta"; "audit"]); [set_solver|apply _]).
  assert (Hp : ∀ g b, Writes ["groups"; MEMBERSHIP_HOLDERS; "meta"; "audit"] (persist_group g b))
    by (intros; eapply writes_mono; [|apply writes_persist]; set_solver).
  unfold write_group, write_group_inner, change_member, save_group, existing_group, validate_group_members,
    validate_group_member. cbv zeta.
  repeat first [progress intros | apply Ha | apply Hp | solve [apply touches_writes, pure_touches; apply _]
               | apply writes_bind | apply writes_for_each | case_match].
Qed.

Section kept.
Context {E : Env} {L : ApplyLease} {P : MailPort} {I : St.t → Prop} {HI : AccountInv I}.
Implicit Types (s : St.t).

Lemma account_bind {A B} (m : tx A) (f : A → tx B) : Keeps I m → (∀ a, Keeps I (f a)) → Keeps I (m ≫= f).
Proof.
  intros Hm Hf s Hs. unfold mbind, tx_bind. destruct (Hm s Hs) as [H1 H2]. destruct (m s) as [[a|e] s1]; simpl in *; [|done].
  destruct (Hf a s1 H1) as [H3 H4]. split; [done|lia].
Qed.
Lemma keeps_writes {A} bs (m : tx A) : Writes bs m → Forall (λ b, b ∉ bs) ACCOUNT → Keeps I m.
Proof.
  intros Hm Hb s Hs. destruct (Hm s) as (_ & _ & Hn & Hf). split; [|done]. eapply ai_frame; [exact Hs|done|].
  intros b k Hin. apply Hf; [|by rewrite Forall_forall in Hb; apply Hb].
  revert Hin. unfold ACCOUNT. rewrite !elem_of_cons, elem_of_nil. intros [->|[->|[->|[->|[->|[]]]]]]; done.
Qed.
Lemma keeps_touches {A} bs (m : tx A) : Touches bs m → Forall (λ b, b ∉ bs) ACCOUNT → Keeps I m.
Proof. intros Hm. by eapply keeps_writes, touches_writes. Qed.
Lemma keeps_pure {A} (m : tx A) : Pure m → Keeps I m.
Proof. intros Hm s Hs. by rewrite (pure_eq (m:=m) s). Qed.
Lemma keeps_remove b k : Keeps I (remove b k).
Proof. intros s Hs. split; [by apply ai_remove|done]. Qed.
Lemma keeps_put {T} `{Row T} b k (r : T) : b ≠ PROOFS → account_row b (encode r) = true → Keeps I (put b k r).
Proof. intros Hb Hr s Hs. split; [by apply ai_put|done]. Qed.
Lemma keeps_for_each {A} (f : A → tx unit) l : (∀ a, Keeps I (f a)) → Keeps I (for_each f l).
Proof. intros Hf. induction l; simpl; [apply keeps_pure, _|]. by apply account_bind. Qed.
Lemma keeps_catch {A} (m : tx A) : Keeps I m → Keeps I (catch m).
Proof. intros Hm s Hs. unfold catch. pose proof (Hm s Hs). by destruct (m s) as [[]]. Qed.
Lemma keeps_write {A} (m : tx A) : Keeps I m → Keeps I (write m).
Proof.
  intros Hm s Hs. unfold write. destruct (Hm s Hs) as [H1 H2]. destruct (m s) as [[a|e] s1]; [done|].
  split; [|done]. by apply ai_rollback.
Qed.
Lemma keeps_read {A} (m : tx A) : Pure m → Keeps I (read m).
Proof. intros Hm s Hs. unfold read. pose proof (pure_eq (m:=m) s) as He. destruct (m s) as [r s1]. simpl in *. subst. by destruct s. Qed.

#[local] Ltac away := repeat constructor; bucket.
#[local] Ltac solve_keeps_step :=
  first
    [ progress intros
    | solve [eauto with keeps nocore]
    | solve [apply keeps_pure; apply _]
    | solve [apply keeps_remove]
    | solve [apply keeps_put; [by vm_compute|reflexivity]]
    | solve [apply (keeps_touches []); [apply _|away]]
    | solve [eapply keeps_touches; [solve [eauto with tx nocore]|away]]
    | apply account_bind
    | apply keeps_for_each
    | apply keeps_catch
    | apply keeps_write
    | solve [apply keeps_read; apply _]
    | case_match ].
#[local] Ltac solve_keeps := repeat solve_keeps_step.

Lemma keeps_retire i r : Keeps I (retire_proof i r).
Proof. unfold retire_proof. solve_keeps. Qed.
#[local] Hint Resolve keeps_retire : keeps.
Lemma keeps_new_proof (q : AccountProof.t) (f : string → tx unit) :
  (∀ h, Keeps I (f h)) → Keeps I (token ← random_token "ri_mail_"; _ ← put PROOFS (digest token) q; f token).
Proof.
  intros Hf s Hs. unfold random_token, draw, mbind, tx_bind, mret, tx_ret, put. cbn -[digest insert random_bytes].
  edestruct (Hf ("ri_mail_" +:+ random_bytes s.(St.rng))) as [H1 H2]; [apply (ai_proof s q Hs)|].
  split; [exact H1|]. etransitivity; [|exact H2]. cbn [St.rng]. lia.
Qed.
Lemma keeps_enqueue u p g c : Keeps I (enqueue u p g c).
Proof.
  unfold enqueue, replace_latest. do 4 (apply account_bind; [solve_keeps|]; intros). apply keeps_new_proof. solve_keeps.
Qed.
#[local] Hint Resolve keeps_enqueue : keeps.
Lemma keeps_limit i o : Keeps I (update_limit_index i o).
Proof. unfold update_limit_index. cbv zeta. solve_keeps. Qed.
#[local] Hint Resolve keeps_limit : keeps.
Lemma keeps_reclaim t l : Keeps I (reclaim_limits t l).
Proof. induction l as [|[k i] l IH]; simpl; unfold delete_limit; solve_keeps. Qed.
#[local] Hint Resolve keeps_reclaim : keeps.
Lemma keeps_request_allowed u p : Keeps I (request_allowed u p).
Proof. unfold request_allowed, reclaim_expired_limits, limit_count, put_limit. cbv zeta. solve_keeps. Qed.
#[local] Hint Resolve keeps_request_allowed : keeps.
Lemma keeps_mutation token m : Keeps I m → Keeps I (mutation token m).
Proof. intros Hm. unfold mutation, mutation_checked. cbv zeta. solve_keeps. Qed.
#[local] Hint Resolve keeps_mutation : keeps.
Lemma keeps_mark a u : Keeps I (mark_credential_exposure a u).
Proof. apply (keeps_touches [CREDENTIAL_EXPOSURE; "meta"; "audit"]); [apply _|away]. Qed.
#[local] Hint Resolve keeps_mark : keeps.
Lemma keeps_reset_request u : Keeps I (account_reset_request u).
Proof. unfold account_reset_request, account_reset_request_in, reset_recipient. solve_keeps. Qed.
Lemma keeps_verify_request t : Keeps I (account_verify_request t).
Proof. unfold account_verify_request, verify_request_in. solve_keeps. Qed.

#[global] Instance pure_pending_reservation u : Pure (pending_invitation_reservation u).
Proof. unfold pending_invitation_reservation. solve_pure. Qed.
#[global] Instance pure_exposure_digest i : Pure (exposure_digest i).
Proof. unfold exposure_digest. solve_pure. Qed.
#[global] Instance pure_invitation_creator i : Pure (invitation_creator i).
Proof. unfold invitation_creator. solve_pure. Qed.
#[global] Instance pure_acceptance_authorized u q : Pure (acceptance_authorized u q).
Proof. unfold acceptance_authorized, group_open. solve_pure. Qed.
#[global] Instance pure_invitation_authority p t : Pure (invitation_authority p t).
Proof. unfold invitation_authority, passkey_count. solve_pure. Qed.
#[global] Instance pure_verified_invitation i q p ph : Pure (verified_invitation i q p ph).
Proof. unfold verified_invitation. solve_pure. Qed.
Lemma keeps_invite t i : Keeps I (account_invite t i).
Proof.
  unfold account_invite, require_invitation_retry_binding, invite_user, invite_group, reissue_invitation,
    make_invited, mark_invitation_exposure, record_elevation_provenance, password_hash. cbv zeta. solve_keeps.
Qed.
Lemma keeps_invitation_revoke t u : Keeps I (account_invitation_revoke t u).
Proof.
  unfold account_invitation_revoke, require_invitation_retry_binding, revoke_invitation, revoke_invitation_proof.
  cbv zeta. solve_keeps.
Qed.
Lemma keeps_write_group a n i r : Keeps I (write_group a n i r).
Proof. eapply keeps_writes; [apply writes_write_group|away]. Qed.
#[local] Hint Resolve keeps_write_group : keeps.
Lemma keeps_publish u p : Keeps I (publish u p).
Proof.
  assert (Hq : ∀ i, Keeps I (queue_user i))
    by (intros; apply (keeps_touches ["rp_sessions"; "logout_deliveries"]); [apply _|away]).
  unfold publish. solve_keeps.
Qed.
#[local] Hint Resolve keeps_publish : keeps.
Lemma keeps_commit_invitation v : Keeps I (commit_invitation v).
Proof. unfold commit_invitation, accept_invitation, mark_invitation_exposure, use_proof. cbv zeta. solve_keeps. Qed.
#[local] Hint Resolve keeps_commit_invitation : keeps.
Lemma keeps_complete_in i p o : Keeps I (complete_in i p o).
Proof.
  assert (Hq : ∀ i, Keeps I (clear_passkeys i)) by (intros; apply (keeps_touches ["passkeys"]); [apply _|away]).
  unfold complete_in, reset_exposed_factors, use_proof. cbv zeta. solve_keeps.
Qed.
#[local] Hint Resolve keeps_complete_in : keeps.
Lemma keeps_complete t p o : Keeps I (account_complete t p o).
Proof. unfold account_complete, password_hash. cbv zeta. solve_keeps. Qed.
Lemma keeps_cleanup t : Keeps I (lifecycle_cleanup t).
Proof.
  assert (Hp : ∀ T `{Row T} b, Keeps I (maintenance_page T b))
    by (intros; eapply keeps_touches; [apply touches_maintenance_page|away]).
  unfold lifecycle_cleanup, delete_limit, cleanup_mail. solve_keeps.
Qed.

(** What may happen to the accounts: any request of this component, succeeding or not, a
    clean-up, or anything that leaves the account records alone. *)
Inductive account_step : St.t → St.t → Prop :=
| as_verify_request token s : account_step s (account_verify_request token s).2
| as_reset_request username s : account_step s (account_reset_request username s).2
| as_invite token input s : account_step s (account_invite token input s).2
| as_invitation_revoke token username s : account_step s (account_invitation_revoke token username s).2
| as_complete token purpose password s : account_step s (account_complete token purpose password s).2
| as_cleanup t s : account_step s (write (lifecycle_cleanup t) s).2
| as_other s s' : (s.(St.rng) ≤ s'.(St.rng))%nat →
    (∀ b k, b ∈ ACCOUNT → s'.(St.db) !! (b, k) = s.(St.db) !! (b, k)) → account_step s s'.
Lemma account_steps_keep s s' : rtc account_step s s' → I s → I s'.
Proof.
  induction 1 as [|s s1 s' Hstep _ IH]; [done|]. intros Hs. apply IH. clear IH.
  destruct Hstep as [t s|u s|t i s|t u s|t p o s|t s|s s1 Hn Ho].
  - by apply (keeps_verify_request t s).
  - by apply (keeps_reset_request u s).
  - by apply (keeps_invite t i s).
  - by apply (keeps_invitation_revoke t u s).
  - by apply (keeps_complete t p o s).
  - by apply (keeps_write _ (keeps_cleanup t) s).
  - by eapply ai_frame.
Qed.
End kept.

(** ** The rows keep their types *)

Section typed.
Context {E : Env} {P : MailPort}.

(** Every row of the account buckets is of the type its bucket holds. *)
Definition typed (s : St.t) : Prop := ∀ b k w, s.(St.db) !! (b, k) = Some w → account_row b w = true.
Lemma account_row_other b w : b ∉ ACCOUNT → account_row b w = true.
Proof.
  unfold ACCOUNT. rewrite !not_elem_of_cons. intros (? & ? & ? & ? & ? & _). unfold account_row.
  do 5 (rewrite (proj2 (String.eqb_neq _ _)) by done). done.
Qed.
#[global] Instance typed_inv : AccountInv typed.
Proof.
  constructor.
  - intros s s' Hs _ Ho b k w Hw. destruct (decide (b ∈ ACCOUNT)) as [Hb|Hb]; [|by apply account_row_other].
    rewrite Ho in Hw by done. by apply (Hs b k).
  - intros s b k w _ Hr Hs b' k' w' Hw. cbn [St.db St.set_db] in Hw.
    apply lookup_insert_Some in Hw as [[[= <- <-] <-]|[_ Hw]]; [done|by apply (Hs b' k')].
  - intros s b k Hs b' k' w' Hw. cbn [St.db St.set_db] in Hw. apply lookup_delete_Some in Hw as [_ Hw]. by apply (Hs b' k').
  - intros s q Hs b' k' w' Hw. cbn [St.db] in Hw.
    apply lookup_insert_Some in Hw as [[[= <- <-] <-]|[_ Hw]]; [done|by apply (Hs b' k')].
  - intros s s' Hs _ _. exact Hs.
Qed.
Lemma typed_get T `{Row T} s b k :
  typed s → (∀ w, account_row b w = true → is_Some (decode w : option T)) → is_ok (get T b k s).1 = true.
Proof.
  intros Hs Hd. unfold get. destruct (s.(St.db) !! (b, k)) as [w|] eqn:Hw; [|done].
  destruct (Hd w (Hs _ _ _ Hw)) as [r Hr]. by rewrite Hr.
Qed.

(** C25: the account records stay well typed.  From a store whose account buckets hold
    proofs, outcomes, digests, messages and limits, whatever sequence of requests,
    completions and clean-ups runs, they still do, so that no read of them can ever fail. *)
Theorem account_rows_typed s s' :
  rtc account_step s s' → typed s →
  typed s' ∧ ∀ k, is_ok (get AccountProof.t PROOFS k s').1 = true ∧ is_ok (get ProofOutcome.t OUTCOMES k s').1 = true
    ∧ is_ok (get string LATEST k s').1 = true ∧ is_ok (get MailDelivery.t MAIL k s').1 = true
    ∧ is_ok (get (Z * Z * Z) LIMITS k s').1 = true.
Proof.
  intros Hrun Hs. pose proof (account_steps_keep _ _ Hrun Hs) as Ht. split; [done|]. intros k.
  split_and!; (apply typed_get; [done|]); intros []; try discriminate; intros _; eexists; reflexivity.
Qed.
End typed.

(** ** A proof is used once *)

Section once.
Context {E : Env} {L : ApplyLease} {P : MailPort}.
Implicit Types (s : St.t) (h : string).

(** No token still to be drawn has this digest. *)
Definition undrawn h s : Prop := ∀ n, (s.(St.rng) ≤ n)%nat → digest ("ri_mail_" +:+ random_bytes n) ≠ h.
Definition gone h s : Prop := undrawn h s ∧ s.(St.db) !! (PROOFS, h) = None.
Lemma undrawn_later h s s' : (s.(St.rng) ≤ s'.(St.rng))%nat → undrawn h s → undrawn h s'.
Proof. intros Hle Hf n Hn. apply Hf. lia. Qed.
#[global] Instance gone_inv h : AccountInv (gone h).
Proof.
  constructor.
  - intros s s' [Hu Hd] Hn Ho. split; [by eapply undrawn_later|]. rewrite Ho; [done|]. unfold ACCOUNT. set_solver.
  - intros s b k w Hb _ [Hu Hd]. split; [done|]. cbn [St.db St.set_db]. rewrite lookup_insert_ne; [done|congruence].
  - intros s b k [Hu Hd]. split; [done|]. cbn [St.db St.set_db]. apply lookup_delete_None. by right.
  - intros s q [Hu Hd]. split; [by eapply undrawn_later; [|exact Hu]; simpl; lia|]. cbn [St.db].
    rewrite lookup_insert_ne; [done|]. intros [= Heq]. by apply (Hu s.(St.rng)).
  - intros s s' [_ Hd] [Hu _] _. done.
Qed.

(** A completion uses its proof up. *)
Lemma commit_invitation_used v s r s' :
  commit_invitation v s = (Ok r, s') →
  s'.(St.db) !! (PROOFS, v.(VerifiedInvitation.pin).(InvitationPin.hash)) = None.
Proof.
  unfold commit_invitation. cbv zeta. intros Hrun. apply bind_ok in Hrun as (t & s1 & [-> ->]%now_ok & Hrun).
  apply bind_ok in Hrun as (u & s1 & _ & Hrun). apply bind_ok in Hrun as ([] & s2 & _ & Hrun).
  apply bind_ok in Hrun as ([] & s3 & _ & Hrun). apply bind_ok in Hrun as (c & s4 & _ & Hrun).
  apply bind_ok in Hrun as (a & s5 & _ & Hrun). apply bind_ok in Hrun as (u1 & s6 & _ & Hrun).
  apply bind_ok in Hrun as ([] & s7 & _ & Hrun). apply bind_ok in Hrun as ([] & s8 & (Hp & _ & _)%use_proof_rows & Hrun).
  apply bind_ok in Hrun as ([] & s9 & ->%remove_ok & Hrun).
  apply bind_ok in Hrun as ([] & s10 & (_ & _ & Hf)%publish_rows & Hrun).
  apply bind_ok in Hrun as ([] & s11 & [_ ->]%ensure_ok & [_ ->]%ret_ok). rewrite Hf by bucket.
  cbn [St.db St.set_db]. by rewrite lookup_delete_ne.
Qed.
Lemma verified_invitation_hash h q p ph s v s' :
  verified_invitation h q p ph s = (Ok v, s') → v.(VerifiedInvitation.pin).(InvitationPin.hash) = h.
Proof. unfold verified_invitation. intros Hrun. by tx_inv. Qed.
Lemma complete_in_used h p o s v s' : complete_in h p o s = (Ok v, s') → s'.(St.db) !! (PROOFS, h) = None.
Proof.
  unfold complete_in. intros Hrun. apply bind_ok in Hrun as (t & s1 & [-> ->]%now_ok & Hrun).
  apply bind_ok in Hrun as (q & s1 & _ & Hrun). apply bind_ok in Hrun as (u & s2 & _ & Hrun).
  apply bind_ok in Hrun as (k & s3 & _ & Hrun). destruct p; cbv zeta in Hrun.
  - apply bind_ok in Hrun as ([] & s4 & _ & Hrun). apply bind_ok in Hrun as ([] & s5 & (Hp & _ & _)%use_proof_rows & Hrun).
    apply bind_ok in Hrun as ([] & s6 & ->%put_ok & Hrun). apply bind_ok in Hrun as ([] & s6 & Ha & [_ ->]%ret_ok).
    rewrite (touches_at ["meta"; "audit"] _ _ _ _ _ _ Ha) by bucket. cbn [St.db St.set_db]. by rewrite lookup_insert_ne.
  - apply bind_ok in Hrun as ([] & s4 & _ & Hrun). apply bind_ok in Hrun as (x & s5 & _ & Hrun).
    apply bind_ok in Hrun as (ph & s6 & _ & Hrun). apply bind_ok in Hrun as ([] & s7 & _ & Hrun).
    apply bind_ok in Hrun as (uf & s8 & _ & Hrun). apply bind_ok in Hrun as ([] & s9 & _ & Hrun).
    apply bind_ok in Hrun as ([] & s10 & (Hp & _ & _)%use_proof_rows & Hrun).
    apply bind_ok in Hrun as ([] & s11 & (_ & _ & Hf)%publish_rows & [_ ->]%ret_ok). rewrite Hf by bucket. done.
  - apply bind_ok in Hrun as ([] & s4 & _ & Hrun). apply bind_ok in Hrun as (ph & s5 & _ & Hrun).
    apply bind_ok in Hrun as (v1 & s6 & Hv%verified_invitation_hash & Hrun).
    apply bind_ok in Hrun as (x & s7 & Hc%commit_invitation_used & [_ ->]%ret_ok). by rewrite <- Hv.
Qed.
Lemma account_complete_steps token p pw s v s' :
  account_complete token p pw s = (Ok v, s') →
  is_Some (s.(St.db) !! (PROOFS, digest token)) ∧ s'.(St.db) !! (PROOFS, digest token) = None.
Proof.
  unfold account_complete. cbv zeta. intros Hrun. apply bind_ok in Hrun as ([] & s1 & [_ ->]%lift_ok & Hrun).
  apply bind_ok in Hrun as ([] & s1 & Hrd & Hrun). apply bind_ok in Hrun as (o & s2 & _ & Hrun).
  rewrite write_ok in Hrun. split; [|by apply complete_in_used in Hrun].
  unfold read in Hrd. destruct (completion_admitted _ _ s) as [r s3] eqn:Hc. injection Hrd as -> _.
  unfold completion_admitted in Hc. apply bind_ok in Hc as (t & s4 & [-> ->]%now_ok & Hc).
  apply bind_ok in Hc as (q & s4 & (Hq & _ & _)%completion_proof_ok & _). by rewrite Hq.
Qed.

(** C18: a token is used once.  After a completion with it, whatever purpose it had,
    no completion with the same token succeeds, whichever requests, completions and
    clean-ups come in between, unless its digest is drawn again. *)
Theorem proof_used_once token p pw s v s1 s2 p' pw' v' s3 :
  account_complete token p pw s = (Ok v, s1) →
  undrawn (digest token) s1 →
  rtc account_step s1 s2 →
  account_complete token p' pw' s2 ≠ (Ok v', s3).
Proof.
  intros [_ Hd]%account_complete_steps Hu Hrun [[q Hq] _]%account_complete_steps.
  assert (Hg : gone (digest token) s2) by (by eapply account_steps_keep). destruct Hg as [_ Hn]. congruence.
Qed.
End once.

(** ** An invitation opens one account *)

Section invitations.
Context {E : Env} {L : ApplyLease} {P : MailPort}.
Implicit Types (s : St.t) (u : User.t) (q : AccountProof.t).

Lemma any_m_false {A} (f : A → tx bool) l s s' :
  (∀ a, Pure (f a)) → any_m f l s = (Ok false, s') → ∀ a, a ∈ l → f a s = (Ok false, s).
Proof.
  intros Hf. induction l as [|x l IH]; [intros _ a Ha; by apply elem_of_nil in Ha|]. intros Hrun. simpl in Hrun.
  apply bind_ok in Hrun as (b & s1 & Hx & Hrun). pose proof (pure_run _ _ _ _ Hx) as ->. destruct b; [by apply ret_ok in Hrun as [? _]|].
  intros a [->|Ha]%elem_of_cons; [done|]. by apply IH.
Qed.
#[global] Instance pure_group_open a n : Pure (group_open a n).
Proof. unfold group_open. solve_pure. Qed.

(** The creator still has the authority the invitation exercises. *)
Record still_authorized q u (actor : Principal.t) s : Prop := {
  sa_creator : ∃ c, q.(AccountProof.creator) = Some c ∧ invitation_creator c s = (Ok actor, s);
  sa_user : Principal.allows actor "user.write" ("user/" +:+ u.(User.username)) = true;
  sa_groups : ∀ name, name ∈ q.(AccountProof.groups) →
    Principal.allows actor "group.members" ("group/" +:+ name) = true
    ∧ ∃ g, s.(St.db) !! ("groups", name) = Some (RGroup g) ∧ g.(Group.name) = name;
}.
Lemma acceptance_authorized_ok u q s s' :
  acceptance_authorized u q s = (Ok true, s') → ∃ actor, still_authorized q u actor s.
Proof.
  unfold acceptance_authorized. destruct q.(AccountProof.creator) as [c|] eqn:Hc; [|by intros [? _]%ret_ok].
  intros Hrun. apply bind_ok in Hrun as (r & s1 & Hr & Hrun). rewrite catch_ok in Hr. pose proof (pure_run _ _ _ _ Hr) as ->.
  destruct r as [actor|e]; [|destruct (_ =? _); [by apply ret_ok in Hrun as [? _]|done]].
  destruct (Principal.allows actor "user.write" _) eqn:Hw; [|by apply ret_ok in Hrun as [? _]]. cbn [negb] in Hrun.
  apply bind_ok in Hrun as (closed & s1 & Hany & [Hb ->]%ret_ok). destruct closed; [done|].
  exists actor. constructor; [by exists c|done|]. intros name Hin.
  assert (Hg : ∀ n, Pure (o ← group_open actor n; mret (negb o))) by (intros n; apply _).
  apply (any_m_false _ _ _ _ Hg) with (a:=name) in Hany as Ho; [|by apply elem_of_btree_iter]. clear Hg Hany. apply bind_ok in Ho as (o & s2 & Ho & [Hn _]%ret_ok).
  destruct o; [|done]. unfold group_open in Ho. destruct (Principal.allows actor "group.members" ("group/" +:+ name)); [|by apply ret_ok in Ho as [? _]].
  cbn [negb] in Ho. apply bind_ok in Ho as (g & s3 & [-> Hrow]%get_ok & [Ho _]%ret_ok). destruct g as [g|]; [|done].
  split; [done|]. exists g. split; [done|]. by apply String.eqb_eq.
Qed.

(** What an accepted invitation rested on and left. *)
Record invitation_done (h hash : string) q u (actor : Principal.t) s s' : Prop := {
  id_proof : s.(St.db) !! (PROOFS, h) = Some (RAccountProof q) ∧ q.(AccountProof.purpose) = InviteAccount
    ∧ s.(St.clock) < q.(AccountProof.expires_at);
  id_latest : s.(St.db) !! (LATEST, proof_key u InviteAccount) = Some (RString h);
  id_account : s.(St.db) !! ("users", u.(User.id)) = Some (RUser u)
    ∧ u.(User.epoch) = q.(AccountProof.epoch) ∧ u.(User.email) = Some q.(AccountProof.email);
  id_pending : u.(User.enabled) = false ∧ u.(User.admin) = false ∧ u.(User.password_hash) = "";
  id_authority : still_authorized q u actor s;
  id_opened : s'.(St.db) !! ("users", u.(User.id))
    = Some (RUser (set_password (activated u) hash (u.(User.epoch) + 1)));
  id_others : ∀ k, k ≠ u.(User.id) → s'.(St.db) !! ("users", k) = s.(St.db) !! ("users", k);
  id_used : s'.(St.db) !! (PROOFS, h) = None ∧ s'.(St.db) !! ("invitation_reservations", u.(User.id)) = None;
}.
Lemma invitation_authority_ok pin s u s' :
  invitation_authority pin s.(St.clock) s = (Ok u, s') →
  let q := pin.(InvitationPin.proof) in
  s.(St.db) !! ("users", u.(User.id)) = Some (RUser u) ∧ u.(User.epoch) = q.(AccountProof.epoch)
  ∧ u.(User.email) = Some q.(AccountProof.email)
  ∧ s.(St.db) !! (LATEST, proof_key u InviteAccount) = Some (RString pin.(InvitationPin.hash))
  ∧ s.(St.db) !! ("users", q.(AccountProof.user_id)) = Some (RUser u)
  ∧ ∃ actor, still_authorized q u actor s.
Proof.
  unfold invitation_authority. cbv zeta. intros Hrun. apply bind_ok in Hrun as (o & s1 & [-> Ho]%get_ok & Hrun).
  apply bind_ok in Hrun as (u0 & s1 & [-> ->]%some_or_ok & Hrun). apply bind_ok in Hrun as ([] & s1 & [Hg ->]%ensure_ok & Hrun).
  repeat (apply andb_true_iff in Hg as [Hg ?]). bools.
  apply bind_ok in Hrun as (n & s1 & [-> Hn]%get_ok & Hrun). apply bind_ok in Hrun as (st & s1 & [-> Hst]%get_ok & Hrun).
  apply bind_ok in Hrun as (l & s1 & [-> Hl]%get_ok & Hrun). apply bind_ok in Hrun as ([] & s1 & [Hg2 ->]%ensure_ok & Hrun).
  repeat (apply andb_true_iff in Hg2 as [Hg2 ?]). bools.
  apply bind_ok in Hrun as (r & s1 & Hr & Hrun). pose proof (pure_run _ _ _ _ Hr) as ->.
  apply bind_ok in Hrun as (k & s1 & Hk & Hrun). pose proof (pure_run _ _ _ _ Hk) as ->.
  apply bind_ok in Hrun as (c & s1 & Hc & Hrun). assert (Pure (passkey_count (User.id u0))) by (unfold passkey_count; solve_pure).
  pose proof (pure_run _ _ _ _ Hc) as ->.
  apply bind_ok in Hrun as (x & s1 & Hx & Hrun). pose proof (pure_run _ _ _ _ Hx) as ->.
  apply bind_ok in Hrun as ([] & s1 & [_ ->]%ensure_ok & Hrun). apply bind_ok in Hrun as (a & s1 & Ha & Hrun).
  pose proof (pure_run _ _ _ _ Ha) as ->. apply bind_ok in Hrun as ([] & s1 & [-> ->]%ensure_ok & [-> ->]%ret_ok).
  match goal with H : (_ =? _) = true |- _ => apply Z.eqb_eq in H end.
  apply acceptance_authorized_ok in Ha. simplify_eq/=. split_and!; try done. congruence.
Qed.

Lemma accept_invitation_ok actor u groups s u' s' :
  accept_invitation actor u groups s = (Ok u', s') →
  u' = activated u ∧ ∀ k, s'.(St.db) !! ("users", k) = s.(St.db) !! ("users", k).
Proof.
  unfold accept_invitation. intros Hrun. apply bind_ok in Hrun as ([] & s1 & [_ ->]%lift_ok & Hrun).
  apply bind_ok in Hrun as ([] & s1 & Hm & Hrun). apply bind_ok in Hrun as ([] & s2 & Hg & [-> ->]%ret_ok). split; [done|].
  intros k. transitivity (s1.(St.db) !! ("users", k)).
  - assert (Hw : Writes ["groups"; MEMBERSHIP_HOLDERS; "meta"; "audit"]
      (for_each (λ name, _ ← write_group actor name (MemberIntent u.(User.id) true) DeferredAudit; mret ()) (btree_iter groups))).
    { apply writes_for_each. intros n. apply writes_bind; [apply writes_write_group|]. intros; apply touches_writes, pure_touches, _. }
    destruct (writes_run _ _ _ _ _ Hg) as (_ & _ & _ & Hf). apply Hf; [done|bucket].
  - destruct (Principal.agent actor); [|by apply ret_ok in Hm as [_ ->]]. unfold mark_invitation_exposure in Hm.
    apply (touches_at [CREDENTIAL_EXPOSURE; "meta"; "audit"] _ _ _ _ _ _ Hm). bucket.
Qed.
Lemma commit_invitation_ok v s r s' :
  let pin := v.(VerifiedInvitation.pin) in
  commit_invitation v s = (Ok r, s') → ∃ u actor,
    invitation_authority pin s.(St.clock) s = (Ok u, s)
    ∧ still_authorized pin.(InvitationPin.proof) u actor s
    ∧ s'.(St.db) !! ("users", u.(User.id))
      = Some (RUser (set_password (activated u) v.(VerifiedInvitation.hash) (u.(User.epoch) + 1)))
    ∧ (∀ k, k ≠ u.(User.id) → s'.(St.db) !! ("users", k) = s.(St.db) !! ("users", k))
    ∧ s'.(St.db) !! ("invitation_reservations", u.(User.id)) = None.
Proof.
  unfold commit_invitation. cbv zeta. intros Hrun. apply bind_ok in Hrun as (t & s1 & [-> ->]%now_ok & Hrun).
  apply bind_ok in Hrun as (u & s1 & Ha & Hrun). pose proof (pure_run _ _ _ _ Ha) as ->.
  destruct (invitation_authority_ok _ _ _ _ Ha) as (_ & _ & _ & _ & _ & actor & Hsa).
  apply bind_ok in Hrun as ([] & s2 & [_ ->]%ensure_ok & Hrun). apply bind_ok in Hrun as ([] & s3 & Hh & Hrun).
  apply bind_ok in Hrun as (c & s4 & [_ ->]%some_or_ok & Hrun). apply bind_ok in Hrun as (a & s5 & Hc & Hrun).
  pose proof (pure_run _ _ _ _ Hc) as ->. apply bind_ok in Hrun as (u1 & s6 & [-> Hu]%accept_invitation_ok & Hrun).
  apply bind_ok in Hrun as ([] & s7 & [Hep%Z.eqb_eq ->]%ensure_ok & Hrun). rewrite Hep in Hrun.
  apply bind_ok in Hrun as ([] & s8 & (_ & _ & Hf8)%use_proof_rows & Hrun).
  apply bind_ok in Hrun as ([] & s9 & ->%remove_ok & Hrun).
  apply bind_ok in Hrun as ([] & s10 & (Hst & Hoth & Hf)%publish_rows & Hrun).
  apply bind_ok in Hrun as ([] & s11 & [_ ->]%ensure_ok & [_ ->]%ret_ok). exists u, actor. split_and!; [done..| |].
  - intros k Hk. rewrite Hoth by done. cbn [St.db St.set_db]. rewrite lookup_delete_ne, Hf8, Hu by (done || bucket).
    apply (touches_at [HISTORY] _ _ _ _ _ _ Hh). bucket.
  - rewrite Hf by bucket. apply lookup_delete_eq.
Qed.
Lemma verified_invitation_ok h q p ph s v s' :
  verified_invitation h q p ph s = (Ok v, s') →
  v.(VerifiedInvitation.hash) = ph ∧ v.(VerifiedInvitation.pin).(InvitationPin.hash) = h
  ∧ v.(VerifiedInvitation.pin).(InvitationPin.proof) = q.
Proof. unfold verified_invitation. intros Hrun. by tx_inv. Qed.

(** C22: an invitation opens the one account it was made for.  The proof is the newest
    and unexpired, the account still waits at the epoch and address it was invited with,
    disabled and without a password, and whoever invited it is still an enabled
    administrator or a live agent that may write the account and the members of every
    group the invitation names; then the account is enabled with the chosen password one
    epoch on, no other account changes, and neither the proof nor the reservation is left. *)
Theorem invitation_sound token password s v s' :
  account_complete token InviteAccount (Some password) s = (Ok v, s') →
  ∃ q u actor hash s0, invitation_done (digest token) hash q u actor s0 s'
    ∧ s0.(St.db) = s.(St.db) ∧ s0.(St.clock) = s.(St.clock) ∧ ∃ salt, argon_hash salt password = Ok hash.
Proof.
  intros Hall. pose proof (account_complete_steps _ _ _ _ _ _ Hall) as [_ Hused]. revert Hall.
  unfold account_complete. intros Hrun. apply bind_ok in Hrun as ([] & s1 & [_ ->]%lift_ok & Hrun). cbv zeta in Hrun.
  apply bind_ok in Hrun as ([] & s1 & Hrd & Hrun). pose proof (read_state _ _ _ _ Hrd) as ->.
  apply bind_ok in Hrun as (hashed & s1 & Hh & Hrun). apply bind_ok in Hh as (hash & s2 & Hp & [-> ->]%ret_ok).
  unfold password_hash in Hp. apply bind_ok in Hp as ([] & s1 & [_ ->]%ensure_ok & Hp).
  apply bind_ok in Hp as (salt & s1 & [-> ->]%draw_ok & [Hs ->]%lift_ok). rewrite write_ok in Hrun.
  unfold complete_in in Hrun. apply bind_ok in Hrun as (t & s1 & [-> ->]%now_ok & Hrun).
  apply bind_ok in Hrun as (q & s1 & Hq & Hrun). pose proof (pure_run _ _ _ _ Hq) as ->.
  apply bind_ok in Hrun as (u & s1 & Hu & Hrun). pose proof (pure_run _ _ _ _ Hu) as ->. apply completion_user_at in Hu.
  apply bind_ok in Hrun as (k & s1 & Hk & Hrun). pose proof (pure_run _ _ _ _ Hk) as ->.
  apply bind_ok in Hrun as ([] & s1 & [Hg ->]%ensure_ok & Hrun).
  repeat (apply andb_true_iff in Hg as [Hg ?]).
  apply bind_ok in Hrun as (ph & s1 & [[= <-] ->]%some_or_ok & Hrun). cbn [fst snd] in Hrun.
  apply bind_ok in Hrun as (w & s1 & Hv & Hrun). pose proof (pure_run _ _ _ _ Hv) as ->.
  apply verified_invitation_ok in Hv as (Hvh & Hvp & Hvq). apply bind_ok in Hrun as (x & s1 & Hc & [_ ->]%ret_ok).
  apply commit_invitation_ok in Hc as (u' & actor & Ha & Hsa & Hst & Hoth & Hres). apply invitation_authority_ok in Ha
    as (Hrow & Hep & Hem & Hl & Hid & _). rewrite Hvq in *. rewrite Hvp in *. rewrite Hvh in *.
  assert (u' = u) as -> by congruence. apply completion_proof_ok in Hq.
  exists q, u, actor, hash, (St.mk s.(St.db) s.(St.clock) (S s.(St.rng)) s.(St.ctx)).
  split; [|split_and!; [done|done|by eexists]].
  constructor; try done. split_and!; try by apply negb_true_iff. by destruct (User.password_hash u).
Qed.
End invitations.

(** ** Two accounts *)

Module LifecycleDemo.
#[local] Existing Instance Demo.env.
#[local] Existing Instance MailDemo.port.
#[local] Existing Instance ReviewsDemo.lease.

(** Amy forgot her password. *)
Definition requested : St.t := (account_reset_request "amy" MailDemo.start).2.
Definition token : string := "ri_mail_r0".
Definition password : string := "battery staple horse".
Definition complete (token : string) (p : Purpose) (s : St.t) : Result json * St.t :=
  account_complete token p (Some password) s.
Definition reset : Result json * St.t := complete token ResetPassword requested.
(** The same after an operator may have learned her credentials. *)
Definition exposed : St.t :=
  St.set_db requested (<[(CREDENTIAL_EXPOSURE, "u-amy") := RExposure (CredentialExposure.mk (Some "amy@example.org") "agent:desk" 900 None)]>
    requested.(St.db)).
(** Ann invited Zed to the group "staff". *)
Definition group : Group.t := Group.mk "staff" ∅.
Definition zed : User.t :=
  User.mk false TotpSettings.default "seed-z" "u-zed" "zed" (Some "zed@example.org") "Zed" "" false false 0 None None None
    1000 ∅ false ∅ ∅.
Definition start : St.t :=
  St.mk (<[("groups", "staff") := RGroup group]> (<[("users", "u-zed") := RUser zed]>
    (<[("usernames", "zed") := RString "u-zed"]>
      (<[("invitation_reservations", "u-zed") := RReservation (InvitationReservation.mk "zed" "u-ann" 0)]>
        ReviewsDemo.db)))) 1000 4 None.
Definition invited : St.t := (enqueue zed InviteAccount {["staff"]} (Some "u-ann") start).2.
Definition invitation : string := "ri_mail_r4".
Definition accepted : Result json * St.t := complete invitation InviteAccount invited.
Definition user (id : string) (s : St.t) : option User.t :=
  match s.(St.db) !! ("users", id) with Some (RUser u) => Some u | _ => None end.
Definition members (s : St.t) : list string :=
  match s.(St.db) !! ("groups", "staff") with Some (RGroup g) => btree_iter g.(Group.members) | _ => [] end.
Definition value (r : Result json) : json := match r with Ok v => v | Err _ => JNull end.
End LifecycleDemo.

(** A reset keeps the authenticator, unless the credentials were exposed; the token does
    not work twice; a revoked invitation says so. *)
Example lifecycle_run :
  (λ u, (u.(User.epoch), u.(User.totp_secret))) <$> LifecycleDemo.user "u-amy" LifecycleDemo.reset.2 = Some (2, Some "SECRET")
  ∧ (λ u, (u.(User.epoch), u.(User.totp_secret)))
      <$> LifecycleDemo.user "u-amy" (LifecycleDemo.complete LifecycleDemo.token ResetPassword LifecycleDemo.exposed).2
    = Some (2, None)
  ∧ (LifecycleDemo.complete LifecycleDemo.token ResetPassword LifecycleDemo.reset.2).1 = Err (proof_error (Some UsedProof))
  ∧ (LifecycleDemo.complete LifecycleDemo.token InviteAccount LifecycleDemo.requested).1 = Err (proof_error None).
Proof. split_and!; by_vm. Qed.
Example invitation_run :
  User.enabled <$> LifecycleDemo.user "u-zed" LifecycleDemo.invited = Some false
  ∧ User.enabled <$> LifecycleDemo.user "u-zed" LifecycleDemo.accepted.2 = Some true
  ∧ LifecycleDemo.members LifecycleDemo.accepted.2 = ["u-zed"]
  ∧ (LifecycleDemo.complete LifecycleDemo.invitation InviteAccount
       (@account_invitation_revoke Demo.env "ann" "zed" LifecycleDemo.invited).2).1
    = Err (proof_error (Some RevokedProof)).
Proof. split_and!; by_vm. Qed.

Lemma invitation_sound_witness :
  ∃ q u actor hash s0, invitation_done (E:=Demo.env) "#ri_mail_r4" hash q u actor s0
    LifecycleDemo.accepted.2 ∧ s0.(St.db) = LifecycleDemo.invited.(St.db).
Proof.
  destruct (@invitation_sound Demo.env LifecycleDemo.invitation LifecycleDemo.password
    LifecycleDemo.invited (LifecycleDemo.value LifecycleDemo.accepted.1) LifecycleDemo.accepted.2)
    as (q & u & actor & hash & s0 & Hd & Hs & _); [ran LifecycleDemo.value LifecycleDemo.accepted|].
  exists q, u, actor, hash, s0. exact (conj Hd Hs).
Defined.
(** Amy asks for another link after her reset; the first one stays used. *)
Lemma demo_undrawn s : (1 ≤ s.(St.rng))%nat → undrawn (E:=Demo.env) (@digest Demo.env LifecycleDemo.token) s.
Proof.
  intros Hs n Hn Heq.
  change (Demo.digest_text ("ri_mail_r" +:+ pretty.pretty (Z.of_nat n)) = "#ri_mail_r" +:+ pretty.pretty 0%Z) in Heq.
  unfold Demo.digest_text in Heq. destruct (Nat.eqb _ _) in Heq; [discriminate Heq|].
  change ("#ri_mail_r" +:+ pretty.pretty (Z.of_nat n) = "#ri_mail_r" +:+ pretty.pretty 0%Z) in Heq.
  apply (inj (String.append "#ri_mail_r")), (inj pretty.pretty) in Heq. lia.
Qed.
Lemma proof_used_once_witness :
  let s2 := (@account_reset_request Demo.env MailDemo.port "amy" LifecycleDemo.reset.2).2 in
  is_ok (LifecycleDemo.complete LifecycleDemo.token ResetPassword s2).1 = false.
Proof.
  intros s2. destruct (LifecycleDemo.complete LifecycleDemo.token ResetPassword s2) as [[v'|e] s3] eqn:Hrun; [exfalso|done].
  refine (@proof_used_once Demo.env MailDemo.port LifecycleDemo.token ResetPassword (Some LifecycleDemo.password)
    LifecycleDemo.requested (LifecycleDemo.value LifecycleDemo.reset.1) LifecycleDemo.reset.2 s2 ResetPassword
    (Some LifecycleDemo.password) v' s3 _ _ _ Hrun).
  - ran LifecycleDemo.value LifecycleDemo.reset.
  - apply demo_undrawn. vm_compute. lia.
  - apply rtc_once, as_reset_request.
Defined.
Lemma rows_typed s : map_Forall (λ k w, account_row k.1 w = true) s.(St.db) → typed s.
Proof. intros H b k w Hw. exact (H _ _ Hw). Qed.
Lemma account_rows_typed_witness :
  typed LifecycleDemo.reset.2 ∧ is_ok (get MailDelivery.t MAIL MailDemo.key LifecycleDemo.reset.2).1 = true.
Proof.
  destruct (@account_rows_typed Demo.env MailDemo.port MailDemo.start LifecycleDemo.reset.2) as [Ht Hget].
  - apply (rtc_l _ _ LifecycleDemo.requested).
    { exact (@as_reset_request Demo.env MailDemo.port "amy" MailDemo.start). }
    apply rtc_once.
    exact (@as_complete Demo.env MailDemo.port LifecycleDemo.token ResetPassword (Some LifecycleDemo.password)
             LifecycleDemo.requested).
  - apply rows_typed. rows_checked.
  - destruct (Hget MailDemo.key) as (_ & _ & _ & Hm & _). exact (conj Ht Hm).
Defined.
